(* ===== verification/_CoqProject ===== *)
-Q . S2P
Prelude.v
CStr.v
IniParser.v
Rss.v
ProtoFilter.v
Callout.v
Memory.v
AbiTables.v
Syscall.v
InPcb.v
TimingWheel.v
SockBuf.v
Kqueue.v
Epoll.v
KqFair.v
PacketPath.v
Netio.v
SbQueue.v
SbAppend.v
SbStream.v
SbDgram.v
Printf.v
Kenv.v
Uio.v
Mbuf.v
MbufInv.v
MbufOps.v
MbufCopy.v
MbufBack.v
MbufSpec.v
MbufRefine.v
MbufProps.v
TcpCopy.v
Config.v
ConfigSpec.v
ConfigLoad.v
ConfigProps.v
Dispatch.v
DispatchSpec.v
DispatchProps.v
PageArray.v
PageProps.v
TcpReass.v
TcpReassSpec.v
TcpReassProps.v
TcpDeliver.v
InCksum.v
CksumProps.v
Startup.v
Messages.v
TcpSack.v
TcpHoles.v
TcpHolesSpec.v
TcpScore.v
TcpScoreProps.v
TcpOpts.v
TcpSackNet.v
