(* ===== verification/Prelude.v ===== *)
(** * F-Stack: a verification library for its C code

    F-Stack runs the FreeBSD network stack as a library in a Linux process on
    top of DPDK.  src/lib holds the glue between the stack, the host and the
    application; src/freebsd is the FreeBSD 11 kernel; src/ff_dpdk and
    src/example/fstack0 are the packet conversion and an HTTP client built on
    the library.  A process has one stack thread: frames come from the NIC
    (device.c, ff_dpdk.h), go through ff_veth into the stack, land in socket
    buffers, wake knotes of the kqueue and reach the application through
    ff_epoll_wait and the socket calls of ff_syscall_wrapper.c; timers run from
    the clock tick through the callout wheel.

    src/lib/Makefile builds ff_freebsd_init, ff_veth, ff_mbuf, ff_glue,
    ff_syscall_wrapper, ff_route, ff_compat, ff_init_main, the ff_kern_ files,
    ff_lock, ff_subr_prf, ff_vfs_ops, ff_host_interface, ff_epoll, ff_init and
    optionally ff_ng_base, ff_ngctl and ff_memory.  The files ff_dpdk_if.c,
    ff_dpdk_kni.c, ff_config.c, ff_ini_parser.c and ff_dpdk_pcap.c are kept from
    the upstream project and not built by it.

    ** Conventions

    A w-bit integer is a [Z] with the wrap-around of C written out ([u32],
    [s32], ...).  A computation that can go wrong returns an [outcome]: [Done]
    of a result, [Fault] where the C code reads or writes outside an object,
    uses freed memory or panics, and [Loop] where the fuel of a loop runs out.
    No theorem assumes that a loop ends: a theorem about a result shows that
    the fuel the definition itself computes is enough, so that [Loop] is not
    returned, and a theorem that a loop does not end is stated for every fuel.
    Code outside src/ (DPDK, libc's allocator and printing, the vendored HTTP
    parser) and the part of the kernel that is not modelled are parameters:
    classes of operations ([Kernel], [Pools], [Stack]) with their documented laws
    as hypotheses, instantiated by a concrete function in the witnesses.

    ** Files

    - Prelude: integers, the outcome monad, the list lemmas and tactics shared
      by the rest.  CStr: C strings and the libc routines on them.  Memory: byte
      stores with overlapping copies.
    - Callout (lib/ff_kern_timeout.c): the timer wheel, its per-cpu state as a
      record, callout_reset, stop, drain and the softclock loop with callbacks
      that themselves call these operations.
    - SbQueue, SbAppend, SbStream, SbDgram (freebsd/kern/uipc_sockbuf.c,
      sys/sockbuf.h): the socket buffer as a queue of records of mbufs with its
      tail, record, send and readiness pointers and its counters; append,
      compress, cut, drop, ready, flush and the kernel's own consistency checks.
    - TcpReass (freebsd/netinet/tcp_reass.c, tcp_seq.h): the reassembly queue of TCP
      over the interface [RecvBuf] of a receive buffer; TcpReassSpec: its invariant
      over positions of the stream; TcpReassProps: runs of segments and reads;
      TcpDeliver: the interface discharged with the socket buffer of SbQueue.
    - TcpSack (freebsd/netinet/tcp_sack.c): the receiver's report behind TcpReass.
      TcpHoles (tcp_sack.c, tcp_output.c): the sender's scoreboard of holes, its
      counters and hint, and what tcp_output sends from it; TcpHolesSpec: the holes
      as intervals and the one pass over blocks and holes; TcpScore: tcp_sack_doack
      on any option; TcpScoreProps: runs, the routines that read the scoreboard and
      an instance.  TcpOpts (tcp_output.c, tcp_input.c): options written and parsed;
      TcpSackNet: the receiver's report on the wire and in the scoreboard.
    - InCksum (freebsd/amd64/amd64/in_cksum.c): the Internet checksum;
      CksumProps: its equality with RFC 1071.
    - Kqueue, KqFair (freebsd/kern/kern_event.c, uipc_socket.c): registration,
      activation and scan of knotes, the filters of sockets and the changes of a
      socket that a knote watches.  Epoll (lib/ff_epoll.c): epoll on top of it.
    - Mbuf (freebsd/kern/uipc_mbuf.c, kern_mbuf.c, sys/mbuf.h): chains of mbufs
      over a store of clusters with reference counts, the allocator as a
      parameter; one definition per routine.  MbufInv: the invariant of the store
      and the primitives; MbufOps, MbufCopy, MbufBack: a specification per routine
      (joining, trimming, rearranging; copies; m_copyback).  MbufSpec: the
      abstract byte strings and the conditions of the calls; MbufRefine: the
      refinement; MbufProps: the theorems for users and their instances.
      A freed mbuf that holds the reference count of its cluster stays allocated until
      the last reference goes.  TcpCopy (freebsd/netinet/tcp_output.c): how tcp_output
      puts a segment's bytes into its packet, by copying or by sharing.
    - AbiTables, Syscall (lib/ff_syscall_wrapper.c, ff_host_interface.c): the
      Linux/FreeBSD translations of addresses, options, ioctls and errors and
      the socket calls over the interface [Kernel].  InPcb (freebsd/netinet/in_pcb.c,
      tcp_usrreq.c, udp_usrreq.c): bind and getsockname of IPv4 sockets, an instance of
      that interface.
    - PacketPath (ff_dpdk/ff_dpdk.h, lib/ff_mbuf.c, example/fstack0/device.c):
      DPDK packets to stack packets and back, receive and transmit bursts.
    - Uio (lib/ff_kern_subr.c): scatter/gather copies, hash table sizes.
      Printf (lib/ff_subr_prf.c): kvprintf.  Kenv (lib/ff_kern_environment.c):
      tunables.
    - SockBuf, Netio, TimingWheel (example/fstack0): the application's socket
      with its pool of unsent bytes, its event loop, its timer wheel.
    - Rss, ProtoFilter (lib/ff_dpdk_if.c, ff_dpdk_kni.c): the Toeplitz hash and
      connection check, the packet classifier.  IniParser (ff_ini_parser.c).
    - Config (lib/ff_config.c, ff_config.h): the configuration reader over
      IniParser; ConfigSpec: core masks, lists, search and check; ConfigLoad: the
      reader as a whole; ConfigProps: its theorems and their instances.
    - Dispatch (lib/ff_dpdk_if.c, ff_dpdk_kni.c): the packet loop of all processes
      over their shared rings: queues, dispatcher, copies of ARP and NDP, KNI and
      transmit tables; the ring is the class [Ring] with its laws, what the loop calls
      the record [env].  DispatchSpec: its invariant and that each operation keeps
      it; DispatchProps: the theorems and a system of two processes.
    - PageArray (lib/ff_memory.c, ff_host_interface.c and the FF_USE_PAGE_ARRAY parts
      of ff_dpdk_if.c): pages, physical addresses and zero-copy transmission;
      PageProps: its theorems, instances and defects.
    - Startup (lib/ff_init_main.c): sysinit_add and mi_startup, refined to a priority
      queue.  Messages (lib/ff_dpdk_if.c, ff_msg.h): the messages of the tools, their
      handlers and rings, and lib/ff_ngctl.c; the calls of the stack are a class with
      its laws.

    ** What the theorems show

    - Timers: the operations keep the wheel's invariant (draining a callout that runs
      apart, which waits for ever), an armed callout is called once at its tick
      whatever the other callouts do, a stopped one is not called; each tick
      terminates.  The application wheel calls a periodic timer once per period (when
      the period is not a whole number of turns), and can loop on short ones.
    - Socket buffers: a stream buffer refines a queue of bytes with a ready
      prefix, a datagram buffer a bounded queue of records; the counters, the
      ownership of mbufs and the kernel's consistency checks hold in every
      reachable state; the packet that tcp_output builds carries the right part of
      the stream, whether it is copied or shared, or the code drops it for ENOBUFS.
    - TCP: whatever pieces of the peer's stream arrive in the window, in any order
      and with reads between them, the application reads the stream; the missing
      segment is accepted when queue and zone are exhausted.  What the receiver
      reports in SACK blocks was accepted.  On the sender, whatever option arrives,
      the scoreboard stays ordered holes with right counters and hint, only bytes
      that the peer has reported are outside of the holes, all of them when holes can be
      allocated, and the next hole to send is the one that a full walk finds; after a
      timeout only reported bytes are skipped.  The parser of options is safe on any
      header and reads what was written, so that from end to end a byte that the
      sender takes for received was accepted by the receiver.  Checksum: the
      optimised routine is the sum of RFC 1071 over any chain of mbufs, and a
      packet that carries its checksum verifies.
    - Events: the kqueue loses no event of a socket, a change of the low-water marks
      apart (which loses one), and starves no knote; ff_epoll_ctl refines an interest
      list; ff_epoll_wait returns only ready wanted directions, and all of them for
      level-triggered registrations when there is room; EPOLLONESHOT leaves a
      descriptor stuck.
    - Mbuf chains: the chain routines refine operations on byte strings with a
      header length, in every reachable state and although chains share clusters;
      mbufs and reference counts are accounted for exactly and every mbuf stays in
      its storage; m_pullup, m_copyback, m_copym and m_dup do what they should
      while mbufs last; a failed m_split can leave a wrong header length.
    - Socket calls: addresses, options and errors survive the translation, also
      in place; a socket that ff_bind binds reports the address and port it was bound
      to, with the port the kernel chose for port 0; vector lengths are exact when
      the sum fits an int.
    - Copies: uiomove moves exactly the bytes it should; packets keep their
      bytes in both directions, and whatever the pools answer a frame echoed by the
      stack is unchanged or one of the failures of the code is what happens.
    - Application: writes keep the byte stream (a write whose pool cannot be
      allocated drops its bytes), an event batch touches no freed
      socket when it names each once (and does otherwise), a completed
      connection sends its request.
    - Classifier and hash: reads stay within two bytes of the frame, nested
      headers are classified by their payload, a zero header length recurses
      for ever; the hash is the Toeplitz hash and the check agrees with the
      table that the NIC is given.
    - Configuration: a file is read into the configuration it stands for, which
      passes the check; the reader ends on every input; core masks and lists are
      read exactly, and a list one longer than its array is written behind it.
    - Packet loop: in every interleaving of the processes no packet is lost or
      doubled and nothing faults, for frames that the classifier ends on and that are
      one segment or can be copied into mbufs; each queue is polled by one process; ARP and NDP
      frames reach all of them; a ring drains and its packets do not enter one
      again.  Page array: pages are free or out, once, and translated exactly; mbufs
      sent without copying are freed once, and only after the NIC has used all its
      descriptors again.
    - Start-up: the initialisation functions run once each, smallest pending first,
      with those that functions add; the restarts end.  Messages: one of a known type
      is answered on the ring of its type when it has room, and only netgraph messages
      open or close a descriptor.
    - Text: INI files, port lists and tunables are read back as they were
      printed; %d of kvprintf agrees with a reference formatter.

    ** Bounds and fuel

    Where a definition computes its own fuel it is two rounds per segment and
    one for [uiomove], the number of mbufs for the socket-buffer loops, 32
    doublings for a hash size of an int, and the 64 digits of the C buffer in
    [ksprintn]; for mbufs, the number of mbufs plus one in m_pullup, the header
    length plus one in m_dup, the offset, bytes and mbufs in m_copyback, and 2 in
    m_split, whose inner call is on a chain without header.  Fewer than 2^31 mbufs
    exist (nmbufs), so that no reference count wraps.  The packet loop gives the
    classifier two rounds per byte of the frame and one.  Where fuel is an argument (the scans of the kqueue and of the
    callout wheel, the IP filter) the theorems state the amount that is enough: the
    knotes or callouts queued, the frame's length plus one (each encapsulated
    header of positive length consumes bytes), the number of start-up entries plus
    one for the restarts of mi_startup, and hold for every larger one.  The loops of
    the checksum get the length plus one, the pass of tcp_sack_doack the blocks plus
    the holes: a split leaves the hole but takes the block.

    ** Not modelled

    Most of the FreeBSD kernel: of the protocols only the reassembly, the selective
    acknowledgements and the options of TCP and the checksum are modelled (the congestion window and
    timers, and so tcp_sack_partialack, are not), and the rest is behind the socket layer's interface;
    waiting, locks and wake-ups, which are empty in the one stack thread; what the
    start-up functions set up; netgraph behind ff_ngctl, the routing socket copy and the management
    tools; file and console I/O; DPDK port set-up, packet
    capture and offload flags.  Of uipc_mbuf.c, m_devget, m_defrag, m_collapse,
    m_fragment, m_unshare and the jumbo zones.  The event loop of Netio is over its
    own class of operations and is not composed with Epoll. *)
From stdpp Require Import base list strings gmap.
From Stdlib Require Import ZArith Lia.

Local Open Scope Z_scope.

(** * Machine integers

    A w-bit C integer is a [Z]; [wrapu w] and [wraps w] are the conversions
    to the unsigned and the two's complement signed type of width [w]. *)

Definition wrapu (w x : Z) : Z := x mod 2 ^ w.

Definition wraps (w x : Z) : Z :=
  (x + 2 ^ (w - 1)) mod 2 ^ w - 2 ^ (w - 1).

Abbreviation u8 := (wrapu 8).
Abbreviation u16 := (wrapu 16).
Abbreviation u32 := (wrapu 32).
Abbreviation u64 := (wrapu 64).
Abbreviation s32 := (wraps 32).
Abbreviation s64 := (wraps 64).

Definition INT_MAX : Z := 2147483647.
Definition INT_MIN : Z := -2147483648.
Definition LONG_MAX : Z := 9223372036854775807.
Definition LONG_MIN : Z := -9223372036854775808.

Declare Scope fstack_scope.
Delimit Scope fstack_scope with fstack.

(** [x .& m]: C's bitwise operators on the [Z] view of an integer. *)
Notation "x .& y" := (Z.land x y) (at level 40, left associativity) : fstack_scope.
Notation "x .| y" := (Z.lor x y) (at level 50, left associativity) : fstack_scope.

(** A C truth value: nonzero. *)
Definition ctrue (x : Z) : bool := negb (x =? 0).

(** [flag x m]: the C condition [if (x & m)]. *)
Definition flag (x m : Z) : bool := negb (Z.land x m =? 0).

(** [b2z]: the int value 1/0 of a C comparison. *)
Definition b2z (b : bool) : Z := if b then 1 else 0.

(** [rd l i]: the array element [l[i]]; 0 outside the array, where the models
    that use it never read (their guards are the code's). *)
Definition rd (l : list Z) (i : nat) : Z := nth i l 0.

(** A byte string: every element is in [0, 256). *)
Definition is_bytes (l : list Z) : bool := forallb (fun b => (0 <=? b) && (b <? 256)) l.

(** ** Outcomes

    Code that reads memory and recurses: a value, a read outside the buffer,
    or a recursion that used up its fuel. *)
Inductive outcome (A : Type) :=
  | Done (a : A)
  | Fault
  | Loop.
Arguments Done {A} a.
Arguments Fault {A}.
Arguments Loop {A}.

#[global] Instance outcome_ret : MRet outcome := fun A a => Done a.
#[global] Instance outcome_bind : MBind outcome := fun A B f m =>
  match m with Done a => f a | Fault => Fault | Loop => Loop end.

#[global] Instance outcome_fmap : FMap outcome := fun A B f m =>
  match m with Done a => Done (f a) | Fault => Fault | Loop => Loop end.

(** The byte at offset [off] of a buffer. *)
Definition mread (mem : list Z) (off : Z) : outcome Z :=
  match mem !! Z.to_nat off with Some b => Done b | None => Fault end.

Create HintDb fstack discriminated.

(** * Automation *)

(** Splits boolean hypotheses into propositions. *)
Ltac bool_hyps :=
  repeat match goal with
  | H : _ && _ = true |- _ => apply andb_prop in H as [? ?]
  | H : negb _ = true |- _ => apply negb_true_iff in H
  | H : _ || _ = false |- _ => apply orb_false_elim in H as [? ?]
  | H : bool_decide _ = true |- _ => apply bool_decide_eq_true_1 in H
  | H : (_ <? _)%nat = true |- _ => apply Nat.ltb_lt in H
  end.

(** Proves a closed decidable proposition by evaluation. *)
Ltac decide_closed :=
  match goal with |- ?P => apply (bool_decide_eq_true_1 P); vm_compute; reflexivity end.

(** * Lists *)

Lemma forallb_imp {A} (f g : A -> bool) l :
  (forall x, f x = true -> g x = true) -> forallb f l = true -> forallb g l = true.
Proof. rewrite !forallb_forall. auto. Qed.


(** * Integers *)

Lemma wrapu_range w x : 0 <= w -> 0 <= wrapu w x < 2 ^ w.
Proof. intros. apply Z.mod_pos_bound, Z.pow_pos_nonneg; lia. Qed.

Lemma wrapu_small w x : 0 <= x < 2 ^ w -> wrapu w x = x.
Proof. apply Z.mod_small. Qed.

Lemma wraps_small w x : 0 < w -> - 2 ^ (w - 1) <= x < 2 ^ (w - 1) -> wraps w x = x.
Proof.
  intros Hw Hx. unfold wraps.
  replace (2 ^ w) with (2 * 2 ^ (w - 1)) by (rewrite <- Z.pow_succ_r by lia; f_equal; lia).
  rewrite Z.mod_small; lia.
Qed.

Lemma wraps_range w x : 0 < w -> - 2 ^ (w - 1) <= wraps w x < 2 ^ (w - 1).
Proof.
  intros Hw. unfold wraps.
  replace (2 ^ w) with (2 * 2 ^ (w - 1)) by (rewrite <- Z.pow_succ_r by lia; f_equal; lia).
  pose proof (Z.mod_pos_bound (x + 2 ^ (w - 1)) (2 * 2 ^ (w - 1))).
  assert (0 < 2 ^ (w - 1)) by (apply Z.pow_pos_nonneg; lia). lia.
Qed.

(** The C test [x & (1 << k)] reads bit [k]. *)
Lemma flag_bit x k : 0 <= k -> flag x (Z.shiftl 1 k) = Z.testbit x k.
Proof.
  intros Hk. unfold flag. rewrite Z.shiftl_1_l.
  destruct (Z.testbit x k) eqn:E.
  - destruct (Z.eqb_spec (Z.land x (2 ^ k)) 0) as [H|]; [|done].
    apply (f_equal (fun z => Z.testbit z k)) in H.
    rewrite Z.land_spec, E, Z.pow2_bits_true, Z.bits_0 in H by lia. done.
  - destruct (Z.eqb_spec (Z.land x (2 ^ k)) 0) as [|H]; [done|]. contradict H.
    apply Z.bits_inj'. intros n Hn. rewrite Z.land_spec, Z.bits_0.
    destruct (decide (n = k)) as [->|]; [by rewrite E|].
    by rewrite Z.pow2_bits_false, andb_false_r by lia.
Qed.

Lemma lor_even_1 x : Z.lor (2 * x) 1 = 2 * x + 1.
Proof.
  rewrite <- Z.lxor_lor; [|].
  - rewrite <- Z.add_nocarry_lxor; [done|].
    apply Z.bits_inj'. intros n Hn. rewrite Z.land_spec, Z.bits_0.
    destruct (decide (n = 0)) as [->|]; [by rewrite Z.testbit_even_0|].
    change 1 with (2 ^ 0). by rewrite Z.pow2_bits_false, andb_false_r by lia.
  - apply Z.bits_inj'. intros n Hn. rewrite Z.land_spec, Z.bits_0.
    destruct (decide (n = 0)) as [->|]; [by rewrite Z.testbit_even_0|].
    change 1 with (2 ^ 0). by rewrite Z.pow2_bits_false, andb_false_r by lia.
Qed.

Lemma land_pred_pow2 x k : 0 <= k -> Z.land x (2 ^ k - 1) = x mod 2 ^ k.
Proof. intros. rewrite <- Z.land_ones by lia. by rewrite Z.ones_equiv, Z.sub_1_r. Qed.

Lemma is_bytes_nth l i : is_bytes l = true -> 0 <= rd l i < 256.
Proof.
  unfold is_bytes, rd. rewrite forallb_forall. intros H.
  destruct (Nat.lt_ge_cases i (length l)).
  - specialize (H (nth i l 0) (nth_In _ _ ltac:(done))). apply andb_prop in H as [].
    rewrite Z.leb_le, Z.ltb_lt in *. lia.
  - rewrite nth_overflow by done. lia.
Qed.

Lemma mread_rd mem off :
  0 <= off < Z.of_nat (length mem) -> mread mem off = Done (rd mem (Z.to_nat off)).
Proof.
  intros H. unfold mread, rd.
  destruct (lookup_lt_is_Some_2 mem (Z.to_nat off)) as [x Hx]; [lia|].
  rewrite Hx. by rewrite (nth_lookup_Some _ _ _ _ Hx).
Qed.

Lemma mread_app_r pre l off :
  Z.of_nat (length pre) <= off ->
  mread (pre ++ l) off = mread l (off - Z.of_nat (length pre)).
Proof.
  intros H. unfold mread. rewrite lookup_app_r by lia.
  by replace (Z.to_nat (off - Z.of_nat (length pre))) with (Z.to_nat off - length pre)%nat by lia.
Qed.
