(* ===== verification/CStr.v ===== *)
(** C strings and the character and number routines of the C library that the
    F-Stack sources call on them.

    A C string is the list of its characters before the terminating NUL.
    A pointer into a string is the suffix it points to. *)
From stdpp Require Import base list strings.
From Stdlib Require Import ZArith Lia Ascii.
From S2P Require Import Prelude.

Local Open Scope Z_scope.

Abbreviation cstr := (list ascii).

#[global] Arguments Ascii.eqb : simpl never.

(** [lit "..."]: the C string of a literal. *)
Definition lit (s : string) : cstr := String.list_ascii_of_string s.

Definition code (c : ascii) : Z := Z.of_N (N_of_ascii c).
Definition chr (z : Z) : ascii := ascii_of_N (Z.to_N (z mod 256)).

(** [strcmp(a, b) == 0] *)
Definition streq (a b : cstr) : bool := bool_decide (a = b).

(** ** <ctype.h> in the "C" locale *)

Definition between (lo hi : Z) (c : ascii) : bool :=
  (lo <=? code c) && (code c <=? hi).
Definition isspace (c : ascii) : bool := between 9 13 c || (code c =? 32).
Definition isblank (c : ascii) : bool := (code c =? 9) || (code c =? 32).
Definition isdigit (c : ascii) : bool := between 48 57 c.
Definition isupper (c : ascii) : bool := between 65 90 c.
Definition islower (c : ascii) : bool := between 97 122 c.
Definition isxdigit (c : ascii) : bool :=
  isdigit c || between 65 70 c || between 97 102 c.
Definition tolower (c : ascii) : ascii :=
  if isupper c then chr (code c + 32) else c.
Definition toupper (c : ascii) : ascii :=
  if islower c then chr (code c - 32) else c.

(** ** Scanning *)

Section scanning.
Context {A : Type}.

Fixpoint skip_while (f : A -> bool) (l : list A) : list A :=
  match l with
  | [] => []
  | x :: r => if f x then skip_while f r else l
  end.

Fixpoint take_while (f : A -> bool) (l : list A) : list A :=
  match l with
  | [] => []
  | x :: r => if f x then x :: take_while f r else []
  end.

(** Removes the trailing elements that satisfy [f]. *)
Definition strip_end (f : A -> bool) (l : list A) : list A :=
  reverse (skip_while f (reverse l)).

Lemma take_skip_while f (l : list A) :
  take_while f l ++ skip_while f l = l.
Proof. induction l as [|x l IH]; simpl; [done|]. by destruct (f x); simpl; rewrite ?IH. Qed.

Lemma skip_while_length f (l : list A) :
  (length (skip_while f l) <= length l)%nat.
Proof. induction l as [|x l IH]; simpl; [done|]. destruct (f x); simpl; lia. Qed.

Lemma skip_while_id f (l : list A) :
  match l with [] => True | x :: _ => f x = false end ->
  skip_while f l = l.
Proof. destruct l as [|x l]; simpl; [done|]. by intros ->. Qed.

Lemma skip_while_app_all f (l r : list A) :
  Forall (fun x => f x = true) l ->
  skip_while f (l ++ r) = skip_while f r.
Proof. induction 1 as [|x l Hx Hl IH]; simpl; [done|]. by rewrite Hx. Qed.

Lemma skip_while_head f (l : list A) :
  match skip_while f l with [] => True | x :: _ => f x = false end.
Proof. induction l as [|x l IH]; simpl; [done|]. by destruct (f x) eqn:E. Qed.

Lemma take_while_forall f (l : list A) :
  Forall (fun x => f x = true) (take_while f l).
Proof. induction l as [|x l IH]; simpl; [done|]. destruct (f x) eqn:E; auto. Qed.

Lemma strip_end_snoc f (l : list A) x :
  strip_end f (l ++ [x]) = if f x then strip_end f l else l ++ [x].
Proof.
  unfold strip_end. rewrite reverse_app. simpl.
  destruct (f x); [done|]. by rewrite reverse_cons, reverse_involutive.
Qed.

Lemma strip_end_nil f : strip_end f [] = ([] : list A).
Proof. done. Qed.

(** What is stripped is a suffix that satisfies [f]. *)
Lemma strip_end_split f (l : list A) :
  exists t, l = strip_end f l ++ t /\ Forall (fun x => f x = true) t.
Proof.
  induction l as [|x l [t [IH Ht]]] using rev_ind; [by exists []|].
  rewrite strip_end_snoc. destruct (f x) eqn:E.
  - exists (t ++ [x]). rewrite app_assoc, <- IH. split; [done|].
    apply Forall_app; auto.
  - exists []. by rewrite app_nil_r.
Qed.

Lemma strip_end_last f (l : list A) :
  match last (strip_end f l) with None => True | Some x => f x = false end.
Proof.
  induction l as [|x l IH] using rev_ind; [done|].
  rewrite strip_end_snoc. destruct (f x) eqn:E; [done|].
  by rewrite last_snoc.
Qed.

Lemma strip_end_id f (l : list A) :
  match last l with None => True | Some x => f x = false end ->
  strip_end f l = l.
Proof.
  induction l as [|x l _] using rev_ind; [done|].
  rewrite last_snoc, strip_end_snoc. by intros ->.
Qed.
End scanning.

(** [strchr(chars, c)] as a truth value; [c] is not NUL. *)
Definition in_chars (chars : cstr) (c : ascii) : bool :=
  existsb (Ascii.eqb c) chars.

(** ** strtol, atoi, atol *)

Definition digit_val (c : ascii) : Z := code c - 48.

Definition dec_value (ds : cstr) : Z :=
  fold_left (fun a c => a * 10 + digit_val c) ds 0.

Definition clamp (lo hi x : Z) : Z := Z.max lo (Z.min hi x).

(** [strtol(s, &endptr, 10)] on a 64-bit long: value (clamped on overflow)
    and the suffix [endptr] points to.  When no digit follows the blanks and
    the sign, the value is 0 and [endptr] is [s]. *)
Definition strtol10 (s : cstr) : Z * cstr :=
  let s1 := skip_while isspace s in
  let '(neg, s2) :=
    match s1 with
    | "-"%char :: r => (true, r)
    | "+"%char :: r => (false, r)
    | _ => (false, s1)
    end in
  match take_while isdigit s2 with
  | [] => (0, s)
  | ds => (clamp LONG_MIN LONG_MAX (if neg then - dec_value ds else dec_value ds),
           skip_while isdigit s2)
  end.

Definition atol (s : cstr) : Z := fst (strtol10 s).
(** glibc: [(int) strtol(s, NULL, 10)]. *)
Definition atoi (s : cstr) : Z := s32 (atol s).

(** ** Decimal printing *)

(** The decimal digits of [n], [k] of them at most. *)
Fixpoint print_dec_fuel (k : nat) (n : Z) : cstr :=
  match k with
  | O => []
  | S k' =>
      (if n <? 10 then [] else print_dec_fuel k' (n / 10)) ++ [chr (48 + n mod 10)]
  end.

(** [n] in decimal, for [n] below 10^20. *)
Definition print_dec (n : Z) : cstr := print_dec_fuel 20 n.

(** [strstr(s, "c")] as an index. *)
Fixpoint find_char (c : ascii) (s : cstr) : option nat :=
  match s with
  | [] => None
  | x :: r => if Ascii.eqb x c then Some O else S <$> find_char c r
  end.

Lemma code_chr z : 0 <= z < 256 -> code (chr z) = z.
Proof.
  intros H. unfold code, chr. rewrite Z.mod_small, N_ascii_embedding by lia. lia.
Qed.

Lemma digit_char d : 0 <= d < 10 -> isdigit (chr (48 + d)) = true /\ digit_val (chr (48 + d)) = d.
Proof.
  intros H. unfold isdigit, between, digit_val. rewrite code_chr by lia. split; [|lia].
  apply andb_true_intro; split; apply Z.leb_le; lia.
Qed.

Lemma dec_value_snoc l c : dec_value (l ++ [c]) = dec_value l * 10 + digit_val c.
Proof. unfold dec_value. by rewrite fold_left_app. Qed.

Lemma print_dec_fuel_spec k n :
  0 <= n < 10 ^ Z.of_nat k -> (0 < k)%nat ->
  Forall (fun c => isdigit c = true) (print_dec_fuel k n) /\
  print_dec_fuel k n <> [] /\ dec_value (print_dec_fuel k n) = n.
Proof.
  revert n; induction k as [|k IH]; intros n Hn Hk; [lia|].
  cbn [print_dec_fuel]. rewrite dec_value_snoc.
  pose proof (Z.div_mod n 10). pose proof (Z.mod_pos_bound n 10).
  destruct (digit_char (n mod 10)) as [Hd ->]; [lia|].
  split_and!; [|by destruct (n <? 10), (print_dec_fuel k (n / 10))|].
  - apply Forall_app; split; [|by constructor].
    destruct (Z.ltb_spec n 10); [constructor|]. destruct k as [|k]; [simpl in Hn; lia|].
    rewrite Nat2Z.inj_succ, Z.pow_succ_r in Hn by lia. apply IH; lia.
  - destruct (Z.ltb_spec n 10).
    + change (dec_value []) with 0. rewrite Z.mod_small; lia.
    + destruct k as [|k]; [simpl in Hn; lia|].
      rewrite Nat2Z.inj_succ, Z.pow_succ_r in Hn by lia.
      destruct (IH (n / 10)) as (_ & _ & ->); lia.
Qed.

Lemma print_dec_spec n :
  0 <= n < 10 ^ 20 ->
  Forall (fun c => isdigit c = true) (print_dec n) /\
  print_dec n <> [] /\ dec_value (print_dec n) = n.
Proof. intros. apply print_dec_fuel_spec; [done|lia]. Qed.

Lemma take_while_app_all {A} f (l r : list A) :
  Forall (fun x => f x = true) l -> take_while f (l ++ r) = l ++ take_while f r.
Proof. induction 1 as [|x l Hx Hl IH]; simpl; [done|]. by rewrite Hx, IH. Qed.

Lemma isdigit_plain c : isdigit c = true -> isspace c = false /\ c <> "-"%char /\ c <> "+"%char.
Proof.
  unfold isdigit, isspace, between. intros H. bool_hyps. rewrite !Z.leb_le in *.
  split_and!; [|intros ->; by vm_compute in H..].
  apply orb_false_intro; [apply andb_false_iff; right; apply Z.leb_gt; lia|apply Z.eqb_neq; lia].
Qed.

(** [strtol] reads back a printed number and stops at the first non-digit. *)
Lemma strtol10_print_dec n rest :
  0 <= n <= LONG_MAX ->
  match rest with [] => True | c :: _ => isdigit c = false end ->
  strtol10 (print_dec n ++ rest) = (n, rest).
Proof.
  intros Hn Hrest. destruct (print_dec_spec n) as (Hd & Hne & Hv); [unfold LONG_MAX in Hn; lia|].
  unfold strtol10. destruct (print_dec n) as [|c ds] eqn:E; [done|].
  pose proof Hd as Hd'. apply Forall_cons in Hd' as [Hc _].
  destruct (isdigit_plain c Hc) as (Hs & Hm & Hp).
  assert (skip_while isspace ((c :: ds) ++ rest) = (c :: ds) ++ rest) as ->.
  { apply skip_while_id. by simpl. }
  set (l := c :: ds) in *.
  assert (match l ++ rest with
     | "-"%char :: r => (true, r) | "+"%char :: r => (false, r) | _ => (false, l ++ rest) end =
     (false, l ++ rest)) as ->.
  { unfold l. simpl app. destruct c as [[] [] [] [] [] [] [] []]; try done; by contradict Hm || by contradict Hp. }
  rewrite take_while_app_all, skip_while_app_all by done.
  assert (take_while isdigit rest = [] /\ skip_while isdigit rest = rest) as [-> ->].
  { destruct rest; [done|]. simpl. by rewrite Hrest. }
  rewrite app_nil_r. unfold l at 1. fold l. rewrite Hv. f_equal.
  unfold clamp, LONG_MAX, LONG_MIN in *. lia.
Qed.

Lemma atoi_print_dec n rest :
  0 <= n <= INT_MAX ->
  match rest with [] => True | c :: _ => isdigit c = false end ->
  atoi (print_dec n ++ rest) = n.
Proof.
  intros Hn Hr. unfold atoi, atol, INT_MAX in *.
  rewrite strtol10_print_dec by (done || (unfold LONG_MAX; lia)).
  apply wraps_small; simpl; lia.
Qed.

Lemma find_char_app_none c l r : find_char c l = None -> find_char c (l ++ r) = Nat.add (length l) <$> find_char c r.
Proof.
  induction l as [|x l IH]; simpl; [by destruct (find_char c r)|].
  destruct (Ascii.eqb x c); [done|]. destruct (find_char c l); [done|].
  intros _. rewrite IH by done. by destruct (find_char c r).
Qed.

Lemma find_char_digits c l :
  isdigit c = false -> Forall (fun c => isdigit c = true) l -> find_char c l = None.
Proof.
  intros Hc. induction 1 as [|x l Hx Hl IH]; [done|]. simpl.
  destruct (Ascii.eqb_spec x c) as [->|]; [congruence|]. by rewrite IH.
Qed.
