(* ===== verification/IniParser.v ===== *)
(** The INI reader of src/lib/ff_ini_parser.c (inih as configured by
    src/lib/ff_ini_parser.h: inline comments, BOM, multi-line values, stop at
    the first error, 200-byte line buffer).

    The parser is generic in the reader and in the handler, as the C code is.
    [fgets_reader] is the reader that [ini_parse_file] passes. *)
From stdpp Require Import base list strings.
From Stdlib Require Import ZArith Lia Ascii.
From S2P Require Import Prelude CStr.

Local Open Scope Z_scope.

Definition MAX_SECTION : nat := 50.
Definition MAX_NAME : nat := 50.
Definition INI_MAX_LINE : nat := 200.
Definition INI_INLINE_COMMENT_PREFIXES : cstr := [";"%char].

(** Strip whitespace off the end of the string. *)
Definition rstrip (s : cstr) : cstr := strip_end isspace s.

(** Pointer to the first non-whitespace character. *)
Definition lskip (s : cstr) : cstr := skip_while isspace s.

(** Splits [s] at the first character of [chars] or at an inline comment:
    (what precedes the returned pointer, the returned pointer). *)
Fixpoint find_chars_or_comment_from (was_space : bool) (s : cstr)
    (chars : option cstr) : cstr * cstr :=
  match s with
  | [] => ([], [])
  | c :: r =>
      if (match chars with None => true | Some cs => negb (in_chars cs c) end)
         && negb (was_space && in_chars INI_INLINE_COMMENT_PREFIXES c)
      then
        let '(pre, rest) := find_chars_or_comment_from (isspace c) r chars in
        (c :: pre, rest)
      else ([], s)
  end.

Definition find_chars_or_comment (s : cstr) (chars : option cstr) : cstr * cstr :=
  find_chars_or_comment_from false s chars.

(** [*p == c] *)
Definition starts (c : ascii) (p : cstr) : bool :=
  match p with [] => false | x :: _ => Ascii.eqb x c end.

(** [strncpy0(dest, src, size)]: the string left in [dest]. *)
Definition strncpy0 (src : cstr) (size : nat) : cstr := take (size - 1) src.

(** The locals of [ini_parse_stream] that live across iterations, with the
    handler's [user] state. *)
Record ini_state (U : Type) := IniState {
  ini_section : cstr;
  ini_prev_name : cstr;
  ini_lineno : Z;
  ini_error : Z;
  ini_user : U
}.
Arguments IniState {U}.
Arguments ini_section {U}.
Arguments ini_prev_name {U}.
Arguments ini_lineno {U}.
Arguments ini_error {U}.
Arguments ini_user {U}.

Section parser.
Context {U : Type}.
(** [int handler(user, section, name, value)]: nonzero is success. *)
Context (handler : U -> cstr -> cstr -> cstr -> U * Z).

(** [if (!handler(user, section, name, value) && !error) error = lineno;] *)
Definition call_handler (st : ini_state U) (prev_name section name value : cstr)
    : ini_state U :=
  let '(u', r) := handler (ini_user st) section name value in
  IniState section prev_name (ini_lineno st)
    (if negb (ctrue r) && negb (ctrue (ini_error st)) then ini_lineno st
     else ini_error st) u'.

Definition set_error (st : ini_state U) : ini_state U :=
  IniState (ini_section st) (ini_prev_name st) (ini_lineno st)
    (if ctrue (ini_error st) then ini_error st else ini_lineno st) (ini_user st).

(** One iteration of the [while] loop on the line left in the buffer. *)
Definition ini_line (line : cstr) (st0 : ini_state U) : ini_state U :=
  let st := IniState (ini_section st0) (ini_prev_name st0) (ini_lineno st0 + 1)
              (ini_error st0) (ini_user st0) in
  let bom := (ini_lineno st =? 1) &&
             bool_decide (take 3 line = [chr 239; chr 187; chr 191]) in
  let stripped := rstrip (if bom then drop 3 line else line) in
  let start := lskip stripped in
  (* start > line *)
  let moved := bom || negb (length start =? length stripped)%nat in
  if starts ";" start || starts "#" start then st
  else if bool_decide (ini_prev_name st <> []) && bool_decide (start <> []) && moved
  then call_handler st (ini_prev_name st) (ini_section st) (ini_prev_name st) start
  else if starts "[" start then
    let '(sec, rest) := find_chars_or_comment (tail start) (Some ["]"%char]) in
    if starts "]" rest then
      IniState (strncpy0 sec MAX_SECTION) [] (ini_lineno st) (ini_error st) (ini_user st)
    else set_error st
  else if bool_decide (start <> []) then
    let '(pre, rest) := find_chars_or_comment start (Some ["="%char; ":"%char]) in
    if starts "=" rest || starts ":" rest then
      let name := rstrip pre in
      let value := rstrip (lskip (fst (find_chars_or_comment (tail rest) None))) in
      call_handler st (strncpy0 name MAX_NAME) (ini_section st) name value
    else set_error st
  else st.

(** [reader(line, INI_MAX_LINE, stream)]: [None] is NULL. *)
Context {S : Type} (reader : S -> option (cstr * S)).

Fixpoint ini_loop (fuel : nat) (stream : S) (st : ini_state U)
    : option (ini_state U) :=
  match fuel with
  | O => None
  | Datatypes.S fuel' =>
      match reader stream with
      | None => Some st
      | Some (line, stream') =>
          let st' := ini_line line st in
          if ctrue (ini_error st') then Some st'
          else ini_loop fuel' stream' st'
      end
  end.

(** [ini_parse_stream]: (return value, user state); [None] when the reader
    has not reached its end within [fuel] lines. *)
Definition ini_parse_stream (fuel : nat) (stream : S) (user : U)
    : option (Z * U) :=
  match ini_loop fuel stream (IniState [] [] 0 0 user) with
  | Some st => Some (ini_error st, ini_user st)
  | None => None
  end.
End parser.

(** [fgets(line, num, stream)] on the remaining bytes of a stream: up to
    [num - 1] bytes, through the first newline; NULL at end of file. *)
Fixpoint fgets_take (n : nat) (s : cstr) : cstr * cstr :=
  match n, s with
  | O, _ | _, [] => ([], s)
  | S n', c :: r =>
      if bool_decide (c = "010"%char) then ([c], r)
      else let '(l, r') := fgets_take n' r in (c :: l, r')
  end.

(** The C string in the buffer ends at the first NUL byte read. *)
Definition cut_nul (s : cstr) : cstr :=
  take_while (fun c => negb (code c =? 0)) s.

Definition fgets_reader (s : cstr) : option (cstr * cstr) :=
  match s with
  | [] => None
  | _ => let '(l, r) := fgets_take (INI_MAX_LINE - 1) s in Some (cut_nul l, r)
  end.

(** [ini_parse_file]; one line per byte of input is always enough fuel. *)
Definition ini_parse_file {U} (file : cstr)
    (handler : U -> cstr -> cstr -> cstr -> U * Z) (user : U) : option (Z * U) :=
  ini_parse_stream handler fgets_reader (S (length file)) file user.

(** [ini_parse]: [files] is the host's [fopen] for reading ([None]: NULL). *)
Definition ini_parse {U} (files : cstr -> option cstr) (filename : cstr)
    (handler : U -> cstr -> cstr -> cstr -> U * Z) (user : U) : option (Z * U) :=
  match files filename with
  | None => Some (-1, user)
  | Some file => ini_parse_file file handler user
  end.

(** * Reference semantics

    A document as the parser is meant to read it: sections, each with its
    name/value pairs, and the handler calls it stands for. *)

Abbreviation ini_doc := (list (cstr * list (cstr * cstr))).

Definition newline : ascii := "010".

Definition render_pair (kv : cstr * cstr) : cstr :=
  kv.1 ++ "="%char :: kv.2 ++ [newline].

Definition render_section (sec : cstr * list (cstr * cstr)) : cstr :=
  "["%char :: sec.1 ++ "]"%char :: newline :: concat (map render_pair sec.2).

Definition render (doc : ini_doc) : cstr := concat (map render_section doc).

Definition line_char (c : ascii) : bool :=
  negb (code c =? 0) && negb (code c =? 10).

(** The printable documents: what fits a 200-byte line and holds no
    delimiter where the parser would see one. *)
Definition wf_section_name (s : cstr) : bool :=
  forallb line_char s &&
  bool_decide (find_chars_or_comment s (Some ["]"%char]) = (s, [])) &&
  (length s <? MAX_SECTION)%nat.

Definition wf_name (s : cstr) : bool :=
  forallb line_char s &&
  bool_decide (find_chars_or_comment s (Some ["="%char; ":"%char]) = (s, [])) &&
  bool_decide (s <> []) && bool_decide (lskip s = s) && bool_decide (rstrip s = s) &&
  negb (starts ";" s || starts "#" s || starts "[" s).

Definition wf_value (s : cstr) : bool :=
  forallb line_char s &&
  bool_decide (find_chars_or_comment s None = (s, [])) &&
  bool_decide (lskip s = s) && bool_decide (rstrip s = s).

Definition wf_pair (kv : cstr * cstr) : bool :=
  wf_name kv.1 && wf_value kv.2 &&
  (length kv.1 + length kv.2 + 2 <? INI_MAX_LINE)%nat.

Definition wf_doc (doc : ini_doc) : bool :=
  forallb (fun sec => wf_section_name sec.1 && forallb wf_pair sec.2) doc.

Section reference.
Context {U : Type} (handler : U -> cstr -> cstr -> cstr -> U * Z).

(** Calls the handler on each pair; (last line read, error, user). *)
Fixpoint run_pairs (section : cstr) (kvs : list (cstr * cstr)) (lineno : Z) (u : U)
    : Z * Z * U :=
  match kvs with
  | [] => (lineno, 0, u)
  | (k, v) :: r =>
      let '(u', res) := handler u section k v in
      if ctrue res then run_pairs section r (lineno + 1) u'
      else (lineno + 1, lineno + 1, u')
  end.

Fixpoint run_doc (doc : ini_doc) (lineno : Z) (u : U) : Z * U :=
  match doc with
  | [] => (0, u)
  | (section, kvs) :: r =>
      let '(n, e, u') := run_pairs section kvs (lineno + 1) u in
      if ctrue e then (e, u') else run_doc r n u'
  end.
End reference.

(** * Lemmas *)

Lemma find_from_stop ws s cs c r :
  find_chars_or_comment_from ws s (Some cs) = (s, []) ->
  in_chars cs c = true ->
  find_chars_or_comment_from ws (s ++ c :: r) (Some cs) = (s, c :: r).
Proof.
  revert ws; induction s as [|x s IH]; intros ws H Hc; simpl in *.
  - by rewrite Hc.
  - destruct (negb _ && _); [|done].
    destruct (find_chars_or_comment_from _ s _) as [pre rest] eqn:E.
    injection H as -> ->. by rewrite (IH _ E Hc).
Qed.

Lemma find_from_app_snoc ws s chars pre rest :
  find_chars_or_comment_from ws s chars = (pre, rest) -> s = pre ++ rest.
Proof.
  revert ws pre rest; induction s as [|x s IH]; intros ws pre rest H; simpl in *.
  - by injection H as <- <-.
  - destruct (_ && _); [|by injection H as <- <-].
    destruct (find_chars_or_comment_from _ s _) as [p q] eqn:E.
    injection H as <- <-. simpl. f_equal. eauto.
Qed.

Lemma fgets_take_line l r n :
  forallb line_char l = true -> (length l < n)%nat ->
  fgets_take n (l ++ newline :: r) = (l ++ [newline], r).
Proof.
  revert n; induction l as [|x l IH]; intros [|n] Hl Hn; simpl in *; try lia.
  - done.
  - apply andb_prop in Hl as [Hx Hl].
    rewrite bool_decide_eq_false_2.
    + rewrite IH; [done|done|lia].
    + intros ->. done.
Qed.

Lemma cut_nul_id l : forallb (fun c => negb (code c =? 0)) l = true -> cut_nul l = l.
Proof.
  unfold cut_nul. induction l as [|x l IH]; simpl; [done|].
  intros [Hx Hl]%andb_prop. by rewrite Hx, IH.
Qed.

Lemma fgets_reader_line l r :
  forallb line_char l = true -> (length l < INI_MAX_LINE - 1)%nat ->
  fgets_reader (l ++ newline :: r) = Some (l ++ [newline], r).
Proof.
  intros Hl Hn. unfold fgets_reader.
  rewrite (fgets_take_line l r); [|done|done].
  rewrite cut_nul_id; [by destruct l|].
  rewrite forallb_app. simpl. rewrite andb_true_r.
  eapply forallb_imp; [|exact Hl]. by intros x [? _]%andb_prop.
Qed.

Lemma rstrip_newline l : rstrip (l ++ [newline]) = rstrip l.
Proof. unfold rstrip. by rewrite strip_end_snoc. Qed.

Lemma rstrip_app_id a b : b <> [] -> rstrip b = b -> rstrip (a ++ b) = a ++ b.
Proof.
  intros Hb H. apply strip_end_id.
  destruct (exists_last Hb) as (b' & x & ->).
  rewrite app_assoc, last_snoc.
  unfold rstrip in H. rewrite strip_end_snoc in H.
  destruct (isspace x); [|done].
  destruct (strip_end_split isspace b') as (t & Ht & _).
  apply (f_equal length) in H. apply (f_equal length) in Ht.
  rewrite length_app in *. simpl in *. lia.
Qed.

Lemma starts_cons c x l : starts c (x :: l) = Ascii.eqb x c.
Proof. done. Qed.

Lemma starts_app c a b : a <> [] -> starts c (a ++ b) = starts c a.
Proof. by destruct a. Qed.

Lemma lskip_app a b : a <> [] -> lskip a = a -> lskip (a ++ b) = a ++ b.
Proof.
  destruct a as [|x a]; [done|]. intros _ H. unfold lskip in *. simpl in *.
  destruct (isspace x); [|done].
  apply (f_equal length) in H. simpl in H.
  pose proof (skip_while_length isspace a). lia.
Qed.

Section lines.
Context {U : Type} (handler : U -> cstr -> cstr -> cstr -> U * Z).
Implicit Types (st : ini_state U) (doc : ini_doc).

(** A section line replaces the section and forgets the previous name. *)
Lemma ini_line_section s st :
  wf_section_name s = true ->
  ini_line handler ("["%char :: s ++ "]"%char :: [newline]) st =
    IniState s [] (ini_lineno st + 1) (ini_error st) (ini_user st).
Proof.
  unfold wf_section_name. intros H; bool_hyps.
  unfold ini_line. simpl ini_lineno.
  rewrite (bool_decide_eq_false_2 (take 3 _ = _)) by done.
  rewrite andb_false_r. simpl orb.
  change ("["%char :: s ++ "]"%char :: [newline])
    with (("["%char :: s) ++ ["]"%char] ++ [newline]).
  rewrite app_assoc, rstrip_newline, (rstrip_app_id _ ["]"%char]) by done.
  rewrite lskip_app by done. rewrite Nat.eqb_refl. simpl orb.
  rewrite andb_false_r. simpl.
  unfold find_chars_or_comment in *.
  rewrite (find_from_stop false s ["]"%char] "]" []) by done. simpl.
  unfold strncpy0, MAX_SECTION in *. rewrite take_ge by lia. done.
Qed.

(** A name=value line, after the first line, is one handler call. *)
Lemma ini_line_pair k v st :
  wf_pair (k, v) = true -> 0 < ini_lineno st ->
  ini_line handler (render_pair (k, v)) st =
    call_handler handler
      (IniState (ini_section st) (ini_prev_name st) (ini_lineno st + 1)
         (ini_error st) (ini_user st))
      (strncpy0 k MAX_NAME) (ini_section st) k v.
Proof.
  unfold wf_pair, wf_name, wf_value. simpl fst. simpl snd. intros H Hn; bool_hyps.
  unfold ini_line, render_pair. simpl ini_lineno. simpl ini_section. simpl ini_prev_name.
  replace (ini_lineno st + 1 =? 1) with false by lia. simpl andb. simpl orb.
  simpl fst. simpl snd.
  change (k ++ "="%char :: v ++ [newline]) with (k ++ ("="%char :: v) ++ [newline]).
  assert (rstrip ("="%char :: v) = "="%char :: v) as Hv.
  { destruct v as [|y v']; [done|]. by apply (rstrip_app_id ["="%char]). }
  rewrite app_assoc, rstrip_newline, (rstrip_app_id k ("="%char :: v)) by done.
  rewrite lskip_app by done. rewrite Nat.eqb_refl. simpl negb.
  rewrite !starts_app by done.
  repeat match goal with H : starts _ _ = _ |- _ => rewrite H; clear H end.
  rewrite !andb_false_r. simpl orb. cbv iota.
  rewrite bool_decide_eq_true_2 by (by destruct k).
  unfold find_chars_or_comment in *.
  rewrite (find_from_stop false k _ "=" v) by done.
  simpl. match goal with H : find_chars_or_comment_from _ v _ = _ |- _ => rewrite H end.
  simpl. by repeat match goal with H : _ = v |- _ => rewrite H; clear H
    | H : _ = k |- _ => rewrite H; clear H end.
Qed.
End lines.

Definition ini_result {U} (o : option (ini_state U)) : option (Z * U) :=
  match o with Some st => Some (ini_error st, ini_user st) | None => None end.

Lemma render_cons_length s kvs doc :
  length (render ((s, kvs) :: doc)) =
  (length s + 3 + length (concat (map render_pair kvs)) + length (render doc))%nat.
Proof.
  unfold render, render_section. simpl. rewrite !length_app. simpl. lia.
Qed.

Section documents.
Context {U : Type} (handler : U -> cstr -> cstr -> cstr -> U * Z).

Lemma ini_loop_pairs kvs : forall fuel rest sec prev n u,
  forallb wf_pair kvs = true -> 0 < n ->
  (length (concat (map render_pair kvs) ++ rest) < fuel)%nat ->
  exists fuel' prev', (length rest < fuel')%nat /\
  ini_result (ini_loop handler fgets_reader fuel
                (concat (map render_pair kvs) ++ rest) (IniState sec prev n 0 u)) =
  let '(n', e, u') := run_pairs handler sec kvs n u in
  if ctrue e then Some (e, u')
  else ini_result (ini_loop handler fgets_reader fuel' rest (IniState sec prev' n' 0 u')).
Proof.
  induction kvs as [|[k v] kvs IH]; intros fuel rest sec prev n u Hwf Hn Hfuel.
  { exists fuel, prev. done. }
  simpl in Hwf. apply andb_prop in Hwf as [Hkv Hwf].
  simpl map in *. simpl concat in *. rewrite <- app_assoc in *.
  destruct fuel as [|fuel]; [simpl in Hfuel; lia|]. cbn [ini_loop].
  assert (fgets_reader (render_pair (k, v) ++ concat (map render_pair kvs) ++ rest)
          = Some (render_pair (k, v), concat (map render_pair kvs) ++ rest)) as ->.
  { unfold wf_pair, wf_name, wf_value in Hkv. simpl in Hkv. bool_hyps.
    change (render_pair (k, v)) with (k ++ "="%char :: v ++ [newline]).
    replace ((k ++ "="%char :: v ++ [newline]) ++ concat (map render_pair kvs) ++ rest)
      with ((k ++ "="%char :: v) ++ newline :: concat (map render_pair kvs) ++ rest)
      by (rewrite <- !app_assoc; simpl; by rewrite <- app_assoc).
    rewrite fgets_reader_line.
    - by rewrite <- !app_assoc.
    - rewrite forallb_app. simpl. auto using andb_true_intro.
    - unfold INI_MAX_LINE in *. rewrite length_app. simpl. lia. }
  rewrite ini_line_pair by done. unfold call_handler. simpl.
  destruct (handler u sec k v) as [u' r] eqn:Eh. cbn [ini_error].
  destruct (ctrue r) eqn:Er; simpl.
  - rewrite length_app in Hfuel.
    apply (IH fuel rest sec _ (n + 1) u'); [done|lia|].
    assert (0 < length (render_pair (k, v)))%nat; [|lia].
    unfold render_pair. rewrite length_app. simpl. lia.
  - exists (S (length rest)), prev. split; [lia|].
    unfold ctrue. replace (n + 1 =? 0) with false by lia. done.
Qed.

Lemma ini_loop_doc doc : forall fuel sec prev n u,
  wf_doc doc = true -> 0 <= n ->
  (length (render doc) < fuel)%nat ->
  ini_result (ini_loop handler fgets_reader fuel (render doc) (IniState sec prev n 0 u)) =
  Some (run_doc handler doc n u).
Proof.
  induction doc as [|[s kvs] doc IH]; intros fuel sec prev n u Hwf Hn Hfuel.
  { by destruct fuel; [simpl in Hfuel; lia|]. }
  simpl in Hwf. bool_hyps.
  destruct fuel as [|fuel]; [simpl in Hfuel; lia|]. cbn [ini_loop].
  assert (fgets_reader (render ((s, kvs) :: doc)) =
          Some ("["%char :: s ++ "]"%char :: [newline],
                concat (map render_pair kvs) ++ render doc)) as ->.
  { unfold wf_section_name in *. bool_hyps.
    replace (render ((s, kvs) :: doc)) with
      (("["%char :: s ++ ["]"%char]) ++ newline :: concat (map render_pair kvs) ++ render doc).
    - rewrite fgets_reader_line.
      + simpl. by rewrite <- app_assoc.
      + simpl. rewrite forallb_app. simpl. auto using andb_true_intro.
      + unfold INI_MAX_LINE, MAX_SECTION in *. simpl. rewrite length_app. simpl. lia.
    - unfold render, render_section. simpl. by rewrite <- !app_assoc. }
  rewrite ini_line_section by done. cbn [ini_error ini_lineno ini_user].
  change (ctrue 0) with false. cbv iota.
  destruct (ini_loop_pairs kvs fuel (render doc) s [] (n + 1) u)
    as (fuel' & prev' & Hf' & ->); [done|lia| |].
  { rewrite render_cons_length in Hfuel. rewrite length_app. lia. }
  simpl. destruct (run_pairs handler s kvs (n + 1) u) as [[n' e] u'] eqn:E.
  destruct (ctrue e) eqn:Ee; [done|].
  apply IH; [done| |done].
  assert (forall ks m w n1 e1 w1, run_pairs handler s ks m w = (n1, e1, w1) -> m <= n1) as Hmono.
  { induction ks as [|[? ?] ks IHk]; simpl; intros m w n1 e1 w1 Hr; [by injection Hr as -> _ _|].
    destruct (handler w s _ _) as [w' r]. destruct (ctrue r).
    - apply IHk in Hr. lia.
    - injection Hr as <- _ _. lia. }
  apply Hmono in E. lia.
Qed.
End documents.

(** * Termination on arbitrary bytes *)

Lemma fgets_take_length n s l r :
  fgets_take n s = (l, r) -> s = l ++ r.
Proof.
  revert s l r; induction n as [|n IH]; intros [|c s] l r H; simpl in H;
    try by injection H as <- <-.
  case_bool_decide; [by injection H as <- <-|].
  destruct (fgets_take n s) as [l' r'] eqn:E. injection H as <- <-.
  simpl. f_equal. eauto.
Qed.

Lemma fgets_take_head n c s :
  exists l r, fgets_take (S n) (c :: s) = (c :: l, r).
Proof.
  simpl. case_bool_decide; [eauto|]. destruct (fgets_take n s); eauto.
Qed.

Lemma fgets_reader_shrinks s l r :
  fgets_reader s = Some (l, r) -> (length r < length s)%nat.
Proof.
  destruct s as [|c s]; [done|]. unfold fgets_reader.
  destruct (fgets_take_head 198 c s) as (l' & r' & E).
  change (INI_MAX_LINE - 1)%nat with (S 198).
  rewrite E. intros [= _ ->].
  apply fgets_take_length in E. injection E as ->. simpl. rewrite length_app. lia.
Qed.

Section arbitrary.
Context {U : Type} (handler : U -> cstr -> cstr -> cstr -> U * Z).

Lemma ini_loop_total fuel s st :
  (length s < fuel)%nat ->
  is_Some (ini_loop handler fgets_reader fuel s st).
Proof.
  revert s st; induction fuel as [|fuel IH]; intros s st Hf; [lia|].
  cbn [ini_loop]. destruct (fgets_reader s) as [[l r]|] eqn:E; [|eauto].
  apply fgets_reader_shrinks in E.
  destruct (ctrue _); [eauto|]. apply IH. lia.
Qed.

(** An invariant of the parser state that every line preserves holds of the
    state the parser stops in. *)
Lemma ini_loop_invariant (I : ini_state U -> Prop) fuel s st st' :
  (forall line st, I st -> I (ini_line handler line st)) ->
  I st -> ini_loop handler fgets_reader fuel s st = Some st' -> I st'.
Proof.
  intros Hstep. revert s st; induction fuel as [|fuel IH]; intros s st Hst H; [done|].
  cbn [ini_loop] in H. destruct (fgets_reader s) as [[l r]|]; [|by injection H as <-].
  destruct (ctrue _); [injection H as <-; auto|]. eapply IH; [|done]. auto.
Qed.
End arbitrary.

(** * What the handler is called with *)

Definition no_delim (s : cstr) : bool :=
  forallb (fun c => negb (Ascii.eqb c "=" || Ascii.eqb c ":")) s.

Definition call := (cstr * cstr * cstr)%type.

(** The handler that records its calls and answers with [f]. *)
Definition recorder (f : cstr -> cstr -> cstr -> Z) (u : list call)
    (section name value : cstr) : list call * Z :=
  (u ++ [(section, name, value)], f section name value).

Definition clean_call (c : call) : Prop :=
  let '(section, name, value) := c in
  (length section < MAX_SECTION)%nat /\ no_delim name = true /\
  lskip value = value /\ rstrip value = value.

Definition clean_state (st : ini_state (list call)) : Prop :=
  (length (ini_section st) < MAX_SECTION)%nat /\
  no_delim (ini_prev_name st) = true /\
  Forall clean_call (ini_user st).

Lemma lskip_idem s : lskip (lskip s) = lskip s.
Proof. apply skip_while_id, skip_while_head. Qed.

Lemma rstrip_idem s : rstrip (rstrip s) = rstrip s.
Proof. apply strip_end_id, strip_end_last. Qed.

Lemma rstrip_lskip s : rstrip s = s -> rstrip (lskip s) = lskip s.
Proof.
  intros H. unfold lskip. pose proof (take_skip_while isspace s) as E.
  destruct (skip_while isspace s) as [|c r] eqn:Er; [done|].
  apply strip_end_id. rewrite <- H in E. unfold rstrip in E.
  pose proof (strip_end_last isspace s) as Hl. rewrite <- E in Hl.
  rewrite last_app in Hl. by destruct (last (c :: r)) eqn:El.
Qed.

Lemma lskip_rstrip s : lskip s = s -> lskip (rstrip s) = rstrip s.
Proof.
  intros H. destruct (strip_end_split isspace s) as (t & E & _).
  fold (rstrip s) in E. apply skip_while_id.
  pose proof (skip_while_head isspace s) as Hh. fold (lskip s) in Hh. rewrite H in Hh.
  destruct (rstrip s) as [|c r]; [done|]. by rewrite E in Hh.
Qed.

Lemma no_delim_rstrip s : no_delim s = true -> no_delim (rstrip s) = true.
Proof.
  destruct (strip_end_split isspace s) as (t & E & _). fold (rstrip s) in E.
  rewrite E at 1. unfold no_delim. rewrite forallb_app. by intros [? _]%andb_prop.
Qed.

Lemma no_delim_take n s : no_delim s = true -> no_delim (take n s) = true.
Proof.
  unfold no_delim. rewrite <- (take_drop n s) at 1. rewrite forallb_app.
  by intros [? _]%andb_prop.
Qed.

Lemma find_from_no_delim ws s :
  no_delim (fst (find_chars_or_comment_from ws s (Some ["="%char; ":"%char]))) = true.
Proof.
  unfold no_delim.
  revert ws; induction s as [|c s IH]; intros ws; [done|].
  cbn [find_chars_or_comment_from].
  destruct (negb (in_chars ["="%char; ":"%char] c)) eqn:E; [|done].
  destruct (negb (ws && in_chars INI_INLINE_COMMENT_PREFIXES c)); [|done]. cbn [andb].
  specialize (IH (isspace c)).
  destruct (find_chars_or_comment_from (isspace c) s _) as [pre rest]. simpl in *.
  rewrite IH. unfold in_chars in E. simpl in E. rewrite orb_false_r in E.
  by rewrite E.
Qed.

Lemma clean_call_handler f st prev sec name value :
  clean_state st -> no_delim prev = true -> clean_call (sec, name, value) ->
  clean_state (call_handler (recorder f) st prev sec name value).
Proof.
  intros (Hs & Hp & Hu) Hprev Hc. unfold call_handler, recorder, clean_state. simpl.
  split; [apply Hc|]. split; [done|]. apply Forall_app; auto.
Qed.

Lemma clean_line f line st :
  clean_state st -> clean_state (ini_line (recorder f) line st).
Proof.
  intros Hst. pose proof Hst as (Hs & Hp & Hu). unfold ini_line. cbn zeta.
  set (bom := _ && _). set (start := lskip _).
  assert (lskip start = start /\ rstrip start = start) as [Hls Hrs].
  { unfold start. split; [apply lskip_idem|]. apply rstrip_lskip, rstrip_idem. }
  destruct (starts ";" start || _); [done|]. cbn [ini_prev_name ini_section].
  destruct (_ && _ && _).
  { apply clean_call_handler; [done|done|]. repeat split; done. }
  destruct (starts "[" start).
  { destruct (find_chars_or_comment _ _) as [sec rest]. destruct (starts "]" rest); [|done].
    unfold clean_state, strncpy0, MAX_SECTION in *. simpl.
    rewrite length_take. repeat split; [lia|done]. }
  case_bool_decide; [|done].
  pose proof (find_from_no_delim false start) as Hnd.
  fold (find_chars_or_comment start (Some ["="%char; ":"%char])) in Hnd.
  destruct (find_chars_or_comment start _) as [pre rest]. destruct (_ || _); [|done].
  apply clean_call_handler; [done|by apply no_delim_take, no_delim_rstrip|].
  repeat split; [done|by apply no_delim_rstrip| |apply rstrip_idem].
  apply lskip_rstrip, lskip_idem.
Qed.

(** * Properties *)

(** Round trip: a file printed from sections and name/value pairs (names
    and values without the parser's delimiters, lines below the 200-byte
    buffer) is read back as exactly one handler call per pair, in order and
    under its section; parsing stops at the first call that fails and returns
    the number of its line, or returns 0. *)
Theorem ini_roundtrip {U} (handler : U -> cstr -> cstr -> cstr -> U * Z) doc user :
  wf_doc doc = true ->
  ini_parse_file (render doc) handler user = Some (run_doc handler doc 0 user).
Proof.
  intros H. unfold ini_parse_file, ini_parse_stream.
  apply (ini_loop_doc handler doc (S (length (render doc))) [] [] 0 user); [done|lia|lia].
Qed.

Lemma ini_roundtrip_witness :
  let doc := [(lit "dpdk", [(lit "lcore_mask", lit "3"); (lit "port_list", lit "0,1-2")]);
              (lit "freebsd.boot", [(lit "hz", lit "100")])] in
  wf_doc doc = true /\
  ini_parse_file (render doc) (recorder (fun _ _ _ => 1)) [] =
    Some (0, [(lit "dpdk", lit "lcore_mask", lit "3");
              (lit "dpdk", lit "port_list", lit "0,1-2");
              (lit "freebsd.boot", lit "hz", lit "100")]).
Proof.
  cbv zeta. split; [by vm_compute|].
  rewrite ini_roundtrip; by vm_compute.
Defined.

(** Termination: on any file contents, for any handler, the parser
    returns: the loop reads at most one line per byte. *)
Theorem ini_parse_total {U} (handler : U -> cstr -> cstr -> cstr -> U * Z) file user :
  exists error user', ini_parse_file file handler user = Some (error, user').
Proof.
  unfold ini_parse_file, ini_parse_stream.
  destruct (ini_loop_total handler (S (length file)) file (IniState [] [] 0 0 user))
    as [st ->]; [lia|eauto].
Qed.

(** On any file contents, every call the parser makes passes a section
    that fits its 50-byte buffer, a name without [=] or [:], and a value
    without whitespace at either end. *)
Theorem ini_calls_clean f file error calls :
  ini_parse_file file (recorder f) [] = Some (error, calls) ->
  Forall clean_call calls.
Proof.
  unfold ini_parse_file, ini_parse_stream.
  destruct (ini_loop _ _ _ _ _) as [st|] eqn:E; [|done].
  intros [= <- <-].
  apply (ini_loop_invariant _ clean_state) in E; [apply E| |].
  - apply clean_line.
  - unfold clean_state, MAX_SECTION. simpl. repeat split; [lia|constructor].
Qed.

Lemma ini_calls_clean_witness :
  let file := lit "[kni] x" ++ newline :: lit " tcp_port : 80, 443  ; inline" ++ [newline] in
  ini_parse_file file (recorder (fun _ _ _ => 1)) [] =
    Some (0, [(lit "kni", lit "tcp_port", lit "80, 443")]) /\
  Forall clean_call [(lit "kni", lit "tcp_port", lit "80, 443")].
Proof.
  cbv zeta. split; [by vm_compute|].
  eapply (ini_calls_clean (fun _ _ _ => 1)
    (lit "[kni] x" ++ newline :: lit " tcp_port : 80, 443  ; inline" ++ [newline])).
  by vm_compute.
Defined.
