(* ===== verification/Rss.v ===== *)
(** Receive side scaling: the Toeplitz hash, the indirection table and the
    connection check of src/lib/ff_dpdk_if.c ([toeplitz_hash], [set_rss_table],
    [ff_rss_check]).

    Byte strings are lists of [Z] in [0, 256).  DPDK's group size of the
    indirection table is an argument. *)
From stdpp Require Import base list.
From Stdlib Require Import ZArith Lia.
From S2P Require Import Prelude.

Local Open Scope Z_scope.

(** ** Keys *)

Definition default_rsskey_40bytes : list Z := [
  0xd1; 0x81; 0xc6; 0x2c; 0xf7; 0xf4; 0xdb; 0x5b;
  0x19; 0x83; 0xa2; 0xfc; 0x94; 0x3e; 0x1a; 0xdb;
  0xd9; 0x38; 0x9e; 0x6b; 0xd1; 0x03; 0x9c; 0x2c;
  0xa7; 0x44; 0x99; 0xad; 0x59; 0x3d; 0x56; 0xd9;
  0xf3; 0x25; 0x3c; 0x06; 0x2a; 0xdc; 0x1f; 0xfc ].

Definition default_rsskey_52bytes : list Z := [
  0x44; 0x39; 0x79; 0x6b; 0xb5; 0x4c; 0x50; 0x23;
  0xb6; 0x75; 0xea; 0x5b; 0x12; 0x4f; 0x9f; 0x30;
  0xb8; 0xa2; 0xc0; 0x3d; 0xdf; 0xdc; 0x4d; 0x02;
  0xa0; 0x8c; 0x9b; 0x33; 0x4a; 0xf6; 0x4a; 0x4c;
  0x05; 0xc6; 0xfa; 0x34; 0x39; 0x58; 0xd8; 0x55;
  0x7d; 0x99; 0x58; 0x3a; 0xe1; 0x38; 0xc9; 0x2e;
  0x81; 0x15; 0x03; 0x66 ].

(** ** toeplitz_hash *)

(** One iteration of the inner loop: bit [b] of byte [i]; state (hash, v). *)
Definition toeplitz_bit (keylen : nat) (key data : list Z) (i b : nat)
    (hv : Z * Z) : Z * Z :=
  let '(hash, v) := hv in
  let mask := Z.shiftl 1 (7 - Z.of_nat b) in
  let hash' := if flag (rd data i) mask then Z.lxor hash v else hash in
  let v1 := u32 (Z.shiftl v 1) in
  let v' := if (i + 4 <? keylen)%nat && flag (rd key (i + 4)) mask
            then Z.lor v1 1 else v1 in
  (hash', v').

Definition toeplitz_byte (keylen : nat) (key data : list Z) (hv : Z * Z) (i : nat)
    : Z * Z :=
  fold_left (fun hv b => toeplitz_bit keylen key data i b hv) (seq 0 8) hv.

Definition toeplitz_hash (keylen : nat) (key : list Z) (datalen : nat) (data : list Z) : Z :=
  let v := u32 (Z.shiftl (rd key 0) 24 + Z.shiftl (rd key 1) 16 +
                Z.shiftl (rd key 2) 8 + rd key 3) in
  fst (fold_left (toeplitz_byte keylen key data) (seq 0 datalen) (0, v)).

(** ** ff_rss_check *)

(** [bcopy] of an [n]-byte integer on a little-endian machine. *)
Fixpoint le_bytes (n : nat) (x : Z) : list Z :=
  match n with
  | O => []
  | S n' => u8 x :: le_bytes n' (Z.shiftr x 8)
  end.

(** What [ff_rss_check] reads of the lcore and port configuration, for the
    port of the interface the connection goes through. *)
Record rss_port := RssPort {
  rss_nb_queues : Z;          (* qconf->nb_queue_list[port] *)
  rss_reta_size : Z;          (* rss_reta_size[port] *)
  rss_queue_id : Z;           (* qconf->tx_queue_id[port] *)
  rss_use_52 : bool           (* use_rsskey_52bytes *)
}.

Definition rss_tuple (saddr daddr sport dport : Z) : list Z :=
  le_bytes 4 saddr ++ le_bytes 4 daddr ++ le_bytes 2 sport ++ le_bytes 2 dport.

Definition rss_hash (use_52 : bool) (data : list Z) : Z :=
  if negb use_52
  then toeplitz_hash 40 default_rsskey_40bytes (length data) data
  else toeplitz_hash 52 default_rsskey_52bytes (length data) data.

Definition ff_rss_check (p : rss_port) (saddr daddr sport dport : Z) : Z :=
  if rss_nb_queues p <=? 1 then 1
  else
    let hash := rss_hash (rss_use_52 p) (rss_tuple saddr daddr sport dport) in
    b2z (Z.land hash (u32 (rss_reta_size p - 1)) mod rss_nb_queues p =? rss_queue_id p).

(** ** set_rss_table *)

(** One group: [for (j...) reta[j] = hash++ % nb_queues]. *)
Fixpoint reta_group (n : nat) (hash nb_queues : Z) : list Z :=
  match n with
  | O => []
  | S n' => u16 (hash mod nb_queues) :: reta_group n' (u32 (hash + 1)) nb_queues
  end.

Fixpoint reta_groups (n : nat) (group hash nb_queues : Z) : list (list Z) :=
  match n with
  | O => []
  | S n' =>
      reta_group (Z.to_nat group) hash nb_queues ::
      reta_groups n' group (u32 (hash + group)) nb_queues
  end.

(** The table handed to [rte_eth_dev_rss_reta_update]: [None] when the device
    has no table.  [group] is RTE_RETA_GROUP_SIZE. *)
Definition set_rss_table (group reta_size nb_queues : Z) : option (list (list Z)) :=
  if reta_size =? 0 then None
  else
    let reta_conf_size := Z.max 1 (reta_size / group) in
    Some (reta_groups (Z.to_nat reta_conf_size) group 0 nb_queues).

(** The NIC's use of the table: entry [idx] is [reta_conf[idx / group].reta[idx % group]]. *)
Definition reta_entry (group : Z) (table : list (list Z)) (idx : Z) : option Z :=
  table !! Z.to_nat (idx / group) ≫= fun row => row !! Z.to_nat (idx mod group).

(** ** Specification of the Toeplitz hash *)

(** Bit [j] of a byte string, most significant bit of byte 0 first. *)
Definition bit_at (l : list Z) (j : nat) : bool :=
  Z.testbit (rd l (j / 8)) (7 - Z.of_nat (j mod 8)).

(** The number with these bits, most significant first. *)
Definition bits_value (l : list bool) : Z :=
  fold_left (fun a b => 2 * a + b2z b) l 0.

(** The 32 bits of the key from bit [j] on. *)
Definition key_window (key : list Z) (j : nat) : Z :=
  bits_value (map (fun t => bit_at key (j + t)) (seq 0 32)).

(** The exclusive or of the key windows at the set bits of the input. *)
Definition toeplitz_spec (key data : list Z) (nbits : nat) : Z :=
  fold_left (fun h j => if bit_at data j then Z.lxor h (key_window key j) else h)
    (seq 0 nbits) 0.

(** * Lemmas *)

Lemma bits_value_acc l a :
  fold_left (fun a b => 2 * a + b2z b) l a = a * 2 ^ Z.of_nat (length l) + bits_value l.
Proof.
  revert a; induction l as [|b l IH]; intros a; simpl fold_left.
  - simpl. change (bits_value []) with 0. lia.
  - unfold bits_value. simpl fold_left. rewrite !IH.
    change (length (b :: l)) with (S (length l)). rewrite Nat2Z.inj_succ, Z.pow_succ_r by lia. lia.
Qed.

Lemma bits_value_cons b l :
  bits_value (b :: l) = b2z b * 2 ^ Z.of_nat (length l) + bits_value l.
Proof. unfold bits_value at 1. simpl fold_left. rewrite bits_value_acc. destruct b; simpl; lia. Qed.

Lemma bits_value_snoc l b : bits_value (l ++ [b]) = 2 * bits_value l + b2z b.
Proof. unfold bits_value. by rewrite fold_left_app. Qed.

Lemma bits_value_range l : 0 <= bits_value l < 2 ^ Z.of_nat (length l).
Proof.
  induction l as [|b l IH]; [done|]. rewrite bits_value_cons.
  change (length (b :: l)) with (S (length l)). rewrite Nat2Z.inj_succ, Z.pow_succ_r by lia.
  destruct b; simpl b2z; lia.
Qed.

Lemma bits_value_app l1 l2 :
  bits_value (l1 ++ l2) = bits_value l1 * 2 ^ Z.of_nat (length l2) + bits_value l2.
Proof. unfold bits_value at 1. rewrite fold_left_app. by rewrite bits_value_acc. Qed.

Definition byte_bits (x : Z) : list bool := map (fun k => Z.testbit x (7 - Z.of_nat k)) (seq 0 8).

Lemma byte_bits_value x : 0 <= x < 256 -> bits_value (byte_bits x) = x.
Proof.
  intros Hx.
  assert (forallb (fun n => bits_value (byte_bits (Z.of_nat n)) =? Z.of_nat n) (seq 0 256) = true)
    as H by by vm_compute.
  rewrite forallb_forall in H. specialize (H (Z.to_nat x)).
  rewrite Z2Nat.id in H by lia. apply Z.eqb_eq, H, in_seq. lia.
Qed.

Lemma bit_at_byte l i b : (b < 8)%nat -> bit_at l (8 * i + b) = Z.testbit (rd l i) (7 - Z.of_nat b).
Proof.
  intros Hb. unfold bit_at. rewrite (Nat.mul_comm 8 i).
  rewrite Nat.div_add_l, Nat.div_small, Nat.add_0_r by lia.
  by rewrite Nat.add_comm, Nat.Div0.mod_add, Nat.mod_small by lia.
Qed.

Lemma key_window_step key j :
  key_window key (S j) = u32 (2 * key_window key j + b2z (bit_at key (j + 32))).
Proof.
  unfold key_window.
  set (mid := map (fun t => bit_at key (j + t)) (seq 1 31)).
  assert (map (fun t => bit_at key (S j + t)) (seq 0 32) = mid ++ [bit_at key (j + 32)]) as ->.
  { unfold mid. change [bit_at key (j + 32)] with (map (fun t => bit_at key (j + t)) (seq 32 1)).
    rewrite <- map_app. change (seq 1 31 ++ seq 32 1) with (seq 1 32).
    rewrite <- (seq_shift 32 0), map_map. apply map_ext. intros t. f_equal. lia. }
  change (seq 0 32) with (0%nat :: seq 1 31). rewrite map_cons. fold mid.
  rewrite bits_value_snoc, bits_value_cons.
  assert (length mid = 31%nat) as Hl by (unfold mid; by rewrite length_map, length_seq).
  pose proof (bits_value_range mid) as Hr. rewrite Hl in *. unfold wrapu.
  rewrite Z.mul_add_distr_l.
  replace (2 * (b2z (bit_at key (j + 0)) * 2 ^ Z.of_nat 31)) with
    (b2z (bit_at key (j + 0)) * 2 ^ 32) by (change (2 ^ 32) with (2 * 2 ^ Z.of_nat 31); lia).
  rewrite <- Z.add_assoc, (Z.add_comm (_ * 2 ^ 32)), Z.mod_add, Z.mod_small; [done| |done].
  change (2 ^ 32) with (2 * 2 ^ Z.of_nat 31). destruct (bit_at key (j + 32)); simpl b2z; lia.
Qed.

Lemma toeplitz_spec_S key data n :
  toeplitz_spec key data (S n) =
  if bit_at data n then Z.lxor (toeplitz_spec key data n) (key_window key n)
  else toeplitz_spec key data n.
Proof. unfold toeplitz_spec. by rewrite seq_S, fold_left_app. Qed.

(** One iteration of the inner loop advances the specification by one bit. *)
Lemma toeplitz_bit_spec key data i b :
  (b < 8)%nat ->
  toeplitz_bit (length key) key data i b
    (toeplitz_spec key data (8 * i + b), key_window key (8 * i + b)) =
  (toeplitz_spec key data (8 * i + S b), key_window key (8 * i + S b)).
Proof.
  intros Hb. unfold toeplitz_bit.
  rewrite !flag_bit by lia. rewrite <- !bit_at_byte by done.
  rewrite (Nat.add_succ_r (8 * i) b), toeplitz_spec_S, key_window_step.
  f_equal. replace (8 * i + b + 32)%nat with (8 * (i + 4) + b)%nat by lia.
  set (w := key_window key (8 * i + b)).
  assert (((i + 4 <? length key)%nat && bit_at key (8 * (i + 4) + b)) =
          bit_at key (8 * (i + 4) + b)) as ->.
  { destruct (Nat.ltb_spec (i + 4) (length key)) as [|Hge]; [done|].
    rewrite bit_at_byte by done. unfold rd. rewrite nth_overflow by lia. by rewrite Z.bits_0. }
  rewrite Z.shiftl_mul_pow2 by lia. change (2 ^ 1) with 2. rewrite (Z.mul_comm w 2).
  unfold wrapu. change (2 ^ 32) with (2 * 2 ^ 31). rewrite Z.mul_mod_distr_l by lia.
  destruct (bit_at key (8 * (i + 4) + b)); simpl b2z.
  - rewrite lor_even_1. rewrite <- Z.mul_mod_distr_l by lia.
    pose proof (Z.div_mod w (2 ^ 31)). pose proof (Z.mod_pos_bound w (2 ^ 31)).
    rewrite Z.mul_mod_distr_l by lia.
    apply (Z.mod_unique_pos _ _ (w / 2 ^ 31)); lia.
  - by rewrite Z.add_0_r, Z.mul_mod_distr_l by lia.
Qed.

Lemma toeplitz_byte_spec key data i :
  toeplitz_byte (length key) key data
    (toeplitz_spec key data (8 * i), key_window key (8 * i)) i =
  (toeplitz_spec key data (8 * S i), key_window key (8 * S i)).
Proof.
  unfold toeplitz_byte. replace (8 * S i)%nat with (8 * i + 8)%nat by lia.
  enough (forall n, (n <= 8)%nat ->
    fold_left (fun hv b => toeplitz_bit (length key) key data i b hv) (seq 0 n)
      (toeplitz_spec key data (8 * i), key_window key (8 * i)) =
    (toeplitz_spec key data (8 * i + n), key_window key (8 * i + n))) as H by by apply H.
  induction n as [|n IH]; intros Hn.
  - by rewrite Nat.add_0_r.
  - rewrite seq_S, fold_left_app, IH by lia. cbn [fold_left]. rewrite Nat.add_0_l.
    apply toeplitz_bit_spec. lia.
Qed.

Lemma initial_window key :
  is_bytes key = true ->
  u32 (Z.shiftl (rd key 0) 24 + Z.shiftl (rd key 1) 16 + Z.shiftl (rd key 2) 8 + rd key 3) =
  key_window key 0.
Proof.
  intros Hk. unfold key_window.
  transitivity (bits_value (byte_bits (rd key 0) ++ byte_bits (rd key 1) ++
                            byte_bits (rd key 2) ++ byte_bits (rd key 3))); [|done].
  rewrite !bits_value_app, !byte_bits_value by by apply is_bytes_nth.
  pose proof (is_bytes_nth key 0 Hk). pose proof (is_bytes_nth key 1 Hk).
  pose proof (is_bytes_nth key 2 Hk). pose proof (is_bytes_nth key 3 Hk).
  rewrite !Z.shiftl_mul_pow2 by lia. rewrite !length_app.
  change (length (byte_bits _)) with 8%nat. simpl Z.of_nat.
  change (2 ^ 24) with 16777216. change (2 ^ 16) with 65536. change (2 ^ 8) with 256.
  rewrite wrapu_small; [lia|]. change (2 ^ 32) with 4294967296. lia.
Qed.

(** C34. The running hash of [toeplitz_hash], with its shifting 32-bit window
    and its bound on the key index, is the Toeplitz hash of the definition:
    the exclusive or of the 32 key bits that start at position j, over the
    positions j of the set bits of the input, for every key and every input. *)
Theorem toeplitz_hash_spec (key data : list Z) :
  is_bytes key = true ->
  toeplitz_hash (length key) key (length data) data =
  toeplitz_spec key data (8 * length data).
Proof.
  intros Hk. unfold toeplitz_hash. rewrite initial_window by done.
  change (0, key_window key 0) with (toeplitz_spec key data (8 * 0), key_window key (8 * 0)).
  enough (forall n, fold_left (toeplitz_byte (length key) key data) (seq 0 n)
    (toeplitz_spec key data (8 * 0), key_window key (8 * 0)) =
    (toeplitz_spec key data (8 * n), key_window key (8 * n))) as -> by done.
  induction n as [|n IH]; [done|].
  rewrite seq_S, fold_left_app, IH. cbn [fold_left]. apply toeplitz_byte_spec.
Qed.

Lemma toeplitz_hash_spec_witness :
  toeplitz_hash 40 default_rsskey_40bytes 12 (rss_tuple 1 2 3 4) =
  toeplitz_spec default_rsskey_40bytes (rss_tuple 1 2 3 4) 96.
Proof. apply (toeplitz_hash_spec default_rsskey_40bytes (rss_tuple 1 2 3 4)). vm_compute. done. Defined.

(** ** The indirection table *)

Lemma reta_group_lookup n h nbq j :
  0 < nbq < 2 ^ 16 -> 0 <= h -> h + Z.of_nat n <= 2 ^ 32 -> (j < n)%nat ->
  reta_group n h nbq !! j = Some ((h + Z.of_nat j) mod nbq).
Proof.
  intros Hq. revert h j; induction n as [|n IH]; intros h j H0 Hh Hj; [lia|].
  cbn [reta_group]. pose proof (Z.mod_pos_bound h nbq).
  destruct j as [|j]; simpl lookup.
  - rewrite Z.add_0_r, wrapu_small by lia. done.
  - destruct n as [|n]; [lia|]. rewrite wrapu_small by lia. rewrite IH by lia.
    do 2 f_equal. lia.
Qed.

Lemma reta_groups_lookup n g h nbq i j :
  0 < g -> 0 < nbq < 2 ^ 16 -> 0 <= h -> h + Z.of_nat n * g <= 2 ^ 32 ->
  (i < n)%nat -> 0 <= j < g ->
  reta_groups n g h nbq !! i ≫= (fun row => row !! Z.to_nat j) =
  Some ((h + Z.of_nat i * g + j) mod nbq).
Proof.
  intros Hg Hq. revert h i; induction n as [|n IH]; intros h i H0 Hh Hi Hj; [lia|].
  cbn [reta_groups]. destruct i as [|i]; simpl lookup.
  - simpl. rewrite reta_group_lookup by nia. do 2 f_equal. lia.
  - destruct n as [|n]; [lia|]. rewrite wrapu_small by nia.
    rewrite IH by nia. do 2 f_equal. lia.
Qed.

(** Entry [idx] of the programmed table is [idx % nb_queues]. *)
Lemma set_rss_table_entry g size nbq idx :
  0 <= g -> 0 < nbq < 2 ^ 16 -> 0 <= idx < size -> size <= 2 ^ 16 ->
  2 ^ g <= 2 ^ 16 -> (2 ^ g | size) \/ size <= 2 ^ g ->
  exists table, set_rss_table (2 ^ g) size nbq = Some table /\
    reta_entry (2 ^ g) table idx = Some (idx mod nbq).
Proof.
  intros Hg Hq Hi Hs Hg16 Hd. unfold set_rss_table.
  assert (0 < 2 ^ g) by (apply Z.pow_pos_nonneg; lia).
  rewrite (proj2 (Z.eqb_neq size 0)) by lia. eexists; split; [done|].
  unfold reta_entry. pose proof (Z.mod_pos_bound idx (2 ^ g)). pose proof (Z.div_mod idx (2 ^ g)).
  assert (0 <= idx / 2 ^ g) by (apply Z.div_pos; lia).
  assert (Hmax : idx / 2 ^ g < Z.max 1 (size / 2 ^ g) /\
    Z.max 1 (size / 2 ^ g) * 2 ^ g <= 2 ^ 17).
  { destruct Hd as [[m ->]|Hle].
    - rewrite Z.div_mul by lia. split; nia.
    - rewrite Z.div_small by lia. pose proof (Z.div_le_upper_bound size (2 ^ g) 1). nia. }
  rewrite reta_groups_lookup; try lia.
  rewrite Z2Nat.id by lia. do 2 f_equal. lia.
Qed.

Lemma pow2_divides_or_le a b : 0 <= a -> 0 <= b -> (2 ^ a | 2 ^ b) \/ 2 ^ b <= 2 ^ a.
Proof.
  intros Ha Hb. destruct (Z.le_gt_cases a b).
  - left. exists (2 ^ (b - a)). rewrite <- Z.pow_add_r by lia. f_equal; lia.
  - right. apply Z.pow_le_mono_r; lia.
Qed.

(** C32. On a port with several queues, [ff_rss_check] accepts a connection on
    exactly the queue to which the indirection table programmed by
    [set_rss_table] steers the connection's packets (entry [hash mod size] of
    the table), and that queue exists and is unique.  The table and group
    sizes are powers of two. *)
Theorem rss_check_matches_reta (g k nbq : Z) (use52 : bool) (saddr daddr sport dport : Z) :
  0 <= g <= 16 -> 0 <= k < 16 -> 1 < nbq < 2 ^ 16 ->
  exists table owner,
    set_rss_table (2 ^ g) (2 ^ k) nbq = Some table /\
    reta_entry (2 ^ g) table
      (rss_hash use52 (rss_tuple saddr daddr sport dport) mod 2 ^ k) = Some owner /\
    0 <= owner < nbq /\
    forall q, ff_rss_check (RssPort nbq (2 ^ k) q use52) saddr daddr sport dport = 1 <-> q = owner.
Proof.
  intros Hg Hk Hq. set (hash := rss_hash use52 (rss_tuple saddr daddr sport dport)).
  assert (0 < 2 ^ k) by (apply Z.pow_pos_nonneg; lia).
  assert (2 ^ k <= 2 ^ 16) by (apply Z.pow_le_mono_r; lia).
  assert (2 ^ g <= 2 ^ 16) by (apply Z.pow_le_mono_r; lia).
  destruct (set_rss_table_entry g (2 ^ k) nbq (hash mod 2 ^ k)) as (table & Ht & He);
    [lia|lia|apply Z.mod_pos_bound; lia|lia|done|apply pow2_divides_or_le; lia|].
  exists table, (hash mod 2 ^ k mod nbq). split_and!; [done..|apply Z.mod_pos_bound; lia| |].
  all: try (pose proof (Z.mod_pos_bound (hash mod 2 ^ k) nbq); lia).
  intros q. unfold ff_rss_check. simpl. rewrite (proj2 (Z.leb_gt nbq 1)) by lia.
  rewrite wrapu_small by (change (2 ^ 32) with 4294967296; change (2 ^ 16) with 65536 in *; lia).
  rewrite land_pred_pow2 by lia. fold hash.
  destruct (Z.eqb_spec (hash mod 2 ^ k mod nbq) q); simpl; split; congruence || lia.
Qed.

Lemma rss_check_matches_reta_witness :
  exists table owner,
    set_rss_table 64 128 4 = Some table /\
    reta_entry 64 table (rss_hash false (rss_tuple 1 2 3 4) mod 128) = Some owner /\
    0 <= owner < 4 /\
    forall q, ff_rss_check (RssPort 4 128 q false) 1 2 3 4 = 1 <-> q = owner.
Proof. apply (rss_check_matches_reta 6 7 4 false 1 2 3 4); lia. Defined.
