(* ===== verification/ProtoFilter.v ===== *)
(** The packet classifier: [protocol_filter] of src/lib/ff_dpdk_if.c and the
    IP, TCP, UDP and ICMPv6 filters and port bitmaps of src/lib/ff_dpdk_kni.c.

    A frame is a buffer of bytes [mem]; a [data] pointer is an offset into it
    and [len] the 16-bit length the C code passes along.  A read outside the
    buffer is [Fault].  The recursion of the IP filter is bounded by fuel and
    gives [Loop] when it runs out.  The build options INET6 and FF_KNI are
    fields of the configuration. *)
From stdpp Require Import base list strings.
From Stdlib Require Import ZArith Lia Ascii.
From S2P Require Import Prelude CStr.

Local Open Scope Z_scope.

Inductive FilterReturn := FILTER_UNKNOWN | FILTER_ARP | FILTER_KNI | FILTER_NDP.

#[global] Instance FilterReturn_eq_dec : EqDecision FilterReturn.
Proof. solve_decision. Defined.

(** ** Port bitmaps *)

Definition magic_bits : list Z := [0x80; 0x40; 0x20; 0x10; 0x8; 0x4; 0x2; 0x1].

(** htons on a little-endian machine. *)
Definition htons (x : Z) : Z := Z.lor (Z.shiftl (Z.land x 255) 8) (Z.shiftr x 8).

(** The 8192 bytes that [ff_kni_init] allocates and clears. *)
Definition empty_bitmap : list Z := replicate (Z.to_nat 8192) 0.

(** The argument is converted to uint16_t by the call. *)
Definition set_bitmap (port : Z) (bitmap : list Z) : list Z :=
  let port := htons (u16 port) in
  let i := Z.to_nat (port / 8) in
  <[i := Z.lor (rd bitmap i) (rd magic_bits (Z.to_nat (port mod 8)))]> bitmap.

Definition get_bitmap (port : Z) (bitmap : list Z) : Z :=
  let p := rd bitmap (Z.to_nat (port / 8)) in
  if 0 <? Z.land p (rd magic_bits (Z.to_nat (port mod 8))) then 1 else 0.

(** [for (i = lo; i <= hi; ++i) set_bitmap(i, bitmap)] *)
Definition set_bitmap_range (lo hi : Z) (bitmap : list Z) : list Z :=
  fold_left (fun bm k => set_bitmap (lo + Z.of_nat k) bm)
    (seq 0 (Z.to_nat (hi - lo + 1))) bitmap.

(** One turn of the loop of [kni_set_bitmap] per list item; [head] shrinks at
    each turn, so that [length head] turns are enough. *)
Fixpoint kni_set_bitmap_loop (fuel : nat) (head : cstr) (bitmap : list Z) : list Z :=
  match fuel with
  | O => bitmap
  | S fuel' =>
      let tail := find_char ","%char head in
      let tail_num := find_char "-"%char head in
      let bitmap :=
        match tail_num with
        | Some n =>
            if match tail with None => true | Some t => (n <? t - 1)%nat end
            then set_bitmap_range (atoi head) (atoi (drop (S n) head)) bitmap
            else set_bitmap (atoi head) bitmap
        | None => set_bitmap (atoi head) bitmap
        end in
      match tail with
      | None => bitmap
      | Some t => kni_set_bitmap_loop fuel' (drop (S t) head) bitmap
      end
  end.

Definition kni_set_bitmap (p : option cstr) (bitmap : list Z) : list Z :=
  match p with
  | None => bitmap
  | Some p => kni_set_bitmap_loop (S (length p)) p bitmap
  end.

(** ** Protocol numbers and header layouts *)

Definition ETHER_HDR_LEN : Z := 14.
Definition ETHER_TYPE_IPv4 : Z := 0x0800.
Definition ETHER_TYPE_IPv6 : Z := 0x86DD.
Definition ETHER_TYPE_ARP : Z := 0x0806.
Definition ETHER_TYPE_VLAN : Z := 0x8100.

Definition IPPROTO_HOPOPTS : Z := 0.
Definition IPPROTO_IPIP : Z := 4.
Definition IPPROTO_TCP : Z := 6.
Definition IPPROTO_UDP : Z := 17.
Definition IPPROTO_IPV6 : Z := 41.
Definition IPPROTO_ROUTING : Z := 43.
Definition IPPROTO_FRAGMENT : Z := 44.
Definition IPPROTO_AH : Z := 51.
Definition IPPROTO_ICMPV6 : Z := 58.
Definition IPPROTO_NONE : Z := 59.
Definition IPPROTO_DSTOPTS : Z := 60.
Definition IPPROTO_MH : Z := 135.
Definition IPPROTO_HIP : Z := 139.
Definition IPPROTO_SHIM6 : Z := 140.

Definition ND_ROUTER_SOLICIT : Z := 133.
Definition ND_REDIRECT : Z := 137.

Record kni_config := KniConfig {
  kc_inet6 : bool;              (* INET6 *)
  kc_ff_kni : bool;             (* FF_KNI *)
  kc_enable_kni : bool;         (* enable_kni *)
  kc_tcp_port_bitmap : list Z;
  kc_udp_port_bitmap : list Z
}.

(** The bitmaps set up by [ff_kni_init]. *)
Definition ff_kni_init_bitmaps (tcp_ports udp_ports : option cstr) : list Z * list Z :=
  (kni_set_bitmap tcp_ports empty_bitmap, kni_set_bitmap udp_ports empty_bitmap).

(** ** The filters *)

Section filters.
Context (cfg : kni_config) (mem : list Z).

(** A 16-bit load of a little-endian machine, and the big-endian value. *)
Definition mread16 (off : Z) : outcome Z :=
  b0 ← mread mem off; b1 ← mread mem (off + 1); mret (b0 + 256 * b1).

Definition rte_be_to_cpu_16 (x : Z) : Z := htons x.

Definition protocol_filter_l4 (port : Z) (bitmap : list Z) : FilterReturn :=
  if ctrue (get_bitmap port bitmap) then FILTER_KNI else FILTER_UNKNOWN.

Definition protocol_filter_tcp (data len : Z) : outcome FilterReturn :=
  if len <? 20 then mret FILTER_UNKNOWN
  else dst_port ← mread16 (data + 2); mret (protocol_filter_l4 dst_port (kc_tcp_port_bitmap cfg)).

Definition protocol_filter_udp (data len : Z) : outcome FilterReturn :=
  if len <? 8 then mret FILTER_UNKNOWN
  else dst_port ← mread16 (data + 2); mret (protocol_filter_l4 dst_port (kc_udp_port_bitmap cfg)).

(** The switch of [get_ipv6_hdr_len]: the length of the extension header, or
    [None] where the function returns at once. *)
Definition ext_hdr_len (proto data : Z) : outcome (option Z) :=
  if (proto =? IPPROTO_HOPOPTS) || (proto =? IPPROTO_ROUTING) || (proto =? IPPROTO_DSTOPTS)
     || (proto =? IPPROTO_MH) || (proto =? IPPROTO_HIP) || (proto =? IPPROTO_SHIM6)
  then b ← mread mem (data + 1); mret (Some (b + 1))
  else if proto =? IPPROTO_FRAGMENT then mret (Some 8)
  else if proto =? IPPROTO_AH
  then b ← mread mem (data + 1); mret (Some ((b + 2) * 4))
  else mret None.

(** Returns the protocol left in [*proto] and the length of the headers. *)
Fixpoint get_ipv6_hdr_len (fuel : nat) (proto data len : Z) : outcome (Z * Z) :=
  match fuel with
  | O => Loop
  | S fuel' =>
      ext ← ext_hdr_len proto data;
      match ext with
      | None => mret (proto, 0)
      | Some ext =>
          if len <=? ext then mret (proto, len)
          else
            next ← mread mem data;
            r ← get_ipv6_hdr_len fuel' next (data + ext) (u16 (len - ext));
            mret (fst r, ext + snd r)
      end
  end.

Definition protocol_filter_icmp6 (data len : Z) : outcome FilterReturn :=
  if len <? 8 then mret FILTER_UNKNOWN
  else
    icmp6_type ← mread mem data;
    mret (if (ND_ROUTER_SOLICIT <=? icmp6_type) && (icmp6_type <=? ND_REDIRECT)
          then FILTER_NDP else FILTER_UNKNOWN).

(** The header part of [protocol_filter_ip]: [None] for the early returns,
    otherwise (proto, hdr_len). *)
Definition filter_ip_header (fuel : nat) (data len eth_frame_type : Z) : outcome (option (Z * Z)) :=
  if eth_frame_type =? ETHER_TYPE_IPv4 then
    if len <? 20 then mret None
    else
      version_ihl ← mread mem data;
      let hdr_len := Z.shiftl (Z.land version_ihl 0x0f) 2 in
      if len <? hdr_len then mret None
      else proto ← mread mem (data + 9); mret (Some (proto, hdr_len))
  else if kc_inet6 cfg && (eth_frame_type =? ETHER_TYPE_IPv6) then
    if len <? 40 then mret None
    else
      proto ← mread mem (data + 6);
      r ← get_ipv6_hdr_len fuel proto (data + 40) (u16 (len - 40));
      let hdr_len := 40 + snd r in
      if len <? hdr_len then mret None else mret (Some (fst r, hdr_len))
  else mret None.

Fixpoint protocol_filter_ip (fuel : nat) (data len eth_frame_type : Z) : outcome FilterReturn :=
  match fuel with
  | O => Loop
  | S fuel' =>
      h ← filter_ip_header fuel data len eth_frame_type;
      match h with
      | None => mret FILTER_UNKNOWN
      | Some (proto, hdr_len) =>
          let next := data + hdr_len in
          let next_len := u16 (len - hdr_len) in
          if proto =? IPPROTO_TCP then
            if kc_ff_kni cfg && kc_enable_kni cfg then protocol_filter_tcp next next_len
            else mret FILTER_UNKNOWN
          else if proto =? IPPROTO_UDP then
            if kc_ff_kni cfg && kc_enable_kni cfg then protocol_filter_udp next next_len
            else mret FILTER_UNKNOWN
          else if proto =? IPPROTO_IPIP then
            protocol_filter_ip fuel' next next_len ETHER_TYPE_IPv4
          else if kc_inet6 cfg && (proto =? IPPROTO_IPV6) then
            protocol_filter_ip fuel' next next_len ETHER_TYPE_IPv6
          else if kc_inet6 cfg && (proto =? IPPROTO_ICMPV6) then
            protocol_filter_icmp6 next next_len
          else mret FILTER_UNKNOWN
      end
  end.

Definition ff_kni_proto_filter (fuel : nat) (data len eth_frame_type : Z) : outcome FilterReturn :=
  protocol_filter_ip fuel data len eth_frame_type.

(** [protocol_filter] of ff_dpdk_if.c, on the frame at offset 0. *)
Definition protocol_filter (fuel : nat) (len : Z) : outcome FilterReturn :=
  if len <? ETHER_HDR_LEN then mret FILTER_UNKNOWN
  else
    ty ← mread16 12;
    let ether_type := rte_be_to_cpu_16 ty in
    let data := ETHER_HDR_LEN in
    let len := u16 (len - ETHER_HDR_LEN) in
    vlan ← (if ether_type =? ETHER_TYPE_VLAN then
              eth_proto ← mread16 (data + 2);
              mret (rte_be_to_cpu_16 eth_proto, data + 4, u16 (len - 4))
            else mret (ether_type, data, len));
    let '(ether_type, data, len) := vlan in
    if ether_type =? ETHER_TYPE_ARP then mret FILTER_ARP
    else if kc_inet6 cfg && (ether_type =? ETHER_TYPE_IPv6) then
      ff_kni_proto_filter fuel data len ether_type
    else if negb (kc_ff_kni cfg) then mret FILTER_UNKNOWN
    else if negb (kc_enable_kni cfg) then mret FILTER_UNKNOWN
    else if negb (ether_type =? ETHER_TYPE_IPv4) then mret FILTER_UNKNOWN
    else ff_kni_proto_filter fuel data len ether_type.

End filters.

(** * Reads stay near the frame, and when the recursion ends *)

Section safety.
Context (cfg : kni_config) (mem : list Z).
Hypothesis mem_bytes : is_bytes mem = true.

(** An IPv4 header of claimed length 0 that encapsulates IPv4. *)
Definition zero_ihl_ipip (off : Z) : Prop :=
  Z.land (rd mem (Z.to_nat off)) 0x0f = 0 /\ rd mem (Z.to_nat (off + 9)) = IPPROTO_IPIP.

Lemma mread_byte off :
  0 <= off < Z.of_nat (length mem) ->
  exists b, mread mem off = Done b /\ 0 <= b < 256 /\ b = rd mem (Z.to_nat off).
Proof. intros H. rewrite mread_rd by done. eexists; split_and!; try apply is_bytes_nth; done. Qed.

Lemma mread16_done off :
  0 <= off -> off + 1 < Z.of_nat (length mem) -> exists x, mread16 mem off = Done x.
Proof.
  intros. unfold mread16. rewrite !mread_rd by lia. by eexists.
Qed.

Lemma ext_hdr_len_done proto data :
  0 <= data -> data + 1 < Z.of_nat (length mem) ->
  exists e, ext_hdr_len mem proto data = Done e /\
    match e with None => True | Some n => 1 <= n end.
Proof.
  intros. unfold ext_hdr_len.
  destruct (mread_byte (data + 1)) as (b & -> & Hb & _); [lia|].
  destruct (_ || _); [by exists (Some (b + 1)); split; [|lia]|].
  destruct (proto =? _); [by exists (Some 8); split; [|lia]|].
  destruct (proto =? _); [by exists (Some ((b + 2) * 4)); split; [|lia]|]. by exists None.
Qed.

(** The walk over the extension headers ends, stays inside the packet and
    returns at most its length. *)
Lemma get_ipv6_hdr_len_done fuel proto data len :
  0 <= proto < 256 -> 0 <= data -> 0 <= len < 2 ^ 16 ->
  data + len + 2 <= Z.of_nat (length mem) -> (Z.to_nat len < fuel)%nat ->
  exists p r, get_ipv6_hdr_len mem fuel proto data len = Done (p, r) /\
    0 <= p < 256 /\ 0 <= r <= len.
Proof.
  revert proto data len; induction fuel as [|fuel IH]; intros proto data len Hp Hd Hl Hm Hf; [lia|].
  cbn [get_ipv6_hdr_len].
  destruct (ext_hdr_len_done proto data) as (e & -> & He); [lia..|]. simpl.
  destruct e as [e|]; [|by exists proto, 0; split_and!; lia || done].
  destruct (Z.leb_spec len e); [by exists proto, len; split_and!; lia || done|].
  destruct (mread_byte data) as (b & -> & Hb & _); [lia|]. simpl.
  rewrite wrapu_small by lia.
  destruct (IH b (data + e) (len - e)) as (p & r & -> & Hp' & Hr); [lia..|].
  exists p, (e + r). simpl. split_and!; lia || done.
Qed.

Lemma land_15_range x : 0 <= Z.land x 15 < 16.
Proof. change 15 with (Z.ones 4). rewrite Z.land_ones by lia. apply Z.mod_pos_bound. lia. Qed.

(** The header is either refused or has a length inside the packet, which is
    0 only for an IPv4 header with a header length field of 0. *)
Lemma filter_ip_header_done fuel data len ty :
  0 <= data -> 0 <= len < 2 ^ 16 -> data + len + 2 <= Z.of_nat (length mem) ->
  (Z.to_nat len < fuel)%nat ->
  exists h, filter_ip_header cfg mem fuel data len ty = Done h /\
    match h with
    | None => True
    | Some (p, n) => 0 <= n <= len /\
        (n = 0 -> ty = ETHER_TYPE_IPv4 /\ 20 <= len /\ Z.land (rd mem (Z.to_nat data)) 0x0f = 0 /\
                  p = rd mem (Z.to_nat (data + 9)))
    end.
Proof.
  intros Hd Hl Hm Hf. unfold filter_ip_header.
  destruct (Z.eqb_spec ty ETHER_TYPE_IPv4); [|destruct (kc_inet6 cfg && _); [|by exists None]].
  - destruct (Z.ltb_spec len 20); [by exists None|].
    destruct (mread_byte data) as (b & -> & Hb & Eb); [lia|]. simpl.
    pose proof (land_15_range b) as Hr. rewrite Z.shiftl_mul_pow2 by lia. change (2 ^ 2) with 4.
    destruct (Z.ltb_spec len (Z.land b 15 * 4)); [by exists None|].
    destruct (mread_byte (data + 9)) as (p & -> & Hp & Ep); [lia|]. simpl.
    eexists; split; [done|]. rewrite <- Eb, <- Ep. split; [lia|].
    intros. split_and!; [done|lia|lia|done].
  - destruct (Z.ltb_spec len 40); [by exists None|].
    destruct (mread_byte (data + 6)) as (p & -> & Hp & _); [lia|]. simpl.
    rewrite wrapu_small by lia.
    destruct (get_ipv6_hdr_len_done fuel p (data + 40) (len - 40)) as (p' & r & -> & Hp' & Hr); [lia..|].
    simpl. destruct (Z.ltb_spec len (40 + r)); [by exists None|].
    eexists; split; [done|]. cbn. split; [lia|]. intros; lia.
Qed.

Lemma filter_l4_done data len :
  0 <= data -> data + len + 2 <= Z.of_nat (length mem) ->
  (exists r, protocol_filter_tcp cfg mem data len = Done r) /\
  (exists r, protocol_filter_udp cfg mem data len = Done r) /\
  (exists r, protocol_filter_icmp6 mem data len = Done r).
Proof.
  intros Hd Hm. unfold protocol_filter_tcp, protocol_filter_udp, protocol_filter_icmp6.
  split_and!; case_match; try (by eexists); rewrite ?Z.ltb_ge in *.
  1,2: destruct (mread16_done (data + 2)) as [x ->]; [lia..|]; by eexists.
  destruct (mread_byte data) as (b & -> & _); [lia|]. by eexists.
Qed.

Lemma filter_ip_step_case fuel data len ty :
  0 <= data -> 0 <= len < 2 ^ 16 -> data + len + 2 <= Z.of_nat (length mem) ->
  (Z.to_nat len < S fuel)%nat ->
  (exists r, protocol_filter_ip cfg mem (S fuel) data len ty = Done r) \/
  exists n ty', 0 <= n <= len /\
    protocol_filter_ip cfg mem (S fuel) data len ty =
      protocol_filter_ip cfg mem fuel (data + n) (len - n) ty' /\
    (n = 0 -> ty = ETHER_TYPE_IPv4 /\
      (ty' = ETHER_TYPE_IPv6 \/ 20 <= len /\ zero_ihl_ipip data)).
Proof.
  intros Hd Hl Hm Hf. cbn [protocol_filter_ip].
  destruct (filter_ip_header_done (S fuel) data len ty) as (h & -> & Hh); [lia..|].
  cbn [mbind outcome_bind].
  destruct h as [[p n]|]; [|left; by eexists]. destruct Hh as (Hn & H0).
  rewrite wrapu_small by lia.
  destruct (filter_l4_done (data + n) (len - n)) as (Ht & Hu & Hi); [lia..|].
  destruct (p =? IPPROTO_TCP); [left; destruct (_ && _); [done|by eexists]|].
  destruct (p =? IPPROTO_UDP); [left; destruct (_ && _); [done|by eexists]|].
  destruct (Z.eqb_spec p IPPROTO_IPIP) as [->|].
  { right. exists n, ETHER_TYPE_IPv4. split_and!; [lia..|done|]. intros E.
    destruct (H0 E) as (? & ? & ? & ?). split; [done|]. right. split; [lia|]. by split. }
  destruct (kc_inet6 cfg && (p =? IPPROTO_IPV6)).
  { right. exists n, ETHER_TYPE_IPv6. split_and!; [lia..|done|]. intros E.
    split; [by apply (H0 E)|]. by left. }
  destruct (kc_inet6 cfg && _); left; [done|by eexists].
Qed.

Lemma protocol_filter_ip_done fuel data len ty :
  0 <= data -> 0 <= len < 2 ^ 16 -> data + len + 2 <= Z.of_nat (length mem) ->
  2 * len + b2z (ty =? ETHER_TYPE_IPv4) < Z.of_nat fuel ->
  (exists r, protocol_filter_ip cfg mem fuel data len ty = Done r) \/
  (exists off, data <= off /\ off + 20 <= data + len /\ zero_ihl_ipip off).
Proof.
  revert data len ty; induction fuel as [|fuel IH]; intros data len ty Hd Hl Hm Hf;
    assert (0 <= b2z (ty =? ETHER_TYPE_IPv4) <= 1) by (destruct (ty =? _); simpl; lia); [lia|].
  destruct (filter_ip_step_case fuel data len ty) as [|(n & ty' & Hn & -> & H0)];
    [lia..|by left|].
  assert (0 <= b2z (ty' =? ETHER_TYPE_IPv4) <= 1) by (destruct (ty' =? _); simpl; lia).
  destruct (decide (n = 0)) as [->|].
  - destruct H0 as [-> [->|[]]]; [done| |right; by exists data; split_and!; lia || done].
    rewrite Z.add_0_r, Z.sub_0_r. apply IH; try lia. revert Hf.
    change (b2z (ETHER_TYPE_IPv4 =? _)) with 1. change (b2z (ETHER_TYPE_IPv6 =? _)) with 0. lia.
  - destruct (IH (data + n) (len - n) ty') as [|(off & ? & ? & ?)]; [lia..|by left|].
    right. exists off. split_and!; lia || done.
Qed.

Lemma protocol_filter_ends (fuel : nat) (len : Z) :
  18 <= len < 2 ^ 16 -> len + 2 <= Z.of_nat (length mem) -> 2 * len < Z.of_nat fuel ->
  (exists r, protocol_filter cfg mem fuel len = Done r) \/
  (exists off, ETHER_HDR_LEN <= off /\ off + 20 <= len /\ zero_ihl_ipip off).
Proof.
  intros Hl Hm Hf. unfold protocol_filter, ETHER_HDR_LEN. rewrite (proj2 (Z.ltb_ge len 14)) by lia.
  destruct (mread16_done 12) as [ty ->]; [lia..|]. cbn [mbind outcome_bind].
  rewrite (wrapu_small 16 (len - 14)) by lia.
  destruct (mread16_done (14 + 2)) as [ty2 E2]; [lia..|].
  assert (Hv : exists ty' data', 14 <= data' <= 18 /\
    (if rte_be_to_cpu_16 ty =? ETHER_TYPE_VLAN
     then eth_proto ← mread16 mem (14 + 2); mret (rte_be_to_cpu_16 eth_proto, 14 + 4, u16 (len - 14 - 4))
     else mret (rte_be_to_cpu_16 ty, 14, len - 14)) = Done (ty', data', len - data')).
  { rewrite E2. cbn [mbind outcome_bind]. rewrite wrapu_small by lia.
    destruct (_ =? ETHER_TYPE_VLAN); do 2 eexists; (split; [|f_equal; f_equal; lia]); lia. }
  destruct Hv as (ty' & data' & Hd & ->). cbn [mbind outcome_bind].
  assert (forall t, 2 * (len - data') + b2z (t =? ETHER_TYPE_IPv4) < Z.of_nat fuel)
    by (intros t; destruct (t =? _); simpl; lia).
  destruct (protocol_filter_ip_done fuel data' (len - data') ty') as [Hr|(off & ? & ? & ?)];
    [lia..|done| |right; exists off; split_and!; lia || done].
  left. unfold ff_kni_proto_filter.
  destruct (ty' =? ETHER_TYPE_ARP); [by exists FILTER_ARP|].
  destruct (kc_inet6 cfg && _); [done|].
  destruct (kc_ff_kni cfg); [|by exists FILTER_UNKNOWN].
  destruct (kc_enable_kni cfg); [|by exists FILTER_UNKNOWN].
  destruct (ty' =? ETHER_TYPE_IPv4); [done|by exists FILTER_UNKNOWN].
Qed.

(** C26. On a frame of at least 18 bytes in a buffer with two more bytes than
    the frame, the classifier reads only inside the buffer and returns a
    verdict, unless the frame holds an IPv4 header of length 0 that
    encapsulates IPv4 (see [filter_zero_ihl_loops]). *)
Theorem protocol_filter_safe (fuel : nat) (len : Z) :
  18 <= len < 2 ^ 16 -> len + 2 <= Z.of_nat (length mem) -> 2 * len < Z.of_nat fuel ->
  (exists r, protocol_filter cfg mem fuel len = Done r) \/
  (exists off, ETHER_HDR_LEN <= off /\ off + 20 <= len /\ zero_ihl_ipip off).
Proof. apply protocol_filter_ends. Qed.
End safety.

(** A minimal VLAN-tagged IPv6/TCP frame to a KNI port. *)
Definition sample_cfg : kni_config :=
  KniConfig true true true (kni_set_bitmap (Some (lit "80,8000-8010")) empty_bitmap) empty_bitmap.

Definition sample_frame : list Z :=
  replicate 12 2 ++ [0x81; 0; 0; 5; 0x86; 0xdd] ++
  [0x60; 0; 0; 0; 0; 20; 6; 64] ++ replicate 32 1 ++
  [0x12; 0x34; 0x1f; 0x45] ++ replicate 16 0.

Lemma protocol_filter_safe_witness :
  (exists r, protocol_filter sample_cfg (sample_frame ++ [0; 0]) 200 78 = Done r) \/
  (exists off, ETHER_HDR_LEN <= off /\ off + 20 <= 78 /\
     zero_ihl_ipip (sample_frame ++ [0; 0]) off).
Proof. apply (protocol_filter_safe sample_cfg (sample_frame ++ [0; 0])); [done|lia|simpl; lia|lia]. Defined.

Example sample_frame_kni : protocol_filter sample_cfg sample_frame 200 78 = Done FILTER_KNI.
Proof. vm_compute. done. Qed.

(** An Ethernet frame whose IPv4 header has a header length field of 0
    and protocol 4 makes the recursion of [protocol_filter_ip] call itself
    with the same arguments: with the KNI enabled the classifier never
    returns, whatever the fuel. *)
Theorem filter_zero_ihl_loops (cfg : kni_config) (mem : list Z) (len : Z) (fuel : nat) :
  kc_ff_kni cfg = true -> kc_enable_kni cfg = true ->
  34 <= len < 2 ^ 16 -> len <= Z.of_nat (length mem) ->
  mread16 mem 12 = Done (htons ETHER_TYPE_IPv4) ->
  zero_ihl_ipip mem 14 ->
  protocol_filter cfg mem fuel len = Loop.
Proof.
  intros Hk He Hl Hm Hty [Hz Hp]. unfold protocol_filter, ETHER_HDR_LEN.
  rewrite (proj2 (Z.ltb_ge len 14)), Hty by lia. cbn [mbind outcome_bind].
  change (rte_be_to_cpu_16 (htons ETHER_TYPE_IPv4)) with ETHER_TYPE_IPv4. cbn [mret outcome_ret].
  rewrite Hk, He, (wrapu_small 16 (len - 14)) by lia.
  change (ETHER_TYPE_IPv4 =? ETHER_TYPE_VLAN) with false. cbn.
  change (ETHER_TYPE_IPv4 =? ETHER_TYPE_ARP) with false.
  change (ETHER_TYPE_IPv4 =? ETHER_TYPE_IPv6) with false. rewrite andb_false_r.
  cbn. unfold ff_kni_proto_filter.
  induction fuel as [|fuel IH]; [done|]. cbn [protocol_filter_ip].
  unfold filter_ip_header. cbn [Z.eqb ETHER_TYPE_IPv4 Pos.eqb].
  rewrite (proj2 (Z.ltb_ge (len - 14) 20)), !mread_rd by lia. cbn [mbind outcome_bind].
  rewrite Hz. change (Z.shiftl 0 2) with 0. rewrite (proj2 (Z.ltb_ge (len - 14) 0)) by lia.
  rewrite Hp. cbn. rewrite Z.sub_0_r, wrapu_small by lia. apply IH.
Qed.

Definition loop_frame : list Z :=
  replicate 12 2 ++ [0x08; 0x00] ++ [0x40; 0; 0; 20; 0; 0; 0; 0; 64; 4] ++ replicate 30 0.

Lemma filter_zero_ihl_loops_witness : protocol_filter sample_cfg loop_frame 1000 54 = Loop.
Proof. apply filter_zero_ihl_loops; try done; simpl; lia || by split. Defined.

(** * Port bitmaps hold the configured ports *)

Lemma htons_eq x : 0 <= x < 2 ^ 16 -> htons x = (x mod 256) * 256 + x / 256.
Proof.
  intros Hx. unfold htons. change 255 with (Z.ones 8). rewrite Z.land_ones by lia.
  change (2 ^ 8) with 256. rewrite Z.shiftl_mul_pow2, Z.shiftr_div_pow2 by lia.
  change (2 ^ 8) with 256. set (a := x mod 256). set (b := x / 256).
  assert (0 <= b < 2 ^ 8) by (subst b; split; [apply Z.div_pos|apply Z.div_lt_upper_bound]; lia).
  change 256 with (2 ^ 8). rewrite <- Z.shiftl_mul_pow2 by lia.
  assert (Z.land (Z.shiftl a 8) b = 0).
  { apply Z.bits_inj'. intros n Hn. rewrite Z.land_spec, Z.bits_0, Z.shiftl_spec by lia.
    destruct (Z.lt_ge_cases n 8); [by rewrite Z.testbit_neg_r by lia|].
    apply andb_false_iff; right. apply (Z.bits_above_log2 b n); [lia|].
    destruct (decide (b = 0)) as [->|]; [change (Z.log2 0) with 0; lia|].
    apply Z.log2_lt_pow2; [lia|]. assert (2 ^ 8 <= 2 ^ n) by (apply Z.pow_le_mono_r; lia). lia. }
  rewrite <- Z.lxor_lor, Z.add_nocarry_lxor by done. done.
Qed.

Lemma htons_range x : 0 <= x < 2 ^ 16 -> 0 <= htons x < 2 ^ 16.
Proof.
  intros Hx. rewrite htons_eq by done. pose proof (Z.div_mod x 256).
  pose proof (Z.mod_pos_bound x 256). change (2 ^ 16) with 65536 in *. lia.
Qed.

Lemma htons_inj x y : 0 <= x < 2 ^ 16 -> 0 <= y < 2 ^ 16 -> htons x = htons y -> x = y.
Proof.
  intros Hx Hy. rewrite !htons_eq by done. change (2 ^ 16) with 65536 in *.
  pose proof (Z.div_mod x 256). pose proof (Z.mod_pos_bound x 256).
  pose proof (Z.div_mod y 256). pose proof (Z.mod_pos_bound y 256). lia.
Qed.

Lemma magic_bits_pow m : 0 <= m < 8 -> rd magic_bits (Z.to_nat m) = Z.shiftl 1 (7 - m).
Proof.
  intros. assert (m = 0 \/ m = 1 \/ m = 2 \/ m = 3 \/ m = 4 \/ m = 5 \/ m = 6 \/ m = 7) as Hm by lia.
  by repeat destruct Hm as [->|Hm]; subst.
Qed.

Lemma get_bitmap_bit n bm :
  get_bitmap n bm = b2z (Z.testbit (rd bm (Z.to_nat (n / 8))) (7 - n mod 8)).
Proof.
  unfold get_bitmap. pose proof (Z.mod_pos_bound n 8).
  rewrite magic_bits_pow, <- flag_bit by lia. unfold flag.
  set (m := Z.shiftl 1 (7 - n mod 8)).
  assert (0 <= m) by (apply Z.shiftl_nonneg; lia).
  assert (0 <= Z.land (rd bm (Z.to_nat (n / 8))) m) by (apply Z.land_nonneg; lia).
  destruct (Z.ltb_spec 0 (Z.land (rd bm (Z.to_nat (n / 8))) m)), (Z.eqb_spec (Z.land (rd bm (Z.to_nat (n / 8))) m) 0);
    simpl; lia || done.
Qed.

Definition bitmap_ok (bm : list Z) : Prop := Z.of_nat (length bm) = 8192.

Lemma set_bitmap_ok p bm : bitmap_ok bm -> bitmap_ok (set_bitmap p bm).
Proof. unfold bitmap_ok, set_bitmap. by rewrite length_insert. Qed.

(** Setting a port sets its bit and no other. *)
Lemma get_set_bitmap p q bm :
  bitmap_ok bm -> 0 <= p < 2 ^ 16 -> 0 <= q < 2 ^ 16 ->
  get_bitmap (htons q) (set_bitmap p bm) =
  if bool_decide (p = q) then 1 else get_bitmap (htons q) bm.
Proof.
  intros Hbm Hp Hq. rewrite !get_bitmap_bit. unfold set_bitmap.
  rewrite (wrapu_small 16 p) by done.
  pose proof (htons_range p Hp) as Rp. pose proof (htons_range q Hq) as Rq.
  assert (p = q <-> htons p = htons q) as Hinj by (split; [by intros ->|by apply htons_inj]).
  rewrite (bool_decide_ext _ _ Hinj). clear Hinj.
  set (a := htons p) in *. set (b := htons q) in *. change (2 ^ 16) with 65536 in *.
  pose proof (Z.div_mod a 8). pose proof (Z.div_mod b 8).
  pose proof (Z.mod_pos_bound a 8). pose proof (Z.mod_pos_bound b 8).
  assert (0 <= a / 8 < 8192) by lia. unfold bitmap_ok in Hbm. unfold rd at 1.
  destruct (decide (a / 8 = b / 8)) as [E|E].
  - rewrite <- E, nth_lookup, list_lookup_insert_eq by lia. cbn [default from_option id].
    rewrite Z.lor_spec, magic_bits_pow, Z.shiftl_1_l, Z.pow2_bits_eqb by lia.
    case_bool_decide as D.
    + replace (7 - a mod 8 =? 7 - b mod 8) with true by (symmetry; apply Z.eqb_eq; lia).
      by rewrite orb_true_r.
    + replace (7 - a mod 8 =? 7 - b mod 8) with false by (symmetry; apply Z.eqb_neq; lia).
      by rewrite orb_false_r.
  - rewrite bool_decide_eq_false_2 by (intros ->; lia).
    rewrite nth_lookup, list_lookup_insert_ne by lia. by rewrite <- nth_lookup.
Qed.

Lemma set_bitmap_range_spec lo hi bm q :
  bitmap_ok bm -> 0 <= lo -> hi < 2 ^ 16 -> 0 <= q < 2 ^ 16 ->
  bitmap_ok (set_bitmap_range lo hi bm) /\
  (get_bitmap (htons q) (set_bitmap_range lo hi bm) = 1 <->
   lo <= q <= hi \/ get_bitmap (htons q) bm = 1).
Proof.
  intros Hbm Hlo Hhi Hq. unfold set_bitmap_range.
  enough (forall n, lo + Z.of_nat n <= 2 ^ 16 ->
    bitmap_ok (fold_left (fun bm k => set_bitmap (lo + Z.of_nat k) bm) (seq 0 n) bm) /\
    (get_bitmap (htons q) (fold_left (fun bm k => set_bitmap (lo + Z.of_nat k) bm) (seq 0 n) bm) = 1
     <-> lo <= q < lo + Z.of_nat n \/ get_bitmap (htons q) bm = 1)) as Hn.
  { destruct (Z.le_gt_cases lo hi).
    - destruct (Hn (Z.to_nat (hi - lo + 1))) as [? ->]; [lia|]. split; [done|]. split; intros [|]; lia || auto.
    - replace (Z.to_nat (hi - lo + 1)) with O by lia. split; [done|]. simpl. split; [auto|]. intros [|]; lia. }
  induction n as [|n IH]; intros Hle; [simpl; split; [done|]; split; [auto|intros [|]; lia]|].
  destruct IH as [IHok IH]; [lia|]. rewrite seq_S, fold_left_app. cbn [fold_left].
  split; [by apply set_bitmap_ok|]. rewrite get_set_bitmap by (done || lia).
  case_bool_decide as E; [split; intros; lia|]. rewrite IH. simpl in E. split; intros [|]; lia || auto.
Qed.

(** ** Port lists *)

Inductive port_item := Port (p : Z) | Ports (lo hi : Z).

Definition item_ok (it : port_item) : bool :=
  match it with
  | Port p => (0 <=? p) && (p <? 2 ^ 16)
  | Ports lo hi => (0 <=? lo) && (lo <? 2 ^ 16) && (0 <=? hi) && (hi <? 2 ^ 16)
  end.

Definition item_has (it : port_item) (q : Z) : Prop :=
  match it with Port p => q = p | Ports lo hi => lo <= q <= hi end.

Definition print_item (it : port_item) : cstr :=
  match it with
  | Port p => print_dec p
  | Ports lo hi => print_dec lo ++ "-"%char :: print_dec hi
  end.

Fixpoint print_items (it : port_item) (its : list port_item) : cstr :=
  match its with
  | [] => print_item it
  | it' :: its' => print_item it ++ ","%char :: print_items it' its'
  end.

Definition set_item (it : port_item) (bm : list Z) : list Z :=
  match it with
  | Port p => set_bitmap p bm
  | Ports lo hi => set_bitmap_range lo hi bm
  end.

Lemma u16_print_dec p : 0 <= p < 2 ^ 16 ->
  Forall (fun c => isdigit c = true) (print_dec p) /\ print_dec p <> [] /\
  forall rest, match rest with [] => True | c :: _ => isdigit c = false end ->
    atoi (print_dec p ++ rest) = p.
Proof.
  intros Hp. destruct (print_dec_spec p) as (? & ? & _); [lia|]. split_and!; [done..|].
  intros. apply atoi_print_dec; [unfold INT_MAX; lia|done].
Qed.

Lemma find_comma_item it rest : item_ok it = true ->
  find_char ","%char (print_item it ++ rest) =
  Nat.add (length (print_item it)) <$> find_char ","%char rest.
Proof.
  intros Hok. apply find_char_app_none. destruct it as [p|lo hi]; simpl in *; bool_hyps;
    rewrite ?Z.leb_le, ?Z.ltb_lt in *.
  - apply find_char_digits; [done|]. apply u16_print_dec. lia.
  - destruct (u16_print_dec lo) as (? & _); [lia|]. destruct (u16_print_dec hi) as (? & _); [lia|].
    rewrite find_char_app_none by by apply find_char_digits.
    simpl. by rewrite find_char_digits.
Qed.

(** One turn of the loop on a printed item. *)
Lemma kni_set_bitmap_step fuel it rest bm :
  item_ok it = true -> match rest with [] => True | c :: _ => c = ","%char end ->
  kni_set_bitmap_loop (S fuel) (print_item it ++ rest) bm =
  match rest with [] => set_item it bm | _ :: r => kni_set_bitmap_loop fuel r (set_item it bm) end.
Proof.
  intros Hok Hrest. cbn [kni_set_bitmap_loop]. rewrite find_comma_item by done.
  assert (Hnd : match rest with [] => True | c :: _ => isdigit c = false end)
    by (destruct rest; [done|by subst]).
  set (tail := Nat.add (length (print_item it)) <$> find_char "," rest).
  assert (tail = match rest with [] => None | _ => Some (length (print_item it)) end) as Htail.
  { unfold tail. destruct rest; [done|]. subst. simpl. by rewrite Nat.add_0_r. }
  assert (Hitem : match find_char "-" (print_item it ++ rest) with
      | Some n => if match tail with Some t => (n <? t - 1)%nat | None => true end
                  then set_bitmap_range (atoi (print_item it ++ rest))
                         (atoi (drop (S n) (print_item it ++ rest))) bm
                  else set_bitmap (atoi (print_item it ++ rest)) bm
      | None => set_bitmap (atoi (print_item it ++ rest)) bm
      end = set_item it bm).
  { rewrite Htail. destruct it as [p|lo hi]; simpl in *; bool_hyps; rewrite ?Z.leb_le, ?Z.ltb_lt in *.
    - destruct (u16_print_dec p) as (Hd & Hne & Hp); [lia|]. rewrite Hp by done.
      rewrite find_char_app_none by by apply find_char_digits.
      destruct rest as [|c r]; [done|]. subst. destruct (find_char "-"%char (","%char :: r)); simpl; [|done].
      by rewrite (proj2 (Nat.ltb_ge _ _)) by lia.
    - destruct (u16_print_dec lo) as (Hd & Hne & Hlo); [lia|].
      destruct (u16_print_dec hi) as (Hd' & Hne' & Hhi); [lia|].
      rewrite <- app_assoc. simpl. rewrite Hlo by done.
      rewrite find_char_app_none by by apply find_char_digits. simpl.
      rewrite Nat.add_0_r, drop_app_ge by lia.
      replace (S (length (print_dec lo)) - length (print_dec lo))%nat with 1%nat by lia.
      simpl. rewrite drop_0, Hhi by done. destruct rest; [done|].
      rewrite length_app. simpl. destruct (print_dec hi); [done|]. simpl.
      by rewrite (proj2 (Nat.ltb_lt _ _)) by lia. }
  rewrite Hitem, Htail. destruct rest as [|c r]; [done|].
  rewrite drop_app_ge by lia.
  by replace (S (length (print_item it)) - length (print_item it))%nat with 1%nat by lia.
Qed.

Lemma set_item_spec it bm q :
  bitmap_ok bm -> item_ok it = true -> 0 <= q < 2 ^ 16 ->
  bitmap_ok (set_item it bm) /\
  (get_bitmap (htons q) (set_item it bm) = 1 <-> item_has it q \/ get_bitmap (htons q) bm = 1).
Proof.
  intros Hbm Hok Hq. destruct it as [p|lo hi]; simpl in *; bool_hyps; rewrite ?Z.leb_le, ?Z.ltb_lt in *.
  - split; [by apply set_bitmap_ok|]. rewrite get_set_bitmap by done.
    case_bool_decide; subst; [by intuition|]. split; [by right|]. intros [->|]; done.
  - apply set_bitmap_range_spec; lia || done.
Qed.

Lemma kni_set_bitmap_items fuel it its bm q :
  bitmap_ok bm -> forallb item_ok (it :: its) = true -> 0 <= q < 2 ^ 16 ->
  (length its < fuel)%nat ->
  get_bitmap (htons q) (kni_set_bitmap_loop fuel (print_items it its) bm) = 1 <->
  Exists (fun i => item_has i q) (it :: its) \/ get_bitmap (htons q) bm = 1.
Proof.
  revert fuel it bm; induction its as [|it' its IH]; intros fuel it bm Hbm Hok Hq Hf;
    apply andb_prop in Hok as [Hit Hits]; (destruct fuel as [|fuel]; [simpl in Hf; lia|]);
    destruct (set_item_spec it bm q) as [Hbm' Hs]; try done.
  - cbn [print_items]. rewrite <- (app_nil_r (print_item it)), kni_set_bitmap_step by done.
    rewrite Hs, Exists_cons, Exists_nil. tauto.
  - cbn [print_items]. rewrite kni_set_bitmap_step by done.
    rewrite IH by (done || (simpl in Hf; lia)). rewrite Hs, !Exists_cons. tauto.
Qed.

Lemma print_items_length it its :
  forallb item_ok (it :: its) = true -> (length its <= length (print_items it its))%nat.
Proof.
  revert it; induction its as [|it' its IH]; intros it Hok; simpl; [lia|].
  apply andb_prop in Hok as [_ Hok]. apply IH in Hok. rewrite length_app. simpl. lia.
Qed.

(** A port list printed in the configuration syntax ("80,8000-8010") and
    read by [kni_set_bitmap] into cleared bitmaps gives a bitmap in which
    [get_bitmap], applied to a port in network order as the packet holds it,
    finds exactly the listed ports. *)
Theorem kni_port_list_roundtrip (it : port_item) (its : list port_item) (q : Z) :
  forallb item_ok (it :: its) = true -> 0 <= q < 2 ^ 16 ->
  get_bitmap (htons q) (kni_set_bitmap (Some (print_items it its)) empty_bitmap) = 1 <->
  Exists (fun i => item_has i q) (it :: its).
Proof.
  intros Hok Hq. unfold kni_set_bitmap.
  rewrite kni_set_bitmap_items; [|by vm_compute|done|done|pose proof (print_items_length it its Hok); lia].
  rewrite get_bitmap_bit. assert (rd empty_bitmap (Z.to_nat (htons q / 8)) = 0) as ->.
  { unfold rd, empty_bitmap. apply nth_replicate || (rewrite nth_lookup; by destruct (_ !! _) eqn:E;
      [apply lookup_replicate in E as [-> _]|]). }
  rewrite Z.bits_0. simpl. intuition lia.
Qed.

Lemma kni_port_list_roundtrip_witness :
  get_bitmap (htons 8005) (kni_set_bitmap
    (Some (print_items (Port 80) [Ports 8000 8010])) empty_bitmap) = 1 <->
  Exists (fun i => item_has i 8005) [Port 80; Ports 8000 8010].
Proof. apply (kni_port_list_roundtrip (Port 80) [Ports 8000 8010] 8005); [done|lia]. Defined.

(** * Classification of encapsulated packets *)

(** [encap ty bytes proto payload]: [bytes] is an IP packet of Ethernet type
    [ty], a chain of IPv4 headers (with options) and IPv6 headers (without
    extension headers) down to the transport protocol [proto] and its bytes. *)
Definition ipv4_header (h : list Z) : Prop :=
  20 <= Z.of_nat (length h) /\
  Z.land (rd h 0) 0x0f * 4 = Z.of_nat (length h).

Definition ipv6_header (h : list Z) : Prop := length h = 40%nat.

Definition is_ext_header (p : Z) : bool :=
  existsb (Z.eqb p) [IPPROTO_HOPOPTS; IPPROTO_ROUTING; IPPROTO_DSTOPTS; IPPROTO_MH;
                     IPPROTO_HIP; IPPROTO_SHIM6; IPPROTO_FRAGMENT; IPPROTO_AH].

Definition is_ip_proto (p : Z) : bool := (p =? IPPROTO_IPIP) || (p =? IPPROTO_IPV6).

Inductive encap : Z -> list Z -> Z -> list Z -> Prop :=
  | encap_v4 h payload :
      ipv4_header h -> is_ip_proto (rd h 9) = false ->
      encap ETHER_TYPE_IPv4 (h ++ payload) (rd h 9) payload
  | encap_v6 h payload :
      ipv6_header h -> is_ip_proto (rd h 6) = false -> is_ext_header (rd h 6) = false ->
      encap ETHER_TYPE_IPv6 (h ++ payload) (rd h 6) payload
  | encap_v4_in h ty inner proto payload :
      ipv4_header h ->
      rd h 9 = (if ty =? ETHER_TYPE_IPv4 then IPPROTO_IPIP else IPPROTO_IPV6) ->
      encap ty inner proto payload ->
      encap ETHER_TYPE_IPv4 (h ++ inner) proto payload
  | encap_v6_in h ty inner proto payload :
      ipv6_header h ->
      rd h 6 = (if ty =? ETHER_TYPE_IPv4 then IPPROTO_IPIP else IPPROTO_IPV6) ->
      encap ty inner proto payload ->
      encap ETHER_TYPE_IPv6 (h ++ inner) proto payload.

(** The verdict on the transport payload. *)
Definition l4_verdict (cfg : kni_config) (proto : Z) (payload : list Z) : FilterReturn :=
  let kni := kc_ff_kni cfg && kc_enable_kni cfg in
  let port := rd payload 2 + 256 * rd payload 3 in
  let n := Z.of_nat (length payload) in
  if kni && (proto =? IPPROTO_TCP) && (20 <=? n) && (get_bitmap port (kc_tcp_port_bitmap cfg) =? 1)
     || kni && (proto =? IPPROTO_UDP) && (8 <=? n) && (get_bitmap port (kc_udp_port_bitmap cfg) =? 1)
  then FILTER_KNI
  else if (proto =? IPPROTO_ICMPV6) && (8 <=? n) && (133 <=? rd payload 0) && (rd payload 0 <=? 137)
  then FILTER_NDP
  else FILTER_UNKNOWN.

Section classify.
Context (cfg : kni_config).
Hypothesis inet6 : kc_inet6 cfg = true.

Lemma mread_at pre l post i :
  (i < length l)%nat ->
  mread (pre ++ l ++ post) (Z.of_nat (length pre) + Z.of_nat i) = Done (rd l i).
Proof.
  intros Hi. rewrite mread_app_r by lia. unfold mread.
  replace (Z.to_nat _) with i by lia. rewrite lookup_app_l by done.
  unfold rd. destruct (lookup_lt_is_Some_2 l i Hi) as [x Hx].
  rewrite Hx. by rewrite (nth_lookup_Some _ _ _ _ Hx).
Qed.

Lemma ipv4_header_parse fuel pre h rest post :
  ipv4_header h -> Z.of_nat (length (h ++ rest)) < 2 ^ 16 ->
  filter_ip_header cfg (pre ++ (h ++ rest) ++ post) fuel (Z.of_nat (length pre))
    (Z.of_nat (length (h ++ rest))) ETHER_TYPE_IPv4 =
  Done (Some (rd h 9, Z.of_nat (length h))).
Proof.
  intros [H20 Hl] Hlen. unfold filter_ip_header. rewrite Z.eqb_refl.
  rewrite length_app in *. rewrite (proj2 (Z.ltb_ge _ 20)) by lia.
  rewrite <- app_assoc.
  pose proof (mread_at pre h (rest ++ post) 0) as E0. pose proof (mread_at pre h (rest ++ post) 9) as E9.
  rewrite Z.add_0_r in E0. rewrite E0 by lia. cbn [mbind outcome_bind].
  rewrite Z.shiftl_mul_pow2 by lia. change (2 ^ 2) with 4. rewrite Hl.
  rewrite (proj2 (Z.ltb_ge _ (Z.of_nat (length h)))) by lia.
  change 9 with (Z.of_nat 9). by rewrite E9 by lia.
Qed.

Lemma no_ext_header mem p data : is_ext_header p = false -> ext_hdr_len mem p data = Done None.
Proof.
  unfold is_ext_header, ext_hdr_len. simpl existsb. intros H. bool_hyps.
  by repeat match goal with H : (p =? _) = false |- _ => rewrite H; clear H end.
Qed.

Lemma ipv6_header_parse fuel pre h rest post :
  ipv6_header h -> Z.of_nat (length (h ++ rest)) < 2 ^ 16 -> is_ext_header (rd h 6) = false ->
  filter_ip_header cfg (pre ++ (h ++ rest) ++ post) (S fuel) (Z.of_nat (length pre))
    (Z.of_nat (length (h ++ rest))) ETHER_TYPE_IPv6 =
  Done (Some (rd h 6, Z.of_nat (length h))).
Proof.
  unfold ipv6_header. intros H40 Hlen He. unfold filter_ip_header.
  change (ETHER_TYPE_IPv6 =? ETHER_TYPE_IPv4) with false. rewrite inet6, Z.eqb_refl. simpl andb.
  rewrite length_app in *. rewrite (proj2 (Z.ltb_ge _ 40)) by lia.
  rewrite <- app_assoc.
  pose proof (mread_at pre h (rest ++ post) 6) as E6.
  change 6 with (Z.of_nat 6). rewrite E6 by lia. cbn [mbind outcome_bind get_ipv6_hdr_len].
  rewrite no_ext_header by done. cbn [mbind outcome_bind mret outcome_ret fst snd].
  rewrite (proj2 (Z.ltb_ge _ (40 + 0))) by lia. by rewrite H40.
Qed.

(** The transport part of the filter gives the verdict. *)
Lemma filter_l4_verdict pre payload post proto :
  is_ip_proto proto = false ->
  let data := Z.of_nat (length pre) in
  let len := Z.of_nat (length payload) in
  let mem := pre ++ payload ++ post in
  (if proto =? IPPROTO_TCP then
     if kc_ff_kni cfg && kc_enable_kni cfg then protocol_filter_tcp cfg mem data len
     else Done FILTER_UNKNOWN
   else if proto =? IPPROTO_UDP then
     if kc_ff_kni cfg && kc_enable_kni cfg then protocol_filter_udp cfg mem data len
     else Done FILTER_UNKNOWN
   else if kc_inet6 cfg && (proto =? IPPROTO_ICMPV6) then protocol_filter_icmp6 mem data len
   else Done FILTER_UNKNOWN) = Done (l4_verdict cfg proto payload).
Proof.
  intros Hp data len mem. unfold l4_verdict. fold len.
  assert (Hport : 4 <= len -> mread16 mem (data + 2) = Done (rd payload 2 + 256 * rd payload 3)).
  { intros. unfold mread16, mem, data. rewrite <- Z.add_assoc.
    pose proof (mread_at pre payload post 2) as E2. pose proof (mread_at pre payload post 3) as E3.
    change (Z.of_nat 2) with 2 in E2. change (Z.of_nat 3) with 3 in E3. change (2 + 1) with 3. by rewrite E2, E3 by lia. }
  assert (Hty : 8 <= len -> mread mem data = Done (rd payload 0)).
  { intros. unfold mem, data. pose proof (mread_at pre payload post 0) as E0.
    rewrite Z.add_0_r in E0. apply E0. lia. }
  assert (Hget : forall p b, ctrue (get_bitmap p b) = (get_bitmap p b =? 1)).
  { intros p b. rewrite get_bitmap_bit. by destruct (Z.testbit _ _). }
  rewrite inet6. destruct (Z.eqb_spec proto IPPROTO_TCP) as [->|].
  - destruct (kc_ff_kni cfg && kc_enable_kni cfg); [|done]. unfold protocol_filter_tcp.
    destruct (Z.ltb_spec len 20), (Z.leb_spec 20 len); try lia; [done|]. rewrite Hport by lia.
    simpl. unfold protocol_filter_l4. rewrite Hget. by destruct (get_bitmap _ _ =? 1).
  - destruct (Z.eqb_spec proto IPPROTO_UDP) as [->|].
    + destruct (kc_ff_kni cfg && kc_enable_kni cfg); [|done]. unfold protocol_filter_udp.
      destruct (Z.ltb_spec len 8), (Z.leb_spec 8 len); try lia; [done|]. rewrite Hport by lia.
      simpl. unfold protocol_filter_l4. rewrite Hget. by destruct (get_bitmap _ _ =? 1).
    + rewrite !andb_false_r. simpl andb. simpl orb.
      destruct (Z.eqb_spec proto IPPROTO_ICMPV6) as [->|]; [|done].
      unfold protocol_filter_icmp6.
      destruct (Z.ltb_spec len 8), (Z.leb_spec 8 len); try lia; [done|]. rewrite Hty by lia.
      done.
Qed.

Lemma filter_ip_encap ty bytes proto payload :
  encap ty bytes proto payload ->
  forall fuel pre post, Z.of_nat (length bytes) < 2 ^ 16 -> (length bytes < fuel)%nat ->
  protocol_filter_ip cfg (pre ++ bytes ++ post) fuel (Z.of_nat (length pre))
    (Z.of_nat (length bytes)) ty = Done (l4_verdict cfg proto payload).
Proof.
  assert (Hshift : forall pre (h r post : list Z), pre ++ (h ++ r) ++ post = (pre ++ h) ++ r ++ post)
    by (intros; by rewrite <- !app_assoc).
  assert (Hlen : forall (h r : list Z), Z.of_nat (length (h ++ r)) < 2 ^ 16 ->
    u16 (Z.of_nat (length (h ++ r)) - Z.of_nat (length h)) = Z.of_nat (length r)).
  { intros h r. rewrite length_app. intros. rewrite wrapu_small; lia. }
  assert (Hproto : forall p, is_ip_proto p = false -> (p =? IPPROTO_IPIP) = false /\ (p =? IPPROTO_IPV6) = false)
    by (intros; unfold is_ip_proto in *; bool_hyps; done).
  induction 1 as [h payload Hh Hp|h payload Hh Hp He|h ty inner proto payload Hh Hp Hin IH|h ty inner proto payload Hh Hp Hin IH];
    intros fuel pre post Hl Hf; (destruct fuel as [|fuel]; [lia|]); cbn [protocol_filter_ip].
  - rewrite ipv4_header_parse by done. cbn [mbind outcome_bind].
    destruct (Hproto _ Hp) as [-> ->]. rewrite andb_false_r.
    rewrite Hlen, Hshift, <- Nat2Z.inj_add, <- length_app by done. by apply filter_l4_verdict.
  - rewrite ipv6_header_parse by done. cbn [mbind outcome_bind].
    destruct (Hproto _ Hp) as [-> ->]. rewrite andb_false_r.
    rewrite Hlen, Hshift, <- Nat2Z.inj_add, <- length_app by done. by apply filter_l4_verdict.
  - rewrite ipv4_header_parse by done. cbn [mbind outcome_bind].
    rewrite Hlen, Hshift, <- Nat2Z.inj_add, <- length_app by done.
    rewrite length_app in Hl, Hf. destruct Hh.
    rewrite Hp, inet6. inversion Hin; subst; apply IH; lia.
  - unfold ipv6_header in Hh. rewrite ipv6_header_parse; [|done|done|rewrite Hp; by destruct (ty =? _)].
    cbn [mbind outcome_bind].
    rewrite Hlen, Hshift, <- Nat2Z.inj_add, <- length_app by done.
    rewrite length_app in Hl, Hf.
    rewrite Hp, inet6. inversion Hin; subst; apply IH; lia.
Qed.

(** C24. On an IP packet that is any nesting of IPv4 headers (with options) and
    IPv6 headers around a transport payload, followed by any padding, the
    filter returns the verdict on the payload: FILTER_KNI exactly for a TCP or
    UDP destination port in the bitmap, FILTER_NDP exactly for a neighbour
    discovery message, FILTER_UNKNOWN otherwise. *)
Theorem filter_classifies_encap (ty proto : Z) (bytes payload pre post : list Z) (fuel : nat) :
  encap ty bytes proto payload -> Z.of_nat (length bytes) < 2 ^ 16 -> (length bytes < fuel)%nat ->
  ff_kni_proto_filter cfg (pre ++ bytes ++ post) fuel (Z.of_nat (length pre))
    (Z.of_nat (length bytes)) ty = Done (l4_verdict cfg proto payload).
Proof. intros. by apply filter_ip_encap. Qed.

End classify.

(** UDP to port 53 in IPv6 in IPv4 with four bytes of options. *)
Definition sample_v4 : list Z := [0x46; 0; 0; 72; 0; 0; 0; 0; 64; 41] ++ replicate 14 1.
Definition sample_v6 : list Z := [0x60; 0; 0; 0; 0; 8; 17; 64] ++ replicate 32 1.
Definition sample_udp : list Z := [0x30; 0x39; 0; 53; 0; 8; 0; 0].
Definition dns_cfg : kni_config :=
  KniConfig true true true empty_bitmap (kni_set_bitmap (Some (lit "53")) empty_bitmap).

Lemma filter_classifies_encap_witness :
  ff_kni_proto_filter dns_cfg ([9; 9] ++ (sample_v4 ++ sample_v6 ++ sample_udp) ++ [7]) 100 2 72
    ETHER_TYPE_IPv4 = Done FILTER_KNI.
Proof.
  transitivity (Done (l4_verdict dns_cfg IPPROTO_UDP sample_udp)); [|by vm_compute].
  apply (filter_classifies_encap dns_cfg eq_refl ETHER_TYPE_IPv4 IPPROTO_UDP
    (sample_v4 ++ sample_v6 ++ sample_udp) sample_udp [9; 9] [7] 100); [|simpl; lia..].
  apply (encap_v4_in sample_v4 ETHER_TYPE_IPv6); [split; [simpl; lia|done]|done|].
  apply (encap_v6 sample_v6); done.
Defined.

(** The length field of an IPv6 extension header counts 8-byte units; the
    walk counts bytes, so that a port-80 packet behind a hop-by-hop header of
    8 bytes is not recognised. *)
Definition hopopts_frame : list Z :=
  replicate 12 2 ++ [0x86; 0xdd] ++
  [0x60; 0; 0; 0; 0; 28; 0; 64] ++ replicate 32 1 ++
  [6; 0; 1; 4; 0; 0; 0; 0] ++
  [0x12; 0x34; 0; 80] ++ replicate 16 0.

Lemma ipv6_hopopts_misclassified :
  protocol_filter sample_cfg hopopts_frame 300 82 = Done FILTER_UNKNOWN.
Proof. vm_compute. done. Qed.
