(* ===== verification/Callout.v ===== *)
(** The callout (timer) wheel of src/lib/ff_kern_timeout.c.

    Callouts are named by numbers that stand for their addresses; [mem] is the
    contents of the structs.  The intrusive lists of the wheel are lists of
    such names.  [ticks] and the callout times are 32-bit ints that wrap.

    F-Stack runs one stack thread per process and its mutexes are empty
    (src/lib/include/sys/mutex.h), so that the code between CC_LOCK and
    CC_UNLOCK is a plain sequence; the sleepqueue macros of the file are empty
    too.  The functions that callouts call are client code: a parameter gives
    the callout operations that a call performs. *)
From stdpp Require Import base list functions sets.
From Stdlib Require Import ZArith Lia.
From S2P Require Import Prelude.

Local Open Scope Z_scope.

(** ** Flags (sys/callout.h) *)

Definition CALLOUT_LOCAL_ALLOC : Z := 0x0001.
Definition CALLOUT_ACTIVE : Z := 0x0002.
Definition CALLOUT_PENDING : Z := 0x0004.
Definition CALLOUT_RETURNUNLOCKED : Z := 0x0010.
Definition CALLOUT_SHAREDLOCK : Z := 0x0020.
Definition CALLOUT_DFRMIGRATION : Z := 0x0040.
Definition CALLOUT_PROCESSED : Z := 0x0080.
Definition CALLOUT_DIRECT : Z := 0x0100.
Definition C_DIRECT_EXEC : Z := 0x0001.
Definition C_HARDCLOCK : Z := 0x0100.
Definition CS_DRAIN : Z := 0x0001.
Definition CS_EXECUTING : Z := 0x0002.
Definition MAXCPU : Z := 1.

(** ** State *)

Record callout := Callout {
  c_time : Z;
  c_arg : Z;
  c_func : option Z;
  c_lock : option Z;
  c_flags : Z;
  c_iflags : Z;
  c_cpu : Z
}.

Record cc_exec := CcExec {
  cc_curr : option nat;
  cc_drain : option Z;
  cc_cancel : bool;
  cc_waiting : bool
}.

(** [cc_fired] records the calls of callout functions: (ticks at the call,
    callout, its time, function, argument). *)
Record firing := Firing {
  f_ticks : Z; f_callout : nat; f_time : Z; f_func : option Z; f_arg : Z
}.

Record callout_cpu := CalloutCpu {
  cc_exec_entity : bool -> cc_exec;          (* false: [0], true: [1] *)
  cc_next : option nat;
  cc_bucket : Z;
  cc_callwheel : Z -> list nat;
  cc_callfree : list nat;
  cc_softticks : Z;
  ticks : Z;
  mem : nat -> callout;
  cc_fired : list firing
}.

Definition with_exec (f : bool -> cc_exec) (s : callout_cpu) : callout_cpu :=
  CalloutCpu f (cc_next s) (cc_bucket s) (cc_callwheel s) (cc_callfree s)
    (cc_softticks s) (ticks s) (mem s) (cc_fired s).
Definition with_next (n : option nat) (s : callout_cpu) : callout_cpu :=
  CalloutCpu (cc_exec_entity s) n (cc_bucket s) (cc_callwheel s) (cc_callfree s)
    (cc_softticks s) (ticks s) (mem s) (cc_fired s).
Definition with_bucket (b : Z) (s : callout_cpu) : callout_cpu :=
  CalloutCpu (cc_exec_entity s) (cc_next s) b (cc_callwheel s) (cc_callfree s)
    (cc_softticks s) (ticks s) (mem s) (cc_fired s).
Definition with_wheel (w : Z -> list nat) (s : callout_cpu) : callout_cpu :=
  CalloutCpu (cc_exec_entity s) (cc_next s) (cc_bucket s) w (cc_callfree s)
    (cc_softticks s) (ticks s) (mem s) (cc_fired s).
Definition with_callfree (l : list nat) (s : callout_cpu) : callout_cpu :=
  CalloutCpu (cc_exec_entity s) (cc_next s) (cc_bucket s) (cc_callwheel s) l
    (cc_softticks s) (ticks s) (mem s) (cc_fired s).
Definition with_softticks (t : Z) (s : callout_cpu) : callout_cpu :=
  CalloutCpu (cc_exec_entity s) (cc_next s) (cc_bucket s) (cc_callwheel s) (cc_callfree s)
    t (ticks s) (mem s) (cc_fired s).
Definition with_ticks (t : Z) (s : callout_cpu) : callout_cpu :=
  CalloutCpu (cc_exec_entity s) (cc_next s) (cc_bucket s) (cc_callwheel s) (cc_callfree s)
    (cc_softticks s) t (mem s) (cc_fired s).
Definition with_mem (m : nat -> callout) (s : callout_cpu) : callout_cpu :=
  CalloutCpu (cc_exec_entity s) (cc_next s) (cc_bucket s) (cc_callwheel s) (cc_callfree s)
    (cc_softticks s) (ticks s) m (cc_fired s).
Definition with_fired (l : list firing) (s : callout_cpu) : callout_cpu :=
  CalloutCpu (cc_exec_entity s) (cc_next s) (cc_bucket s) (cc_callwheel s) (cc_callfree s)
    (cc_softticks s) (ticks s) (mem s) l.

Definition set_callout (c : nat) (k : callout) (s : callout_cpu) : callout_cpu :=
  with_mem (<[c := k]> (mem s)) s.
Definition set_exec (direct : bool) (e : cc_exec) (s : callout_cpu) : callout_cpu :=
  with_exec (<[direct := e]> (cc_exec_entity s)) s.

(** Assignments to the flag fields. *)
Definition set_iflags (i : Z) (k : callout) : callout :=
  Callout (c_time k) (c_arg k) (c_func k) (c_lock k) (c_flags k) i (c_cpu k).
Definition set_cflags (f : Z) (k : callout) : callout :=
  Callout (c_time k) (c_arg k) (c_func k) (c_lock k) f (c_iflags k) (c_cpu k).
Definition set_func (f : option Z) (k : callout) : callout :=
  Callout (c_time k) (c_arg k) f (c_lock k) (c_flags k) (c_iflags k) (c_cpu k).

Definition is_curr (s : callout_cpu) (direct : bool) (c : nat) : bool :=
  bool_decide (cc_curr (cc_exec_entity s direct) = Some c).

(** Client operations performed by a callout function. *)
Inductive co_op :=
  | OpReset (c : nat) (to_ticks : Z) (ftn : Z) (arg : Z) (cpu flags : Z)
  | OpStop (c : nat) (flags : Z) (drain : option Z)
  | OpTimeout (ftn arg to_ticks : Z)
  | OpUntimeout (ftn arg : Z) (handle : option nat).

(** The successor of [c] in a list: LIST_NEXT. *)
Fixpoint next_in (c : nat) (l : list nat) : option nat :=
  match l with
  | [] => None
  | x :: r => if decide (x = c) then head r else next_in c r
  end.

Section callout.

(** [callwheelmask], and the operations of the client function [f] called
    with argument [a] in state [s]. *)
Context (callwheelmask : Z) (client : callout_cpu -> option Z -> Z -> list co_op).

Definition callout_get_bucket (to_ticks : Z) : Z := Z.land to_ticks callwheelmask.

(** The list that [c] is linked on is the bucket of its time. *)
Definition bucket_of (s : callout_cpu) (c : nat) : Z := callout_get_bucket (c_time (mem s c)).

Definition LIST_NEXT (s : callout_cpu) (c : nat) : option nat :=
  next_in c (cc_callwheel s (bucket_of s c)).

Definition LIST_REMOVE (c : nat) (s : callout_cpu) : callout_cpu :=
  with_wheel (<[bucket_of s c := filter (fun x => x <> c) (cc_callwheel s (bucket_of s c))]>
    (cc_callwheel s)) s.

Definition cc_cce_cleanup (direct : bool) (s : callout_cpu) : callout_cpu :=
  set_exec direct (CcExec None (cc_drain (cc_exec_entity s direct)) false false) s.

Definition callout_cc_add (c : nat) (to_ticks ftn arg flags : Z) (s : callout_cpu) : callout_cpu :=
  let k := mem s c in
  let iflags := Z.ldiff (Z.lor (c_iflags k) CALLOUT_PENDING) CALLOUT_PROCESSED in
  let iflags := if flag flags C_DIRECT_EXEC then Z.lor iflags CALLOUT_DIRECT else iflags in
  let time := s32 (ticks s + to_ticks) in
  let s := set_callout c (Callout time arg (Some ftn) (c_lock k)
             (Z.lor (c_flags k) CALLOUT_ACTIVE) iflags (c_cpu k)) s in
  let bucket := callout_get_bucket time in
  let s := with_wheel (<[bucket := c :: cc_callwheel s bucket]> (cc_callwheel s)) s in
  if cc_bucket s =? bucket then with_next (Some c) s else s.

Definition callout_cc_del (c : nat) (s : callout_cpu) : callout_cpu :=
  if negb (flag (c_iflags (mem s c)) CALLOUT_LOCAL_ALLOC) then s
  else with_callfree (c :: cc_callfree s) (set_callout c (set_func None (mem s c)) s).

(** The common part of [callout_reset_tick_on] and [_callout_stop_safe]: takes
    a pending callout off its list.  [cc_expireq] is always empty. *)
Definition unlink_pending (c : nat) (s : callout_cpu) : callout_cpu :=
  if negb (flag (c_iflags (mem s c)) CALLOUT_PROCESSED) then
    let s := if bool_decide (cc_next s = Some c) then with_next (LIST_NEXT s c) s else s in
    LIST_REMOVE c s
  else s.

Definition clear_pending (c : nat) (s : callout_cpu) : callout_cpu :=
  let k := mem s c in
  set_callout c (set_cflags (Z.ldiff (c_flags k) CALLOUT_ACTIVE)
                (set_iflags (Z.ldiff (c_iflags k) CALLOUT_PENDING) k)) s.

(** Returns the state and [cancelled]. *)
Definition callout_reset_tick_on (c : nat) (to_ticks ftn arg cpu flags : Z) (s : callout_cpu)
    : outcome (callout_cpu * Z) :=
  if negb (cpu =? -1) && (MAXCPU <=? cpu) then Fault     (* panic *)
  else
    let direct := flag flags C_DIRECT_EXEC in
    let e := cc_exec_entity s direct in
    let running := is_curr s direct c in
    let cancel_now := running && bool_decide (c_lock (mem s c) <> None) && negb (cc_cancel e) in
    let s := if cancel_now then set_exec direct (CcExec (cc_curr e) (cc_drain e) true (cc_waiting e)) s
             else s in
    let cancelled := b2z cancel_now in
    if running && cc_waiting e then Done (s, cancelled)
    else
      let '(s, cancelled) :=
        if flag (c_iflags (mem s c)) CALLOUT_PENDING
        then (clear_pending c (unlink_pending c s), 1)
        else (s, cancelled) in
      let to_ticks := if to_ticks <=? 0 then 1 else to_ticks in
      Done (callout_cc_add c to_ticks ftn arg flags s, cancelled).

Definition callout_reset (c : nat) (to_ticks ftn arg : Z) (s : callout_cpu) :=
  callout_reset_tick_on c to_ticks ftn arg (-1) C_HARDCLOCK s.

Definition callout_schedule_on (c : nat) (to_ticks cpu : Z) (s : callout_cpu) :=
  callout_reset_tick_on c to_ticks (default 0 (c_func (mem s c))) (c_arg (mem s c)) cpu C_HARDCLOCK s.

Definition callout_schedule (c : nat) (to_ticks : Z) (s : callout_cpu) :=
  callout_schedule_on c to_ticks (c_cpu (mem s c)) s.

(** The end of [_callout_stop_safe], once the running case is dealt with. *)
Definition stop_tail (c : nat) (direct not_on_a_list : bool) (cancelled : Z) (s : callout_cpu)
    : callout_cpu * Z :=
  if negb (flag (c_iflags (mem s c)) CALLOUT_PENDING)
  then (s, if negb (is_curr s direct c) then -1 else cancelled)
  else
    let s := if negb not_on_a_list then clear_pending c (unlink_pending c s)
             else clear_pending c s in
    (callout_cc_del c s, cancelled).

(** From the label [again]; each turn of the wait for a running callout takes
    one unit of fuel: the first jumps back with [sq_locked] set, the others set
    [cc_waiting], clear [sq_locked], find the callout still running and jump
    back in the same way. *)
Fixpoint stop_again (fuel : nat) (c : nat) (flags : Z) (drain : option Z)
    (use_lock direct sq_locked : bool) (s : callout_cpu) : outcome (callout_cpu * Z) :=
  match fuel with
  | O => Loop
  | S fuel' =>
      let k := mem s c in
      let not_on_a_list :=
        flag (c_iflags k) CALLOUT_DFRMIGRATION && flag (c_iflags k) CALLOUT_PENDING &&
        flag (c_flags k) CALLOUT_ACTIVE in
      let s := if not_on_a_list then clear_pending c s else s in
      if is_curr s direct c then
        let s := set_callout c (set_cflags (Z.ldiff (c_flags (mem s c)) CALLOUT_ACTIVE) (mem s c)) s in
        let e := cc_exec_entity s direct in
        let migrating := flag (c_iflags (mem s c)) CALLOUT_DFRMIGRATION in
        let unmigrate s := set_callout c (set_iflags (Z.ldiff (c_iflags (mem s c)) CALLOUT_DFRMIGRATION)
                             (mem s c)) s in
        let set_drain s :=
          match drain with
          | Some d => set_exec direct (CcExec (cc_curr e) (Some d) (cc_cancel e) (cc_waiting e)) s
          | None => s
          end in
        if flag flags CS_DRAIN then
          stop_again fuel' c flags drain use_lock direct true
            (if sq_locked
             then set_exec direct (CcExec (cc_curr e) (cc_drain e) (cc_cancel e) true) s else s)
        else if use_lock && negb (cc_cancel e) && bool_decide (drain = None) then
          let s := set_exec direct (CcExec (cc_curr e) (cc_drain e) true (cc_waiting e)) s in
          Done (if migrating then unmigrate s else s, 1)
        else if migrating then
          Done (set_drain (unmigrate s), b2z (flag flags CS_EXECUTING))
        else
          Done (stop_tail c direct not_on_a_list (b2z (flag flags CS_EXECUTING)) (set_drain s))
      else Done (stop_tail c direct not_on_a_list 1 s)
  end.

Definition _callout_stop_safe (fuel : nat) (c : nat) (flags : Z) (drain : option Z) (s : callout_cpu)
    : outcome (callout_cpu * Z) :=
  let use_lock := negb (flag flags CS_DRAIN) && bool_decide (c_lock (mem s c) <> None) in
  let direct := flag (c_iflags (mem s c)) CALLOUT_DIRECT in
  stop_again fuel c flags drain use_lock direct false s.

Definition callout_stop (c : nat) (s : callout_cpu) := _callout_stop_safe 1 c 0 None s.

Definition timeout (ftn arg to_ticks : Z) (s : callout_cpu) : outcome (callout_cpu * nat) :=
  match cc_callfree s with
  | [] => Fault                                  (* panic("timeout table full") *)
  | new :: free =>
      r ← callout_reset new to_ticks ftn arg (with_callfree free s);
      mret (fst r, new)
  end.

Definition untimeout (ftn arg : Z) (handle : option nat) (s : callout_cpu) : outcome callout_cpu :=
  match handle with
  | None => mret s
  | Some c =>
      if bool_decide (c_func (mem s c) = Some ftn) && (c_arg (mem s c) =? arg)
      then r ← callout_stop c s; mret (fst r)
      else mret s
  end.

(** The client operations of a callout function. *)
Definition run_op (fuel : nat) (op : co_op) (s : callout_cpu) : outcome callout_cpu :=
  match op with
  | OpReset c to_ticks ftn arg cpu flags =>
      r ← callout_reset_tick_on c to_ticks ftn arg cpu flags s; mret (fst r)
  | OpStop c flags drain => r ← _callout_stop_safe fuel c flags drain s; mret (fst r)
  | OpTimeout ftn arg to_ticks => r ← timeout ftn arg to_ticks s; mret (fst r)
  | OpUntimeout ftn arg handle => untimeout ftn arg handle s
  end.

Fixpoint run_ops (fuel : nat) (ops : list co_op) (s : callout_cpu) : outcome callout_cpu :=
  match ops with
  | [] => mret s
  | op :: ops => s ← run_op fuel op s; run_ops fuel ops s
  end.

(** [softclock_call_cc] up to the call of the function. *)
Definition call_cc_enter (c : nat) (s : callout_cpu) : callout_cpu :=
  let k := mem s c in
  let iflags := if flag (c_iflags k) CALLOUT_LOCAL_ALLOC then CALLOUT_LOCAL_ALLOC
                else Z.ldiff (c_iflags k) CALLOUT_PENDING in
  let s := set_callout c (set_iflags iflags k) s in
  let e := cc_exec_entity s true in
  set_exec true (CcExec (Some c) None false (cc_waiting e)) s.

(** From [skip] on: the function has returned. *)
Definition call_cc_leave (fuel : nat) (c : nat) (c_arg c_iflags : Z) (s : callout_cpu)
    : outcome callout_cpu :=
  let e := cc_exec_entity s true in
  let s := set_exec true (CcExec None (cc_drain e) (cc_cancel e) (cc_waiting e)) s in
  s ← (match cc_drain e with
       | None => mret s
       | Some d =>
           let s := set_exec true (CcExec None None (cc_cancel e) (cc_waiting e)) s in
           run_ops fuel (client s (Some d) c_arg) s
       end);
  let e := cc_exec_entity s true in
  let s := if cc_waiting e
           then set_exec true (CcExec (cc_curr e) (cc_drain e) (cc_cancel e) false) s else s in
  mret (if flag c_iflags CALLOUT_LOCAL_ALLOC then callout_cc_del c s else s).

Definition softclock_call_cc (fuel : nat) (c : nat) (s : callout_cpu) : outcome callout_cpu :=
  let k := mem s c in
  let s := call_cc_enter c s in
  let e := cc_exec_entity s true in
  let locked := bool_decide (c_lock k <> None) in
  s ← (if locked && cc_cancel e then mret s
       else
         let s := if locked then set_exec true (CcExec (cc_curr e) (cc_drain e) true (cc_waiting e)) s
                  else s in
         let s := with_fired (cc_fired s ++ [Firing (ticks s) c (c_time k) (c_func k) (c_arg k)]) s in
         s ← run_ops fuel (client s (c_func k) (c_arg k)) s;
         if negb (flag (c_iflags k) CALLOUT_RETURNUNLOCKED) && negb locked
         then Fault                             (* class is NULL *)
         else mret s);
  call_cc_leave fuel c (c_arg k) (c_iflags k) s.

(** The inner loop of [softclock]: [c] is the scan pointer in the bucket of
    [curticks]. *)
Fixpoint softclock_bucket (fuel : nat) (c : option nat) (curticks : Z) (s : callout_cpu)
    : outcome callout_cpu :=
  match fuel with
  | O => Loop
  | S fuel' =>
      match c with
      | None => mret s
      | Some c =>
          if negb (c_time (mem s c) =? curticks)
          then softclock_bucket fuel' (LIST_NEXT s c) curticks s
          else
            let s := with_bucket (callout_get_bucket curticks) (with_next (LIST_NEXT s c) s) in
            s ← softclock_call_cc fuel' c (LIST_REMOVE c s);
            softclock_bucket fuel' (cc_next s) curticks (with_next None s)
      end
  end.

Fixpoint softclock (fuel : nat) (s : callout_cpu) : outcome callout_cpu :=
  match fuel with
  | O => Loop
  | S fuel' =>
      if cc_softticks s =? ticks s then mret s
      else
        let curticks := cc_softticks s in
        let s := with_softticks (s32 (cc_softticks s + 1)) s in
        s ← softclock_bucket fuel' (head (cc_callwheel s (callout_get_bucket curticks))) curticks s;
        softclock fuel' s
  end.

(** The scan of [callout_tick] for a nonempty bucket. *)
Fixpoint callout_tick_scan (fuel : nat) (s : callout_cpu) : outcome (bool * callout_cpu) :=
  match fuel with
  | O => Loop
  | S fuel' =>
      if s32 (cc_softticks s - ticks s) <? 0 then
        match cc_callwheel s (callout_get_bucket (cc_softticks s)) with
        | _ :: _ => mret (true, s)
        | [] => callout_tick_scan fuel' (with_softticks (s32 (cc_softticks s + 1)) s)
        end
      else mret (false, s)
  end.

Definition callout_tick (fuel : nat) (s : callout_cpu) : outcome callout_cpu :=
  '(need_softclock, s) ← callout_tick_scan fuel s;
  if need_softclock : bool then softclock fuel s else mret s.

(** [tc_ticktock] is the time counter's and has no effect on callouts. *)
Definition ff_hardclock (fuel : nat) (s : callout_cpu) : outcome callout_cpu :=
  callout_tick fuel (with_ticks (s32 (ticks s + 1)) s).

End callout.

(** ** Initialisation *)

Definition Giant : Z := 1.

Definition callout_init (mpsafe : bool) (timeout_cpu : Z) : callout :=
  if mpsafe then Callout 0 0 None None 0 CALLOUT_RETURNUNLOCKED timeout_cpu
  else Callout 0 0 None (Some Giant) 0 0 timeout_cpu.

Definition _callout_init_lock (lock : option Z) (flags timeout_cpu : Z) : callout :=
  Callout 0 0 None lock 0 (Z.land flags (Z.lor CALLOUT_RETURNUNLOCKED CALLOUT_SHAREDLOCK)) timeout_cpu.

Definition fls (x : Z) : Z := if x <=? 0 then 0 else Z.log2 x + 1.

(** [ncallout] before the tunable, and the size of the wheel. *)
Definition ncallout_default (maxproc maxfiles : Z) : Z := Z.min (16 + maxproc + maxfiles) 18508.
Definition callwheelsize (ncallout : Z) : Z := Z.shiftl 1 (fls ncallout).

(** The pool of [timeout] is the callouts 0 .. ncallout - 1; the rest of
    memory is [m]. *)
Definition callout_cpu_init (ncallout : nat) (timeout_cpu : Z) (m : nat -> callout) : callout_cpu :=
  let free_exec := CcExec None None false false in
  CalloutCpu (fun _ => free_exec) None 0 (fun _ => []) (rev (seq 0 ncallout)) 0 0
    (fun c : nat => if (c <? ncallout)%nat
              then set_iflags CALLOUT_LOCAL_ALLOC (callout_init false timeout_cpu) else m c) [].

(** * Flag bits *)

Definition pend (k : callout) : bool := flag (c_iflags k) CALLOUT_PENDING.
Definition local (k : callout) : bool := flag (c_iflags k) CALLOUT_LOCAL_ALLOC.
Definition processed (k : callout) : bool := flag (c_iflags k) CALLOUT_PROCESSED.
Definition migrating (k : callout) : bool := flag (c_iflags k) CALLOUT_DFRMIGRATION.
Definition retunlocked (k : callout) : bool := flag (c_iflags k) CALLOUT_RETURNUNLOCKED.

Lemma pend_bit k : pend k = Z.testbit (c_iflags k) 2.
Proof. exact (flag_bit (c_iflags k) 2 ltac:(lia)). Qed.
Lemma local_bit k : local k = Z.testbit (c_iflags k) 0.
Proof. exact (flag_bit (c_iflags k) 0 ltac:(lia)). Qed.
Lemma processed_bit k : processed k = Z.testbit (c_iflags k) 7.
Proof. exact (flag_bit (c_iflags k) 7 ltac:(lia)). Qed.
Lemma migrating_bit k : migrating k = Z.testbit (c_iflags k) 6.
Proof. exact (flag_bit (c_iflags k) 6 ltac:(lia)). Qed.
Lemma retunlocked_bit k : retunlocked k = Z.testbit (c_iflags k) 4.
Proof. exact (flag_bit (c_iflags k) 4 ltac:(lia)). Qed.

(** Evaluates the flag views of a callout whose flags were updated. *)
Ltac view_bits :=
  rewrite ?pend_bit, ?local_bit, ?processed_bit, ?migrating_bit, ?retunlocked_bit in *;
  unfold set_cflags, set_iflags, set_func in *;
  cbn [c_iflags c_lock c_time c_flags c_func c_arg c_cpu] in *;
  unfold CALLOUT_LOCAL_ALLOC, CALLOUT_PENDING, CALLOUT_PROCESSED, CALLOUT_DFRMIGRATION,
    CALLOUT_RETURNUNLOCKED, CALLOUT_DIRECT, CALLOUT_ACTIVE in *;
  repeat rewrite ?Z.lor_spec, ?Z.ldiff_spec;
  repeat match goal with
  | |- context [Z.testbit (Zpos ?p) ?n] =>
      let b := eval vm_compute in (Z.testbit (Zpos p) n) in
      change (Z.testbit (Zpos p) n) with b
  end;
  rewrite ?orb_false_r, ?orb_true_r, ?andb_true_r, ?andb_false_r; cbn [negb andb orb].

(** A callout as the operations keep it: not in a migration, not on the
    expired queue, of the pool exactly when marked so, and with a lock unless
    its function returns unlocked. *)
Record wf_callout (in_pool : bool) (k : callout) : Prop := {
  wf_local : local k = in_pool;
  wf_processed : processed k = false;
  wf_migrating : migrating k = false;
  wf_lock : c_lock k = None -> retunlocked k = true /\ in_pool = false
}.

Lemma wf_set_cflags p k f : wf_callout p k -> wf_callout p (set_cflags f k).
Proof. by intros []; split. Qed.

Lemma wf_set_func p k f : wf_callout p k -> wf_callout p (set_func f k).
Proof. by intros []; split. Qed.

Lemma wf_clear_pending p k :
  wf_callout p k -> wf_callout p (set_iflags (Z.ldiff (c_iflags k) CALLOUT_PENDING) k).
Proof. intros [? ? ? Hl]. split; view_bits; try done. Qed.

Lemma wf_enter p k :
  wf_callout p k ->
  wf_callout p (set_iflags (if flag (c_iflags k) CALLOUT_LOCAL_ALLOC then CALLOUT_LOCAL_ALLOC
                            else Z.ldiff (c_iflags k) CALLOUT_PENDING) k).
Proof.
  intros Hwf. fold (local k). destruct (local k) eqn:E; [|by apply wf_clear_pending].
  destruct Hwf as [Hl ? ? Hk]. rewrite E in Hl. subst p.
  split; view_bits; try done. intros H. destruct (Hk H); done.
Qed.

(** What [callout_cc_add] stores. *)
Definition armed (k : callout) (time ftn arg flags : Z) : callout :=
  let iflags := Z.ldiff (Z.lor (c_iflags k) CALLOUT_PENDING) CALLOUT_PROCESSED in
  let iflags := if flag flags C_DIRECT_EXEC then Z.lor iflags CALLOUT_DIRECT else iflags in
  Callout time arg (Some ftn) (c_lock k) (Z.lor (c_flags k) CALLOUT_ACTIVE) iflags (c_cpu k).

Lemma wf_armed p k t f a fl : wf_callout p k -> wf_callout p (armed k t f a fl).
Proof. intros [? ? ? Hl]. unfold armed. destruct (flag fl _); split; view_bits; try done. Qed.

Lemma pend_armed k t f a fl : pend (armed k t f a fl) = true.
Proof. unfold armed. destruct (flag fl _); by view_bits. Qed.

Lemma pend_clear k : pend (set_iflags (Z.ldiff (c_iflags k) CALLOUT_PENDING) k) = false.
Proof. by view_bits. Qed.

(** * Lists with a scan pointer *)

Fixpoint suffix_at (c : nat) (l : list nat) : list nat :=
  match l with
  | [] => []
  | x :: r => if decide (x = c) then l else suffix_at c r
  end.

Definition from (c : option nat) (l : list nat) : list nat :=
  match c with None => [] | Some c => suffix_at c l end.

Lemma suffix_at_head c l : c ∈ l -> exists r, suffix_at c l = c :: r.
Proof.
  induction l as [|x l IH]; intros Hc; [by apply elem_of_nil in Hc|]. simpl.
  destruct (decide (x = c)) as [->|]; [by eexists|]. apply IH. set_solver.
Qed.

Lemma suffix_at_sub c l x : x ∈ suffix_at c l -> x ∈ l.
Proof. induction l as [|y l IH]; simpl; [done|]. destruct (decide (y = c)); set_solver. Qed.

Lemma next_in_notin c l : c ∉ l -> next_in c l = None.
Proof.
  induction l as [|x l IH]; simpl; [done|]. intros H. rewrite not_elem_of_cons in H. destruct H.
  rewrite decide_False by done. auto.
Qed.

Lemma next_in_sound c l n : next_in c l = Some n -> NoDup l -> n ∈ l /\ n <> c.
Proof.
  induction l as [|y l IH]; simpl; [done|]. intros H [Hy Hnd]%NoDup_cons.
  destruct (decide (y = c)) as [->|].
  - destruct l; simpl in H; [done|]. injection H as ->. set_solver.
  - destruct (IH H Hnd). set_solver.
Qed.

Lemma from_next c l : NoDup l -> c ∈ l -> from (next_in c l) l = tail (suffix_at c l).
Proof.
  induction l as [|x l IH]; intros Hnd Hc; [by apply elem_of_nil in Hc|].
  apply NoDup_cons in Hnd as [Hx Hnd]. simpl. destruct (decide (x = c)) as [->|Hne].
  - destruct l as [|y l]; [done|]. simpl. rewrite (decide_False (P := c = y)) by set_solver.
    by rewrite (decide_True (P := y = y)).
  - assert (c ∈ l) as Hc' by set_solver. specialize (IH Hnd Hc'). rewrite <- IH.
    destruct (next_in c l) as [n|] eqn:E; [|done]. simpl in *. rewrite decide_False; [done|].
    intros ->. by apply next_in_sound in E as [? _].
Qed.

Lemma suffix_at_filter c n l :
  n <> c -> suffix_at n (filter (fun x => x <> c) l) = filter (fun x => x <> c) (suffix_at n l).
Proof.
  intros Hne. induction l as [|x l IH]; [done|]. rewrite filter_cons. simpl.
  destruct (decide (x <> c)) as [Hx|Hx]; simpl.
  - destruct (decide (x = n)); [|done]. rewrite filter_cons. by rewrite decide_True.
  - rewrite IH. destruct (decide (x = n)); [|done]. subst. tauto.
Qed.

Lemma from_in c l x : x ∈ from c l -> x ∈ l.
Proof. destruct c; simpl; [apply suffix_at_sub|by intros ?%elem_of_nil]. Qed.

(** * The invariant of the callout wheel *)

Section proofs.
Context (mask : Z) (client : callout_cpu -> option Z -> Z -> list co_op) (pool : nat -> bool).

Abbreviation bucket := (callout_get_bucket mask).

(** [Inv r s]: the buckets hold exactly the pending callouts, each once and in
    the bucket of its time; the scan pointer is in the bucket it belongs to;
    each callout of the pool is free, pending or one of the callouts [r] that
    are being called. *)
Record Inv (r : list nat) (s : callout_cpu) : Prop := {
  I_wf : forall c, wf_callout (pool c) (mem s c);
  I_wheel : forall b c, c ∈ cc_callwheel s b <-> pend (mem s c) = true /\ bucket (c_time (mem s c)) = b;
  I_nodup : forall b, NoDup (cc_callwheel s b);
  I_next : forall c, cc_next s = Some c -> c ∈ cc_callwheel s (cc_bucket s);
  I_free : NoDup (cc_callfree s);
  I_free_pool : forall c, c ∈ cc_callfree s -> pool c = true /\ pend (mem s c) = false /\ c ∉ r;
  I_run : forall c, c ∈ r -> pool c = true -> pend (mem s c) = false;
  I_pool : forall c, pool c = true -> c ∈ cc_callfree s \/ pend (mem s c) = true \/ c ∈ r
}.

(** Two states with the same wheel, free list and callout views. *)
Record same_wheel (s s' : callout_cpu) : Prop := {
  sw_wheel : cc_callwheel s' = cc_callwheel s;
  sw_next : cc_next s' = cc_next s;
  sw_bucket : cc_bucket s' = cc_bucket s;
  sw_free : cc_callfree s' = cc_callfree s;
  sw_ticks : ticks s' = ticks s;
  sw_soft : cc_softticks s' = cc_softticks s;
  sw_fired : cc_fired s' = cc_fired s;
  sw_time : forall c, c_time (mem s' c) = c_time (mem s c);
  sw_pend : forall c, pend (mem s' c) = pend (mem s c);
  sw_wf : forall c p, wf_callout p (mem s c) -> wf_callout p (mem s' c)
}.

Lemma same_wheel_refl s : same_wheel s s.
Proof. by split. Qed.

Lemma same_wheel_trans s1 s2 s3 : same_wheel s1 s2 -> same_wheel s2 s3 -> same_wheel s1 s3.
Proof. intros [] []. split; auto; congruence. Qed.

Lemma same_wheel_exec d e s : same_wheel s (set_exec d e s).
Proof. by split. Qed.

Lemma same_wheel_callout c k s :
  c_time k = c_time (mem s c) -> pend k = pend (mem s c) ->
  (forall p, wf_callout p (mem s c) -> wf_callout p k) ->
  same_wheel s (set_callout c k s).
Proof.
  intros Ht Hp Hw. split; try done; simpl; intros x; intros; unfold insert, fn_insert in *;
    destruct (decide (c = x)); subst; auto.
Qed.

Lemma Inv_same r s s' : same_wheel s s' -> Inv r s -> Inv r s'.
Proof.
  intros [Hw Hn Hb Hf _ _ _ Ht Hp Hwf] []. split; intros.
  - auto.
  - rewrite Hw, Hp, Ht. auto.
  - rewrite Hw. auto.
  - rewrite Hw, Hb. rewrite Hn in *. auto.
  - by rewrite Hf.
  - rewrite Hf in *. rewrite Hp. auto.
  - rewrite Hp. auto.
  - rewrite Hf, Hp. auto.
Qed.

(** ** Taking a pending callout off its list *)

Definition unlink (c : nat) (s : callout_cpu) : callout_cpu :=
  clear_pending c (unlink_pending mask c s).

Definition cleared (k : callout) : callout :=
  set_cflags (Z.ldiff (c_flags k) CALLOUT_ACTIVE)
    (set_iflags (Z.ldiff (c_iflags k) CALLOUT_PENDING) k).

Lemma wf_cleared p k : wf_callout p k -> wf_callout p (cleared k).
Proof. intros. by apply wf_set_cflags, wf_clear_pending. Qed.

Lemma unlink_eq r c s :
  Inv r s ->
  unlink c s =
  CalloutCpu (cc_exec_entity s)
    (if bool_decide (cc_next s = Some c) then LIST_NEXT mask s c else cc_next s)
    (cc_bucket s)
    (<[bucket_of mask s c := filter (fun x => x <> c) (cc_callwheel s (bucket_of mask s c))]>
       (cc_callwheel s))
    (cc_callfree s) (cc_softticks s) (ticks s) (<[c := cleared (mem s c)]> (mem s)) (cc_fired s).
Proof.
  intros HI. unfold unlink, unlink_pending. destruct (I_wf _ _ HI c) as [_ Hp _ _].
  unfold processed in Hp. rewrite Hp. cbn [negb]. by destruct (bool_decide _).
Qed.

Lemma Inv_unlink r c s :
  Inv r s -> pend (mem s c) = true -> Inv (c :: r) (unlink c s).
Proof.
  intros HI Hc. rewrite (unlink_eq r) by done. destruct HI as [Iwf Iw Ind Inx If Ifp Ir Ip].
  assert (Hcl : pend (cleared (mem s c)) = false) by apply pend_clear.
  split; simpl; unfold insert, fn_insert.
  - intros x. destruct (decide (c = x)) as [->|]; [by apply wf_cleared|done].
  - intros b x. fold (bucket_of mask s c). destruct (decide (bucket_of mask s c = b)) as [<-|Hb].
    + rewrite list_elem_of_filter, Iw. destruct (decide (c = x)) as [->|]; [|naive_solver].
      rewrite Hcl. naive_solver.
    + rewrite Iw. destruct (decide (c = x)) as [<-|]; [|done]. rewrite Hcl. naive_solver.
  - intros b. destruct (decide _); [|done]. apply NoDup_filter, Ind.
  - intros x Hx. case_bool_decide as Hn.
    + assert (bucket_of mask s c = cc_bucket s) as E by (apply Inx, Iw in Hn as [_ Hn]; done).
      rewrite decide_True by done. unfold LIST_NEXT in Hx.
      apply next_in_sound in Hx as [Hx Hne]; [|apply Ind]. apply list_elem_of_filter. done.
    + destruct (decide _) as [E|]; [|by apply Inx]. apply list_elem_of_filter.
      split; [naive_solver|]. rewrite E. by apply Inx.
  - done.
  - intros x Hx. destruct (Ifp x Hx) as (? & Hpx & ?).
    destruct (decide (c = x)) as [->|]; [congruence|]. set_solver.
  - intros x Hx Hpo. destruct (decide (c = x)) as [->|]; [done|]. apply Ir; set_solver.
  - intros x Hpo. destruct (decide (c = x)) as [->|]; [set_solver|].
    destruct (Ip x Hpo) as [?|[?|?]]; set_solver.
Qed.

(** ** Arming a callout *)

Lemma add_eq c to f a fl s :
  callout_cc_add mask c to f a fl s =
  let time := s32 (ticks s + to) in
  CalloutCpu (cc_exec_entity s)
    (if cc_bucket s =? bucket time then Some c else cc_next s) (cc_bucket s)
    (<[bucket time := c :: cc_callwheel s (bucket time)]> (cc_callwheel s))
    (cc_callfree s) (cc_softticks s) (ticks s) (<[c := armed (mem s c) time f a fl]> (mem s))
    (cc_fired s).
Proof. unfold callout_cc_add. simpl. by destruct (cc_bucket s =? _). Qed.

Lemma Inv_add r r' c to f a fl s :
  Inv r s -> pend (mem s c) = false -> c ∉ cc_callfree s ->
  (forall x, pool x = true -> x ∈ r' <-> x ∈ r /\ x <> c) ->
  Inv r' (callout_cc_add mask c to f a fl s).
Proof.
  intros [Iwf Iw Ind Inx If Ifp Ir Ip] Hc Hfree Hr. rewrite add_eq. simpl.
  set (time := s32 (ticks s + to)). set (k := armed (mem s c) time f a fl).
  assert (Hk : pend k = true) by apply pend_armed. assert (Htk : c_time k = time) by done.
  assert (Hnot : forall b, c ∉ cc_callwheel s b) by (intros b Hb; apply Iw in Hb as [? _]; congruence).
  split; simpl; unfold insert, fn_insert.
  - intros x. destruct (decide (c = x)) as [->|]; [by apply wf_armed|done].
  - intros b x. destruct (decide (bucket time = b)) as [<-|Hb].
    + rewrite elem_of_cons. destruct (decide (c = x)) as [->|]; [rewrite Hk, Htk; naive_solver|].
      rewrite Iw. naive_solver.
    + destruct (decide (c = x)) as [<-|]; [|apply Iw]. rewrite Hk, Htk. specialize (Hnot b). naive_solver.
  - intros b. destruct (decide _) as [<-|]; [|done]. by constructor.
  - intros x Hx. destruct (Z.eqb_spec (cc_bucket s) (bucket time)) as [E|].
    + injection Hx as <-. rewrite decide_True by done. set_solver.
    + rewrite decide_False by done. by apply Inx.
  - done.
  - intros x Hx. destruct (Ifp x Hx) as (? & ? & ?). rewrite decide_False by set_solver.
    rewrite Hr by done. set_solver.
  - intros x Hx Hpo. apply Hr in Hx as [Hx Hne]; [|done]. rewrite decide_False by done. auto.
  - intros x Hpo. destruct (decide (c = x)) as [->|]; [auto|]. rewrite Hr by done.
    destruct (Ip x Hpo) as [?|[?|?]]; auto.
Qed.

(** ** Returning a callout to the pool *)

Lemma Inv_del r c s :
  Inv (c :: r) s -> (pool c = true -> c ∉ r) -> Inv r (callout_cc_del c s).
Proof.
  intros HI Hcr. pose proof (wf_local _ _ (I_wf _ _ HI c)) as Hl.
  unfold callout_cc_del. fold (local (mem s c)). rewrite Hl.
  destruct HI as [Iwf Iw Ind Inx If Ifp Ir Ip].
  destruct (pool c) eqn:Hpc; cbn [negb].
  - assert (Hpend : forall x, pend ((<[c := set_func None (mem s c)]> (mem s) : nat -> callout) x) = pend (mem s x))
      by (intros x; unfold insert, fn_insert; by destruct (decide (c = x)) as [->|]).
    assert (Htime : forall x, c_time ((<[c := set_func None (mem s c)]> (mem s) : nat -> callout) x) = c_time (mem s x))
      by (intros x; unfold insert, fn_insert; by destruct (decide (c = x)) as [->|]).
    split; simpl; intros; rewrite ?Hpend, ?Htime; auto.
    + unfold insert, fn_insert. destruct (decide _) as [->|]; [by apply wf_set_func|done].
    + constructor; [|done]. intros Hin. apply Ifp in Hin. set_solver.
    + apply elem_of_cons in H as [->|Hx].
      * split_and!; [done|apply Ir; set_solver|auto].
      * destruct (Ifp _ Hx) as (? & ? & ?). set_solver.
    + apply Ir; set_solver.
    + destruct (Ip _ H) as [?|[?|?]]; set_solver.
  - split; auto.
    + intros x Hx. destruct (Ifp x Hx) as (? & ? & ?). set_solver.
    + intros x Hx. apply Ir. set_solver.
    + intros x Hx. destruct (Ip x Hx) as [?|[?|Hin]]; [auto..|].
      apply elem_of_cons in Hin as [->|]; [congruence|auto].
Qed.

(** * What client operations keep *)

(** [due b T s d]: [d] is in bucket [b] and its time is [T]. *)
Definition due (b T : Z) (s : callout_cpu) (d : nat) : Prop :=
  d ∈ cc_callwheel s b /\ c_time (mem s d) = T.

(** All due callouts of bucket [b] are at the scan pointer or after it. *)
Definition scan (b T : Z) (s : callout_cpu) : Prop :=
  cc_bucket s = b /\ forall d, due b T s d -> d ∈ from (cc_next s) (cc_callwheel s b).

(** No time that can be armed at [tk] is [T]. *)
Definition past (T tk : Z) : Prop := forall n, 1 <= n <= INT_MAX -> s32 (tk + n) <> T.

Record ops_rel (T : Z) (keep : nat -> Prop) (s s' : callout_cpu) : Prop := {
  or_ticks : ticks s' = ticks s;
  or_soft : cc_softticks s' = cc_softticks s;
  or_fired : cc_fired s' = cc_fired s;
  or_due : forall b d, due b T s' d -> due b T s d;
  or_scan : forall b, scan b T s -> scan b T s';
  or_keep : forall x, keep x -> mem s' x = mem s x
}.

Lemma ops_rel_refl T keep s : ops_rel T keep s s.
Proof. by split. Qed.

Lemma ops_rel_trans T keep s1 s2 s3 :
  ops_rel T keep s1 s2 -> ops_rel T keep s2 s3 -> ops_rel T keep s1 s3.
Proof.
  intros [] []. split; try congruence; auto. intros x Hx. transitivity (mem s2 x); auto.
Qed.

Lemma ops_rel_mono T (P Q : nat -> Prop) s s' :
  (forall x, Q x -> P x) -> ops_rel T P s s' -> ops_rel T Q s s'.
Proof. intros H []. split; auto. Qed.

Lemma ops_rel_same T keep s s' :
  same_wheel s s' -> (forall x, keep x -> mem s' x = mem s x) -> ops_rel T keep s s'.
Proof.
  intros [Hw Hn Hb Hf Htk Hso Hfi Ht Hp Hwf] Hk. split; auto.
  - intros b d [Hd Hd']. rewrite Hw in Hd. rewrite Ht in Hd'. by split.
  - intros b [Hb' Hs]. split; [congruence|]. intros d [Hd Hd']. rewrite Hn, Hw. apply Hs.
    rewrite Hw in Hd. rewrite Ht in Hd'. by split.
Qed.

Lemma ops_rel_exec T keep d e s : ops_rel T keep s (set_exec d e s).
Proof. apply ops_rel_same; [apply same_wheel_exec|done]. Qed.

Lemma ops_rel_callout T c k s :
  c_time k = c_time (mem s c) -> pend k = pend (mem s c) ->
  (forall p, wf_callout p (mem s c) -> wf_callout p k) ->
  ops_rel T (fun x => x <> c) s (set_callout c k s).
Proof.
  intros. apply ops_rel_same; [by apply same_wheel_callout|].
  intros x Hx. simpl. by rewrite fn_lookup_insert_ne.
Qed.

Lemma ops_rel_unlink T r c s :
  Inv r s -> pend (mem s c) = true -> ops_rel T (fun x => x <> c) s (unlink c s).
Proof.
  intros HI Hc. rewrite (unlink_eq r) by done.
  assert (Htime : forall x, c_time ((<[c := cleared (mem s c)]> (mem s) : nat -> callout) x) = c_time (mem s x))
    by (intros x; unfold insert, fn_insert; by destruct (decide (c = x)) as [->|]).
  assert (Hsub : forall b d, d ∈ (<[bucket_of mask s c := filter (fun x => x <> c) (cc_callwheel s (bucket_of mask s c))]>
       (cc_callwheel s) : Z -> list nat) b -> d ∈ cc_callwheel s b /\ d <> c).
  { intros b d. unfold insert, fn_insert. destruct (decide _) as [<-|Hb].
    - rewrite list_elem_of_filter. tauto.
    - intros Hd. split; [done|]. intros ->. apply (I_wheel _ _ HI) in Hd as [_ Hd]. done. }
  split; simpl; try done.
  - intros b d [Hd Hd']. simpl in *. rewrite Htime in Hd'. apply Hsub in Hd as [Hd _]. by split.
  - intros b [Hb Hs]. split; [done|]. simpl. intros d [Hd Hd']. simpl in *. rewrite Htime in Hd'.
    apply Hsub in Hd as [Hd Hne]. specialize (Hs d (conj Hd Hd')).
    pose proof (I_nodup _ _ HI b) as Hnd.
    unfold insert, fn_insert. case_bool_decide as Hn.
    + assert (c ∈ cc_callwheel s b) as Hcb by (rewrite <- Hb; by apply (I_next _ _ HI)).
      assert (bucket_of mask s c = b) as E by (by apply (I_wheel _ _ HI) in Hcb as [_ ?]).
      rewrite decide_True by done. rewrite E. unfold LIST_NEXT. rewrite E.
      rewrite Hn in Hs. simpl in Hs.
      destruct (suffix_at_head c (cc_callwheel s b) Hcb) as [tl Htl].
      pose proof (from_next c _ Hnd Hcb) as Hfn. rewrite Htl in Hfn, Hs. simpl in Hfn.
      apply elem_of_cons in Hs as [->|Hs]; [done|]. rewrite <- Hfn in Hs.
      destruct (next_in c (cc_callwheel s b)) as [n|] eqn:En; [|done].
      apply next_in_sound in En as [_ Hnc]; [|done]. simpl in *.
      rewrite suffix_at_filter by done. by apply list_elem_of_filter.
    + destruct (decide _) as [E|]; [|done]. rewrite E.
      destruct (cc_next s) as [n|]; [|done]. simpl in *.
      rewrite suffix_at_filter by congruence. by apply list_elem_of_filter.
  - intros x Hx. by rewrite fn_lookup_insert_ne.
Qed.

Lemma ops_rel_add T r c to f a fl s :
  Inv r s -> pend (mem s c) = false -> 1 <= to <= INT_MAX -> past T (ticks s) ->
  ops_rel T (fun x => x <> c) s (callout_cc_add mask c to f a fl s).
Proof.
  intros HI Hc Hto Hpast. rewrite add_eq. simpl. specialize (Hpast to Hto).
  set (time := s32 (ticks s + to)) in *. set (k := armed (mem s c) time f a fl).
  assert (Hdue : forall b d, d ∈ (<[bucket time := c :: cc_callwheel s (bucket time)]> (cc_callwheel s) : Z -> list nat) b ->
    c_time ((<[c := k]> (mem s) : nat -> callout) d) = T ->
    d <> c /\ d ∈ cc_callwheel s b /\ c_time (mem s d) = T).
  { intros b d. unfold insert, fn_insert. destruct (decide (c = d)) as [->|].
    - intros _ Hd. by contradict Hpast.
    - destruct (decide _) as [<-|]; [|auto]. rewrite elem_of_cons. naive_solver. }
  split; simpl; try done.
  - intros b d [Hd Hd']. destruct (Hdue b d Hd Hd') as (_ & ? & ?). by split.
  - intros b [Hb Hs]. split; [done|]. intros d [Hd Hd']. simpl in *.
    destruct (Hdue b d Hd Hd') as (Hne & Hd1 & Hd2).
    destruct (Z.eqb_spec (cc_bucket s) (bucket time)) as [E|E].
    + rewrite <- E, Hb, fn_lookup_insert. simpl. rewrite decide_True by done. set_solver.
    + rewrite fn_lookup_insert_ne by congruence. apply Hs. by split.
  - intros x Hx. by rewrite fn_lookup_insert_ne.
Qed.

Lemma ops_rel_del T c s : ops_rel T (fun x => x <> c) s (callout_cc_del c s).
Proof.
  unfold callout_cc_del. destruct (negb _); [apply ops_rel_refl|].
  assert (Htime : forall x, c_time ((<[c := set_func None (mem s c)]> (mem s) : nat -> callout) x) = c_time (mem s x))
    by (intros x; unfold insert, fn_insert; by destruct (decide (c = x)) as [->|]).
  split; simpl; try done.
  - intros b d [Hd Hd']. simpl in *. rewrite Htime in Hd'. by split.
  - intros b [Hb Hs]. split; [done|]. intros d [Hd Hd']. simpl in *. rewrite Htime in Hd'.
    apply Hs. by split.
  - intros x Hx. by rewrite fn_lookup_insert_ne.
Qed.

(** ** The operations *)

Lemma stop_spec T r c flags drain s :
  Inv r s -> flag flags CS_DRAIN = false ->
  exists s' z, (forall fuel, _callout_stop_safe mask (S fuel) c flags drain s = Done (s', z)) /\
    Inv r s' /\ ops_rel T (fun x => x <> c) s s'.
Proof.
  intros HI Hfl.
  assert (Htail : forall d z s1, Inv r s1 ->
    exists s' z', stop_tail mask c d false z s1 = (s', z') /\ Inv r s' /\ ops_rel T (fun x => x <> c) s1 s').
  { intros d z s1 HI1. unfold stop_tail. fold (pend (mem s1 c)).
    destruct (pend (mem s1 c)) eqn:E; cbn [negb].
    - do 2 eexists; split; [done|]. fold (unlink c s1). split.
      + apply Inv_del; [by apply Inv_unlink|]. intros Hp Hr. by rewrite (I_run _ _ HI1 c Hr Hp) in E.
      + eapply ops_rel_trans; [by eapply ops_rel_unlink|apply ops_rel_del].
    - do 2 eexists; split; [done|]. split; [done|apply ops_rel_refl]. }
  unfold _callout_stop_safe. set (use_lock := negb _ && _). set (direct := flag _ CALLOUT_DIRECT).
  cbn [stop_again]. pose proof (wf_migrating _ _ (I_wf _ _ HI c)) as Hm. unfold migrating in Hm.
  rewrite Hm. cbn [andb]. rewrite Hfl.
  destruct (is_curr s direct c).
  - set (s1 := set_callout c _ s).
    assert (Hs1 : same_wheel s s1) by (apply same_wheel_callout; try done; intros; by apply wf_set_cflags).
    assert (Hr1 : ops_rel T (fun x => x <> c) s s1)
      by (apply ops_rel_callout; try done; intros; by apply wf_set_cflags).
    assert (HI1 : Inv r s1) by (by eapply Inv_same).
    assert (Hm1 : flag (c_iflags (mem s1 c)) CALLOUT_DFRMIGRATION = false).
    { pose proof (wf_migrating _ _ (I_wf _ _ HI1 c)). done. }
    rewrite Hm1. destruct (use_lock && _ && _).
    + do 2 eexists; split; [done|]. split; [by eapply Inv_same, HI1; apply same_wheel_exec|].
      eapply ops_rel_trans; [done|apply ops_rel_exec].
    + set (s2 := match drain with Some _ => _ | None => _ end).
      assert (Hs2 : same_wheel s1 s2) by (unfold s2; destruct drain; [apply same_wheel_exec|apply same_wheel_refl]).
      assert (HI2 : Inv r s2) by (by eapply Inv_same, HI1).
      destruct (Htail direct (b2z (flag flags CS_EXECUTING)) s2 HI2) as (s' & z' & -> & HI' & Hr').
      exists s', z'. split; [done|]. split; [done|].
      eapply ops_rel_trans; [|done]. eapply ops_rel_trans; [done|].
      unfold s2; destruct drain; [apply ops_rel_exec|apply ops_rel_refl].
  - destruct (Htail direct 1 s HI) as (s' & z' & -> & HI' & Hr'). by exists s', z'.
Qed.

Lemma reset_spec T r c to f a cpu flags s :
  Inv r s -> pool c = false -> cpu = -1 \/ cpu < MAXCPU -> to <= INT_MAX -> past T (ticks s) ->
  exists s' z, callout_reset_tick_on mask c to f a cpu flags s = Done (s', z) /\
    Inv r s' /\ ops_rel T (fun x => x <> c) s s'.
Proof.
  intros HI Hpool Hcpu Hto Hpast. unfold callout_reset_tick_on.
  replace (negb (cpu =? -1) && (MAXCPU <=? cpu)) with false.
  2: { symmetry. destruct Hcpu as [->|]; [done|]. rewrite (proj2 (Z.leb_gt _ _)) by done.
       by rewrite andb_false_r. }
  set (direct := flag flags C_DIRECT_EXEC). set (s1 := if _ : bool then _ else s).
  assert (Hs1 : same_wheel s s1) by (unfold s1; destruct (_ && _); [apply same_wheel_exec|apply same_wheel_refl]).
  assert (Hm1 : mem s1 = mem s) by (unfold s1; by destruct (_ && _)).
  assert (HI1 : Inv r s1) by (by eapply Inv_same).
  assert (Hr1 : ops_rel T (fun x => x <> c) s s1) by (apply ops_rel_same; [done|by rewrite Hm1]).
  destruct (_ && cc_waiting _); [do 2 eexists; split; [done|]; by split|].
  assert (Hfree : c ∉ cc_callfree s1) by (intros Hin; apply (I_free_pool _ _ HI1) in Hin as [? _]; congruence).
  assert (Hto' : 1 <= (if to <=? 0 then 1 else to) <= INT_MAX)
    by (destruct (Z.leb_spec to 0); unfold INT_MAX in *; lia).
  assert (Hp1 : past T (ticks s1)) by (rewrite (sw_ticks _ _ Hs1); done).
  fold (pend (mem s1 c)). destruct (pend (mem s1 c)) eqn:E.
  - fold (unlink c s1).
    assert (HI2 : Inv (c :: r) (unlink c s1)) by (by apply Inv_unlink).
    assert (Hr2 := ops_rel_unlink T r c s1 HI1 E).
    assert (E2 : pend (mem (unlink c s1) c) = false).
    { rewrite (unlink_eq r) by done. simpl. rewrite fn_lookup_insert. apply pend_clear. }
    do 2 eexists; split; [done|]. split.
    + eapply Inv_add; [done|done| |].
      * by rewrite (unlink_eq r) by done.
      * intros x Hx. rewrite elem_of_cons. split; [|naive_solver]. intros. split; [auto|congruence].
    + eapply ops_rel_trans; [done|]. eapply ops_rel_trans; [done|].
      eapply ops_rel_add; [done|done|done|]. rewrite (or_ticks _ _ _ _ Hr2). done.
  - do 2 eexists; split; [done|]. split.
    + eapply Inv_add; [done..|]. intros x Hx. split; [|naive_solver]. intros. split; [auto|congruence].
    + eapply ops_rel_trans; [done|]. by eapply ops_rel_add.
Qed.

(** Operations that a callout function may perform: [callout_reset] and
    [callout_stop] on the client's own callouts, without waiting, and
    [untimeout]. *)
Definition op_ok (op : co_op) : bool :=
  match op with
  | OpReset c to _ _ cpu _ =>
      negb (pool c) && ((cpu =? -1) || (cpu <? MAXCPU)) && (to <=? INT_MAX)
  | OpStop c flags _ => negb (flag flags CS_DRAIN)
  | OpTimeout _ _ _ => false
  | OpUntimeout _ _ _ => true
  end.

Definition mentions (op : co_op) (x : nat) : Prop :=
  match op with
  | OpReset c _ _ _ _ _ | OpStop c _ _ => c = x
  | OpTimeout _ _ _ => pool x = true
  | OpUntimeout _ _ h => h = Some x
  end.

Lemma run_op_spec T r op s :
  Inv r s -> op_ok op = true -> past T (ticks s) ->
  exists s', (forall fuel, run_op mask (S fuel) op s = Done s') /\ Inv r s' /\
    ops_rel T (fun x => ~ mentions op x) s s'.
Proof.
  intros HI Hok Hpast. destruct op as [c to f a cpu fl|c fl d|f a to|f a h]; simpl in *.
  - bool_hyps. rewrite Z.leb_le in *.
    destruct (reset_spec T r c to f a cpu fl s) as (s' & z & E & HI' & Hr); try done.
    { rewrite orb_true_iff, Z.eqb_eq, Z.ltb_lt in *. done. }
    exists s'. split; [intros _; by rewrite E|]. split; [done|].
    eapply ops_rel_mono, Hr. intros x. by intros ? ->.
  - bool_hyps. destruct (stop_spec T r c fl d s) as (s' & z & E & HI' & Hr); try done.
    exists s'. split; [intros fuel; by rewrite E|]. split; [done|].
    eapply ops_rel_mono, Hr. intros x. by intros ? ->.
  - done.
  - destruct h as [c|]; simpl; [|by exists s; split_and!; try done; apply ops_rel_refl].
    destruct (_ && _); [|by exists s; split_and!; try done; apply ops_rel_refl].
    destruct (stop_spec T r c 0 None s) as (s' & z & E & HI' & Hr); [done..|].
    exists s'. split; [intros fuel; unfold callout_stop; by rewrite E|]. split; [done|].
    eapply ops_rel_mono, Hr. intros x. by intros ? ->.
Qed.

Lemma run_ops_spec T r ops s :
  Inv r s -> forallb op_ok ops = true -> past T (ticks s) ->
  exists s', (forall fuel, run_ops mask (S fuel) ops s = Done s') /\ Inv r s' /\
    ops_rel T (fun x => forall op, op ∈ ops -> ~ mentions op x) s s'.
Proof.
  revert s; induction ops as [|op ops IH]; intros s HI Hok Hpast.
  - exists s. split_and!; [done|done|apply ops_rel_refl].
  - apply andb_prop in Hok as [Hop Hok].
    destruct (run_op_spec T r op s) as (s1 & E1 & HI1 & R1); [done..|].
    destruct (IH s1) as (s2 & E2 & HI2 & R2); [done|done|by rewrite (or_ticks _ _ _ _ R1)|].
    exists s2. split_and!; [intros fuel; cbn [run_ops]; rewrite E1; apply E2|done|].
    eapply ops_rel_trans; (eapply ops_rel_mono; [|done]); intros x Hx; set_solver.
Qed.

(** * Calling a callout *)

Hypothesis client_ok : forall s f a, forallb op_ok (client s f a) = true.

(** Callouts of the client that no callout function touches. *)
Definition untouched (x : nat) : Prop :=
  pool x = false /\ forall s f a op, op ∈ client s f a -> ~ mentions op x.

(** The effect of the calls [new] on an untouched callout: one call if it was
    due at [T], with its function and argument, and none otherwise. *)
Definition fires (T tk : Z) (x : nat) (s s' : callout_cpu) (new : list firing) : Prop :=
  let mine := filter (fun f => f_callout f = x) new in
  if pend (mem s x) && (c_time (mem s x) =? T)
  then mine = [Firing tk x T (c_func (mem s x)) (c_arg (mem s x))] /\ pend (mem s' x) = false
  else mine = [] /\ mem s' x = mem s x.

(** The state in which the function of [c] is called. *)
Definition entered (T : Z) (c : nat) (s : callout_cpu) : callout_cpu :=
  call_cc_enter c (LIST_REMOVE mask c
    (with_bucket (bucket T) (with_next (LIST_NEXT mask s c) s))).

Definition enter_iflags (k : callout) : callout :=
  set_iflags (if flag (c_iflags k) CALLOUT_LOCAL_ALLOC then CALLOUT_LOCAL_ALLOC
              else Z.ldiff (c_iflags k) CALLOUT_PENDING) k.

Lemma pend_enter k : pend (enter_iflags k) = false.
Proof. unfold enter_iflags. destruct (flag _ _); by view_bits. Qed.

Lemma wf_uncleared p k : wf_callout p (cleared k) -> wf_callout p k.
Proof.
  unfold cleared. intros [Hl Hp Hm Hk]. revert Hl Hp Hm Hk.
  by view_bits; split; view_bits.
Qed.

Lemma entered_spec T c s :
  Inv [] s -> due (bucket T) T s c ->
  (forall d, due (bucket T) T s d -> d ∈ from (Some c) (cc_callwheel s (bucket T))) ->
  Inv [c] (entered T c s) /\ scan (bucket T) T (entered T c s) /\
  (forall b d, due b T (entered T c s) d -> due b T s d /\ d <> c) /\
  mem (entered T c s) = <[c := enter_iflags (mem s c)]> (mem s) /\
  ticks (entered T c s) = ticks s /\ cc_softticks (entered T c s) = cc_softticks s /\
  cc_fired (entered T c s) = cc_fired s.
Proof.
  intros HI [Hc Ht] Hscan.
  set (s0 := with_bucket (bucket T) (with_next (Some c) s)).
  assert (HI0 : Inv [] s0).
  { destruct HI as [Iwf Iw Ind Inx If Ifp Ir Ip]. split; auto. simpl. by intros x [= <-]. }
  assert (Hp : pend (mem s0 c) = true) by (apply (I_wheel _ _ HI) in Hc as [? _]; done).
  pose proof (Inv_unlink [] c s0 HI0 Hp) as HI1.
  pose proof (ops_rel_unlink T [] c s0 HI0 Hp) as R1.
  assert (Hsame : same_wheel (unlink c s0) (entered T c s)).
  { rewrite (unlink_eq [] _ _ HI0). unfold s0, entered, call_cc_enter. simpl.
    rewrite bool_decide_eq_true_2 by done.
    split; try done; simpl; intros x; unfold insert, fn_insert; destruct (decide (c = x)) as [<-|]; try done.
    - change (pend (enter_iflags (mem s c)) = pend (cleared (mem s c))). rewrite pend_enter. symmetry. apply pend_clear.
    - intros p Hw. apply wf_uncleared in Hw. by apply wf_enter. }
  split_and!.
  - by eapply Inv_same.
  - assert (Hs0 : scan (bucket T) T s0) by (split; [done|]; simpl; intros d Hd; by apply Hscan).
    apply (or_scan _ _ _ _ R1) in Hs0. by apply (or_scan _ _ _ _ (ops_rel_same T (fun _ => False) _ _ Hsame ltac:(done))).
  - intros b d Hd. apply (or_due _ _ _ _ (ops_rel_same T (fun _ => False) _ _ Hsame ltac:(done))) in Hd.
    split; [by apply (or_due _ _ _ _ R1) in Hd|]. intros ->.
    destruct Hd as [Hd _]. apply (I_wheel _ _ HI1) in Hd as [Hd _].
    rewrite (unlink_eq [] _ _ HI0) in Hd. simpl in Hd. rewrite fn_lookup_insert in Hd.
    rewrite (pend_clear (mem s c)) in Hd || (unfold cleared in Hd; revert Hd; by view_bits).
  - done.
  - done.
  - done.
  - done.
Qed.

(** The end of [softclock_call_cc], after the function has returned. *)
Lemma call_cc_leave_spec T c a i s :
  Inv [c] s -> past T (ticks s) -> flag i CALLOUT_LOCAL_ALLOC = pool c ->
  exists s', (forall fuel, call_cc_leave mask client (S fuel) c a i s = Done s') /\
    Inv [] s' /\ ops_rel T untouched s s'.
Proof.
  intros HI Hpast Hi. unfold call_cc_leave. set (e := cc_exec_entity s true).
  set (s5 := set_exec true (CcExec None (cc_drain e) (cc_cancel e) (cc_waiting e)) s).
  assert (HI5 : Inv [c] s5) by (by eapply Inv_same, HI; apply same_wheel_exec).
  assert (exists s6, (forall fuel, (match cc_drain e with
       | None => mret s5
       | Some d =>
           let s := set_exec true (CcExec None None (cc_cancel e) (cc_waiting e)) s5 in
           run_ops mask (S fuel) (client s (Some d) a) s
       end) = Done s6) /\ Inv [c] s6 /\ ops_rel T untouched s s6) as (s6 & E6 & HI6 & R6).
  { destruct (cc_drain e) as [d|].
    - cbv zeta. set (s5' := set_exec true (CcExec None None (cc_cancel e) (cc_waiting e)) s5).
      destruct (run_ops_spec T [c] (client s5' (Some d) a) s5') as (s6 & E6 & HI6 & R6);
        [by eapply Inv_same, HI5; apply same_wheel_exec|apply client_ok|done|].
      exists s6. split; [done|]. split; [done|].
      eapply ops_rel_trans; [apply ops_rel_exec|]. eapply ops_rel_trans; [apply ops_rel_exec|].
      eapply ops_rel_mono, R6. intros x [_ Hx]. eauto.
    - exists s5. split; [done|]. split; [done|]. apply ops_rel_exec. }
  set (s7 := if cc_waiting (cc_exec_entity s6 true)
             then set_exec true (CcExec (cc_curr (cc_exec_entity s6 true))
               (cc_drain (cc_exec_entity s6 true)) (cc_cancel (cc_exec_entity s6 true)) false) s6
             else s6).
  assert (Hs7 : same_wheel s6 s7) by (unfold s7; destruct (cc_waiting (cc_exec_entity s6 true)); [apply same_wheel_exec|apply same_wheel_refl]).
  assert (Hm7 : mem s7 = mem s6) by (unfold s7; by destruct (cc_waiting (cc_exec_entity s6 true))).
  assert (HI7 : Inv [c] s7) by (by eapply Inv_same, HI6).
  assert (R7 : ops_rel T untouched s s7).
  { eapply ops_rel_trans; [done|]. apply ops_rel_same; [done|]. by rewrite Hm7. }
  exists (if flag i CALLOUT_LOCAL_ALLOC then callout_cc_del c s7 else s7).
  split; [intros fuel; rewrite E6; done|]. rewrite Hi.
  assert (Hdel : Inv [] (callout_cc_del c s7)) by (apply Inv_del; [done|set_solver]).
  destruct (pool c) eqn:Hpc.
  - split; [done|]. eapply ops_rel_trans; [done|]. eapply ops_rel_mono, ops_rel_del.
    intros x [Hx _] ->. congruence.
  - split; [|done]. revert Hdel. unfold callout_cc_del. fold (local (mem s7 c)).
    rewrite (wf_local _ _ (I_wf _ _ HI7 c)). by rewrite Hpc.
Qed.

(** The call of a due callout, up to the return of [softclock_call_cc]. *)
Lemma call_cc_spec T c s :
  Inv [] s -> past T (ticks s) -> due (bucket T) T s c ->
  (forall d, due (bucket T) T s d -> d ∈ from (Some c) (cc_callwheel s (bucket T))) ->
  exists s', (forall fuel, softclock_call_cc mask client (S fuel) c
      (LIST_REMOVE mask c (with_bucket (bucket T) (with_next (LIST_NEXT mask s c) s))) = Done s') /\
    Inv [] s' /\ scan (bucket T) T s' /\
    (forall b d, due b T s' d -> due b T s d /\ d <> c) /\
    ticks s' = ticks s /\ cc_softticks s' = cc_softticks s /\
    cc_fired s' = cc_fired s ++ [Firing (ticks s) c T (c_func (mem s c)) (c_arg (mem s c))] /\
    (forall x, untouched x ->
       if decide (c = x) then pend (mem s' x) = false else mem s' x = mem s x).
Proof.
  intros HI Hpast Hc Hscan.
  destruct (entered_spec T c s) as (HI1 & Hs1 & Hd1 & Hm1 & Htk & Hso & Hfi); [done..|].
  unfold softclock_call_cc. fold (entered T c s). set (s1 := entered T c s) in *.
  assert (E1 : cc_cancel (cc_exec_entity s1 true) = false) by done.
  rewrite E1, andb_false_r. cbn [mem with_bucket with_next LIST_REMOVE with_wheel].
  set (locked := bool_decide (c_lock (mem s c) <> None)).
  set (s2 := if locked then _ else s1).
  assert (Hs2 : same_wheel s1 s2) by (unfold s2; destruct locked; [apply same_wheel_exec|apply same_wheel_refl]).
  assert (Hm2 : mem s2 = mem s1) by (unfold s2; by destruct locked).
  destruct Hc as [Hcw Hct]. rewrite Hct. set (k := mem s c) in *.
  rewrite (sw_fired _ _ Hs2), (sw_ticks _ _ Hs2), Hfi, Htk.
  set (fg := Firing (ticks s) c T (c_func k) (c_arg k)).
  set (s3 := with_fired (cc_fired s ++ [fg]) s2).
  assert (HI3 : Inv [c] s3).
  { apply (Inv_same [c] s1 s2 Hs2) in HI1. destruct HI1. split; auto. }
  destruct (run_ops_spec T [c] (client s3 (c_func k) (c_arg k)) s3) as (s4 & E4 & HI4 & R4);
    [done|apply client_ok|by simpl; rewrite (sw_ticks _ _ Hs2), Htk|].
  assert (Hlk : negb (flag (c_iflags k) CALLOUT_RETURNUNLOCKED) && negb locked = false).
  { unfold locked. case_bool_decide as El; [by rewrite andb_false_r|].
    destruct (c_lock k) eqn:Ek; [by contradict El|].
    destruct (wf_lock _ _ (I_wf _ _ HI c) Ek) as [Hr _]. unfold retunlocked in Hr. by fold k in Hr; rewrite Hr. }
  destruct (call_cc_leave_spec T c (c_arg k) (c_iflags k) s4) as (s8 & E8 & HI8 & R8);
    [done|rewrite (or_ticks _ _ _ _ R4); simpl; by rewrite (sw_ticks _ _ Hs2), Htk
    |exact (wf_local _ _ (I_wf _ _ HI c))|].
  assert (R38 : ops_rel T untouched s3 s8).
  { eapply ops_rel_trans; [eapply ops_rel_mono, R4; intros x [_ Hx]; eauto|done]. }
  assert (R13 : forall b d, due b T s3 d -> due b T s1 d).
  { intros b d [Hd Hd']. simpl in *. rewrite (sw_wheel _ _ Hs2) in Hd. rewrite Hm2 in Hd'. by split. }
  exists s8. split_and!.
  - intros fuel. rewrite E4. cbn [mbind outcome_bind]. rewrite Hlk. cbn [mret outcome_ret].
    apply E8.
  - done.
  - apply (or_scan _ _ _ _ R38). destruct Hs1 as [Hb Hs]. split; [simpl; by rewrite (sw_bucket _ _ Hs2)|].
    intros d Hd. simpl. rewrite (sw_next _ _ Hs2), (sw_wheel _ _ Hs2). by apply Hs, R13.
  - intros b d Hd. by apply Hd1, R13, (or_due _ _ _ _ R38).
  - rewrite (or_ticks _ _ _ _ R38). simpl. by rewrite (sw_ticks _ _ Hs2), Htk.
  - rewrite (or_soft _ _ _ _ R38). simpl. by rewrite (sw_soft _ _ Hs2), Hso.
  - by rewrite (or_fired _ _ _ _ R38).
  - intros x Hx. rewrite (or_keep _ _ _ _ R38 x Hx). simpl mem. rewrite Hm2, Hm1.
    destruct (decide (c = x)) as [<-|]; [rewrite fn_lookup_insert; apply pend_enter|].
    by rewrite fn_lookup_insert_ne.
Qed.

(** * The clock *)

(** What a pass over the bucket of [T] at time [tk] does. *)
Record pass (T tk : Z) (s s' : callout_cpu) : Prop := {
  pa_inv : Inv [] s';
  pa_ticks : ticks s' = ticks s;
  pa_soft : cc_softticks s' = cc_softticks s;
  pa_clear : forall d, ~ due (bucket T) T s' d;
  pa_fired : exists new, cc_fired s' = cc_fired s ++ new /\
    Forall (fun f => f_time f = T /\ f_ticks f = tk) new /\
    forall x, untouched x -> fires T tk x s s' new
}.

(** Callouts due in bucket [b]. *)
Definition due_list (b T : Z) (s : callout_cpu) : list nat :=
  filter (fun d => c_time (mem s d) = T) (cc_callwheel s b).

Lemma due_list_spec b T s d : d ∈ due_list b T s <-> due b T s d.
Proof. unfold due_list, due. rewrite list_elem_of_filter. tauto. Qed.

Lemma due_list_shrinks r b T s s' c :
  Inv r s -> Inv r s' -> due b T s c ->
  (forall d, due b T s' d -> due b T s d /\ d <> c) ->
  (length (due_list b T s') < length (due_list b T s))%nat.
Proof.
  intros HI HI' Hc Hsub.
  assert (NoDup (c :: due_list b T s')) as Hnd.
  { constructor; [|apply NoDup_filter, (I_nodup _ _ HI')].
    rewrite due_list_spec. intros H. by apply Hsub in H as [_ ?]. }
  apply (NoDup_incl_length (proj1 (NoDup_ListNoDup _) Hnd)).
  intros x Hx. apply list_elem_of_In. apply list_elem_of_In in Hx.
  apply due_list_spec. apply elem_of_cons in Hx as [->|Hx]; [done|].
  apply due_list_spec in Hx. by apply Hsub.
Qed.

Lemma Inv_next_none r s : Inv r s -> Inv r (with_next None s).
Proof. intros []. by split. Qed.

(** Composition of one call with the rest of the pass. *)
Lemma fires_cons T tk c s s1 s2 new x :
  due (bucket T) T s c -> Inv [] s ->
  (if decide (c = x) then pend (mem s1 x) = false else mem s1 x = mem s x) ->
  fires T tk x s1 s2 new ->
  fires T tk x s s2 (Firing tk c T (c_func (mem s c)) (c_arg (mem s c)) :: new).
Proof.
  intros [Hc Ht] HI Hx. unfold fires. rewrite filter_cons. simpl f_callout.
  apply (I_wheel _ _ HI) in Hc as [Hp _].
  destruct (decide (c = x)) as [<-|].
  - rewrite Hx. simpl. intros [-> ->]. rewrite Hp, Ht, Z.eqb_refl. simpl. done.
  - by rewrite Hx.
Qed.

Lemma softclock_bucket_spec T : forall N L c s,
  (length (due_list (bucket T) T s) <= N)%nat ->
  (length (from c (cc_callwheel s (bucket T))) <= L)%nat ->
  Inv [] s -> past T (ticks s) ->
  (forall x, c = Some x -> x ∈ cc_callwheel s (bucket T)) ->
  (forall d, due (bucket T) T s d -> d ∈ from c (cc_callwheel s (bucket T))) ->
  exists fuel0 s', pass T (ticks s) s s' /\
    forall fuel, (fuel0 <= fuel)%nat -> softclock_bucket mask client fuel c T s = Done s'.
Proof.
  intros N. induction N as [N IHN] using lt_wf_ind. intros L.
  induction L as [L IHL] using lt_wf_ind. intros c s HN HL HI Hpast Hc Hscan.
  destruct c as [c|].
  2: { exists 1%nat, s. split; [|intros [|fuel] ?; [lia|done]].
       split; try done; [intros d Hd; by apply Hscan, elem_of_nil in Hd|].
       exists []. rewrite app_nil_r. split_and!; [done..|]. intros x _. unfold fires.
       rewrite filter_nil. destruct (_ && _) eqn:E; [|done].
       apply andb_prop in E as [Ep Et]. apply Z.eqb_eq in Et. exfalso.
       assert (due (bucket T) T s x) as Hd; [|by apply Hscan, elem_of_nil in Hd].
       split; [|done]. apply (I_wheel _ _ HI). by rewrite Et. }
  specialize (Hc c eq_refl). pose proof (I_nodup _ _ HI (bucket T)) as Hnd.
  destruct (suffix_at_head c _ Hc) as [tl Htl].
  assert (Hb : bucket_of mask s c = bucket T) by (by apply (I_wheel _ _ HI) in Hc as [_ ?]).
  destruct (Z.eqb_spec (c_time (mem s c)) T) as [E|E].
  - destruct (call_cc_spec T c s) as (s1 & E1 & HI1 & [Hbk Hs1] & Hd1 & Htk & Hso & Hfi & Hk);
      [done|done|by split|done|].
    assert (Hlt : (length (due_list (bucket T) T s1) < N)%nat).
    { eapply Nat.lt_le_trans, HN. eapply (due_list_shrinks [] _ _ s s1 c); [done|done|by split|auto]. }
    destruct (IHN _ Hlt (length (from (cc_next s1) (cc_callwheel s1 (bucket T)))) (cc_next s1) (with_next None s1)) as (f0 & s2 & [P1 P2 P3 P4 P5] & E2);
      [reflexivity|reflexivity|by apply Inv_next_none|by simpl; rewrite Htk
      |intros x Hx; simpl; rewrite <- Hbk; by apply (I_next _ _ HI1)|exact Hs1|].
    simpl in *. exists (S (S f0)), s2. split.
    + split; [done|congruence|congruence|done|].
      destruct P5 as (new & F1 & F2 & F3). rewrite Htk in *.
      exists (Firing (ticks s) c T (c_func (mem s c)) (c_arg (mem s c)) :: new). split_and!.
      * rewrite F1, Hfi, <- app_assoc. done.
      * constructor; [done|done].
      * intros x Hx. apply (fires_cons T (ticks s) c s s1); [by split|done|by apply Hk|]. exact (F3 x Hx).
    + intros [|[|fuel]] Hf; [lia..|]. cbn [softclock_bucket]. rewrite E, Z.eqb_refl. cbn [negb].
      rewrite E1. cbn [mbind outcome_bind]. exact (E2 (S fuel) ltac:(lia)).
  - pose proof (from_next c _ Hnd Hc) as Hfn. rewrite Htl in Hfn. simpl in Hfn.
    assert (Hlt : (length tl < L)%nat) by (simpl in HL; rewrite Htl in HL; simpl in HL; lia).
    destruct (IHL _ Hlt (next_in c (cc_callwheel s (bucket T))) s) as (f0 & s2 & P & E2);
      [done|by rewrite Hfn|done|done
      |intros x Hx; by apply next_in_sound in Hx as [? _]
      |intros d Hd; rewrite Hfn; pose proof (Hscan d Hd) as Hin; simpl in Hin; rewrite Htl in Hin;
       apply elem_of_cons in Hin as [->|]; [by destruct Hd as [_ ?]|done]|].
    exists (S f0), s2. split; [done|]. intros [|fuel] Hf; [lia|]. cbn [softclock_bucket].
    rewrite (proj2 (Z.eqb_neq _ _)) by done. cbn [negb]. unfold LIST_NEXT. rewrite Hb. apply E2. lia.
Qed.

(** ** One clock tick *)

Definition is_int (t : Z) : Prop := INT_MIN <= t <= INT_MAX.

Lemma s32_is_int t : is_int (s32 t).
Proof. pose proof (wraps_range 32 t). unfold is_int, INT_MIN, INT_MAX. simpl in *. lia. Qed.

Lemma s32_id t : is_int t -> s32 t = t.
Proof. unfold is_int, INT_MIN, INT_MAX. intros. apply wraps_small; simpl; lia. Qed.

Lemma s32_mod x : exists q, s32 x = x + q * 2 ^ 32.
Proof.
  unfold wraps. pose proof (Z.div_mod (x + 2 ^ (32 - 1)) (2 ^ 32)).
  exists (- ((x + 2 ^ (32 - 1)) / 2 ^ 32)). lia.
Qed.

Lemma s32_add x y : s32 (s32 x + y) = s32 (x + y).
Proof.
  destruct (s32_mod x) as [q ->]. unfold wraps. f_equal.
  replace (x + q * 2 ^ 32 + y + 2 ^ (32 - 1)) with (x + y + 2 ^ (32 - 1) + q * 2 ^ 32) by lia.
  by rewrite Z.mod_add by lia.
Qed.

(** Distinct offsets below 2^32 give distinct times. *)
Lemma s32_inj t m n : 0 <= m < 2 ^ 32 -> 0 <= n < 2 ^ 32 -> s32 (t + m) = s32 (t + n) -> m = n.
Proof.
  intros Hm Hn. destruct (s32_mod (t + m)) as [p ->]. destruct (s32_mod (t + n)) as [q ->]. lia.
Qed.

Lemma past_next t : is_int t -> past t (s32 (t + 1)).
Proof.
  intros Ht n Hn. rewrite s32_add. intros E.
  assert (s32 (t + (1 + n)) = s32 (t + 0)) as E'
    by (rewrite Z.add_0_r, (s32_id t) by done; rewrite <- E; f_equal; lia).
  unfold INT_MAX in Hn. apply s32_inj in E'; lia.
Qed.

(** The effect of [ff_hardclock] in a state where the soft clock has caught
    up: the callouts due at the old time are called, and only these. *)
Record tick_done (s s' : callout_cpu) : Prop := {
  td_inv : Inv [] s';
  td_ticks : ticks s' = s32 (ticks s + 1);
  td_soft : cc_softticks s' = ticks s';
  td_fired : exists new, cc_fired s' = cc_fired s ++ new /\
    Forall (fun f => f_time f = ticks s /\ f_ticks f = ticks s') new /\
    forall x, untouched x -> fires (ticks s) (ticks s') x s s' new;
  td_none_due : forall c, pend (mem s' c) = true -> c_time (mem s' c) <> ticks s
}.

Lemma hardclock_spec s :
  Inv [] s -> cc_softticks s = ticks s -> is_int (ticks s) ->
  exists fuel0 s', tick_done s s' /\
    forall fuel, (fuel0 <= fuel)%nat -> ff_hardclock mask client fuel s = Done s'.
Proof.
  intros HI Hsoft Hint. set (t := ticks s) in *. set (t' := s32 (t + 1)).
  set (s1 := with_ticks t' s).
  assert (HI1 : Inv [] s1) by (destruct HI; by split).
  assert (Hlt : s32 (cc_softticks s1 - ticks s1) = -1).
  { simpl. rewrite Hsoft. unfold t'. destruct (s32_mod (t + 1)) as [q Hq]. rewrite Hq.
    replace (t - (t + 1 + q * 2 ^ 32)) with (-1 + (- q) * 2 ^ 32) by lia. unfold wraps.
    replace (-1 + - q * 2 ^ 32 + 2 ^ (32 - 1)) with (-1 + 2 ^ (32 - 1) + - q * 2 ^ 32) by lia.
    by rewrite Z.mod_add by lia. }
  assert (Hne : t <> t').
  { intros E. assert (s32 (t + 0) = s32 (t + 1)) as E' by (rewrite Z.add_0_r, (s32_id t); done).
    apply s32_inj in E'; lia. }
  unfold ff_hardclock, callout_tick. fold t. fold t'. fold s1.
  destruct (cc_callwheel s (bucket t)) as [|c0 l0] eqn:Ew.
  - (* empty bucket: the scan catches up *)
    exists 2%nat, (with_softticks t' s1). split.
    + assert (Hno : forall c, pend (mem s c) = true -> c_time (mem s c) <> t).
      { intros c Hp Hc. assert (c ∈ cc_callwheel s (bucket t)) as Hin by (apply (I_wheel _ _ HI); by rewrite Hc).
        rewrite Ew in Hin. by apply elem_of_nil in Hin. }
      split; try done; [destruct HI1; by split|].
      exists []. rewrite app_nil_r. split_and!; [done..|]. intros x _. unfold fires. simpl mem.
      rewrite filter_nil. destruct (_ && _) eqn:E; [|done]. apply andb_prop in E as [Ep Et].
      apply Z.eqb_eq in Et. by apply Hno in Ep.
    + intros [|[|fuel]] Hf; [lia..|]. cbn [callout_tick_scan]. rewrite Hlt. simpl.
      rewrite Hsoft, Ew. fold t'. rewrite Z.sub_diag. done.
  - set (s2 := with_softticks t' s1).
    assert (HI2 : Inv [] s2) by (destruct HI1; by split).
    assert (Hall : from (head (c0 :: l0)) (c0 :: l0) = c0 :: l0) by (simpl; by rewrite decide_True).
    destruct (softclock_bucket_spec t _ _ (Some c0) s2 (le_n _) (le_n _)) as (f0 & s3 & P & E3);
      [done|apply past_next; done|simpl; intros x [= <-]; rewrite Ew; set_solver
      |intros d [Hd _]; simpl in Hd; simpl cc_callwheel; rewrite Ew in *;
       change (Some c0) with (head (c0 :: l0)); by rewrite Hall|].
    destruct P as [P1 P2 P3 P4 P5]. simpl in P2, P3, P5. exists (S (S f0)), s3. split.
    + split; [done|done|by rewrite P2, P3|rewrite P2; exact P5|].
      intros c Hp Hc. apply (P4 c). split; [|done]. apply (I_wheel _ _ P1). by rewrite Hc.
    + intros [|[|fuel]] Hf; [lia..|]. cbn [callout_tick_scan]. rewrite Hlt. cbn [Z.ltb Z.compare].
      simpl cc_callwheel. simpl cc_softticks. rewrite Hsoft, Ew.
      cbn [mbind outcome_bind mret outcome_ret fst]. cbn [softclock]. simpl cc_softticks. simpl ticks.
      rewrite Hsoft. rewrite (proj2 (Z.eqb_neq _ _)) by done. fold t'. fold s2.
      simpl cc_callwheel. rewrite Ew. simpl head. rewrite E3 by lia. cbn [mbind outcome_bind].
      cbn [softclock]. by rewrite P2, P3, Z.eqb_refl.
Qed.

(** ** Runs of the clock *)

(** [ff_hardclock] returns [s'], whatever the fuel from some amount on. *)
Definition hardclock_returns (s s' : callout_cpu) : Prop :=
  exists fuel0, forall fuel, (fuel0 <= fuel)%nat -> ff_hardclock mask client fuel s = Done s'.

Inductive ticks_run : nat -> callout_cpu -> callout_cpu -> Prop :=
  | run_0 s : ticks_run 0 s s
  | run_S m s s' s'' : ticks_run m s s' -> hardclock_returns s' s'' -> ticks_run (S m) s s''.

Definition quiet (s : callout_cpu) : Prop :=
  Inv [] s /\ cc_softticks s = ticks s /\ is_int (ticks s).

Lemma hardclock_quiet s :
  quiet s -> exists s', hardclock_returns s s' /\ quiet s' /\ tick_done s s'.
Proof.
  intros (HI & Hs & Hi). destruct (hardclock_spec s) as (f0 & s' & Htd & E); [done..|].
  exists s'. split_and!; [by exists f0| |done].
  destruct Htd as [H1 H2 H3 _ _]. split_and!; [done|done|rewrite H2; apply s32_is_int].
Qed.

(** The calls of [x] so far. *)
Definition calls_of (x : nat) (s : callout_cpu) : list firing :=
  filter (fun f => f_callout f = x) (cc_fired s).

Lemma tick_calls s s' x :
  tick_done s s' -> untouched x ->
  if pend (mem s x) && (c_time (mem s x) =? ticks s)
  then calls_of x s' = calls_of x s ++ [Firing (ticks s') x (ticks s) (c_func (mem s x)) (c_arg (mem s x))]
       /\ pend (mem s' x) = false
  else calls_of x s' = calls_of x s /\ mem s' x = mem s x.
Proof.
  intros [_ _ _ (new & Hf & _ & Hx) _] Hu. specialize (Hx x Hu). unfold fires in Hx.
  unfold calls_of. rewrite Hf, filter_app.
  destruct (_ && _); destruct Hx as [-> ?]; [done|]. by rewrite app_nil_r.
Qed.

(** An untouched callout that is not pending is not called. *)
Lemma idle_run x s : quiet s -> untouched x -> pend (mem s x) = false ->
  forall m, exists s', ticks_run m s s' /\ quiet s' /\ calls_of x s' = calls_of x s /\
    pend (mem s' x) = false.
Proof.
  intros Hq Hu Hp m. induction m as [|m (s1 & Hr & Hq1 & Hc1 & Hp1)]; [exists s; split_and!; done || constructor|].
  destruct (hardclock_quiet s1 Hq1) as (s2 & H2 & Hq2 & Htd). pose proof (tick_calls s1 s2 x Htd Hu) as Ht.
  rewrite Hp1 in Ht. simpl in Ht. destruct Ht as [Hc2 Hm2].
  exists s2. split_and!; [by econstructor|done|congruence|congruence].
Qed.

(** A pending untouched callout is called once, when the clock has passed its
    time. *)
Lemma pending_run x n s : quiet s -> untouched x -> pend (mem s x) = true -> 0 <= n < 2 ^ 32 ->
  c_time (mem s x) = s32 (ticks s + n) ->
  forall m, Z.of_nat m < 2 ^ 32 -> exists s', ticks_run m s s' /\ quiet s' /\
    ticks s' = s32 (ticks s + Z.of_nat m) /\
    if Z.of_nat m <=? n
    then calls_of x s' = calls_of x s /\ mem s' x = mem s x
    else pend (mem s' x) = false /\ calls_of x s' = calls_of x s ++
      [Firing (s32 (ticks s + n + 1)) x (s32 (ticks s + n)) (c_func (mem s x)) (c_arg (mem s x))].
Proof.
  intros Hq Hu Hp Hn Ht m.
  induction m as [|m IH]; intros Hm.
  - exists s. split_and!; [constructor|done|rewrite Z.add_0_r, s32_id; [done|apply Hq]|].
    by rewrite (proj2 (Z.leb_le _ _)) by lia.
  - destruct IH as (s1 & Hr & Hq1 & Ht1 & H1); [lia|].
    destruct (hardclock_quiet s1 Hq1) as (s2 & H2 & Hq2 & Htd). pose proof (tick_calls s1 s2 x Htd Hu) as Hc.
    assert (Ht2 : ticks s2 = s32 (ticks s + Z.of_nat (S m))).
    { rewrite (td_ticks _ _ Htd), Ht1, s32_add. f_equal. lia. }
    exists s2. split_and!; [by econstructor|done|done|].
    destruct (Z.leb_spec (Z.of_nat m) n) as [Hle|Hgt].
    + destruct H1 as [Hc1 Hm1]. rewrite Hm1, Hp, Ht, Ht1 in Hc. simpl in Hc.
      destruct (Z.eqb_spec (s32 (ticks s + n)) (s32 (ticks s + Z.of_nat m))) as [E|E].
      * apply s32_inj in E; [|lia..]. subst n. rewrite (proj2 (Z.leb_gt _ _)) by lia.
        destruct Hc as [Hc Hp2]. split; [done|]. rewrite Hc, Hc1, Ht2.
        by replace (ticks s + Z.of_nat (S m)) with (ticks s + Z.of_nat m + 1) by lia.
      * rewrite (proj2 (Z.leb_le _ _)); [|destruct (decide (Z.of_nat m = n)); [subst; done|lia]].
        destruct Hc. split; congruence.
    + destruct H1 as [Hp1 Hc1]. rewrite Hp1 in Hc. simpl in Hc. destruct Hc as [Hc2 Hm2].
      rewrite (proj2 (Z.leb_gt _ _)) by lia. split; congruence.
Qed.

(** ** The contract of the timer interface *)

(** C1. A callout armed with [callout_reset] for [n] ticks, on a wheel whose
    functions may arm and stop other callouts in any way, is called exactly
    once: not during the first [n] clock ticks and exactly at tick [n + 1],
    with the function and argument given, for every later number of ticks;
    the clock terminates at each tick. *)
Theorem callout_fires_on_time (c : nat) (n f a : Z) (s : callout_cpu) (m : nat) :
  quiet s -> untouched c -> is_curr s false c = false -> 1 <= n <= INT_MAX ->
  Z.of_nat m < 2 ^ 32 ->
  exists s1 z s2, callout_reset mask c n f a s = Done (s1, z) /\ ticks_run m s1 s2 /\
    calls_of c s2 = calls_of c s ++
      (if Z.of_nat m <=? n then []
       else [Firing (s32 (ticks s + n + 1)) c (s32 (ticks s + n)) (Some f) a]).
Proof.
  intros (HI & Hs & Hi) Hu Hcur Hn Hm.
  destruct (reset_spec (s32 (ticks s)) [] c n f a (-1) C_HARDCLOCK s) as (s1 & z & E & HI1 & R);
    [done|apply Hu|by left|lia| |].
  { intros k Hk Ek. assert (s32 (ticks s + k) = s32 (ticks s + 0)) as E by (by rewrite Z.add_0_r).
    unfold INT_MAX in Hk. apply s32_inj in E; lia. }
  assert (Harm : pend (mem s1 c) = true /\ c_time (mem s1 c) = s32 (ticks s1 + n) /\
                 c_func (mem s1 c) = Some f /\ c_arg (mem s1 c) = a).
  { revert E. unfold callout_reset_tick_on. change (negb (-1 =? -1) && _) with false.
    change (flag C_HARDCLOCK C_DIRECT_EXEC) with false. rewrite Hcur. cbn [andb].
    rewrite (proj2 (Z.leb_gt n 0)) by lia. rewrite (or_ticks _ _ _ _ R).
    destruct (flag (c_iflags (mem s c)) CALLOUT_PENDING) eqn:Ep; intros [= <- _].
    1: fold (unlink c s); rewrite (unlink_eq []) by done.
    all: rewrite add_eq; cbn [mem ticks]; rewrite fn_lookup_insert; split; [apply pend_armed|done]. }
  destruct Harm as (Hp1 & Ht1 & Hf1 & Ha1).
  assert (Hq1 : quiet s1).
  { split_and!; [done|by rewrite (or_soft _ _ _ _ R), (or_ticks _ _ _ _ R)|by rewrite (or_ticks _ _ _ _ R)]. }
  destruct (pending_run c n s1 Hq1 Hu Hp1 ltac:(unfold INT_MAX in Hn; lia) Ht1 m Hm) as (s2 & Hr & _ & _ & H2).
  exists s1, z, s2. split_and!; [done|done|].
  rewrite (or_ticks _ _ _ _ R), Hf1, Ha1 in H2. unfold calls_of in *.
  rewrite (or_fired _ _ _ _ R) in H2. destruct (Z.of_nat m <=? n).
  - destruct H2 as [-> _]. by rewrite app_nil_r.
  - apply H2.
Qed.

(** C6. [callout_stop] on a callout that is not running returns 1 when it was
    pending and -1 when it was not, and the callout is not called at any later
    tick. *)
Theorem callout_stop_prevents (c : nat) (s : callout_cpu) (m : nat) :
  quiet s -> untouched c ->
  is_curr s (flag (c_iflags (mem s c)) CALLOUT_DIRECT) c = false ->
  exists s1 s2, callout_stop mask c s = Done (s1, if pend (mem s c) then 1 else -1) /\
    ticks_run m s1 s2 /\ calls_of c s2 = calls_of c s.
Proof.
  intros (HI & Hs & Hi) Hu Hcur.
  destruct (stop_spec 0 [] c 0 None s) as (s1 & z & E & HI1 & R); [done..|]. specialize (E 0%nat).
  assert (H1 : z = (if pend (mem s c) then 1 else -1) /\ pend (mem s1 c) = false).
  { revert E. unfold _callout_stop_safe. cbn [stop_again].
    pose proof (wf_migrating _ _ (I_wf _ _ HI c)) as Hmg. unfold migrating in Hmg. rewrite Hmg. cbn [andb].
    rewrite Hcur. unfold stop_tail. fold (pend (mem s c)).
    destruct (pend (mem s c)) eqn:Ep; cbn [negb].
    - fold (unlink c s). intros [= <- <-]. split; [done|].
      unfold callout_cc_del. rewrite (unlink_eq []) by done. simpl. rewrite !fn_lookup_insert.
      pose proof (pend_clear (mem s c)) as Hcl. destruct (negb _); simpl; rewrite ?fn_lookup_insert; exact Hcl.
    - rewrite Hcur. by intros [= <- <-]. }
  destruct H1 as [-> Hp1].
  assert (Hq1 : quiet s1).
  { split_and!; [done|by rewrite (or_soft _ _ _ _ R), (or_ticks _ _ _ _ R)|by rewrite (or_ticks _ _ _ _ R)]. }
  destruct (idle_run c s1 Hq1 Hu Hp1 m) as (s2 & Hr & _ & Hc & _).
  exists s1, s2. split_and!; [done|done|]. rewrite Hc. unfold calls_of. by rewrite (or_fired _ _ _ _ R).
Qed.

(** [timeout] takes the first free callout of the pool, if it is not running. *)
Lemma timeout_spec f a to s new free :
  quiet s -> cc_callfree s = new :: free -> is_curr s false new = false ->
  exists s', timeout mask f a to s = Done (s', new) /\ quiet s' /\ pend (mem s' new) = true /\ cc_callfree s' = free.
Proof.
  intros (HI & Hs & Hi) Ef Hc. destruct (I_free_pool _ _ HI new) as (Hp & Hn & _); [rewrite Ef; left|].
  assert (HI1 : Inv [new] (with_callfree free s)).
  { destruct HI as [Iwf Iw Ind Inx If Ifp Ir Ip]. rewrite Ef in *. apply NoDup_cons in If as [Hnew If].
    split; simpl; try done.
    - intros c Hin. destruct (Ifp c) as (? & ? & _); [by right|]. split_and!; [done|done|]. set_solver.
    - by intros c ->%list_elem_of_singleton _.
    - intros c Hpc. destruct (Ip c Hpc) as [[->|?]%elem_of_cons|[?|?%elem_of_nil]]; [|by left|by auto|done].
      right; right; left. }
  unfold timeout, callout_reset, callout_reset_tick_on. rewrite Ef.
  change (flag C_HARDCLOCK C_DIRECT_EXEC) with false.
  change (is_curr (with_callfree free s) false new) with (is_curr s false new). rewrite Hc. cbn [negb andb Z.eqb].
  change (flag (c_iflags (mem (with_callfree free s) new)) CALLOUT_PENDING) with (pend (mem s new)). rewrite Hn.
  eexists. split; [done|]. rewrite add_eq. split; [split; [rewrite <- add_eq|done]|].
  - eapply Inv_add; [exact HI1|done| |].
    + simpl. destruct HI as [_ _ _ _ If _ _ _]. rewrite Ef in If. by apply NoDup_cons in If as [? _].
    + intros x _. rewrite list_elem_of_singleton. split; [by intros ?%elem_of_nil|naive_solver].
  - simpl. rewrite fn_lookup_insert. split; [apply pend_armed|done].
Qed.

(** C2. The wheel invariant: buckets hold exactly the pending callouts, once, in
    the bucket of their time; every callout of the [timeout] pool is free or
    pending.  It is kept, and the call returns, by callout_reset of a callout that
    is not of the pool, with at most INT_MAX ticks and a valid cpu or -1, by
    callout_stop without CS_DRAIN, which would wait for a running callout, and
    by untimeout ([op_ok]); by timeout, which panics when no callout of the
    pool is free and otherwise takes the first one, unless that one is recorded as
    running; and by every clock tick, which returns when the functions of the
    callouts do only the first three (client_ok), and after which no callout with
    the time of the tick it processed is still pending. *)
Theorem callout_inv_preserved (s : callout_cpu) (op : co_op) :
  quiet s -> op_ok op = true ->
  (exists s', (forall fuel, run_op mask (S fuel) op s = Done s') /\ quiet s') /\
  (forall f a to,
     match cc_callfree s with
     | [] => timeout mask f a to s = Fault
     | new :: free =>
         is_curr s false new = false ->
         exists s', timeout mask f a to s = Done (s', new) /\ quiet s' /\ pend (mem s' new) = true /\ cc_callfree s' = free
     end) /\
  (exists s', hardclock_returns s s' /\ quiet s' /\
     forall c, pend (mem s' c) = true -> c_time (mem s' c) <> ticks s).
Proof.
  intros Hq Hop. split_and!.
  - destruct Hq as (HI & Hs & Hi).
    destruct (run_op_spec (s32 (ticks s)) [] op s) as (s' & E & HI' & R); [done|done| |].
    { intros k Hk Ek. assert (s32 (ticks s + k) = s32 (ticks s + 0)) as E by (by rewrite Z.add_0_r).
      unfold INT_MAX in Hk. apply s32_inj in E; lia. }
    exists s'. split; [done|]. split_and!; [done| |]; by rewrite ?(or_soft _ _ _ _ R), (or_ticks _ _ _ _ R).
  - intros f a to. destruct (cc_callfree s) as [|new free] eqn:Ef; [unfold timeout; by rewrite Ef|].
    intros Hc. by eapply timeout_spec.
  - destruct (hardclock_quiet s Hq) as (s' & Hr & Hq' & Htd). exists s'. split_and!; [done|done|].
    apply Htd.
Qed.

End proofs.

(** The state set up by [callout_cpu_init] satisfies the invariant. *)
Lemma init_quiet mask ncallout cpu m :
  (forall c, (ncallout <= c)%nat -> wf_callout false (m c) /\ pend (m c) = false) ->
  quiet mask (fun c => (c <? ncallout)%nat) (callout_cpu_init ncallout cpu m).
Proof.
  intros Hm. set (pl := fun c : nat => (c <? ncallout)%nat).
  assert (Hmem : forall c, wf_callout (pl c) (mem (callout_cpu_init ncallout cpu m) c) /\
    pend (mem (callout_cpu_init ncallout cpu m) c) = false).
  { intros c. simpl. unfold pl. destruct (Nat.ltb_spec c ncallout); [|by apply Hm].
    split; [|done]. by split. }
  split_and!; [|done|split; simpl; unfold INT_MIN, INT_MAX; lia]. split.
  - intros c. apply Hmem.
  - intros b c. destruct (Hmem c) as [_ ->]. simpl. split; [by intros ?%elem_of_nil|by intros [? _]].
  - intros b. constructor.
  - done.
  - simpl. apply NoDup_ListNoDup, NoDup_rev, seq_NoDup.
  - intros c Hc. split_and!; [|apply Hmem|set_solver].
    simpl in Hc. rewrite list_elem_of_In, <- in_rev, in_seq in Hc.
    unfold pl. apply Nat.ltb_lt. lia.
  - intros c Hc. by apply elem_of_nil in Hc.
  - intros c Hc. left. simpl. rewrite list_elem_of_In, <- in_rev, in_seq.
    unfold pl in Hc. apply Nat.ltb_lt in Hc. lia.
Qed.

(** A machine with a pool of 3 callouts on which the function of callout 9
    re-arms 9 and stops 8. *)
Definition sample_pool (c : nat) : bool := (c <? 3)%nat.
Definition sample_client (s : callout_cpu) (f : option Z) (a : Z) : list co_op :=
  if a =? 9 then [OpReset 9 4 100 9 (-1) C_HARDCLOCK; OpStop 8 0 None] else [].
Definition sample_state : callout_cpu := callout_cpu_init 3 0 (fun _ => callout_init true 0).

Lemma sample_ok : forall s f a, forallb (op_ok sample_pool) (sample_client s f a) = true.
Proof. intros s f a. unfold sample_client. by destruct (a =? 9). Qed.

Lemma sample_untouched : untouched sample_client sample_pool 5.
Proof.
  split; [done|]. intros s f a op. unfold sample_client. destruct (a =? 9); [|by intros ?%elem_of_nil].
  intros [->|[->|?%elem_of_nil]%elem_of_cons]%elem_of_cons; done.
Qed.

Lemma sample_quiet : quiet 7 sample_pool sample_state.
Proof. apply init_quiet. intros c Hc. split; [by split|done]. Qed.

Lemma callout_fires_on_time_witness :
  exists s1 z s2, callout_reset 7 5 2 77 8 sample_state = Done (s1, z) /\
    ticks_run 7 sample_client 3 s1 s2 /\
    calls_of 5 s2 = [Firing 3 5 2 (Some 77) 8].
Proof.
  apply (callout_fires_on_time 7 sample_client sample_pool sample_ok 5 2 77 8 sample_state 3
    sample_quiet sample_untouched eq_refl); unfold INT_MAX; lia.
Defined.

Lemma callout_stop_prevents_witness :
  exists s1 s2, callout_stop 7 5 sample_state = Done (s1, -1) /\
    ticks_run 7 sample_client 9 s1 s2 /\ calls_of 5 s2 = [].
Proof.
  exact (callout_stop_prevents 7 sample_client sample_pool sample_ok 5 sample_state 9
    sample_quiet sample_untouched eq_refl).
Defined.

Lemma callout_inv_preserved_witness :
  (exists s', (forall fuel, run_op 7 (S fuel) (OpReset 9 4 100 9 (-1) C_HARDCLOCK) sample_state = Done s') /\
     quiet 7 sample_pool s') /\
  (exists s', timeout 7 5 6 10 sample_state = Done (s', 2%nat) /\ quiet 7 sample_pool s' /\
     pend (mem s' 2%nat) = true /\ cc_callfree s' = [1; 0]%nat) /\
  (exists s', hardclock_returns 7 sample_client sample_state s' /\ quiet 7 sample_pool s' /\
     forall c, pend (mem s' c) = true -> c_time (mem s' c) <> ticks sample_state).
Proof.
  destruct (callout_inv_preserved 7 sample_client sample_pool sample_ok sample_state
    (OpReset 9 4 100 9 (-1) C_HARDCLOCK) sample_quiet eq_refl) as (H1 & H2 & H3).
  split; [exact H1|]. split; [exact (H2 5 6 10 eq_refl)|exact H3].
Defined.

(** The wheel built for [ncallout] entries has a power of two of buckets, more
    than the entries, and a time falls in bucket [time mod size]. *)
Lemma callwheel_bucket n t :
  0 <= n -> n < callwheelsize n /\
  callout_get_bucket (callwheelsize n - 1) t = t mod callwheelsize n.
Proof.
  intros Hn. unfold callwheelsize, callout_get_bucket, fls. rewrite Z.shiftl_1_l.
  destruct (Z.leb_spec n 0) as [|Hpos].
  - replace n with 0 by lia. split; [done|]. apply (land_pred_pow2 t 0). lia.
  - pose proof (Z.log2_nonneg n). split; [apply Z.log2_spec; lia|]. by apply land_pred_pow2; lia.
Qed.
