(* ===== verification/Memory.v ===== *)
(** Byte stores: the buffers that the C code shares between callers and
    callees.  A pointer is an offset; a write outside the store is [Fault].
    Source and destination of a copy may be the same or overlap, as for
    [bcopy]. *)
From stdpp Require Import base list.
From Stdlib Require Import ZArith Lia.
From S2P Require Import Prelude.

Local Open Scope Z_scope.

Definition mwrite (mem : list Z) (off b : Z) : outcome (list Z) :=
  if (0 <=? off) && (off <? Z.of_nat (length mem)) then Done (<[Z.to_nat off := b]> mem) else Fault.

(** [bcopy(src, dst, n)] *)
Definition bcopy (mem : list Z) (src dst n : Z) : outcome (list Z) :=
  if (0 <=? src) && (0 <=? dst) && (src + n <=? Z.of_nat (length mem)) && (dst + n <=? Z.of_nat (length mem))
  then Done (take (Z.to_nat dst) mem ++ take (Z.to_nat n) (drop (Z.to_nat src) mem) ++
             drop (Z.to_nat (dst + n)) mem)
  else Fault.

(** [mread] at a nonnegative offset as a list lookup. *)
Definition at_ (mem : list Z) (i : Z) : option Z := mem !! Z.to_nat i.

Lemma mread_at_ mem i b : at_ mem i = Some b -> mread mem i = Done b.
Proof. unfold at_, mread. by intros ->. Qed.

Lemma at_some mem i : 0 <= i < Z.of_nat (length mem) -> exists b, at_ mem i = Some b.
Proof. intros. apply lookup_lt_is_Some_2. lia. Qed.

Lemma mwrite_ok mem off b :
  0 <= off < Z.of_nat (length mem) -> mwrite mem off b = Done (<[Z.to_nat off := b]> mem).
Proof.
  intros. unfold mwrite. by rewrite (proj2 (Z.leb_le _ _)), (proj2 (Z.ltb_lt _ _)) by lia.
Qed.

Lemma at_write_eq mem off b :
  0 <= off < Z.of_nat (length mem) -> at_ (<[Z.to_nat off := b]> mem) off = Some b.
Proof. intros. apply list_lookup_insert_eq. lia. Qed.

Lemma at_write_ne mem off b i :
  0 <= off -> 0 <= i -> i <> off -> at_ (<[Z.to_nat off := b]> mem) i = at_ mem i.
Proof. intros. apply list_lookup_insert_ne. lia. Qed.

Lemma bcopy_ok mem src dst n :
  0 <= src -> 0 <= dst -> 0 <= n ->
  src + n <= Z.of_nat (length mem) -> dst + n <= Z.of_nat (length mem) ->
  exists mem', bcopy mem src dst n = Done mem' /\ length mem' = length mem /\
    (forall i, 0 <= i < n -> at_ mem' (dst + i) = at_ mem (src + i)) /\
    (forall i, 0 <= i -> i < dst \/ dst + n <= i -> at_ mem' i = at_ mem i).
Proof.
  intros Hs Hd Hn H1 H2. unfold bcopy.
  rewrite !(proj2 (Z.leb_le _ _)) by lia. simpl. eexists; split; [done|].
  assert (Hlt : length (take (Z.to_nat dst) mem) = Z.to_nat dst) by (rewrite length_take; lia).
  assert (Hlm : length (take (Z.to_nat n) (drop (Z.to_nat src) mem)) = Z.to_nat n)
    by (rewrite length_take, length_drop; lia).
  split_and!.
  - rewrite !length_app, Hlt, Hlm, length_drop. lia.
  - intros i Hi. unfold at_. rewrite lookup_app_r by lia. rewrite lookup_app_l by lia.
    rewrite Hlt, lookup_take_lt, lookup_drop by lia. f_equal. lia.
  - intros i Hi0 [Hi|Hi]; unfold at_.
    + rewrite lookup_app_l, lookup_take_lt by lia. done.
    + rewrite lookup_app_r, lookup_app_r by lia. rewrite Hlt, Hlm, lookup_drop. f_equal. lia.
Qed.

(** Copying a region onto itself changes nothing. *)
Lemma bcopy_self mem p n :
  0 <= p -> 0 <= n -> p + n <= Z.of_nat (length mem) -> bcopy mem p p n = Done mem.
Proof.
  intros. destruct (bcopy_ok mem p p n) as (mem' & -> & Hl & Hin & Hout); [lia..|].
  f_equal. apply list_eq. intros i. destruct (decide (p <= Z.of_nat i < p + n)).
  - specialize (Hin (Z.of_nat i - p)). unfold at_ in Hin.
    replace (Z.to_nat (p + (Z.of_nat i - p))) with i in Hin by lia. apply Hin. lia.
  - specialize (Hout (Z.of_nat i)). unfold at_ in Hout. rewrite Nat2Z.id in Hout. apply Hout; lia.
Qed.
