(* ===== verification/AbiTables.v ===== *)
(** The Linux/FreeBSD translations of src/lib/ff_syscall_wrapper.c (options,
    ioctl requests, socket addresses) and of src/lib/ff_host_interface.c
    (error numbers).

    The C switches whose cases return constants are tables searched in
    order.  The struct sizes inside the FreeBSD ioctl numbers are those of the
    amd64 build. *)
From stdpp Require Import base list sets.
From Stdlib Require Import ZArith Lia.
From S2P Require Import Prelude Memory.

Local Open Scope Z_scope.

(** A C switch whose cases return constants. *)
Fixpoint switch (table : list (Z * Z)) (x dflt : Z) : Z :=
  match table with
  | [] => dflt
  | (k, v) :: r => if x =? k then v else switch r x dflt
  end.

(** ** Error numbers: ff_errno.h and the Linux host *)

Definition ff_EPERM : Z := 1.
Definition ff_ENOENT : Z := 2.
Definition ff_ESRCH : Z := 3.
Definition ff_EINTR : Z := 4.
Definition ff_EIO : Z := 5.
Definition ff_ENXIO : Z := 6.
Definition ff_E2BIG : Z := 7.
Definition ff_ENOEXEC : Z := 8.
Definition ff_EBADF : Z := 9.
Definition ff_ECHILD : Z := 10.
Definition ff_EDEADLK : Z := 11.
Definition ff_ENOMEM : Z := 12.
Definition ff_EACCES : Z := 13.
Definition ff_EFAULT : Z := 14.
Definition ff_ENOTBLK : Z := 15.
Definition ff_EBUSY : Z := 16.
Definition ff_EEXIST : Z := 17.
Definition ff_EXDEV : Z := 18.
Definition ff_ENODEV : Z := 19.
Definition ff_ENOTDIR : Z := 20.
Definition ff_EISDIR : Z := 21.
Definition ff_EINVAL : Z := 22.
Definition ff_ENFILE : Z := 23.
Definition ff_EMFILE : Z := 24.
Definition ff_ENOTTY : Z := 25.
Definition ff_ETXTBSY : Z := 26.
Definition ff_EFBIG : Z := 27.
Definition ff_ENOSPC : Z := 28.
Definition ff_ESPIPE : Z := 29.
Definition ff_EROFS : Z := 30.
Definition ff_EMLINK : Z := 31.
Definition ff_EPIPE : Z := 32.
Definition ff_EDOM : Z := 33.
Definition ff_ERANGE : Z := 34.
Definition ff_EAGAIN : Z := 35.
Definition ff_EWOULDBLOCK : Z := ff_EAGAIN.
Definition ff_EINPROGRESS : Z := 36.
Definition ff_EALREADY : Z := 37.
Definition ff_ENOTSOCK : Z := 38.
Definition ff_EDESTADDRREQ : Z := 39.
Definition ff_EMSGSIZE : Z := 40.
Definition ff_EPROTOTYPE : Z := 41.
Definition ff_ENOPROTOOPT : Z := 42.
Definition ff_EPROTONOSUPPORT : Z := 43.
Definition ff_ESOCKTNOSUPPORT : Z := 44.
Definition ff_EOPNOTSUPP : Z := 45.
Definition ff_ENOTSUP : Z := ff_EOPNOTSUPP.
Definition ff_EPFNOSUPPORT : Z := 46.
Definition ff_EAFNOSUPPORT : Z := 47.
Definition ff_EADDRINUSE : Z := 48.
Definition ff_EADDRNOTAVAIL : Z := 49.
Definition ff_ENETDOWN : Z := 50.
Definition ff_ENETUNREACH : Z := 51.
Definition ff_ENETRESET : Z := 52.
Definition ff_ECONNABORTED : Z := 53.
Definition ff_ECONNRESET : Z := 54.
Definition ff_ENOBUFS : Z := 55.
Definition ff_EISCONN : Z := 56.
Definition ff_ENOTCONN : Z := 57.
Definition ff_ESHUTDOWN : Z := 58.
Definition ff_ETOOMANYREFS : Z := 59.
Definition ff_ETIMEDOUT : Z := 60.
Definition ff_ECONNREFUSED : Z := 61.
Definition ff_ELOOP : Z := 62.
Definition ff_ENAMETOOLONG : Z := 63.
Definition ff_EHOSTDOWN : Z := 64.
Definition ff_EHOSTUNREACH : Z := 65.
Definition ff_ENOTEMPTY : Z := 66.
Definition ff_EPROCLIM : Z := 67.
Definition ff_EUSERS : Z := 68.
Definition ff_EDQUOT : Z := 69.
Definition ff_ESTALE : Z := 70.
Definition ff_EREMOTE : Z := 71.
Definition ff_EBADRPC : Z := 72.
Definition ff_ERPCMISMATCH : Z := 73.
Definition ff_EPROGUNAVAIL : Z := 74.
Definition ff_EPROGMISMATCH : Z := 75.
Definition ff_EPROCUNAVAIL : Z := 76.
Definition ff_ENOLCK : Z := 77.
Definition ff_ENOSYS : Z := 78.
Definition ff_EFTYPE : Z := 79.
Definition ff_EAUTH : Z := 80.
Definition ff_ENEEDAUTH : Z := 81.
Definition ff_EIDRM : Z := 82.
Definition ff_ENOMSG : Z := 83.
Definition ff_EOVERFLOW : Z := 84.
Definition ff_ECANCELED : Z := 85.
Definition ff_EILSEQ : Z := 86.
Definition ff_ENOATTR : Z := 87.
Definition ff_EDOOFUS : Z := 88.
Definition ff_EBADMSG : Z := 89.
Definition ff_EMULTIHOP : Z := 90.
Definition ff_ENOLINK : Z := 91.
Definition ff_EPROTO : Z := 92.
Definition ff_ENOTCAPABLE : Z := 93.
Definition ff_ECAPMODE : Z := 94.
Definition ff_ENOTRECOVERABLE : Z := 95.
Definition ff_EOWNERDEAD : Z := 96.

Definition EPERM : Z := 1.
Definition ENOENT : Z := 2.
Definition ESRCH : Z := 3.
Definition EINTR : Z := 4.
Definition EIO : Z := 5.
Definition ENXIO : Z := 6.
Definition E2BIG : Z := 7.
Definition ENOEXEC : Z := 8.
Definition EBADF : Z := 9.
Definition ECHILD : Z := 10.
Definition EDEADLK : Z := 35.
Definition ENOMEM : Z := 12.
Definition EACCES : Z := 13.
Definition EFAULT : Z := 14.
Definition ENOTBLK : Z := 15.
Definition EBUSY : Z := 16.
Definition EEXIST : Z := 17.
Definition EXDEV : Z := 18.
Definition ENODEV : Z := 19.
Definition ENOTDIR : Z := 20.
Definition EISDIR : Z := 21.
Definition EINVAL : Z := 22.
Definition ENFILE : Z := 23.
Definition EMFILE : Z := 24.
Definition ENOTTY : Z := 25.
Definition ETXTBSY : Z := 26.
Definition EFBIG : Z := 27.
Definition ENOSPC : Z := 28.
Definition ESPIPE : Z := 29.
Definition EROFS : Z := 30.
Definition EMLINK : Z := 31.
Definition EPIPE : Z := 32.
Definition EDOM : Z := 33.
Definition ERANGE : Z := 34.
Definition EWOULDBLOCK : Z := 11.
Definition EINPROGRESS : Z := 115.
Definition EALREADY : Z := 114.
Definition ENOTSOCK : Z := 88.
Definition EDESTADDRREQ : Z := 89.
Definition EMSGSIZE : Z := 90.
Definition EPROTOTYPE : Z := 91.
Definition ENOPROTOOPT : Z := 92.
Definition EPROTONOSUPPORT : Z := 93.
Definition ESOCKTNOSUPPORT : Z := 94.
Definition ENOTSUP : Z := 95.
Definition EPFNOSUPPORT : Z := 96.
Definition EAFNOSUPPORT : Z := 97.
Definition EADDRINUSE : Z := 98.
Definition EADDRNOTAVAIL : Z := 99.
Definition ENETDOWN : Z := 100.
Definition ENETUNREACH : Z := 101.
Definition ENETRESET : Z := 102.
Definition ECONNABORTED : Z := 103.
Definition ECONNRESET : Z := 104.
Definition ENOBUFS : Z := 105.
Definition EISCONN : Z := 106.
Definition ENOTCONN : Z := 107.
Definition ESHUTDOWN : Z := 108.
Definition ETOOMANYREFS : Z := 109.
Definition ETIMEDOUT : Z := 110.
Definition ECONNREFUSED : Z := 111.
Definition ELOOP : Z := 40.
Definition ENAMETOOLONG : Z := 36.
Definition EHOSTDOWN : Z := 112.
Definition EHOSTUNREACH : Z := 113.
Definition ENOTEMPTY : Z := 39.
Definition EUSERS : Z := 87.
Definition EDQUOT : Z := 122.
Definition ESTALE : Z := 116.
Definition EREMOTE : Z := 66.
Definition ENOLCK : Z := 37.
Definition ENOSYS : Z := 38.
Definition EIDRM : Z := 43.
Definition ENOMSG : Z := 42.
Definition EOVERFLOW : Z := 75.
Definition ECANCELED : Z := 125.
Definition EILSEQ : Z := 84.
Definition EBADMSG : Z := 74.
Definition EMULTIHOP : Z := 72.
Definition ENOLINK : Z := 67.
Definition EPROTO : Z := 71.

Definition errno_table : list (Z * Z) := [
  (ff_EPERM, EPERM); (ff_ENOENT, ENOENT);
  (ff_ESRCH, ESRCH); (ff_EINTR, EINTR);
  (ff_EIO, EIO); (ff_ENXIO, ENXIO);
  (ff_E2BIG, E2BIG); (ff_ENOEXEC, ENOEXEC);
  (ff_EBADF, EBADF); (ff_ECHILD, ECHILD);
  (ff_EDEADLK, EDEADLK); (ff_ENOMEM, ENOMEM);
  (ff_EACCES, EACCES); (ff_EFAULT, EFAULT);
  (ff_ENOTBLK, ENOTBLK); (ff_EBUSY, EBUSY);
  (ff_EEXIST, EEXIST); (ff_EXDEV, EXDEV);
  (ff_ENODEV, ENODEV); (ff_ENOTDIR, ENOTDIR);
  (ff_EISDIR, EISDIR); (ff_EINVAL, EINVAL);
  (ff_ENFILE, ENFILE); (ff_EMFILE, EMFILE);
  (ff_ENOTTY, ENOTTY); (ff_ETXTBSY, ETXTBSY);
  (ff_EFBIG, EFBIG); (ff_ENOSPC, ENOSPC);
  (ff_ESPIPE, ESPIPE); (ff_EROFS, EROFS);
  (ff_EMLINK, EMLINK); (ff_EPIPE, EPIPE);
  (ff_EDOM, EDOM); (ff_ERANGE, ERANGE);
  (ff_EWOULDBLOCK, EWOULDBLOCK); (ff_EINPROGRESS, EINPROGRESS);
  (ff_EALREADY, EALREADY); (ff_ENOTSOCK, ENOTSOCK);
  (ff_EDESTADDRREQ, EDESTADDRREQ); (ff_EMSGSIZE, EMSGSIZE);
  (ff_EPROTOTYPE, EPROTOTYPE); (ff_ENOPROTOOPT, ENOPROTOOPT);
  (ff_EPROTONOSUPPORT, EPROTONOSUPPORT); (ff_ESOCKTNOSUPPORT, ESOCKTNOSUPPORT);
  (ff_ENOTSUP, ENOTSUP); (ff_EPFNOSUPPORT, EPFNOSUPPORT);
  (ff_EAFNOSUPPORT, EAFNOSUPPORT); (ff_EADDRINUSE, EADDRINUSE);
  (ff_EADDRNOTAVAIL, EADDRNOTAVAIL); (ff_ENETDOWN, ENETDOWN);
  (ff_ENETUNREACH, ENETUNREACH); (ff_ENETRESET, ENETRESET);
  (ff_ECONNABORTED, ECONNABORTED); (ff_ECONNRESET, ECONNRESET);
  (ff_ENOBUFS, ENOBUFS); (ff_EISCONN, EISCONN);
  (ff_ENOTCONN, ENOTCONN); (ff_ESHUTDOWN, ESHUTDOWN);
  (ff_ETOOMANYREFS, ETOOMANYREFS); (ff_ETIMEDOUT, ETIMEDOUT);
  (ff_ECONNREFUSED, ECONNREFUSED); (ff_ELOOP, ELOOP);
  (ff_ENAMETOOLONG, ENAMETOOLONG); (ff_EHOSTDOWN, EHOSTDOWN);
  (ff_EHOSTUNREACH, EHOSTUNREACH); (ff_ENOTEMPTY, ENOTEMPTY);
  (ff_EUSERS, EUSERS); (ff_EDQUOT, EDQUOT);
  (ff_ESTALE, ESTALE); (ff_EREMOTE, EREMOTE);
  (ff_ENOLCK, ENOLCK); (ff_ENOSYS, ENOSYS);
  (ff_EIDRM, EIDRM); (ff_ENOMSG, ENOMSG);
  (ff_EOVERFLOW, EOVERFLOW); (ff_ECANCELED, ECANCELED);
  (ff_EILSEQ, EILSEQ); (ff_EBADMSG, EBADMSG);
  (ff_EMULTIHOP, EMULTIHOP); (ff_ENOLINK, ENOLINK);
  (ff_EPROTO, EPROTO) ].

(** The value assigned to [errno]. *)
Definition ff_os_errno (error : Z) : Z := switch errno_table error error.

(** ** Linux option and request numbers *)

Definition LINUX_SOL_SOCKET : Z := 1.
Definition LINUX_SO_DEBUG : Z := 1.
Definition LINUX_SO_REUSEADDR : Z := 2.
Definition LINUX_SO_ERROR : Z := 4.
Definition LINUX_SO_DONTROUTE : Z := 5.
Definition LINUX_SO_BROADCAST : Z := 6.
Definition LINUX_SO_SNDBUF : Z := 7.
Definition LINUX_SO_RCVBUF : Z := 8.
Definition LINUX_SO_KEEPALIVE : Z := 9.
Definition LINUX_SO_OOBINLINE : Z := 10.
Definition LINUX_SO_LINGER : Z := 13.
Definition LINUX_SO_REUSEPORT : Z := 15.
Definition LINUX_SO_RCVLOWAT : Z := 18.
Definition LINUX_SO_SNDLOWAT : Z := 19.
Definition LINUX_SO_RCVTIMEO : Z := 20.
Definition LINUX_SO_SNDTIMEO : Z := 21.
Definition LINUX_SO_ACCEPTCONN : Z := 30.
Definition LINUX_SO_PROTOCOL : Z := 38.
Definition LINUX_IP_TOS : Z := 1.
Definition LINUX_IP_TTL : Z := 2.
Definition LINUX_IP_HDRINCL : Z := 3.
Definition LINUX_IP_OPTIONS : Z := 4.
Definition LINUX_IP_MULTICAST_IF : Z := 32.
Definition LINUX_IP_MULTICAST_TTL : Z := 33.
Definition LINUX_IP_MULTICAST_LOOP : Z := 34.
Definition LINUX_IP_ADD_MEMBERSHIP : Z := 35.
Definition LINUX_IP_DROP_MEMBERSHIP : Z := 36.
Definition LINUX_TCP_NODELAY : Z := 1.
Definition LINUX_TCP_MAXSEG : Z := 2.
Definition LINUX_TCP_KEEPIDLE : Z := 4.
Definition LINUX_TCP_KEEPINTVL : Z := 5.
Definition LINUX_TCP_KEEPCNT : Z := 6.
Definition LINUX_TCP_INFO : Z := 11.
Definition LINUX_TCP_MD5SIG : Z := 14.
Definition LINUX_TIOCEXCL : Z := 0x540C.
Definition LINUX_TIOCNXCL : Z := 0x540D.
Definition LINUX_TIOCSCTTY : Z := 0x540E.
Definition LINUX_TIOCGPGRP : Z := 0x540F.
Definition LINUX_TIOCSPGRP : Z := 0x5410.
Definition LINUX_TIOCOUTQ : Z := 0x5411.
Definition LINUX_TIOCSTI : Z := 0x5412.
Definition LINUX_TIOCGWINSZ : Z := 0x5413.
Definition LINUX_TIOCSWINSZ : Z := 0x5414.
Definition LINUX_TIOCMGET : Z := 0x5415.
Definition LINUX_TIOCMBIS : Z := 0x5416.
Definition LINUX_TIOCMBIC : Z := 0x5417.
Definition LINUX_TIOCMSET : Z := 0x5418.
Definition LINUX_FIONREAD : Z := 0x541B.
Definition LINUX_TIOCCONS : Z := 0x541D.
Definition LINUX_TIOCPKT : Z := 0x5420.
Definition LINUX_FIONBIO : Z := 0x5421.
Definition LINUX_TIOCNOTTY : Z := 0x5422.
Definition LINUX_TIOCSETD : Z := 0x5423.
Definition LINUX_TIOCGETD : Z := 0x5424.
Definition LINUX_TIOCSBRK : Z := 0x5427.
Definition LINUX_TIOCCBRK : Z := 0x5428.
Definition LINUX_TIOCGSID : Z := 0x5429.
Definition LINUX_FIONCLEX : Z := 0x5450.
Definition LINUX_FIOCLEX : Z := 0x5451.
Definition LINUX_FIOASYNC : Z := 0x5452.
Definition LINUX_TIOCPKT_DATA : Z := 0.
Definition LINUX_TIOCPKT_FLUSHREAD : Z := 1.
Definition LINUX_TIOCPKT_FLUSHWRITE : Z := 2.
Definition LINUX_TIOCPKT_STOP : Z := 4.
Definition LINUX_TIOCPKT_START : Z := 8.
Definition LINUX_TIOCPKT_NOSTOP : Z := 16.
Definition LINUX_TIOCPKT_DOSTOP : Z := 32.
Definition LINUX_TIOCPKT_IOCTL : Z := 64.
Definition LINUX_SIOCGIFCONF : Z := 0x8912.
Definition LINUX_SIOCGIFFLAGS : Z := 0x8913.
Definition LINUX_SIOCSIFFLAGS : Z := 0x8914.
Definition LINUX_SIOCGIFADDR : Z := 0x8915.
Definition LINUX_SIOCSIFADDR : Z := 0x8916.
Definition LINUX_SIOCGIFDSTADDR : Z := 0x8917.
Definition LINUX_SIOCSIFDSTADDR : Z := 0x8918.
Definition LINUX_SIOCGIFBRDADDR : Z := 0x8919.
Definition LINUX_SIOCSIFBRDADDR : Z := 0x891a.
Definition LINUX_SIOCGIFNETMASK : Z := 0x891b.
Definition LINUX_SIOCSIFNETMASK : Z := 0x891c.
Definition LINUX_SIOCGIFMETRIC : Z := 0x891d.
Definition LINUX_SIOCSIFMETRIC : Z := 0x891e.
Definition LINUX_SIOCGIFMTU : Z := 0x8921.
Definition LINUX_SIOCSIFMTU : Z := 0x8922.
Definition LINUX_SIOCSIFNAME : Z := 0x8923.
Definition LINUX_SIOCADDMULTI : Z := 0x8931.
Definition LINUX_SIOCDELMULTI : Z := 0x8932.
Definition LINUX_SIOCGIFINDEX : Z := 0x8933.
Definition LINUX_SIOCDIFADDR : Z := 0x8936.

(** ** FreeBSD numbers *)

(** sys/ioccom.h *)
Definition _IOC (inout group num len : Z) : Z :=
  Z.lor (Z.lor (Z.lor inout (Z.shiftl (Z.land len 8191) 16)) (Z.shiftl group 8)) num.
Definition _IO (g n : Z) : Z := _IOC 0x20000000 g n 0.
Definition _IOR (g n len : Z) : Z := _IOC 0x40000000 g n len.
Definition _IOW (g n len : Z) : Z := _IOC 0x80000000 g n len.
Definition _IOWR (g n len : Z) : Z := _IOC 0xC0000000 g n len.

Definition IP_ADD_MEMBERSHIP : Z := 12.
Definition IP_DROP_MEMBERSHIP : Z := 13.
Definition IP_HDRINCL : Z := 2.
Definition IP_MULTICAST_IF : Z := 9.
Definition IP_MULTICAST_LOOP : Z := 11.
Definition IP_MULTICAST_TTL : Z := 10.
Definition IP_OPTIONS : Z := 1.
Definition IP_TOS : Z := 3.
Definition IP_TTL : Z := 4.
Definition SO_ACCEPTCONN : Z := 0x0002.
Definition SO_BROADCAST : Z := 0x0020.
Definition SO_DEBUG : Z := 0x0001.
Definition SO_DONTROUTE : Z := 0x0010.
Definition SO_ERROR : Z := 0x1007.
Definition SO_KEEPALIVE : Z := 0x0008.
Definition SO_LINGER : Z := 0x0080.
Definition SO_OOBINLINE : Z := 0x0100.
Definition SO_PROTOCOL : Z := 0x1016.
Definition SO_RCVBUF : Z := 0x1002.
Definition SO_RCVLOWAT : Z := 0x1004.
Definition SO_RCVTIMEO : Z := 0x1006.
Definition SO_REUSEADDR : Z := 0x0004.
Definition SO_REUSEPORT : Z := 0x0200.
Definition SO_SNDBUF : Z := 0x1001.
Definition SO_SNDLOWAT : Z := 0x1003.
Definition SO_SNDTIMEO : Z := 0x1005.
Definition TCP_INFO : Z := 32.
Definition TCP_KEEPCNT : Z := 1024.
Definition TCP_KEEPIDLE : Z := 256.
Definition TCP_KEEPINTVL : Z := 512.
Definition TCP_MAXSEG : Z := 2.
Definition TCP_MD5SIG : Z := 16.
Definition TCP_NODELAY : Z := 1.
Definition SOL_SOCKET : Z := 0xffff.
Definition IPPROTO_IP : Z := 0.
Definition IPPROTO_TCP : Z := 6.

Definition TIOCEXCL : Z := _IO 116 13.
Definition TIOCNXCL : Z := _IO 116 14.
Definition TIOCSCTTY : Z := _IO 116 97.
Definition TIOCGPGRP : Z := _IOR 116 119 4.
Definition TIOCSPGRP : Z := _IOW 116 118 4.
Definition TIOCOUTQ : Z := _IOR 116 115 4.
Definition TIOCSTI : Z := _IOW 116 114 1.
Definition TIOCGWINSZ : Z := _IOR 116 104 8.
Definition TIOCSWINSZ : Z := _IOW 116 103 8.
Definition TIOCMGET : Z := _IOR 116 106 4.
Definition TIOCMBIS : Z := _IOW 116 108 4.
Definition TIOCMBIC : Z := _IOW 116 107 4.
Definition TIOCMSET : Z := _IOW 116 109 4.
Definition FIONREAD : Z := _IOR 102 127 4.
Definition TIOCCONS : Z := _IOW 116 98 4.
Definition TIOCPKT : Z := _IOW 116 112 4.
Definition FIONBIO : Z := _IOW 102 126 4.
Definition TIOCNOTTY : Z := _IO 116 113.
Definition TIOCSETD : Z := _IOW 116 27 4.
Definition TIOCGETD : Z := _IOR 116 26 4.
Definition TIOCSBRK : Z := _IO 116 123.
Definition TIOCCBRK : Z := _IO 116 122.
Definition TIOCGSID : Z := _IOR 116 99 4.
Definition FIONCLEX : Z := _IO 102 2.
Definition FIOCLEX : Z := _IO 102 1.
Definition FIOASYNC : Z := _IOW 102 125 4.
Definition TIOCPKT_DATA : Z := 0x00.
Definition TIOCPKT_FLUSHREAD : Z := 0x01.
Definition TIOCPKT_FLUSHWRITE : Z := 0x02.
Definition TIOCPKT_STOP : Z := 0x04.
Definition TIOCPKT_START : Z := 0x08.
Definition TIOCPKT_NOSTOP : Z := 0x10.
Definition TIOCPKT_DOSTOP : Z := 0x20.
Definition TIOCPKT_IOCTL : Z := 0x40.
Definition SIOCGIFCONF : Z := _IOWR 105 36 16.
Definition SIOCGIFFLAGS : Z := _IOWR 105 17 32.
Definition SIOCSIFFLAGS : Z := _IOW 105 16 32.
Definition SIOCGIFADDR : Z := _IOWR 105 33 32.
Definition SIOCSIFADDR : Z := _IOW 105 12 32.
Definition SIOCGIFDSTADDR : Z := _IOWR 105 34 32.
Definition SIOCSIFDSTADDR : Z := _IOW 105 14 32.
Definition SIOCGIFBRDADDR : Z := _IOWR 105 35 32.
Definition SIOCSIFBRDADDR : Z := _IOW 105 19 32.
Definition SIOCGIFNETMASK : Z := _IOWR 105 37 32.
Definition SIOCSIFNETMASK : Z := _IOW 105 22 32.
Definition SIOCGIFMETRIC : Z := _IOWR 105 23 32.
Definition SIOCSIFMETRIC : Z := _IOW 105 24 32.
Definition SIOCGIFMTU : Z := _IOWR 105 51 32.
Definition SIOCSIFMTU : Z := _IOW 105 52 32.
Definition SIOCSIFNAME : Z := _IOW 105 40 32.
Definition SIOCADDMULTI : Z := _IOW 105 49 32.
Definition SIOCDELMULTI : Z := _IOW 105 50 32.
Definition SIOCGIFINDEX : Z := _IOWR 105 32 32.
Definition SIOCDIFADDR : Z := _IOW 105 25 32.

(** ** Conversions *)

Definition ioctl_table : list (Z * Z) := [
  (LINUX_TIOCEXCL, TIOCEXCL); (LINUX_TIOCNXCL, TIOCNXCL);
  (LINUX_TIOCSCTTY, TIOCSCTTY); (LINUX_TIOCGPGRP, TIOCGPGRP);
  (LINUX_TIOCSPGRP, TIOCSPGRP); (LINUX_TIOCOUTQ, TIOCOUTQ);
  (LINUX_TIOCSTI, TIOCSTI); (LINUX_TIOCGWINSZ, TIOCGWINSZ);
  (LINUX_TIOCSWINSZ, TIOCSWINSZ); (LINUX_TIOCMGET, TIOCMGET);
  (LINUX_TIOCMBIS, TIOCMBIS); (LINUX_TIOCMBIC, TIOCMBIC);
  (LINUX_TIOCMSET, TIOCMSET); (LINUX_FIONREAD, FIONREAD);
  (LINUX_TIOCCONS, TIOCCONS); (LINUX_TIOCPKT, TIOCPKT);
  (LINUX_FIONBIO, FIONBIO); (LINUX_TIOCNOTTY, TIOCNOTTY);
  (LINUX_TIOCSETD, TIOCSETD); (LINUX_TIOCGETD, TIOCGETD);
  (LINUX_TIOCSBRK, TIOCSBRK); (LINUX_TIOCCBRK, TIOCCBRK);
  (LINUX_TIOCGSID, TIOCGSID); (LINUX_FIONCLEX, FIONCLEX);
  (LINUX_FIOCLEX, FIOCLEX); (LINUX_FIOASYNC, FIOASYNC);
  (LINUX_TIOCPKT_DATA, TIOCPKT_DATA); (LINUX_TIOCPKT_FLUSHREAD, TIOCPKT_FLUSHREAD);
  (LINUX_TIOCPKT_FLUSHWRITE, TIOCPKT_FLUSHWRITE); (LINUX_TIOCPKT_STOP, TIOCPKT_STOP);
  (LINUX_TIOCPKT_START, TIOCPKT_START); (LINUX_TIOCPKT_NOSTOP, TIOCPKT_NOSTOP);
  (LINUX_TIOCPKT_DOSTOP, TIOCPKT_DOSTOP); (LINUX_TIOCPKT_IOCTL, TIOCPKT_IOCTL);
  (LINUX_SIOCGIFCONF, SIOCGIFCONF); (LINUX_SIOCGIFFLAGS, SIOCGIFFLAGS);
  (LINUX_SIOCSIFFLAGS, SIOCSIFFLAGS); (LINUX_SIOCGIFADDR, SIOCGIFADDR);
  (LINUX_SIOCSIFADDR, SIOCSIFADDR); (LINUX_SIOCGIFDSTADDR, SIOCGIFDSTADDR);
  (LINUX_SIOCSIFDSTADDR, SIOCSIFDSTADDR); (LINUX_SIOCGIFBRDADDR, SIOCGIFBRDADDR);
  (LINUX_SIOCSIFBRDADDR, SIOCSIFBRDADDR); (LINUX_SIOCGIFNETMASK, SIOCGIFNETMASK);
  (LINUX_SIOCSIFNETMASK, SIOCSIFNETMASK); (LINUX_SIOCGIFMETRIC, SIOCGIFMETRIC);
  (LINUX_SIOCSIFMETRIC, SIOCSIFMETRIC); (LINUX_SIOCGIFMTU, SIOCGIFMTU);
  (LINUX_SIOCSIFMTU, SIOCSIFMTU); (LINUX_SIOCSIFNAME, SIOCSIFNAME);
  (LINUX_SIOCADDMULTI, SIOCADDMULTI); (LINUX_SIOCDELMULTI, SIOCDELMULTI);
  (LINUX_SIOCGIFINDEX, SIOCGIFINDEX); (LINUX_SIOCDIFADDR, SIOCDIFADDR) ].

Definition so_opt_table : list (Z * Z) := [
  (LINUX_SO_DEBUG, SO_DEBUG); (LINUX_SO_REUSEADDR, SO_REUSEADDR);
  (LINUX_SO_ERROR, SO_ERROR); (LINUX_SO_DONTROUTE, SO_DONTROUTE);
  (LINUX_SO_BROADCAST, SO_BROADCAST); (LINUX_SO_SNDBUF, SO_SNDBUF);
  (LINUX_SO_RCVBUF, SO_RCVBUF); (LINUX_SO_KEEPALIVE, SO_KEEPALIVE);
  (LINUX_SO_OOBINLINE, SO_OOBINLINE); (LINUX_SO_LINGER, SO_LINGER);
  (LINUX_SO_REUSEPORT, SO_REUSEPORT); (LINUX_SO_RCVLOWAT, SO_RCVLOWAT);
  (LINUX_SO_SNDLOWAT, SO_SNDLOWAT); (LINUX_SO_RCVTIMEO, SO_RCVTIMEO);
  (LINUX_SO_SNDTIMEO, SO_SNDTIMEO); (LINUX_SO_ACCEPTCONN, SO_ACCEPTCONN);
  (LINUX_SO_PROTOCOL, SO_PROTOCOL) ].

Definition ip_opt_table : list (Z * Z) := [
  (LINUX_IP_TOS, IP_TOS); (LINUX_IP_TTL, IP_TTL);
  (LINUX_IP_HDRINCL, IP_HDRINCL); (LINUX_IP_OPTIONS, IP_OPTIONS);
  (LINUX_IP_MULTICAST_IF, IP_MULTICAST_IF); (LINUX_IP_MULTICAST_TTL, IP_MULTICAST_TTL);
  (LINUX_IP_MULTICAST_LOOP, IP_MULTICAST_LOOP); (LINUX_IP_ADD_MEMBERSHIP, IP_ADD_MEMBERSHIP);
  (LINUX_IP_DROP_MEMBERSHIP, IP_DROP_MEMBERSHIP) ].

Definition tcp_opt_table : list (Z * Z) := [
  (LINUX_TCP_NODELAY, TCP_NODELAY); (LINUX_TCP_MAXSEG, TCP_MAXSEG);
  (LINUX_TCP_KEEPIDLE, TCP_KEEPIDLE); (LINUX_TCP_KEEPINTVL, TCP_KEEPINTVL);
  (LINUX_TCP_KEEPCNT, TCP_KEEPCNT); (LINUX_TCP_INFO, TCP_INFO);
  (LINUX_TCP_MD5SIG, TCP_MD5SIG) ].

Definition linux2freebsd_ioctl (request : Z) : Z := switch ioctl_table request (-1).
Definition so_opt_convert (optname : Z) : Z := switch so_opt_table optname (-1).
Definition ip_opt_convert (optname : Z) : Z := switch ip_opt_table optname (-1).
Definition tcp_opt_convert (optname : Z) : Z := switch tcp_opt_table optname (-1).

Definition linux2freebsd_opt (level optname : Z) : Z :=
  if level =? SOL_SOCKET then so_opt_convert optname
  else if level =? IPPROTO_IP then ip_opt_convert optname
  else if level =? IPPROTO_TCP then tcp_opt_convert optname
  else -1.

(** ** Socket addresses

    struct linux_sockaddr: a 16-bit family at offset 0, data from offset 2.
    struct sockaddr of FreeBSD: length byte at 0, family byte at 1, data from
    2.  Both are in one store, and may be at the same address. *)

Definition SIZEOF_LINUX_SOCKADDR : Z := 128.
Definition SIZEOF_SOCKADDR_STORAGE : Z := 128.

Definition linux2freebsd_sockaddr (mem : list Z) (linux : option Z) (addrlen freebsd : Z)
    : outcome (list Z) :=
  match linux with
  | None => mret mem
  | Some linux =>
      b0 ← mread mem linux;
      b1 ← mread mem (linux + 1);
      mem ← mwrite mem (freebsd + 1) (u8 (b0 + 256 * b1));
      mem ← mwrite mem freebsd (u8 addrlen);
      bcopy mem (linux + 2) (freebsd + 2) (u64 (addrlen - 2))
  end.

Definition freebsd2linux_sockaddr (mem : list Z) (linux : option Z) (freebsd : Z)
    : outcome (list Z) :=
  match linux with
  | None => mret mem
  | Some linux =>
      sa_family ← mread mem (freebsd + 1);
      mem ← mwrite mem linux sa_family;
      mem ← mwrite mem (linux + 1) 0;
      sa_len ← mread mem freebsd;
      bcopy mem (freebsd + 2) (linux + 2) (u64 (sa_len - 2))
  end.

(** * Tables *)

Definition keys (t : list (Z * Z)) : list Z := map fst t.

Lemma switch_in t x d : x ∈ keys t -> (x, switch t x d) ∈ t.
Proof.
  induction t as [|[k v] t IH]; simpl; [by intros ?%elem_of_nil|]. intros Hx.
  destruct (Z.eqb_spec x k) as [->|]; [set_solver|]. apply elem_of_cons in Hx as [->|]; set_solver.
Qed.

Lemma switch_notin t x d : x ∉ keys t -> switch t x d = d.
Proof.
  induction t as [|[k v] t IH]; simpl; [done|]. intros Hx. apply not_elem_of_cons in Hx as [? ?].
  rewrite (proj2 (Z.eqb_neq _ _)) by done. auto.
Qed.

(** A table with distinct values translates distinct keys to distinct values. *)
Lemma switch_inj t x y d e :
  NoDup (map snd t) -> x ∈ keys t -> y ∈ keys t -> switch t x d = switch t y e -> x = y.
Proof.
  intros Hnd Hx Hy E. apply (switch_in t x d) in Hx. apply (switch_in t y e) in Hy. rewrite E in Hx.
  apply list_elem_of_lookup in Hx as [i Hi]. apply list_elem_of_lookup in Hy as [j Hj].
  assert (i = j) as ->.
  { eapply NoDup_lookup; [exact Hnd| |]; rewrite list_lookup_fmap; [rewrite Hi|rewrite Hj]; done. }
  congruence.
Qed.

Lemma switch_neg t x :
  Forall (fun v => 0 <= v) (map snd t) -> switch t x (-1) < 0 <-> x ∉ keys t.
Proof.
  intros Hp. split.
  - intros Hs Hx. apply (switch_in t x (-1)) in Hx. rewrite Forall_forall in Hp.
    assert (0 <= switch t x (-1)); [|lia]. apply Hp.
    apply list_elem_of_lookup in Hx as [i Hi]. apply list_elem_of_lookup. exists i.
    by rewrite list_lookup_fmap, Hi.
  - intros Hx. rewrite switch_notin by done. lia.
Qed.

(** The translation of error numbers: the table has one entry per BSD
    error, each is translated by its entry, and no two BSD
    errors of the table become the same host error; any other number is passed
    through unchanged. *)
Theorem ff_os_errno_faithful (a b : Z) :
  (a ∈ keys errno_table -> (a, ff_os_errno a) ∈ errno_table) /\
  (a ∉ keys errno_table -> ff_os_errno a = a) /\
  (a ∈ keys errno_table -> b ∈ keys errno_table -> ff_os_errno a = ff_os_errno b -> a = b) /\
  NoDup (keys errno_table).
Proof.
  assert (Hv : NoDup (map snd errno_table)) by (decide_closed).
  split; [exact (switch_in errno_table a a)|]. split; [exact (switch_notin errno_table a a)|].
  split; [exact (switch_inj errno_table a b a b Hv)|decide_closed].
Qed.

Definition convert_tables : list (list (Z * Z)) := [ioctl_table; so_opt_table; ip_opt_table; tcp_opt_table].

(** The conversions of ioctl requests and of socket, IP and TCP options:
    each is negative exactly on the numbers that have no case, and never
    confuses two numbers. *)
Theorem abi_convert_faithful (t : list (Z * Z)) (x y : Z) :
  t ∈ convert_tables ->
  (switch t x (-1) < 0 <-> x ∉ keys t) /\
  (0 <= switch t x (-1) -> switch t x (-1) = switch t y (-1) -> x = y).
Proof.
  intros Ht.
  assert (Forall (fun v => 0 <= v) (map snd t) /\ NoDup (map snd t)) as [Hp Hnd].
  { assert (Forall (fun t => Forall (fun v => 0 <= v) (map snd t) /\ NoDup (map snd t)) convert_tables) as H
      by (decide_closed).
    by rewrite Forall_forall in H; apply H. }
  split; [by apply switch_neg|]. intros Hx E.
  assert (x ∈ keys t) by (destruct (decide (x ∈ keys t)); [done|]; apply (switch_neg t x Hp) in n; lia).
  assert (y ∈ keys t) by (destruct (decide (y ∈ keys t)); [done|]; apply (switch_neg t y Hp) in n; lia).
  by apply (switch_inj t x y (-1) (-1)).
Qed.

Lemma abi_convert_faithful_witness :
  (linux2freebsd_ioctl LINUX_FIONBIO < 0 <-> LINUX_FIONBIO ∉ keys ioctl_table) /\
  (0 <= linux2freebsd_ioctl LINUX_FIONBIO ->
   linux2freebsd_ioctl LINUX_FIONBIO = linux2freebsd_ioctl 7 -> LINUX_FIONBIO = 7).
Proof. apply (abi_convert_faithful ioctl_table LINUX_FIONBIO 7). apply elem_of_cons. by left. Defined.

(** EPROCLIM of the BSD side has no case, and is passed on as the number that
    the host calls ENOLINK. *)
Lemma errno_proclim_confused : ff_os_errno ff_EPROCLIM = ENOLINK.
Proof. reflexivity. Qed.

(** * Socket addresses *)

Section sockaddr.

(** [region mem p l]: the bytes at offset [p] are [l]. *)
Definition region (mem : list Z) (p : Z) (l : list Z) : Prop :=
  forall i, 0 <= i < Z.of_nat (length l) -> at_ mem (p + i) = at_ l i.

(** Two areas of the store do not overlap. *)
Definition apart (p q n : Z) : Prop := p + n <= q \/ q + n <= p.

Lemma mwrite2_at mem p x y :
  0 <= p -> p + 1 < Z.of_nat (length mem) ->
  let mem' := <[Z.to_nat p := x]> (<[Z.to_nat (p + 1) := y]> mem) in
  length mem' = length mem /\ at_ mem' p = Some x /\ at_ mem' (p + 1) = Some y /\
  (forall i, 0 <= i -> i <> p -> i <> p + 1 -> at_ mem' i = at_ mem i).
Proof.
  intros Hp Hl mem'. unfold mem'. split_and!.
  - by rewrite !length_insert.
  - apply at_write_eq. rewrite length_insert. lia.
  - rewrite at_write_ne by lia. apply at_write_eq. lia.
  - intros i ? ? ?. by rewrite !at_write_ne by lia.
Qed.

(** The two header bytes and the data of a converted address. *)
Lemma linux2freebsd_spec mem l f n b0 :
  0 <= l -> 0 <= f -> 2 <= n < 256 -> l + n <= Z.of_nat (length mem) -> f + n <= Z.of_nat (length mem) ->
  0 <= b0 < 256 -> at_ mem l = Some b0 -> at_ mem (l + 1) = Some 0 ->
  l = f \/ apart l f n ->
  exists mem', linux2freebsd_sockaddr mem (Some l) n f = Done mem' /\ length mem' = length mem /\
    at_ mem' f = Some n /\ at_ mem' (f + 1) = Some b0 /\
    (forall i, 2 <= i < n -> at_ mem' (f + i) = at_ mem (l + i)) /\
    (forall i, 0 <= i -> i < f \/ f + n <= i -> at_ mem' i = at_ mem i).
Proof.
  intros Hl Hf Hn Hll Hfl Hb H0 H1 Hap. unfold linux2freebsd_sockaddr.
  rewrite (mread_at_ _ _ _ H0), (mread_at_ _ _ _ H1). cbn [mbind outcome_bind].
  rewrite (wrapu_small 8 (b0 + _)) by lia. rewrite Z.mul_0_r, Z.add_0_r.
  rewrite mwrite_ok by lia. cbn [mbind outcome_bind].
  rewrite mwrite_ok by (rewrite length_insert; lia). cbn [mbind outcome_bind].
  rewrite (wrapu_small 8 n), (wrapu_small 64 (n - 2)) by lia.
  destruct (mwrite2_at mem f n b0) as (L1 & A0 & A1 & A2); [lia..|].
  set (mem1 := <[Z.to_nat f := n]> _) in *.
  destruct (bcopy_ok mem1 (l + 2) (f + 2) (n - 2)) as (mem2 & -> & L2 & C1 & C2); [lia..|].
  exists mem2. split_and!; [done|congruence|by rewrite C2 by lia|by rewrite C2 by lia| |].
  - intros i Hi. replace (f + i) with (f + 2 + (i - 2)) by lia. rewrite C1 by lia.
    replace (l + 2 + (i - 2)) with (l + i) by lia. apply A2; unfold apart in Hap; lia.
  - intros i Hi Ho. rewrite C2 by lia. apply A2; lia.
Qed.

Lemma freebsd2linux_spec mem l f n b0 :
  0 <= l -> 0 <= f -> 2 <= n < 256 -> l + n <= Z.of_nat (length mem) -> f + n <= Z.of_nat (length mem) ->
  at_ mem f = Some n -> at_ mem (f + 1) = Some b0 -> apart l f n ->
  exists mem', freebsd2linux_sockaddr mem (Some l) f = Done mem' /\ length mem' = length mem /\
    at_ mem' l = Some b0 /\ at_ mem' (l + 1) = Some 0 /\
    (forall i, 2 <= i < n -> at_ mem' (l + i) = at_ mem (f + i)) /\
    (forall i, 0 <= i -> i < l \/ l + n <= i -> at_ mem' i = at_ mem i).
Proof.
  intros Hl Hf Hn Hll Hfl H0 H1 Hap. unfold freebsd2linux_sockaddr, apart in *.
  rewrite (mread_at_ _ _ _ H1). cbn [mbind outcome_bind].
  rewrite mwrite_ok by lia. cbn [mbind outcome_bind].
  rewrite mwrite_ok by (rewrite length_insert; lia). cbn [mbind outcome_bind].
  set (mem1 := <[Z.to_nat (l + 1) := 0]> _).
  assert (L1 : length mem1 = length mem) by (unfold mem1; by rewrite !length_insert).
  assert (A0 : at_ mem1 l = Some b0) by (unfold mem1; rewrite at_write_ne by lia; apply at_write_eq; lia).
  assert (A1 : at_ mem1 (l + 1) = Some 0) by (apply at_write_eq; rewrite length_insert; lia).
  assert (A2 : forall i, 0 <= i -> i <> l -> i <> l + 1 -> at_ mem1 i = at_ mem i)
    by (intros i ? ? ?; unfold mem1; by rewrite !at_write_ne by lia).
  assert (H0' : at_ mem1 f = Some n) by (rewrite A2 by lia; done).
  rewrite (mread_at_ _ _ _ H0'). cbn [mbind outcome_bind]. rewrite (wrapu_small 64 (n - 2)) by lia.
  destruct (bcopy_ok mem1 (f + 2) (l + 2) (n - 2)) as (mem2 & -> & L2 & C1 & C2); [lia..|].
  exists mem2. split_and!; [done|congruence|by rewrite C2 by lia|by rewrite C2 by lia| |].
  - intros i Hi. replace (l + i) with (l + 2 + (i - 2)) by lia. rewrite C1 by lia.
    replace (f + 2 + (i - 2)) with (f + i) by lia. apply A2; lia.
  - intros i Hi Ho. rewrite C2 by lia. apply A2; lia.
Qed.

(** A Linux address: its length fits the storage and its family fits a byte. *)
Definition linux_address (a : list Z) : bool :=
  let n := Z.of_nat (length a) in
  (2 <=? n) && (n <=? SIZEOF_SOCKADDR_STORAGE) && is_bytes a && bool_decide (a !! 1%nat = Some 0).

(** A Linux socket address converted to FreeBSD form in a sockaddr_storage
    and back into another Linux buffer is unchanged: length byte and family
    are set, and every byte of the address comes back, for the three buffers
    anywhere in memory without overlap. *)
Theorem sockaddr_roundtrip (mem a : list Z) (l f l' : Z) :
  linux_address a = true -> region mem l a ->
  0 <= l -> 0 <= f -> 0 <= l' ->
  l + Z.of_nat (length a) <= Z.of_nat (length mem) ->
  f + Z.of_nat (length a) <= Z.of_nat (length mem) ->
  l' + Z.of_nat (length a) <= Z.of_nat (length mem) ->
  apart l f (Z.of_nat (length a)) -> apart l' f (Z.of_nat (length a)) ->
  exists mem1 mem2,
    linux2freebsd_sockaddr mem (Some l) (Z.of_nat (length a)) f = Done mem1 /\
    at_ mem1 f = Some (Z.of_nat (length a)) /\ at_ mem1 (f + 1) = at_ a 0 /\
    freebsd2linux_sockaddr mem1 (Some l') f = Done mem2 /\ region mem2 l' a.
Proof.
  intros Ha Hr Hl Hf Hl' H1 H2 H3 Ap Ap'. unfold linux_address, SIZEOF_SOCKADDR_STORAGE in Ha. bool_hyps.
  rewrite Z.leb_le in *. set (n := Z.of_nat (length a)) in *.
  destruct (at_some a 0) as [b0 E0]; [lia|].
  assert (Hb0 : 0 <= b0 < 256).
  { assert (rd a 0 = b0) as <- by (by apply nth_lookup_Some). by apply is_bytes_nth. }
  assert (M0 : at_ mem l = Some b0) by (rewrite <- E0, <- (Hr 0) by lia; f_equal; lia).
  assert (M1 : at_ mem (l + 1) = Some 0) by (rewrite (Hr 1) by lia; done).
  destruct (linux2freebsd_spec mem l f n b0) as (mem1 & E1 & L1 & F0 & F1 & F2 & _); [lia..|done|done|by right|].
  destruct (freebsd2linux_spec mem1 l' f n b0) as (mem2 & E2 & L2 & G0 & G1 & G2 & _); [lia..|done|done|done|].
  exists mem1, mem2. split_and!; [done|done|congruence|done|].
  intros i Hi. assert (i = 0 \/ i = 1 \/ 2 <= i) as [->|[->|Hi2]] by lia.
  - by rewrite Z.add_0_r, G0.
  - by rewrite G1.
  - rewrite G2, F2 by lia. apply Hr. lia.
Qed.

(** [ff_recvmsg] converts the address in place.  The family overwrites the
    length byte before it is read, so that the number of bytes copied is the
    family less 2; the bytes are copied onto themselves, and the result is the
    Linux form for every family of at least 2 that does not point the copy
    outside memory. *)
Theorem sockaddr_in_place (mem : list Z) (p family : Z) :
  0 <= p -> 2 <= family < 256 -> p + family <= Z.of_nat (length mem) ->
  at_ mem (p + 1) = Some family ->
  freebsd2linux_sockaddr mem (Some p) p =
  Done (<[Z.to_nat (p + 1) := 0]> (<[Z.to_nat p := family]> mem)).
Proof.
  intros Hp Hf Hl H1. unfold freebsd2linux_sockaddr. rewrite (mread_at_ _ _ _ H1). cbn [mbind outcome_bind].
  rewrite mwrite_ok by lia. cbn [mbind outcome_bind].
  rewrite mwrite_ok by (rewrite length_insert; lia). cbn [mbind outcome_bind].
  set (mem1 := <[Z.to_nat (p + 1) := 0]> _).
  assert (A0 : at_ mem1 p = Some family) by (unfold mem1; rewrite at_write_ne by lia; apply at_write_eq; lia).
  rewrite (mread_at_ _ _ _ A0). cbn [mbind outcome_bind]. rewrite wrapu_small by lia.
  apply bcopy_self; [lia..|]. unfold mem1. rewrite !length_insert. lia.
Qed.

End sockaddr.

(** 127.0.0.1:80, converted from offset 0 through 16 and back to 32. *)
Definition sample_addr : list Z := [2; 0; 0; 80; 127; 0; 0; 1; 0; 0; 0; 0; 0; 0; 0; 0].

Lemma sockaddr_roundtrip_witness :
  exists mem1 mem2,
    linux2freebsd_sockaddr (sample_addr ++ replicate 32 9) (Some 0) 16 16 = Done mem1 /\
    at_ mem1 16 = Some 16 /\ at_ mem1 (16 + 1) = Some 2 /\
    freebsd2linux_sockaddr mem1 (Some 32) 16 = Done mem2 /\ region mem2 32 sample_addr.
Proof.
  apply (sockaddr_roundtrip (sample_addr ++ replicate 32 9) sample_addr 0 16 32); try (simpl; lia).
  - reflexivity.
  - intros i Hi. unfold at_. rewrite Z.add_0_l, lookup_app_l; [done|]. lia.
  - left. simpl. lia.
  - right. simpl. lia.
Defined.

Lemma sockaddr_in_place_witness :
  freebsd2linux_sockaddr ([16; 2; 0; 80] ++ replicate 12 1) (Some 0) 0 =
  Done ([2; 0; 0; 80] ++ replicate 12 1).
Proof. apply (sockaddr_in_place ([16; 2; 0; 80] ++ replicate 12 1) 0 2); done || simpl; lia. Defined.
