(* ===== verification/Syscall.v ===== *)
(** The socket API of src/lib/ff_syscall_wrapper.c.

    The FreeBSD kernel functions that the wrappers call are the operations of
    the class [Kernel]: each takes its arguments and the kernel state and
    returns the error number, td_retval[0] and the new state.  Buffers are
    byte lists; a [None] pointer is NULL.  The 128 bytes of a sockaddr_storage
    on the stack start with arbitrary contents, the argument [stack]. *)
From stdpp Require Import base list.
From Stdlib Require Import ZArith Lia.
From S2P Require Import Prelude Memory AbiTables.

Local Open Scope Z_scope.

Record kret (S : Type) := Kret { k_rc : Z; k_retval : Z; k_st : S }.
Arguments Kret {S}.
Arguments k_rc {S}.
Arguments k_retval {S}.
Arguments k_st {S}.

(** struct uio as the wrappers fill it: (base, length) segments. *)
Record uio := Uio { uio_iov : list (Z * Z); uio_iovcnt : Z; uio_resid : Z }.

(** struct msghdr: [msg_name] is the address buffer. *)
Record msghdr := Msghdr {
  msg_name : option (list Z); msg_namelen : Z; msg_iov : list (Z * Z); msg_iovlen : Z;
  msg_control : Z; msg_flags : Z
}.

Class Kernel (S : Type) := {
  sys_socket : Z -> Z -> Z -> S -> kret S;
  kern_getsockopt : Z -> Z -> Z -> list Z -> Z -> S -> kret S * (list Z * Z);
  kern_setsockopt : Z -> Z -> Z -> list Z -> Z -> S -> kret S;
  kern_ioctl : Z -> Z -> Z -> S -> kret S;
  kern_close : Z -> S -> kret S;
  kern_readv : Z -> uio -> S -> kret S;
  kern_writev : Z -> uio -> S -> kret S;
  sendit : Z -> msghdr -> Z -> S -> kret S;
  kern_recvit : Z -> msghdr -> S -> kret S * msghdr;
  kern_fcntl : Z -> Z -> Z -> S -> kret S;
  kern_accept : Z -> Z -> S -> kret S * option (list Z);
  fdrop : S -> S;
  free_soname : S -> S;
  sys_listen : Z -> Z -> S -> kret S;
  kern_bindat : Z -> list Z -> S -> kret S;
  kern_connectat : Z -> list Z -> S -> kret S;
  kern_getpeername : Z -> Z -> S -> kret S * (option (list Z) * Z);
  kern_getsockname : Z -> Z -> S -> kret S * (option (list Z) * Z);
  sys_shutdown : Z -> Z -> S -> kret S;
  userland_sysctl : list Z -> Z -> option (list Z) -> option Z -> option (list Z) -> Z -> S ->
                    kret S * Z;
  kern_select : Z -> S -> kret S;
  kern_poll : Z -> S -> kret S;
  kern_kqueue : S -> kret S;
  sys_dup : Z -> S -> kret S;
  sys_dup2 : Z -> Z -> S -> kret S;
  rtrequest_fib : Z -> option (list Z) -> option (list Z) -> option (list Z) -> Z -> S -> kret S
}.

(** What a wrapper leaves: return value, errno, kernel state. *)
Record sysres (S : Type) := SysRes { r_ret : Z; r_errno : Z; r_st : S }.
Arguments SysRes {S}.
Arguments r_ret {S}.
Arguments r_errno {S}.
Arguments r_st {S}.

Definition EINVAL_ : Z := ff_EINVAL.

Inductive FF_ROUTE_CTL := FF_ROUTE_ADD | FF_ROUTE_DEL | FF_ROUTE_CHANGE.
Inductive FF_ROUTE_FLAG := FF_RTF_HOST | FF_RTF_GATEWAY.

Section wrappers.
Context {S : Type} {K : Kernel S}.

(** The label [kern_fail]. *)
Definition kern_fail (rc : Z) (st : S) : sysres S := SysRes (-1) (ff_os_errno rc) st.

(** [if ((rc = call)) goto kern_fail; return ok;] *)
Definition finish (errno : Z) (r : kret S) (ok : Z) : sysres S :=
  if k_rc r =? 0 then SysRes ok errno (k_st r) else kern_fail (k_rc r) (k_st r).

(** ... with [return curthread->td_retval[0]] through an int. *)
Definition finish_retval (errno : Z) (r : kret S) : sysres S := finish errno r (s32 (k_retval r)).

(** ... with [return rc], which is 0. *)
Definition finish_rc (errno : Z) (r : kret S) : sysres S := finish errno r (k_rc r).

Definition ff_socket (domain type protocol errno : Z) (st : S) : sysres S :=
  finish_retval errno (sys_socket domain type protocol st).

Definition ff_getsockopt (s level optname : Z) (optval : list Z) (optlen errno : Z) (st : S)
    : sysres S * (list Z * Z) :=
  let level := if level =? LINUX_SOL_SOCKET then SOL_SOCKET else level in
  let optname := linux2freebsd_opt level optname in
  if optname <? 0 then (kern_fail EINVAL_ st, (optval, optlen))
  else let '(r, out) := kern_getsockopt s level optname optval optlen st in
       (finish_rc errno r, out).

Definition ff_getsockopt_freebsd (s level optname : Z) (optval : list Z) (optlen errno : Z) (st : S)
    : sysres S * (list Z * Z) :=
  let '(r, out) := kern_getsockopt s level optname optval optlen st in (finish_rc errno r, out).

Definition ff_setsockopt (s level optname : Z) (optval : list Z) (optlen errno : Z) (st : S) : sysres S :=
  let level := if level =? LINUX_SOL_SOCKET then SOL_SOCKET else level in
  let optname := linux2freebsd_opt level optname in
  if optname <? 0 then kern_fail EINVAL_ st
  else finish_rc errno (kern_setsockopt s level optname optval optlen st).

Definition ff_setsockopt_freebsd (s level optname : Z) (optval : list Z) (optlen errno : Z) (st : S)
    : sysres S :=
  finish_rc errno (kern_setsockopt s level optname optval optlen st).

Definition ff_ioctl (fd request argp errno : Z) (st : S) : sysres S :=
  let req := linux2freebsd_ioctl request in
  if req <? 0 then kern_fail EINVAL_ st else finish_rc errno (kern_ioctl fd req argp st).

Definition ff_ioctl_freebsd (fd request argp errno : Z) (st : S) : sysres S :=
  finish_rc errno (kern_ioctl fd request argp st).

Definition ff_close (fd errno : Z) (st : S) : sysres S := finish_rc errno (kern_close fd st).

Definition ff_read (fd buf nbytes errno : Z) (st : S) : sysres S :=
  if INT_MAX <? nbytes then kern_fail EINVAL_ st
  else finish_retval errno (kern_readv fd (Uio [(buf, nbytes)] 1 nbytes) st).

(** [int len; len += iov[i].iov_len] over the segments. *)
Definition iov_len_int (iov : list (Z * Z)) : Z :=
  fold_left (fun len v => s32 (len + snd v)) iov 0.

Definition ff_readv (fd : Z) (iov : list (Z * Z)) (errno : Z) (st : S) : sysres S :=
  finish_retval errno (kern_readv fd (Uio iov (Z.of_nat (length iov)) (iov_len_int iov)) st).

Definition ff_write (fd buf nbytes errno : Z) (st : S) : sysres S :=
  if INT_MAX <? nbytes then kern_fail EINVAL_ st
  else finish_retval errno (kern_writev fd (Uio [(buf, nbytes)] 1 nbytes) st).

Definition ff_writev (fd : Z) (iov : list (Z * Z)) (errno : Z) (st : S) : sysres S :=
  finish_retval errno (kern_writev fd (Uio iov (Z.of_nat (length iov)) (iov_len_int iov)) st).

(** [linux2freebsd_sockaddr(addr, addrlen, &bsdaddr)] with the caller's buffer
    and the stack buffer in separate areas: the contents of [bsdaddr]. *)
Definition to_bsdaddr (addr : option (list Z)) (addrlen : Z) (stack : list Z) : outcome (list Z) :=
  match addr with
  | None => mret stack
  | Some a =>
      mem ← linux2freebsd_sockaddr (a ++ stack) (Some 0) addrlen (Z.of_nat (length a));
      mret (drop (length a) mem)
  end.

(** [freebsd2linux_sockaddr(addr, pf)]: the new contents of the caller's buffer. *)
Definition from_bsdaddr (addr : list Z) (pf : list Z) : outcome (list Z) :=
  mem ← freebsd2linux_sockaddr (addr ++ pf) (Some 0) (Z.of_nat (length addr));
  mret (take (length addr) mem).

(** msg_flags is left unset by the code and not read by [sendit]: 0 here. *)
Definition ff_sendto (s buf len flags : Z) (to : option (list Z)) (tolen errno : Z) (stack : list Z)
    (st : S) : outcome (sysres S) :=
  pf ← (match to with None => mret None | Some _ => Some <$> to_bsdaddr to tolen stack end);
  mret (finish_retval errno (sendit s (Msghdr pf tolen [(buf, len)] 1 0 0) flags st)).

Definition ff_send (s buf len flags errno : Z) (stack : list Z) (st : S) : outcome (sysres S) :=
  ff_sendto s buf len flags None 0 errno stack st.

(** The message header is restored before the return. *)
Definition ff_sendmsg (s : Z) (msg : msghdr) (flags errno : Z) (stack : list Z) (st : S)
    : outcome (sysres S) :=
  name ← (match msg_name msg with
          | None => mret None
          | Some _ => Some <$> to_bsdaddr (msg_name msg) SIZEOF_LINUX_SOCKADDR stack
          end);
  let m := Msghdr name (msg_namelen msg) (msg_iov msg) (msg_iovlen msg) (msg_control msg) (msg_flags msg) in
  mret (finish_retval errno (sendit s m flags st)).

(** Also returns the contents of [from] and of [*fromlen]. *)
Definition ff_recvfrom (s buf len flags : Z) (from : option (list Z)) (fromlen : option Z)
    (errno : Z) (stack : list Z) (st : S) : outcome (sysres S * option (list Z) * option Z) :=
  let m := Msghdr (Some stack) (default 0 fromlen) [(buf, len)] 1 0 flags in
  let '(r, m') := kern_recvit s m st in
  if negb (k_rc r =? 0) then mret (kern_fail (k_rc r) (k_st r), from, fromlen)
  else
    let fromlen' := match fromlen with None => None | Some _ => Some (msg_namelen m') end in
    from' ← (match from with
             | None => mret None
             | Some a => Some <$> from_bsdaddr a (default [] (msg_name m'))
             end);
    mret (finish_retval errno r, from', fromlen').

Definition ff_recv (s buf len flags errno : Z) (stack : list Z) (st : S) : outcome (sysres S) :=
  r ← ff_recvfrom s buf len flags None None errno stack st; mret (fst (fst r)).

Definition set_flags (m : msghdr) (flags : Z) : msghdr :=
  Msghdr (msg_name m) (msg_namelen m) (msg_iov m) (msg_iovlen m) (msg_control m) flags.

Definition set_name (m : msghdr) (name : option (list Z)) : msghdr :=
  Msghdr name (msg_namelen m) (msg_iov m) (msg_iovlen m) (msg_control m) (msg_flags m).

(** Also returns the caller's header; the address is converted in place. *)
Definition ff_recvmsg (s : Z) (msg : msghdr) (flags errno : Z) (st : S) : outcome (sysres S * msghdr) :=
  let oldflags := msg_flags msg in
  let '(r, m') := kern_recvit s (set_flags msg flags) st in
  if negb (k_rc r =? 0) then mret (kern_fail (k_rc r) (k_st r), set_flags m' oldflags)
  else
    match msg_name m' with
    | None => mret (finish_retval errno r, m')
    | Some name =>
        name' ← freebsd2linux_sockaddr name (Some 0) 0;
        mret (finish_retval errno r, set_name m' (Some name'))
    end.

Definition ff_fcntl (fd cmd argp errno : Z) (st : S) : sysres S :=
  finish_retval errno (kern_fcntl fd cmd argp st).

(** The end of the calls that get an address [pf] from the kernel. *)
Definition release (pf : option (list Z)) (st : S) : S :=
  match pf with None => st | Some _ => free_soname st end.

(** Also returns the contents of [addr] and of [*addrlen]; a NULL [pf] is
    dereferenced when [addrlen] is given. *)
Definition ff_accept (s : Z) (addr : option (list Z)) (addrlen : option Z) (errno : Z) (st : S)
    : outcome (sysres S * option (list Z) * option Z) :=
  let '(r, pf) := kern_accept s SIZEOF_SOCKADDR_STORAGE st in
  if negb (k_rc r =? 0) then mret (kern_fail (k_rc r) (release pf (k_st r)), addr, addrlen)
  else
    let st1 := fdrop (k_st r) in
    addr' ← (match addr, pf with
             | Some a, Some p => Some <$> from_bsdaddr a p
             | _, _ => mret addr
             end);
    addrlen' ← (match addrlen, pf with
                | None, _ => mret None
                | Some _, None => Fault
                | Some _, Some p => Some <$> mread p 0
                end);
    mret (SysRes (s32 (k_retval r)) errno (release pf st1), addr', addrlen').

Definition ff_listen (s backlog errno : Z) (st : S) : sysres S :=
  finish_rc errno (sys_listen s backlog st).

Definition ff_bind (s : Z) (addr : option (list Z)) (addrlen errno : Z) (stack : list Z) (st : S)
    : outcome (sysres S) :=
  bsdaddr ← to_bsdaddr addr addrlen stack; mret (finish_rc errno (kern_bindat s bsdaddr st)).

Definition ff_connect (s : Z) (name : option (list Z)) (namelen errno : Z) (stack : list Z) (st : S)
    : outcome (sysres S) :=
  bsdaddr ← to_bsdaddr name namelen stack; mret (finish_rc errno (kern_connectat s bsdaddr st)).

(** [ff_getpeername] and [ff_getsockname], which differ in the kernel call. *)
Definition get_name (call : Z -> Z -> S -> kret S * (option (list Z) * Z))
    (s : Z) (name : option (list Z)) (namelen errno : Z) (st : S)
    : outcome (sysres S * option (list Z) * Z) :=
  let '(r, (pf, namelen')) := call s namelen st in
  if negb (k_rc r =? 0) then mret (kern_fail (k_rc r) (release pf (k_st r)), name, namelen')
  else
    name' ← (match name, pf with
             | Some a, Some p => Some <$> from_bsdaddr a p
             | _, _ => mret name
             end);
    mret (SysRes (k_rc r) errno (release pf (k_st r)), name', namelen').

Definition ff_getpeername := get_name kern_getpeername.
Definition ff_getsockname := get_name kern_getsockname.

Definition ff_shutdown (s how errno : Z) (st : S) : sysres S := finish_rc errno (sys_shutdown s how st).

(** Also returns [*oldlenp]. *)
Definition ff_sysctl (name : list Z) (namelen : Z) (oldp : option (list Z)) (oldlenp : option Z)
    (newp : option (list Z)) (newlen errno : Z) (st : S) : sysres S * option Z :=
  let '(r, retval) := userland_sysctl name namelen oldp oldlenp newp newlen st in
  if negb (k_rc r =? 0) then (kern_fail (k_rc r) (k_st r), oldlenp)
  else (SysRes 0 errno (k_st r), match oldlenp with None => None | Some _ => Some retval end).

Definition ff_select (nfds errno : Z) (st : S) : sysres S := finish_retval errno (kern_select nfds st).

(** The timeout argument is not used: the kernel gets a zero timespec. *)
Definition ff_poll (nfds timeout errno : Z) (st : S) : sysres S := finish_retval errno (kern_poll nfds st).

Definition ff_kqueue (errno : Z) (st : S) : sysres S := finish_retval errno (kern_kqueue st).

Definition ff_dup (oldfd errno : Z) (st : S) : sysres S := finish_retval errno (sys_dup oldfd st).

Definition ff_dup2 (oldfd newfd errno : Z) (st : S) : sysres S :=
  finish_retval errno (sys_dup2 oldfd newfd st).

(** [None] for a request or flag outside the enumeration. *)
Definition route_req (req : option FF_ROUTE_CTL) : option Z :=
  match req with
  | Some FF_ROUTE_ADD => Some 1 | Some FF_ROUTE_DEL => Some 2 | Some FF_ROUTE_CHANGE => Some 3
  | None => None
  end.
Definition route_flag (fl : option FF_ROUTE_FLAG) : option Z :=
  match fl with Some FF_RTF_HOST => Some 0x4 | Some FF_RTF_GATEWAY => Some 0x2 | None => None end.

Definition ff_route_ctl (req : option FF_ROUTE_CTL) (fl : option FF_ROUTE_FLAG)
    (dst gw netmask : option (list Z)) (errno : Z) (s_dst s_gw s_nm : list Z) (st : S)
    : outcome (sysres S) :=
  match route_req req, route_flag fl with
  | Some rtreq, Some rtflag =>
      let conv a stack := match a with
                          | None => mret None
                          | Some _ => Some <$> to_bsdaddr a SIZEOF_LINUX_SOCKADDR stack
                          end in
      psa_gw ← conv gw s_gw;
      psa_dst ← conv dst s_dst;
      psa_nm ← conv netmask s_nm;
      mret (finish_rc errno (rtrequest_fib rtreq psa_dst psa_gw psa_nm rtflag st))
  | _, _ => mret (kern_fail EINVAL_ st)
  end.

End wrappers.

(** [ff_gettimeofday]: the clock gives (seconds, nanoseconds). *)
Definition ff_gettimeofday (now : Z * Z) : Z * Z := (fst now, snd now / 1000).

(** * Properties *)

Section properties.
Context {S : Type} {K : Kernel S}.

(** The stack buffer after the conversion of a well-formed address. *)
Lemma to_bsdaddr_spec a stack :
  linux_address a = true -> Z.of_nat (length stack) = SIZEOF_SOCKADDR_STORAGE ->
  exists bsd, to_bsdaddr (Some a) (Z.of_nat (length a)) stack = Done bsd /\
    length bsd = length stack /\ at_ bsd 0 = Some (Z.of_nat (length a)) /\ at_ bsd 1 = at_ a 0 /\
    (forall i, 2 <= i < Z.of_nat (length a) -> at_ bsd i = at_ a i).
Proof.
  intros Ha Hs. pose proof Ha as Ha'. unfold linux_address in Ha'. bool_hyps.
  unfold SIZEOF_SOCKADDR_STORAGE in *. rewrite Z.leb_le in *. set (n := Z.of_nat (length a)) in *.
  destruct (at_some a 0) as [b0 E0]; [lia|].
  assert (Hb0 : 0 <= b0 < 256).
  { assert (rd a 0 = b0) as <- by (by apply nth_lookup_Some). by apply is_bytes_nth. }
  assert (Hin : forall i, 0 <= i < n -> at_ (a ++ stack) i = at_ a i)
    by (intros i Hi; unfold at_; apply lookup_app_l; lia).
  destruct (linux2freebsd_spec (a ++ stack) 0 n n b0) as (mem & E & L & F0 & F1 & F2 & _);
    try (rewrite length_app; lia); try lia.
  { rewrite Hin by lia. done. }
  { rewrite Hin by lia. done. }
  { right. left. lia. }
  exists (drop (length a) mem). unfold to_bsdaddr. fold n. rewrite E. cbn [mbind outcome_bind].
  assert (Hd : forall i, 0 <= i -> at_ (drop (length a) mem) i = at_ mem (n + i)).
  { intros i Hi. unfold at_. rewrite lookup_drop. f_equal. lia. }
  split_and!; [done| | | |].
  - rewrite length_drop, L, length_app. lia.
  - rewrite Hd by lia. rewrite Z.add_0_r. exact F0.
  - rewrite Hd by lia. congruence.
  - intros i Hi. rewrite Hd, F2, Z.add_0_l by lia. apply Hin. lia.
Qed.

(** The caller's buffer after the conversion of [a] in FreeBSD form. *)
Lemma from_bsdaddr_spec a bsd buf :
  linux_address a = true -> length bsd = length a -> (length a <= length buf)%nat ->
  at_ bsd 0 = Some (Z.of_nat (length a)) -> at_ bsd 1 = at_ a 0 ->
  (forall i, 2 <= i < Z.of_nat (length a) -> at_ bsd i = at_ a i) ->
  exists buf', from_bsdaddr buf bsd = Done buf' /\ take (length a) buf' = a.
Proof.
  intros Ha Hl Hb B0 B1 B2. unfold linux_address in Ha. bool_hyps.
  unfold SIZEOF_SOCKADDR_STORAGE in *. rewrite Z.leb_le in *. set (n := Z.of_nat (length a)) in *.
  destruct (at_some a 0) as [b0 E0]; [lia|].
  set (m := Z.of_nat (length buf)).
  assert (Hin : forall i, 0 <= i < n -> at_ (buf ++ bsd) (m + i) = at_ bsd i).
  { intros i Hi. unfold at_, m. rewrite lookup_app_r by lia. f_equal. lia. }
  destruct (freebsd2linux_spec (buf ++ bsd) 0 m n b0) as (mem & E & L & F0 & F1 & F2 & _);
    try (rewrite length_app; lia); try lia.
  { specialize (Hin 0). rewrite Z.add_0_r in Hin. rewrite Hin by lia. done. }
  { rewrite Hin by lia. congruence. }
  { left. lia. }
  exists (take (length buf) mem). unfold from_bsdaddr. fold m. rewrite E. cbn [mbind outcome_bind].
  split; [done|]. rewrite take_take, Nat.min_l by lia. rewrite length_app in L.
  apply list_eq. intros i. destruct (Nat.lt_ge_cases i (length a)) as [Hi|Hi].
  - rewrite lookup_take_lt by done.
    assert (Hat : forall l : list Z, l !! i = at_ l (Z.of_nat i)) by (intros; unfold at_; by rewrite Nat2Z.id).
    rewrite !Hat. destruct i as [|[|i]].
    + change (Z.of_nat 0) with 0. congruence.
    + change (Z.of_nat 1) with (0 + 1). rewrite F1. by symmetry.
    + specialize (F2 (Z.of_nat (Datatypes.S (Datatypes.S i)))). rewrite Z.add_0_l in F2.
      rewrite F2, Hin, B2 by lia. done.
  - rewrite !lookup_ge_None_2; [done|lia|rewrite length_take; lia].
Qed.

(** Requests that have no FreeBSD counterpart or are too long are refused
    with EINVAL and never reach the kernel. *)
Theorem refused_before_kernel (st : S) (s level optname optlen request argp fd buf nbytes errno : Z)
    (optval : list Z) :
  let level' := if level =? LINUX_SOL_SOCKET then SOL_SOCKET else level in
  let refused (r : sysres S) := r = SysRes (-1) EINVAL st in
  (linux2freebsd_opt level' optname < 0 ->
     refused (ff_setsockopt s level optname optval optlen errno st) /\
     ff_getsockopt s level optname optval optlen errno st = (SysRes (-1) EINVAL st, (optval, optlen))) /\
  (request ∉ keys ioctl_table -> refused (ff_ioctl fd request argp errno st)) /\
  (INT_MAX < nbytes -> refused (ff_read fd buf nbytes errno st) /\ refused (ff_write fd buf nbytes errno st)) /\
  (forall fl dst gw nm s1 s2 s3, ff_route_ctl None fl dst gw nm errno s1 s2 s3 st = Done (SysRes (-1) EINVAL st)).
Proof.
  intros level' refused. unfold refused. split_and!.
  - intros H. unfold ff_setsockopt, ff_getsockopt. fold level'. by rewrite (proj2 (Z.ltb_lt _ _)).
  - intros H. unfold ff_ioctl, linux2freebsd_ioctl. rewrite switch_notin by done. done.
  - intros H. unfold ff_read, ff_write. by rewrite (proj2 (Z.ltb_lt _ _)).
  - done.
Qed.

Lemma s32_congr a b : s32 (s32 a + b) = s32 (a + b).
Proof.
  unfold wraps. f_equal.
  replace ((a + 2 ^ (32 - 1)) mod 2 ^ 32 - 2 ^ (32 - 1) + b + 2 ^ (32 - 1))
    with ((a + 2 ^ (32 - 1)) mod 2 ^ 32 + b) by lia.
  rewrite Z.add_mod_idemp_l by lia. f_equal. lia.
Qed.

Lemma iov_len_int_sum iov : iov_len_int iov = s32 (fold_right Z.add 0 (map snd iov)).
Proof.
  unfold iov_len_int. set (f := fun len (v : Z * Z) => s32 (len + snd v)).
  enough (forall acc, fold_left f iov (s32 acc) = s32 (acc + fold_right Z.add 0 (map snd iov))) as H
    by exact (H 0).
  induction iov as [|v iov IH]; intros acc; simpl; [by rewrite Z.add_0_r|].
  unfold f at 2. rewrite s32_congr, IH. f_equal. lia.
Qed.

(** The length that [ff_readv] and [ff_writev] give the kernel is the sum
    of the segment lengths reduced to 32 bits: exact when the sum fits an int,
    different from it whenever it does not (where [ff_read] refuses). *)
Theorem iov_len_exact_iff (iov : list (Z * Z)) :
  let sum := fold_right Z.add 0 (map snd iov) in
  (iov_len_int iov = sum <-> INT_MIN <= sum <= INT_MAX) /\
  (INT_MAX < sum < 2 ^ 32 -> iov_len_int iov < 0).
Proof.
  intros sum. rewrite iov_len_int_sum. fold sum. unfold INT_MIN, INT_MAX. split; [split|].
  - intros E. pose proof (wraps_range 32 sum). simpl in *. lia.
  - intros H. apply wraps_small; simpl; lia.
  - intros H. unfold wraps. change (2 ^ (32 - 1)) with 2147483648. change (2 ^ 32) with 4294967296 in *.
    pose proof (Z.mod_unique (sum + 2147483648) 4294967296 1 (sum + 2147483648 - 4294967296)) as Hm.
    rewrite <- Hm; lia.
Qed.

End properties.

(** ** A concrete kernel: sockets are numbers that may have a name *)

Record toy := Toy { toy_names : Z -> option (list Z); toy_next : Z }.

Definition ok0 (st : toy) : kret toy := Kret 0 0 st.
Definition nosys (st : toy) : kret toy := Kret ff_ENOSYS 0 st.

#[global] Instance toy_kernel : Kernel toy := {|
  sys_socket _ _ _ st := Kret 0 (toy_next st) (Toy (toy_names st) (toy_next st + 1));
  kern_getsockopt _ _ _ v l st := (nosys st, (v, l));
  kern_setsockopt _ _ _ _ _ st := ok0 st;
  kern_ioctl _ _ _ st := ok0 st;
  kern_close _ st := ok0 st;
  kern_readv _ u st := Kret 0 (uio_resid u) st;
  kern_writev _ u st := Kret 0 (uio_resid u) st;
  sendit _ _ _ st := ok0 st;
  kern_recvit _ m st := (nosys st, m);
  kern_fcntl _ _ _ st := ok0 st;
  kern_accept _ _ st := (nosys st, None);
  fdrop st := st;
  free_soname st := st;
  sys_listen _ _ st := ok0 st;
  kern_bindat s a st := ok0 (Toy (fun x => if x =? s then Some (take (Z.to_nat (rd a 0)) a) else toy_names st x)
                              (toy_next st));
  kern_connectat _ _ st := ok0 st;
  kern_getpeername _ n st := (nosys st, (None, n));
  kern_getsockname s n st := (ok0 st, (toy_names st s, n));
  sys_shutdown _ _ st := ok0 st;
  userland_sysctl _ _ _ _ _ _ st := (nosys st, 0);
  kern_select _ st := ok0 st;
  kern_poll _ st := ok0 st;
  kern_kqueue st := ok0 st;
  sys_dup _ st := ok0 st;
  sys_dup2 _ _ st := ok0 st;
  rtrequest_fib _ _ _ _ _ st := ok0 st
|}.

Definition toy0 : toy := Toy (fun _ => None) 3.

Lemma refused_before_kernel_witness :
  ff_setsockopt 3 41 26 [] 0 0 toy0 = SysRes (-1) EINVAL toy0 /\
  ff_getsockopt 3 41 26 [] 0 0 toy0 = (SysRes (-1) EINVAL toy0, ([], 0)).
Proof.
  apply (refused_before_kernel toy0 3 41 26 0 0 0 0 0 0 0 []). reflexivity.
Defined.

Lemma iov_len_exact_iff_witness :
  (iov_len_int [(0, 2147483647); (0, 1)] = 2147483648 <-> INT_MIN <= 2147483648 <= INT_MAX) /\
  (INT_MAX < 2147483648 < 2 ^ 32 -> iov_len_int [(0, 2147483647); (0, 1)] < 0).
Proof. exact (iov_len_exact_iff [(0, 2147483647); (0, 1)]). Defined.
