(* ===== verification/InPcb.v ===== *)
(** Names of IPv4 sockets: in_pcbbind, in_pcbbind_setup and in_getsockaddr of
    src/freebsd/netinet/in_pcb.c under tcp_usr_bind, udp_bind, kern_bindat and
    kern_getsockname, and the wrappers of Syscall.v on top of them.

    A kernel is extended by a table of IPv4 sockets.  Ports and addresses are kept
    in host order.  The local addresses, the search for another socket on a port,
    the choice of a port and the insertion into the hash table are the class
    [PcbEnv], of which nothing is assumed.  In F-Stack prison_local_ip4 and
    priv_check_cred return 0 (lib/ff_glue.c), so that the checks of in_pcbbind_setup
    under a failed priv_check_cred are never made. *)
From stdpp Require Import base list gmap.
From Stdlib Require Import ZArith Lia.
From S2P Require Import Prelude Memory AbiTables Syscall.

Local Open Scope Z_scope.

Definition AF_INET : Z := 2.
Definition SIZEOF_SOCKADDR_IN : Z := 16.
Definition INADDR_ANY : Z := 0.
Definition INP_ANONPORT : Z := 0x40.
Definition INP_BINDANY : Z := 0x1000.
Definition INP_TIMEWAIT : Z := 0x1000000.
Definition INP_DROPPED : Z := 0x4000000.
Definition INP_REUSEPORT : Z := 0x8.
Definition INP_REUSEADDR : Z := 0x20.
Definition INP_BINDMULTI : Z := 0x40.
Definition INP_IPV6PROTO : Z := 0x4.
Definition INPLOOKUP_WILDCARD : Z := 1.

(** struct inpcb; [inp_tw]: tw_so_options of its tcptw, NULL is [None]. *)
Record inpcb := Inpcb {
  inp_laddr : Z; inp_lport : Z; inp_flags : Z; inp_flags2 : Z; inp_vflag : Z; inp_uid : Z; inp_tw : option Z
}.

Inductive in_proto := IPPROTO_TCP | IPPROTO_UDP.

(** struct socket with its protocol control block. *)
Record in_socket := InSocket { so_proto : in_proto; so_options : Z; so_pcb : inpcb }.

Definition set_local (inp : inpcb) (laddr lport : Z) : inpcb :=
  Inpcb laddr lport (inp_flags inp) (inp_flags2 inp) (inp_vflag inp) (inp_uid inp) (inp_tw inp).
Definition set_pflags (inp : inpcb) (f : Z) : inpcb :=
  Inpcb (inp_laddr inp) (inp_lport inp) f (inp_flags2 inp) (inp_vflag inp) (inp_uid inp) (inp_tw inp).

Definition IN_MULTICAST (i : Z) : bool := Z.land i 0xf0000000 =? 0xe0000000.

(** sin_port and sin_addr of a sockaddr_in. *)
Definition sin_port (sin : list Z) : Z := rd sin 2 * 256 + rd sin 3.
Definition sin_addr (sin : list Z) : Z := rd sin 4 * 2 ^ 24 + rd sin 5 * 2 ^ 16 + rd sin 6 * 2 ^ 8 + rd sin 7.

Class PcbEnv := {
  ifaddrhead_empty : bool;                                                (* TAILQ_EMPTY(&V_in_ifaddrhead) *)
  ifa_ifwithaddr_check : Z -> bool;
  in_pcblookup_local : gmap Z in_socket -> Z -> Z -> Z -> option inpcb;    (* address, port, lookupflags *)
  in_pcb_lport : gmap Z in_socket -> in_socket -> Z -> Z -> Z * Z;         (* the error and the port *)
  in_pcbinshash : gmap Z in_socket -> inpcb -> bool                        (* returns 0 *)
}.

Section pcb.
Context {E : PcbEnv}.

Definition inp_so_options (inp : inpcb) : Z :=
  Z.lor (if flag (inp_flags2 inp) INP_REUSEPORT then SO_REUSEPORT else 0)
        (if flag (inp_flags2 inp) INP_REUSEADDR then SO_REUSEADDR else 0).

Definition in_pcbbind_check_bindmulti (ni oi : inpcb) : bool :=
  negb (flag (inp_flags2 ni) INP_BINDMULTI && negb (inp_uid ni =? inp_uid oi)) &&
  negb (flag (inp_flags2 ni) INP_BINDMULTI && negb (flag (inp_flags2 oi) INP_BINDMULTI)).

(** The test of the socket [t] that has the port already. *)
Definition port_in_use (inp : inpcb) (addr reuseport : Z) (t : option inpcb) : bool :=
  match t with
  | None => false
  | Some t =>
      if flag (inp_flags t) INP_TIMEWAIT then
        match inp_tw t with None => true | Some o => Z.land reuseport o =? 0 end
      else if negb (flag (inp_flags2 inp) INP_BINDMULTI) && (Z.land reuseport (inp_so_options t) =? 0) then
        negb (addr =? INADDR_ANY) || negb (inp_laddr t =? INADDR_ANY)
        || negb (flag (inp_vflag inp) INP_IPV6PROTO) || negb (flag (inp_vflag t) INP_IPV6PROTO)
        || negb (in_pcbbind_check_bindmulti inp t)
      else false
  end.

(** The part for a given address: an error, or the address and [lport]. *)
Definition bind_to (tbl : gmap Z in_socket) (so : in_socket) (sin : list Z) (lportp lookupflags : Z) : Z + (Z * Z) :=
  let inp := so_pcb so in
  let reuse := Z.land (so_options so) (Z.lor SO_REUSEADDR SO_REUSEPORT) in
  let port := sin_port sin in
  let addr := sin_addr sin in
  if negb (rd sin 0 =? SIZEOF_SOCKADDR_IN) then inl ff_EINVAL
  else if negb (port =? lportp) && negb (lportp =? 0) then inl ff_EINVAL
  else
    let lport := if port =? lportp then 0 else port in
    let reuseport :=
      if IN_MULTICAST addr && negb (reuse =? 0) then Z.lor SO_REUSEADDR SO_REUSEPORT
      else Z.land (so_options so) SO_REUSEPORT in
    if negb (IN_MULTICAST addr) && negb (addr =? INADDR_ANY)
       && negb (flag (inp_flags inp) INP_BINDANY) && negb (ifa_ifwithaddr_check addr) then inl ff_EADDRNOTAVAIL
    else if negb (lport =? 0) && port_in_use inp addr reuseport (in_pcblookup_local tbl addr lport lookupflags)
    then inl ff_EADDRINUSE
    else inr (addr, lport).

Definition in_pcbbind_setup (tbl : gmap Z in_socket) (so : in_socket) (nam : option (list Z)) (laddrp lportp : Z)
  : Z + (Z * Z) :=
  let reuse := Z.land (so_options so) (Z.lor SO_REUSEADDR SO_REUSEPORT) in
  let lookupflags := if reuse =? 0 then INPLOOKUP_WILDCARD else 0 in
  if ifaddrhead_empty then inl ff_EADDRNOTAVAIL
  else if match nam with Some _ => negb (laddrp =? INADDR_ANY) | None => false end then inl ff_EINVAL
  else
    match (match nam with
           | None => inr (laddrp, 0)
           | Some sin => bind_to tbl so sin lportp lookupflags
           end) with
    | inl e => inl e
    | inr (laddr, lport) =>
        let lport := if negb (lportp =? 0) then lportp else lport in
        if lport =? 0 then
          let '(error, p) := in_pcb_lport tbl so laddr lookupflags in
          if negb (error =? 0) then inl error else inr (laddr, u16 p)
        else inr (laddr, lport)
    end.

(** The error and the new control block. *)
Definition in_pcbbind (tbl : gmap Z in_socket) (so : in_socket) (nam : option (list Z)) : Z * inpcb :=
  let inp := so_pcb so in
  if negb (inp_lport inp =? 0) || negb (inp_laddr inp =? INADDR_ANY) then (ff_EINVAL, inp)
  else
    let anonport := match nam with None => true | Some sin => sin_port sin =? 0 end in
    match in_pcbbind_setup tbl so nam (inp_laddr inp) (inp_lport inp) with
    | inl e => (e, inp)
    | inr (laddr, lport) =>
        let inp1 := set_local inp laddr lport in
        if negb (in_pcbinshash tbl inp1) then (ff_EAGAIN, set_local inp INADDR_ANY 0)
        else (0, if anonport then set_pflags inp1 (Z.lor (inp_flags inp1) INP_ANONPORT) else inp1)
    end.

Definition tcp_usr_bind (tbl : gmap Z in_socket) (so : in_socket) (nam : list Z) : Z * inpcb :=
  if negb (rd nam 0 =? SIZEOF_SOCKADDR_IN) then (ff_EINVAL, so_pcb so)
  else if (rd nam 1 =? AF_INET) && IN_MULTICAST (sin_addr nam) then (ff_EAFNOSUPPORT, so_pcb so)
  else if flag (inp_flags (so_pcb so)) INP_TIMEWAIT || flag (inp_flags (so_pcb so)) INP_DROPPED then (ff_EINVAL, so_pcb so)
  else in_pcbbind tbl so (Some nam).

Definition udp_bind (tbl : gmap Z in_socket) (so : in_socket) (nam : list Z) : Z * inpcb := in_pcbbind tbl so (Some nam).

(** so_proto->pr_usrreqs->pru_bind. *)
Definition sobind (tbl : gmap Z in_socket) (so : in_socket) (nam : list Z) : Z * inpcb :=
  match so_proto so with IPPROTO_TCP => tcp_usr_bind tbl so nam | IPPROTO_UDP => udp_bind tbl so nam end.

(** The sockaddr_in of a port and an address. *)
Definition in_sockaddr (port addr : Z) : list Z :=
  [SIZEOF_SOCKADDR_IN; AF_INET; port / 256 mod 256; port mod 256;
   addr / 2 ^ 24 mod 256; addr / 2 ^ 16 mod 256; addr / 2 ^ 8 mod 256; addr mod 256] ++ replicate 8 0.

Definition in_getsockaddr (so : in_socket) : list Z := in_sockaddr (inp_lport (so_pcb so)) (inp_laddr (so_pcb so)).

(** * The kernel *)

Definition with_sock (tbl : gmap Z in_socket) (s : Z) (so : in_socket) (inp : inpcb) : gmap Z in_socket :=
  <[s := InSocket (so_proto so) (so_options so) inp]> tbl.
End pcb.

(** The IPv4 sockets beside the rest of a kernel. *)
Record inet (W : Type) := Inet { i_socks : gmap Z in_socket; i_rest : W }.
Arguments Inet {W}.
Arguments i_socks {W}.
Arguments i_rest {W}.

Section kernel.
Context {W : Type} {E : PcbEnv} {K0 : Kernel W}.

Definition lift (st : inet W) (r : kret W) : kret (inet W) := Kret (k_rc r) (k_retval r) (Inet (i_socks st) (k_st r)).
Definition lift2 {A} (st : inet W) (r : kret W * A) : kret (inet W) * A := (lift st (fst r), snd r).

(** kern_bindat and kern_getsockname on a descriptor of the table, the length
    being MIN of the caller's and sa_len; other descriptors belong to the rest. *)
Definition inet_bindat (s : Z) (a : list Z) (st : inet W) : kret (inet W) :=
  match i_socks st !! s with
  | Some so => let '(error, inp) := sobind (i_socks st) so a in
               Kret error 0 (Inet (with_sock (i_socks st) s so inp) (i_rest st))
  | None => lift st (kern_bindat s a (i_rest st))
  end.

Definition inet_getsockname (s alen : Z) (st : inet W) : kret (inet W) * (option (list Z) * Z) :=
  match i_socks st !! s with
  | Some so => let sa := in_getsockaddr so in (Kret 0 0 st, (Some sa, Z.min alen (rd sa 0)))
  | None => lift2 st (kern_getsockname s alen (i_rest st))
  end.

#[export] Instance inet_kernel : Kernel (inet W) := {|
  sys_socket d t p st := lift st (sys_socket d t p (i_rest st));
  kern_getsockopt s l o v n st := lift2 st (kern_getsockopt s l o v n (i_rest st));
  kern_setsockopt s l o v n st := lift st (kern_setsockopt s l o v n (i_rest st));
  kern_ioctl fd r a st := lift st (kern_ioctl fd r a (i_rest st));
  kern_close fd st := lift st (kern_close fd (i_rest st));
  kern_readv fd u st := lift st (kern_readv fd u (i_rest st));
  kern_writev fd u st := lift st (kern_writev fd u (i_rest st));
  sendit s m f st := lift st (sendit s m f (i_rest st));
  kern_recvit s m st := lift2 st (kern_recvit s m (i_rest st));
  kern_fcntl fd c a st := lift st (kern_fcntl fd c a (i_rest st));
  kern_accept s n st := lift2 st (kern_accept s n (i_rest st));
  fdrop st := Inet (i_socks st) (fdrop (i_rest st));
  free_soname st := Inet (i_socks st) (free_soname (i_rest st));
  sys_listen s b st := lift st (sys_listen s b (i_rest st));
  kern_bindat := inet_bindat;
  kern_connectat s a st := lift st (kern_connectat s a (i_rest st));
  kern_getpeername s n st := lift2 st (kern_getpeername s n (i_rest st));
  kern_getsockname := inet_getsockname;
  sys_shutdown s h st := lift st (sys_shutdown s h (i_rest st));
  userland_sysctl n l op ol np nl st := lift2 st (userland_sysctl n l op ol np nl (i_rest st));
  kern_select n st := lift st (kern_select n (i_rest st));
  kern_poll n st := lift st (kern_poll n (i_rest st));
  kern_kqueue st := lift st (kern_kqueue (i_rest st));
  sys_dup fd st := lift st (sys_dup fd (i_rest st));
  sys_dup2 fd fd2 st := lift st (sys_dup2 fd fd2 (i_rest st));
  rtrequest_fib r d g n f st := lift st (rtrequest_fib r d g n f (i_rest st))
|}.

(** * The name of a bound socket *)

(** struct linux_sockaddr_in of a port and an address. *)
Definition linux_sin (port addr : Z) : list Z := [AF_INET; 0] ++ drop 2 (in_sockaddr port addr).

(** What a bind does: it fails and leaves the control block alone, or gives it the
    address and the port of [sin], a port of 0 being replaced. *)
Lemma in_pcbbind_spec tbl so sin :
  0 <= sin_port sin < 2 ^ 16 ->
  let '(e, inp) := in_pcbbind tbl so (Some sin) in
  (e <> 0 /\ inp = so_pcb so) \/
  (e = 0 /\ inp_laddr inp = sin_addr sin /\ 0 <= inp_lport inp < 2 ^ 16 /\
   (sin_port sin <> 0 -> inp_lport inp = sin_port sin)).
Proof.
  intros Hp. unfold in_pcbbind.
  destruct (Z.eqb_spec (inp_lport (so_pcb so)) 0) as [E1|]; cbn [negb orb]; [|by left].
  destruct (Z.eqb_spec (inp_laddr (so_pcb so)) INADDR_ANY) as [E2|]; cbn [negb]; [|by left].
  unfold in_pcbbind_setup. destruct ifaddrhead_empty; [by left|]. rewrite E1, E2. cbn [negb INADDR_ANY Z.eqb].
  unfold bind_to. destruct (negb (rd sin 0 =? _)); [by left|]. rewrite andb_false_r.
  destruct (_ && negb (ifa_ifwithaddr_check _)); [by left|].
  destruct (_ && port_in_use _ _ _ _); [by left|].
  set (lport := if sin_port sin =? 0 then 0 else sin_port sin).
  assert (lport = sin_port sin) as El by (unfold lport; by destruct (Z.eqb_spec (sin_port sin) 0)).
  assert (Hcommit : forall p, 0 <= p < 2 ^ 16 -> (sin_port sin <> 0 -> p = sin_port sin) ->
    let '(e, inp) := (let inp1 := set_local (so_pcb so) (sin_addr sin) p in
      if negb (in_pcbinshash tbl inp1) then (ff_EAGAIN, set_local (so_pcb so) INADDR_ANY 0)
      else (0, if sin_port sin =? 0 then set_pflags inp1 (Z.lor (inp_flags inp1) INP_ANONPORT) else inp1)) in
    (e <> 0 /\ inp = so_pcb so) \/
    (e = 0 /\ inp_laddr inp = sin_addr sin /\ 0 <= inp_lport inp < 2 ^ 16 /\ (sin_port sin <> 0 -> inp_lport inp = sin_port sin))).
  { intros p Hr Hs. cbn zeta. destruct (in_pcbinshash _ _); cbn [negb].
    - right. by destruct (sin_port sin =? 0).
    - left. split; [done|]. rewrite <- E1, <- E2. by destruct (so_pcb so). }
  destruct (Z.eqb_spec lport 0).
  - destruct (in_pcb_lport _ _ _ _) as [error p]. destruct (Z.eqb_spec error 0); cbn [negb]; [|by left].
    apply Hcommit; [apply wrapu_range; lia|]. by rewrite <- El.
  - apply Hcommit; [by rewrite El|by rewrite El].
Qed.

Lemma sobind_spec tbl so sin :
  0 <= sin_port sin < 2 ^ 16 ->
  let '(e, inp) := sobind tbl so sin in
  (e <> 0 /\ inp = so_pcb so) \/
  (e = 0 /\ inp_laddr inp = sin_addr sin /\ 0 <= inp_lport inp < 2 ^ 16 /\
   (sin_port sin <> 0 -> inp_lport inp = sin_port sin)).
Proof.
  intros Hp. unfold sobind, udp_bind, tcp_usr_bind. destruct (so_proto so); [|by apply in_pcbbind_spec].
  destruct (negb _); [by left|]. destruct (_ && _); [by left|]. destruct (_ || _); [by left|]. by apply in_pcbbind_spec.
Qed.

(** The name of a socket through [ff_getsockname]. *)
Lemma getsockname_spec s so buf n errno (st : inet W) :
  i_socks st !! s = Some so -> (16 <= length buf)%nat ->
  exists res buf', ff_getsockname s (Some buf) n errno st = Done (res, Some buf', Z.min n 16) /\ r_ret res = 0 /\
    take 16 buf' = linux_sin (inp_lport (so_pcb so)) (inp_laddr (so_pcb so)).
Proof.
  intros Hs Hb. set (name := linux_sin (inp_lport (so_pcb so)) (inp_laddr (so_pcb so))).
  destruct (from_bsdaddr_spec name (in_getsockaddr so) buf) as (buf' & Ef & Ht); try done.
  { unfold linux_address. rewrite !andb_true_iff. split_and!; [done|done| |by apply bool_decide_true].
    unfold name, linux_sin, in_sockaddr, is_bytes. cbn [app drop forallb replicate].
    repeat (apply andb_true_iff; split); try done; apply Z.leb_le || apply Z.ltb_lt; apply Z.mod_pos_bound; lia. }
  { intros i Hi. change (length name) with 16%nat in Hi. unfold at_, name, linux_sin.
    assert (exists k, Z.to_nat i = S (S k)) as (k & ->) by (exists (Z.to_nat i - 2)%nat; lia). done. }
  unfold ff_getsockname, get_name. cbn [kern_getsockname inet_kernel]. unfold inet_getsockname. rewrite Hs.
  cbn [k_rc]. change (negb (0 =? 0)) with false. cbv iota. rewrite Ef. cbn [fmap outcome_fmap mbind outcome_bind mret].
  do 2 eexists. split; [done|]. by split.
Qed.
(** The bytes of a port and of an address. *)
Lemma port_bytes a : 0 <= rd a 2 < 256 -> 0 <= rd a 3 < 256 ->
  [sin_port a / 256 mod 256; sin_port a mod 256] = [rd a 2; rd a 3] /\ 0 <= sin_port a < 2 ^ 16.
Proof.
  intros H2 H3. unfold sin_port. split; [|lia].
  rewrite (Z.div_add_l _ 256), (Z.div_small (rd a 3)), Z.add_0_r, (Z.mod_small (rd a 2)), Z.add_comm, Z.mod_add, Z.mod_small by lia. done.
Qed.

Lemma addr_bytes a : (forall i, (4 <= i < 8)%nat -> 0 <= rd a i < 256) ->
  [sin_addr a / 2 ^ 24 mod 256; sin_addr a / 2 ^ 16 mod 256; sin_addr a / 2 ^ 8 mod 256; sin_addr a mod 256] =
  [rd a 4; rd a 5; rd a 6; rd a 7].
Proof.
  intros H. pose proof (H 4%nat ltac:(lia)) as Hx. pose proof (H 5%nat ltac:(lia)) as Hb.
  pose proof (H 6%nat ltac:(lia)) as Hc. pose proof (H 7%nat ltac:(lia)) as Hd. clear H. unfold sin_addr.
  set (x := rd a 4) in *. set (b := rd a 5) in *. set (c := rd a 6) in *. set (d := rd a 7) in *.
  assert (forall q r k, 0 <= r < k -> (q * k + r) / k = q) as Hdiv
    by (intros q r k Hr; rewrite Z.div_add_l, Z.div_small by lia; lia).
  assert (forall q r, 0 <= r < 256 -> (q * 256 + r) mod 256 = r) as Hmod
    by (intros q r Hr; rewrite Z.add_comm, Z.mod_add, Z.mod_small by lia; lia).
  repeat f_equal.
  - replace (_ + d) with (x * 2 ^ 24 + (b * 2 ^ 16 + c * 2 ^ 8 + d)) by lia. rewrite Hdiv by lia. apply (Hmod 0 x). lia.
  - replace (_ + d) with ((x * 256 + b) * 2 ^ 16 + (c * 2 ^ 8 + d)) by lia. rewrite Hdiv by lia. by apply Hmod.
  - replace (_ + d) with ((x * 2 ^ 16 + b * 256 + c) * 2 ^ 8 + d) by lia. rewrite Hdiv by lia.
    replace (_ + c) with ((x * 256 + b) * 256 + c) by lia. by apply Hmod.
  - replace (_ + d) with ((x * 2 ^ 16 + b * 256 + c) * 256 + d) by lia. by apply Hmod.
Qed.

End kernel.

(** ** An example

    127.0.0.1 is local, no port is in use, and 49152 is chosen for port 0. *)
Definition lo_env : PcbEnv := {|
  ifaddrhead_empty := false;
  ifa_ifwithaddr_check a := a =? 0x7f000001;
  in_pcblookup_local _ _ _ _ := None;
  in_pcb_lport _ _ _ _ := (0, 49152);
  in_pcbinshash _ _ := true
|}.

Definition ex_pcb : inpcb := Inpcb 0 0 0 0 1 0 None.
Definition ex_inet : inet toy := Inet {[3 := InSocket IPPROTO_TCP 0 ex_pcb]} toy0.
Definition any_port (a : list Z) : list Z := take 2 a ++ [0; 0] ++ drop 4 a.
Definition other_host (a : list Z) : list Z := take 4 a ++ [10; 0; 0; 1] ++ drop 8 a.
#[local] Abbreviation bind_lo a := (ff_bind (K := inet_kernel (E := lo_env)) 3 (Some a) 16 0 (replicate 128 7) ex_inet).


(** A chosen port, and an address that is not local. *)
Example bind_any_port :
  match bind_lo (any_port sample_addr) with
  | Done res => (r_ret res, (fun so => inp_lport (so_pcb so)) <$> i_socks (r_st res) !! 3) = (0, Some 49152)
  | _ => False
  end.
Proof. vm_compute. reflexivity. Qed.

Example bind_not_local :
  match bind_lo (other_host sample_addr) with
  | Done res => (r_ret res, r_errno res) = (-1, EADDRNOTAVAIL)
  | _ => False
  end.
Proof. vm_compute. reflexivity. Qed.
