(* ===== verification/TimingWheel.v ===== *)
(** The application timer wheel of src/example/fstack0/timingwheel.c.

    A slot is the list of its timers in list order.  The loop of [tw_trigger]
    walks the current slot with the pointer pair of list_for_each_safe: the
    successor is read before the timer's function runs.  The return code of a
    timer function is given by the parameter [call]; timer functions that
    themselves add or delete timers are not modelled. *)
From stdpp Require Import base list functions sets.
From Stdlib Require Import ZArith Lia.
From S2P Require Import Prelude.

Local Open Scope Z_scope.

Definition TW_SUCCESS : Z := 0.
Definition TW_CLOSE : Z := 1.

Record timingwheel_timer := Timer {
  t_id : nat;                 (* the address *)
  t_ctx : Z;
  t_func : option Z;
  t_ms : Z;
  t_level : Z
}.

Record timingwheel := Tw {
  tw_p : Z;
  tw_size : Z;
  tw_slot : Z -> list timingwheel_timer;
  tw_fresh : nat              (* the next address *)
}.

Definition set_slot (s : Z) (l : list timingwheel_timer) (tw : timingwheel) : timingwheel :=
  Tw (tw_p tw) (tw_size tw) (<[s := l]> (tw_slot tw)) (tw_fresh tw).

Definition tw_open (size : Z) : timingwheel :=
  Tw 0 (if Z.rem size 10 =? 0 then Z.quot size 10 else Z.quot size 10 + 1) (fun _ => []) 0.

(** The timers that [tw_close] frees, slot by slot. *)
Definition tw_close (tw : timingwheel) : list nat :=
  concat (map (fun i => map t_id (tw_slot tw (Z.of_nat i))) (seq 0 (Z.to_nat (tw_size tw)))).

Definition tw_add_timer (func : option Z) (ctx ms : Z) (tw : timingwheel) : timingwheel * nat :=
  let n := Z.quot ms 10 in
  let p := Z.rem (tw_p tw + n) (tw_size tw) in
  let l := Z.quot n (tw_size tw) in
  let timer := Timer (tw_fresh tw) ctx func ms l in
  let tw' := set_slot p (tw_slot tw p ++ [timer]) tw in
  (Tw (tw_p tw') (tw_size tw') (tw_slot tw') (S (tw_fresh tw)), tw_fresh tw).

Definition list_del (id : nat) (l : list timingwheel_timer) : list timingwheel_timer :=
  filter (fun t => t_id t <> id) l.

(** The timer is unlinked from the slot that holds it. *)
Definition tw_del_timer (id : option nat) (tw : timingwheel) : timingwheel :=
  match id with
  | None => tw
  | Some id => Tw (tw_p tw) (tw_size tw) (fun s => list_del id (tw_slot tw s)) (tw_fresh tw)
  end.

Fixpoint find_timer (id : nat) (l : list timingwheel_timer) : option timingwheel_timer :=
  match l with
  | [] => None
  | t :: r => if decide (t_id t = id) then Some t else find_timer id r
  end.

Fixpoint next_timer (id : nat) (l : list timingwheel_timer) : option nat :=
  match l with
  | [] => None
  | t :: r => if decide (t_id t = id) then t_id <$> head r else next_timer id r
  end.

Definition set_level (t : timingwheel_timer) (l : Z) : timingwheel_timer :=
  Timer (t_id t) (t_ctx t) (t_func t) (t_ms t) l.

Definition update_timer (t : timingwheel_timer) (l : list timingwheel_timer) : list timingwheel_timer :=
  map (fun x => if decide (t_id x = t_id t) then t else x) l.

Section trigger.
Context (call : timingwheel_timer -> Z).

(** The body of the loop for timer [t] of the current slot; [log] collects the
    timers whose function was called. *)
Definition trigger_body (t : timingwheel_timer) (tw : timingwheel) : timingwheel * list nat :=
  let sp := tw_p tw in
  if t_level t =? 0 then
    match t_func t with
    | None => (tw, [])
    | Some _ =>
        let ret := call t in
        if ret =? TW_SUCCESS then
          let n := Z.quot (t_ms t) 10 in
          let p := Z.rem (tw_p tw + n) (tw_size tw) in
          let l := Z.quot n (tw_size tw) in
          let tw1 := set_slot sp (list_del (t_id t) (tw_slot tw sp)) tw in
          (set_slot p (tw_slot tw1 p ++ [set_level t l]) tw1, [t_id t])
        else if ret =? TW_CLOSE then
          (set_slot sp (list_del (t_id t) (tw_slot tw sp)) tw, [t_id t])
        else (tw, [t_id t])
    end
  else (set_slot sp (update_timer (set_level t (t_level t - 1)) (tw_slot tw sp)) tw, []).

Fixpoint trigger_loop (fuel : nat) (cur : option nat) (tw : timingwheel) (log : list nat)
    : outcome (timingwheel * list nat) :=
  match fuel with
  | O => Loop
  | S fuel' =>
      match cur with
      | None => mret (tw, log)
      | Some id =>
          match find_timer id (tw_slot tw (tw_p tw)) with
          | None => Fault
          | Some t =>
              let temp := next_timer id (tw_slot tw (tw_p tw)) in
              let '(tw', fired) := trigger_body t tw in
              trigger_loop fuel' temp tw' (log ++ fired)
          end
      end
  end.

Definition tw_advance (tw : timingwheel) : timingwheel :=
  let p := tw_p tw + 1 in
  Tw (if p =? tw_size tw then 0 else p) (tw_size tw) (tw_slot tw) (tw_fresh tw).

Definition tw_trigger (fuel : nat) (tw : timingwheel) : outcome (timingwheel * list nat) :=
  let tw := tw_advance tw in
  trigger_loop fuel (t_id <$> head (tw_slot tw (tw_p tw))) tw [].

(** * The effect of a trigger *)

(** Ticks of a timer, which are not a multiple of the wheel size. *)
Definition ticks_of (t : timingwheel_timer) : Z := Z.quot (t_ms t) 10.

Definition good (size : Z) (t : timingwheel_timer) : Prop :=
  0 < ticks_of t /\ ticks_of t mod size <> 0 /\ 0 <= t_level t.

(** What stays in the current slot, and what moves to slot [s]. *)
Definition retained (t : timingwheel_timer) : list timingwheel_timer :=
  if t_level t =? 0 then
    match t_func t with
    | None => [t]
    | Some _ => if call t =? TW_SUCCESS then [] else if call t =? TW_CLOSE then [] else [t]
    end
  else [set_level t (t_level t - 1)].

Definition moved (p size s : Z) (t : timingwheel_timer) : list timingwheel_timer :=
  if (t_level t =? 0) && bool_decide (t_func t <> None) && (call t =? TW_SUCCESS)
     && (Z.rem (p + ticks_of t) size =? s)
  then [set_level t (Z.quot (ticks_of t) size)] else [].

Definition fired_by (t : timingwheel_timer) : list nat :=
  if (t_level t =? 0) && bool_decide (t_func t <> None) then [t_id t] else [].

Definition ids (l : list timingwheel_timer) : list nat := map t_id l.

Lemma find_mid kept t rest :
  t_id t ∉ ids kept -> find_timer (t_id t) (kept ++ t :: rest) = Some t.
Proof.
  induction kept as [|x kept IH]; simpl; intros H; [by rewrite decide_True|].
  apply not_elem_of_cons in H as [? ?]. rewrite decide_False by done. auto.
Qed.

Lemma next_mid kept t rest :
  t_id t ∉ ids kept -> next_timer (t_id t) (kept ++ t :: rest) = t_id <$> head rest.
Proof.
  induction kept as [|x kept IH]; simpl; intros H; [by rewrite decide_True|].
  apply not_elem_of_cons in H as [? ?]. rewrite decide_False by done. auto.
Qed.

Lemma list_del_notin id l : id ∉ ids l -> list_del id l = l.
Proof.
  induction l as [|x l IH]; simpl; [done|]. intros H. apply not_elem_of_cons in H as [? ?].
  unfold list_del in *. rewrite filter_cons, decide_True by done. by rewrite IH.
Qed.

Lemma list_del_mid kept t rest :
  t_id t ∉ ids kept -> t_id t ∉ ids rest -> list_del (t_id t) (kept ++ t :: rest) = kept ++ rest.
Proof.
  intros Hk Hr. unfold list_del. rewrite filter_app, filter_cons, decide_False by tauto.
  fold (list_del (t_id t) kept). fold (list_del (t_id t) rest). by rewrite !list_del_notin.
Qed.

Lemma update_notin t l : t_id t ∉ ids l -> update_timer t l = l.
Proof.
  induction l as [|x l IH]; simpl; [done|]. intros H. apply not_elem_of_cons in H as [? ?].
  rewrite decide_False by done. by rewrite IH.
Qed.

Lemma update_mid kept t t' rest :
  t_id t' = t_id t -> t_id t ∉ ids kept -> t_id t ∉ ids rest ->
  update_timer t' (kept ++ t :: rest) = kept ++ t' :: rest.
Proof.
  intros E Hk Hr. unfold update_timer. rewrite map_app. cbn [map]. rewrite decide_True by done.
  fold (update_timer t' kept). fold (update_timer t' rest). by rewrite !update_notin by congruence.
Qed.

Lemma retained_ids t : retained t = [] \/ exists t', retained t = [t'] /\ t_id t' = t_id t.
Proof.
  unfold retained. destruct (t_level t =? 0); [|right; by eexists].
  destruct (t_func t); [|right; by eexists]. destruct (_ =? _); [by left|].
  destruct (_ =? _); [by left|right; by eexists].
Qed.

(** One turn of the loop on a timer that does not return to its own slot. *)
Lemma trigger_body_spec t kept rest tw :
  tw_slot tw (tw_p tw) = kept ++ t :: rest -> t_id t ∉ ids kept -> t_id t ∉ ids rest ->
  Z.rem (tw_p tw + ticks_of t) (tw_size tw) <> tw_p tw ->
  exists tw', trigger_body t tw = (tw', fired_by t) /\
    tw_p tw' = tw_p tw /\ tw_size tw' = tw_size tw /\ tw_fresh tw' = tw_fresh tw /\
    tw_slot tw' (tw_p tw) = kept ++ retained t ++ rest /\
    (forall s, s <> tw_p tw -> tw_slot tw' s = tw_slot tw s ++ moved (tw_p tw) (tw_size tw) s t).
Proof.
  intros Hs Hk Hr Hp. unfold trigger_body, fired_by, moved, retained. fold (ticks_of t).
  destruct (t_level t =? 0) eqn:El; cbn [andb].
  - destruct (t_func t) as [f|] eqn:Ef.
    + rewrite bool_decide_eq_true_2 by done. cbn [andb].
      destruct (call t =? TW_SUCCESS) eqn:Er; cbn [andb].
      * eexists; split; [done|]. simpl. split_and!; try done.
        -- rewrite fn_lookup_insert_ne by done. rewrite fn_lookup_insert.
           rewrite Hs. by apply list_del_mid.
        -- intros s Hsp. destruct (Z.eqb_spec (Z.rem (tw_p tw + ticks_of t) (tw_size tw)) s) as [E|E].
           ++ rewrite E, fn_lookup_insert. by rewrite fn_lookup_insert_ne by done.
           ++ rewrite !fn_lookup_insert_ne by done. by rewrite app_nil_r.
      * destruct (call t =? TW_CLOSE); (eexists; split; [done|]); simpl; split_and!; try done.
        -- rewrite fn_lookup_insert, Hs. by apply list_del_mid.
        -- intros s Hsp. rewrite fn_lookup_insert_ne by done. by rewrite app_nil_r.
        -- intros s Hsp. by rewrite app_nil_r.
    + rewrite bool_decide_eq_false_2 by (intros H; by apply H). eexists; split; [done|]. simpl.
      split_and!; try done. intros s Hsp. by rewrite app_nil_r.
  - eexists; split; [done|]. simpl. split_and!; try done.
    + rewrite fn_lookup_insert, Hs. by apply update_mid.
    + intros s Hsp. rewrite fn_lookup_insert_ne by done. by rewrite app_nil_r.
Qed.

Lemma trigger_loop_spec todo : forall kept tw log,
  tw_slot tw (tw_p tw) = kept ++ todo -> NoDup (ids (kept ++ todo)) ->
  Forall (fun t => Z.rem (tw_p tw + ticks_of t) (tw_size tw) <> tw_p tw) todo ->
  exists tw', (forall fuel, (length todo < fuel)%nat ->
      trigger_loop fuel (t_id <$> head todo) tw log = Done (tw', log ++ concat (map fired_by todo))) /\
    tw_p tw' = tw_p tw /\ tw_size tw' = tw_size tw /\ tw_fresh tw' = tw_fresh tw /\
    tw_slot tw' (tw_p tw) = kept ++ concat (map retained todo) /\
    (forall s, s <> tw_p tw ->
       tw_slot tw' s = tw_slot tw s ++ concat (map (moved (tw_p tw) (tw_size tw) s) todo)).
Proof.
  induction todo as [|t todo IH]; intros kept tw log Hs Hnd Hg.
  - exists tw. simpl. rewrite !app_nil_r in *. split_and!; try done; [|by intros; rewrite app_nil_r].
    intros [|fuel] ?; [lia|done].
  - apply Forall_cons in Hg as [Ht Hg]. unfold ids in Hnd. rewrite map_app in Hnd. simpl in Hnd.
    apply NoDup_app in Hnd as (Nk & Nd & Nt). apply NoDup_cons in Nt as [Ntr Nt].
    assert (Hk : t_id t ∉ ids kept) by (intros H; apply (Nd _ H); set_solver).
    destruct (trigger_body_spec t kept todo tw) as (tw1 & E1 & P1 & S1 & F1 & K1 & M1); [done..|].
    rewrite <- P1 in K1.
    assert (Hk1 : tw_slot tw1 (tw_p tw1) = (kept ++ retained t) ++ todo) by (by rewrite <- app_assoc).
    destruct (IH (kept ++ retained t) tw1 (log ++ fired_by t)) as (tw2 & E2 & P2 & S2 & F2 & K2 & M2).
    { done. }
    { unfold ids. rewrite !map_app. apply NoDup_app. split_and!; [| |done].
      - destruct (retained_ids t) as [->|(t' & -> & Eid)]; [by rewrite app_nil_r|].
        apply NoDup_app. split_and!; [done| |apply NoDup_singleton].
        simpl. rewrite Eid. intros x Hx ->%list_elem_of_singleton. done.
      - intros x Hx Hxt. apply elem_of_app in Hx as [Hx|Hx]; [apply (Nd x Hx); set_solver|].
        destruct (retained_ids t) as [Er|(t' & Er & Eid)]; rewrite Er in Hx; simpl in Hx;
          [by apply elem_of_nil in Hx|]. apply list_elem_of_singleton in Hx as ->. by rewrite Eid in Hxt. }
    { rewrite P1, S1. done. }
    exists tw2. rewrite P1 in *. rewrite S1 in *. split_and!; try congruence.
    + intros [|fuel] Hf; [simpl in Hf; lia|]. cbn [trigger_loop head fmap option_fmap option_map].
      rewrite Hs, find_mid, next_mid, E1 by done. rewrite E2 by (simpl in Hf; lia).
      simpl. by rewrite app_assoc.
    + rewrite K2. simpl. by rewrite app_assoc.
    + intros s Hsp. rewrite M2, M1 by done. simpl. by rewrite app_assoc.
Qed.

(** ** The wheel invariant *)

Record wf (tw : timingwheel) : Prop := {
  W_p : 0 <= tw_p tw < tw_size tw;
  W_good : forall s (t : timingwheel_timer), t ∈ tw_slot tw s ->
    0 <= s < tw_size tw /\ good (tw_size tw) t /\ (t_id t < tw_fresh tw)%nat;
  W_nodup : forall s, NoDup (ids (tw_slot tw s));
  W_uniq : forall s1 s2 (t1 t2 : timingwheel_timer), t1 ∈ tw_slot tw s1 -> t2 ∈ tw_slot tw s2 ->
    t_id t1 = t_id t2 -> s1 = s2
}.

(** Functions that keep at most the timer itself. *)
Definition keeps_id (f : timingwheel_timer -> list timingwheel_timer) : Prop :=
  forall t, f t = [] \/ exists t', f t = [t'] /\ t_id t' = t_id t.

Lemma moved_keeps p size s : keeps_id (moved p size s).
Proof. intros t. unfold moved. destruct (_ && _); [right; by eexists|by left]. Qed.

Lemma retained_keeps : keeps_id retained.
Proof. intros t. apply retained_ids. Qed.

Lemma concat_ids_sublist f l : keeps_id f -> ids (concat (map f l)) `sublist_of` ids l.
Proof.
  intros Hf. induction l as [|t l IH]; simpl; [done|].
  destruct (Hf t) as [->|(t' & -> & E)]; simpl; [by constructor|]. rewrite E. by constructor.
Qed.

Lemma concat_map_in (f : timingwheel_timer -> list timingwheel_timer) (l : list timingwheel_timer)
    (t' : timingwheel_timer) :
  t' ∈ concat (map f l) -> exists t, t ∈ l /\ t' ∈ f t.
Proof.
  induction l as [|t l IH]; simpl; [by intros ?%elem_of_nil|].
  intros [H|H]%elem_of_app; [exists t; set_solver|]. destruct (IH H) as (x & ? & ?). exists x. set_solver.
Qed.

Lemma in_concat_map (f : timingwheel_timer -> list timingwheel_timer) (l : list timingwheel_timer)
    (t t' : timingwheel_timer) : t ∈ l -> t' ∈ f t -> t' ∈ concat (map f l).
Proof.
  intros Ht Ht'. induction l as [|x l IH]; [by apply elem_of_nil in Ht|]. simpl.
  apply elem_of_app. apply elem_of_cons in Ht as [->|Ht]; auto.
Qed.

Lemma elem_ids (t : timingwheel_timer) (l : list timingwheel_timer) : t ∈ l -> t_id t ∈ ids l.
Proof. intros H. apply list_elem_of_fmap. by exists t. Qed.

(** A timer of the result comes from one of the current slot or was in its slot. *)
Definition origin (tw : timingwheel) (p s : Z) (t' : timingwheel_timer) : Prop :=
  (s <> p /\ t' ∈ tw_slot tw s) \/
  exists t, t ∈ tw_slot tw p /\
    ((s = p /\ t' ∈ retained t) \/ (s <> p /\ t' ∈ moved p (tw_size tw) s t)).

Lemma good_retained size (t t' : timingwheel_timer) : good size t -> t' ∈ retained t -> good size t' /\ t_id t' = t_id t.
Proof.
  intros (H1 & H2 & H3). unfold retained. destruct (Z.eqb_spec (t_level t) 0).
  - destruct (t_func t); [|by intros ->%list_elem_of_singleton].
    destruct (_ =? _); [by intros ?%elem_of_nil|].
    destruct (_ =? _); [by intros ?%elem_of_nil|by intros ->%list_elem_of_singleton].
  - intros ->%list_elem_of_singleton. split; [|done]. split_and!; [done|done|simpl; lia].
Qed.

Lemma moved_inv p size s (t t' : timingwheel_timer) :
  t' ∈ moved p size s t ->
  s = Z.rem (p + ticks_of t) size /\ t' = set_level t (Z.quot (ticks_of t) size) /\ t_level t = 0.
Proof.
  unfold moved. destruct (_ && _) eqn:E; [|by intros ?%elem_of_nil].
  intros ->%list_elem_of_singleton. bool_hyps. rewrite Z.eqb_eq in *. done.
Qed.

Lemma rem_range p size n : 0 <= p < size -> 0 < n -> 0 <= Z.rem (p + n) size < size.
Proof. intros. rewrite Z.rem_mod_nonneg by lia. apply Z.mod_pos_bound. lia. Qed.

(** A timer that is not a whole number of turns goes to another slot. *)
Lemma good_moves_away size p t :
  0 <= p < size -> good size t -> Z.rem (p + ticks_of t) size <> p.
Proof.
  intros Hp (Hn & Hm & _). rewrite Z.rem_mod_nonneg by lia. intros E. apply Hm.
  assert (p + ticks_of t = size * ((p + ticks_of t) / size) + p) by (rewrite <- E at 3; apply Z.div_mod; lia).
  replace (ticks_of t) with (((p + ticks_of t) / size) * size) by lia. apply Z.mod_mul. lia.
Qed.

Lemma retained_moved p size s (t t1 t2 : timingwheel_timer) : t1 ∈ retained t -> t2 ∈ moved p size s t -> False.
Proof.
  unfold retained, moved. destruct (t_level t =? 0); [|by intros _ ?%elem_of_nil].
  destruct (t_func t); simpl; [|by intros _ ?%elem_of_nil].
  destruct (call t =? TW_SUCCESS); [by intros ?%elem_of_nil|]. by rewrite ?andb_false_r; intros _ ?%elem_of_nil.
Qed.

Lemma ids_inj l (t1 t2 : timingwheel_timer) :
  NoDup (ids l) -> t1 ∈ l -> t2 ∈ l -> t_id t1 = t_id t2 -> t1 = t2.
Proof.
  intros Hn H1 H2 E. apply list_elem_of_lookup in H1 as [i Hi]. apply list_elem_of_lookup in H2 as [j Hj].
  assert (i = j) as ->; [|congruence].
  eapply (NoDup_lookup (ids l)); [done| |]; unfold ids; rewrite list_lookup_fmap; [by rewrite Hi|by rewrite Hj, E].
Qed.

Lemma trigger_spec tw :
  wf tw ->
  let q := tw_p (tw_advance tw) in
  exists tw' log, (forall fuel, (length (tw_slot tw q) < fuel)%nat -> tw_trigger fuel tw = Done (tw', log)) /\
    log = concat (map fired_by (tw_slot tw q)) /\ wf tw' /\
    tw_p tw' = q /\ tw_size tw' = tw_size tw /\ tw_fresh tw' = tw_fresh tw /\
    tw_slot tw' q = concat (map retained (tw_slot tw q)) /\
    (forall s, s <> q -> tw_slot tw' s = tw_slot tw s ++ concat (map (moved q (tw_size tw) s) (tw_slot tw q))).
Proof.
  intros [Wp Wg Wn Wu] q.
  assert (Hq : 0 <= q < tw_size tw) by (unfold q, tw_advance; simpl; destruct (Z.eqb_spec (tw_p tw + 1) (tw_size tw)); lia).
  assert (Eq : tw_p (tw_advance tw) = q) by done. clearbody q.
  destruct (trigger_loop_spec (tw_slot tw q) [] (tw_advance tw) []) as (tw' & E & P & S & F & K & M).
  { by rewrite Eq. }
  { apply Wn. }
  { apply Forall_forall. rewrite Eq. intros t Ht. apply good_moves_away; [done|]. by apply (Wg q t). }
  rewrite Eq in *. change (tw_size (tw_advance tw)) with (tw_size tw) in *.
  exists tw', (concat (map fired_by (tw_slot tw q))). split_and!; [|done| |done..].
  { intros fuel Hf. unfold tw_trigger. rewrite Eq. by rewrite E. }
  assert (Hor : forall s t', t' ∈ tw_slot tw' s -> origin tw q s t').
  { intros s t' Ht'. destruct (decide (s = q)) as [->|Hs].
    - rewrite K in Ht'. apply concat_map_in in Ht' as (t & ? & ?). right. exists t. auto.
    - rewrite M in Ht' by done. apply elem_of_app in Ht' as [?|Ht']; [by left|].
      apply concat_map_in in Ht' as (t & ? & ?). right. exists t. auto. }
  assert (Hsrc : forall s t', t' ∈ tw_slot tw' s ->
     0 <= s < tw_size tw /\ good (tw_size tw) t' /\ exists t s0, t ∈ tw_slot tw s0 /\ t_id t = t_id t' /\
       (s0 = q \/ s0 = s)).
  { intros s t' [[Hs Ht]|(t & Ht & [[-> Hr]|[Hs Hm]])]%Hor.
    - destruct (Wg _ _ Ht) as (? & ? & ?). split_and!; [lia..|done|]. exists t', s. auto.
    - destruct (Wg _ _ Ht) as (? & Hgd & ?). destruct (good_retained _ _ _ Hgd Hr) as [? Eid].
      split_and!; [lia..|done|]. exists t, q. rewrite Eid. auto.
    - destruct (Wg _ _ Ht) as (? & Hgd & ?). destruct (moved_inv _ _ _ _ _ Hm) as (-> & -> & _).
      destruct Hgd as (H1 & H2 & H3). pose proof (rem_range q (tw_size tw) (ticks_of t) Hq H1).
      split_and!; [lia..| |exists t, q; auto].
      split_and!; [done|done|]. simpl. apply Z.quot_pos; lia. }
  split; [by rewrite P, S| | |].
  - intros s t' Ht'. rewrite S, F. destruct (Hsrc s t' Ht') as (? & ? & t & s0 & Ht & <- & _).
    split_and!; [lia..|done|]. by apply (Wg s0 t).
  - intros s. destruct (decide (s = q)) as [->|Hs].
    + rewrite K. eapply sublist_NoDup; [apply Wn|]. apply concat_ids_sublist, retained_keeps.
    + rewrite M by done. unfold ids. rewrite map_app. apply NoDup_app. split_and!; [apply Wn| |].
      * intros x Hx Hm. assert (x ∈ ids (tw_slot tw q)) as Hxq
          by (eapply elem_of_submseteq; [exact Hm|]; apply sublist_submseteq, concat_ids_sublist, moved_keeps).
        apply list_elem_of_fmap in Hx as (t1 & -> & H1). apply list_elem_of_fmap in Hxq as (t2 & E2 & H2).
        by apply Hs, (Wu s q t1 t2).
      * eapply sublist_NoDup; [apply Wn|]. apply concat_ids_sublist, moved_keeps.
  - intros s1 s2 t1 t2 H1 H2 Eid.
    assert (Hkey : forall s t', t' ∈ tw_slot tw' s -> exists t s0, t ∈ tw_slot tw s0 /\ t_id t = t_id t' /\
       ((s0 <> q /\ s = s0) \/ (s0 = q /\ (t' ∈ retained t /\ s = q \/ t' ∈ moved q (tw_size tw) s t)))).
    { intros s t' [[Hs Ht]|(t & Ht & [[-> Hr]|[Hs Hm]])]%Hor.
      - exists t', s. split_and!; [done|done|by left].
      - exists t, q. destruct (Wg _ _ Ht) as (_ & Hgd & _). destruct (good_retained _ _ _ Hgd Hr).
        split_and!; [done|done|right]. split; [done|by left].
      - exists t, q. pose proof Hm as Hm'.
        apply moved_inv in Hm' as (_ & -> & _). split_and!; [done|done|right]. split; [done|by right]. }
    destruct (Hkey _ _ H1) as (x1 & a1 & X1 & I1 & C1). destruct (Hkey _ _ H2) as (x2 & a2 & X2 & I2 & C2).
    assert (a1 = a2) as <- by (apply (Wu a1 a2 x1 x2); congruence).
    destruct C1 as [[Hn ->]|[-> C1]], C2 as [[Hn' ->]|[? C2]]; try done.
    assert (x1 = x2) as <- by (apply (ids_inj _ _ _ (Wn q)); congruence).
    destruct C1 as [[R1 ->]|M1], C2 as [[R2 ->]|M2]; try done.
    + exfalso. by eapply retained_moved.
    + exfalso. by eapply retained_moved.
    + destruct (moved_inv _ _ _ _ _ M1) as (-> & _). by destruct (moved_inv _ _ _ _ _ M2) as (-> & _).
Qed.

(** ** When a timer fires *)

(** Triggers until slot [s] is the current one, and until timer [t] of slot
    [s] fires. *)
Definition dist (p s size : Z) : Z := (s - p - 1) mod size + 1.
Definition due (tw : timingwheel) (s : Z) (t : timingwheel_timer) : Z :=
  t_level t * tw_size tw + dist (tw_p tw) s (tw_size tw).

(** Calls of timer [id] in a log. *)
Definition calls (id : nat) (log : list nat) : nat := length (filter (fun x => x = id) log).

Lemma advance_mod tw : wf tw -> tw_p (tw_advance tw) = (tw_p tw + 1) mod tw_size tw.
Proof.
  intros [Wp _ _ _]. unfold tw_advance. simpl. destruct (Z.eqb_spec (tw_p tw + 1) (tw_size tw)) as [->|].
  - by rewrite Z.mod_same by lia.
  - by rewrite Z.mod_small by lia.
Qed.

Lemma dist_step p s size : 0 <= p < size -> 0 <= s < size ->
  let q := (p + 1) mod size in
  (s = q -> dist p s size = 1 /\ dist q s size = size) /\
  (s <> q -> 1 < dist p s size /\ dist q s size = dist p s size - 1).
Proof.
  intros Hp Hs. cbv zeta. unfold dist.
  assert (Hq : p + 1 < size /\ (p + 1) mod size = p + 1 \/ p + 1 = size /\ (p + 1) mod size = 0).
  { destruct (decide (p + 1 = size)) as [->|]; [right; split; [done|]; by apply Z.mod_same; lia|].
    left. split; [lia|]. apply Z.mod_small. lia. }
  assert (Hm : forall x, -size <= x < size -> x mod size = if 0 <=? x then x else x + size).
  { intros x Hx. destruct (Z.leb_spec 0 x); [apply Z.mod_small; lia|].
    rewrite <- (Z.mod_add x 1), Z.mod_small by lia. lia. }
  split; intros E; destruct Hq as [[Hsz Hq]|[Hsz Hq]]; rewrite Hq in E |- *; try subst s; rewrite !Hm by lia;
    repeat match goal with |- context [0 <=? ?x] => destruct (Z.leb_spec 0 x) end; lia.
Qed.

Lemma dist_move p size n : 0 <= p < size -> 0 < n -> n mod size <> 0 ->
  Z.quot n size * size + dist p (Z.rem (p + n) size) size = n.
Proof.
  intros Hp Hn Hm. unfold dist. rewrite Z.rem_mod_nonneg, Z.quot_div_nonneg by lia.
  replace (((p + n) mod size - p - 1) mod size) with ((n - 1) mod size).
  2: { replace ((p + n) mod size - p - 1) with ((p + n) mod size - (p + 1)) by lia.
       rewrite Zminus_mod_idemp_l. f_equal. lia. }
  pose proof (Z.div_mod n size). pose proof (Z.mod_pos_bound n size).
  assert ((n - 1) mod size = n mod size - 1) as ->; [|lia].
  symmetry. apply (Z.mod_unique_pos _ _ (n / size)); lia.
Qed.

Lemma calls_notin id l : id ∉ ids l -> calls id (concat (map fired_by l)) = 0%nat.
Proof.
  unfold calls. induction l as [|t l IH]; simpl; [done|]. intros H. apply not_elem_of_cons in H as [? ?].
  rewrite filter_app, length_app, IH by done. unfold fired_by. destruct (_ && _); [|done].
  rewrite filter_cons, decide_False by congruence. done.
Qed.

Lemma calls_slot l t :
  NoDup (ids l) -> t ∈ l -> calls (t_id t) (concat (map fired_by l)) = length (fired_by t).
Proof.
  induction l as [|x l IH]; intros Hn Ht; [by apply elem_of_nil in Ht|].
  apply NoDup_cons in Hn as [Hx Hn]. unfold calls. simpl. rewrite filter_app, length_app.
  fold (calls (t_id t) (concat (map fired_by l))).
  apply elem_of_cons in Ht as [->|Ht].
  - rewrite calls_notin by done. unfold fired_by. destruct (_ && _); [|done].
    rewrite filter_cons, decide_True by done. done.
  - rewrite IH by done. assert (t_id x <> t_id t) by (intros E; apply Hx; rewrite E; by apply elem_ids).
    unfold fired_by at 1. destruct (_ && _); [|done]. rewrite filter_cons, decide_False by done. done.
Qed.

(** A live timer of a client whose function always succeeds. *)
Definition live (tw : timingwheel) (id : nat) (ms d : Z) : Prop :=
  exists s t, t ∈ tw_slot tw s /\ t_id t = id /\ t_ms t = ms /\ t_func t <> None /\ due tw s t = d.

Lemma trigger_live tw id ms d :
  wf tw -> live tw id ms d -> (forall t, t_id t = id -> call t = TW_SUCCESS) ->
  exists fuel0 tw' log, (forall fuel, (fuel0 <= fuel)%nat -> tw_trigger fuel tw = Done (tw', log)) /\
    wf tw' /\ 1 <= d /\
    if d =? 1 then calls id log = 1%nat /\ live tw' id ms (Z.quot ms 10)
    else calls id log = 0%nat /\ live tw' id ms (d - 1).
Proof.
  intros Hwf (s & t & Ht & Hid & Hms & Hf & Hd) Hcall.
  destruct (trigger_spec tw Hwf) as (tw' & log & E & Hlog & Hwf' & P & S & F & K & M).
  pose proof (advance_mod tw Hwf) as Hq. set (q := tw_p (tw_advance tw)) in *.
  destruct Hwf as [Wp Wg Wn Wu]. destruct (Wg s t Ht) as (Hs & Hg & _).
  destruct Hg as (G1 & G2 & G3). unfold ticks_of in G1, G2. rewrite Hms in G1, G2.
  destruct (dist_step (tw_p tw) s (tw_size tw) Wp Hs) as [D1 D2]. rewrite <- Hq in D1, D2.
  assert (Hfb : bool_decide (t_func t <> None) = true) by (by apply bool_decide_eq_true_2).
  unfold due in Hd. exists (Datatypes.S (length (tw_slot tw q))), tw', log.
  split; [intros fuel Hfu; apply E; lia|]. split; [done|].
  destruct (decide (s = q)) as [->|Hsq].
  - destruct (D1 eq_refl) as [E1 E2]. rewrite E1 in Hd. split; [nia|]. subst log id.
    rewrite calls_slot by (done || apply Wn). unfold fired_by. rewrite Hfb, andb_true_r.
    destruct (Z.eqb_spec (t_level t) 0) as [El|El].
    + rewrite El in Hd. rewrite (proj2 (Z.eqb_eq d 1)) by lia. split; [done|].
      assert (0 <= q < tw_size tw) as Hqr by (rewrite Hq; apply Z.mod_pos_bound; lia).
      exists (Z.rem (q + ticks_of t) (tw_size tw)), (set_level t (Z.quot (ticks_of t) (tw_size tw))).
      assert (Z.rem (q + ticks_of t) (tw_size tw) <> q) as Hne
        by (apply good_moves_away; [done|]; unfold good, ticks_of; rewrite Hms; done).
      split_and!; try done.
      * rewrite M by done. apply elem_of_app; right. eapply in_concat_map; [done|].
        unfold moved. rewrite El, Hfb, Hcall, !Z.eqb_refl by done. simpl. apply list_elem_of_singleton. done.
      * unfold due. rewrite S, P. simpl. unfold ticks_of. rewrite Hms. apply dist_move; lia || done.
    + rewrite (proj2 (Z.eqb_neq d 1)) by nia. split; [done|].
      exists q, (set_level t (t_level t - 1)). split_and!; try done.
      * rewrite K. eapply in_concat_map; [done|]. unfold retained. rewrite (proj2 (Z.eqb_neq _ _)) by done.
        apply list_elem_of_singleton. done.
      * unfold due. rewrite S, P, E2. simpl. lia.
  - destruct (D2 Hsq) as [E1 E2]. split; [nia|]. rewrite (proj2 (Z.eqb_neq d 1)) by nia. split.
    + subst log. apply calls_notin. intros H. apply list_elem_of_fmap in H as (t2 & E3 & H2).
      apply Hsq. apply (Wu s q t t2); congruence.
    + exists s, t. split_and!; try done.
      * rewrite M by done. apply elem_of_app. by left.
      * unfold due. rewrite S, P, E2. lia.
Qed.

(** [k] triggers in a row, with the log of the calls. *)
Fixpoint tw_run (fuel k : nat) (tw : timingwheel) : outcome (timingwheel * list nat) :=
  match k with
  | O => mret (tw, [])
  | S k' =>
      r ← tw_run fuel k' tw;
      r' ← tw_trigger fuel (fst r);
      mret (fst r', snd r ++ snd r')
  end.

Lemma add_timer_live tw f ctx ms :
  wf tw -> 0 < Z.quot ms 10 -> Z.quot ms 10 mod tw_size tw <> 0 ->
  let '(tw1, id) := tw_add_timer (Some f) ctx ms tw in wf tw1 /\ live tw1 id ms (Z.quot ms 10).
Proof.
  intros [Wp Wg Wn Wu] Hn Hm. unfold tw_add_timer. set (n := Z.quot ms 10) in *.
  set (p := Z.rem (tw_p tw + n) (tw_size tw)). set (t := Timer _ _ _ _ _).
  assert (Hp : 0 <= p < tw_size tw) by (by apply rem_range).
  assert (Hin : forall s x, x ∈ (<[p := tw_slot tw p ++ [t]]> (tw_slot tw) : Z -> list timingwheel_timer) s ->
    (x ∈ tw_slot tw s) \/ (x = t /\ s = p)).
  { intros s x. unfold insert, fn_insert. destruct (decide (p = s)) as [<-|]; [|auto].
    intros [Hx|Hx]%elem_of_app; [auto|]. apply list_elem_of_singleton in Hx as ->. auto. }
  assert (Hfresh : forall s x, x ∈ tw_slot tw s -> t_id x <> tw_fresh tw)
    by (intros s x Hx; destruct (Wg s x Hx) as (_ & _ & ?); lia).
  split.
  - split; simpl; [done| | |].
    + intros s x Hx. apply Hin in Hx as [Hx|[-> ->]].
      * destruct (Wg s x Hx) as (? & ? & ?). split_and!; [lia..|done|lia].
      * split_and!; [lia..| |simpl; lia]. split_and!; [done|done|]. simpl. apply Z.quot_pos; lia.
    + intros s. unfold insert, fn_insert. destruct (decide (p = s)) as [<-|]; [|done].
      unfold ids. rewrite map_app. apply NoDup_app. split_and!; [apply Wn| |apply NoDup_singleton].
      intros x Hx ->%list_elem_of_singleton. apply list_elem_of_fmap in Hx as (y & E & Hy).
      by apply (Hfresh p y).
    + intros s1 s2 t1 t2 H1 H2 E. apply Hin in H1 as [H1|[-> ->]]; apply Hin in H2 as [H2|[-> ->]]; try done.
      * by apply (Wu s1 s2 t1 t2).
      * by apply Hfresh in H1.
      * symmetry in E. by apply Hfresh in H2.
  - exists p, t. simpl. rewrite fn_lookup_insert. split_and!; try done; [set_solver|].
    unfold due. simpl. apply dist_move; lia || done.
Qed.

(** A timer added with [tw_add_timer] for [ms] milliseconds, when the
    period in ticks (ms / 10) is not a multiple of the wheel size, is called
    exactly once in every [ms / 10] triggers for ever, at triggers
    ms/10, 2*(ms/10), ..., whatever the other timers of the wheel do; every
    trigger terminates. *)
Theorem tw_timer_periodic (tw : timingwheel) (f ctx ms : Z) (k : nat) :
  wf tw -> 0 < Z.quot ms 10 -> Z.quot ms 10 mod tw_size tw <> 0 ->
  (forall t, t_id t = tw_fresh tw -> call t = TW_SUCCESS) ->
  let '(tw1, id) := tw_add_timer (Some f) ctx ms tw in
  exists fuel0 tw2 log,
    (forall fuel, (fuel0 <= fuel)%nat -> tw_run fuel k tw1 = Done (tw2, log)) /\
    Z.of_nat (calls id log) = Z.of_nat k / Z.quot ms 10.
Proof.
  intros Hwf Hn Hm Hcall. pose proof (add_timer_live tw f ctx ms Hwf Hn Hm) as Hadd.
  destruct (tw_add_timer (Some f) ctx ms tw) as [tw1 id] eqn:Ea.
  assert (id = tw_fresh tw) as -> by (unfold tw_add_timer in Ea; congruence).
  destruct Hadd as [Hwf1 Hlive]. set (n := Z.quot ms 10) in *. set (id := tw_fresh tw) in *.
  enough (exists fuel0 tw2 log,
    (forall fuel, (fuel0 <= fuel)%nat -> tw_run fuel k tw1 = Done (tw2, log)) /\
    Z.of_nat (calls id log) = Z.of_nat k / n /\ wf tw2 /\ live tw2 id ms (n - Z.of_nat k mod n)) as H.
  { destruct H as (f0 & tw2 & log & ? & ? & _). by exists f0, tw2, log. }
  induction k as [|k (f0 & tw2 & log & E & Hc & Hwf2 & Hl2)].
  - exists 0%nat, tw1, []. change (Z.of_nat 0) with 0. rewrite Z.mod_0_l, Z.div_0_l, Z.sub_0_r by lia.
    by split_and!.
  - destruct (trigger_live tw2 id ms _ Hwf2 Hl2 Hcall) as (f1 & tw3 & log' & E' & Hwf3 & Hd & Hcase).
    exists (Nat.max f0 f1), tw3, (log ++ log'). split.
    { intros fuel Hfu. cbn [tw_run]. rewrite E by lia. cbn [mbind outcome_bind fst snd].
      rewrite E' by lia. done. }
    unfold calls in *. rewrite filter_app, length_app, Nat2Z.inj_add, Hc.
    pose proof (Z.div_mod (Z.of_nat k) n). pose proof (Z.mod_pos_bound (Z.of_nat k) n).
    rewrite Nat2Z.inj_succ, <- Z.add_1_r.
    destruct (Z.eqb_spec (n - Z.of_nat k mod n) 1) as [E1|E1]; destruct Hcase as [-> Hl3].
    + assert ((Z.of_nat k + 1) / n = Z.of_nat k / n + 1 /\ (Z.of_nat k + 1) mod n = 0) as [-> ->].
      { split; [symmetry; apply (Z.div_unique_pos _ _ _ 0)|symmetry; apply (Z.mod_unique_pos _ _ (Z.of_nat k / n + 1))]; lia. }
      rewrite Z.sub_0_r. split_and!; [lia|done|done].
    + assert ((Z.of_nat k + 1) / n = Z.of_nat k / n /\ (Z.of_nat k + 1) mod n = Z.of_nat k mod n + 1) as [-> ->].
      { split; [symmetry; apply (Z.div_unique_pos _ _ _ (Z.of_nat k mod n + 1))
               |symmetry; apply (Z.mod_unique_pos _ _ (Z.of_nat k / n))]; lia. }
      split_and!; [simpl; lia|done|]. by replace (n - (Z.of_nat k mod n + 1)) with (n - Z.of_nat k mod n - 1) by lia.
Qed.

End trigger.

(** A wheel of 10 slots. *)
Lemma open_wf : wf (tw_open 100).
Proof. split; [vm_compute; done|by intros s t ?%elem_of_nil|intros; constructor|by intros s1 s2 t1 t2 ?%elem_of_nil]. Qed.

Lemma tw_timer_periodic_witness :
  exists fuel0 tw2 log,
    (forall fuel, (fuel0 <= fuel)%nat ->
       tw_run (fun _ => TW_SUCCESS) fuel 30 (fst (tw_add_timer (Some 7) 0 130 (tw_open 100))) = Done (tw2, log)) /\
    Z.of_nat (calls 0 log) = 30 / 13.
Proof.
  apply (tw_timer_periodic (fun _ => TW_SUCCESS) (tw_open 100) 7 0 130 30 open_wf); done.
Defined.

(** The exception: a period of one full turn (10 ticks) is one turn late. *)
Example full_turn_late :
  (r ← tw_run (fun _ => TW_SUCCESS) 10 19 (fst (tw_add_timer (Some 7) 0 100 (tw_open 100))); mret (snd r)) = Done [] /\
  (r ← tw_run (fun _ => TW_SUCCESS) 10 20 (fst (tw_add_timer (Some 7) 0 100 (tw_open 100))); mret (snd r)) = Done [0%nat].
Proof. split; reflexivity. Qed.

(** Two timers with a period below one tick (10 ms) in the current slot
    keep re-entering the list behind each other: the loop of [tw_trigger] never
    ends, whatever the fuel. *)
Theorem tw_trigger_short_periods_loop (fuel : nat) :
  let tw := fst (tw_add_timer (Some 2) 0 5 (fst (tw_add_timer (Some 1) 0 5 (tw_open 10)))) in
  tw_trigger (fun _ => TW_SUCCESS) fuel tw = Loop.
Proof.
  cbv zeta. set (tw := fst _).
  pose (t0 := Timer 0 0 (Some 1) 5 0). pose (t1 := Timer 1 0 (Some 2) 5 0).
  assert (forall fuel w log, tw_p w = 0 -> tw_size w = 1 ->
    (tw_slot w 0 = [t0; t1] -> trigger_loop (fun _ => TW_SUCCESS) fuel (Some 0%nat) w log = Loop) /\
    (tw_slot w 0 = [t1; t0] -> trigger_loop (fun _ => TW_SUCCESS) fuel (Some 1%nat) w log = Loop)) as H.
  { clear. induction fuel as [|fuel IH]; intros w log Hp Hs; [done|].
    split; intros Hw; cbn [trigger_loop]; rewrite Hp, Hw; cbn; unfold trigger_body; cbn; rewrite Hp, Hs, Hw; cbn;
      apply IH; done || (simpl; rewrite ?Hp; done). }
  apply (H fuel (tw_advance tw) []); done.
Qed.
