(* ===== verification/SockBuf.v ===== *)
(** The buffered non-blocking socket of src/example/fstack0/socket.c.

    The stack's [ff_write] is a parameter: on a byte string it returns a
    count or a negative value with errno, and a new stack state; [sock_buf_open]
    (calloc) is a parameter too, and each call may fail.  [s_sent] records the bytes that the stack
    accepted. *)
From stdpp Require Import base list.
From Stdlib Require Import ZArith Lia.
From S2P Require Import Prelude AbiTables.

Local Open Scope Z_scope.

Definition SOCK_SUCCESS : Z := 0.
Definition SOCK_ERROR : Z := -1.
Definition SOCK_INPROCESS : Z := -2.
Definition SOCK_SHUTDOWN : Z := -3.

(** enum socket_stat; a socket fresh from calloc has 0. *)
Definition SOCKET_STAT_ESTABLISHED : Z := 1.
Definition SOCKET_STAT_CONNECTING : Z := 2.
Definition SOCKET_STAT_CLOSE_WAIT : Z := 3.

Definition SOCK_BUF_SIZE : Z := 8192.
Definition EAGAIN : Z := EWOULDBLOCK.

Record sock_buf := SockBuf { sb_buf : list Z; sb_pos : Z; sb_len : Z }.

(** The answer of a stack call: value, errno, stack state. *)
Record answer (W : Type) := Answer { a_ret : Z; a_errno : Z; a_st : W }.
Arguments Answer {W}.
Arguments a_ret {W}.
Arguments a_errno {W}.
Arguments a_st {W}.

Record sock (W : Type) := Sock {
  s_fd : Z;
  s_stat : Z;
  s_pool : list sock_buf;
  s_world : W;                 (* the stack *)
  s_sent : list Z
}.
Arguments Sock {W}.
Arguments s_fd {W}.
Arguments s_stat {W}.
Arguments s_pool {W}.
Arguments s_world {W}.
Arguments s_sent {W}.

(** The stack calls that the socket code makes. *)
Class Stack (W : Type) := {
  st_socket : W -> answer W;
  st_nonblock : Z -> W -> answer W;            (* ff_ioctl(fd, FIONBIO, &on) *)
  st_connect : Z -> W -> answer W;
  st_write : Z -> list Z -> W -> answer W;
  st_read : Z -> Z -> W -> answer W;
  st_close : Z -> W -> W;
  sock_buf_open : W -> bool * W                (* whether calloc succeeds *)
}.

(** [errno == EINTR || errno == EWOULDBLOCK || ...] *)
Definition retry_errno (e : Z) : bool :=
  (e =? EINTR) || (e =? EWOULDBLOCK) || (e =? EAGAIN) || (e =? EINPROGRESS).

Section socket.
Context {W : Type} {St : Stack W}.

Definition with_pool (s : sock W) (p : list sock_buf) : sock W :=
  Sock (s_fd s) (s_stat s) p (s_world s) (s_sent s).
Definition with_world (s : sock W) (w : W) : sock W :=
  Sock (s_fd s) (s_stat s) (s_pool s) w (s_sent s).
Definition with_stat (s : sock W) (x : Z) : sock W :=
  Sock (s_fd s) x (s_pool s) (s_world s) (s_sent s).
Definition with_fd (s : sock W) (fd : Z) : sock W :=
  Sock fd (s_stat s) (s_pool s) (s_world s) (s_sent s).

(** [data + pos], [len - pos] bytes: a slice of the caller's buffer. *)
Definition slice (data : list Z) (pos n : Z) : list Z := take (Z.to_nat n) (drop (Z.to_nat pos) data).

(** The loop of [socket_write_buffer]: [len] and [pos] are uint32_t. *)
Fixpoint write_buffer_loop (fuel : nat) (data : list Z) (len pos : Z) (s : sock W) : sock W * Z :=
  match fuel with
  | O => (s, SOCK_SUCCESS)
  | S fuel' =>
      if pos <? len then
        let '(ok, w) := sock_buf_open (s_world s) in
        let s := with_world s w in
        if negb ok then (s, SOCK_ERROR)
        else
          let buf := if u32 (SOCK_BUF_SIZE + pos) <? len
                     then SockBuf (slice data pos SOCK_BUF_SIZE) 0 SOCK_BUF_SIZE
                     else SockBuf (slice data pos (len - pos)) 0 (len - pos) in
          write_buffer_loop fuel' data len (u32 (pos + sb_len buf)) (with_pool s (s_pool s ++ [buf]))
      else (s, SOCK_SUCCESS)
  end.

(** One turn stores at least one byte, so that [len] turns are enough. *)
Definition socket_write_buffer (s : sock W) (data : list Z) (len : Z) : sock W * Z :=
  write_buffer_loop (S (Z.to_nat len)) data len 0 s.

(** [ff_write(s->fd, bytes)]: the answer, and the socket with the accepted
    bytes recorded. *)
Definition do_write (s : sock W) (bytes : list Z) : answer W * sock W :=
  let a := st_write (s_fd s) bytes (s_world s) in
  (a, Sock (s_fd s) (s_stat s) (s_pool s) (a_st a)
        (s_sent s ++ (if a_ret a <? 0 then [] else take (Z.to_nat (a_ret a)) bytes))).

(** The bytes of a pool buffer that are not yet sent. *)
Definition unsent (b : sock_buf) : list Z := slice (sb_buf b) (sb_pos b) (sb_len b - sb_pos b).

Inductive flush_result := Flushed | Blocked (ret : Z).

(** The list_for_each_safe loop of [socket_write] over the pool: every buffer
    but the first still to be sent is untouched. *)
Fixpoint flush_pool (pool : list sock_buf) (s : sock W) (send_len : Z)
    : sock W * Z * flush_result :=
  match pool with
  | [] => (with_pool s [], send_len, Flushed)
  | buf :: rest =>
      let buf_len := sb_len buf - sb_pos buf in
      let '(a, s1) := do_write s (unsent buf) in
      if a_ret a <? 0 then
        (with_pool s1 pool, send_len,
         Blocked (if retry_errno (a_errno a) then SOCK_INPROCESS else SOCK_ERROR))
      else
        let send_len := u32 (send_len + a_ret a) in
        if a_ret a <? buf_len then
          (with_pool s1 (SockBuf (sb_buf buf) (sb_pos buf + a_ret a) (sb_len buf) :: rest), send_len,
           Blocked SOCK_INPROCESS)
        else flush_pool rest s1 send_len
  end.

(** Returns the socket, the return value and [*send_len]. *)
Definition socket_write (s : sock W) (data : list Z) (len send_len : Z) : sock W * Z * Z :=
  if s_stat s =? SOCKET_STAT_CONNECTING then
    (fst (socket_write_buffer s data len), SOCK_INPROCESS, send_len)
  else
    match flush_pool (s_pool s) s send_len with
    | (s1, send_len, Blocked ret) =>
        if ret =? SOCK_ERROR then (s1, SOCK_ERROR, send_len)
        else (fst (socket_write_buffer s1 data len), SOCK_INPROCESS, send_len)
    | (s1, send_len, Flushed) =>
        if 0 <? len then
          let '(a, s2) := do_write s1 (slice data 0 len) in
          if a_ret a <? 0 then
            if retry_errno (a_errno a)
            then (fst (socket_write_buffer s2 data len), SOCK_INPROCESS, send_len)
            else (s2, SOCK_ERROR, send_len)
          else
            let send_len := u32 (send_len + a_ret a) in
            if a_ret a <? s32 len
            then (fst (socket_write_buffer s2 (drop (Z.to_nat (a_ret a)) data) (u32 (len - a_ret a))),
                  SOCK_INPROCESS, send_len)
            else (s2, SOCK_SUCCESS, send_len)
        else (s1, SOCK_SUCCESS, send_len)
    end.

Definition socket_read (s : sock W) (size : Z) : sock W * Z :=
  let a := st_read (s_fd s) size (s_world s) in
  (with_world s (a_st a),
   if a_ret a =? 0 then SOCK_SHUTDOWN
   else if a_ret a <? 0 then
     if retry_errno (a_errno a) then SOCK_INPROCESS else SOCK_ERROR
   else a_ret a).

Definition socket_set_nonblocking (fd : Z) (w : W) : Z * W :=
  let a := st_nonblock fd w in (if a_ret a <? 0 then SOCK_ERROR else SOCK_SUCCESS, a_st a).

Definition socket_open_empty (w : W) : sock W := Sock 0 0 [] w [].

(** Frees the pool, closes the descriptor. *)
Definition socket_close (s : sock W) : W := st_close (s_fd s) (s_world s).

(** [None] when no socket is returned, with the stack left. *)
Definition socket_open_tcp_client (w : W) : option (sock W) * W :=
  let s := socket_open_empty w in
  let a := st_socket w in
  let s := with_fd (with_world s (a_st a)) (a_ret a) in
  if s_fd s <? 0 then (None, socket_close s)
  else
    let '(ret, w) := socket_set_nonblocking (s_fd s) (s_world s) in
    if negb (ret =? SOCK_SUCCESS) then (None, socket_close (with_world s (st_close (s_fd s) w)))
    else (Some (with_world s w), w).

Definition socket_connect (s : sock W) : sock W * Z :=
  let s := with_stat s SOCKET_STAT_CONNECTING in
  let a := st_connect (s_fd s) (s_world s) in
  (with_world s (a_st a),
   if a_ret a <? 0 then if retry_errno (a_errno a) then SOCK_INPROCESS else SOCK_ERROR
   else SOCK_SUCCESS).

Definition socket_reconnect (s : sock W) : sock W * Z :=
  let s := with_stat s SOCKET_STAT_CONNECTING in
  let w := st_close (s_fd s) (s_world s) in
  let a := st_socket w in
  let s := with_fd (with_world s (a_st a)) (a_ret a) in
  if s_fd s <? 0 then (s, SOCK_ERROR)
  else
    let '(ret, w) := socket_set_nonblocking (s_fd s) (s_world s) in
    if negb (ret =? SOCK_SUCCESS) then (with_world s (st_close (s_fd s) w), SOCK_ERROR)
    else
      let a := st_connect (s_fd s) w in
      if a_ret a <? 0 then
        if retry_errno (a_errno a) then (with_world s (a_st a), SOCK_INPROCESS)
        else (with_world s (st_close (s_fd s) (a_st a)), SOCK_ERROR)
      else (with_world s (a_st a), SOCK_SUCCESS).

(** * The stream is kept in order *)

(** Bytes waiting in the pool, in order. *)
Definition pending (s : sock W) : list Z := concat (map unsent (s_pool s)).

(** All the bytes given to the socket that are sent or waiting. *)
Definition stream (s : sock W) : list Z := s_sent s ++ pending s.

Definition wf_buf (b : sock_buf) : Prop :=
  0 <= sb_pos b < sb_len b /\ sb_len b <= Z.of_nat (length (sb_buf b)).

Hypothesis write_bounded : forall fd bytes w, a_ret (st_write fd bytes w) <= Z.of_nat (length bytes).

(** Some calloc fails. *)
Definition calloc_fails : Prop := exists w, fst (sock_buf_open w) = false.

Lemma slice_length data pos n :
  0 <= pos -> 0 <= n -> pos + n <= Z.of_nat (length data) -> Z.of_nat (length (slice data pos n)) = n.
Proof. intros. unfold slice. rewrite length_take, length_drop. lia. Qed.

Lemma slice_app data pos a b :
  0 <= pos -> 0 <= a -> 0 <= b -> slice data pos a ++ slice data (pos + a) b = slice data pos (a + b).
Proof.
  intros. unfold slice. rewrite !Z2Nat.inj_add by lia.
  rewrite <- drop_drop. by rewrite take_take_drop.
Qed.

Lemma slice_all data : slice data 0 (Z.of_nat (length data)) = data.
Proof. unfold slice. rewrite Nat2Z.id. change (Z.to_nat 0) with 0%nat. rewrite drop_0. by apply take_ge. Qed.

(** A failed calloc loses the bytes that are not stored yet, and nothing else. *)
Lemma write_buffer_loop_spec fuel data pos s :
  0 <= pos <= Z.of_nat (length data) -> Z.of_nat (length data) <= INT_MAX ->
  Z.of_nat (length data) - pos < Z.of_nat fuel ->
  exists s' ret n, write_buffer_loop fuel data (Z.of_nat (length data)) pos s = (s', ret) /\
    s_sent s' = s_sent s /\ (Forall wf_buf (s_pool s) -> Forall wf_buf (s_pool s')) /\
    pending s' = pending s ++ slice data pos n /\ 0 <= n <= Z.of_nat (length data) - pos /\
    (n = Z.of_nat (length data) - pos \/ calloc_fails).
Proof.
  unfold INT_MAX. revert pos s; induction fuel as [|fuel IH]; intros pos s Hp Hl Hf; [lia|].
  set (len := Z.of_nat (length data)) in *. cbn [write_buffer_loop].
  destruct (Z.ltb_spec pos len) as [Hlt|Hge].
  2: { exists s, SOCK_SUCCESS, 0. split_and!; [done|done|done| |lia|lia|left; lia].
       unfold slice. simpl. by rewrite app_nil_r. }
  destruct (sock_buf_open (s_world s)) as [[] w] eqn:Eo; cbn [negb].
  2: { exists (with_world s w), SOCK_ERROR, 0. split_and!; [done|done|done| |lia|lia|right; exists (s_world s); by rewrite Eo].
       unfold slice. simpl. by rewrite app_nil_r. }
  set (buf := if _ : bool then _ else _).
  assert (Hbuf : sb_buf buf = slice data pos (sb_len buf) /\ sb_pos buf = 0 /\
    0 < sb_len buf /\ pos + sb_len buf <= len).
  { unfold buf, SOCK_BUF_SIZE. rewrite wrapu_small by lia.
    destruct (Z.ltb_spec (8192 + pos) len); simpl; split_and!; done || lia. }
  destruct Hbuf as (Hb & Hbp & Hbl & Hble). rewrite (wrapu_small 32) by lia.
  destruct (IH (pos + sb_len buf) (with_pool (with_world s w) (s_pool s ++ [buf]))) as (s' & ret & n & E & Hs & Hw & Hpe & Hn & Hall); [lia..|].
  exists s', ret, (sb_len buf + n). split_and!; [done|done| | |lia|lia|destruct Hall; [left; lia|by right]].
  - intros Hwf. apply Hw. simpl. apply Forall_app; split; [done|]. constructor; [|done].
    split; [lia|]. rewrite Hb, slice_length by lia. lia.
  - rewrite Hpe. unfold pending. simpl. rewrite map_app, concat_app. simpl. rewrite app_nil_r, <- app_assoc.
    f_equal. unfold unsent. rewrite Hbp, Hb, Z.sub_0_r.
    replace (slice (slice data pos (sb_len buf)) 0 (sb_len buf)) with (slice data pos (sb_len buf)).
    2: { unfold slice at 2. change (Z.to_nat 0) with 0%nat. rewrite drop_0. unfold slice.
         by rewrite take_take, Nat.min_id. }
    rewrite slice_app by lia. done.
Qed.

(** [n] of the bytes [data] are added at the end of the stream: all of them,
    unless a calloc failed. *)
Definition added (s s' : sock W) (data : list Z) : Prop :=
  exists n, (n <= length data)%nat /\ stream s' = stream s ++ take n data /\ (n = length data \/ calloc_fails).

Lemma socket_write_buffer_spec data s :
  Z.of_nat (length data) <= INT_MAX ->
  exists s' ret, socket_write_buffer s data (Z.of_nat (length data)) = (s', ret) /\
    added s s' data /\ (Forall wf_buf (s_pool s) -> Forall wf_buf (s_pool s')).
Proof.
  intros Hl. unfold socket_write_buffer.
  destruct (write_buffer_loop_spec (S (Z.to_nat (Z.of_nat (length data)))) data 0 s) as (s' & ret & n & E & Hs & Hw & Hp & Hn & Hall);
    [lia..|].
  exists s', ret. split_and!; [done| |done]. exists (Z.to_nat n). split_and!; [lia| |destruct Hall; [left; lia|by right]].
  unfold stream. rewrite Hs, Hp, <- app_assoc. done.
Qed.

Lemma do_write_spec s bytes a s1 :
  do_write s bytes = (a, s1) ->
  a_ret a <= Z.of_nat (length bytes) /\ s_pool s1 = s_pool s /\
  s_sent s1 = s_sent s ++ (if a_ret a <? 0 then [] else take (Z.to_nat (a_ret a)) bytes).
Proof. unfold do_write. intros [= <- <-]. split_and!; [apply write_bounded|done|done]. Qed.

Lemma flush_pool_spec pool : forall s send_len s1 n res,
  Forall wf_buf pool -> flush_pool pool s send_len = (s1, n, res) ->
  s_sent s1 ++ pending s1 = s_sent s ++ concat (map unsent pool) /\ Forall wf_buf (s_pool s1) /\
  match res with Flushed => s_pool s1 = [] | Blocked r => r = SOCK_INPROCESS \/ r = SOCK_ERROR end.
Proof.
  induction pool as [|b pool IH]; intros s send_len s1 n res Hwf; cbn [flush_pool].
  - intros [= <- <- <-]. unfold pending. simpl. done.
  - apply Forall_cons in Hwf as [Hb Hwf]. destruct (do_write s (unsent b)) as [a s'] eqn:Ew.
    destruct (do_write_spec _ _ _ _ Ew) as (Hle & Hp & Hse). destruct Hb as [Hb1 Hb2].
    assert (Hul : Z.of_nat (length (unsent b)) = sb_len b - sb_pos b) by (apply slice_length; lia).
    destruct (Z.ltb_spec (a_ret a) 0).
    + intros [= <- <- <-]. unfold pending. simpl. rewrite Hse, app_nil_r. split_and!; [done|by constructor|].
      destruct (retry_errno _); auto.
    + destruct (Z.ltb_spec (a_ret a) (sb_len b - sb_pos b)).
      * intros [= <- <- <-]. unfold pending. simpl. rewrite Hse, <- app_assoc. split_and!; [|constructor; [split; simpl; lia|done]|auto].
        f_equal. rewrite app_assoc. f_equal. unfold unsent at 2. simpl. unfold unsent.
        set (p := sb_pos b) in *. set (k := a_ret a) in *.
        assert (take (Z.to_nat k) (slice (sb_buf b) p (sb_len b - p)) = slice (sb_buf b) p k) as ->.
        { unfold slice. rewrite take_take. f_equal. lia. }
        rewrite slice_app by lia. f_equal. lia.
      * intros Hf. apply IH in Hf as (Hst & Hw & Hres); [|done]. split_and!; [|done|done].
        rewrite Hst, Hse. simpl. rewrite <- app_assoc. rewrite take_ge by lia. done.
Qed.

#[local] Arguments socket_write_buffer : simpl never.

Lemma write_buffer_loop_stat fuel data len : forall pos s,
  s_stat (fst (write_buffer_loop fuel data len pos s)) = s_stat s.
Proof.
  induction fuel as [|n IH]; intros pos s; cbn [write_buffer_loop]; [done|].
  destruct (pos <? len); [|done]. destruct (sock_buf_open _) as [ok w]. destruct (negb _); [done|]. by rewrite IH.
Qed.

Lemma flush_pool_stat pool : forall s n s1 n1 r, flush_pool pool s n = (s1, n1, r) -> s_stat s1 = s_stat s.
Proof.
  induction pool as [|b pool IH]; intros s n s1 n1 r; cbn; [by intros [= <- _ _]|].
  destruct (_ <? 0); [by intros [= <- _ _]|]. destruct (_ <? _); [by intros [= <- _ _]|].
  intros Hf. by apply IH in Hf.
Qed.

(** Writing does not change the connection state. *)
Lemma socket_write_stat s data len n : s_stat (fst (fst (socket_write s data len n))) = s_stat s.
Proof.
  unfold socket_write, socket_write_buffer.
  assert (Hb : forall s0 d l k, s_stat (fst (write_buffer_loop k d l 0 s0)) = s_stat s0)
    by (intros; apply write_buffer_loop_stat).
  destruct (_ =? SOCKET_STAT_CONNECTING); [apply Hb|].
  destruct (flush_pool (s_pool s) s n) as [[s2 n2] [|r]] eqn:Ef; apply flush_pool_stat in Ef.
  2: { destruct (r =? _); cbn [fst]; [done|by rewrite Hb]. }
  destruct (0 <? len); [|done]. unfold do_write.
  destruct (_ <? 0); [destruct (retry_errno _)|destruct (_ <? s32 len)]; cbn [fst]; rewrite ?Hb; done.
Qed.

(** A stack whose writes fail only for the moment. *)
Definition soft_writes : Prop := forall fd bytes w,
  a_ret (st_write fd bytes w) < 0 -> retry_errno (a_errno (st_write fd bytes w)) = true.

Lemma flush_pool_soft pool : soft_writes -> forall s n s1 n1 r,
  flush_pool pool s n = (s1, n1, Blocked r) -> r = SOCK_INPROCESS.
Proof.
  intros Hw. induction pool as [|b pool IH]; intros s n s1 n1 r; cbn; [done|].
  destruct (Z.ltb_spec (a_ret (st_write (s_fd s) (unsent b) (s_world s))) 0).
  - rewrite Hw by done. by intros [= _ _ <-].
  - destruct (_ <? _); [by intros [= _ _ <-]|]. by apply IH.
Qed.

Lemma socket_write_soft s data len n :
  soft_writes -> snd (fst (socket_write s data len n)) <> SOCK_ERROR.
Proof.
  intros Hw. unfold socket_write. destruct (_ =? SOCKET_STAT_CONNECTING); [done|].
  destruct (flush_pool (s_pool s) s n) as [[s2 n2] [|r]] eqn:Ef.
  2: { apply flush_pool_soft in Ef as ->; done. }
  destruct (0 <? len); [|done]. unfold do_write.
  destruct (Z.ltb_spec (a_ret (st_write (s_fd s2) (slice data 0 len) (s_world s2))) 0).
  - rewrite Hw by done. done.
  - by destruct (_ <? s32 len).
Qed.

(** What a write with result [ret] did. *)
Definition written (s s' : sock W) (data : list Z) (ret : Z) : Prop :=
  Forall wf_buf (s_pool s') /\
  ((ret = SOCK_ERROR /\ stream s' = stream s) \/
   (ret = SOCK_SUCCESS /\ stream s' = stream s ++ data /\ s_pool s' = []) \/
   (ret = SOCK_INPROCESS /\ added s s' data)).

Lemma written_buffered s s0 data pre :
  Forall wf_buf (s_pool s0) -> Z.of_nat (length (pre ++ data)) <= INT_MAX -> stream s0 = stream s ++ pre ->
  written s (fst (socket_write_buffer s0 data (Z.of_nat (length data)))) (pre ++ data) SOCK_INPROCESS.
Proof.
  intros H0 Hl Hp. rewrite length_app in Hl. destruct (socket_write_buffer_spec data s0 ltac:(lia)) as (s' & ret & -> & (n & Hn & Hst & Hall) & Hw).
  split; [by apply Hw|]. right; right. split; [done|]. exists (length pre + n)%nat. rewrite length_app. cbn [fst].
  split_and!; [lia| |destruct Hall; [left; lia|by right]].
  rewrite Hst, Hp, <- app_assoc, take_app_add. done.
Qed.

Lemma socket_write_spec (s : sock W) (data : list Z) (send_len : Z) :
  Forall wf_buf (s_pool s) -> Z.of_nat (length data) <= INT_MAX ->
  let '(s', ret, _) := socket_write s data (Z.of_nat (length data)) send_len in written s s' data ret.
Proof.
  intros Hwf Hl. unfold socket_write.
  assert (Hbuf : forall s0, Forall wf_buf (s_pool s0) -> stream s0 = stream s ->
    written s (fst (socket_write_buffer s0 data (Z.of_nat (length data)))) data SOCK_INPROCESS).
  { intros s0 H0 E. apply (written_buffered s s0 data []); [done|done|]. by rewrite app_nil_r. }
  destruct (s_stat s =? _); [by apply Hbuf|].
  destruct (flush_pool (s_pool s) s send_len) as [[s1 n] res] eqn:Ef.
  destruct (flush_pool_spec _ _ _ _ _ _ Hwf Ef) as (Hst & Hw1 & Hres). fold (stream s1) in Hst.
  fold (pending s) in Hst. fold (stream s) in Hst.
  destruct res as [|r].
  2: { destruct Hres as [->| ->]; [by apply Hbuf|]. split; [done|]. by left. }
  destruct (Z.ltb_spec 0 (Z.of_nat (length data))) as [Hpos|Hz].
  2: { assert (data = []) as -> by (destruct data; [done|simpl in *; lia]). split; [done|]. right; left. by rewrite app_nil_r. }
  rewrite slice_all. destruct (do_write s1 data) as [a s2] eqn:Ew.
  destruct (do_write_spec _ _ _ _ Ew) as (Hle & Hp & Hse). rewrite Hres in Hp.
  assert (Hst1 : s_sent s1 = stream s) by (rewrite <- Hst; unfold stream, pending; rewrite Hres; simpl; by rewrite app_nil_r).
  assert (Hst2 : stream s2 = s_sent s2) by (unfold stream, pending; rewrite Hp; simpl; by rewrite app_nil_r).
  assert (Hw2 : Forall wf_buf (s_pool s2)) by (by rewrite Hp).
  rewrite Hse, Hst1 in Hst2. destruct (Z.ltb_spec (a_ret a) 0).
  - rewrite app_nil_r in Hst2. destruct (retry_errno _); [by apply Hbuf|]. split; [done|]. by left.
  - unfold INT_MAX in Hl. rewrite (wraps_small 32 (Z.of_nat (length data))) by (simpl; lia).
    destruct (Z.ltb_spec (a_ret a) (Z.of_nat (length data))).
    + rewrite (wrapu_small 32) by lia.
      replace (Z.of_nat (length data) - a_ret a) with (Z.of_nat (length (drop (Z.to_nat (a_ret a)) data))) by (rewrite length_drop; lia).
      set (k := Z.to_nat (a_ret a)) in *. pose proof (written_buffered s s2 (drop k data) (take k data) Hw2) as Hb.
      rewrite take_drop in Hb. apply Hb; [unfold INT_MAX; lia|done].
    + split; [done|]. right; left. rewrite Hst2, take_ge by lia. done.
Qed.


End socket.

(** ** A stack that accepts at most 5 bytes per write, then blocks once *)

#[global] Instance slow_stack : Stack nat := {|
  st_socket w := Answer 3 0 w;
  st_nonblock _ w := Answer 0 0 w;
  st_connect _ w := Answer (-1) EINPROGRESS w;
  st_write _ bytes w :=
    if Nat.even w then Answer (Z.min 5 (Z.of_nat (length bytes))) 0 (S w) else Answer (-1) EAGAIN (S w);
  st_read _ _ w := Answer 0 0 w;
  st_close _ w := w;
  sock_buf_open w := (true, w)
|}.

Definition slow_sock : sock nat := Sock 3 SOCKET_STAT_ESTABLISHED [SockBuf [1; 2; 3] 1 3] 0%nat [1].


(** With a calloc that fails, the caller gets SOCK_INPROCESS and the bytes are gone. *)
Definition poor_stack : Stack nat := {|
  st_socket w := Answer 3 0 w;
  st_nonblock _ w := Answer 0 0 w;
  st_connect _ w := Answer (-1) EINPROGRESS w;
  st_write _ bytes w := Answer (-1) EAGAIN w;
  st_read _ _ w := Answer 0 0 w;
  st_close _ w := w;
  sock_buf_open w := (false, w)
|}.

Lemma socket_write_drops :
  let '(s', ret, _) := socket_write (St := poor_stack) slow_sock [4; 5; 6; 7] 4 0 in
  ret = SOCK_INPROCESS /\ stream s' = stream slow_sock.
Proof. split; reflexivity. Qed.
