(* ===== verification/Kqueue.v ===== *)
(** The event queue of src/freebsd/kern/kern_event.c for the file filters, with
    the socket filters of src/freebsd/kern/uipc_socket.c.

    One kqueue and one table of descriptors.  The stack runs in one thread, so
    the locks and the bits KN_INFLUX, KN_SCAN, KN_MARKER, KN_HASKQLOCK, which
    only another thread can see, are not part of a knote's state; the bits
    KN_ACTIVE, KN_QUEUED and KN_DISABLED are booleans.  [klist]s hold at most
    one knote per filter, so [kq_knlist] is a map from (ident, filter).
    Allocations that may wait (M_WAITOK) do not fail.  The process, signal,
    timer, user and AIO filters are not modelled: registering one of them is
    [Fault], as is an access outside the caller's arrays. *)
From stdpp Require Import base list gmap.
From Stdlib Require Import ZArith Lia.
From S2P Require Import Prelude AbiTables.

Local Open Scope Z_scope.

(** * Constants and data *)

Definition EVFILT_READ : Z := -1.
Definition EVFILT_WRITE : Z := -2.
Definition EVFILT_VNODE : Z := -4.
Definition EVFILT_PROCDESC : Z := -8.
Definition EVFILT_SYSCOUNT : Z := 12.

Definition EV_ADD : Z := 0x0001.
Definition EV_DELETE : Z := 0x0002.
Definition EV_ENABLE : Z := 0x0004.
Definition EV_DISABLE : Z := 0x0008.
Definition EV_ONESHOT : Z := 0x0010.
Definition EV_CLEAR : Z := 0x0020.
Definition EV_RECEIPT : Z := 0x0040.
Definition EV_DISPATCH : Z := 0x0080.
Definition EV_FORCEONESHOT : Z := 0x0100.
Definition EV_SYSFLAGS : Z := 0xF000.
Definition EV_DROP : Z := 0x1000.
Definition EV_ERROR : Z := 0x4000.
Definition EV_EOF : Z := 0x8000.

Definition NOTE_LOWAT : Z := 0x0001.
Definition KQ_NEVENTS : Z := 8.
Definition KQEXTENT : Z := 256.

(** struct kevent; [udata] 0 is the null pointer. *)
Record kevent := Kevent {
  ident : Z;      (* uintptr_t *)
  filter : Z;     (* short *)
  flags : Z;      (* u_short *)
  fflags : Z;     (* u_int *)
  data : Z;       (* intptr_t *)
  udata : Z       (* void * *)
}.

#[global] Instance kevent_eq_dec : EqDecision kevent.
Proof. solve_decision. Defined.

(** The filter operations that [soo_kqfilter] puts into [kn_fop]. *)
Inductive filterops := file_filtops | soread_filtops | sowrite_filtops | solisten_filtops.

Record knote := Knote {
  kn_kevent : kevent;
  kn_active : bool;      (* KN_ACTIVE *)
  kn_queued : bool;      (* KN_QUEUED *)
  kn_disabled : bool;    (* KN_DISABLED *)
  kn_sfflags : Z;
  kn_sdata : Z;
  kn_fop : filterops
}.

(** The fields of struct sockbuf and struct socket that the filters read. *)
Record sockbuf := Sockbuf {
  sb_acc : Z; sb_ctl : Z; sb_lowat : Z; sb_ccc : Z;
  sb_hiwat : Z; sb_mbcnt : Z; sb_mbmax : Z;
  sb_stop : bool;        (* sb_flags & SB_STOP *)
  sb_cant : bool         (* SBS_CANTRCVMORE, SBS_CANTSENDMORE *)
}.

Record socket := Socket {
  so_rcv : sockbuf;
  so_snd : sockbuf;
  so_error : Z;
  so_isconnected : bool;     (* SS_ISCONNECTED *)
  so_connrequired : bool;    (* PR_CONNREQUIRED *)
  so_acceptconn : bool;      (* SO_ACCEPTCONN *)
  so_qlen : Z;
  so_comp : list Z
}.

Inductive file := DTYPE_SOCKET (so : socket) | DTYPE_KQUEUE.

Abbreviation key := (Z * Z)%type.

Record kqueue := Kq {
  kq_head : list key;            (* pending events *)
  kq_count : Z;
  kq_knlistsize : Z;
  kq_knlist : gmap key knote
}.

(** The descriptor table and the queue. *)
Record sys := Sys { y_files : gmap Z file; y_kq : kqueue }.

Definition kn_key (kn : knote) : key := (ident (kn_kevent kn), filter (kn_kevent kn)).
Definition kn_flags (kn : knote) : Z := flags (kn_kevent kn).

Definition with_kevent (kn : knote) (kev : kevent) : knote :=
  Knote kev (kn_active kn) (kn_queued kn) (kn_disabled kn) (kn_sfflags kn) (kn_sdata kn) (kn_fop kn).
Definition with_status (kn : knote) (a q d : bool) : knote :=
  Knote (kn_kevent kn) a q d (kn_sfflags kn) (kn_sdata kn) (kn_fop kn).
Definition with_saved (kn : knote) (ff d : Z) : knote :=
  Knote (kn_kevent kn) (kn_active kn) (kn_queued kn) (kn_disabled kn) ff d (kn_fop kn).
Definition with_fop (kn : knote) (f : filterops) : knote :=
  Knote (kn_kevent kn) (kn_active kn) (kn_queued kn) (kn_disabled kn) (kn_sfflags kn) (kn_sdata kn) f.
Definition with_flags (kev : kevent) (f : Z) : kevent :=
  Kevent (ident kev) (filter kev) f (fflags kev) (data kev) (udata kev).
Definition with_data (kev : kevent) (ff d : Z) : kevent :=
  Kevent (ident kev) (filter kev) (flags kev) ff d (udata kev).
Definition with_udata (kev : kevent) (u : Z) : kevent :=
  Kevent (ident kev) (filter kev) (flags kev) (fflags kev) (data kev) u.

Definition set_knote (q : kqueue) (k : key) (kn : knote) : kqueue :=
  Kq (kq_head q) (kq_count q) (kq_knlistsize q) (<[k := kn]> (kq_knlist q)).

(** * Socket filters *)

Definition sbavail (sb : sockbuf) : Z := sb_acc sb.

Definition sbspace (sb : sockbuf) : Z :=
  if sb_stop sb then 0
  else
    let bleft := s32 (sb_hiwat sb - sb_ccc sb) in
    let mleft := s32 (sb_mbmax sb - sb_mbcnt sb) in
    if bleft <? mleft then bleft else mleft.

(** No helper hook is registered, so [hhook_run_socket] gives status 0. *)
Definition hhook_run_socket : bool := false.

Definition set_eof (kev : kevent) (err : Z) : kevent :=
  Kevent (ident kev) (filter kev) (Z.lor (flags kev) EV_EOF) err (data kev) (udata kev).

Definition filt_soread (so : socket) (kn : knote) : bool * knote :=
  let d := u32 (sbavail (so_rcv so) - sb_ctl (so_rcv so)) in
  let kev := with_data (kn_kevent kn) (fflags (kn_kevent kn)) d in
  let kn1 := with_kevent kn kev in
  if sb_cant (so_rcv so) then (true, with_kevent kn (set_eof kev (so_error so)))
  else if ctrue (so_error so) then (true, kn1)
  else if flag (kn_sfflags kn) NOTE_LOWAT then
    (if d >=? kn_sdata kn then true else hhook_run_socket, kn1)
  else
    (if sbavail (so_rcv so) >=? u32 (sb_lowat (so_rcv so)) then true else hhook_run_socket, kn1).

Definition filt_sowrite (so : socket) (kn : knote) : bool * knote :=
  let d := sbspace (so_snd so) in
  let kev := with_data (kn_kevent kn) (fflags (kn_kevent kn)) d in
  let kn1 := with_kevent kn kev in
  if sb_cant (so_snd so) then (true, with_kevent kn (set_eof kev (so_error so)))
  else if ctrue (so_error so) then (true, kn1)
  else if negb (so_isconnected so) && so_connrequired so then (false, kn1)
  else if flag (kn_sfflags kn) NOTE_LOWAT then (d >=? kn_sdata kn, kn1)
  else (d >=? sb_lowat (so_snd so), kn1).

Definition filt_solisten (so : socket) (kn : knote) : bool * knote :=
  (match so_comp so with [] => false | _ => true end,
   with_kevent kn (with_data (kn_kevent kn) (fflags (kn_kevent kn)) (so_qlen so))).

(** [kn->kn_fop->f_event(kn, 0)] on the file that the knote refers to.  A
    descriptor is closed only after its knotes are dropped, so [kn_fp] is the
    table's entry for [kn_id]. *)
Definition f_event (fs : gmap Z file) (kn : knote) : bool * knote :=
  match fs !! ident (kn_kevent kn) with
  | Some (DTYPE_SOCKET so) =>
      match kn_fop kn with
      | soread_filtops => filt_soread so kn
      | sowrite_filtops => filt_sowrite so kn
      | solisten_filtops => filt_solisten so kn
      | file_filtops => (false, kn)
      end
  | _ => (false, kn)
  end.

(** The filter operations for a new knote, or EINVAL. *)
Definition soo_kqfilter (so : socket) (kn : knote) : Z + knote :=
  if filter (kn_kevent kn) =? EVFILT_READ then
    inr (with_fop kn (if so_acceptconn so then solisten_filtops else soread_filtops))
  else if filter (kn_kevent kn) =? EVFILT_WRITE then inr (with_fop kn sowrite_filtops)
  else inl ff_EINVAL.

(** * The queue *)

Definition knote_enqueue (q : kqueue) (k : key) (kn : knote) : kqueue :=
  Kq (kq_head q ++ [k]) (kq_count q + 1) (kq_knlistsize q)
     (<[k := with_status kn (kn_active kn) true (kn_disabled kn)]> (kq_knlist q)).

(** TAILQ_REMOVE of a knote that is on the queue. *)
Definition tailq_remove (k : key) (l : list key) : list key := base.filter (fun x => x <> k) l.

Definition knote_dequeue (q : kqueue) (k : key) (kn : knote) : kqueue :=
  Kq (tailq_remove k (kq_head q)) (kq_count q - 1) (kq_knlistsize q)
     (<[k := with_status kn (kn_active kn) false (kn_disabled kn)]> (kq_knlist q)).

(** KNOTE_ACTIVATE: [kn] is the new contents of the knote. *)
Definition KNOTE_ACTIVATE (q : kqueue) (k : key) (kn : knote) : kqueue :=
  let kn1 := with_status kn true (kn_queued kn) (kn_disabled kn) in
  if negb (kn_queued kn) && negb (kn_disabled kn) then knote_enqueue q k kn1
  else set_knote q k kn1.

Definition knote_attach (q : kqueue) (kn : knote) : Z + kqueue :=
  if ident (kn_kevent kn) >=? kq_knlistsize q then inl ff_ENOMEM
  else inr (set_knote q (kn_key kn) kn).

Definition knote_drop (q : kqueue) (k : key) (kn : knote) : kqueue :=
  let q1 := if kn_queued kn then knote_dequeue q k kn else q in
  Kq (kq_head q1) (kq_count q1) (kq_knlistsize q1) (delete k (kq_knlist q1)).

(** [while (size <= fd) size += KQEXTENT;] *)
Fixpoint grow (fuel : nat) (size fd : Z) : Z :=
  match fuel with
  | O => size
  | S n => if size <=? fd then grow n (size + KQEXTENT) fd else size
  end.

Definition kqueue_expand (q : kqueue) (fd : Z) : kqueue :=
  if kq_knlistsize q <=? fd then
    Kq (kq_head q) (kq_count q) (grow (Z.to_nat (fd - kq_knlistsize q + 1)) (kq_knlistsize q) fd)
       (kq_knlist q)
  else q.

(** The operations of a filter number: EINVAL ([Some None]) out of range,
    [file_filtops] for the file filters, [None] for the others. *)
Definition kqueue_fo_find (filt : Z) : option (option filterops) :=
  if (filt >? 0) || (filt + EVFILT_SYSCOUNT <? 0) then Some None
  else if (filt =? EVFILT_READ) || (filt =? EVFILT_WRITE) || (filt =? EVFILT_VNODE)
          || (filt =? EVFILT_PROCDESC) then Some (Some file_filtops)
  else None.

(** The part of [kqueue_register] from [done_ev_add]. *)
Definition done_ev_add (fs : gmap Z file) (q : kqueue) (kev : kevent) (k : key) (kn : knote) : kqueue :=
  let dis := if flag (flags kev) EV_ENABLE then false
             else if flag (flags kev) EV_DISABLE then true else kn_disabled kn in
  let kn1 := with_status kn (kn_active kn) (kn_queued kn) dis in
  let '(event, kn2) := if dis then (false, kn1) else f_event fs kn1 in
  let kn3 := with_status kn2 (kn_active kn2 || event) (kn_queued kn2) (kn_disabled kn2) in
  if kn_active kn3 && negb (kn_disabled kn3) && negb (kn_queued kn3)
  then knote_enqueue q k kn3 else set_knote q k kn3.

(** No knote matches: EV_ADD makes one. *)
Definition register_new (y : sys) (so : socket) (kev : kevent) : Z * kevent * sys :=
  if flag (flags kev) EV_ADD then
    let kev1 := with_data kev 0 0 in
    let mask := Z.lor EV_ADD (Z.lor EV_DELETE (Z.lor EV_ENABLE (Z.lor EV_DISABLE EV_FORCEONESHOT))) in
    let kn := Knote (with_flags kev1 (Z.ldiff (flags kev) mask)) false false false
                    (fflags kev) (data kev) file_filtops in
    match knote_attach (y_kq y) kn with
    | inl error => (error, kev1, y)
    | inr q =>
        match soo_kqfilter so kn with
        | inl error => (error, kev1, Sys (y_files y) (knote_drop q (kn_key kn) kn))
        | inr kn1 => (0, kev1, Sys (y_files y) (done_ev_add (y_files y) q kev1 (kn_key kn) kn1))
        end
    end
  else (ff_ENOENT, kev, y).

(** A knote matches: delete it, or change it. *)
Definition register_old (y : sys) (kev : kevent) (k : key) (kn : knote) : Z * kevent * sys :=
  if flag (flags kev) EV_DELETE then (0, kev, Sys (y_files y) (knote_drop (y_kq y) k kn))
  else
    let '(q, kn1) :=
      if flag (flags kev) EV_FORCEONESHOT then
        let kn0 := with_kevent kn (with_flags (kn_kevent kn) (Z.lor (kn_flags kn) EV_ONESHOT)) in
        (KNOTE_ACTIVATE (y_kq y) k kn0,
         with_status kn0 true (kn_queued kn0 || negb (kn_disabled kn0)) (kn_disabled kn0))
      else (y_kq y, kn) in
    let kn2 := with_saved (with_kevent kn1 (with_udata (kn_kevent kn1) (udata kev)))
                          (fflags kev) (data kev) in
    (0, kev, Sys (y_files y) (done_ev_add (y_files y) q kev k kn2)).

Definition find_knote (q : kqueue) (kev : kevent) : option knote :=
  if ident kev <? kq_knlistsize q then kq_knlist q !! (ident kev, filter kev) else None.

(** [kqueue_register]: the error, the kevent as it is left, the state. *)
Definition kqueue_register (y : sys) (kev : kevent) : outcome (Z * kevent * sys) :=
  if flag (flags kev) EV_ENABLE && flag (flags kev) EV_DISABLE then Done (ff_EINVAL, kev, y)
  else
    match kqueue_fo_find (filter kev) with
    | None => Fault
    | Some None => Done (ff_EINVAL, kev, y)
    | Some (Some _) =>
        if ident kev >? INT_MAX then Done (ff_EBADF, kev, y)
        else
          match y_files y !! ident kev with
          | None => Done (ff_EBADF, kev, y)
          | Some f =>
              let y1 := if flag (flags kev) EV_ADD
                        then Sys (y_files y) (kqueue_expand (y_kq y) (ident kev)) else y in
              match f with
              | DTYPE_KQUEUE => Done (ff_EINVAL, kev, y1)
              | DTYPE_SOCKET so =>
                  Done (match find_knote (y_kq y1) kev with
                        | None => register_new y1 so kev
                        | Some kn => register_old y1 kev (ident kev, filter kev) kn
                        end)
              end
          end
    end.

(** * Copying events in and out *)

(** [struct sys_kevent_args]: what is left of the change list, and the event
    list, an array of [E] with the position of [uap->eventlist]. *)
Record sys_kevent_args (E : Type) := Uap {
  changelist : list kevent;
  eventlist : list E;
  epos : nat
}.
Arguments Uap {E}.
Arguments changelist {E}.
Arguments eventlist {E}.
Arguments epos {E}.

Section kevent.
Context {E : Type}.
(** What [do_each] (or the bcopy of a kevent) stores, from the old contents. *)
Variable store : E -> kevent -> E.

Definition copyout1 (uap : sys_kevent_args E) (kev : kevent) : outcome (sys_kevent_args E) :=
  match eventlist uap !! epos uap with
  | None => Fault
  | Some old => Done (Uap (changelist uap) (<[epos uap := store old kev]> (eventlist uap)) (S (epos uap)))
  end.

Fixpoint kevent_copyout (uap : sys_kevent_args E) (kevp : list kevent) : outcome (sys_kevent_args E) :=
  match kevp with
  | [] => Done uap
  | ke :: rest => uap1 ← copyout1 uap ke; kevent_copyout uap1 rest
  end.

Definition kevent_copyin (uap : sys_kevent_args E) (count : nat) : list kevent * sys_kevent_args E :=
  (take count (changelist uap), Uap (drop count (changelist uap)) (eventlist uap) (epos uap)).

(** * Scanning *)

(** The state of the loop of [kqueue_scan].  The queue is [front ++ marker ::
    back]; [keva] holds the [nkev] events that are not copied out yet. *)
Record scan := Scan {
  sc_sys : sys;
  sc_uap : sys_kevent_args E;
  sc_keva : list kevent;
  sc_count : Z;
  sc_back : list key
}.

(** An event for the user: [kevp++; nkev++; count--] and the flush. *)
Definition scan_emit (s : scan) (kev : kevent) : outcome scan :=
  let keva := sc_keva s ++ [kev] in
  if Z.of_nat (length keva) =? KQ_NEVENTS then
    uap ← kevent_copyout (sc_uap s) keva;
    Done (Scan (sc_sys s) uap [] (sc_count s - 1) (sc_back s))
  else Done (Scan (sc_sys s) (sc_uap s) keva (sc_count s - 1) (sc_back s)).

(** [kq_count--] and the knote's new contents ([None]: dropped). *)
Definition take_off (y : sys) (k : key) (kn : option knote) : sys :=
  let q := y_kq y in
  Sys (y_files y) (Kq (kq_head q) (kq_count q - 1) (kq_knlistsize q)
    (match kn with Some kn => <[k := kn]> (kq_knlist q) | None => delete k (kq_knlist q) end)).

Definition stay (y : sys) (k : key) (kn : knote) : sys := Sys (y_files y) (set_knote (y_kq y) k kn).

Definition with_sys (s : scan) (y : sys) : scan := Scan y (sc_uap s) (sc_keva s) (sc_count s) (sc_back s).

(** One turn on a knote that TAILQ_REMOVE took from the head. *)
Definition scan_one (s : scan) (k : key) : outcome scan :=
  let y := sc_sys s in
  match kq_knlist (y_kq y) !! k with
  | None => Fault
  | Some kn =>
      if kn_disabled kn then
        Done (with_sys s (take_off y k (Some (with_status kn (kn_active kn) false (kn_disabled kn)))))
      else if flag (kn_flags kn) EV_DROP then Done (with_sys s (take_off y k None))
      else if flag (kn_flags kn) EV_ONESHOT then
        scan_emit (with_sys s (take_off y k None)) (kn_kevent kn)
      else
        let '(event, kn1) := f_event (y_files y) kn in
        if event then
          let kev := kn_kevent kn1 in
          if flag (kn_flags kn1) (Z.lor EV_CLEAR EV_DISPATCH) then
            let kn2 := if flag (kn_flags kn1) EV_CLEAR then with_kevent kn1 (with_data kev 0 0) else kn1 in
            let dis := if flag (kn_flags kn1) EV_DISPATCH then true else kn_disabled kn2 in
            scan_emit (with_sys s (take_off y k (Some (with_status kn2 false false dis)))) kev
          else
            scan_emit (Scan (stay y k kn1) (sc_uap s) (sc_keva s) (sc_count s) (sc_back s ++ [k])) kev
        else Done (with_sys s (take_off y k (Some (with_status kn1 false false (kn_disabled kn1)))))
  end.

(** [while (count)] down to the marker: what is left of [front]. *)
Fixpoint scan_loop (front : list key) (s : scan) : outcome (list key * scan) :=
  if sc_count s =? 0 then Done (front, s)
  else
    match front with
    | [] => Done ([], s)
    | k :: rest => s1 ← scan_one s k; scan_loop rest s1
    end.

Definition set_head (y : sys) (l : list key) : sys :=
  Sys (y_files y) (Kq l (kq_count (y_kq y)) (kq_knlistsize (y_kq y)) (kq_knlist (y_kq y))).

(** From [retry]; the timeout is zero, so an empty queue ends the scan.  The
    loop ends at the marker with nothing found ([count == maxevents]: once
    more), or with the marker removed. *)
Fixpoint scan_retry (fuel : nat) (maxevents : Z) (y : sys) (uap : sys_kevent_args E) : outcome scan :=
  match fuel with
  | O => Loop
  | S n =>
      if kq_count (y_kq y) =? 0 then Done (Scan y uap [] maxevents (kq_head (y_kq y)))
      else
        r ← scan_loop (kq_head (y_kq y)) (Scan y uap [] maxevents []);
        let '(front, s) := r in
        let y1 := set_head (sc_sys s) (front ++ sc_back s) in
        if sc_count s =? maxevents then scan_retry n maxevents y1 (sc_uap s)
        else Done (with_sys s y1)
  end.

(** [kqueue_scan]: the number of events (td_retval), the state, the array. *)
Definition kqueue_scan (fuel : nat) (y : sys) (maxevents : Z) (uap : sys_kevent_args E)
  : outcome (Z * sys * sys_kevent_args E) :=
  if maxevents =? 0 then Done (0, y, uap)
  else
    s ← scan_retry fuel maxevents y uap;
    uap1 ← kevent_copyout (sc_uap s) (sc_keva s);
    Done (maxevents - sc_count s, sc_sys s, uap1).

(** * kevent *)

(** The state of the loops of [kqueue_kevent]; [kv_ret]: the error it has
    already returned. *)
Record kv := Kv {
  kv_sys : sys;
  kv_uap : sys_kevent_args E;
  kv_nevents : Z;
  kv_nerrors : Z;
  kv_ret : option Z
}.

(** The body of [for (i = 0; i < n; i++)]. *)
Definition change_one (v : kv) (kev : kevent) : outcome kv :=
  if filter kev =? 0 then Done v
  else
    let kev0 := with_flags kev (Z.ldiff (flags kev) EV_SYSFLAGS) in
    r ← kqueue_register (kv_sys v) kev0;
    let '(error, kev1, y) := r in
    if ctrue error || flag (flags kev1) EV_RECEIPT then
      if kv_nevents v =? 0 then Done (Kv y (kv_uap v) (kv_nevents v) (kv_nerrors v) (Some error))
      else
        let kev2 := Kevent (ident kev1) (filter kev1) EV_ERROR (fflags kev1) error (udata kev1) in
        uap ← kevent_copyout (kv_uap v) [kev2];
        Done (Kv y uap (kv_nevents v - 1) (kv_nerrors v + 1) None)
    else Done (Kv y (kv_uap v) (kv_nevents v) (kv_nerrors v) None).

Fixpoint change_batch (v : kv) (l : list kevent) : outcome kv :=
  match kv_ret v, l with
  | Some _, _ => Done v
  | None, [] => Done v
  | None, kev :: rest => v1 ← change_one v kev; change_batch v1 rest
  end.

(** [while (nchanges > 0)]: batches of KQ_NEVENTS. *)
Fixpoint change_loop (fuel : nat) (nchanges : Z) (v : kv) : outcome kv :=
  match kv_ret v with
  | Some _ => Done v
  | None =>
      if nchanges >? 0 then
        match fuel with
        | O => Loop
        | S m =>
            let n := if nchanges >? KQ_NEVENTS then KQ_NEVENTS else nchanges in
            let '(keva, uap) := kevent_copyin (kv_uap v) (Z.to_nat n) in
            v1 ← change_batch (Kv (kv_sys v) uap (kv_nevents v) (kv_nerrors v) None) keva;
            change_loop m (nchanges - n) v1
        end
      else Done v
  end.

(** The result of [kern_kevent]: the error, td_retval[0], the state, the
    arguments. *)
Definition kqueue_kevent (fuel : nat) (y : sys) (nchanges nevents : Z) (uap : sys_kevent_args E)
  : outcome (Z * Z * sys * sys_kevent_args E) :=
  v ← change_loop fuel nchanges (Kv y uap nevents 0 None);
  match kv_ret v with
  | Some error => Done (error, 0, kv_sys v, kv_uap v)
  | None =>
      if ctrue (kv_nerrors v) then Done (0, kv_nerrors v, kv_sys v, kv_uap v)
      else
        r ← kqueue_scan fuel (kv_sys v) (kv_nevents v) (kv_uap v);
        let '(n, y1, uap1) := r in Done (0, n, y1, uap1)
  end.

(** [kern_kevent], with [fget] and [kqueue_acquire]: EBADF unless [fd] is the
    kqueue. *)
Definition kern_kevent (fuel : nat) (y : sys) (fd nchanges nevents : Z) (uap : sys_kevent_args E)
  : outcome (Z * Z * sys * sys_kevent_args E) :=
  match y_files y !! fd with
  | Some DTYPE_KQUEUE => kqueue_kevent fuel y nchanges nevents uap
  | _ => Done (ff_EBADF, 0, y, uap)
  end.

(** The value, errno, the state, the event list. *)
Definition ff_kevent_do_each (fuel : nat) (y : sys) (errno kq : Z) (changes : list kevent)
    (events : list E) (nevents : Z) : outcome (Z * Z * sys * list E) :=
  r ← kern_kevent fuel y kq (Z.of_nat (length changes)) nevents (Uap changes events 0);
  let '(error, retval, y1, uap) := r in
  Done (if ctrue error then (-1, ff_os_errno error, y1, eventlist uap)
        else (retval, errno, y1, eventlist uap)).
End kevent.

(** Without [do_each] the kevent is copied. *)
Definition ff_kevent (fuel : nat) (y : sys) (errno kq : Z) (changes events : list kevent) (nevents : Z)
  : outcome (Z * Z * sys * list kevent) :=
  ff_kevent_do_each (fun _ kev => kev) fuel y errno kq changes events nevents.

(** * Activation and close *)

(** [knote]: an event on the knlist of a socket buffer. *)
Definition knote_event (y : sys) (k : key) : sys :=
  match kq_knlist (y_kq y) !! k with
  | None => y
  | Some kn =>
      let '(event, kn1) := f_event (y_files y) kn in
      Sys (y_files y) (if event then KNOTE_ACTIVATE (y_kq y) k kn1 else set_knote (y_kq y) k kn1)
  end.

Definition drop_key (q : kqueue) (k : key) : kqueue :=
  match kq_knlist q !! k with Some kn => knote_drop q k kn | None => q end.

(** [knote_fdclose]: every knote of the descriptor is dropped. *)
Definition knote_fdclose (y : sys) (fd : Z) : sys :=
  let q := y_kq y in
  if kq_knlistsize q >? fd then
    Sys (y_files y) (fold_left drop_key
      (base.filter (fun k => k.1 = fd) (map_to_list (kq_knlist q)).*1) q)
  else y.

(** * What the filters read and write *)

Definition ready (fs : gmap Z file) (kn : knote) : bool := (f_event fs kn).1.
Definition refresh (fs : gmap Z file) (kn : knote) : knote := (f_event fs kn).2.

(** Readiness depends on the descriptor, the filter and the saved arguments. *)
Definition same_watch (a b : knote) : Prop :=
  kn_key a = kn_key b /\ kn_fop a = kn_fop b /\ kn_sfflags a = kn_sfflags b /\ kn_sdata a = kn_sdata b.

#[global] Instance same_watch_equiv : Equivalence same_watch.
Proof.
  split; [by intros x|intros x y (?&?&?&?)|intros x y z (?&?&?&?) (?&?&?&?)];
    repeat split; congruence.
Qed.

Lemma ready_watch fs a b : same_watch a b -> ready fs a = ready fs b.
Proof.
  intros ([= Hi _] & Hf & Hs & Hd). unfold ready, f_event. rewrite Hi, Hf.
  destruct (fs !! ident (kn_kevent b)) as [[so|]|]; [|done..].
  destruct (kn_fop b); unfold filt_soread, filt_sowrite, filt_solisten; rewrite ?Hs, ?Hd;
    repeat case_match; simplify_eq/=; done.
Qed.

Lemma f_event_split fs kn : f_event fs kn = (ready fs kn, refresh fs kn).
Proof. apply surjective_pairing. Qed.

(** [refresh] keeps everything but the data, fflags and EV_EOF. *)
Lemma refresh_watch fs kn : same_watch (refresh fs kn) kn.
Proof.
  unfold refresh, f_event, filt_soread, filt_sowrite, filt_solisten.
  repeat case_match; repeat split.
Qed.

Lemma refresh_status fs kn :
  kn_active (refresh fs kn) = kn_active kn /\ kn_queued (refresh fs kn) = kn_queued kn
  /\ kn_disabled (refresh fs kn) = kn_disabled kn
  /\ udata (kn_kevent (refresh fs kn)) = udata (kn_kevent kn).
Proof.
  unfold refresh, f_event, filt_soread, filt_sowrite, filt_solisten.
  repeat case_match; done.
Qed.

Lemma flag_lor_other x y m : Z.land y m = 0 -> flag (Z.lor x y) m = flag x m.
Proof. intros H. unfold flag. by rewrite Z.land_lor_distr_l, H, Z.lor_0_r. Qed.

Lemma refresh_flag fs kn m : Z.land EV_EOF m = 0 -> flag (kn_flags (refresh fs kn)) m = flag (kn_flags kn) m.
Proof.
  intros Hm. unfold refresh, f_event, filt_soread, filt_sowrite, filt_solisten, kn_flags.
  repeat case_match; cbn; rewrite ?flag_lor_other by done; done.
Qed.

Lemma ready_refresh fs kn : ready fs (refresh fs kn) = ready fs kn.
Proof. apply ready_watch, refresh_watch. Qed.

(** * The invariant *)

(** A knote that the scan leaves on the queue. *)
Definition level (kn : knote) : bool := negb (flag (kn_flags kn) (Z.lor EV_CLEAR EV_DISPATCH)).

(** The filter operations of a filter on sockets. *)
Definition fop_of (filt : Z) (fop : filterops) : Prop :=
  match fop with
  | file_filtops => False
  | sowrite_filtops => filt = EVFILT_WRITE
  | soread_filtops | solisten_filtops => filt = EVFILT_READ
  end.

(** What a knote keeps for life: its key, its filter and an open socket. *)
Record kn_static (fs : gmap Z file) (size : Z) (k : key) (kn : knote) : Prop := {
  ko_key : kn_key kn = k;
  ko_size : 0 <= k.1 < size;
  ko_filter : k.2 = EVFILT_READ \/ k.2 = EVFILT_WRITE;
  ko_fop : fop_of k.2 (kn_fop kn);
  ko_open : exists so, fs !! k.1 = Some (DTYPE_SOCKET so)
}.

(** A knote is on the queue if it is enabled and was activated, or if it is
    enabled, level-triggered and ready. *)
Record kn_ok (fs : gmap Z file) (size : Z) (k : key) (kn : knote) : Prop := {
  ko_static : kn_static fs size k kn;
  ko_active : kn_active kn = true -> kn_disabled kn = false -> kn_queued kn = true;
  ko_ready : kn_disabled kn = false -> level kn = true -> ready fs kn = true -> kn_queued kn = true
}.

(** The queue [h] holds the knotes of [m] marked KN_QUEUED, each once, and [c]
    counts them. *)
Record qs (h : list key) (c : Z) (m : gmap key knote) : Prop := {
  qs_count : c = Z.of_nat (length h);
  qs_nodup : NoDup h;
  qs_mem : forall k, k ∈ h <-> exists kn, m !! k = Some kn /\ kn_queued kn = true
}.

Definition kq_ok (y : sys) : Prop :=
  let q := y_kq y in
  qs (kq_head q) (kq_count q) (kq_knlist q)
  /\ map_Forall (kn_ok (y_files y) (kq_knlistsize q)) (kq_knlist q).

Lemma qs_same h c m k kn old :
  qs h c m -> m !! k = Some old -> kn_queued kn = kn_queued old -> qs h c (<[k := kn]> m).
Proof.
  intros [Hc Hn Hm] Ho Hq. split; [done..|]. intros k'. rewrite Hm.
  destruct (decide (k' = k)) as [->|].
  - rewrite lookup_insert_eq. split; intros (x & Hx & ?); simplify_eq; eexists; split; eauto; congruence.
  - by rewrite lookup_insert_ne.
Qed.

Lemma qs_new h c m k kn :
  qs h c m -> m !! k = None -> kn_queued kn = false -> qs h c (<[k := kn]> m).
Proof.
  intros [Hc Hn Hm] Ho Hq. split; [done..|]. intros k'. rewrite Hm.
  destruct (decide (k' = k)) as [->|].
  - rewrite lookup_insert_eq. split; intros (x & Hx & ?); simplify_eq; congruence.
  - by rewrite lookup_insert_ne.
Qed.

Lemma qs_not_queued h c m k kn :
  qs h c m -> m !! k = Some kn -> kn_queued kn = false -> k ∉ h.
Proof. intros [_ _ Hm] Hk Hq (x & Hx & ?)%Hm. congruence. Qed.

Lemma qs_enqueue h c m k kn :
  qs h c m -> (forall x, m !! k = Some x -> kn_queued x = false) -> kn_queued kn = true ->
  qs (h ++ [k]) (c + 1) (<[k := kn]> m).
Proof.
  intros Hs Ho Hq. assert (Hk : k ∉ h).
  { intros (x & Hx & ?)%(qs_mem _ _ _ Hs). specialize (Ho x Hx). congruence. }
  destruct Hs as [Hc Hn Hm]. split.
  - rewrite length_app. cbn. lia.
  - apply NoDup_app. split; [done|]. split; [|apply NoDup_singleton].
    intros x Hx ->%list_elem_of_singleton. done.
  - intros k'. rewrite elem_of_app, Hm, list_elem_of_singleton.
    destruct (decide (k' = k)) as [->|].
    + rewrite lookup_insert_eq. naive_solver.
    + rewrite lookup_insert_ne by done. naive_solver.
Qed.

(** A knote leaves the queue, with new contents or dropped. *)
Lemma qs_take_off h1 k h2 c m kn :
  qs (h1 ++ k :: h2) c m -> (forall x, kn = Some x -> kn_queued x = false) ->
  qs (h1 ++ h2) (c - 1) (match kn with Some x => <[k := x]> m | None => delete k m end).
Proof.
  intros [Hc Hn Hm] Hq. rewrite length_app in Hc. cbn in Hc.
  apply NoDup_app in Hn as (N1 & N12 & [N2 N3]%NoDup_cons). split.
  - rewrite length_app. lia.
  - apply NoDup_app. split; [done|]. split; [|done]. intros x ??. by eapply N12, elem_of_cons; eauto.
  - intros k'. specialize (Hm k'). rewrite elem_of_app, elem_of_cons in Hm. rewrite elem_of_app.
    destruct (decide (k' = k)) as [->|].
    + split; [intros [?|?]; [exfalso; eapply N12; [done|]; by left|done]|].
      intros (x & Hx & ?). destruct kn; [rewrite lookup_insert_eq in Hx|by rewrite lookup_delete_eq in Hx].
      simplify_eq. by rewrite (Hq x eq_refl) in *.
    + destruct kn; rewrite ?lookup_insert_ne, ?lookup_delete_ne by done; naive_solver.
Qed.

Lemma filter_id_notin (k : key) (l : list key) : k ∉ l -> tailq_remove k l = l.
Proof.
  intros H. unfold tailq_remove. induction l as [|x l IH]; [done|].
  apply not_elem_of_cons in H as [? ?]. rewrite filter_cons_True by done. by rewrite IH.
Qed.

Lemma tailq_remove_split h1 (k : key) h2 :
  NoDup (h1 ++ k :: h2) -> tailq_remove k (h1 ++ k :: h2) = h1 ++ h2.
Proof.
  intros (N1 & N12 & [N2 N3]%NoDup_cons)%NoDup_app. unfold tailq_remove.
  rewrite filter_app, filter_cons_False by (by intros ?).
  f_equal; apply filter_id_notin; [|done]. intros ?. eapply N12; [done|by left].
Qed.

Lemma qs_drop h c m k kn :
  qs h c m -> m !! k = Some kn ->
  qs (if kn_queued kn then tailq_remove k h else h) (if kn_queued kn then c - 1 else c) (delete k m).
Proof.
  intros Hs Hk. destruct (kn_queued kn) eqn:Hq.
  - assert (Hin : k ∈ h) by (apply (qs_mem _ _ _ Hs); eauto).
    apply list_elem_of_split in Hin as (h1 & h2 & ->).
    rewrite tailq_remove_split by apply Hs. by apply (qs_take_off _ _ _ _ _ None).
  - pose proof (qs_not_queued _ _ _ _ _ Hs Hk Hq). destruct Hs as [Hc Hn Hm]. split; [done..|].
    intros k'. rewrite Hm. destruct (decide (k' = k)) as [->|].
    + rewrite lookup_delete_eq. split; intros (x & Hx & ?); simplify_eq; congruence.
    + by rewrite lookup_delete_ne.
Qed.

(** * Every operation keeps the invariant *)

Lemma kn_static_ext fs size k a b :
  kn_key a = kn_key b -> kn_fop a = kn_fop b -> kn_static fs size k b -> kn_static fs size k a.
Proof. intros ? E []. split; rewrite ?E; congruence || done. Qed.

Lemma kn_static_watch fs size k a b : same_watch a b -> kn_static fs size k b -> kn_static fs size k a.
Proof. intros (?&?&?&?). by apply kn_static_ext. Qed.

Lemma ready_status fs kn a q d : ready fs (with_status kn a q d) = ready fs kn.
Proof. by apply ready_watch. Qed.

Lemma Forall_insert_others (P : key -> knote -> Prop) (m : gmap key knote) k kn :
  (forall k' x, k' <> k -> m !! k' = Some x -> P k' x) -> P k kn -> map_Forall P (<[k := kn]> m).
Proof.
  intros Ho Hk k' x. destruct (decide (k' = k)) as [->|].
  - rewrite lookup_insert_eq. by intros [= <-].
  - rewrite lookup_insert_ne by done. auto.
Qed.

Lemma level_status kn a q d : level (with_status kn a q d) = level kn.
Proof. done. Qed.

Lemma done_ev_add_ok fs q kev k kn old :
  qs (kq_head q) (kq_count q) (kq_knlist q) ->
  kq_knlist q !! k = Some old -> kn_queued kn = kn_queued old ->
  (forall k' x, k' <> k -> kq_knlist q !! k' = Some x -> kn_ok fs (kq_knlistsize q) k' x) ->
  kn_static fs (kq_knlistsize q) k kn ->
  kq_ok (Sys fs (done_ev_add fs q kev k kn)).
Proof.
  intros Hs Ho Hqu Hall Hst. unfold done_ev_add.
  set (dis := if flag (flags kev) EV_ENABLE then false else _).
  rewrite f_event_split.
  set (kn1 := with_status kn _ _ dis).
  destruct (refresh_status fs kn1) as (Ha & Hq & Hd & _).
  assert (Hw : same_watch (refresh fs kn1) kn) by (rewrite refresh_watch; done).
  assert (Hr : ready fs (refresh fs kn1) = ready fs kn1) by apply ready_refresh.
  destruct dis eqn:Edis.
  - cbn. rewrite andb_false_r. split; [by eapply qs_same|].
    apply Forall_insert_others; [done|]. split; [by apply (kn_static_watch _ _ _ _ kn)|done..].
  - cbn in *. rewrite Ha, Hd, Hq.
    assert (Hok : forall a qu, (a = true -> qu = true) -> (ready fs kn1 = true -> a = true) ->
      kn_ok fs (kq_knlistsize q) k (with_status (refresh fs kn1) a qu (kn_disabled (refresh fs kn1)))).
    { intros a qu H1 H2. split; cbn; [by apply (kn_static_watch _ _ _ _ kn)|auto|]. intros _ _.
      rewrite ready_status, Hr. auto. }
    destruct (kn_queued kn) eqn:Equ, (kn_active kn || ready fs kn1) eqn:Eact; cbn;
      (split; [first [eapply qs_same; [done|done|cbn; congruence]
                     |apply qs_enqueue; [done|intros ? ?; simplify_eq; congruence|done]]
              |apply Forall_insert_others; [done|]; rewrite Hd in Hok; cbn; rewrite ?Hd; apply Hok; auto]);
      intros Hrd; rewrite Hrd, orb_true_r in Eact; done.
Qed.

Lemma grow_spec fuel size fd :
  fd - size < Z.of_nat fuel -> size <= grow fuel size fd /\ fd < grow fuel size fd.
Proof.
  revert size. induction fuel as [|n IH]; intros size H; cbn; [lia|].
  destruct (Z.leb_spec size fd); [|lia].
  unfold KQEXTENT in *. destruct (IH (size + 256)); lia.
Qed.

Lemma kqueue_expand_spec q fd :
  kq_head (kqueue_expand q fd) = kq_head q /\ kq_count (kqueue_expand q fd) = kq_count q
  /\ kq_knlist (kqueue_expand q fd) = kq_knlist q
  /\ kq_knlistsize q <= kq_knlistsize (kqueue_expand q fd)
  /\ fd < kq_knlistsize (kqueue_expand q fd).
Proof.
  unfold kqueue_expand. destruct (Z.leb_spec (kq_knlistsize q) fd); cbn; [|repeat split; lia].
  destruct (grow_spec (Z.to_nat (fd - kq_knlistsize q + 1)) (kq_knlistsize q) fd); [lia|].
  repeat split; lia.
Qed.

Lemma kn_ok_size fs size size' k kn : size <= size' -> kn_ok fs size k kn -> kn_ok fs size' k kn.
Proof.
  intros Hle [[H1 [H2 H2'] H3 H4 H5] H6 H7]. split; [split|..]; try done.
  split; [done|]. by eapply Z.lt_le_trans.
Qed.

Lemma kqueue_expand_ok fs q fd : kq_ok (Sys fs q) -> kq_ok (Sys fs (kqueue_expand q fd)).
Proof.
  unfold kq_ok. cbn. destruct (kqueue_expand_spec q fd) as (-> & -> & -> & Hle & _).
  intros [? Hall]. split; [done|]. eapply map_Forall_impl; [done|]. intros ??. by apply kn_ok_size.
Qed.

Lemma knote_drop_eq q k kn :
  knote_drop q k kn
  = Kq (if kn_queued kn then tailq_remove k (kq_head q) else kq_head q)
       (if kn_queued kn then kq_count q - 1 else kq_count q) (kq_knlistsize q) (delete k (kq_knlist q)).
Proof.
  unfold knote_drop, knote_dequeue. destruct (kn_queued kn); cbn; [|done].
  by rewrite delete_insert_eq.
Qed.

Lemma knote_drop_ok fs q k kn :
  qs (kq_head q) (kq_count q) (kq_knlist q) -> kq_knlist q !! k = Some kn ->
  (forall k' x, k' <> k -> kq_knlist q !! k' = Some x -> kn_ok fs (kq_knlistsize q) k' x) ->
  kq_ok (Sys fs (knote_drop q k kn)).
Proof.
  intros Hs Hk Hall. rewrite knote_drop_eq. split; cbn; [by apply qs_drop|].
  intros k' x (? & ?)%lookup_delete_Some. auto.
Qed.

Lemma KNOTE_ACTIVATE_qs q k kn old :
  qs (kq_head q) (kq_count q) (kq_knlist q) -> kq_knlist q !! k = Some old ->
  kn_queued kn = kn_queued old ->
  let q' := KNOTE_ACTIVATE q k kn in
  qs (kq_head q') (kq_count q') (kq_knlist q')
  /\ kq_knlistsize q' = kq_knlistsize q
  /\ kq_knlist q' = <[k := with_status kn true (kn_queued kn || negb (kn_disabled kn)) (kn_disabled kn)]> (kq_knlist q).
Proof.
  intros Hs Hk Hq. unfold KNOTE_ACTIVATE.
  destruct (kn_queued kn) eqn:Equ, (kn_disabled kn) eqn:Edi; cbn.
  1-3: split; [eapply qs_same; [done|done|cbn; congruence]|]; rewrite ?Equ, ?Edi; done.
  split; [|done].
  apply qs_enqueue; [done|intros ??; simplify_eq; congruence|done].
Qed.

(** The invariant for all keys but [k]. *)
Definition others_ok (fs : gmap Z file) (q : kqueue) (k : key) : Prop :=
  forall k' x, k' <> k -> kq_knlist q !! k' = Some x -> kn_ok fs (kq_knlistsize q) k' x.

Lemma kq_ok_others fs q k : kq_ok (Sys fs q) -> others_ok fs q k.
Proof. intros [_ H] k' x _ Hx. by apply H. Qed.

Lemma register_old_ok y kev k kn :
  kq_ok y -> kq_knlist (y_kq y) !! k = Some kn -> kq_ok (register_old y kev k kn).2.
Proof.
  destruct y as [fs q]. intros Hok Hk. pose proof (kq_ok_others _ _ k Hok) as Hoth.
  destruct Hok as [Hs Hall]. cbn in *. pose proof (ko_static _ _ _ _ (Hall _ _ Hk)) as Hst.
  unfold register_old. cbn [y_kq y_files].
  destruct (flag (flags kev) EV_DELETE); [by apply knote_drop_ok|].
  destruct (flag (flags kev) EV_FORCEONESHOT).
  - set (kn0 := with_kevent kn _).
    destruct (KNOTE_ACTIVATE_qs q k kn0 kn) as (Hs' & Hz & Hm); [done..|].
    cbn [snd]. eapply done_ev_add_ok; [done|by rewrite Hm, lookup_insert_eq|done|..].
    + intros k' x Hne. rewrite Hm, Hz, lookup_insert_ne by done. by apply Hoth.
    + rewrite Hz. by apply (kn_static_ext _ _ _ _ kn).
  - cbn [snd]. eapply done_ev_add_ok; [done..|]. by apply (kn_static_ext _ _ _ _ kn).
Qed.

Lemma register_new_ok y so kev :
  kq_ok y -> 0 <= ident kev -> y_files y !! ident kev = Some (DTYPE_SOCKET so) ->
  find_knote (y_kq y) kev = None -> kq_ok (register_new y so kev).2.
Proof.
  destruct y as [fs q]. intros Hok Hid Hso Hf. cbn in Hso.
  unfold register_new. destruct (flag (flags kev) EV_ADD); [|done].
  unfold knote_attach. cbn [y_kq y_files] in *.
  set (kn := Knote _ _ _ _ _ _ _). change (ident (kn_kevent kn)) with (ident kev).
  destruct (Z.geb_spec (ident kev) (kq_knlistsize q)) as [|Hlt]; [done|].
  unfold find_knote in Hf. rewrite (proj2 (Z.ltb_lt _ _)) in Hf by lia.
  change (kn_key kn) with (ident kev, filter kev).
  pose proof (kq_ok_others _ _ (ident kev, filter kev) Hok) as Hoth. destruct Hok as [Hs Hall]. cbn in Hs.
  assert (Hs' : qs (kq_head q) (kq_count q) (<[(ident kev, filter kev) := kn]> (kq_knlist q)))
    by by apply qs_new.
  assert (Hoth' : others_ok fs (set_knote q (ident kev, filter kev) kn) (ident kev, filter kev)).
  { intros k' x Hne. cbn. rewrite lookup_insert_ne by done. by apply Hoth. }
  unfold soo_kqfilter. change (filter (kn_kevent kn)) with (filter kev).
  destruct (Z.eqb_spec (filter kev) EVFILT_READ) as [Hr|];
    [|destruct (Z.eqb_spec (filter kev) EVFILT_WRITE) as [Hw|]].
  3: by apply knote_drop_ok; [|apply lookup_insert_eq|].
  all: eapply done_ev_add_ok; [done|apply lookup_insert_eq|done..|]; split; cbn;
    [done|lia|auto|by repeat case_match|eauto].
Qed.

Lemma kqueue_register_ok y kev e kev' y' :
  kq_ok y -> 0 <= ident kev -> kqueue_register y kev = Done (e, kev', y') -> kq_ok y'.
Proof.
  intros Hok Hid. unfold kqueue_register.
  destruct (_ && _); [by intros [= <- <- <-]|].
  destruct (kqueue_fo_find _) as [[?|]|]; [|by intros [= <- <- <-]|done].
  destruct (_ >? _); [by intros [= <- <- <-]|].
  destruct (y_files y !! ident kev) as [fl|] eqn:Ef; [|by intros [= <- <- <-]].
  set (y1 := if flag (flags kev) EV_ADD then _ else _).
  assert (Hok1 : kq_ok y1).
  { unfold y1. destruct (flag _ _); [|done]. destruct y. by apply kqueue_expand_ok. }
  assert (Hf1 : y_files y1 = y_files y) by by unfold y1; destruct (flag _ _).
  destruct fl as [so|]; [|by intros [= <- <- <-]].
  intros [= Heq]. replace y' with (e, kev', y').2 by done. rewrite <- Heq.
  destruct (find_knote (y_kq y1) kev) as [kn|] eqn:Hk.
  - apply register_old_ok; [done|]. unfold find_knote in Hk. by destruct (_ <? _).
  - apply register_new_ok; [done..| |done]. by rewrite Hf1.
Qed.

(** The invariant while the knotes of [pend] wait for their event. *)
Definition kq_ok_but (pend : list key) (y : sys) : Prop :=
  let q := y_kq y in
  qs (kq_head q) (kq_count q) (kq_knlist q)
  /\ forall k kn, kq_knlist q !! k = Some kn ->
       kn_static (y_files y) (kq_knlistsize q) k kn
       /\ (kn_active kn = true -> kn_disabled kn = false -> kn_queued kn = true)
       /\ (k ∉ pend -> kn_disabled kn = false -> level kn = true -> ready (y_files y) kn = true ->
           kn_queued kn = true).

Lemma kq_ok_but_nil y : kq_ok_but [] y -> kq_ok y.
Proof.
  intros [Hs H]. split; [done|]. intros k kn Hk. destruct (H k kn Hk) as (? & ? & Hr).
  split; [done..|]. apply Hr, not_elem_of_nil.
Qed.

Lemma knote_event_ok k pend y : kq_ok_but (k :: pend) y -> kq_ok_but pend (knote_event y k).
Proof.
  destruct y as [fs q]. intros [Hs Hall]. cbn in *. unfold knote_event. cbn.
  destruct (kq_knlist q !! k) as [kn|] eqn:Hk.
  2: { split; [done|]. cbn. intros k' kn Hk'. destruct (Hall k' kn Hk') as (?&?&Hr).
       split_and!; [done..|]. intros Hp. apply Hr. intros [->|?]%elem_of_cons; congruence. }
  rewrite f_event_split. destruct (Hall k kn Hk) as (Hst & Hac & _).
  destruct (refresh_status fs kn) as (Ra & Rq & Rd & _).
  pose proof (kn_static_watch _ _ _ _ _ (refresh_watch fs kn) Hst) as Hst'.
  assert (Hoth : forall kn' k' x, k' <> k -> <[k := kn']> (kq_knlist q) !! k' = Some x ->
    kn_static fs (kq_knlistsize q) k' x
    /\ (kn_active x = true -> kn_disabled x = false -> kn_queued x = true)
    /\ (k' ∉ pend -> kn_disabled x = false -> level x = true -> ready fs x = true -> kn_queued x = true)).
  { intros kn' k' x Hne Hx. rewrite lookup_insert_ne in Hx by done.
    destruct (Hall k' x Hx) as (?&?&Hr). split_and!; [done..|].
    intros Hp. apply Hr. by intros [->|?]%elem_of_cons. }
  destruct (ready fs kn) eqn:Er.
  - destruct (KNOTE_ACTIVATE_qs q k (refresh fs kn) kn) as (Hs' & Hz & Hm); [done..|].
    split; cbn; [done|]. rewrite Hm, Hz. intros k' x Hx. destruct (decide (k' = k)) as [->|]; [|by eapply Hoth].
    rewrite lookup_insert_eq in Hx. simplify_eq.
    split; [by apply (kn_static_ext _ _ _ _ (refresh fs kn))|]. cbn.
    split; [intros _ ->|intros _ -> _ _]; apply orb_true_r.
  - split; cbn; [by eapply qs_same|]. intros k' x Hx.
    destruct (decide (k' = k)) as [->|]; [|by eapply Hoth].
    rewrite lookup_insert_eq in Hx. simplify_eq.
    rewrite Ra, Rq, Rd, ready_refresh, Er. split_and!; done.
Qed.

Lemma knote_events_ok ks y : kq_ok_but ks y -> kq_ok (fold_left knote_event ks y).
Proof.
  revert y. induction ks as [|k ks IH]; intros y H; [by apply kq_ok_but_nil|].
  apply IH. by apply knote_event_ok.
Qed.

(** * Traces

    The steps of the system: registrations, scans, socket changes with the
    knotes they wake up, and the opening and closing of descriptors. *)

Definition set_file (y : sys) (fd : Z) (f : file) : sys := Sys (<[fd := f]> (y_files y)) (y_kq y).

Definition close (y : sys) (fd : Z) : sys :=
  let y1 := knote_fdclose y fd in Sys (delete fd (y_files y1)) (y_kq y1).

(** A change of the socket [so] into [so'] may make ready only knotes of [ks]. *)
Definition wakes (y : sys) (fd : Z) (so' : socket) (ks : list key) : Prop :=
  forall k kn, kq_knlist (y_kq y) !! k = Some kn -> k ∉ ks ->
    ready (<[fd := DTYPE_SOCKET so']> (y_files y)) kn = true -> ready (y_files y) kn = true.

Inductive kmove : sys -> sys -> Prop :=
  | ks_register y kev e kev' y' :
      0 <= ident kev -> kqueue_register y kev = Done (e, kev', y') -> kmove y y'
  | ks_socket y fd so so' ks :
      y_files y !! fd = Some (DTYPE_SOCKET so) -> wakes y fd so' ks ->
      kmove y (fold_left knote_event ks (set_file y fd (DTYPE_SOCKET so')))
  | ks_open y fd f :
      0 <= fd -> y_files y !! fd = None -> kmove y (set_file y fd f)
  | ks_close y fd : 0 <= fd -> kmove y (close y fd).

Inductive kstep : sys -> sys -> Prop :=
  | ks_move y y' : kmove y y' -> kstep y y'
  | ks_scan y E (store : E -> kevent -> E) maxevents cl ev0 n y' uap' :
      0 < maxevents <= Z.of_nat (length ev0) ->
      kqueue_scan store 2 y maxevents (Uap cl ev0 0) = Done (n, y', uap') -> kstep y y'.

Lemma set_file_open_ok y fd f : y_files y !! fd = None -> kq_ok y -> kq_ok (set_file y fd f).
Proof.
  intros Hf [Hs Hall]. split; [done|]. cbn. intros k kn Hk. destruct (Hall k kn Hk) as [[] ??].
  assert (Hne : k.1 <> fd) by (intros <-; destruct ko_open0; congruence).
  split; [split; try done; destruct ko_open0; eexists; by rewrite lookup_insert_ne|done|].
  intros ?? Hr. apply ko_ready0; [done..|]. revert Hr. unfold ready, f_event.
  replace (ident (kn_kevent kn)) with k.1 by by rewrite <- ko_key0.
  by rewrite lookup_insert_ne.
Qed.

Lemma set_file_socket_ok y fd so so' ks :
  kq_ok y -> y_files y !! fd = Some (DTYPE_SOCKET so) -> wakes y fd so' ks ->
  kq_ok_but ks (set_file y fd (DTYPE_SOCKET so')).
Proof.
  intros [Hs Hall] Hf Hw. split; [done|]. cbn. intros k kn Hk. destruct (Hall k kn Hk) as [[] ??].
  split; [|split; [done|]].
  - split; try done. destruct (decide (k.1 = fd)) as [->|].
    + rewrite lookup_insert_eq. eauto.
    + by rewrite lookup_insert_ne.
  - intros Hp ?? Hr. apply ko_ready0; [done..|]. eapply Hw; eauto.
Qed.

Lemma drop_key_ok fs q k : kq_ok (Sys fs q) -> kq_ok (Sys fs (drop_key q k)).
Proof.
  intros Hok. unfold drop_key. destruct (kq_knlist q !! k) as [kn|] eqn:Hk; [|done].
  pose proof (kq_ok_others _ _ k Hok). by apply knote_drop_ok; [apply Hok|..].
Qed.

Lemma drop_key_knlist q k : kq_knlist (drop_key q k) = delete k (kq_knlist q).
Proof.
  unfold drop_key. destruct (kq_knlist q !! k) eqn:Hk; [by rewrite knote_drop_eq|].
  by rewrite delete_id.
Qed.

Lemma drop_keys_ok fs ks q :
  kq_ok (Sys fs q) ->
  kq_ok (Sys fs (fold_left drop_key ks q))
  /\ forall k, k ∈ ks -> kq_knlist (fold_left drop_key ks q) !! k = None.
Proof.
  revert q. induction ks as [|k ks IH]; intros q Hok; cbn; [split; [done|intros k []%not_elem_of_nil]|].
  destruct (IH (drop_key q k)) as [H1 H2]; [by apply drop_key_ok|]. split; [done|].
  intros k' [->|?]%elem_of_cons; [|auto].
  assert (Hn : kq_knlist (drop_key q k) !! k = None) by by rewrite drop_key_knlist, lookup_delete_eq.
  clear -Hn. revert Hn. generalize (drop_key q k). induction ks as [|x ks IH]; intros q0 Hn; cbn; [done|].
  apply IH. rewrite drop_key_knlist. by apply lookup_delete_None; right.
Qed.

Lemma drop_keys_sub ks q k kn :
  kq_knlist (fold_left drop_key ks q) !! k = Some kn -> kq_knlist q !! k = Some kn.
Proof.
  revert q. induction ks as [|x ks IH]; intros q; cbn; [done|].
  intros H%IH. rewrite drop_key_knlist in H. by apply lookup_delete_Some in H as [_ ?].
Qed.

(** Closing drops every knote of the descriptor. *)
Lemma knote_fdclose_spec y fd :
  kq_ok y -> kq_ok (knote_fdclose y fd)
  /\ y_files (knote_fdclose y fd) = y_files y
  /\ forall k, k.1 = fd -> kq_knlist (y_kq (knote_fdclose y fd)) !! k = None.
Proof.
  destruct y as [fs q]. intros Hok. unfold knote_fdclose. cbn.
  destruct (Z.gtb_spec (kq_knlistsize q) fd) as [|Hge].
  - set (ks := base.filter _ _). destruct (drop_keys_ok fs ks q Hok) as [H1 H2].
    split_and!; [done..|]. cbn. intros k Hk.
    destruct (kq_knlist (fold_left drop_key ks q) !! k) as [kn|] eqn:E; [|done].
    rewrite <- E. apply H2. apply list_elem_of_filter. split; [done|].
    apply list_elem_of_fmap. exists (k, kn). split; [done|].
    apply elem_of_map_to_list. by eapply drop_keys_sub.
  - split_and!; [done..|]. cbn. intros k Hk. destruct (kq_knlist q !! k) as [kn|] eqn:E; [|done].
    destruct Hok as [_ Hall]. destruct (ko_size _ _ _ _ (ko_static _ _ _ _ (Hall k kn E))). cbn in *. lia.
Qed.

Lemma close_ok y fd : kq_ok y -> kq_ok (close y fd).
Proof.
  intros Hok. destruct (knote_fdclose_spec y fd Hok) as ([Hs Hall] & Hf & Hn).
  unfold close. split; [done|]. cbn. intros k kn Hk. destruct (Hall k kn Hk) as [[] ??].
  assert (Hne : k.1 <> fd) by (intros He; rewrite Hn in Hk; done).
  split; [split; try done; by rewrite lookup_delete_ne|done|].
  intros ?? Hr. apply ko_ready0; [done..|]. revert Hr. unfold ready, f_event.
  replace (ident (kn_kevent kn)) with k.1 by by rewrite <- ko_key0.
  by rewrite lookup_delete_ne.
Qed.

(** * The scan *)

(** What one turn of the scan does to a knote: the event it reports and the
    knote's new contents. *)
Definition scan_result (fs : gmap Z file) (kn : knote) : option kevent * option knote :=
  if kn_disabled kn then (None, Some (with_status kn (kn_active kn) false true))
  else if flag (kn_flags kn) EV_DROP then (None, None)
  else if flag (kn_flags kn) EV_ONESHOT then (Some (kn_kevent kn), None)
  else if ready fs kn then
    let kn1 := refresh fs kn in
    (Some (kn_kevent kn1),
     Some (if level kn then kn1
           else with_status (if flag (kn_flags kn) EV_CLEAR
                             then with_kevent kn1 (with_data (kn_kevent kn1) 0 0) else kn1)
                            false false (flag (kn_flags kn) EV_DISPATCH)))
  else (None, Some (with_status (refresh fs kn) false false false)).

(** The events that a scan of the queue [l] finds. *)
Definition found (fs : gmap Z file) (m : gmap key knote) (l : list key) : list kevent :=
  omap (fun k => kn ← m !! k; (scan_result fs kn).1) l.

Section scan_spec.
Context {E : Type} (store : E -> kevent -> E).

(** The array [ev0] with the events [evs] stored from its start. *)
Definition fill (ev0 : list E) (evs : list kevent) : list E :=
  zip_with store (take (length evs) ev0) evs ++ drop (length evs) ev0.

Lemma fill_snoc ev0 evs kev old :
  ev0 !! length evs = Some old ->
  fill ev0 evs !! length evs = Some old
  /\ <[length evs := store old kev]> (fill ev0 evs) = fill ev0 (evs ++ [kev]).
Proof.
  intros Hl. pose proof (lookup_lt_Some _ _ _ Hl) as Hlt. unfold fill.
  assert (Hz : length (zip_with store (take (length evs) ev0) evs) = length evs)
    by (rewrite length_zip_with, length_take; lia).
  rewrite lookup_app_r, Hz, Nat.sub_diag, lookup_drop, Nat.add_0_r by lia. split; [done|].
  rewrite insert_app_r_alt, Hz, Nat.sub_diag by lia.
  rewrite (drop_S _ _ _ Hl). cbn. rewrite length_app. cbn.
  rewrite Nat.add_1_r, (take_S_r _ _ _ Hl), zip_with_app by (rewrite length_take; lia).
  by rewrite <- app_assoc.
Qed.

Lemma kevent_copyout_spec cl ev0 kevs evs :
  (length (evs ++ kevs) <= length ev0)%nat ->
  kevent_copyout store (Uap cl (fill ev0 evs) (length evs)) kevs
  = Done (Uap cl (fill ev0 (evs ++ kevs)) (length (evs ++ kevs))).
Proof.
  revert evs. induction kevs as [|kev kevs IH]; intros evs Hl; cbn; [by rewrite app_nil_r|].
  rewrite length_app in Hl. cbn in Hl.
  destruct (lookup_lt_is_Some_2 ev0 (length evs)) as [old Ho]; [lia|].
  destruct (fill_snoc ev0 evs kev old Ho) as [H1 H2].
  unfold copyout1. cbn. rewrite H1. cbn. rewrite H2.
  replace (S (length evs)) with (length (evs ++ [kev])) by (rewrite length_app; cbn; lia).
  rewrite IH by (rewrite !length_app in *; cbn in *; lia). by rewrite <- app_assoc.
Qed.

(** The knotes after the turn on [k]. *)
Definition after (fs : gmap Z file) (m : gmap key knote) (k : key) (kn : knote) : gmap key knote :=
  match (scan_result fs kn).2 with Some x => <[k := x]> m | None => delete k m end.

(** The turn puts the knote back at the tail. *)
Definition stays (fs : gmap Z file) (kn : knote) : bool :=
  match scan_result fs kn with (Some _, Some x) => level kn | _ => false end.

Definition scan_next (s : @scan E) (k : key) (kn : knote) : @scan E :=
  let y := sc_sys s in
  let q := y_kq y in
  let m := after (y_files y) (kq_knlist q) k kn in
  if stays (y_files y) kn
  then Scan (Sys (y_files y) (Kq (kq_head q) (kq_count q) (kq_knlistsize q) m))
            (sc_uap s) (sc_keva s) (sc_count s) (sc_back s ++ [k])
  else with_sys s (Sys (y_files y) (Kq (kq_head q) (kq_count q - 1) (kq_knlistsize q) m)).

Lemma flag_lor x a b : flag x (Z.lor a b) = flag x a || flag x b.
Proof.
  unfold flag. rewrite Z.land_lor_distr_r.
  destruct (Z.eqb_spec (Z.land x a) 0) as [->|Ha]; [done|].
  destruct (Z.eqb_spec (Z.lor (Z.land x a) (Z.land x b)) 0) as [[? _]%Z.lor_eq_0_iff|]; done.
Qed.

Lemma scan_one_eq (s : @scan E) k kn :
  kq_knlist (y_kq (sc_sys s)) !! k = Some kn ->
  scan_one store s k
  = match (scan_result (y_files (sc_sys s)) kn).1 with
    | Some kev => scan_emit store (scan_next s k kn) kev
    | None => Done (scan_next s k kn)
    end.
Proof.
  intros Hk. unfold scan_one, scan_next, after, stays, scan_result. rewrite Hk, f_event_split.
  set (fs := y_files (sc_sys s)). destruct (refresh_status fs kn) as (Ra & Rq & Rd & _).
  destruct (kn_disabled kn) eqn:Ed; [done|].
  destruct (flag (kn_flags kn) EV_DROP); [done|].
  destruct (flag (kn_flags kn) EV_ONESHOT); [done|].
  destruct (ready fs kn); [|by rewrite Rd, ?Ed].
  unfold level. rewrite !refresh_flag, flag_lor by done.
  destruct (flag (kn_flags kn) EV_CLEAR), (flag (kn_flags kn) EV_DISPATCH); cbn; rewrite ?Rd, ?Ed; done.
Qed.

Lemma found_cons fs m k kn l :
  m !! k = Some kn ->
  found fs m (k :: l) = match (scan_result fs kn).1 with Some kev => kev :: found fs m l | None => found fs m l end.
Proof. intros H. unfold found. cbn. rewrite H. done. Qed.

Lemma found_after fs m k kn l : k ∉ l -> found fs (after fs m k kn) l = found fs m l.
Proof.
  intros Hk. unfold found. apply list_omap_ext, Forall2_same_length_lookup_2; [done|].
  intros i x x' H1 H2. simplify_eq.
  assert (x <> k) by (intros ->; apply Hk; by eapply list_elem_of_lookup_2).
  unfold after. destruct (_.2); rewrite ?lookup_insert_ne, ?lookup_delete_ne by done; done.
Qed.

Lemma stays_new fs kn x : stays fs kn = true -> (scan_result fs kn).2 = Some x ->
  x = refresh fs kn /\ is_Some (scan_result fs kn).1.
Proof.
  unfold stays, scan_result. repeat case_match; intros; simplify_eq/=; try done; eauto.
Qed.

(** The turn keeps the knotes' invariant, and takes off the queue what it
    does not put back. *)
Lemma after_ok fs size k kn x :
  kn_ok fs size k kn -> kn_queued kn = true -> (scan_result fs kn).2 = Some x ->
  kn_ok fs size k x /\ kn_queued x = stays fs kn.
Proof.
  intros [Hst Ha Hr] Hq. unfold stays, scan_result.
  destruct (refresh_status fs kn) as (Ra & Rq & Rd & _).
  pose proof (kn_static_watch _ _ _ _ _ (refresh_watch fs kn) Hst) as Hst'.
  destruct (kn_disabled kn) eqn:Ed.
  { intros [= <-]. split; [split; [by apply (kn_static_ext _ _ _ _ kn)|done..]|done]. }
  destruct (flag (kn_flags kn) EV_DROP); [done|].
  destruct (flag (kn_flags kn) EV_ONESHOT); [done|].
  destruct (ready fs kn) eqn:Er.
  - cbn. intros [= <-]. destruct (level kn) eqn:El.
    + split; [split; [done|congruence..]|congruence].
    + split; [|by destruct (flag (kn_flags kn) EV_CLEAR)]. unfold level in El. rewrite flag_lor in El.
      assert (Hf : flag (kn_flags (refresh fs kn)) (Z.lor EV_CLEAR EV_DISPATCH) = true)
        by (rewrite refresh_flag, flag_lor by done; by destruct (_ || _)).
      destruct (flag (kn_flags kn) EV_CLEAR), (flag (kn_flags kn) EV_DISPATCH); split; cbn; try done;
        try (by apply (kn_static_ext _ _ _ _ (refresh fs kn)));
        intros _ Hl; unfold level, kn_flags in *; cbn in *; rewrite Hf in Hl; done.
  - intros [= <-]. split; [|done].
    split; [by apply (kn_static_ext _ _ _ _ (refresh fs kn))|done|].
    rewrite ready_status, ready_refresh, Er. done.
Qed.

(** The loop's invariant: [evs] are the events reported so far. *)
Record scan_inv (fs : gmap Z file) (size maxevents : Z) (cl : list kevent) (ev0 : list E)
    (front : list key) (s : @scan E) (evs : list kevent) : Prop := {
  si_files : y_files (sc_sys s) = fs;
  si_size : kq_knlistsize (y_kq (sc_sys s)) = size;
  si_qs : qs (front ++ sc_back s) (kq_count (y_kq (sc_sys s))) (kq_knlist (y_kq (sc_sys s)));
  si_ok : map_Forall (kn_ok fs size) (kq_knlist (y_kq (sc_sys s)));
  si_count : sc_count s = maxevents - Z.of_nat (length evs);
  si_nonneg : 0 <= sc_count s;
  si_room : maxevents <= Z.of_nat (length ev0);
  si_log : exists dn, evs = dn ++ sc_keva s /\ sc_uap s = Uap cl (fill ev0 dn) (length dn)
}.

Lemma scan_emit_inv fs size maxevents cl ev0 front s evs kev :
  scan_inv fs size maxevents cl ev0 front s evs -> 0 < sc_count s ->
  exists s', scan_emit store s kev = Done s'
    /\ scan_inv fs size maxevents cl ev0 front s' (evs ++ [kev])
    /\ sc_sys s' = sc_sys s /\ sc_back s' = sc_back s /\ sc_count s' = sc_count s - 1.
Proof.
  intros [] Hc. destruct si_log0 as (dn & -> & Hu). unfold scan_emit.
  assert (Hl : Z.of_nat (length ((dn ++ sc_keva s) ++ [kev])) <= maxevents).
  { rewrite length_app. cbn. lia. }
  destruct (Z.eqb_spec (Z.of_nat (length (sc_keva s ++ [kev]))) KQ_NEVENTS).
  - rewrite Hu, kevent_copyout_spec by (rewrite app_assoc; lia). cbn. eexists. split; [done|].
    split; [|done]. split; try done; cbn; [rewrite length_app; cbn; lia|lia|].
    exists (dn ++ sc_keva s ++ [kev]). by rewrite app_nil_r, app_assoc.
  - eexists. split; [done|]. split; [|done]. split; try done; cbn; [rewrite length_app; cbn; lia|lia|].
    exists dn. by rewrite app_assoc.
Qed.

Lemma scan_next_inv fs size maxevents cl ev0 k rest s evs kn :
  scan_inv fs size maxevents cl ev0 (k :: rest) s evs ->
  kq_knlist (y_kq (sc_sys s)) !! k = Some kn -> kn_queued kn = true ->
  scan_inv fs size maxevents cl ev0 rest (scan_next s k kn) evs.
Proof.
  intros [] Hk Hq. pose proof (si_ok0 k kn Hk) as Hok.
  assert (Hall : map_Forall (kn_ok fs size) (after fs (kq_knlist (y_kq (sc_sys s))) k kn)).
  { unfold after. destruct ((scan_result fs kn).2) as [x|] eqn:Ex.
    - apply map_Forall_insert_2; [|done]. by eapply after_ok.
    - by apply map_Forall_delete. }
  unfold scan_next. rewrite si_files0. destruct (stays fs kn) eqn:Est.
  - split; try done. cbn. unfold after.
    assert (exists x, (scan_result fs kn).2 = Some x) as [x Ex].
    { revert Est. unfold stays. repeat case_match; try done; cbn; eauto. }
    rewrite Ex. destruct (after_ok _ _ _ _ _ Hok Hq Ex) as [_ Hx]. rewrite Est in Hx.
    rewrite app_assoc. eapply qs_same; [|done|congruence]. cbn.
    clear -si_qs0. destruct si_qs0 as [H1 H2 H3].
    assert (Hp : k :: rest ++ sc_back s ≡ₚ (rest ++ sc_back s) ++ [k]) by apply Permutation_cons_append.
    split; [by rewrite <- Hp|by rewrite <- Hp|]. intros k'. rewrite <- H3. by rewrite <- Hp.
  - split; try done. cbn. apply (qs_take_off [] k (rest ++ sc_back s) _ _ _ si_qs0).
    intros x Ex. destruct (after_ok _ _ _ _ _ Hok Hq Ex) as [_ ->]. done.
Qed.

(** A property of the knotes that every turn keeps. *)
Definition turn_closed (fs : gmap Z file) (P : gmap key knote -> Prop) : Prop :=
  forall m k kn, m !! k = Some kn -> P m -> P (after fs m k kn).

Lemma scan_loop_spec (fs : gmap Z file) (size maxevents : Z) (cl : list kevent) (ev0 : list E)
    (P : gmap key knote -> Prop) (front : list key) :
  turn_closed fs P -> forall s evs,
  scan_inv fs size maxevents cl ev0 front s evs -> P (kq_knlist (y_kq (sc_sys s))) ->
  exists front' s',
    scan_loop store front s = Done (front', s')
    /\ (let new := take (Z.to_nat (sc_count s)) (found fs (kq_knlist (y_kq (sc_sys s))) front) in
       scan_inv fs size maxevents cl ev0 front' s' (evs ++ new)
       /\ (length (sc_back s') <= length (sc_back s) + length new)%nat
       /\ (sc_count s' = 0 \/ front' = [])
       /\ exists pre, front = pre ++ front' /\ new = found fs (kq_knlist (y_kq (sc_sys s))) pre)
    /\ P (kq_knlist (y_kq (sc_sys s'))).
Proof.
  intros HP. induction front as [|k rest IH]; intros s evs Hinv Hp.
  { cbn. destruct (Z.eqb_spec (sc_count s) 0) as [H0|]; exists [], s; rewrite take_nil, app_nil_r; cbn;
      (split; [done|]; split; [split_and!; [done|lia|auto|by exists []]|done]). }
  cbn [scan_loop]. destruct (Z.eqb_spec (sc_count s) 0) as [H0|Hn0].
  { exists (k :: rest), s. rewrite H0. cbn. rewrite app_nil_r.
    split; [done|]; split; [split_and!; [done|lia|auto|by exists []]|done]. }
  assert (exists kn, kq_knlist (y_kq (sc_sys s)) !! k = Some kn /\ kn_queued kn = true) as (kn & Hk & Hq).
  { apply (qs_mem _ _ _ (si_qs _ _ _ _ _ _ _ _ Hinv)). by left. }
  pose proof (scan_next_inv _ _ _ _ _ _ _ _ _ _ Hinv Hk Hq) as Hnext.
  rewrite (scan_one_eq _ _ _ Hk). pose proof (si_files _ _ _ _ _ _ _ _ Hinv) as Hfs. rewrite Hfs.
  rewrite (found_cons _ _ _ _ _ Hk).
  assert (Hkr : k ∉ rest).
  { destruct (si_qs _ _ _ _ _ _ _ _ Hinv) as [_ [Hnd _]%NoDup_cons _]. by intros ?; apply Hnd, elem_of_app; left. }
  assert (Hm1 : kq_knlist (y_kq (sc_sys (scan_next s k kn))) = after fs (kq_knlist (y_kq (sc_sys s))) k kn)
    by (unfold scan_next; rewrite Hfs; by destruct (stays fs kn)).
  assert (Hc1 : sc_count (scan_next s k kn) = sc_count s) by (unfold scan_next; by destruct (stays _ kn)).
  assert (Hb1 : (length (sc_back (scan_next s k kn)) <= length (sc_back s) + (if stays fs kn then 1 else 0))%nat).
  { unfold scan_next. rewrite Hfs. destruct (stays fs kn); cbn; [rewrite length_app; cbn|]; lia. }
  assert (Hp1 : P (kq_knlist (y_kq (sc_sys (scan_next s k kn))))) by (rewrite Hm1; by apply HP).
  assert (Hst : (scan_result fs kn).1 = None -> stays fs kn = false).
  { unfold stays. destruct (scan_result fs kn) as [[?|] ?]; done. }
  destruct ((scan_result fs kn).1) as [kev|] eqn:Ekev.
  - assert (Hpos : 0 < sc_count (scan_next s k kn)) by (destruct Hinv; lia).
    destruct (scan_emit_inv _ _ _ _ _ _ _ _ kev Hnext Hpos) as (s2 & -> & Hinv2 & Hy2 & Hb2 & Hc2). cbn.
    destruct (IH s2 (evs ++ [kev])) as (f' & s' & Hl & (Hi & Hb & Ho & pre & Hpre & Hnew) & Hp');
      [done|by rewrite Hy2|].
    exists f', s'. split; [done|]. split; [|done].
    assert (Hkp : k ∉ pre) by (intros ?; apply Hkr; rewrite Hpre; apply elem_of_app; by left).
    rewrite Hy2, Hm1, !found_after in Hnew by done.
    rewrite Hy2, Hm1, found_after in Hi, Hb by done.
    replace (Z.to_nat (sc_count s)) with (S (Z.to_nat (sc_count s2))) by lia. cbn.
    rewrite <- app_assoc in Hi. split; [done|]. cbn in *. rewrite Hb2 in Hb.
    split; [destruct (stays fs kn); lia|]. split; [done|]. exists (k :: pre). rewrite Hpre. split; [done|].
    by rewrite (found_cons _ _ _ _ _ Hk), Ekev, <- Hnew, <- Hpre.
  - cbn. destruct (IH _ _ Hnext Hp1) as (f' & s' & Hl & (Hi & Hb & Ho & pre & Hpre & Hnew) & Hp').
    exists f', s'. split; [done|]. split; [|done].
    assert (Hkp : k ∉ pre) by (intros ?; apply Hkr; rewrite Hpre; apply elem_of_app; by left).
    rewrite Hm1, !found_after, Hc1 in Hnew by done.
    rewrite Hm1, found_after, Hc1 in Hi, Hb by done. split; [done|].
    rewrite Hst in Hb1 by done. split; [lia|]. split; [done|]. exists (k :: pre). rewrite Hpre.
    split; [done|]. by rewrite (found_cons _ _ _ _ _ Hk), Ekev, <- Hnew, <- Hpre.
Qed.

(** A scan returns, and reports the first [maxevents] events found. *)
Lemma kqueue_scan_spec (fuel : nat) (P : gmap key knote -> Prop) y (maxevents : Z) (cl : list kevent) (ev0 : list E) :
  let fs := y_files y in
  turn_closed fs P -> P (kq_knlist (y_kq y)) ->
  kq_ok y -> 0 < maxevents <= Z.of_nat (length ev0) -> (2 <= fuel)%nat ->
  let evs := take (Z.to_nat maxevents) (found fs (kq_knlist (y_kq y)) (kq_head (y_kq y))) in
  exists y', kqueue_scan store fuel y maxevents (Uap cl ev0 0)
             = Done (Z.of_nat (length evs), y', Uap cl (fill ev0 evs) (length evs))
    /\ kq_ok y' /\ y_files y' = fs /\ P (kq_knlist (y_kq y'))
    /\ exists pre rest back, kq_head (y_kq y) = pre ++ rest /\ kq_head (y_kq y') = rest ++ back
         /\ evs = found fs (kq_knlist (y_kq y)) pre
         /\ (rest = [] \/ Z.of_nat (length evs) = maxevents).
Proof.
  intros fs HP Hp [Hs Hall] [Hmax Hroom] Hfuel.
  destruct fuel as [|[|fuel]]; [lia..|]. unfold kqueue_scan.
  destruct (Z.eqb_spec maxevents 0); [lia|]. remember (S fuel) as fuel1. cbn [scan_retry].
  destruct (Z.eqb_spec (kq_count (y_kq y)) 0) as [H0|Hn0].
  { destruct (kq_head (y_kq y)) eqn:Eh; [|rewrite (qs_count _ _ _ Hs) in H0; cbn in H0; lia].
    cbn. rewrite Z.sub_diag. exists y. rewrite take_nil. cbn.
    split; [done|]. split; [split; [by rewrite Eh|done]|]. split_and!; [done..|].
    exists [], [], []. split_and!; try done. by left. }
  assert (Hinv : scan_inv fs (kq_knlistsize (y_kq y)) maxevents cl ev0 (kq_head (y_kq y))
                          (Scan y (Uap cl ev0 0) [] maxevents []) []).
  { split; try done; cbn; [by rewrite app_nil_r|lia|lia|]. by exists []. }
  destruct (scan_loop_spec fs _ _ _ _ P _ HP _ _ Hinv Hp) as (f' & s' & -> & (Hi & Hb & Ho & pre & Hpre & Hnew) & Hp').
  cbn in Hi, Hb, Hnew |- *. set (evs := take _ _) in *.
  destruct Hi as [Hf Hz Hq Hok Hc Hcn _ (dn & Hd & Hu)].
  assert (Hok1 : kq_ok (set_head (sc_sys s') (f' ++ sc_back s'))).
  { split; cbn; [done|]. by rewrite Hf, Hz. }
  destruct (Z.eqb_spec (sc_count s') maxevents) as [Hcm|Hcm].
  - assert (Hev : evs = []) by (destruct evs; [done|cbn in *; lia]).
    assert (Hback : f' ++ sc_back s' = []).
    { rewrite Hev in Hb. cbn in Hb. destruct (sc_back s'); [|cbn in Hb; lia]. destruct Ho as [?| ->]; [lia|done]. }
    subst fuel1. cbn [scan_retry]. rewrite Hback in *. cbn in Hq.
    destruct (Z.eqb_spec (kq_count (y_kq (set_head (sc_sys s') []))) 0) as [H1|H1].
    2: { exfalso. apply H1. cbn. apply (qs_count _ _ _ Hq). }
    cbn. rewrite Hu, Z.sub_diag. destruct dn; [|rewrite Hev in Hd; done].
    rewrite Hev. eexists. split; [done|]. split_and!; [done..|].
    exists pre, [], []. apply app_eq_nil in Hback as [-> _]. split_and!; [done|done|by rewrite <- Hev|by left].
  - cbn. rewrite Hu, kevent_copyout_spec by (rewrite <- Hd; lia). cbn. rewrite <- Hd.
    eexists. split; [do 3 f_equal; lia|]. split_and!; [done..|].
    exists pre, f', (sc_back s'). split_and!; [done..|]. destruct Ho as [?| ->]; [right; lia|by left].
Qed.
End scan_spec.

Lemma turn_closed_True fs : turn_closed fs (fun _ => True).
Proof. by intros ???. Qed.

Lemma kmove_ok y y' : kq_ok y -> kmove y y' -> kq_ok y'.
Proof.
  intros Hok Hst. destruct Hst; [by eapply kqueue_register_ok; eauto| |by apply set_file_open_ok|by apply close_ok].
  eapply knote_events_ok, set_file_socket_ok; eauto.
Qed.

Lemma kstep_ok y y' : kq_ok y -> kstep y y' -> kq_ok y'.
Proof.
  intros Hok Hst. destruct Hst; [by eapply kmove_ok|].
  destruct (kqueue_scan_spec store 2 (fun _ => True) y maxevents cl ev0) as (y1 & Heq & Hok1 & _);
    [apply turn_closed_True|done..|lia|]. rewrite Heq in *. by simplify_eq.
Qed.

(** An empty kqueue. *)
Definition kq_init : kqueue := Kq [] 0 0 ∅.

Inductive reachable : sys -> Prop :=
  | reach_init fs : reachable (Sys fs kq_init)
  | reach_step y y' : reachable y -> kstep y y' -> reachable y'.

(** * The changes of a socket

    What the stack and the calls of the application do to a socket, with the
    wakeups that come with it: sorwakeup and sowwakeup end in KNOTE on the knotes
    of the receive and the send buffer (sowakeup of uipc_sockbuf.c). *)
Inductive so_event :=
  | SoRcv (b : sockbuf)            (* the receive buffer grows or is closed, sorwakeup *)
  | SoComp (comp : list Z) (qlen : Z)  (* connections are completed, sorwakeup of the listening socket *)
  | SoSnd (b : sockbuf)            (* the send buffer is drained or closed, sowwakeup *)
  | SoState (so : socket)          (* connected, disconnected or an error: both wakeups *)
  | SoReceive (n : Z)              (* soreceive takes n bytes *)
  | SoSend (n m : Z)               (* sosend puts n bytes in m bytes of mbufs *)
  | SoAccept                       (* accept takes a connection *)
  | SoRcvlowat (optval : Z)        (* setsockopt SO_RCVLOWAT *)
  | SoSndlowat (optval : Z).       (* setsockopt SO_SNDLOWAT *)

Definition with_rcv (so : socket) (b : sockbuf) : socket :=
  Socket b (so_snd so) (so_error so) (so_isconnected so) (so_connrequired so) (so_acceptconn so) (so_qlen so) (so_comp so).
Definition with_sndb (so : socket) (b : sockbuf) : socket :=
  Socket (so_rcv so) b (so_error so) (so_isconnected so) (so_connrequired so) (so_acceptconn so) (so_qlen so) (so_comp so).
Definition with_comp (so : socket) (comp : list Z) (qlen : Z) : socket :=
  Socket (so_rcv so) (so_snd so) (so_error so) (so_isconnected so) (so_connrequired so) (so_acceptconn so) qlen comp.
Definition with_lowat (b : sockbuf) (n : Z) : sockbuf :=
  Sockbuf (sb_acc b) (sb_ctl b) n (sb_ccc b) (sb_hiwat b) (sb_mbcnt b) (sb_mbmax b) (sb_stop b) (sb_cant b).

(** SO_RCVLOWAT and SO_SNDLOWAT of sosetopt; values below 1 are EINVAL. *)
Definition so_setlowat (b : sockbuf) (optval : Z) : sockbuf :=
  if optval <? 1 then b else with_lowat b (if optval >? sb_hiwat b then sb_hiwat b else optval).

Definition sb_taken (b : sockbuf) (n : Z) : sockbuf :=
  Sockbuf (sb_acc b - n) (sb_ctl b) (sb_lowat b) (sb_ccc b - n) (sb_hiwat b) (sb_mbcnt b) (sb_mbmax b) (sb_stop b) (sb_cant b).
Definition sb_added (b : sockbuf) (n m : Z) : sockbuf :=
  Sockbuf (sb_acc b + n) (sb_ctl b) (sb_lowat b) (sb_ccc b + n) (sb_hiwat b) (sb_mbcnt b + m) (sb_mbmax b) (sb_stop b) (sb_cant b).

(** The socket after the event, and the filters that are woken up. *)
Definition so_change (so : socket) (e : so_event) : socket * list Z :=
  match e with
  | SoRcv b => (with_rcv so b, [EVFILT_READ])
  | SoComp comp qlen => (with_comp so comp qlen, [EVFILT_READ])
  | SoSnd b => (with_sndb so b, [EVFILT_WRITE])
  | SoState so' => (so', [EVFILT_READ; EVFILT_WRITE])
  | SoReceive n => (with_rcv so (sb_taken (so_rcv so) n), [])
  | SoSend n m => (with_sndb so (sb_added (so_snd so) n m), [])
  | SoAccept => (with_comp so (tail (so_comp so)) (so_qlen so - 1), [])
  | SoRcvlowat v => (with_rcv so (so_setlowat (so_rcv so) v), [])
  | SoSndlowat v => (with_sndb so (so_setlowat (so_snd so) v), [])
  end.

(** The bytes taken are there, the bytes added keep the counters in range, and a
    low-water mark is not lowered. *)
Definition so_event_ok (so : socket) (e : so_event) : Prop :=
  match e with
  | SoReceive n => 0 <= n /\ 0 <= sb_ctl (so_rcv so) /\ n + sb_ctl (so_rcv so) <= sb_acc (so_rcv so) < 2 ^ 32
  | SoSend n m => let b := so_snd so in
      0 <= n /\ 0 <= m /\ 0 <= sb_ccc b /\ sb_ccc b + n < 2 ^ 31 /\ 0 <= sb_mbcnt b /\ sb_mbcnt b + m < 2 ^ 31 /\
      0 <= sb_hiwat b < 2 ^ 31 /\ 0 <= sb_mbmax b < 2 ^ 31
  | SoRcvlowat v => let b := so_rcv so in 0 <= sb_lowat b <= sb_lowat (so_setlowat b v) /\ sb_lowat (so_setlowat b v) < 2 ^ 32
  | SoSndlowat v => let b := so_snd so in sb_lowat b <= sb_lowat (so_setlowat b v)
  | _ => True
  end.

Definition so_step (y : sys) (fd : Z) (so : socket) (e : so_event) : sys :=
  let '(so', fs) := so_change so e in
  fold_left knote_event (pair fd <$> fs) (set_file y fd (DTYPE_SOCKET so')).

(** Readiness as a condition on the socket. *)
Lemma soread_ready so kn :
  (filt_soread so kn).1 =
  sb_cant (so_rcv so) || ctrue (so_error so) ||
  (if flag (kn_sfflags kn) NOTE_LOWAT then u32 (sb_acc (so_rcv so) - sb_ctl (so_rcv so)) >=? kn_sdata kn
   else sb_acc (so_rcv so) >=? u32 (sb_lowat (so_rcv so))).
Proof.
  unfold filt_soread, hhook_run_socket, sbavail. destruct (sb_cant _); [done|]. destruct (ctrue _); [done|].
  destruct (flag _ _); cbn; by destruct (_ >=? _).
Qed.

Lemma sowrite_ready so kn :
  (filt_sowrite so kn).1 =
  sb_cant (so_snd so) || ctrue (so_error so) ||
  (negb (negb (so_isconnected so) && so_connrequired so) &&
   (sbspace (so_snd so) >=? (if flag (kn_sfflags kn) NOTE_LOWAT then kn_sdata kn else sb_lowat (so_snd so)))).
Proof.
  unfold filt_sowrite. destruct (sb_cant _); [done|]. destruct (ctrue _); [done|].
  destruct (_ && _); [done|]. by destruct (flag _ _).
Qed.

Lemma sbspace_added b n m : so_event_ok (Socket b b 0 false false false 0 []) (SoSend n m) -> sbspace (sb_added b n m) <= sbspace b.
Proof.
  intros (H1 & H2 & H3 & H4 & H5 & H6 & H7 & H8). cbn in *. unfold sbspace. cbn. destruct (sb_stop b); [done|].
  rewrite !(wraps_small 32) by (change (2 ^ (32 - 1)) with (2 ^ 31); lia).
  destruct (Z.ltb_spec (sb_hiwat b - (sb_ccc b + n)) (sb_mbmax b - (sb_mbcnt b + m))),
    (Z.ltb_spec (sb_hiwat b - sb_ccc b) (sb_mbmax b - sb_mbcnt b)); lia.
Qed.

Lemma setlowat_same b v : sb_acc (so_setlowat b v) = sb_acc b /\ sb_ctl (so_setlowat b v) = sb_ctl b /\
  sb_cant (so_setlowat b v) = sb_cant b /\ sbspace (so_setlowat b v) = sbspace b.
Proof. unfold so_setlowat. by destruct (_ <? _). Qed.

(** A filter that is not woken up does not become ready. *)
Lemma soread_quiet so e kn :
  so_event_ok so e -> EVFILT_READ ∉ (so_change so e).2 -> (filt_soread (so_change so e).1 kn).1 = true -> (filt_soread so kn).1 = true.
Proof.
  intros Hok Hn. rewrite !soread_ready. destruct e; cbn in Hok, Hn |- *; try (exfalso; apply Hn; set_solver); try done.
  - rewrite !(wrapu_small 32 (_ - _)) by lia. rewrite !orb_true_iff. intros [?|H]; [by left|right].
    destruct (flag _ _); apply Z.geb_le in H; apply Z.geb_le; lia.
  - destruct (setlowat_same (so_rcv so) optval) as (-> & -> & -> & _). rewrite !orb_true_iff. intros [?|H]; [by left|right].
    destruct (flag _ _); [done|]. rewrite !(wrapu_small 32) in * by lia. apply Z.geb_le in H; apply Z.geb_le; lia.
Qed.

Lemma sowrite_quiet so e kn :
  so_event_ok so e -> EVFILT_WRITE ∉ (so_change so e).2 -> (filt_sowrite (so_change so e).1 kn).1 = true -> (filt_sowrite so kn).1 = true.
Proof.
  intros Hok Hn. rewrite !sowrite_ready. destruct e; cbn in Hok, Hn |- *; try (exfalso; apply Hn; set_solver); try done.
  - pose proof (sbspace_added (so_snd so) n m Hok). rewrite !orb_true_iff, !andb_true_iff. intros [?|[? H']]; [by left|right].
    split; [done|]. apply Z.geb_le in H'; apply Z.geb_le; lia.
  - destruct (setlowat_same (so_snd so) optval) as (_ & _ & -> & ->). rewrite !orb_true_iff, !andb_true_iff. intros [?|[? H']]; [by left|right].
    split; [done|]. apply Z.geb_le in H'; apply Z.geb_le. destruct (flag _ _); [done|]. lia.
Qed.

Lemma solisten_quiet so e kn :
  EVFILT_READ ∉ (so_change so e).2 -> (filt_solisten (so_change so e).1 kn).1 = true -> (filt_solisten so kn).1 = true.
Proof.
  intros Hn. destruct e; cbn in Hn |- *; try (exfalso; apply Hn; set_solver); try done.
  by destruct (so_comp so).
Qed.

Lemma so_change_wakes y fd so e :
  kq_ok y -> y_files y !! fd = Some (DTYPE_SOCKET so) -> so_event_ok so e ->
  wakes y fd (so_change so e).1 (pair fd <$> (so_change so e).2).
Proof.
  intros [_ Hall] Hf Hok [i filt] kn Hk Hn. destruct (Hall _ _ Hk) as [[E1 _ _ Hfop _] _ _]. cbn in Hfop.
  unfold ready, f_event. replace (ident (kn_kevent kn)) with i by (by injection E1).
  destruct (decide (i = fd)) as [->|]; [|by rewrite lookup_insert_ne]. rewrite lookup_insert_eq, Hf.
  assert (filt ∉ (so_change so e).2) as Hn' by (intros H; apply Hn; by apply (list_elem_of_fmap_2 (pair fd))).
  destruct (kn_fop kn); cbn in Hfop; subst; try done; [by apply soread_quiet|by apply sowrite_quiet|by apply solisten_quiet].
Qed.

(** The states of a kqueue: from an empty one, by registrations, scans, changes
    of the sockets, opens and closes. *)
Inductive traced : sys -> Prop :=
  | tr_init fs : traced (Sys fs kq_init)
  | tr_register y kev e kev' y' :
      traced y -> 0 <= ident kev -> kqueue_register y kev = Done (e, kev', y') -> traced y'
  | tr_scan y E (store : E -> kevent -> E) maxevents cl ev0 n y' uap' :
      traced y -> 0 < maxevents <= Z.of_nat (length ev0) ->
      kqueue_scan store 2 y maxevents (Uap cl ev0 0) = Done (n, y', uap') -> traced y'
  | tr_socket y fd so e :
      traced y -> y_files y !! fd = Some (DTYPE_SOCKET so) -> so_event_ok so e -> traced (so_step y fd so e)
  | tr_open y fd f : traced y -> 0 <= fd -> y_files y !! fd = None -> traced (set_file y fd f)
  | tr_close y fd : traced y -> 0 <= fd -> traced (close y fd).

Lemma init_kq_ok fs : kq_ok (Sys fs kq_init).
Proof.
  split; [split; [done|constructor|]|by apply map_Forall_empty].
  intros k. rewrite elem_of_nil. split; [done|]. intros (kn & Hk & _). cbn in Hk. by rewrite lookup_empty in Hk.
Qed.

Lemma traced_ok y : traced y -> kq_ok y.
Proof.
  induction 1 as [fs|y kev e kev' y' _ IH Hi E|y T store mx cl ev0 n y' u' _ IH Hm E|y fd so e _ IH Hf Ho|y fd f _ IH Hi Hf|y fd _ IH Hi].
  - apply init_kq_ok.
  - by eapply kqueue_register_ok.
  - eapply kstep_ok; [exact IH|]. by eapply (ks_scan _ T).
  - unfold so_step. pose proof (so_change_wakes y fd so e IH Hf Ho) as Hw. destruct (so_change so e) as [so' fs].
    eapply kmove_ok; [exact IH|]. by eapply ks_socket.
  - by apply set_file_open_ok.
  - by apply close_ok.
Qed.


(** A socket with 5 bytes to read, watched by its read knote. *)
Definition ex_so : socket :=
  Socket (Sockbuf 5 0 1 5 65536 256 524288 false false) (Sockbuf 0 0 2048 0 65536 0 524288 false false)
         0 true true false 0 [].
Definition ex_kev : kevent := Kevent 4 EVFILT_READ EV_ADD 0 0 0.
Definition ex_watch : sys :=
  match kqueue_register (Sys {[4 := DTYPE_SOCKET ex_so]} kq_init) ex_kev with
  | Done (_, _, y) => y | _ => Sys ∅ kq_init end.

(** Its state after the bytes are read and 3 more arrive. *)
Definition ex_again : sys :=
  let y1 := so_step ex_watch 4 ex_so (SoReceive 5) in
  let so1 := (so_change ex_so (SoReceive 5)).1 in
  so_step y1 4 so1 (SoRcv (Sockbuf 3 0 1 3 65536 256 524288 false false)).

Lemma ex_watch_traced : traced ex_watch.
Proof.
  eapply (tr_register _ ex_kev); [apply (tr_init {[4 := DTYPE_SOCKET ex_so]})|by compute|vm_compute; reflexivity].
Qed.

Lemma ex_again_traced : traced ex_again.
Proof.
  apply tr_socket; [|vm_compute; reflexivity|exact I]. apply tr_socket; [apply ex_watch_traced|vm_compute; reflexivity|].
  vm_compute. by repeat split.
Qed.


(** A read knote on a socket with 5 bytes and a low-water mark of 10 is not
    ready; SO_RCVLOWAT 1 makes it ready without a KNOTE, and it is not on the
    queue: a scan reports nothing. *)
Definition ex_lowat : socket := with_rcv ex_so (with_lowat (so_rcv ex_so) 10).
Definition ex_lost : sys :=
  match kqueue_register (Sys {[4 := DTYPE_SOCKET ex_lowat]} kq_init) ex_kev with
  | Done (_, _, y) => so_step y 4 ex_lowat (SoRcvlowat 1) | _ => Sys ∅ kq_init end.

Theorem kqueue_lowat_lost :
  (exists kn, kq_knlist (y_kq ex_lost) !! (4, EVFILT_READ) = Some kn /\ kn_disabled kn = false /\ level kn = true /\
     (f_event (y_files ex_lost) kn).1 = true) /\
  kq_head (y_kq ex_lost) = [] /\
  exists y' u', kqueue_scan (fun _ kev => kev) 2 ex_lost 1 (Uap [] [ex_kev] 0) = Done (0, y', u').
Proof.
  split; [eexists; split; [vm_compute; reflexivity|]; by repeat split|]. split; [reflexivity|].
  eexists _, _. vm_compute. reflexivity.
Qed.
