(* ===== verification/Epoll.v ===== *)
(** The epoll interface of src/lib/ff_epoll.c over the kqueue.

    An epoll registration of a descriptor is two knotes, one for EVFILT_READ
    and one for EVFILT_WRITE, of which EPOLLIN and EPOLLOUT enable the wanted
    ones.  [R] relates the knotes to the interest list of epoll. *)
From stdpp Require Import base list gmap.
From Stdlib Require Import ZArith Lia.
From S2P Require Import Prelude AbiTables Kqueue.

Local Open Scope Z_scope.

Definition EPOLLIN : Z := 0x1.
Definition EPOLLOUT : Z := 0x4.
Definition EPOLLERR : Z := 0x8.
Definition EPOLLHUP : Z := 0x10.
Definition EPOLLONESHOT : Z := 0x40000000.
Definition EPOLLET : Z := 0x80000000.

Definition EPOLL_CTL_ADD : Z := 1.
Definition EPOLL_CTL_DEL : Z := 2.
Definition EPOLL_CTL_MOD : Z := 3.

(** struct epoll_event: [ev_data] is the 64-bit union epoll_data. *)
Record epoll_event := EpollEvent { ev_events : Z; ev_data : Z }.

#[global] Instance epoll_event_eq_dec : EqDecision epoll_event.
Proof. solve_decision. Defined.

(** EV_SET into a struct kevent: [ident] is a uintptr_t, [flags] a u_short. *)
Definition EV_SET (fd filt fl udat : Z) : kevent := Kevent (u64 fd) filt (u16 fl) 0 0 udat.

(** The flags of both changes, from the event mask and the operation. *)
Definition ctl_flags (op events : Z) : Z :=
  let f0 := if flag events EPOLLET then EV_CLEAR else 0 in
  let f1 := if flag events EPOLLONESHOT then Z.lor f0 EV_ONESHOT else f0 in
  if op =? EPOLL_CTL_ADD then Z.lor f1 EV_ADD else f1.

(** One direction: disabled, unless it is wanted. *)
Definition dir_flags (fl : Z) (wanted : bool) : Z :=
  let f := Z.lor fl EV_DISABLE in
  if wanted then Z.lor (Z.ldiff f EV_DISABLE) EV_ENABLE else f.

Definition ctl_changes (op fd : Z) (event : epoll_event) : list kevent :=
  let fl := ctl_flags op (ev_events event) in
  [EV_SET fd EVFILT_READ (dir_flags fl (flag (ev_events event) EPOLLIN)) (ev_data event);
   EV_SET fd EVFILT_WRITE (dir_flags fl (flag (ev_events event) EPOLLOUT)) (ev_data event)].

Definition del_changes (fd : Z) : list kevent :=
  [EV_SET fd EVFILT_READ EV_DELETE 0; EV_SET fd EVFILT_WRITE EV_DELETE 0].

(** The value, errno and the state. *)
Definition ff_epoll_ctl (fuel : nat) (y : sys) (errno epfd op fd : Z) (event : option epoll_event)
  : outcome (Z * Z * sys) :=
  match event with
  | None =>
      if op =? EPOLL_CTL_DEL then (fun r => r.1) <$> ff_kevent fuel y errno epfd (del_changes fd) [] 0
      else Done (-1, EINVAL, y)
  | Some ev =>
      if negb (op =? EPOLL_CTL_ADD) && negb (op =? EPOLL_CTL_MOD) && negb (op =? EPOLL_CTL_DEL)
      then Done (-1, EINVAL, y)
      else if op =? EPOLL_CTL_DEL then (fun r => r.1) <$> ff_kevent fuel y errno epfd (del_changes fd) [] 0
      else (fun r => r.1) <$> ff_kevent fuel y errno epfd (ctl_changes op fd ev) [] 0
  end.

(** The event mask for a kevent. *)
Definition epoll_mask (kev : kevent) : Z :=
  let e0 := if filter kev =? EVFILT_READ then
              (if ctrue (data kev) || negb (flag (flags kev) EV_EOF) then EPOLLIN else 0)
            else if filter kev =? EVFILT_WRITE then EPOLLOUT else 0 in
  let e1 := if flag (flags kev) EV_ERROR then Z.lor e0 EPOLLERR else e0 in
  if flag (flags kev) EV_EOF then
    let e2 := Z.lor e1 EPOLLHUP in
    let e3 := if ctrue (fflags kev) then Z.lor e2 EPOLLERR else e2 in
    if filter kev =? EVFILT_READ then Z.lor e3 EPOLLIN
    else if filter kev =? EVFILT_WRITE then Z.lor e3 EPOLLERR else e3
  else e1.

(** [data.fd] is the low half of the union; the high half keeps what the
    caller's array had. *)
Definition set_data_fd (old fd : Z) : Z := Z.lor (Z.shiftl (Z.shiftr old 32) 32) (u32 fd).

Definition ff_event_to_epoll (old : epoll_event) (kev : kevent) : epoll_event :=
  EpollEvent (epoll_mask kev)
    (if ctrue (udata kev) then udata kev else set_data_fd (ev_data old) (ident kev)).

(** The value, errno, the state and the array; [timeout] is not used. *)
Definition ff_epoll_wait (fuel : nat) (y : sys) (errno epfd : Z) (events : option (list epoll_event))
    (maxevents timeout : Z) : outcome (Z * Z * sys * list epoll_event) :=
  match events with
  | None => Done (-1, EINVAL, y, [])
  | Some evs =>
      if maxevents <? 1 then Done (-1, EINVAL, y, evs)
      else ff_kevent_do_each ff_event_to_epoll fuel y errno epfd [] evs maxevents
  end.

(** * One registration *)

(** A knote that a scan neither drops nor disables. *)
Definition plain (kn : knote) : Prop :=
  flag (kn_flags kn) EV_ONESHOT = false /\ flag (kn_flags kn) EV_DROP = false
  /\ flag (kn_flags kn) EV_DISPATCH = false.

(** The knote of a direction: enabled or not, the caller's data. *)
Definition watched (m : gmap key knote) (k : key) (en : bool) (ud : Z) : Prop :=
  exists kn, m !! k = Some kn /\ kn_disabled kn = negb en /\ udata (kn_kevent kn) = ud /\ plain kn.

Lemma done_ev_add_knlist fs q kev k kn en :
  (flag (flags kev) EV_ENABLE = en /\ flag (flags kev) EV_DISABLE = negb en) ->
  exists kn', kq_knlist (done_ev_add fs q kev k kn) = <[k := kn']> (kq_knlist q)
    /\ kn_disabled kn' = negb en /\ udata (kn_kevent kn') = udata (kn_kevent kn)
    /\ (plain kn -> plain kn').
Proof.
  intros [He Hd]. unfold done_ev_add. rewrite He, Hd, f_event_split.
  set (kn1 := with_status kn _ _ _). destruct (refresh_status fs kn1) as (Ra & Rq & Rd & Ru).
  assert (Hp : plain kn -> plain (refresh fs kn1)).
  { intros (?&?&?). unfold plain. by rewrite !refresh_flag. }
  destruct en; cbn.
  - destruct (_ && _ && _); eexists; (split; [done|]); cbn; rewrite ?Rd, ?Ru; done.
  - rewrite andb_false_r. eexists. split; [done|]. done.
Qed.

Lemma find_knote_lookup y kev :
  kq_ok y -> find_knote (y_kq y) kev = kq_knlist (y_kq y) !! (ident kev, filter kev).
Proof.
  intros [_ Hall]. unfold find_knote. destruct (Z.ltb_spec (ident kev) (kq_knlistsize (y_kq y))); [done|].
  destruct (kq_knlist (y_kq y) !! (ident kev, filter kev)) as [kn|] eqn:E; [|done].
  destruct (ko_size _ _ _ _ (ko_static _ _ _ _ (Hall _ _ E))). cbn in *. lia.
Qed.

Definition add_mask : Z :=
  Z.lor EV_ADD (Z.lor EV_DELETE (Z.lor EV_ENABLE (Z.lor EV_DISABLE EV_FORCEONESHOT))).

(** A change that enables ([en]) or disables the knote [k], and makes it if
    [add], as a one-shot knote if [os]. *)
Record change_of (kev : kevent) (k : key) (en add os : bool) : Prop := {
  co_key : (ident kev, filter kev) = k;
  co_enable : flag (flags kev) EV_ENABLE = en;
  co_disable : flag (flags kev) EV_DISABLE = negb en;
  co_add : flag (flags kev) EV_ADD = add;
  co_delete : flag (flags kev) EV_DELETE = false;
  co_force : flag (flags kev) EV_FORCEONESHOT = false;
  co_receipt : flag (flags kev) EV_RECEIPT = false;
  co_sys : Z.ldiff (flags kev) EV_SYSFLAGS = flags kev;
  co_oneshot : flag (Z.ldiff (flags kev) add_mask) EV_ONESHOT = os;
  co_drop : flag (Z.ldiff (flags kev) add_mask) EV_DROP = false;
  co_dispatch : flag (Z.ldiff (flags kev) add_mask) EV_DISPATCH = false
}.

Definition io_filter (filt : Z) : Prop := filt = EVFILT_READ \/ filt = EVFILT_WRITE.

Lemma io_filter_find filt : io_filter filt -> kqueue_fo_find filt = Some (Some file_filtops).
Proof. by intros [-> | ->]. Qed.

Section register.
Context (y : sys) (fd filt : Z) (so : socket).
Context (Hok : kq_ok y) (Hfd : 0 <= fd <= INT_MAX) (Hfilt : io_filter filt)
        (Hso : y_files y !! fd = Some (DTYPE_SOCKET so)).

(** [kqueue_register] up to the search for the knote. *)
Lemma kqueue_register_found kev :
  (ident kev, filter kev) = (fd, filt) ->
  flag (flags kev) EV_ENABLE && flag (flags kev) EV_DISABLE = false ->
  exists y1, kq_ok y1 /\ y_files y1 = y_files y /\ kq_knlist (y_kq y1) = kq_knlist (y_kq y)
    /\ (flag (flags kev) EV_ADD = true -> fd < kq_knlistsize (y_kq y1))
    /\ (flag (flags kev) EV_ADD = false -> y1 = y)
    /\ kqueue_register y kev
       = Done (match kq_knlist (y_kq y1) !! (fd, filt) with
               | None => register_new y1 so kev
               | Some kn => register_old y1 kev (fd, filt) kn
               end).
Proof.
  intros [= Hi Hf] Hed. unfold kqueue_register. rewrite Hed, Hf, (io_filter_find _ Hfilt), Hi, Hso.
  destruct (Z.gtb_spec fd INT_MAX); [lia|].
  set (y1 := if flag (flags kev) EV_ADD then _ else y).
  destruct (kqueue_expand_spec (y_kq y) fd) as (_ & _ & He & _ & Hlt).
  assert (Hok1 : kq_ok y1).
  { unfold y1. destruct (flag _ EV_ADD); [|done]. apply kqueue_expand_ok. exact Hok. }
  exists y1. rewrite (find_knote_lookup y1 kev Hok1), Hi, Hf.
  split; [done|]. unfold y1. destruct (flag (flags kev) EV_ADD); split_and!; try done.
Qed.

Lemma register_change kev en add os :
  change_of kev (fd, filt) en add os ->
  (kq_knlist (y_kq y) !! (fd, filt) = None /\ add = false
   /\ kqueue_register y kev = Done (ff_ENOENT, kev, y))
  \/ (exists kev' y' kn', kqueue_register y kev = Done (0, kev', y') /\ flags kev' = flags kev
      /\ kq_ok y' /\ y_files y' = y_files y
      /\ kq_knlist (y_kq y') = <[(fd, filt) := kn']> (kq_knlist (y_kq y))
      /\ kn_disabled kn' = negb en /\ udata (kn_kevent kn') = udata kev
      /\ (os = false -> (forall old, kq_knlist (y_kq y) !! (fd, filt) = Some old -> plain old) -> plain kn')
      /\ (kq_knlist (y_kq y) !! (fd, filt) = None -> add = true)).
Proof.
  intros [Hk He Hd Ha Hdel Hfo Hre _ Ho Hdr Hdi].
  destruct (kqueue_register_found kev Hk) as (y1 & Hok1 & Hf1 & Hm1 & Hsz & Hsame & Hreg);
    [rewrite He, Hd; by destruct en|].
  assert (Hid : 0 <= ident kev) by (injection Hk; lia).
  assert (Hk1 : ident kev = fd) by (by injection Hk). assert (Hk2 : filter kev = filt) by (by injection Hk).
  rewrite Hm1 in Hreg.
  destruct (kq_knlist (y_kq y) !! (fd, filt)) as [old|] eqn:Eold.
  - right. unfold register_old in Hreg. rewrite Hdel, Hfo in Hreg.
    set (kn2 := with_saved _ _ _) in Hreg.
    destruct (done_ev_add_knlist (y_files y1) (y_kq y1) kev (fd, filt) kn2 en) as (kn' & Hm & H1 & H2 & H3);
      [done|].
    eexists kev, _, kn'. split; [exact Hreg|]. rewrite <- Hm1, <- Hf1. split_and!; try done.
    + exact (kqueue_register_ok _ _ _ _ _ Hok Hid Hreg).
    + intros _ Hp. apply H3. apply (Hp old eq_refl).
  - unfold register_new in Hreg. rewrite Ha in Hreg. destruct add; [|left; by rewrite Hsame in Hreg].
    right. unfold knote_attach in Hreg. fold add_mask in Hreg. set (kn := Knote _ _ _ _ _ _ _) in Hreg.
    change (ident (kn_kevent kn)) with (ident kev) in Hreg. rewrite Hk1 in Hreg.
    destruct (Z.geb_spec fd (kq_knlistsize (y_kq y1))); [specialize (Hsz Ha); lia|].
    change (kn_key kn) with (ident kev, filter kev) in Hreg. rewrite Hk in Hreg.
    assert (exists f, soo_kqfilter so kn = inr (with_fop kn f)) as [f Hff].
    { unfold soo_kqfilter. change (filter (kn_kevent kn)) with (filter kev). rewrite Hk2.
      destruct Hfilt as [-> | ->]; cbn; eauto. }
    rewrite Hff in Hreg.
    match type of Hreg with _ = Done (_, ?kv, Sys _ (done_ev_add ?fs ?q _ _ ?kx)) =>
      destruct (done_ev_add_knlist fs q kv (fd, filt) kx en) as (kn' & Hm & H1 & H2 & H3); [done|] end.
    eexists _, _, kn'. split; [exact Hreg|]. cbn [y_kq y_files].
    split_and!; try done.
    + exact (kqueue_register_ok _ _ _ _ _ Hok Hid Hreg).
    + rewrite Hm. cbn. by rewrite insert_insert_eq, Hm1.
    + intros -> _. by apply H3.
Qed.

Lemma register_delete kev :
  (ident kev, filter kev) = (fd, filt) -> flags kev = EV_DELETE ->
  kqueue_register y kev
  = Done (match kq_knlist (y_kq y) !! (fd, filt) with
          | None => (ff_ENOENT, kev, y)
          | Some kn => (0, kev, Sys (y_files y) (knote_drop (y_kq y) (fd, filt) kn))
          end).
Proof.
  intros Hk Hfl. destruct (kqueue_register_found kev Hk) as (y1 & _ & _ & _ & _ & Hsame & ->); [by rewrite Hfl|].
  rewrite Hsame by by rewrite Hfl.
  unfold register_old, register_new. rewrite Hfl. by destruct (kq_knlist (y_kq y) !! (fd, filt)).
Qed.
End register.

(** * Two changes *)

Lemma ctl_change_of op events fd filt wanted ud :
  0 <= fd <= INT_MAX ->
  change_of (EV_SET fd filt (dir_flags (ctl_flags op events) wanted) ud) (fd, filt) wanted (op =? EPOLL_CTL_ADD)
            (flag events EPOLLONESHOT).
Proof.
  intros Hfd. unfold ctl_flags.
  assert (Hu : u64 fd = fd) by (apply wrapu_small; unfold INT_MAX in *; lia).
  destruct (flag events EPOLLET), (flag events EPOLLONESHOT), (op =? EPOLL_CTL_ADD), wanted; split; unfold EV_SET; cbn [ident filter flags];
    rewrite ?Hu; reflexivity.
Qed.

#[local] Arguments change_one : simpl never.

Section two.
Context (fuel : nat) (y : sys) (errno epfd : Z) (a b : kevent).
Context (Hfuel : (1 <= fuel)%nat) (Hkq : y_files y !! epfd = Some DTYPE_KQUEUE).
Context (Ha : filter a <> 0) (Hsa : Z.ldiff (flags a) EV_SYSFLAGS = flags a).
Context (Hb : filter b <> 0) (Hsb : Z.ldiff (flags b) EV_SYSFLAGS = flags b).

Lemma with_flags_id kev fl : fl = flags kev -> with_flags kev fl = kev.
Proof. intros ->. by destruct kev. Qed.

Lemma change_one_quiet (v : @kv kevent) kev e kev' y' :
  filter kev <> 0 -> Z.ldiff (flags kev) EV_SYSFLAGS = flags kev ->
  kqueue_register (kv_sys v) kev = Done (e, kev', y') -> flag (flags kev') EV_RECEIPT = false ->
  kv_nevents v = 0 ->
  change_one (fun _ kev => kev) v kev
  = Done (Kv y' (kv_uap v) 0 (kv_nerrors v) (if ctrue e then Some e else None)).
Proof.
  intros Hf Hs Hr Hrc Hn. unfold change_one.
  destruct (Z.eqb_spec (filter kev) 0); [done|].
  rewrite with_flags_id, Hr by done. cbn. rewrite Hrc, orb_false_r, Hn. by destruct (ctrue e).
Qed.

Lemma ff_kevent_first_fails e a' y1 :
  kqueue_register y a = Done (e, a', y1) -> flag (flags a') EV_RECEIPT = false -> ctrue e = true ->
  ff_kevent fuel y errno epfd [a; b] [] 0 = Done (-1, ff_os_errno e, y1, []).
Proof.
  intros Hr Hrc He. destruct fuel as [|n]; [lia|].
  unfold ff_kevent, ff_kevent_do_each, kern_kevent, kqueue_kevent. rewrite Hkq. cbn.
  change (Z.to_nat (if Z.of_nat 2 >? KQ_NEVENTS then _ else _)) with 2%nat.
  change (Z.of_nat 2 >? 0) with true. cbn [take drop change_batch kv_ret].
  rewrite (change_one_quiet _ a e a' y1), He by done. destruct n; cbn; by rewrite He.
Qed.

Lemma ff_kevent_two e1 a' y1 e2 b' y2 :
  kqueue_register y a = Done (e1, a', y1) -> flag (flags a') EV_RECEIPT = false -> e1 = 0 ->
  kqueue_register y1 b = Done (e2, b', y2) -> flag (flags b') EV_RECEIPT = false ->
  ff_kevent fuel y errno epfd [a; b] [] 0
  = Done (if ctrue e2 then (-1, ff_os_errno e2, y2, []) else (0, errno, y2, [])).
Proof.
  intros Hr Hrc -> Hr2 Hrc2. destruct fuel as [|n]; [lia|].
  unfold ff_kevent, ff_kevent_do_each, kern_kevent, kqueue_kevent. rewrite Hkq. cbn.
  change (Z.to_nat (if Z.of_nat 2 >? KQ_NEVENTS then _ else _)) with 2%nat.
  change (Z.of_nat 2 >? 0) with true. cbn [take drop change_batch kv_ret].
  rewrite (change_one_quiet _ a 0 a' y1) by done. cbn.
  rewrite (change_one_quiet _ b e2 b' y2) by done. cbn.
  destruct (ctrue e2) eqn:E2; cbn; destruct n; cbn; rewrite ?E2; reflexivity.
Qed.
End two.

(** * Refinement to an interest list *)

(** The interest list: an event per registered descriptor.  Both directions of
    a registered descriptor have a knote, enabled as the mask says; no other
    descriptor has one. *)
Definition Rm (m : gmap key knote) (I : gmap Z epoll_event) : Prop :=
  forall fd, match I !! fd with
  | Some ev => watched m (fd, EVFILT_READ) (flag (ev_events ev) EPOLLIN) (ev_data ev)
               /\ watched m (fd, EVFILT_WRITE) (flag (ev_events ev) EPOLLOUT) (ev_data ev)
  | None => m !! (fd, EVFILT_READ) = None /\ m !! (fd, EVFILT_WRITE) = None
  end.

Definition R (y : sys) (I : gmap Z epoll_event) : Prop := kq_ok y /\ Rm (kq_knlist (y_kq y)) I.

(** What the operations do to the interest list: an error and the new list. *)
Definition epoll_spec (op fd : Z) (ev : epoll_event) (I : gmap Z epoll_event) : Z * gmap Z epoll_event :=
  if op =? EPOLL_CTL_ADD then (0, <[fd := ev]> I)
  else match I !! fd with
       | None => (ENOENT, I)
       | Some _ => (0, if op =? EPOLL_CTL_DEL then delete fd I else <[fd := ev]> I)
       end.

Lemma watched_insert_ne (m : gmap key knote) k k' (kn : knote) en ud : k <> k' -> watched m k en ud -> watched (<[k' := kn]> m) k en ud.
Proof. intros ? (x & ? & ?). exists x. by rewrite lookup_insert_ne. Qed.

Lemma watched_insert (m : gmap key knote) k (kn : knote) en ud :
  kn_disabled kn = negb en -> udata (kn_kevent kn) = ud -> plain kn -> watched (<[k := kn]> m) k en ud.
Proof. intros ???. exists kn. by rewrite lookup_insert_eq. Qed.

(** New contents for both knotes of [fd]. *)
Lemma Rm_set m I fd ev kn1 kn2 :
  Rm m I ->
  kn_disabled kn1 = negb (flag (ev_events ev) EPOLLIN) -> udata (kn_kevent kn1) = ev_data ev -> plain kn1 ->
  kn_disabled kn2 = negb (flag (ev_events ev) EPOLLOUT) -> udata (kn_kevent kn2) = ev_data ev -> plain kn2 ->
  Rm (<[(fd, EVFILT_WRITE) := kn2]> (<[(fd, EVFILT_READ) := kn1]> m)) (<[fd := ev]> I).
Proof.
  intros HR. intros. intros fd'. specialize (HR fd'). destruct (decide (fd' = fd)) as [->|Hne].
  - rewrite lookup_insert_eq. split; [|by apply watched_insert].
    apply watched_insert_ne; [done|]. by apply watched_insert.
  - rewrite lookup_insert_ne by done. destruct (I !! fd').
    + split; (apply watched_insert_ne; [congruence|]; apply watched_insert_ne; [congruence|]; apply HR).
    + rewrite !lookup_insert_ne by congruence. done.
Qed.

Lemma Rm_del m I fd :
  Rm m I -> Rm (delete (fd, EVFILT_WRITE) (delete (fd, EVFILT_READ) m)) (delete fd I).
Proof.
  intros HR fd'. specialize (HR fd'). destruct (decide (fd' = fd)) as [->|Hne].
  - rewrite lookup_delete_eq. split; [|apply lookup_delete_eq].
    rewrite lookup_delete_ne by done. apply lookup_delete_eq.
  - rewrite lookup_delete_ne by done. unfold watched in *. rewrite !lookup_delete_ne by congruence. done.
Qed.

Lemma Rm_plain m I fd filt old : Rm m I -> io_filter filt -> m !! (fd, filt) = Some old -> plain old.
Proof.
  intros HR Hf Ho. specialize (HR fd). destruct (I !! fd).
  - destruct HR as [(x & Hx & _ & _ & ?) (z & Hz & _ & _ & ?)]. destruct Hf as [-> | ->]; congruence.
  - destruct HR as [? ?]. destruct Hf as [-> | ->]; congruence.
Qed.

Section ctl.
Context (y : sys) (I : gmap Z epoll_event) (errno epfd fd : Z) (so : socket) (ev : epoll_event).
Context (HR : R y I) (Hkq : y_files y !! epfd = Some DTYPE_KQUEUE)
        (Hso : y_files y !! fd = Some (DTYPE_SOCKET so)) (Hfd : 0 <= fd <= INT_MAX).

Lemma ctl_set op fuel :
  (1 <= fuel)%nat -> flag (ev_events ev) EPOLLONESHOT = false ->
  (op = EPOLL_CTL_ADD \/ op = EPOLL_CTL_MOD) ->
  let '(e, I') := epoll_spec op fd ev I in
  exists y', ff_kevent fuel y errno epfd (ctl_changes op fd ev) [] 0
             = Done (if e =? 0 then 0 else -1, if e =? 0 then errno else e, y', [])
    /\ R y' I' /\ y_files y' = y_files y.
Proof.
  intros Hfu Hone Hop. destruct HR as [Hok HRm]. pose proof (HRm fd) as Hrow.
  set (f1 := flag (ev_events ev) EPOLLIN). set (f2 := flag (ev_events ev) EPOLLOUT).
  pose proof (ctl_change_of op (ev_events ev) fd EVFILT_READ f1 (ev_data ev) Hfd) as Ha.
  pose proof (ctl_change_of op (ev_events ev) fd EVFILT_WRITE f2 (ev_data ev) Hfd) as Hb.
  unfold ctl_changes. fold f1 f2. set (a := EV_SET fd EVFILT_READ _ _) in *. set (b := EV_SET fd EVFILT_WRITE _ _) in *.
  assert (Hadd : I !! fd = None -> (op =? EPOLL_CTL_ADD) = true \/ epoll_spec op fd ev I = (ENOENT, I)).
  { intros Hn. unfold epoll_spec. rewrite Hn. destruct (op =? EPOLL_CTL_ADD); auto. }
  destruct (register_change y fd EVFILT_READ so Hok Hfd (or_introl eq_refl) Hso a _ _ _ Ha)
    as [(Hn & Hadd' & Hr)|(a' & y1 & kn1 & Hr & Hfa & Hok1 & Hf1 & Hm1 & Hd1 & Hu1 & Hp1 & Hn1)].
  - assert (HIn : I !! fd = None).
    { destruct (I !! fd); [|done]. destruct Hrow as [(x & Hx & _) _]. congruence. }
    destruct (Hadd HIn) as [?|Hspec]; [congruence|]. rewrite Hspec. exists y. split; [|done].
    rewrite ff_kevent_first_fails with (e := ff_ENOENT) (a' := a) (y1 := y); [reflexivity|try done..];
      apply Ha || apply Hb.
  - assert (Hspec : epoll_spec op fd ev I = (0, <[fd := ev]> I)).
    { unfold epoll_spec. destruct (op =? EPOLL_CTL_ADD) eqn:Eop; [done|].
      destruct (I !! fd) eqn:EI; [destruct Hop as [-> | ->]; done|].
      destruct Hrow as [Hrow _]. specialize (Hn1 Hrow). congruence. }
    rewrite Hspec.
    destruct (register_change y1 fd EVFILT_WRITE so Hok1 Hfd (or_intror eq_refl) ltac:(by rewrite Hf1) b _ _ _ Hb)
      as [(Hn & Hadd' & _)|(b' & y2 & kn2 & Hr2 & Hfb & Hok2 & Hf2 & Hm2 & Hd2 & Hu2 & Hp2 & _)].
    { exfalso. rewrite Hm1, lookup_insert_ne in Hn by done. destruct (I !! fd) as [ev'|] eqn:EI.
      - destruct Hrow as [_ (x & Hx & _)]. congruence.
      - pose proof (Hn1 (proj1 Hrow)). congruence. }
    exists y2. split; [|split; [split; [done|]|congruence]].
    + rewrite ff_kevent_two with (e1 := 0) (a' := a') (y1 := y1) (e2 := 0) (b' := b') (y2 := y2);
        rewrite ?Hfa, ?Hfb; try done; apply Ha || apply Hb.
    + rewrite Hm2, Hm1. apply Rm_set; try done.
      * apply (Hp1 Hone). intros old. by apply (Rm_plain _ _ _ _ _ HRm (or_introl eq_refl)).
      * apply (Hp2 Hone). intros old. rewrite Hm1, lookup_insert_ne by done.
        by apply (Rm_plain _ _ _ _ _ HRm (or_intror eq_refl)).
Qed.

Lemma ctl_del fuel :
  (1 <= fuel)%nat ->
  let '(e, I') := epoll_spec EPOLL_CTL_DEL fd ev I in
  exists y', ff_kevent fuel y errno epfd (del_changes fd) [] 0
             = Done (if e =? 0 then 0 else -1, if e =? 0 then errno else e, y', [])
    /\ R y' I' /\ y_files y' = y_files y.
Proof.
  intros Hfu. destruct HR as [Hok HRm]. pose proof (HRm fd) as Hrow.
  assert (Hu : u64 fd = fd) by (apply wrapu_small; unfold INT_MAX in *; lia).
  unfold del_changes, EV_SET. rewrite Hu.
  set (a := Kevent fd EVFILT_READ _ _ _ _). set (b := Kevent fd EVFILT_WRITE _ _ _ _).
  pose proof (register_delete y fd EVFILT_READ so Hok Hfd (or_introl eq_refl) Hso a eq_refl eq_refl) as Hr.
  unfold epoll_spec. change (EPOLL_CTL_DEL =? EPOLL_CTL_ADD) with false.
  change (EPOLL_CTL_DEL =? EPOLL_CTL_DEL) with true. cbv match.
  destruct (I !! fd) as [ev'|] eqn:EI.
  - destruct Hrow as [(kn1 & Hk1 & _) (kn2 & Hk2 & _)]. rewrite Hk1 in Hr.
    set (y1 := Sys (y_files y) (knote_drop (y_kq y) (fd, EVFILT_READ) kn1)) in *.
    assert (Hok1 : kq_ok y1) by exact (kqueue_register_ok _ a _ _ _ Hok (proj1 Hfd) Hr).
    pose proof (register_delete y1 fd EVFILT_WRITE so Hok1 Hfd (or_intror eq_refl) Hso b eq_refl eq_refl) as Hr2.
    assert (Hm1 : kq_knlist (y_kq y1) = delete (fd, EVFILT_READ) (kq_knlist (y_kq y)))
      by (unfold y1; cbn [y_kq]; by rewrite knote_drop_eq).
    rewrite Hm1, lookup_delete_ne, Hk2 in Hr2 by done.
    set (y2 := Sys (y_files y1) _) in Hr2.
    exists y2. split; [|split; [split|done]].
    + rewrite ff_kevent_two with (e1 := 0) (a' := a) (y1 := y1) (e2 := 0) (b' := b) (y2 := y2); done.
    + exact (kqueue_register_ok _ b _ _ _ Hok1 (proj1 Hfd) Hr2).
    + unfold y2. cbn [y_kq]. rewrite knote_drop_eq. cbn [kq_knlist]. rewrite Hm1. by apply Rm_del.
  - destruct Hrow as [Hn _]. rewrite Hn in Hr. exists y. split; [|done].
    rewrite ff_kevent_first_fails with (e := ff_ENOENT) (a' := a) (y1 := y); [reflexivity|done..].
Qed.
End ctl.

(** * Waiting *)

(** A plain knote: the scan reports it when it is enabled and ready, and keeps
    its direction and data. *)
Lemma scan_result_plain fs kn :
  plain kn ->
  (scan_result fs kn).1 = (if negb (kn_disabled kn) && ready fs kn then Some (kn_kevent (refresh fs kn)) else None)
  /\ exists x, (scan_result fs kn).2 = Some x /\ kn_disabled x = kn_disabled kn
       /\ udata (kn_kevent x) = udata (kn_kevent kn) /\ plain x.
Proof.
  intros (H1 & H2 & H3). unfold scan_result. rewrite H1, H2, H3.
  destruct (refresh_status fs kn) as (Ra & Rq & Rd & Ru).
  assert (Hp : plain (refresh fs kn)) by (unfold plain; rewrite !refresh_flag by done; done).
  destruct (kn_disabled kn) eqn:Ed; cbn; [split; [done|]; eexists; split; [done|]; done|].
  destruct (ready fs kn); cbn; (split; [done|]; eexists; split; [done|]).
  - destruct (level kn), (flag (kn_flags kn) EV_CLEAR); cbn; rewrite ?Rd, ?Ru; done.
  - cbn. rewrite Ru. done.
Qed.

Lemma watched_after fs m k kn k0 en ud :
  m !! k = Some kn -> watched m k0 en ud -> watched (after fs m k kn) k0 en ud.
Proof.
  intros Hk (x & Hx & Hd & Hu & Hp). unfold after. destruct (decide (k0 = k)) as [->|Hne].
  - assert (kn = x) as -> by congruence. destruct (scan_result_plain fs x Hp) as [_ (z & -> & Hzd & Hzu & Hzp)].
    apply watched_insert; congruence.
  - exists x. destruct (_.2); rewrite ?lookup_insert_ne, ?lookup_delete_ne by done; done.
Qed.

Lemma Rm_turn_closed fs I : turn_closed fs (fun m => Rm m I).
Proof.
  intros m k kn Hk HR fd. specialize (HR fd). destruct (I !! fd).
  - destruct HR. split; by apply watched_after.
  - destruct HR as [H1 H2].
    assert (forall k0, m !! k0 = None -> after fs m k kn !! k0 = None) as Hn.
    { intros k0 Hn. assert (k0 <> k) by congruence. unfold after.
      destruct (_.2); rewrite ?lookup_insert_ne, ?lookup_delete_ne by done; done. }
    split; by apply Hn.
Qed.

Definition kev_key (kev : kevent) : key := (ident kev, filter kev).

Lemma scan_result_key fs kn kev : (scan_result fs kn).1 = Some kev -> kev_key kev = kn_key kn.
Proof.
  unfold scan_result. destruct (refresh_watch fs kn) as [Hk _].
  destruct (kn_disabled kn), (flag (kn_flags kn) EV_DROP), (flag (kn_flags kn) EV_ONESHOT), (ready fs kn); cbn; intros [= <-]; done.
Qed.

Lemma found_keys (fs : gmap Z file) (m : gmap key knote) (l : list key) :
  map_Forall (fun k kn => kn_key kn = k) m -> kev_key <$> found fs m l `sublist_of` l.
Proof.
  intros Hm. induction l as [|k l IH]; [done|]. unfold found in *. cbn.
  destruct (m !! k) as [kn|] eqn:Hk; cbn; [|by constructor].
  destruct ((scan_result fs kn).1) as [kev|] eqn:He; cbn; [|by constructor].
  rewrite (scan_result_key _ _ _ He), (Hm k kn Hk). by constructor.
Qed.

Lemma found_elem (fs : gmap Z file) (m : gmap key knote) (l : list key) kev :
  kev ∈ found fs m l <-> exists k kn, k ∈ l /\ m !! k = Some kn /\ (scan_result fs kn).1 = Some kev.
Proof.
  unfold found. rewrite list_elem_of_omap. split.
  - intros (k & Hk & (kn & Hkn & ?)%bind_Some). by exists k, kn.
  - intros (k & kn & ? & Hk & ?). exists k. by rewrite Hk.
Qed.

(** The direction of a filter that the mask asks for. *)
Definition wants (ev : epoll_event) (filt : Z) : Prop :=
  (filt = EVFILT_READ /\ flag (ev_events ev) EPOLLIN = true)
  \/ (filt = EVFILT_WRITE /\ flag (ev_events ev) EPOLLOUT = true).

Lemma Rm_lookup m I k kn :
  Rm m I -> io_filter k.2 -> m !! k = Some kn ->
  exists ev, I !! k.1 = Some ev /\ udata (kn_kevent kn) = ev_data ev /\ plain kn
    /\ (kn_disabled kn = false <-> wants ev k.2).
Proof.
  destruct k as [fd filt]. intros HR Hf Hk. specialize (HR fd). cbn in *.
  destruct (I !! fd) as [ev|].
  - exists ev. destruct HR as [(x & Hx & Hxd & ?) (z & Hz & Hzd & ?)]. unfold wants.
    destruct Hf as [-> | ->]; simplify_eq; split_and!; try naive_solver; [rewrite Hxd|rewrite Hzd];
      rewrite negb_false_iff; naive_solver.
  - destruct HR. destruct Hf as [-> | ->]; congruence.
Qed.

(** C17. ff_epoll_ctl implements an interest list on the knotes: for an open
    socket, without EPOLLONESHOT, ADD and MOD leave exactly the wanted
    directions enabled with the caller's data, DEL leaves no knote, MOD and DEL
    of an unregistered descriptor fail with ENOENT and change nothing, and no
    other descriptor is touched. *)
Theorem epoll_ctl_refines fuel y I errno epfd op fd so ev :
  R y I -> (1 <= fuel)%nat ->
  y_files y !! epfd = Some DTYPE_KQUEUE -> y_files y !! fd = Some (DTYPE_SOCKET so) ->
  0 <= fd <= INT_MAX -> flag (ev_events ev) EPOLLONESHOT = false ->
  op = EPOLL_CTL_ADD \/ op = EPOLL_CTL_MOD \/ op = EPOLL_CTL_DEL ->
  let '(e, I') := epoll_spec op fd ev I in
  exists y', ff_epoll_ctl fuel y errno epfd op fd (Some ev)
             = Done (if e =? 0 then 0 else -1, if e =? 0 then errno else e, y')
    /\ R y' I' /\ y_files y' = y_files y.
Proof.
  intros HR Hfu Hkq Hso Hfd Hone Hop. unfold ff_epoll_ctl.
  assert (Hset : forall r (e : Z) I', (exists y', r = Done (if e =? 0 then 0 else -1, if e =? 0 then errno else e, y', [])
      /\ R y' I' /\ y_files y' = y_files y) ->
    exists y', (fun r : Z * Z * sys * list kevent => r.1) <$> r = Done (if e =? 0 then 0 else -1, if e =? 0 then errno else e, y')
      /\ R y' I' /\ y_files y' = y_files y).
  { intros r e I' (y' & -> & ? & ?). by exists y'. }
  pose proof (ctl_set y I errno epfd fd so ev HR Hkq Hso Hfd op fuel Hfu Hone) as Hs.
  pose proof (ctl_del y I errno epfd fd so ev HR Hkq Hso Hfd fuel Hfu) as Hd.
  destruct Hop as [-> | [-> | ->]]; cbn -[epoll_spec ff_kevent ctl_changes del_changes].
  - specialize (Hs (or_introl eq_refl)). destruct (epoll_spec _ fd ev I). by apply Hset.
  - specialize (Hs (or_intror eq_refl)). destruct (epoll_spec _ fd ev I). by apply Hset.
  - destruct (epoll_spec _ fd ev I). by apply Hset.
Qed.

Lemma refresh_kevent fs kn : refresh fs kn = with_kevent kn (kn_kevent (refresh fs kn)).
Proof.
  unfold refresh, f_event, filt_soread, filt_sowrite, filt_solisten.
  destruct kn. repeat case_match; done.
Qed.

(** The whole of ff_epoll_wait is one scan. *)
Lemma ff_epoll_wait_scan fuel y I errno epfd evs maxevents timeout :
  R y I -> (2 <= fuel)%nat -> y_files y !! epfd = Some DTYPE_KQUEUE ->
  1 <= maxevents <= Z.of_nat (length evs) ->
  let kevs := take (Z.to_nat maxevents) (found (y_files y) (kq_knlist (y_kq y)) (kq_head (y_kq y))) in
  exists y', ff_epoll_wait fuel y errno epfd (Some evs) maxevents timeout
             = Done (Z.of_nat (length kevs), errno, y', fill ff_event_to_epoll evs kevs)
    /\ R y' I /\ y_files y' = y_files y.
Proof.
  intros [Hok HRm] Hfu Hkq Hmax. unfold ff_epoll_wait.
  destruct (Z.ltb_spec maxevents 1); [lia|].
  destruct (kqueue_scan_spec ff_event_to_epoll fuel (fun m => Rm m I) y maxevents [] evs)
    as (y' & Hs & Hok' & Hf' & HR' & _); [apply Rm_turn_closed|done..|lia|done|].
  exists y'. split; [|by split; [split|]].
  unfold ff_kevent_do_each, kern_kevent, kqueue_kevent. rewrite Hkq.
  change (Z.of_nat (length [])) with 0. destruct fuel as [|n]; [lia|]. cbn -[kqueue_scan]. by rewrite Hs.
Qed.

(** C20. On a kqueue in its invariant ([kq_ok]) that holds the interest list [I],
    without EPOLLONESHOT registrations ([R]), ff_epoll_wait with room for at least
    one event stores, without passing the end of the array, one epoll_event per
    reported kevent and returns their number.  Each one is of a registered
    descriptor, in a direction its mask asks for, whose socket is ready now, and
    carries the caller's data; no direction is reported twice.  When fewer than
    maxevents are returned, every wanted direction of a level-triggered knote
    (registered without EPOLLET) that is ready has been reported; for
    edge-triggered ones this is not claimed, a ready one is reported only after
    a new event.  The interest list is kept. *)
Theorem epoll_wait_exact fuel y I errno epfd evs maxevents timeout :
  R y I -> (2 <= fuel)%nat -> y_files y !! epfd = Some DTYPE_KQUEUE ->
  1 <= maxevents <= Z.of_nat (length evs) ->
  exists y' kevs,
    ff_epoll_wait fuel y errno epfd (Some evs) maxevents timeout
    = Done (Z.of_nat (length kevs), errno, y', fill ff_event_to_epoll evs kevs)
    /\ Z.of_nat (length kevs) <= maxevents
    /\ R y' I
    /\ NoDup (kev_key <$> kevs)
    /\ (forall kev, kev ∈ kevs -> exists ev kn,
          I !! ident kev = Some ev /\ wants ev (filter kev) /\ udata kev = ev_data ev
          /\ kq_knlist (y_kq y) !! kev_key kev = Some kn
          /\ f_event (y_files y) kn = (true, with_kevent kn kev))
    /\ (Z.of_nat (length kevs) < maxevents -> forall fd filt ev kn,
          I !! fd = Some ev -> wants ev filt -> kq_knlist (y_kq y) !! (fd, filt) = Some kn ->
          level kn = true -> (f_event (y_files y) kn).1 = true ->
          exists kev, kev ∈ kevs /\ kev_key kev = (fd, filt)).
Proof.
  intros HR Hfu Hkq Hmax.
  destruct (ff_epoll_wait_scan fuel y I errno epfd evs maxevents timeout HR Hfu Hkq Hmax) as (y' & Hw & HR' & _).
  destruct HR as [[Hs Hall] HRm].
  eexists y', _. split; [exact Hw|]. set (kevs := take _ _).
  assert (Hkey : map_Forall (fun k kn => kn_key kn = k) (kq_knlist (y_kq y))).
  { intros k kn Hk. by apply (Hall k kn Hk). }
  split_and!; [unfold kevs; rewrite length_take; lia|by destruct HR'..| | |].
  - eapply sublist_NoDup; [apply (qs_nodup _ _ _ Hs)|].
    etrans; [apply fmap_sublist, sublist_take|by apply found_keys].
  - intros kev Hin. apply (subseteq_take _ _) in Hin.
    apply found_elem in Hin as (k & kn & Hk & Hkn & Hr).
    pose proof (Hall k kn Hkn) as [Hst _ _].
    destruct (Rm_lookup _ _ _ _ HRm (ko_filter _ _ _ _ Hst) Hkn) as (ev & HI & Hu & Hp & Hd).
    pose proof (scan_result_key _ _ _ Hr) as Hkk. rewrite (ko_key _ _ _ _ Hst) in Hkk.
    rewrite (proj1 (scan_result_plain _ _ Hp)) in Hr.
    destruct (kn_disabled kn) eqn:Ed, (ready (y_files y) kn) eqn:Er; try discriminate Hr.
    injection Hr as <-. exists ev, kn. destruct (refresh_status (y_files y) kn) as (_ & _ & _ & Ru).
    rewrite Hkk. destruct k as [kfd kfl]. injection Hkk as -> ->.
    split_and!; [done|by apply Hd|congruence|done|].
    rewrite f_event_split, Er. f_equal. apply refresh_kevent.
  - intros Hlt fd filt ev kn HI Hw' Hkn Hl Hr. pose proof (Hall _ _ Hkn) as [Hst Ha Hrd].
    destruct (Rm_lookup _ _ _ _ HRm (ko_filter _ _ _ _ Hst) Hkn) as (ev' & HI' & _ & Hp & Hd).
    cbn in HI', Hd. simplify_eq. apply Hd in Hw'.
    exists (kn_kevent (refresh (y_files y) kn)). split.
    + unfold kevs in *. rewrite take_ge in * by (rewrite length_take in Hlt; lia).
      apply found_elem. exists (fd, filt), kn. split_and!; [|done|].
      * apply (qs_mem _ _ _ Hs). exists kn. split; [done|]. by apply Hrd.
      * rewrite (proj1 (scan_result_plain _ _ Hp)), Hw'. unfold ready. by rewrite Hr.
    + destruct (refresh_watch (y_files y) kn) as [Hk _]. etrans; [exact Hk|]. apply (ko_key _ _ _ _ Hst).
Qed.

(** * One-shot registrations *)

(** A scan for one event that finds a one-shot knote at the head drops it. *)
Lemma epoll_wait_oneshot fuel y errno epfd old timeout k kn rest :
  kq_ok y -> (2 <= fuel)%nat -> y_files y !! epfd = Some DTYPE_KQUEUE ->
  kq_head (y_kq y) = k :: rest -> kq_knlist (y_kq y) !! k = Some kn ->
  kn_disabled kn = false -> flag (kn_flags kn) EV_DROP = false -> flag (kn_flags kn) EV_ONESHOT = true ->
  exists y', ff_epoll_wait fuel y errno epfd (Some [old]) 1 timeout
             = Done (1, errno, y', [ff_event_to_epoll old (kn_kevent kn)])
    /\ kq_ok y' /\ y_files y' = y_files y /\ kq_knlist (y_kq y') = delete k (kq_knlist (y_kq y)).
Proof.
  intros [Hs Hall] Hfu Hkq Hh Hk Hd Hdr Ho.
  assert (Hres : scan_result (y_files y) kn = (Some (kn_kevent kn), None))
    by (unfold scan_result; by rewrite Hd, Hdr, Ho).
  set (m' := delete k (kq_knlist (y_kq y))).
  set (y' := Sys (y_files y) (Kq rest (kq_count (y_kq y) - 1) (kq_knlistsize (y_kq y)) m')).
  assert (Hok' : kq_ok y').
  { rewrite Hh in Hs. split; [exact (qs_take_off [] k rest _ _ None Hs (fun _ H => ltac:(discriminate H)))|].
    by apply map_Forall_delete. }
  exists y'. split; [|done].
  unfold ff_epoll_wait, ff_kevent_do_each, kern_kevent, kqueue_kevent. rewrite Hkq.
  change (Z.of_nat (length [])) with 0. destruct fuel as [|n]; [lia|].
  unfold kqueue_scan. cbn -[scan_one].
  assert (Hc : (kq_count (y_kq y) =? 0) = false).
  { apply Z.eqb_neq. rewrite (qs_count _ _ _ Hs), Hh. cbn. lia. }
  rewrite Hc, Hh. cbn -[scan_one]. rewrite scan_one_eq with (kn := kn) by done.
  unfold scan_next, stays, after. cbn [sc_sys y_files y_kq]. rewrite Hres. cbn.
  unfold scan_emit. cbn [with_sys sc_keva app length].
  change (Z.of_nat 1 =? KQ_NEVENTS) with false. cbn. change (1 - 1) with 0.
  destruct rest; cbn; rewrite ?app_nil_r; reflexivity.
Qed.

Lemma ctl_read_gone fuel y errno epfd op fd so ev :
  kq_ok y -> (1 <= fuel)%nat -> y_files y !! epfd = Some DTYPE_KQUEUE ->
  y_files y !! fd = Some (DTYPE_SOCKET so) -> 0 <= fd <= INT_MAX ->
  kq_knlist (y_kq y) !! (fd, EVFILT_READ) = None ->
  op = EPOLL_CTL_MOD \/ op = EPOLL_CTL_DEL ->
  ff_epoll_ctl fuel y errno epfd op fd (Some ev) = Done (-1, ENOENT, y).
Proof.
  intros Hok Hfu Hkq Hso Hfd Hn Hop. unfold ff_epoll_ctl.
  assert (Hu : u64 fd = fd) by (apply wrapu_small; unfold INT_MAX in *; lia).
  destruct Hop as [-> | ->]; cbn -[ff_kevent ctl_changes del_changes].
  - unfold ctl_changes. set (a := EV_SET fd EVFILT_READ _ _).
    pose proof (ctl_change_of EPOLL_CTL_MOD (ev_events ev) fd EVFILT_READ
                  (flag (ev_events ev) EPOLLIN) (ev_data ev) Hfd) as Ha. fold a in Ha.
    destruct (register_change y fd EVFILT_READ so Hok Hfd (or_introl eq_refl) Hso a _ _ _ Ha)
      as [(_ & _ & Hr)|(a' & y1 & kn1 & _ & _ & _ & _ & _ & _ & _ & _ & Hn1)]; [|by specialize (Hn1 Hn)].
    rewrite ff_kevent_first_fails with (e := ff_ENOENT) (a' := a) (y1 := y); [reflexivity|try done..];
      apply Ha.
  - unfold del_changes, EV_SET. rewrite Hu. set (a := Kevent fd EVFILT_READ _ _ _ _).
    pose proof (register_delete y fd EVFILT_READ so Hok Hfd (or_introl eq_refl) Hso a eq_refl eq_refl) as Hr.
    rewrite Hn in Hr.
    rewrite ff_kevent_first_fails with (e := ff_ENOENT) (a' := a) (y1 := y); [reflexivity|done..].
Qed.

(** C36. EPOLLONESHOT cannot be re-armed: once the read event of a one-shot
    registration is delivered, EPOLL_CTL_MOD and EPOLL_CTL_DEL of the
    descriptor fail with ENOENT (epoll keeps a disabled registration, which MOD
    re-arms), and the knote of the write direction can no longer be deleted. *)
Theorem epoll_oneshot_stuck fuel y errno epfd fd so old timeout kn wk rest op ev :
  kq_ok y -> (2 <= fuel)%nat -> y_files y !! epfd = Some DTYPE_KQUEUE ->
  y_files y !! fd = Some (DTYPE_SOCKET so) -> 0 <= fd <= INT_MAX ->
  kq_head (y_kq y) = (fd, EVFILT_READ) :: rest ->
  kq_knlist (y_kq y) !! (fd, EVFILT_READ) = Some kn ->
  kn_disabled kn = false -> flag (kn_flags kn) EV_DROP = false -> flag (kn_flags kn) EV_ONESHOT = true ->
  kq_knlist (y_kq y) !! (fd, EVFILT_WRITE) = Some wk ->
  op = EPOLL_CTL_MOD \/ op = EPOLL_CTL_DEL ->
  exists y', ff_epoll_wait fuel y errno epfd (Some [old]) 1 timeout
             = Done (1, errno, y', [ff_event_to_epoll old (kn_kevent kn)])
    /\ ff_epoll_ctl fuel y' errno epfd op fd (Some ev) = Done (-1, ENOENT, y')
    /\ kq_knlist (y_kq y') !! (fd, EVFILT_WRITE) = Some wk.
Proof.
  intros Hok Hfu Hkq Hso Hfd Hh Hk Hd Hdr Ho Hwk Hop.
  destruct (epoll_wait_oneshot fuel y errno epfd old timeout (fd, EVFILT_READ) kn rest) as (y' & Hw & Hok' & Hf & Hm); [done..|].
  exists y'. split; [done|]. split; [|by rewrite Hm, lookup_delete_ne].
  eapply ctl_read_gone; rewrite ?Hf, ?Hm; try done; [lia|]. apply lookup_delete_eq.
Qed.

(** * Concrete runs

    Descriptor 3 is the epoll instance, 4 a connected socket with 5 bytes to
    read and no room to write. *)

Definition ex_rcv : sockbuf := Sockbuf 5 0 1 5 65536 256 524288 false false.
Definition ex_snd : sockbuf := Sockbuf 65536 0 2048 65536 65536 256 524288 false false.
Definition ex_sock : socket := Socket ex_rcv ex_snd 0 true true false 0 [].
Definition ex_files : gmap Z file := <[3 := DTYPE_KQUEUE]> (<[4 := DTYPE_SOCKET ex_sock]> ∅).
Definition ex_sys : sys := Sys ex_files kq_init.
Definition ex_ev : epoll_event := EpollEvent (Z.lor EPOLLIN EPOLLOUT) 77.
Definition ex_ev1 : epoll_event := EpollEvent (Z.lor EPOLLIN EPOLLONESHOT) 77.

Definition state_of {A} (r : outcome (A * sys)) (d : sys) : sys := match r with Done (_, y) => y | _ => d end.

(** After [epoll_ctl(3, ADD, 4, ev)]. *)
Definition ex_added (ev : epoll_event) : sys := state_of (ff_epoll_ctl 2 ex_sys 0 3 EPOLL_CTL_ADD 4 (Some ev)) ex_sys.

Lemma init_ok fs : kq_ok (Sys fs kq_init).
Proof.
  split; [split; [done|constructor|]|by apply map_Forall_empty].
  intros k. rewrite elem_of_nil. split; [done|]. intros (kn & Hk & _). cbn in Hk. by rewrite lookup_empty in Hk.
Qed.

Lemma ex_sys_R : R ex_sys ∅.
Proof. split; [apply init_ok|]. intros fd. by rewrite lookup_empty. Qed.

Lemma epoll_ctl_refines_witness :
  exists y', ff_epoll_ctl 2 ex_sys 0 3 EPOLL_CTL_ADD 4 (Some ex_ev) = Done (0, 0, y')
    /\ R y' (<[4 := ex_ev]> ∅) /\ y_files y' = y_files ex_sys.
Proof.
  apply (epoll_ctl_refines 2 ex_sys ∅ 0 3 EPOLL_CTL_ADD 4 ex_sock ex_ev); [apply ex_sys_R|lia|..];
    try reflexivity; [unfold INT_MAX; lia|left; reflexivity].
Defined.

Lemma ex_added_R : R (ex_added ex_ev) (<[4 := ex_ev]> ∅) /\ y_files (ex_added ex_ev) = ex_files.
Proof.
  pose proof (ctl_set ex_sys ∅ 0 3 4 ex_sock ex_ev ex_sys_R eq_refl eq_refl ltac:(unfold INT_MAX; lia)
                EPOLL_CTL_ADD 2 ltac:(lia) eq_refl (or_introl eq_refl)) as H.
  cbn -[R ff_kevent ctl_changes] in H. destruct H as (y' & Hc & HR & Hf).
  assert (ex_added ex_ev = y') as ->; [|done].
  unfold ex_added, ff_epoll_ctl. cbn -[ff_kevent ctl_changes]. by rewrite Hc.
Qed.

Lemma epoll_wait_exact_witness :
  exists y' kevs,
    ff_epoll_wait 2 (ex_added ex_ev) 0 3 (Some [EpollEvent 0 0; EpollEvent 0 0]) 2 0
    = Done (Z.of_nat (length kevs), 0, y', fill ff_event_to_epoll [EpollEvent 0 0; EpollEvent 0 0] kevs)
    /\ Z.of_nat (length kevs) <= 2 /\ R y' (<[4 := ex_ev]> ∅).
Proof.
  destruct (epoll_wait_exact 2 (ex_added ex_ev) (<[4 := ex_ev]> ∅) 0 3
             [EpollEvent 0 0; EpollEvent 0 0] 2 0) as (y' & kevs & H1 & H2 & H3 & _).
  - apply ex_added_R.
  - lia.
  - rewrite (proj2 ex_added_R). reflexivity.
  - cbn. lia.
  - exists y', kevs. split; [exact H1|]. split; [exact H2|exact H3].
Defined.

(** The read event is reported, the write direction is not ready. *)
Example ex_wait_reports :
  fmap (fun r => (r.1.1.1, r.2))
    (ff_epoll_wait 2 (ex_added ex_ev) 0 3 (Some [EpollEvent 0 0; EpollEvent 0 0]) 2 0)
  = Done (1, [EpollEvent EPOLLIN 77; EpollEvent 0 0]).
Proof. vm_compute. reflexivity. Qed.

Definition ex_reg1 : sys := state_of (kqueue_register ex_sys (hd (Kevent 0 0 0 0 0 0) (ctl_changes EPOLL_CTL_ADD 4 ex_ev1))) ex_sys.

Lemma ex_added1_ok : kq_ok (ex_added ex_ev1).
Proof.
  eapply (kqueue_register_ok ex_reg1 (nth 1 (ctl_changes EPOLL_CTL_ADD 4 ex_ev1) (Kevent 0 0 0 0 0 0)));
    [|by compute|vm_compute; reflexivity].
  eapply (kqueue_register_ok ex_sys (hd (Kevent 0 0 0 0 0 0) (ctl_changes EPOLL_CTL_ADD 4 ex_ev1)));
    [apply init_ok|by compute|vm_compute; reflexivity].
Qed.

Definition ex_knote (y : sys) (k : key) : knote :=
  default (Knote (Kevent 0 0 0 0 0 0) false false false 0 0 file_filtops) (kq_knlist (y_kq y) !! k).

Lemma epoll_oneshot_stuck_witness :
  exists y', ff_epoll_wait 2 (ex_added ex_ev1) 0 3 (Some [EpollEvent 0 0]) 1 0
             = Done (1, 0, y', [EpollEvent EPOLLIN 77])
    /\ ff_epoll_ctl 2 y' 0 3 EPOLL_CTL_MOD 4 (Some ex_ev1) = Done (-1, ENOENT, y')
    /\ kq_knlist (y_kq y') !! (4, EVFILT_WRITE) = Some (ex_knote (ex_added ex_ev1) (4, EVFILT_WRITE)).
Proof.
  apply (epoll_oneshot_stuck 2 (ex_added ex_ev1) 0 3 4 ex_sock (EpollEvent 0 0) 0
           (ex_knote (ex_added ex_ev1) (4, EVFILT_READ)) (ex_knote (ex_added ex_ev1) (4, EVFILT_WRITE)) []
           EPOLL_CTL_MOD ex_ev1);
    [apply ex_added1_ok|lia|..|left; reflexivity]; first [vm_compute; reflexivity|unfold INT_MAX; lia].
Defined.
