(* ===== verification/KqFair.v ===== *)
(** Fairness of the kqueue of Kqueue.v: the order in which scans serve the
    knotes.

    A scan takes knotes from the head of the queue and puts the level-triggered
    ones that it reports at the tail; everything else only appends to the queue
    or removes from it.  So the number of knotes [before] a ready one bounds
    the number of scans that can pass it over. *)
From stdpp Require Import base list gmap.
From Stdlib Require Import ZArith Lia.
From S2P Require Import Prelude AbiTables Kqueue Epoll.

Local Open Scope Z_scope.

(** The knotes before [k] in a queue. *)
Fixpoint before (k : key) (l : list key) : nat :=
  match l with
  | [] => 0
  | x :: l => if decide (x = k) then 0 else S (before k l)
  end.

Lemma before_app_l k l r : k ∈ l -> before k (l ++ r) = before k l.
Proof.
  induction l as [|x l IH]; [by intros ?%not_elem_of_nil|]. cbn.
  destruct (decide (x = k)); [done|]. intros [->|?]%elem_of_cons; [done|]. by rewrite IH.
Qed.

Lemma before_app_r k l r : k ∉ l -> before k (l ++ r) = (length l + before k r)%nat.
Proof.
  induction l as [|x l IH]; [done|]. intros [? ?]%not_elem_of_cons. cbn.
  destruct (decide (x = k)); [done|]. by rewrite IH.
Qed.

Lemma before_sublist k l' l : l' `sublist_of` l -> NoDup l -> k ∈ l' -> (before k l' <= before k l)%nat.
Proof.
  induction 1 as [|x l' l Hs IH|x l' l Hs IH]; intros Hn Hk; cbn; [lia|..];
    apply NoDup_cons in Hn as [Hx Hn]; destruct (decide (x = k)) as [->|]; try lia.
  - apply elem_of_cons in Hk as [->|Hk]; [done|]. specialize (IH Hn Hk). lia.
  - exfalso. apply Hx. by eapply elem_of_sublist.
  - specialize (IH Hn Hk). lia.
Qed.

(** A step that only appends to the queue or only removes from it. *)
Definition advances (h h' : list key) : Prop := (exists r, h' = h ++ r) \/ h' `sublist_of` h.

Lemma advances_before k h h' : advances h h' -> NoDup h -> k ∈ h -> k ∈ h' -> (before k h' <= before k h)%nat.
Proof. intros [[r ->]|Hs] Hn Hk Hk'; [by rewrite before_app_l|by apply before_sublist]. Qed.

Lemma advances_refl h : advances h h.
Proof. right. done. Qed.

Lemma done_ev_add_head fs q kev k kn : exists r, kq_head (done_ev_add fs q kev k kn) = kq_head q ++ r.
Proof.
  unfold done_ev_add. rewrite f_event_split. destruct (if _ : bool then _ else _) as [ev kn2].
  destruct (_ && _ && _); cbn; [by eexists|]. exists []. by rewrite app_nil_r.
Qed.

Lemma KNOTE_ACTIVATE_head q k kn : exists r, kq_head (KNOTE_ACTIVATE q k kn) = kq_head q ++ r.
Proof. unfold KNOTE_ACTIVATE. destruct (_ && _); cbn; [by eexists|]. exists []. by rewrite app_nil_r. Qed.

Lemma knote_drop_head q k kn : kq_head (knote_drop q k kn) `sublist_of` kq_head q.
Proof. rewrite knote_drop_eq. cbn. destruct (kn_queued kn); [|done]. apply sublist_filter. Qed.

Lemma register_new_head y so kev : advances (kq_head (y_kq y)) (kq_head (y_kq (register_new y so kev).2)).
Proof.
  unfold register_new. destruct (flag _ EV_ADD); [|apply advances_refl].
  set (kn := Knote _ _ _ _ _ _ _). unfold knote_attach. destruct (_ >=? _); [apply advances_refl|].
  destruct (soo_kqfilter so kn); cbn [snd y_kq].
  - right. etrans; [apply knote_drop_head|done].
  - left. match goal with |- context [done_ev_add ?f ?q ?e ?kk ?n] => apply (done_ev_add_head f q e kk n) end.
Qed.

Lemma register_old_head y kev k kn : advances (kq_head (y_kq y)) (kq_head (y_kq (register_old y kev k kn).2)).
Proof.
  unfold register_old. destruct (flag _ EV_DELETE); [right; apply knote_drop_head|].
  destruct (flag _ EV_FORCEONESHOT); cbn; [|left; apply done_ev_add_head].
  set (kn0 := with_kevent _ _). destruct (KNOTE_ACTIVATE_head (y_kq y) k kn0) as [r Hr].
  match goal with |- context [done_ev_add ?f ?q ?e ?kk ?n] => destruct (done_ev_add_head f q e kk n) as [r2 Hr2] end.
  left. exists (r ++ r2). by rewrite Hr2, Hr, app_assoc.
Qed.

Lemma kqueue_register_head y kev e kev' y' :
  kqueue_register y kev = Done (e, kev', y') -> advances (kq_head (y_kq y)) (kq_head (y_kq y')).
Proof.
  unfold kqueue_register.
  destruct (_ && _); [intros [= <- <- <-]; apply advances_refl|].
  destruct (kqueue_fo_find _) as [[fo|]|]; [|intros [= <- <- <-]; apply advances_refl|done].
  destruct (_ >? _); [intros [= <- <- <-]; apply advances_refl|].
  destruct (y_files y !! ident kev) as [fl|]; [|intros [= <- <- <-]; apply advances_refl].
  set (y1 := if flag (flags kev) EV_ADD then _ else _).
  assert (Hh : kq_head (y_kq y1) = kq_head (y_kq y)).
  { unfold y1. destruct (flag _ EV_ADD); [|done]. apply kqueue_expand_spec. }
  destruct fl as [so|]; [|intros [= <- <- <-]; rewrite Hh; apply advances_refl].
  intros [= Heq]. replace y' with (e, kev', y').2 by done. rewrite <- Heq, <- Hh.
  destruct (find_knote _ _); [apply register_old_head|apply register_new_head].
Qed.

Lemma knote_events_head ks : forall y, exists r,
  kq_head (y_kq (fold_left knote_event ks y)) = kq_head (y_kq y) ++ r.
Proof.
  induction ks as [|k ks IH]; intros y; cbn; [exists []; by rewrite app_nil_r|].
  destruct (IH (knote_event y k)) as [r ->].
  assert (exists r0, kq_head (y_kq (knote_event y k)) = kq_head (y_kq y) ++ r0) as [r0 ->].
  { unfold knote_event. destruct (_ !! k) as [kn|]; [|exists []; by rewrite app_nil_r].
    rewrite f_event_split. destruct (ready _ _); cbn; [apply KNOTE_ACTIVATE_head|exists []; by rewrite app_nil_r]. }
  exists (r0 ++ r). by rewrite app_assoc.
Qed.

Lemma drop_keys_head ks : forall q, kq_head (fold_left drop_key ks q) `sublist_of` kq_head q.
Proof.
  induction ks as [|k ks IH]; intros q; cbn; [done|]. etrans; [apply IH|].
  unfold drop_key. destruct (_ !! k); [apply knote_drop_head|done].
Qed.

Lemma kmove_head y y' : kmove y y' -> advances (kq_head (y_kq y)) (kq_head (y_kq y')).
Proof.
  intros [|y0 fd so so' ks ? ?|y0 fd f ? ?|y0 fd ?]; [by eapply kqueue_register_head| |apply advances_refl|].
  { left. exact (knote_events_head ks (set_file y0 fd (DTYPE_SOCKET so'))). }
  right. unfold close, knote_fdclose. cbn. destruct (_ >? _); cbn; [apply drop_keys_head|done].
Qed.

(** * Scans *)

(** A knote that every scan should report: enabled, level-triggered and ready. *)
Definition waiting (k : key) (y : sys) : Prop :=
  exists kn, kq_knlist (y_kq y) !! k = Some kn /\ kn_disabled kn = false /\ level kn = true /\ plain kn
    /\ (f_event (y_files y) kn).1 = true.

Lemma waiting_queued k y : kq_ok y -> waiting k y -> k ∈ kq_head (y_kq y).
Proof.
  intros [Hs Hall] (kn & Hk & Hd & Hl & _ & Hr). apply (qs_mem _ _ _ Hs). exists kn. split; [done|].
  by eapply ko_ready; [apply Hall|..].
Qed.

Lemma waiting_found k y pre :
  kq_ok y -> waiting k y -> k ∈ pre ->
  k ∈ kev_key <$> found (y_files y) (kq_knlist (y_kq y)) pre.
Proof.
  intros [_ Hall] (kn & Hk & Hd & _ & Hp & Hr) Hin. apply list_elem_of_fmap.
  exists (kn_kevent (refresh (y_files y) kn)). split.
  - destruct (refresh_watch (y_files y) kn) as [Hkk _]. symmetry. etrans; [exact Hkk|].
    apply (ko_key _ _ _ _ (ko_static _ _ _ _ (Hall _ _ Hk))).
  - apply found_elem. exists k, kn. split_and!; [done..|].
    rewrite (proj1 (scan_result_plain _ _ Hp)), Hd. unfold ready. by rewrite Hr.
Qed.

Lemma fill_copy ev0 evs :
  (length evs <= length ev0)%nat -> take (length evs) (fill (fun _ kev => kev) ev0 evs) = evs.
Proof.
  intros Hl. unfold fill. assert (Hz : zip_with (fun _ kev : kevent => kev) (take (length evs) ev0) evs = evs).
  { revert ev0 Hl. induction evs as [|e evs IH]; intros [|x ev0] Hl; cbn in *; [done..|lia|].
    f_equal. apply IH. lia. }
  rewrite Hz. rewrite take_app_le, take_ge by lia. done.
Qed.

(** A kevent call: [maxevents] at least 1, a large enough array. *)
Definition scans (y : sys) (evs : list kevent) (y' : sys) : Prop :=
  exists maxevents ev0 n uap, 1 <= maxevents <= Z.of_nat (length ev0)
    /\ kqueue_scan (fun _ kev => kev) 2 y maxevents (Uap [] ev0 0) = Done (n, y', uap)
    /\ evs = take (Z.to_nat n) (eventlist uap).

Lemma scan_progress y evs y' k :
  kq_ok y -> waiting k y -> scans y evs y' -> k ∉ kev_key <$> evs ->
  kq_ok y' /\ (before k (kq_head (y_kq y')) < before k (kq_head (y_kq y)))%nat.
Proof.
  intros Hok Hw (maxevents & ev0 & n & uap & Hmax & Hscan & ->) Hrep.
  destruct (kqueue_scan_spec (fun _ kev => kev) 2 (fun _ => True) y maxevents [] ev0)
    as (y1 & Heq & Hok1 & _ & _ & pre & rest & back & Hh & Hh' & Hevs & Hfull); [apply turn_closed_True|done..|lia|lia|].
  set (evs := take _ (found _ _ _)) in *. rewrite Heq in Hscan. injection Hscan as <- <- <-. split; [done|].
  assert (Hlen : (length evs <= length ev0)%nat) by (unfold evs; rewrite length_take; lia).
  cbn [eventlist] in Hrep. rewrite Nat2Z.id, fill_copy in Hrep by done.
  assert (Hkp : k ∉ pre).
  { intros Hin. apply Hrep. rewrite Hevs. by apply waiting_found. }
  pose proof (waiting_queued k y Hok Hw) as Hq. rewrite Hh in Hq. apply elem_of_app in Hq as [Hin|Hq]; [by destruct (Hkp Hin)|].
  rewrite Hh, Hh', (before_app_l k rest back Hq), (before_app_r k pre rest Hkp).
  destruct Hfull as [->|Hfull]; [by apply not_elem_of_nil in Hq|].
  destruct pre as [|x pre]; [|cbn; lia]. rewrite Hevs in Hfull. cbn in Hfull. lia.
Qed.

(** A run in which [k] waits all the time and [n] scans pass it over. *)
Inductive passed_over (k : key) : nat -> sys -> Prop :=
  | po_nil y : waiting k y -> passed_over k 0 y
  | po_move n y y' : waiting k y -> kmove y y' -> passed_over k n y' -> passed_over k n y
  | po_scan n y evs y' :
      waiting k y -> scans y evs y' -> k ∉ kev_key <$> evs -> passed_over k n y' -> passed_over k (S n) y.

Lemma passed_over_waiting k n y : passed_over k n y -> waiting k y.
Proof. by intros []. Qed.

Lemma passed_over_bound k n y : kq_ok y -> passed_over k n y -> (n <= before k (kq_head (y_kq y)))%nat.
Proof.
  intros Hok Hp. induction Hp as [y Hw|n y y' Hw Hm Hp IH|n y evs y' Hw Hs Hr Hp IH]; [lia|..].
  - pose proof (kmove_ok _ _ Hok Hm) as Hok'. specialize (IH Hok').
    pose proof (advances_before k _ _ (kmove_head _ _ Hm) (qs_nodup _ _ _ (proj1 Hok))
      (waiting_queued _ _ Hok Hw) (waiting_queued _ _ Hok' (passed_over_waiting _ _ _ Hp))). lia.
  - destruct (scan_progress y evs y' k Hok Hw Hs Hr) as [Hok' Hlt]. specialize (IH Hok'). lia.
Qed.


(** Two ready directions, and a call for one event: the second one is passed
    over once. *)
Definition ex_fs : gmap Z file := {[4 := DTYPE_SOCKET Kqueue.ex_so]}.
Definition ex_reg (y : sys) (filt : Z) : sys :=
  match kqueue_register y (Kevent 4 filt EV_ADD 0 0 0) with Done (_, _, y1) => y1 | _ => y end.
Definition ex_two : sys := ex_reg (ex_reg (Sys ex_fs kq_init) EVFILT_READ) EVFILT_WRITE.
Definition ex_scanned : sys :=
  match kqueue_scan (fun _ kev => kev) 2 ex_two 1 (Uap [] [Kevent 0 0 0 0 0 0] 0) with
  | Done (_, y1, _) => y1 | _ => ex_two end.

