(* ===== verification/PacketPath.v ===== *)
(** Packets between the NIC and the stack: src/ff_dpdk/ff_dpdk.h,
    src/lib/ff_mbuf.c, m_copydata of src/freebsd/kern/uipc_mbuf.c, and the
    receive and transmit callbacks of src/example/fstack0/device.c.

    A DPDK packet is an entry of [r_heap] (the chain of segments under the
    pointer of its first rte_mbuf); freeing or using one that is not there is
    [Fault].  A stack packet is a chain of mbufs by value; an mbuf made from a
    DPDK packet carries the pointer that its free function
    ([dpdk_ff_freef]) releases.  External storage is not shared (reference
    count 1).  Allocations are answered by the class [Pools]. *)
From stdpp Require Import base list gmap.
From Stdlib Require Import ZArith Lia.
From S2P Require Import Prelude.

Local Open Scope Z_scope.

Definition RTE_MBUF_DEFAULT_DATAROOM : Z := 2048.

(** struct rte_mbuf: the data of each segment. *)
Record rte_mbuf := Rte { r_segs : list (list Z); r_pkt_len : Z; r_nb_segs : Z }.

(** struct mbuf: its [m_len] bytes, and the argument of its free function. *)
Record mbuf := Mbuf { m_data : list Z; m_ext : option Z }.

(** A packet header mbuf with its chain. *)
Record packet := Packet { m_pkthdr_len : Z; m_chain : list mbuf }.

Definition bytes (p : packet) : list Z := concat (m_data <$> m_chain p).

(** * Copying out of a chain *)

(** [while (off > 0)] of m_copydata: the mbuf and the offset in it. *)
Fixpoint skip (m : list mbuf) (off : Z) : outcome (list mbuf * Z) :=
  if off >? 0 then
    match m with
    | [] => Fault
    | mb :: next =>
        if off <? Z.of_nat (length (m_data mb)) then Done (m, off)
        else skip next (off - Z.of_nat (length (m_data mb)))
    end
  else Done (m, off).

(** [while (len > 0)] of m_copydata. *)
Fixpoint copy (m : list mbuf) (off len : Z) : outcome (list Z) :=
  if len >? 0 then
    match m with
    | [] => Fault
    | mb :: next =>
        let count := Z.min (Z.of_nat (length (m_data mb)) - off) len in
        rest ← copy next 0 (len - count);
        Done (take (Z.to_nat count) (drop (Z.to_nat off) (m_data mb)) ++ rest)
    end
  else Done [].

Definition m_copydata (m : list mbuf) (off len : Z) : outcome (list Z) :=
  r ← skip m off; let '(m1, off1) := r in copy m1 off1 len.

(** [None] is the return -1. *)
Definition ff_mbuf_copydata (m : packet) (off len : Z) : outcome (option (list Z)) :=
  if off + len >? m_pkthdr_len m then Done None
  else d ← m_copydata (m_chain m) off len; Done (Some d).

Definition ff_mbuf_get_total_length (m : packet) : Z := u32 (m_pkthdr_len m).

(** * Allocation and release *)

(** The pools: whether an allocation succeeds. *)
Class Pools (W : Type) := {
  pool_rte : W -> bool * W;        (* rte_pktmbuf_alloc *)
  pool_hdr : W -> bool * W;        (* m_gethdr and m_pkthdr_init *)
  pool_get : W -> bool * W         (* m_get *)
}.

Record st (W : Type) := St {
  s_env : W;
  s_next : Z;                      (* the next rte_mbuf pointer *)
  s_heap : gmap Z rte_mbuf;
  s_stack : list packet;           (* given to if_input, in order *)
  s_tx : list (option Z)           (* given to rte_eth_tx_buffer, in order *)
}.
Arguments St {W}.
Arguments s_env {W}.
Arguments s_next {W}.
Arguments s_heap {W}.
Arguments s_stack {W}.
Arguments s_tx {W}.

Section path.
Context {W : Type} {P : Pools W}.

Definition with_env (s : st W) (w : W) : st W := St w (s_next s) (s_heap s) (s_stack s) (s_tx s).
Definition with_heap (s : st W) (h : gmap Z rte_mbuf) : st W := St (s_env s) (s_next s) h (s_stack s) (s_tx s).

(** A segment from the pool. *)
Definition alloc_seg (s : st W) : bool * st W :=
  let '(ok, w) := pool_rte (s_env s) in (ok, with_env s w).

Definition rte_pktmbuf_alloc (s : st W) : option Z * st W :=
  let '(ok, s1) := alloc_seg s in
  if ok then (Some (s_next s1),
              St (s_env s1) (s_next s1 + 1) (<[s_next s1 := Rte [] 0 1]> (s_heap s1)) (s_stack s1) (s_tx s1))
  else (None, s1).

Definition rte_pktmbuf_free (s : st W) (m : Z) : outcome (st W) :=
  match s_heap s !! m with
  | None => Fault
  | Some _ => Done (with_heap s (delete m (s_heap s)))
  end.

(** The free function of an external mbuf. *)
Definition dpdk_ff_freef (s : st W) (arg1 : Z) : outcome (st W) := rte_pktmbuf_free s arg1.

(** m_freem: every mbuf of the chain, with its external storage. *)
Fixpoint m_freem (s : st W) (m : list mbuf) : outcome (st W) :=
  match m with
  | [] => Done s
  | mb :: next =>
      match m_ext mb with
      | None => m_freem s next
      | Some arg => s1 ← dpdk_ff_freef s arg; m_freem s1 next
      end
  end.

Definition ff_mbuf_free (s : st W) (m : packet) : outcome (st W) := m_freem s (m_chain m).

(** * Stack to NIC *)

(** The loop of [dpdk_ff_to_mbuf]; [segs]: the segments filled so far; [None]:
    the error returns, with [m] and the new packet freed. *)
Fixpoint fill_loop (fuel : nat) (s : st W) (m : packet) (h : Z) (segs : list (list Z)) (off left : Z)
  : outcome (option (list (list Z)) * st W) :=
  if left >? 0 then
    match fuel with
    | O => Loop
    | S n =>
        let len := if left >? RTE_MBUF_DEFAULT_DATAROOM then RTE_MBUF_DEFAULT_DATAROOM else left in
        ret ← ff_mbuf_copydata m off len;
        match ret with
        | None => s1 ← ff_mbuf_free s m; s2 ← rte_pktmbuf_free s1 h; Done (None, s2)
        | Some d =>
            if left - len >? 0 then
              let '(ok, s1) := alloc_seg s in
              if ok then fill_loop n s1 m h (segs ++ [d]) (off + len) (left - len)
              else s2 ← ff_mbuf_free s1 m; s3 ← rte_pktmbuf_free s2 h; Done (None, s3)
            else fill_loop n s m h (segs ++ [d]) (off + len) (left - len)
        end
    end
  else Done (Some segs, s).

Definition dpdk_ff_to_mbuf (s : st W) (m : packet) : outcome (option Z * st W) :=
  let '(h, s1) := rte_pktmbuf_alloc s in
  match h with
  | None => Done (None, s1)
  | Some h =>
      let total := ff_mbuf_get_total_length m in
      r ← fill_loop (S (Z.to_nat total)) s1 m h [] 0 total;
      match r with
      | (None, s2) => Done (None, s2)
      | (Some segs, s2) =>
          let s3 := with_heap s2 (<[h := Rte segs total (Z.of_nat (length segs))]> (s_heap s2)) in
          s4 ← ff_mbuf_free s3 m; Done (Some h, s4)
      end
  end.

(** * NIC to stack *)

(** [m_pkthdr.len] and [m_len] come from unsigned short parameters. *)
Definition ff_mbuf_gethdr (s : st W) (pkt total : Z) (data : list Z) : option packet * st W :=
  let '(ok, w) := pool_hdr (s_env s) in
  (if ok then Some (Packet (u16 total) [Mbuf data (Some pkt)]) else None, with_env s w).

(** A new mbuf, linked behind the chain [prev] if there is one. *)
Definition ff_mbuf_get (s : st W) (prev : option packet) (data : list Z) : option (option packet) * st W :=
  let '(ok, w) := pool_get (s_env s) in
  (if ok then Some (match prev with
                    | Some p => Some (Packet (m_pkthdr_len p) (m_chain p ++ [Mbuf data None]))
                    | None => None
                    end)
   else None, with_env s w).

(** The loop of [dpdk_mbuf_to_ff] over the other segments. *)
Fixpoint chain_loop (s : st W) (dpdk_m : Z) (ff_m : option packet) (segs : list (list Z))
  : outcome (option packet * st W) :=
  match segs with
  | [] => Done (ff_m, s)
  | dat :: rest =>
      let '(r, s1) := ff_mbuf_get s ff_m dat in
      match r with
      | None =>
          s2 ← match ff_m with Some p => ff_mbuf_free s1 p | None => Done s1 end;
          s3 ← rte_pktmbuf_free s2 dpdk_m;
          Done (None, s3)
      | Some ff_m1 => chain_loop s1 dpdk_m ff_m1 rest
      end
  end.

Definition dpdk_mbuf_to_ff (s : st W) (dpdk_m : Z) : outcome (option packet * st W) :=
  match s_heap s !! dpdk_m with
  | None => Fault
  | Some r =>
      match r_segs r with
      | [] => Fault
      | d :: rest =>
          let '(ff_m, s1) := ff_mbuf_gethdr s dpdk_m (r_pkt_len r) d in
          chain_loop s1 dpdk_m ff_m rest
      end
  end.

(** * Callbacks of the application *)

(** [ff_veth_process_packet] writes to the header, then calls if_input. *)
Definition ff_veth_process_packet (s : st W) (m : option packet) : outcome (st W) :=
  match m with
  | None => Fault
  | Some p => Done (St (s_env s) (s_next s) (s_heap s) (s_stack s ++ [p]) (s_tx s))
  end.

Definition device_on_recv (s : st W) (dpdk_m : Z) : outcome (st W) :=
  r ← dpdk_mbuf_to_ff s dpdk_m;
  let '(ff_m, s1) := r in ff_veth_process_packet s1 ff_m.

Definition device_on_transmit (s : st W) (m : packet) : outcome (st W) :=
  r ← dpdk_ff_to_mbuf s m;
  let '(h, s1) := r in
  Done (St (s_env s1) (s_next s1) (s_heap s1) (s_stack s1) (s_tx s1 ++ [h])).

(** [device_run] on the burst that rte_eth_rx_burst returned. *)
Fixpoint device_run (s : st W) (bufs : list Z) : outcome (st W) :=
  match bufs with
  | [] => Done s
  | b :: rest => s1 ← device_on_recv s b; device_run s1 rest
  end.
End path.

(** * Copying is a slice of the packet *)

Definition cat (m : list mbuf) : list Z := concat (m_data <$> m).

Lemma cat_cons mb m : cat (mb :: m) = m_data mb ++ cat m.
Proof. done. Qed.

Lemma cat_nil : cat [] = [].
Proof. done. Qed.

#[local] Arguments cat : simpl never.

Lemma skip_spec m off :
  0 <= off <= Z.of_nat (length (cat m)) ->
  exists m1 off1, skip m off = Done (m1, off1) /\ 0 <= off1
    /\ drop (Z.to_nat off1) (cat m1) = drop (Z.to_nat off) (cat m)
    /\ match m1 with [] => off1 = 0 | mb :: _ => off1 <= Z.of_nat (length (m_data mb)) end.
Proof.
  revert off. induction m as [|mb next IH]; intros off H; cbn [skip].
  - rewrite cat_nil in H. cbn in H. assert (off = 0) as -> by lia. by exists [], 0.
  - destruct (Z.gtb_spec off 0).
    2: { assert (off = 0) as -> by lia. exists (mb :: next), 0. split_and!; [done|lia|done|lia]. }
    rewrite cat_cons, length_app in H.
    destruct (Z.ltb_spec off (Z.of_nat (length (m_data mb)))).
    + exists (mb :: next), off. split_and!; [done|lia|done|lia].
    + destruct (IH (off - Z.of_nat (length (m_data mb)))) as (m1 & off1 & -> & ? & Hd & Hm); [lia|].
      exists m1, off1. split_and!; [done|done| |done]. rewrite Hd, cat_cons, drop_app_ge by lia.
      f_equal. lia.
Qed.

Lemma copy_spec m off len :
  0 <= off -> match m with [] => off = 0 | mb :: _ => off <= Z.of_nat (length (m_data mb)) end ->
  0 <= len -> off + len <= Z.of_nat (length (cat m)) ->
  copy m off len = Done (take (Z.to_nat len) (drop (Z.to_nat off) (cat m))).
Proof.
  revert off len. induction m as [|mb next IH]; intros off len Ho Hm Hl Hle; cbn [copy].
  - rewrite cat_nil in *. cbn in Hle. destruct (Z.gtb_spec len 0); [lia|]. by rewrite drop_nil, take_nil.
  - destruct (Z.gtb_spec len 0); [|by assert (len = 0) as -> by lia].
    rewrite cat_cons, length_app in Hle. set (L := Z.of_nat (length (m_data mb))) in *.
    rewrite IH; [|lia|destruct next; [done|lia]|lia|lia].
    cbn. rewrite cat_cons, drop_app_le by lia. f_equal.
    destruct (Z.le_gt_cases len (L - off)).
    + rewrite Z.min_r by lia. rewrite Z.sub_diag, app_nil_r, take_app_le by (rewrite length_drop; lia). done.
    + rewrite Z.min_l by lia. rewrite (take_ge (drop _ (m_data mb))) by (rewrite length_drop; lia).
      rewrite take_app_ge by (rewrite length_drop; lia). rewrite length_drop. f_equal. f_equal. lia.
Qed.

Lemma m_copydata_spec m off len :
  0 <= off -> 0 <= len -> off + len <= Z.of_nat (length (cat m)) ->
  m_copydata m off len = Done (take (Z.to_nat len) (drop (Z.to_nat off) (cat m))).
Proof.
  intros Ho Hl Hle. unfold m_copydata.
  destruct (skip_spec m off) as (m1 & off1 & -> & H1 & Hd & Hm); [lia|]. cbn.
  rewrite copy_spec, Hd; [done|done|done|done|].
  assert (Hlen : length (drop (Z.to_nat off1) (cat m1)) = length (drop (Z.to_nat off) (cat m))) by by rewrite Hd.
  rewrite !length_drop in Hlen. destruct m1 as [|mb m1]; [rewrite cat_nil in *; cbn in *; lia|].
  rewrite cat_cons, length_app in *. lia.
Qed.

(** * Release *)

Section proofs.
Context {W : Type} {P : Pools W}.

Definition exts (m : list mbuf) : list Z := omap m_ext m.

(** The DPDK packets of a chain are live and distinct. *)
Definition owned (s : st W) (m : list mbuf) : Prop :=
  NoDup (exts m) /\ forall x, x ∈ exts m -> is_Some (s_heap s !! x).

Definition same_but_heap (s s' : st W) : Prop :=
  s_env s' = s_env s /\ s_next s' = s_next s /\ s_stack s' = s_stack s /\ s_tx s' = s_tx s.

Lemma m_freem_spec m : forall s, owned s m ->
  exists s', m_freem s m = Done s' /\ same_but_heap s s'
    /\ (forall k, k ∈ exts m -> s_heap s' !! k = None)
    /\ (forall k, k ∉ exts m -> s_heap s' !! k = s_heap s !! k).
Proof.
  induction m as [|mb m IH]; intros s [Hn Ho]; cbn in *.
  - exists s. split_and!; try done. intros k []%not_elem_of_nil.
  - destruct (m_ext mb) as [x|] eqn:Ex; cbn in *.
    + apply NoDup_cons in Hn as [Hx Hn]. destruct (Ho x) as [r Hr]; [by left|].
      unfold dpdk_ff_freef, rte_pktmbuf_free. rewrite Hr. cbn.
      destruct (IH (with_heap s (delete x (s_heap s)))) as (s' & -> & (?&?&?&?) & H1 & H2).
      { split; [done|]. intros z Hz. cbn. rewrite lookup_delete_ne by (by intros ->). apply Ho. by right. }
      cbn in *. exists s'. split_and!; [done..| |].
      * intros k [->|?]%elem_of_cons; [|by apply H1]. rewrite H2 by done. apply lookup_delete_eq.
      * intros k [? ?]%not_elem_of_cons. rewrite H2 by done. by apply lookup_delete_ne.
    + destruct (IH s) as (s' & ? & ?); [done|]. by exists s'.
Qed.

(** A packet whose header length is the length of its data, below 2^31, with
    its DPDK packets live. *)
Definition wf (s : st W) (m : packet) : Prop :=
  m_pkthdr_len m = Z.of_nat (length (bytes m)) /\ m_pkthdr_len m < 2 ^ 31 /\ owned s (m_chain m).

(** Pointers at or past [s_next] are not in use. *)
Definition fresh (s : st W) : Prop := forall k, s_next s <= k -> s_heap s !! k = None.

Definition seg_ok (d : list Z) : Prop := (1 <= length d <= 2048)%nat.

(** An allocation is refused at some point. *)
Definition rte_fails : Prop := exists w : W, (pool_rte w).1 = false.
Definition get_fails : Prop := exists w : W, (pool_get w).1 = false.

(** The packet [m] and the DPDK packet [h] are freed, and nothing else. *)
Definition released (s s' : st W) (m : packet) (h : Z) : Prop :=
  s_next s' = s_next s /\ s_stack s' = s_stack s /\ s_tx s' = s_tx s
  /\ (forall k, k ∈ exts (m_chain m) \/ k = h -> s_heap s' !! k = None)
  /\ (forall k, k ∉ exts (m_chain m) -> k <> h -> s_heap s' !! k = s_heap s !! k).

Lemma release_spec s w m h :
  owned s (m_chain m) -> h ∉ exts (m_chain m) -> is_Some (s_heap s !! h) ->
  exists s', (s2 ← ff_mbuf_free (with_env s w) m; s3 ← rte_pktmbuf_free s2 h; Done (None : option (list (list Z)), s3)) = Done (None, s')
    /\ released s s' m h.
Proof.
  intros Ho Hh [r Hr]. unfold ff_mbuf_free.
  destruct (m_freem_spec (m_chain m) (with_env s w) Ho) as (s2 & -> & (_ & E2 & E3 & E4) & H1 & H2).
  cbn in *. unfold rte_pktmbuf_free. rewrite H2, Hr by done. cbn. eexists. split; [done|]. split_and!; [done..| |]; cbn.
  - intros k [Hk| ->]; [|apply lookup_delete_eq]. destruct (decide (k = h)) as [->|]; [done|].
    rewrite lookup_delete_ne by done. by apply H1.
  - intros k Hk Hne. by rewrite lookup_delete_ne, H2 by done.
Qed.

Lemma fill_loop_spec m h fuel : forall s segs off left,
  (Z.to_nat left <= fuel)%nat -> 0 <= off -> 0 <= left -> off + left <= Z.of_nat (length (bytes m)) ->
  off + left <= m_pkthdr_len m ->
  owned s (m_chain m) -> h ∉ exts (m_chain m) -> is_Some (s_heap s !! h) ->
  (exists segs' w, fill_loop fuel s m h segs off left = Done (Some (segs ++ segs'), with_env s w)
    /\ concat segs' = take (Z.to_nat left) (drop (Z.to_nat off) (bytes m)) /\ Forall seg_ok segs') \/
  (rte_fails /\ exists s', fill_loop fuel s m h segs off left = Done (None, s') /\ released s s' m h).
Proof.
  induction fuel as [|n IH]; intros s segs off left Hf Ho Hl Hb Hm Hown Hnh Hh; cbn [fill_loop].
  all: destruct (Z.gtb_spec left 0); [|left; exists [], (s_env s); rewrite app_nil_r; destruct s;
    assert (left = 0) as -> by lia; done].
  { lia. }
  set (len := if left >? RTE_MBUF_DEFAULT_DATAROOM then _ else _).
  assert (Hlen : 0 < len <= left /\ len <= 2048).
  { unfold len, RTE_MBUF_DEFAULT_DATAROOM. destruct (Z.gtb_spec left 2048); lia. }
  unfold ff_mbuf_copydata. destruct (Z.gtb_spec (off + len) (m_pkthdr_len m)); [lia|].
  rewrite m_copydata_spec by (fold (bytes m) in *; unfold bytes in *; unfold cat; lia).
  cbn. set (d := take _ _).
  assert (Hd : length d = Z.to_nat len).
  { unfold d. rewrite length_take, length_drop. unfold bytes in Hb. unfold cat. lia. }
  assert (Hrec : forall w,
    (exists segs' w', fill_loop n (with_env s w) m h (segs ++ [d]) (off + len) (left - len) = Done (Some (segs ++ segs'), with_env s w')
      /\ concat segs' = take (Z.to_nat left) (drop (Z.to_nat off) (bytes m)) /\ Forall seg_ok segs') \/
    (rte_fails /\ exists s', fill_loop n (with_env s w) m h (segs ++ [d]) (off + len) (left - len) = Done (None, s') /\ released s s' m h)).
  { intros w. destruct (IH (with_env s w) (segs ++ [d]) (off + len) (left - len)) as [(segs' & w' & -> & Hc & Hs)|(Hr & s' & -> & Hs)]; [lia..|done|done|done| |].
    - left. exists (d :: segs'), w'. rewrite <- app_assoc. split; [done|]. split.
      + cbn. rewrite Hc. unfold d. change (cat (m_chain m)) with (bytes m).
        replace (Z.to_nat (off + len)) with (Z.to_nat off + Z.to_nat len)%nat by lia.
        rewrite <- drop_drop. replace (Z.to_nat left) with (Z.to_nat len + Z.to_nat (left - len))%nat by lia.
        by rewrite take_take_drop.
      + constructor; [|done]. unfold seg_ok. lia.
    - right. split; [done|]. by exists s'. }
  destruct (left - len >? 0); [|specialize (Hrec (s_env s)); by destruct s].
  unfold alloc_seg. destruct (pool_rte (s_env s)) as [[] w] eqn:Ep; [apply Hrec|]. right.
  split; [exists (s_env s); by rewrite Ep|]. by apply release_spec.
Qed.

#[local] Arguments fill_loop : simpl never.

(** The new packet of [dpdk_ff_to_mbuf], and what is left of the old one; when
    the pool refuses the first segment, the old packet is not freed. *)
Lemma dpdk_ff_to_mbuf_spec s m :
  wf s m -> fresh s ->
  exists o s', dpdk_ff_to_mbuf s m = Done (o, s') /\ s_stack s' = s_stack s /\ s_tx s' = s_tx s
    /\ match o with
       | Some n => n = s_next s /\ s_next s' = s_next s + 1 /\ exists segs,
           s_heap s' !! n = Some (Rte segs (m_pkthdr_len m) (Z.of_nat (length segs)))
           /\ concat segs = bytes m /\ Forall seg_ok segs
           /\ (forall k, k ∈ exts (m_chain m) -> s_heap s' !! k = None)
           /\ (forall k, k ∉ exts (m_chain m) -> k <> s_next s -> s_heap s' !! k = s_heap s !! k)
       | None => ((pool_rte (s_env s)).1 = false /\ s_heap s' = s_heap s) \/
           (rte_fails /\ (forall k, k ∈ exts (m_chain m) -> s_heap s' !! k = None)
            /\ (forall k, k ∉ exts (m_chain m) -> s_heap s' !! k = s_heap s !! k))
       end.
Proof.
  intros (Hlen & Hlt & Hn & Ho) Hfr. unfold dpdk_ff_to_mbuf, rte_pktmbuf_alloc, alloc_seg.
  destruct (pool_rte (s_env s)) as [[] w]; cbn [fst]; [|eexists _, _; split; [done|]; auto]. cbn.
  unfold ff_mbuf_get_total_length. rewrite wrapu_small by lia.
  set (s1 := St _ _ _ _ _).
  assert (Hnx : s_next s ∉ exts (m_chain m)).
  { intros Hin. destruct (Ho _ Hin) as [r Hr]. rewrite Hfr in Hr; [done|lia]. }
  destruct (fill_loop_spec m (s_next s) (S (Z.to_nat (m_pkthdr_len m))) s1 [] 0 (m_pkthdr_len m))
    as [(segs & w' & -> & Hc & Hs)|(Hr & s' & -> & (E1 & E2 & E3 & H1 & H2))]; [lia..| |done|by eexists; apply lookup_insert_eq| |].
  { split; [done|]. intros x Hx. cbn. rewrite lookup_insert_ne; [by apply Ho|]. intros E. by rewrite E in Hnx. }
  - cbn. rewrite drop_0, take_ge in Hc by lia. set (s3 := with_heap _ _).
    assert (Hh3 : forall k, k <> s_next s -> s_heap s3 !! k = s_heap s !! k).
    { intros k Hk. cbn. by rewrite !lookup_insert_ne. }
    unfold ff_mbuf_free. destruct (m_freem_spec (m_chain m) s3) as (s' & -> & (_&E2&E3&E4) & H1 & H2).
    { split; [done|]. intros x Hx. rewrite Hh3; [by apply Ho|]. by intros ->. }
    cbn. exists (Some (s_next s)), s'. split_and!; try done. exists segs. split_and!; try done.
    + rewrite H2 by done. apply lookup_insert_eq.
    + intros k Hk Hne. rewrite H2, Hh3 by done. done.
  - exists None, s'. split_and!; try done. right. split_and!; [done|auto|]. intros k Hk.
    destruct (decide (k = s_next s)) as [->|Hne]; [rewrite H1 by auto; symmetry; apply Hfr; lia|].
    rewrite H2 by done. cbn. by rewrite lookup_insert_ne.
Qed.

(** The copy of a stack packet into a DPDK packet is complete: with memory
    in the pool, dpdk_ff_to_mbuf returns a packet whose segments, each of 1 to
    2048 bytes, are the bytes of the stack packet in order, whose pkt_len and
    nb_segs are right, and frees the stack packet, with the DPDK packets it was
    built on, exactly once and nothing else. *)
Theorem dpdk_ff_to_mbuf_copies s m :
  (forall w : W, (pool_rte w).1 = true) -> wf s m -> fresh s ->
  exists s' segs, dpdk_ff_to_mbuf s m = Done (Some (s_next s), s')
    /\ s_heap s' !! s_next s = Some (Rte segs (m_pkthdr_len m) (Z.of_nat (length segs)))
    /\ concat segs = bytes m /\ Forall seg_ok segs
    /\ (forall k, k ∈ exts (m_chain m) -> s_heap s' !! k = None)
    /\ (forall k, k ∉ exts (m_chain m) -> k <> s_next s -> s_heap s' !! k = s_heap s !! k).
Proof.
  intros Hok Hw Hf. destruct (dpdk_ff_to_mbuf_spec s m Hw Hf) as ([n|] & s' & E & _ & _ & H).
  - destruct H as (-> & _ & segs & H). by exists s', segs.
  - destruct H as [[H _]|[[w H] _]]; by rewrite Hok in H.
Qed.

(** * Receive *)

(** The loop with a header mbuf: every segment is chained, or an mbuf is
    refused and the packet freed twice. *)
Lemma chain_loop_spec h segs : forall s p,
  exts (m_chain p) = [h] -> is_Some (s_heap s !! h) ->
  (exists w, chain_loop s h (Some p) segs
    = Done (Some (Packet (m_pkthdr_len p) (m_chain p ++ ((fun d => Mbuf d None) <$> segs))), with_env s w)) \/
  (get_fails /\ segs <> [] /\ chain_loop s h (Some p) segs = Fault).
Proof.
  induction segs as [|d segs IH]; intros s p Hx Hh; cbn.
  - left. exists (s_env s). rewrite app_nil_r. by destruct s, p.
  - unfold ff_mbuf_get. destruct (pool_get (s_env s)) as [[] w] eqn:Eg.
    + destruct (IH (with_env s w) (Packet (m_pkthdr_len p) (m_chain p ++ [Mbuf d None]))) as [(w' & ->)|(? & ? & ->)]; [|done| |].
      * cbn. unfold exts in *. by rewrite omap_app, Hx.
      * left. exists w'. cbn. by rewrite <- app_assoc.
      * by right.
    + right. split; [exists (s_env s); by rewrite Eg|]. split; [done|].
      assert (owned (with_env s w) (m_chain p)) as Ho.
      { split; [rewrite Hx; apply NoDup_singleton|]. rewrite Hx. by intros x ->%list_elem_of_singleton. }
      unfold ff_mbuf_free. destruct (m_freem_spec _ _ Ho) as (s2 & -> & _ & H1 & _). cbn. unfold rte_pktmbuf_free.
      rewrite H1; [done|]. rewrite Hx. by apply list_elem_of_singleton.
Qed.

(** The loop without one: the frame is left as it is, or freed. *)
Lemma chain_loop_none h segs : forall s,
  is_Some (s_heap s !! h) ->
  exists s', chain_loop s h None segs = Done (None, s') /\ (s_heap s' = s_heap s \/ s_heap s' = delete h (s_heap s)).
Proof.
  induction segs as [|d segs IH]; intros s [r Hr]; cbn; [by eexists; auto|].
  unfold ff_mbuf_get. destruct (pool_get (s_env s)) as [[] w].
  - destruct (IH (with_env s w)) as (s' & -> & H); [by eexists|]. by exists s'.
  - unfold rte_pktmbuf_free. cbn. rewrite Hr. eexists. split; [done|]. by right.
Qed.

(** The stack packet of a DPDK packet: the same segments, the first one with
    the free function. *)
Definition view (h : Z) (r : rte_mbuf) : packet :=
  Packet (u16 (r_pkt_len r))
    (match r_segs r with [] => [] | d :: rest => Mbuf d (Some h) :: ((fun d => Mbuf d None) <$> rest) end).

Lemma dpdk_mbuf_to_ff_spec s h r :
  s_heap s !! h = Some r -> r_segs r <> [] ->
  match dpdk_mbuf_to_ff s h with
  | Done (Some p, s1) => p = view h r /\ exists w, s1 = with_env s w
  | Done (None, s1) => (pool_hdr (s_env s)).1 = false /\ (s_heap s1 = s_heap s \/ s_heap s1 = delete h (s_heap s))
  | Fault => get_fails /\ (2 <= length (r_segs r))%nat
  | Loop => False
  end.
Proof.
  intros Hh Hne. unfold dpdk_mbuf_to_ff, view. rewrite Hh. destruct (r_segs r) as [|d rest] eqn:Es; [done|].
  unfold ff_mbuf_gethdr. destruct (pool_hdr (s_env s)) as [[] w] eqn:Ep.
  - destruct (chain_loop_spec h rest (with_env s w) (Packet (u16 (r_pkt_len r)) [Mbuf d (Some h)])) as [(w' & ->)|(Hg & Hr & ->)];
      [done|by eexists|by split; [|exists w']|]. split; [done|]. destruct rest; [done|cbn; lia].
  - destruct (chain_loop_none h rest (with_env s w)) as (s' & -> & H); [by eexists|]. done.
Qed.

Lemma bytes_view h r : bytes (view h r) = concat (r_segs r).
Proof.
  unfold bytes, view. destruct (r_segs r) as [|d rest]; [done|]. cbn. f_equal. f_equal.
  rewrite <- list_fmap_compose. apply list_fmap_id.
Qed.

Lemma exts_view h r : r_segs r <> [] -> exts (m_chain (view h r)) = [h].
Proof.
  unfold view, exts. destruct (r_segs r) as [|d rest]; [done|]. intros _. cbn. f_equal.
  induction rest; [done|]. done.
Qed.


(** device_run gives every frame of the burst to the stack, once, in order
    and with its bytes, and frees none of them, when no mbuf is refused. *)
Theorem device_run_delivers bufs : (forall w : W, (pool_hdr w).1 = true) -> (forall w : W, (pool_get w).1 = true) -> forall s,
  (forall b, b ∈ bufs -> exists r, s_heap s !! b = Some r /\ r_segs r <> []) ->
  exists s', device_run s bufs = Done s'
    /\ s_heap s' = s_heap s /\ s_tx s' = s_tx s
    /\ exists ps, s_stack s' = s_stack s ++ ps
         /\ Forall2 (fun b p => exists r, s_heap s !! b = Some r /\ bytes p = concat (r_segs r)
                                        /\ exts (m_chain p) = [b]) bufs ps.
Proof.
  intros Hhdr Hget. induction bufs as [|b bufs IH]; intros s Hb; cbn.
  - exists s. split_and!; try done. exists []. by rewrite app_nil_r.
  - destruct (Hb b) as (r & Hr & Hne); [by left|].
    unfold device_on_recv. pose proof (dpdk_mbuf_to_ff_spec s b r Hr Hne) as Hrx.
    destruct (dpdk_mbuf_to_ff s b) as [[[p|] s0]| |]; [|by destruct Hrx as [Hp _]; rewrite Hhdr in Hp|by destruct Hrx as [[w Hp] _]; rewrite Hget in Hp|done].
    destruct Hrx as [-> [w ->]]. cbn. set (s1 := St _ _ _ _ _).
    destruct (IH s1) as (s' & -> & Hh & Ht & ps & Hs & Hf).
    { intros b' Hb'. apply Hb. by right. }
    exists s'. cbn in *. split_and!; [done..|]. exists (view b r :: ps).
    rewrite Hs, <- app_assoc. split; [done|]. constructor; [|done].
    exists r. by rewrite bytes_view, exts_view.
Qed.

(** When memory for the second mbuf of a multi-segment frame is missing,
    dpdk_mbuf_to_ff frees the frame twice: the header mbuf's free function
    (dpdk_ff_freef) already releases the DPDK packet that rte_pktmbuf_free then
    releases again. *)
Theorem dpdk_mbuf_to_ff_double_free s h r :
  s_heap s !! h = Some r -> (2 <= length (r_segs r))%nat ->
  (pool_hdr (s_env s)).1 = true -> (pool_get (pool_hdr (s_env s)).2).1 = false ->
  dpdk_mbuf_to_ff s h = Fault.
Proof.
  intros Hh Hl H1 H2. unfold dpdk_mbuf_to_ff. rewrite Hh.
  destruct (r_segs r) as [|d [|d2 rest]]; cbn in Hl; [lia..|].
  unfold ff_mbuf_gethdr. destruct (pool_hdr (s_env s)) as [b w] eqn:E1. cbn in *. subst b. cbn.
  unfold ff_mbuf_get. cbn. destruct (pool_get w) as [b2 w2] eqn:E2. cbn in *. subst b2. cbn.
  unfold ff_mbuf_free, m_freem, dpdk_ff_freef, rte_pktmbuf_free. cbn. rewrite Hh. cbn.
  by rewrite lookup_delete_eq.
Qed.
End proofs.

(** * Concrete runs *)

(** Pools that never run out, and pools with scripted answers. *)
Definition plenty : Pools unit :=
  {| pool_rte w := (true, w); pool_hdr w := (true, w); pool_get w := (true, w) |}.

Definition answer (l : list bool) : bool * list bool := match l with [] => (true, []) | b :: r => (b, r) end.
Definition scripted : Pools (list bool) :=
  {| pool_rte := answer; pool_hdr := answer; pool_get := answer |}.

(** A frame of two segments, 3 bytes in all, at pointer 7. *)
Definition ex_rte : rte_mbuf := Rte [[1; 2]; [3]] 3 2.
Definition ex_st {W} (w : W) : st W := St w 8 {[7 := ex_rte]} [] [].

Lemma ex_fresh {W} (w : W) : fresh (ex_st w).
Proof. intros k Hk. cbn in *. apply lookup_singleton_ne. lia. Qed.

Lemma ex_wf : wf (ex_st tt) (Packet 3 [Mbuf [1; 2] (Some 7); Mbuf [3] None]).
Proof.
  split_and!; [done|done|split; [apply NoDup_singleton|]].
  intros x ->%list_elem_of_singleton. by eexists.
Qed.

Lemma dpdk_ff_to_mbuf_copies_witness :
  exists s' segs,
    dpdk_ff_to_mbuf (P := plenty) (ex_st tt) (Packet 3 [Mbuf [1; 2] (Some 7); Mbuf [3] None]) = Done (Some 8, s')
    /\ s_heap s' !! 8 = Some (Rte segs 3 (Z.of_nat (length segs))) /\ concat segs = [1; 2; 3].
Proof.
  destruct (dpdk_ff_to_mbuf_copies (P := plenty) (ex_st tt)
              (Packet 3 [Mbuf [1; 2] (Some 7); Mbuf [3] None]) (fun _ => eq_refl) ex_wf (ex_fresh tt))
    as (s' & segs & H1 & H2 & H3 & _).
  exists s', segs. split; [exact H1|]. split; [exact H2|exact H3].
Defined.


Lemma device_run_delivers_witness :
  exists s', device_run (P := plenty) (ex_st tt) [7] = Done s' /\ s_heap s' = s_heap (ex_st tt).
Proof.
  destruct (device_run_delivers (P := plenty) [7] (fun _ => eq_refl) (fun _ => eq_refl) (ex_st tt))
    as (s' & H1 & H2 & _).
  - intros b ->%list_elem_of_singleton. exists ex_rte. split; [reflexivity|discriminate].
  - exists s'. split; [exact H1|exact H2].
Defined.

Lemma dpdk_mbuf_to_ff_double_free_witness :
  dpdk_mbuf_to_ff (P := scripted) (ex_st [true; false]) 7 = Fault.
Proof.
  apply (dpdk_mbuf_to_ff_double_free (P := scripted) (ex_st [true; false]) 7 ex_rte);
    [reflexivity|cbn; lia|reflexivity|reflexivity].
Defined.
