(* ===== verification/Netio.v ===== *)
(** The event loop of the application: src/example/fstack0/netio.c, event.c,
    module.c and module_http.c.

    The sockets live in a table under their pointers; a pointer that is not in
    the table is freed memory, and using it is [Fault].  The stack calls
    (class [Stack] of SockBuf, and epoll here) and the vendored HTTP parser are
    parameters: the parser's answer to a piece of input is the number of
    complete messages in it and its new state.  The sockets share the stack:
    [load] gives a socket the current one and [store] takes it back. *)
From stdpp Require Import base list gmap strings.
From Stdlib Require Import ZArith Lia Ascii.
From S2P Require Import Prelude AbiTables SockBuf Epoll.

Local Open Scope Z_scope.

Definition EPOLLRDHUP : Z := 0x2000.
Definition READ_BUFFER_SIZE : Z := 8192.
Definition EVENT_SUCCESS : Z := 0.
Definition EVENT_ERROR : Z := -1.

(** The rest of the environment: epoll on the application's instance, the
    bytes that the last read stored, the HTTP parser. *)
Class Env (W H : Type) := {
  en_ctl : Z -> Z -> epoll_event -> W -> Z * W;     (* op, fd, event *)
  en_rbuf : W -> list Z;                            (* app->ff_read_buffer *)
  hp_init : H;                                      (* http_parser_init *)
  hp_execute : H -> list Z -> nat * H
}.

Record app (W H : Type) := App {
  ap_world : W;
  ap_socks : gmap Z (sock W);
  ap_mods : gmap Z (list H)       (* s->mods, from the bottom *)
}.
Arguments App {W H}.
Arguments ap_world {W H}.
Arguments ap_socks {W H}.
Arguments ap_mods {W H}.

(** The bytes of a literal of the source. *)
Definition literal (s : string) : list Z := (fun c => Z.of_N (N_of_ascii c)) <$> String.list_ascii_of_string s.

Definition CRLF : string := String "013" (String "010" EmptyString).

Definition HTTP_GET_EXAMPLE : list Z :=
  literal ("GET / HTTP/1.1" ++ CRLF ++ "Host: 192.168.100.9" ++ CRLF
    ++ "User-Agent: Mozilla/5.0 (Windows NT 10.0; Win64; x64) AppleWebKit/537.36 (KHTML, like Gecko) Chrome/76.0.3809.100 Safari/537.36"
    ++ CRLF ++ CRLF).

Section netio.
Context {W H : Type} {St : Stack W} {En : Env W H}.

Definition load (a : app W H) (p : Z) : outcome (sock W) :=
  match ap_socks a !! p with Some s => Done (with_world s (ap_world a)) | None => Fault end.

Definition store (a : app W H) (p : Z) (s : sock W) : app W H :=
  App (s_world s) (<[p := s]> (ap_socks a)) (ap_mods a).

(** socket_close of the socket at [p]: the memory is freed. *)
Definition drop_sock (a : app W H) (p : Z) (s : sock W) : app W H :=
  App (socket_close s) (delete p (ap_socks a)) (ap_mods a).

(** * event.c *)

Definition event_ctl (a : app W H) (op fd : Z) (ev : epoll_event) : Z * app W H :=
  let '(r, w) := en_ctl op fd ev (ap_world a) in
  (if r =? -1 then EVENT_ERROR else EVENT_SUCCESS, App w (ap_socks a) (ap_mods a)).

Definition event_add (a : app W H) (fd p events : Z) : Z * app W H :=
  event_ctl a EPOLL_CTL_ADD fd (EpollEvent events p).
Definition event_mod (a : app W H) (fd p events : Z) : Z * app W H :=
  event_ctl a EPOLL_CTL_MOD fd (EpollEvent events p).
Definition event_del (a : app W H) (fd : Z) : Z * app W H :=
  event_ctl a EPOLL_CTL_DEL fd (EpollEvent 0 0).

(** * module.c and module_http.c *)

(** [module_cb_write] of the module at the bottom, which writes to the socket. *)
Definition module_cb_write (a : app W H) (p : Z) (buf : list Z) : outcome (app W H) :=
  s ← load a p;
  let '(s1, ret, _) := socket_write s buf (Z.of_nat (length buf)) 0 in
  let a1 := store a p s1 in
  Done (if ret =? SOCK_SUCCESS then (event_mod a1 (s_fd s1) p EPOLLIN).2
        else if ret =? SOCK_INPROCESS then (event_mod a1 (s_fd s1) p (Z.lor EPOLLIN EPOLLOUT)).2
        else a1).

Definition module_http_on_connected (a : app W H) (p : Z) : outcome (app W H) :=
  module_cb_write a p HTTP_GET_EXAMPLE.

(** [http_message_complete_cb], once per complete message. *)
Fixpoint on_messages (n : nat) (a : app W H) (p : Z) : outcome (app W H) :=
  match n with
  | O => Done a
  | S n => a1 ← module_cb_write a p HTTP_GET_EXAMPLE; on_messages n a1 p
  end.

(** The first module of the socket reads; the callbacks run during the parse. *)
Definition module_http_on_read (a : app W H) (p : Z) (h : H) (upper : list H) (buf : list Z)
  : outcome (app W H) :=
  let '(n, h1) := hp_execute h buf in
  on_messages n (App (ap_world a) (ap_socks a) (<[p := h1 :: upper]> (ap_mods a))) p.

Definition mods_read (a : app W H) (p : Z) (buf : list Z) : outcome (app W H) :=
  match ap_mods a !! p with
  | Some (h :: upper) => module_http_on_read a p h upper buf
  | _ => Done a
  end.

(** [list_for_each] over the modules: each turn resets the first one. *)
Fixpoint reset_loop (n : nat) (mods : list H) : list H :=
  match n, mods with
  | O, _ => mods
  | S n, h :: upper => reset_loop n (hp_init :: upper)
  | S n, [] => []
  end.

Definition mods_reset (a : app W H) (p : Z) : app W H :=
  let mods := default [] (ap_mods a !! p) in
  App (ap_world a) (ap_socks a) (<[p := reset_loop (length mods) mods]> (ap_mods a)).

(** * netio.c *)

Definition netio_on_connect_failed (a : app W H) (p : Z) : outcome (app W H) :=
  s ← load a p;
  let a1 := (event_del a (s_fd s)).2 in
  s1 ← load a1 p;
  Done (drop_sock a1 p s1).

Definition netio_on_connected (a : app W H) (p : Z) : outcome (app W H) :=
  s ← load a p;
  let a1 := store a p (with_stat s SOCKET_STAT_ESTABLISHED) in
  let a2 := (event_mod a1 (s_fd s) p EPOLLIN).2 in
  match ap_mods a2 !! p with
  | Some (_ :: _) => module_http_on_connected a2 p
  | _ => Done a2
  end.

(** socket_read into app->ff_read_buffer: the value, and the bytes if any. *)
Definition read_sock (a : app W H) (p : Z) : outcome (Z * list Z * app W H) :=
  s ← load a p;
  let '(s1, len) := socket_read s READ_BUFFER_SIZE in
  let a1 := store a p s1 in
  Done (len, take (Z.to_nat len) (en_rbuf (ap_world a1)), a1).

Definition netio_on_error (a : app W H) (p : Z) : outcome (app W H) :=
  s ← load a p;
  if s_stat s =? SOCKET_STAT_CONNECTING then netio_on_connect_failed a p
  else
    r ← read_sock a p;
    let '(len, buf, a1) := r in
    a2 ← (if len >? 0 then mods_read a1 p buf else Done a1);
    let a3 := mods_reset a2 p in
    s3 ← load a3 p;
    let a4 := (event_del a3 (s_fd s3)).2 in
    s4 ← load a4 p;
    let '(s5, ret) := socket_reconnect s4 in
    let a5 := store a4 p s5 in
    if ret =? SOCK_INPROCESS then Done (event_add a5 (s_fd s5) p EPOLLOUT).2
    else Done (drop_sock a5 p s5).

Definition netio_on_read (a : app W H) (p : Z) : outcome (app W H) :=
  r ← read_sock a p;
  let '(len, buf, a1) := r in
  if len >? 0 then mods_read a1 p buf else netio_on_error a1 p.

Definition netio_on_write (a : app W H) (p : Z) : outcome (app W H) :=
  s ← load a p;
  if s_stat s =? SOCKET_STAT_CONNECTING then netio_on_connected a p else Done a.

(** The body of the loop of [netio_poll]: [data.ptr] is the socket. *)
Definition netio_event (a : app W H) (ev : epoll_event) : outcome (app W H) :=
  let p := ev_data ev in
  if flag (ev_events ev) EPOLLHUP then netio_on_error a p
  else if flag (ev_events ev) EPOLLERR then netio_on_error a p
  else if flag (ev_events ev) EPOLLRDHUP then netio_on_error a p
  else
    a1 ← (if flag (ev_events ev) EPOLLIN then netio_on_read a p else Done a);
    if flag (ev_events ev) EPOLLOUT then netio_on_write a1 p else Done a1.

(** [netio_poll] on the events that event_wait returned. *)
Fixpoint netio_poll (a : app W H) (events : list epoll_event) : outcome (app W H) :=
  match events with
  | [] => Done a
  | ev :: rest => a1 ← netio_event a ev; netio_poll a1 rest
  end.

(** * Every handler uses live memory *)

Definition alive (a : app W H) (p : Z) : Prop := is_Some (ap_socks a !! p).

(** No other socket is touched. *)
Definition frame (p : Z) (a a' : app W H) : Prop :=
  forall q, q <> p -> ap_socks a' !! q = ap_socks a !! q.

Definition keeps (p : Z) (a a' : app W H) : Prop := alive a' p /\ frame p a a'.

#[global] Instance frame_preorder p : PreOrder (frame p).
Proof. split; [by intros a q|]. intros a b c H1 H2 q Hq. by rewrite H2, H1. Qed.

Lemma load_alive a p : alive a p -> exists s, load a p = Done s.
Proof. intros [s Hs]. unfold load. rewrite Hs. eauto. Qed.

Lemma event_ctl_socks a op fd ev : ap_socks (event_ctl a op fd ev).2 = ap_socks a.
Proof. unfold event_ctl. by destruct (en_ctl _ _ _ _). Qed.

Lemma event_ctl_mods a op fd ev : ap_mods (event_ctl a op fd ev).2 = ap_mods a.
Proof. unfold event_ctl. by destruct (en_ctl _ _ _ _). Qed.

Lemma store_keeps a p s : keeps p a (store a p s).
Proof. split; [eexists; apply lookup_insert_eq|]. intros q Hq. cbn. by rewrite lookup_insert_ne. Qed.

Lemma keeps_socks p a a' a'' : keeps p a a' -> ap_socks a'' = ap_socks a' -> keeps p a a''.
Proof. intros [Ha Hf] He. split; [unfold alive|intros q Hq]; rewrite He; [done|by apply Hf]. Qed.

Lemma keeps_trans p a a' a'' : keeps p a a' -> keeps p a' a'' -> keeps p a a''.
Proof. intros [_ ?] [? ?]. split; [done|]. by etrans. Qed.

Lemma module_cb_write_keeps a p buf : alive a p -> exists a', module_cb_write a p buf = Done a' /\ keeps p a a'.
Proof.
  intros Hp. unfold module_cb_write. destruct (load_alive a p Hp) as [s ->]. cbn.
  destruct (socket_write _ _ _ _) as [[s1 ret] n]. pose proof (store_keeps a p s1) as Hk.
  eexists. split; [done|]. destruct (ret =? _); [|destruct (ret =? _)]; [| |done];
    (eapply keeps_socks; [exact Hk|apply event_ctl_socks]).
Qed.

Lemma on_messages_keeps n p : forall a, alive a p -> exists a', on_messages n a p = Done a' /\ keeps p a a'.
Proof.
  induction n as [|n IH]; intros a Hp; cbn; [exists a; split; [done|]; by split|].
  destruct (module_cb_write_keeps a p HTTP_GET_EXAMPLE Hp) as (a1 & -> & Hk). cbn.
  destruct (IH a1) as (a2 & -> & Hk2); [apply Hk|]. exists a2. split; [done|]. by eapply keeps_trans.
Qed.

Lemma mods_read_keeps a p buf : alive a p -> exists a', mods_read a p buf = Done a' /\ keeps p a a'.
Proof.
  intros Hp. unfold mods_read. destruct (ap_mods a !! p) as [[|h upper]|]; [by exists a| |by exists a].
  unfold module_http_on_read. destruct (hp_execute h buf) as [n h1].
  set (a1 := App _ _ _). destruct (on_messages_keeps n p a1) as (a2 & ? & ?); [done|]. by exists a2.
Qed.

Lemma read_sock_keeps a p :
  alive a p -> exists len buf a', read_sock a p = Done (len, buf, a') /\ keeps p a a'.
Proof.
  intros Hp. unfold read_sock. destruct (load_alive a p Hp) as [s ->]. cbn.
  eexists _, _, _. split; [done|]. apply store_keeps.
Qed.

Lemma drop_sock_frame a p s : frame p a (drop_sock a p s).
Proof. intros q Hq. cbn. by rewrite lookup_delete_ne. Qed.

Lemma netio_on_connect_failed_frame a p :
  alive a p -> exists a', netio_on_connect_failed a p = Done a' /\ frame p a a'.
Proof.
  intros Hp. unfold netio_on_connect_failed, event_del. destruct (load_alive a p Hp) as [s ->]. cbn.
  set (a1 := (event_ctl a _ _ _).2). assert (Hs : ap_socks a1 = ap_socks a) by apply event_ctl_socks.
  destruct (load_alive a1 p) as [s1 ->]; [unfold alive; by rewrite Hs|]. cbn.
  eexists. split; [done|]. intros q Hq. rewrite drop_sock_frame by done. by rewrite Hs.
Qed.

Lemma netio_on_error_frame a p : alive a p -> exists a', netio_on_error a p = Done a' /\ frame p a a'.
Proof.
  intros Hp. unfold netio_on_error, event_del. destruct (load_alive a p Hp) as [s ->]. cbn.
  destruct (_ =? _); [by apply netio_on_connect_failed_frame|].
  destruct (read_sock_keeps a p Hp) as (len & buf & a1 & -> & Hk1). cbn.
  assert (exists a2, (if len >? 0 then mods_read a1 p buf else Done a1) = Done a2 /\ keeps p a1 a2)
    as (a2 & -> & Hk2).
  { destruct (len >? 0); [apply mods_read_keeps, Hk1|]. exists a1. split; [done|]. split; [apply Hk1|done]. }
  cbn. set (a3 := mods_reset a2 p). assert (Hs3 : ap_socks a3 = ap_socks a2) by done.
  assert (Hk3 : keeps p a a3) by (eapply keeps_socks; [by eapply keeps_trans|done]).
  destruct (load_alive a3 p) as [s3 ->]; [apply Hk3|]. cbn.
  set (a4 := (event_ctl a3 _ _ _).2). assert (Hs4 : ap_socks a4 = ap_socks a3) by apply event_ctl_socks.
  assert (Hk4 : keeps p a a4) by by eapply keeps_socks.
  destruct (load_alive a4 p) as [s4 ->]; [apply Hk4|]. cbn.
  destruct (socket_reconnect s4) as [s5 ret]. pose proof (store_keeps a4 p s5) as Hk5.
  destruct (ret =? _); eexists; (split; [done|]).
  - intros q Hq. unfold event_add. rewrite event_ctl_socks. etrans; [by apply Hk5|by apply Hk4].
  - etrans; [apply Hk4|]. etrans; [apply Hk5|]. apply drop_sock_frame.
Qed.

Lemma netio_on_read_frame a p : alive a p -> exists a', netio_on_read a p = Done a' /\ frame p a a'.
Proof.
  intros Hp. unfold netio_on_read. destruct (read_sock_keeps a p Hp) as (len & buf & a1 & -> & Hk). cbn.
  destruct (len >? 0).
  - destruct (mods_read_keeps a1 p buf) as (a2 & -> & Hk2); [apply Hk|]. exists a2. split; [done|].
    etrans; [apply Hk|apply Hk2].
  - destruct (netio_on_error_frame a1 p) as (a2 & -> & Hf2); [apply Hk|]. exists a2. split; [done|].
    etrans; [apply Hk|done].
Qed.

Lemma netio_on_connected_keeps a p : alive a p -> exists a', netio_on_connected a p = Done a' /\ keeps p a a'.
Proof.
  intros Hp. unfold netio_on_connected, event_mod. destruct (load_alive a p Hp) as [s ->]. cbn.
  set (a1 := store a p _). set (a2 := (event_ctl a1 _ _ _).2).
  assert (Hk2 : keeps p a a2) by (eapply keeps_socks; [apply store_keeps|apply event_ctl_socks]).
  destruct (ap_mods a2 !! p) as [[|h u]|]; [by exists a2| |by exists a2].
  destruct (module_cb_write_keeps a2 p HTTP_GET_EXAMPLE) as (a3 & Hw & Hk3); [apply Hk2|].
  exists a3. split; [exact Hw|]. by eapply keeps_trans.
Qed.

Lemma netio_on_write_frame a p : alive a p -> exists a', netio_on_write a p = Done a' /\ frame p a a'.
Proof.
  intros Hp. unfold netio_on_write. destruct (load_alive a p Hp) as [s ->]. cbn.
  destruct (_ =? _); [|by exists a]. destruct (netio_on_connected_keeps a p Hp) as (a' & ? & _ & ?). by exists a'.
Qed.

(** A mask that ff_event_to_epoll makes never asks for both directions, unless
    it also reports an error or a hangup. *)
Lemma epoll_mask_one_dir kev :
  flag (epoll_mask kev) EPOLLHUP = false -> flag (epoll_mask kev) EPOLLERR = false ->
  flag (epoll_mask kev) EPOLLIN = true -> flag (epoll_mask kev) EPOLLOUT = true -> False.
Proof.
  unfold epoll_mask.
  destruct (Kqueue.filter kev =? Kqueue.EVFILT_READ), (Kqueue.filter kev =? Kqueue.EVFILT_WRITE),
    (ctrue (Kqueue.data kev) || negb (flag (Kqueue.flags kev) Kqueue.EV_EOF)),
    (flag (Kqueue.flags kev) Kqueue.EV_ERROR), (flag (Kqueue.flags kev) Kqueue.EV_EOF), (ctrue (Kqueue.fflags kev));
    vm_compute; congruence.
Qed.

Definition from_kqueue (ev : epoll_event) : Prop := exists kev, ev_events ev = epoll_mask kev.

Lemma netio_event_frame a ev :
  from_kqueue ev -> alive a (ev_data ev) ->
  exists a', netio_event a ev = Done a' /\ frame (ev_data ev) a a'.
Proof.
  intros [kev Hk] Hp. unfold netio_event. rewrite Hk.
  destruct (flag _ EPOLLHUP) eqn:E1; [by apply netio_on_error_frame|].
  destruct (flag _ EPOLLERR) eqn:E2; [by apply netio_on_error_frame|].
  destruct (flag _ EPOLLRDHUP) eqn:E3; [by apply netio_on_error_frame|].
  pose proof (epoll_mask_one_dir kev E1 E2) as Hone.
  destruct (flag _ EPOLLIN) eqn:E4, (flag _ EPOLLOUT) eqn:E5; [by exfalso; apply Hone| | |by exists a].
  - destruct (netio_on_read_frame a _ Hp) as (a1 & -> & ?). by exists a1.
  - by apply netio_on_write_frame.
Qed.

(** C30. A batch of events that names each open socket at most once is handled
    without touching freed memory, whatever the stack answers, and no socket
    but those of the batch is changed. *)
Theorem netio_poll_safe events : forall a,
  NoDup (ev_data <$> events) -> Forall from_kqueue events ->
  Forall (fun ev => is_Some (ap_socks a !! ev_data ev)) events ->
  exists a', netio_poll a events = Done a'
    /\ forall q, q ∉ ev_data <$> events -> ap_socks a' !! q = ap_socks a !! q.
Proof.
  induction events as [|ev events IH]; intros a Hn Hk Ha; cbn; [by exists a|].
  cbn in Hn. apply NoDup_cons in Hn as [Hni Hn]. apply Forall_cons in Hk as [Hk Hks].
  apply Forall_cons in Ha as [Ha Has].
  destruct (netio_event_frame a ev Hk Ha) as (a1 & -> & Hf). cbn.
  destruct (IH a1) as (a2 & -> & Hf2); [done..| |].
  - rewrite Forall_forall in *. intros ev' Hev'. rewrite Hf; [by apply Has|].
    intros He. apply Hni. rewrite <- He. apply list_elem_of_fmap. eauto.
  - exists a2. split; [done|]. intros q [? ?]%not_elem_of_cons. rewrite Hf2 by done. by apply Hf.
Qed.

(** A socket that an event closed is used again by the next event of the
    batch that carries its pointer: the events fetched before the close are not
    dropped (event_del only stops later ones). *)
Theorem netio_poll_stale_event a a1 ev ev' rest :
  netio_event a ev = Done a1 -> ap_socks a1 !! ev_data ev = None ->
  ev_data ev' = ev_data ev -> flag (ev_events ev') (Z.lor EPOLLIN EPOLLOUT) = true ->
  netio_poll a (ev :: ev' :: rest) = Fault.
Proof.
  intros He Hd Hp Hm. cbn. rewrite He. cbn.
  assert (Hl : load a1 (ev_data ev') = Fault) by (unfold load; by rewrite Hp, Hd).
  assert (Hev : netio_event a1 ev' = Fault); [|by rewrite Hev].
  rewrite Kqueue.flag_lor in Hm. unfold netio_event, netio_on_error, netio_on_read, netio_on_write, read_sock.
  rewrite Hl. set (m := ev_events ev') in *.
  destruct (flag m EPOLLHUP), (flag m EPOLLERR), (flag m EPOLLRDHUP); try done.
  destruct (flag m EPOLLIN); [done|]. destruct (flag m EPOLLOUT); [cbn; by rewrite Hl|done].
Qed.

Lemma netio_event_out a p : netio_event a (EpollEvent EPOLLOUT p) = netio_on_write a p.
Proof. reflexivity. Qed.

(** Bytes that wait in an established socket are not sent when the socket
    becomes writable: any number of EPOLLOUT events leaves the whole state, the
    pool included, as it was. *)
Theorem netio_write_never_flushes a p s n :
  ap_socks a !! p = Some s -> s_stat s = SOCKET_STAT_ESTABLISHED ->
  netio_poll a (replicate n (EpollEvent EPOLLOUT p)) = Done a.
Proof.
  intros Hs He. induction n as [|n IH]; [done|]. cbn [netio_poll replicate]. rewrite netio_event_out.
  unfold netio_on_write, load. rewrite Hs. cbn. rewrite He. exact IH.
Qed.

(** A connection that completes (EPOLLOUT in state CONNECTING) becomes
    ESTABLISHED, and its stream of sent and waiting bytes grows by exactly the
    module's request, on a stack whose writes fail only for the moment. *)
Theorem netio_connected_sends a p s h mods :
  (forall fd bytes w, a_ret (st_write fd bytes w) <= Z.of_nat (length bytes)) ->
  (forall w : W, fst (sock_buf_open w) = true) -> soft_writes ->
  ap_socks a !! p = Some s -> s_stat s = SOCKET_STAT_CONNECTING -> Forall wf_buf (s_pool s) ->
  ap_mods a !! p = Some (h :: mods) ->
  exists a' s', netio_event a (EpollEvent EPOLLOUT p) = Done a'
    /\ ap_socks a' !! p = Some s' /\ s_stat s' = SOCKET_STAT_ESTABLISHED
    /\ stream s' = stream s ++ HTTP_GET_EXAMPLE.
Proof.
  intros Hwr Hal Hsoft Hs Hst Hwf Hm. rewrite netio_event_out.
  unfold netio_on_write, netio_on_connected, load. rewrite Hs. cbn -[event_mod]. rewrite Hst.
  cbn -[event_mod]. unfold event_mod. rewrite event_ctl_mods. cbn -[event_ctl]. rewrite Hm.
  unfold module_http_on_connected, module_cb_write, load, event_mod. rewrite event_ctl_socks.
  cbn -[event_ctl socket_write HTTP_GET_EXAMPLE]. rewrite lookup_insert_eq.
  cbn -[event_ctl socket_write HTTP_GET_EXAMPLE].
  set (s1 := with_world _ _).
  pose proof (socket_write_stat s1 HTTP_GET_EXAMPLE (Z.of_nat (length HTTP_GET_EXAMPLE)) 0) as Hst2.
  pose proof (socket_write_soft s1 HTTP_GET_EXAMPLE (Z.of_nat (length HTTP_GET_EXAMPLE)) 0 Hsoft) as Hret.
  pose proof (socket_write_spec Hwr s1 HTTP_GET_EXAMPLE 0 Hwf ltac:(by compute)) as Hsp.
  destruct (socket_write s1 _ _ _) as [[s2 ret] k]. cbn [fst snd] in *.
  assert (stream s2 = stream s1 ++ HTTP_GET_EXAMPLE) as Hstr.
  { destruct Hsp as (_ & [[? _]|[(_ & ? & _)|(_ & m & _ & Hs2 & [->|[w Hf]])]]); [done|done| |by rewrite Hal in Hf].
    by rewrite take_ge in Hs2 by done. }
  eexists _, s2. split; [done|]. split; [|done].
  destruct (ret =? SOCK_SUCCESS); [|destruct (ret =? SOCK_INPROCESS)]; rewrite ?event_ctl_socks; apply lookup_insert_eq.
Qed.
End netio.

(** * Concrete runs *)

(** A stack that has lost its connections: reads fail, no socket can be made. *)
Definition dead_stack : Stack unit := {|
  st_socket w := Answer (-1) EMFILE w;
  st_nonblock _ w := Answer 0 0 w;
  st_connect _ w := Answer (-1) ECONNREFUSED w;
  st_write _ bytes w := Answer (-1) EPIPE w;
  st_read _ _ w := Answer (-1) ECONNRESET w;
  st_close _ w := w;
  sock_buf_open w := (true, w)
|}.

(** A parser that counts every byte string as one message. *)
Definition ex_env (W : Type) : Env W unit := {|
  en_ctl _ _ _ w := (0, w); en_rbuf _ := []; hp_init := tt; hp_execute h _ := (1%nat, h)
|}.

Definition ex_app : app unit unit :=
  App tt {[10 := Sock 4 SOCKET_STAT_ESTABLISHED [] tt []; 11 := Sock 5 SOCKET_STAT_ESTABLISHED [] tt []]}
      {[10 := [tt]]}.

Definition ex_kev (filt : Z) : Kqueue.kevent := Kqueue.Kevent 4 filt 0 0 1 10.

Lemma netio_poll_safe_witness :
  exists a', netio_poll (St := dead_stack) (En := ex_env unit) ex_app
               [EpollEvent EPOLLIN 10; EpollEvent EPOLLOUT 11] = Done a'
    /\ forall q, q ∉ [10; 11] -> ap_socks a' !! q = ap_socks ex_app !! q.
Proof.
  apply (netio_poll_safe (St := dead_stack) (En := ex_env unit)
           [EpollEvent EPOLLIN 10; EpollEvent EPOLLOUT 11] ex_app).
  - decide_closed.
  - constructor; [exists (ex_kev Kqueue.EVFILT_READ); reflexivity|].
    constructor; [exists (ex_kev Kqueue.EVFILT_WRITE); reflexivity|constructor].
  - constructor; [eexists; reflexivity|]. constructor; [eexists; reflexivity|constructor].
Defined.

Lemma netio_poll_stale_event_witness :
  netio_poll (St := dead_stack) (En := ex_env unit) ex_app
    [EpollEvent EPOLLIN 10; EpollEvent EPOLLOUT 10] = Fault.
Proof.
  eapply (netio_poll_stale_event (St := dead_stack) (En := ex_env unit)); vm_compute; reflexivity.
Defined.

Lemma netio_write_never_flushes_witness :
  let a := App 0%nat {[10 := slow_sock]} ∅ in
  pending slow_sock = [2; 3]
  /\ netio_poll (St := slow_stack) (En := ex_env nat) a (replicate 3 (EpollEvent EPOLLOUT 10)) = Done a.
Proof.
  split; [reflexivity|].
  apply (netio_write_never_flushes (St := slow_stack) (En := ex_env nat) _ 10 slow_sock 3); reflexivity.
Defined.

Lemma netio_connected_sends_witness :
  let a := App 0%nat {[10 := Sock 3 SOCKET_STAT_CONNECTING [] 0%nat []]} {[10 := [tt]]} in
  exists a' s', netio_event (St := slow_stack) (En := ex_env nat) a (EpollEvent EPOLLOUT 10) = Done a'
    /\ ap_socks a' !! 10 = Some s' /\ s_stat s' = SOCKET_STAT_ESTABLISHED /\ stream s' = HTTP_GET_EXAMPLE.
Proof.
  apply (netio_connected_sends (St := slow_stack) (En := ex_env nat) _ 10
           (Sock 3 SOCKET_STAT_CONNECTING [] 0%nat []) tt []); try reflexivity.
  - intros fd bytes w. simpl. destruct (Nat.even w); simpl; lia.
  - intros fd bytes w. simpl. destruct (Nat.even w); simpl; [lia|reflexivity].
  - constructor.
Defined.

Example get_request_length : length HTTP_GET_EXAMPLE = 168%nat.
Proof. reflexivity. Qed.
