(* ===== verification/SbQueue.v ===== *)
(** Socket buffers: src/freebsd/kern/uipc_sockbuf.c and sys/sockbuf.h.

    The mbufs of a buffer are kept by value in a list of records (the chain of
    m_nextpkt), each a list of mbufs (the chain of m_next); [m_id] is an mbuf's
    address, and the pointers sb_mbtail, sb_lastrecord, sb_sndptr and sb_fnrdy
    hold such addresses.  A write through a pointer to an mbuf that is not in
    the buffer is [Fault], and a write of m_next or m_nextpkt cuts off what
    followed.  The counters are 32-bit and wrap.  The flags M_NOTREADY,
    M_BLOCKED, M_EOR, M_RDONLY are booleans; M_EXT is the presence of
    [m_ext].  [sb_freed] records the mbufs given to m_free.  The assertions
    (KASSERT) are not compiled in. *)
From stdpp Require Import base list.
From Stdlib Require Import ZArith Lia.
From S2P Require Import Prelude.

Local Open Scope Z_scope.

Definition MSIZE : Z := 256.
Definition MLEN : Z := 224.
Definition MCLBYTES : Z := 2048.
Definition MT_DATA : Z := 1.
Definition MT_SONAME : Z := 8.
Definition MT_OOBDATA : Z := 15.
Definition SB_NOCOALESCE : Z := 512.
Definition SB_STOP : Z := 4096.
Definition EINPROGRESS : Z := 36.

(** struct m_ext: size and reference count. *)
Record ext := Ext { ext_size : Z; ext_cnt : Z }.

(** struct mbuf.  [m_room]: the bytes of its storage behind the data;
    [m_pkthdr]: pkthdr.len of a mbuf with M_PKTHDR. *)
Record mbuf := Mb {
  m_id : Z;
  m_type : Z;
  m_bytes : list Z;
  m_notready : bool;
  m_blocked : bool;
  m_eor : bool;
  m_rdonly : bool;
  m_pkthdr : option Z;
  m_ext : option ext;
  m_room : Z
}.

Record sockbuf := Sb {
  sb_mb : list (list mbuf);
  sb_mbtail : option Z;
  sb_lastrecord : option Z;
  sb_sndptr : option Z;
  sb_fnrdy : option Z;
  sb_sndptroff : Z;
  sb_acc : Z;
  sb_ccc : Z;
  sb_mbcnt : Z;
  sb_mcnt : Z;
  sb_ccnt : Z;
  sb_ctl : Z;
  sb_hiwat : Z;
  sb_mbmax : Z;
  sb_flags : Z;
  sb_freed : list Z
}.

Definition m_len (m : mbuf) : Z := Z.of_nat (length (m_bytes m)).
Definition chain (sb : sockbuf) : list mbuf := concat (sb_mb sb).

(** * Field updates *)

Definition with_bytes (m : mbuf) (d : list Z) (room : Z) : mbuf :=
  Mb (m_id m) (m_type m) d (m_notready m) (m_blocked m) (m_eor m) (m_rdonly m) (m_pkthdr m) (m_ext m) room.
Definition with_rdy (m : mbuf) (nr bl : bool) : mbuf :=
  Mb (m_id m) (m_type m) (m_bytes m) nr bl (m_eor m) (m_rdonly m) (m_pkthdr m) (m_ext m) (m_room m).
Definition with_eor (m : mbuf) (e : bool) : mbuf :=
  Mb (m_id m) (m_type m) (m_bytes m) (m_notready m) (m_blocked m) e (m_rdonly m) (m_pkthdr m) (m_ext m) (m_room m).

Definition with_mb (sb : sockbuf) (q : list (list mbuf)) : sockbuf :=
  Sb q (sb_mbtail sb) (sb_lastrecord sb) (sb_sndptr sb) (sb_fnrdy sb) (sb_sndptroff sb)
     (sb_acc sb) (sb_ccc sb) (sb_mbcnt sb) (sb_mcnt sb) (sb_ccnt sb) (sb_ctl sb)
     (sb_hiwat sb) (sb_mbmax sb) (sb_flags sb) (sb_freed sb).
Definition with_tail (sb : sockbuf) (t : option Z) : sockbuf :=
  Sb (sb_mb sb) t (sb_lastrecord sb) (sb_sndptr sb) (sb_fnrdy sb) (sb_sndptroff sb)
     (sb_acc sb) (sb_ccc sb) (sb_mbcnt sb) (sb_mcnt sb) (sb_ccnt sb) (sb_ctl sb)
     (sb_hiwat sb) (sb_mbmax sb) (sb_flags sb) (sb_freed sb).
Definition with_lastrecord (sb : sockbuf) (r : option Z) : sockbuf :=
  Sb (sb_mb sb) (sb_mbtail sb) r (sb_sndptr sb) (sb_fnrdy sb) (sb_sndptroff sb)
     (sb_acc sb) (sb_ccc sb) (sb_mbcnt sb) (sb_mcnt sb) (sb_ccnt sb) (sb_ctl sb)
     (sb_hiwat sb) (sb_mbmax sb) (sb_flags sb) (sb_freed sb).
Definition with_snd (sb : sockbuf) (p : option Z) (off : Z) : sockbuf :=
  Sb (sb_mb sb) (sb_mbtail sb) (sb_lastrecord sb) p (sb_fnrdy sb) off
     (sb_acc sb) (sb_ccc sb) (sb_mbcnt sb) (sb_mcnt sb) (sb_ccnt sb) (sb_ctl sb)
     (sb_hiwat sb) (sb_mbmax sb) (sb_flags sb) (sb_freed sb).
Definition with_fnrdy (sb : sockbuf) (f : option Z) (acc : Z) : sockbuf :=
  Sb (sb_mb sb) (sb_mbtail sb) (sb_lastrecord sb) (sb_sndptr sb) f (sb_sndptroff sb)
     acc (sb_ccc sb) (sb_mbcnt sb) (sb_mcnt sb) (sb_ccnt sb) (sb_ctl sb)
     (sb_hiwat sb) (sb_mbmax sb) (sb_flags sb) (sb_freed sb).
Definition with_cnt (sb : sockbuf) (ccc mbcnt mcnt ccnt ctl : Z) : sockbuf :=
  Sb (sb_mb sb) (sb_mbtail sb) (sb_lastrecord sb) (sb_sndptr sb) (sb_fnrdy sb) (sb_sndptroff sb)
     (sb_acc sb) ccc mbcnt mcnt ccnt ctl
     (sb_hiwat sb) (sb_mbmax sb) (sb_flags sb) (sb_freed sb).

(** m_free and m_freem. *)
Definition m_freem (sb : sockbuf) (ms : list mbuf) : sockbuf :=
  Sb (sb_mb sb) (sb_mbtail sb) (sb_lastrecord sb) (sb_sndptr sb) (sb_fnrdy sb) (sb_sndptroff sb)
     (sb_acc sb) (sb_ccc sb) (sb_mbcnt sb) (sb_mcnt sb) (sb_ccnt sb) (sb_ctl sb)
     (sb_hiwat sb) (sb_mbmax sb) (sb_flags sb) (sb_freed sb ++ (m_id <$> ms)).
Definition m_free (sb : sockbuf) (m : mbuf) : sockbuf := m_freem sb [m].

(** * Pointers *)

(** [p == &m]. *)
Definition is_ptr (p : option Z) (m : mbuf) : bool :=
  match p with Some i => i =? m_id m | None => false end.

(** The mbuf under a pointer; NULL is [None]. *)
Definition deref (sb : sockbuf) (p : option Z) : outcome (option mbuf) :=
  match p with
  | None => Done None
  | Some _ => match List.find (is_ptr p) (chain sb) with Some m => Done (Some m) | None => Fault end
  end.

(** Update of the mbuf at an address. *)
Definition upd (sb : sockbuf) (i : Z) (f : mbuf -> mbuf) : sockbuf :=
  with_mb sb (map (map (fun m => if m_id m =? i then f m else m)) (sb_mb sb)).

(** [n->m_next = m] with [m->m_next = 0]. *)
Fixpoint cut_after (i : Z) (m : mbuf) (r : list mbuf) : list mbuf :=
  match r with
  | [] => []
  | h :: t => if m_id h =? i then [h; m] else h :: cut_after i m t
  end.
Definition set_next (sb : sockbuf) (i : Z) (m : mbuf) : sockbuf :=
  with_mb sb (map (cut_after i m) (sb_mb sb)).

(** [p->m_nextpkt = r]. *)
Fixpoint set_nextpkt (i : Z) (r : list mbuf) (q : list (list mbuf)) : outcome (list (list mbuf)) :=
  match q with
  | [] => Fault
  | h :: t =>
      if existsb (is_ptr (Some i)) (take 1 h) then Done [h; r]
      else t' ← set_nextpkt i r t; Done (h :: t')
  end.

Definition sb_head (sb : sockbuf) : option Z := m_id <$> head (chain sb).

(** * Accounting *)

Definition notavail (m : mbuf) : bool := m_notready m || m_blocked m.
Definition is_ctl (m : mbuf) : bool := negb (m_type m =? MT_DATA) && negb (m_type m =? MT_OOBDATA).
Definition ext_bytes (m : mbuf) : Z := match m_ext m with Some e => ext_size e | None => 0 end.
Definition ext_one (m : mbuf) : Z := match m_ext m with Some _ => 1 | None => 0 end.
Definition ctl_len (m : mbuf) : Z := if is_ctl m then m_len m else 0.

Definition M_WRITABLE (m : mbuf) : bool :=
  negb (m_rdonly m) && match m_ext m with Some e => ext_cnt e =? 1 | None => true end.
Definition M_TRAILINGSPACE (m : mbuf) : Z := if M_WRITABLE m then m_room m else 0.

(** Counters of [sballoc] (sign 1) and [sbfree] (sign -1). *)
Definition count_mbuf (sb : sockbuf) (sign : Z) (m : mbuf) : sockbuf :=
  with_cnt sb (u32 (sb_ccc sb + sign * m_len m))
    (u32 (sb_mbcnt sb + sign * (MSIZE + ext_bytes m)))
    (u32 (sb_mcnt sb + sign * 1)) (u32 (sb_ccnt sb + sign * ext_one m))
    (u32 (sb_ctl sb + sign * ctl_len m)).

(** [sballoc]: the new buffer state and the mbuf with its flags. *)
Definition sballoc (sb : sockbuf) (m : mbuf) : sockbuf * mbuf :=
  let sb1 := count_mbuf sb 1 m in
  match sb_fnrdy sb with
  | None =>
      if m_notready m then (with_fnrdy sb1 (Some (m_id m)) (sb_acc sb), m)
      else (with_fnrdy sb1 None (u32 (sb_acc sb + m_len m)), m)
  | Some _ => (sb1, with_rdy m (m_notready m) true)
  end.

(** The loop that makes mbufs behind a not-ready one available: sb_acc, the
    chain and the next not-ready mbuf. *)
Fixpoint unblock (acc : Z) (l : list mbuf) : Z * list mbuf * option Z :=
  match l with
  | [] => (acc, [], None)
  | n :: t =>
      if m_notready n then (acc, l, Some (m_id n))
      else let '(a, t', f) := unblock (u32 (acc + m_len n)) t in
           (a, with_rdy n (m_notready n) false :: t', f)
  end.

(** [sbfree] of [m], whose m_next chain is [tl]. *)
Definition sbfree (sb : sockbuf) (m : mbuf) (tl : list mbuf) : sockbuf * list mbuf :=
  let sb1 := count_mbuf sb (-1) m in
  let acc1 := if notavail m then sb_acc sb else u32 (sb_acc sb - m_len m) in
  let '(sb2, tl') :=
    if is_ptr (sb_fnrdy sb) m then
      let '(a, tl', f) := unblock acc1 tl in (with_fnrdy sb1 f a, tl')
    else (with_fnrdy sb1 (sb_fnrdy sb) acc1, tl) in
  let sb3 := if is_ptr (sb_sndptr sb) m then with_snd sb2 None 0 else sb2 in
  let sb4 := if sb_sndptroff sb3 =? 0 then sb3
             else with_snd sb3 (sb_sndptr sb3) (u32 (sb_sndptroff sb3 - m_len m)) in
  (sb4, tl').

(** The loops of [sbready]: [count] mbufs from the head of [l], then those
    behind them. *)
Fixpoint ready_loop (count : nat) (blocker : bool) (acc : Z) (l : list mbuf)
  : outcome (Z * list mbuf * option Z) :=
  match count with
  | O => if blocker then Done (unblock acc l) else Done (acc, l, None)
  | S c =>
      match l with
      | [] => Fault
      | m :: t =>
          r ← ready_loop c blocker (if blocker then u32 (acc + m_len m) else acc) t;
          let '(a, t', f) := r in
          Done (a, with_rdy m false (if blocker then false else m_blocked m) :: t', f)
      end
  end.

(** Splits the record with the mbuf at [i]. *)
Fixpoint split_at (i : Z) (r : list mbuf) : option (list mbuf * list mbuf) :=
  match r with
  | [] => None
  | h :: t => if m_id h =? i then Some ([], r)
              else '(a, b) ← split_at i t; Some (h :: a, b)
  end.

Fixpoint ready_in (i : Z) (count : nat) (blocker : bool) (acc : Z) (q : list (list mbuf))
  : outcome (Z * list (list mbuf) * option Z) :=
  match q with
  | [] => Fault
  | r :: t =>
      match split_at i r with
      | Some (a, b) =>
          x ← ready_loop count blocker acc b;
          let '(acc', b', f) := x in Done (acc', (a ++ b') :: t, f)
      | None => x ← ready_in i count blocker acc t;
                let '(acc', t', f) := x in Done (acc', r :: t', f)
      end
  end.

Definition sbready (sb : sockbuf) (i count : Z) : outcome (sockbuf * Z) :=
  let blocker := bool_decide (sb_fnrdy sb = Some i) in
  x ← ready_in i (Z.to_nat count) blocker (sb_acc sb) (sb_mb sb);
  let '(acc, q, f) := x in
  if blocker then Done (with_fnrdy (with_mb sb q) f acc, 0)
  else Done (with_mb sb q, EINPROGRESS).

Definition sbavail (sb : sockbuf) : Z := sb_acc sb.
Definition sbused (sb : sockbuf) : Z := sb_ccc sb.

Definition sbspace (sb : sockbuf) : Z :=
  if flag (sb_flags sb) SB_STOP then 0
  else let bleft := s32 (sb_hiwat sb - sb_ccc sb) in
       let mleft := s32 (sb_mbmax sb - sb_mbcnt sb) in
       if bleft <? mleft then bleft else mleft.

(** * Appending *)

(** May [m]'s data be copied behind that of [n]? *)
Definition can_coalesce (sb : sockbuf) (m n : mbuf) : bool :=
  negb (m_eor n) && M_WRITABLE n && negb (flag (sb_flags sb) SB_NOCOALESCE)
  && negb (m_notready m) && negb (m_notready n)
  && (m_len m <=? MCLBYTES / 4) && (m_len m <=? M_TRAILINGSPACE n)
  && (m_type n =? m_type m).

(** The copy into [n] and its accounting. *)
Definition coalesce (sb : sockbuf) (m n : mbuf) : sockbuf :=
  let sb1 := upd sb (m_id n) (fun x => with_bytes x (m_bytes x ++ m_bytes m) (m_room x - m_len m)) in
  let sb2 := with_cnt sb1 (u32 (sb_ccc sb + m_len m)) (sb_mbcnt sb) (sb_mcnt sb) (sb_ccnt sb)
               (u32 (sb_ctl sb + ctl_len m)) in
  m_free (match sb_fnrdy sb with
          | None => with_fnrdy sb2 None (u32 (sb_acc sb + m_len m))
          | Some _ => sb2 end) m.

(** The third way: [m] becomes the last mbuf. *)
Definition sblink (sb : sockbuf) (m : mbuf) (n : option Z) : sockbuf :=
  let '(sb1, m1) := sballoc sb m in
  let m2 := with_eor m1 false in
  let sb2 := match n with Some i => set_next sb1 i m2 | None => with_mb sb1 [[m2]] end in
  with_tail sb2 (Some (m_id m)).

(** [if (sb->sb_lastrecord == m) sb->sb_lastrecord = m->m_next]. *)
Definition skip_lastrecord (sb : sockbuf) (m : mbuf) (next : list mbuf) : sockbuf :=
  if is_ptr (sb_lastrecord sb) m then with_lastrecord sb (m_id <$> head next) else sb.

Fixpoint sbcompress_loop (sb : sockbuf) (eor : bool) (m : list mbuf) (n : option Z) : outcome sockbuf :=
  match m with
  | [] =>
      if eor then
        match n with
        | None => Fault
        | Some i => x ← deref sb n; Done (upd sb i (fun y => with_eor y true))
        end
      else Done sb
  | mb :: next =>
      let eor := eor || m_eor mb in
      nb ← deref sb n;
      let o := match head next with Some o => Some o | None => nb end in
      if (m_len mb =? 0)
         && (negb eor || match o with Some o => m_type o =? m_type mb | None => false end)
      then sbcompress_loop (m_free (skip_lastrecord sb mb next) mb) eor next n
      else if match nb with Some n => can_coalesce sb mb n | None => false end
      then match nb with Some n' => sbcompress_loop (coalesce sb mb n') eor next n | None => Fault end
      else sbcompress_loop (sblink sb mb n) eor next (Some (m_id mb))
  end.

Definition sbcompress (sb : sockbuf) (m : list mbuf) (n : option Z) : outcome sockbuf :=
  sbcompress_loop sb false m n.

(** m_demote(m, 1, flags) with flags M_NOTREADY or 0. *)
Definition m_demote (notready : bool) (m : list mbuf) : list mbuf :=
  map (fun x => Mb (m_id x) (m_type x) (m_bytes x) (m_notready x && notready) false false
                   (m_rdonly x) None (m_ext x) (m_room x)) m.

(** [notready]: flags & PRUS_NOTREADY. *)
Definition sbappendstream_locked (sb : sockbuf) (m : list mbuf) (notready : bool) : outcome sockbuf :=
  sb1 ← sbcompress sb (m_demote notready m) (sb_mbtail sb);
  Done (with_lastrecord sb1 (sb_head sb1)).

(** m_clrprotoflags. *)
Definition m_clrprotoflags (m : list mbuf) : list mbuf := map (fun x => with_rdy x false false) m.

Definition sbm_clrprotoflags (m : list mbuf) (notready : bool) : list mbuf :=
  map (fun x => with_rdy x (m_notready x && notready) false) m.

(** SBLINKRECORD of the record [r]. *)
Definition SBLINKRECORD (sb : sockbuf) (r : list mbuf) : outcome sockbuf :=
  q ← match sb_lastrecord sb with
      | Some i => set_nextpkt i r (sb_mb sb)
      | None => Done [r]
      end;
  Done (with_lastrecord (with_mb sb q) (m_id <$> head r)).

Definition sbappendrecord_locked (sb : sockbuf) (m0 : list mbuf) : outcome sockbuf :=
  match m_clrprotoflags m0 with
  | [] => Done sb
  | h :: next =>
      let '(sb1, h1) := sballoc sb h in
      let move := match next with [] => false | _ => m_eor h1 end in
      let h2 := if move then with_eor h1 false else h1 in
      let next2 := match next with x :: t => (if move then with_eor x true else x) :: t | [] => [] end in
      sb2 ← SBLINKRECORD sb1 [h2];
      sbcompress (with_tail sb2 (Some (m_id h))) next2 (Some (m_id h))
  end.

(** [n]: the last mbuf of the last record, unless one of the record's mbufs
    ends it. *)
Definition sbappend_locked (sb : sockbuf) (m : list mbuf) (notready : bool) : outcome sockbuf :=
  match sbm_clrprotoflags m notready with
  | [] => Done sb
  | h :: t =>
      match last (sb_mb sb) with
      | Some r =>
          if existsb m_eor r then sbappendrecord_locked sb (h :: t)
          else sbcompress sb (h :: t) (m_id <$> last r)
      | None =>
          match sb_lastrecord sb with
          | Some _ => Fault
          | None => sbcompress (with_lastrecord sb (Some (m_id h))) (h :: t) None
          end
      end
  end.

(** sballoc of each mbuf of a chain. *)
Fixpoint sballoc_all (sb : sockbuf) (l : list mbuf) : sockbuf * list mbuf :=
  match l with
  | [] => (sb, [])
  | m :: t => let '(sb1, m1) := sballoc sb m in
              let '(sb2, t2) := sballoc_all sb1 t in (sb2, m1 :: t2)
  end.

Definition link_all (sb : sockbuf) (r : list mbuf) : outcome sockbuf :=
  let '(sb1, r1) := sballoc_all sb r in
  sb2 ← SBLINKRECORD sb1 r1;
  Done (with_tail sb2 (m_id <$> last r1)).

(** [nm]: the address that m_get returns, if it does; [asa]: the address with
    its length sa_len. *)
Definition sbappendaddr_locked_internal (sb : sockbuf) (nm : option Z) (asa : list Z) (m0 control : list mbuf)
  : outcome (sockbuf * Z) :=
  if Z.of_nat (length asa) >? MLEN then Done (sb, 0)
  else match nm with
  | None => Done (sb, 0)
  | Some i =>
      let m := Mb i MT_SONAME asa false false false false None None (MLEN - Z.of_nat (length asa)) in
      sb1 ← link_all sb (m :: control ++ m_clrprotoflags m0);
      Done (sb1, 1)
  end.

Definition m_length (m : list mbuf) : Z := u32 (foldr (fun x a => m_len x + a) 0 m).

Definition sbappendaddr_locked (sb : sockbuf) (nm : option Z) (asa : list Z) (m0 control : list mbuf)
  : outcome (sockbuf * Z) :=
  let go space :=
    if s32 (space + m_length control) >? sbspace sb then Done (sb, 0)
    else sbappendaddr_locked_internal sb nm asa m0 control in
  match m0 with
  | [] => go (Z.of_nat (length asa))
  | h :: _ => match m_pkthdr h with None => Fault | Some l => go (Z.of_nat (length asa) + l) end
  end.

Definition sbappendaddr_nospacecheck_locked (sb : sockbuf) (nm : option Z) (asa : list Z) (m0 control : list mbuf)
  : outcome (sockbuf * Z) := sbappendaddr_locked_internal sb nm asa m0 control.

Definition sbappendcontrol_locked (sb : sockbuf) (m0 control : list mbuf) : outcome (sockbuf * Z) :=
  match control with
  | [] => Fault
  | _ =>
      if s32 (m_length control + m_length m0) >? sbspace sb then Done (sb, 0)
      else sb1 ← link_all sb (control ++ m_clrprotoflags m0); Done (sb1, 1)
  end.

(** * Removing *)

(** The partial cut of the first mbuf. *)
Definition cut_head (sb : sockbuf) (x : mbuf) (len : Z) : sockbuf :=
  let sb1 := with_cnt sb (u32 (sb_ccc sb - len)) (sb_mbcnt sb) (sb_mcnt sb) (sb_ccnt sb)
               (if is_ctl x then u32 (sb_ctl sb - len) else sb_ctl sb) in
  let sb2 := with_fnrdy sb1 (sb_fnrdy sb) (u32 (sb_acc sb - len)) in
  if sb_sndptroff sb =? 0 then sb2 else with_snd sb2 (sb_sndptr sb) (u32 (sb_sndptroff sb - len)).

Definition chop (x : mbuf) (len : Z) : mbuf := with_bytes x (drop (Z.to_nat len) (m_bytes x)) (m_room x).

(** [while (len > 0)] of [sbcut_internal] within a record: the remaining
    length, the chain that is left and the list [mfree]. *)
Fixpoint cut_record (fuel : nat) (sb : sockbuf) (m : list mbuf) (len : Z) (mfree : list mbuf)
  : outcome (sockbuf * list mbuf * Z * list mbuf) :=
  if len >? 0 then
    match m with
    | [] => Done (sb, [], len, mfree)
    | x :: t =>
        match fuel with
        | O => Loop
        | S n =>
            if m_len x >? len then Done (cut_head sb x len, chop x len :: t, 0, mfree)
            else
              let '(sb1, t1) := sbfree sb x t in
              cut_record n sb1 t1 (len - m_len x) (if m_notready x then mfree else x :: mfree)
        end
    end
  else Done (sb, m, len, mfree).

Fixpoint cut_records (sb : sockbuf) (m : list mbuf) (next : list (list mbuf)) (len : Z) (mfree : list mbuf)
  : outcome (sockbuf * list mbuf * list (list mbuf) * list mbuf) :=
  x ← cut_record (length m) sb m len mfree;
  let '(sb1, m1, len1, mfree1) := x in
  if len1 >? 0 then
    match next with
    | [] => Fault
    | r :: rs => cut_records sb1 r rs len1 mfree1
    end
  else Done (sb1, m1, next, mfree1).

(** [while (m && m->m_len == 0)]. *)
Fixpoint cut_empty (fuel : nat) (sb : sockbuf) (m : list mbuf) (mfree : list mbuf)
  : outcome (sockbuf * list mbuf * list mbuf) :=
  match m with
  | [] => Done (sb, [], mfree)
  | x :: t =>
      if m_len x =? 0 then
        match fuel with
        | O => Loop
        | S n => let '(sb1, t1) := sbfree sb x t in cut_empty n sb1 t1 (x :: mfree)
        end
      else Done (sb, m, mfree)
  end.

(** The inline SB_EMPTY_FIXUP and the update of sb_lastrecord. *)
Definition cut_fixup (sb : sockbuf) : sockbuf :=
  match sb_mb sb with
  | [] => with_lastrecord (with_tail sb None) None
  | [r] => with_lastrecord sb (m_id <$> head r)
  | _ => sb
  end.

Definition sbcut_internal (sb : sockbuf) (len : Z) : outcome (sockbuf * list mbuf) :=
  let '(m, next) := match sb_mb sb with r :: rs => (r, rs) | [] => ([], []) end in
  x ← cut_records sb m next len [];
  let '(sb1, m1, next1, mfree1) := x in
  y ← cut_empty (length m1) sb1 m1 mfree1;
  let '(sb2, m2, mfree2) := y in
  let sb3 := with_mb sb2 (match m2 with [] => next1 | _ => m2 :: next1 end) in
  Done (cut_fixup sb3, mfree2).

Definition sbcut_locked := sbcut_internal.

Definition sbdrop_locked (sb : sockbuf) (len : Z) : outcome sockbuf :=
  x ← sbcut_internal sb len; let '(sb1, mfree) := x in Done (m_freem sb1 mfree).

Fixpoint sbflush_loop (fuel : nat) (sb : sockbuf) : outcome sockbuf :=
  if sb_mbcnt sb =? 0 then Done sb
  else if (sb_ccc sb =? 0) && match head (chain sb) with None => true | Some m => negb (m_len m =? 0) end
  then Done sb
  else match fuel with
  | O => Loop
  | S n => sb1 ← sbdrop_locked sb (s32 (sb_ccc sb)); sbflush_loop n sb1
  end.

Definition sbflush_internal (sb : sockbuf) : outcome sockbuf := sbflush_loop (S (length (sb_mb sb))) sb.

(** The loop of [sbdroprecord_locked]. *)
Fixpoint free_all (fuel : nat) (sb : sockbuf) (l : list mbuf) : outcome sockbuf :=
  match l with
  | [] => Done sb
  | m :: t =>
      match fuel with
      | O => Loop
      | S n => let '(sb1, t1) := sbfree sb m t in free_all n (m_free sb1 m) t1
      end
  end.

Definition SB_EMPTY_FIXUP (sb : sockbuf) : sockbuf :=
  match sb_mb sb with [] => with_lastrecord (with_tail sb None) None | _ => sb end.

Definition sbdroprecord_locked (sb : sockbuf) : outcome sockbuf :=
  match sb_mb sb with
  | [] => Done (SB_EMPTY_FIXUP sb)
  | r :: rs => sb1 ← free_all (length r) (with_mb sb rs) r; Done (SB_EMPTY_FIXUP sb1)
  end.

(** * The send pointer *)

(** The m_next chain that starts at a pointer into the first record. *)
Definition chain_from (sb : sockbuf) (p : option Z) : outcome (list mbuf) :=
  match sb_mb sb with
  | [] => match p with None => Done [] | Some _ => Fault end
  | r :: _ =>
      match p with
      | None => Done r
      | Some i => match split_at i r with Some (_, b) => Done b | None => Fault end
      end
  end.

(** The advance: sb_sndptroff, [off] and the mbuf reached. *)
Fixpoint snd_advance (sndoff off : Z) (m : list mbuf) : Z * Z * list mbuf :=
  match m with
  | [] => (sndoff, off, [])
  | x :: t => if (off >? 0) && (off >=? m_len x)
              then snd_advance (u32 (sndoff + m_len x)) (u32 (off - m_len x)) t
              else (sndoff, off, m)
  end.

(** The buffer, the m_next chain of the returned mbuf, and *moff.  The panic
    is [Fault]. *)
Definition sbsndptr (sb : sockbuf) (off len : Z) : outcome (sockbuf * list mbuf * Z) :=
  if sb_sndptroff sb >? off then m ← chain_from sb None; Done (sb, m, off)
  else
    let moff := u32 (off - sb_sndptroff sb) in
    m ← chain_from sb (sb_sndptr sb);
    match m with
    | [] => Fault
    | x :: t =>
        let '(moff1, sndoff1, m1) :=
          if moff =? m_len x then (0, u32 (sb_sndptroff sb + m_len x), t)
          else (moff, sb_sndptroff sb, m) in
        let '(sndoff2, off2, m2) := snd_advance sndoff1 (u32 (off - sndoff1 + len - 1)) m1 in
        match m2 with
        | [] => if off2 >? 0 then Fault else Done (with_snd sb None sndoff2, m1, moff1)
        | y :: _ => Done (with_snd sb (Some (m_id y)) sndoff2, m1, moff1)
        end
    end.

Fixpoint snd_walk (off : Z) (m : list mbuf) : list mbuf * Z :=
  match m with
  | [] => ([], off)
  | x :: t => if off >? 0 then
                if off <? m_len x then (m, off) else snd_walk (u32 (off - m_len x)) t
              else (m, off)
  end.

Definition sbsndmbuf (sb : sockbuf) (off : Z) : outcome (list mbuf * Z) :=
  match sb_sndptr sb with
  | Some _ =>
      if sb_sndptroff sb >? off then m ← chain_from sb None; Done (snd_walk off m)
      else m ← chain_from sb (sb_sndptr sb); Done (snd_walk (u32 (off - sb_sndptroff sb)) m)
  | None => m ← chain_from sb None; Done (snd_walk off m)
  end.

(** * The debugging checks *)

Definition sblastrecordchk (sb : sockbuf) : bool :=
  bool_decide ((r ← last (sb_mb sb); m_id <$> head r) = sb_lastrecord sb).

Definition sblastmbufchk (sb : sockbuf) : bool :=
  bool_decide ((r ← last (sb_mb sb); m_id <$> last r) = sb_mbtail sb).

(** The loops of [sbcheck]: acc, ccc, mbcnt; [None] is the jump to fail. *)
Fixpoint sbcheck_loop (sb : sockbuf) (l : list mbuf) (fnrdy : bool) (acc ccc mbcnt : Z)
  : option (Z * Z * Z) :=
  match l with
  | [] => Some (acc, ccc, mbcnt)
  | m :: t =>
      if m_len m =? 0 then None
      else if m_notready m && negb fnrdy && negb (is_ptr (sb_fnrdy sb) m) then None
      else let fnrdy := fnrdy || m_notready m in
           if fnrdy && negb (notavail m) then None
           else sbcheck_loop sb t fnrdy (if fnrdy then acc else acc + m_len m) (ccc + m_len m)
                  (mbcnt + MSIZE + ext_bytes m)
  end.

(** Does [sbcheck] return without a panic? *)
Definition sbcheck (sb : sockbuf) : bool :=
  match sbcheck_loop sb (chain sb) false 0 0 0 with
  | Some (acc, ccc, mbcnt) => (acc =? sb_acc sb) && (ccc =? sb_ccc sb) && (mbcnt =? sb_mbcnt sb)
  | None => false
  end.

(** An empty buffer. *)
Definition sb_empty (hiwat mbmax flags : Z) : sockbuf :=
  Sb [] None None None None 0 0 0 0 0 0 0 hiwat mbmax flags [].

(** * The invariant *)

Definition sumz (f : mbuf -> Z) (l : list mbuf) : Z := foldr (fun m a => f m + a) 0 l.

Definition avail_len (m : mbuf) : Z := if notavail m then 0 else m_len m.
Definition m_size (m : mbuf) : Z := m_len m + (MSIZE + ext_bytes m).

Definition ids (l : list mbuf) : list Z := m_id <$> l.

(** An mbuf up to M_NOTREADY and M_BLOCKED. *)
Definition unrdy (m : mbuf) : mbuf := with_rdy m false false.

(** An mbuf up to M_BLOCKED. *)
Definition unblk (m : mbuf) : mbuf := with_rdy m (m_notready m) false.

(** [f] is the first not-ready mbuf, and every mbuf behind it is marked. *)
Fixpoint ready_ok (f : option Z) (l : list mbuf) : Prop :=
  match l with
  | [] => f = None
  | m :: t =>
      if m_notready m then f = Some (m_id m) /\ Forall (fun x => m_blocked x = true) t
      else m_blocked m = false /\ ready_ok f t
  end.

(** The send pointer's offset is the number of bytes in front of it. *)
Definition snd_ok (p : option Z) (off : Z) (l : list mbuf) : Prop :=
  match p with
  | None => off = 0
  | Some i => exists a m b, l = a ++ m :: b /\ m_id m = i /\ off = sumz m_len a
  end.

(** The accounting of a buffer whose mbufs are [l]. *)
Record acct (sb : sockbuf) (l : list mbuf) : Prop := {
  a_ids : NoDup (ids l);
  a_ext : Forall (fun m => 0 <= ext_bytes m) l;
  a_size : sumz m_size l < 2 ^ 31;
  a_ccc : sb_ccc sb = sumz m_len l;
  a_acc : sb_acc sb = sumz avail_len l;
  a_mbcnt : sb_mbcnt sb = sumz (fun m => MSIZE + ext_bytes m) l;
  a_mcnt : sb_mcnt sb = sumz (fun _ => 1) l;
  a_ccnt : sb_ccnt sb = sumz ext_one l;
  a_ctl : sb_ctl sb = sumz ctl_len l;
  a_rdy : ready_ok (sb_fnrdy sb) l;
  a_snd : snd_ok (sb_sndptr sb) (sb_sndptroff sb) l
}.

Definition pos (l : list mbuf) : Prop := Forall (fun m => 0 < m_len m) l.

(** The invariant of a socket buffer.  Not-ready data is only put into stream
    buffers: one record, no empty mbufs. *)
Record inv (sb : sockbuf) : Prop := {
  i_ne : Forall (fun r => r <> []) (sb_mb sb);
  i_acct : acct sb (chain sb);
  i_tail : sb_mbtail sb = m_id <$> last (chain sb);
  i_last : sb_lastrecord sb = (r ← last (sb_mb sb); m_id <$> head r);
  i_one : sb_fnrdy sb = None \/ ((length (sb_mb sb) <= 1)%nat /\ pos (chain sb))
}.

(** The configuration of a buffer. *)
Definition cfg (sb : sockbuf) : Z * Z * Z := (sb_flags sb, sb_hiwat sb, sb_mbmax sb).
Arguments cfg : simpl never.

(** The fields that accounting leaves alone. *)
Definition frame (a b : sockbuf) : Prop :=
  sb_mb a = sb_mb b /\ sb_mbtail a = sb_mbtail b /\ sb_lastrecord a = sb_lastrecord b /\
  cfg a = cfg b /\ sb_freed a = sb_freed b.

(** ** Sums *)

Lemma sumz_cons f m l : sumz f (m :: l) = f m + sumz f l.
Proof. done. Qed.

Lemma sumz_app f a b : sumz f (a ++ b) = sumz f a + sumz f b.
Proof. induction a; simpl in *; lia. Qed.

Lemma sumz_nonneg f l : (forall m, 0 <= f m) -> 0 <= sumz f l.
Proof. intros H. induction l as [|m l IH]; simpl; [lia|]. specialize (H m). lia. Qed.

Lemma sumz_le f g l : Forall (fun m => f m <= g m) l -> sumz f l <= sumz g l.
Proof. induction 1; simpl; lia. Qed.

Lemma sumz_ext f g l : (forall m, f m = g m) -> sumz f l = sumz g l.
Proof. intros H. induction l; simpl; [done|]. by rewrite H, IHl. Qed.

(** A sum that does not look at these flags. *)
Lemma sumz_unrdy f l l' :
  (forall m, f (unrdy m) = f m) -> map unrdy l = map unrdy l' -> sumz f l = sumz f l'.
Proof.
  intros Hf. revert l'. induction l as [|m l IH]; intros [|m' l'] H; try done.
  cbn [map] in H. assert (unrdy m = unrdy m' /\ map unrdy l = map unrdy l') as [Hm Hl].
  { split; [by apply (f_equal (hd (unrdy m))) in H|by apply (f_equal (@tl _)) in H]. }
  cbn [sumz foldr]. rewrite <- (Hf m), <- (Hf m'), Hm. f_equal. by apply IH.
Qed.

Lemma m_len_nonneg m : 0 <= m_len m.
Proof. unfold m_len. lia. Qed.
Lemma avail_len_nonneg m : 0 <= avail_len m.
Proof. unfold avail_len, m_len. destruct (notavail m); lia. Qed.
Lemma ctl_len_nonneg m : 0 <= ctl_len m.
Proof. unfold ctl_len, m_len. destruct (is_ctl m); lia. Qed.
Lemma ext_one_nonneg m : 0 <= ext_one m.
Proof. unfold ext_one. destruct (m_ext m); lia. Qed.

Lemma avail_len_true m : notavail m = true -> avail_len m = 0.
Proof. unfold avail_len. by intros ->. Qed.
Lemma avail_len_false m : notavail m = false -> avail_len m = m_len m.
Proof. unfold avail_len. by intros ->. Qed.

Lemma sum_len_nonneg l : 0 <= sumz m_len l.
Proof. apply sumz_nonneg, m_len_nonneg. Qed.

(** Each counted sum is at most the total size. *)
Lemma size_bounds l :
  Forall (fun m => 0 <= ext_bytes m) l ->
  0 <= sumz avail_len l <= sumz m_len l /\ 0 <= sumz ctl_len l <= sumz m_len l /\
  0 <= sumz (fun _ => 1) l <= sumz (fun m => MSIZE + ext_bytes m) l /\
  0 <= sumz ext_one l <= sumz (fun _ => 1) l /\
  0 <= sumz m_len l /\ sumz m_size l = sumz m_len l + sumz (fun m => MSIZE + ext_bytes m) l.
Proof.
  intros H. repeat apply conj; try (apply sumz_nonneg; intros m;
    auto using avail_len_nonneg, ctl_len_nonneg, ext_one_nonneg, m_len_nonneg; lia).
  1,2,4: apply sumz_le, Forall_forall; intros m _.
  - unfold avail_len, m_len. destruct (notavail m); lia.
  - unfold ctl_len, m_len. destruct (is_ctl m); lia.
  - unfold ext_one. destruct (m_ext m); lia.
  - apply sumz_le. eapply Forall_impl; [done|]. cbv beta. unfold MSIZE. lia.
  - clear H. induction l as [|m l IH]; simpl; [done|]. rewrite IH. unfold m_size. lia.
Qed.

Lemma u32_small x : 0 <= x < 2 ^ 31 -> u32 x = x.
Proof. intros. apply wrapu_small. split; [lia|]. transitivity (2 ^ 31); [lia|done]. Qed.

(** ** The ready discipline *)

Lemma ready_ok_none l : ready_ok None l <-> Forall (fun m => notavail m = false) l.
Proof.
  induction l as [|m l IH]; simpl; [split; auto|]. rewrite Forall_cons, <- IH. unfold notavail.
  destruct (m_notready m), (m_blocked m); simpl; naive_solver.
Qed.

Lemma ready_ok_app_none f a b : ready_ok None a -> ready_ok f b -> ready_ok f (a ++ b).
Proof.
  intros Ha Hb. induction a as [|m a IH]; [done|]. simpl in *.
  destruct (m_notready m); [naive_solver|]. naive_solver.
Qed.

Lemma ready_ok_app_some i a b :
  ready_ok (Some i) a -> Forall (fun x => m_blocked x = true) b -> ready_ok (Some i) (a ++ b).
Proof.
  intros Ha Hb. induction a as [|m a IH]; [done|]. simpl in *.
  destruct (m_notready m); [|naive_solver]. destruct Ha. rewrite Forall_app. naive_solver.
Qed.

Lemma ready_ok_head f m l :
  ready_ok f (m :: l) -> notavail m = m_notready m /\ (m_notready m = true <-> f = Some (m_id m) /\ m_notready m = true).
Proof. simpl. unfold notavail. destruct (m_notready m), (m_blocked m); naive_solver. Qed.

Lemma sum_avail_none l : ready_ok None l -> sumz avail_len l = sumz m_len l.
Proof.
  rewrite ready_ok_none. induction 1 as [|m l Hm _ IH]; [done|].
  rewrite !sumz_cons, IH, avail_len_false by done. done.
Qed.

Lemma sum_avail_blocked l : Forall (fun m => m_blocked m = true) l -> sumz avail_len l = 0.
Proof.
  induction 1 as [|m l Hm _ IH]; [done|].
  rewrite sumz_cons, avail_len_true by (unfold notavail; rewrite Hm; apply orb_true_r). lia.
Qed.

Arguments sumz : simpl never.
Arguments m_len : simpl never.
Arguments m_size : simpl never.

(** [sbavail] is what precedes the first not-ready mbuf. *)
Lemma unblock_spec l acc :
  Forall (fun m => m_blocked m = true) l -> 0 <= acc -> acc + sumz m_len l < 2 ^ 31 ->
  exists a l' f, unblock acc l = (a, l', f) /\ a = acc + sumz avail_len l' /\
    ready_ok f l' /\ map unblk l' = map unblk l.
Proof.
  revert acc. induction l as [|m l IH]; intros acc Hl H0 Hb.
  { exists acc, [], None. change (sumz avail_len []) with 0. repeat split; lia. }
  apply Forall_cons in Hl as [Hm Hl]. rewrite sumz_cons in Hb. cbn [unblock].
  pose proof (m_len_nonneg m). pose proof (sum_len_nonneg l).
  destruct (m_notready m) eqn:E.
  { eexists _, _, _. split; [done|]. rewrite sumz_cons, avail_len_true by (unfold notavail; by rewrite E).
    rewrite sum_avail_blocked by done. simpl. rewrite E. auto with lia. }
  rewrite u32_small by lia.
  destruct (IH (acc + m_len m)) as (a & l' & f & -> & -> & Hr & Hu); [done|lia..|].
  eexists _, _, _. split; [done|]. rewrite sumz_cons, (avail_len_false (with_rdy m false false)) by done.
  cbn [ready_ok with_rdy m_notready m_blocked].
  split; [change (m_len (with_rdy m false false)) with (m_len m); lia|]. cbn [map]. rewrite Hu. unfold unblk. by rewrite E.
Qed.

(** The flags do not matter to the rest of the accounting. *)
Lemma unblk_unrdy l l' : map unblk l = map unblk l' -> map unrdy l = map unrdy l'.
Proof. intros H. apply (f_equal (map unrdy)) in H. rewrite !map_map in H. exact H. Qed.

Lemma unrdy_ids l l' : map unrdy l = map unrdy l' -> ids l = ids l'.
Proof. intros H. apply (f_equal (map m_id)) in H. rewrite !map_map in H. exact H. Qed.

Lemma unrdy_sums l l' : map unrdy l = map unrdy l' ->
  sumz m_size l = sumz m_size l' /\ sumz m_len l = sumz m_len l' /\
  sumz (fun m => MSIZE + ext_bytes m) l = sumz (fun m => MSIZE + ext_bytes m) l' /\
  sumz (fun _ => 1) l = sumz (fun _ => 1) l' /\ sumz ext_one l = sumz ext_one l' /\
  sumz ctl_len l = sumz ctl_len l'.
Proof. intros H. repeat split; by apply sumz_unrdy. Qed.

Lemma unrdy_forall (P : mbuf -> Prop) l l' :
  (forall m, P (unrdy m) <-> P m) -> map unrdy l = map unrdy l' -> Forall P l -> Forall P l'.
Proof.
  intros HP. revert l'. induction l as [|m l IH]; intros [|m' l'] H Hl; try done.
  apply Forall_cons in Hl as [Hm Hl]. cbn [map] in H.
  apply Forall_cons. split.
  - apply HP. apply (f_equal (hd (unrdy m))) in H. simpl in H. rewrite <- H. by apply HP.
  - apply IH; [|done]. by apply (f_equal (@tl _)) in H.
Qed.

Lemma unblk_app a b c : map unblk a = map unblk b -> map unblk (a ++ c) = map unblk (b ++ c).
Proof. rewrite !map_app. by intros ->. Qed.

(** The send pointer survives a change of the flags. *)
Lemma snd_ok_unrdy p off l l' : map unrdy l = map unrdy l' -> snd_ok p off l -> snd_ok p off l'.
Proof.
  intros H. destruct p as [i|]; [|done]. intros (a & m & b & -> & Hi & ->).
  rewrite map_app, map_cons in H. symmetry in H.
  apply map_eq_app in H as (a' & b' & -> & Ha & Hb).
  apply map_eq_cons in Hb as (m' & b'' & -> & Hm & _).
  exists a', m', b''. split; [done|]. split.
  - rewrite <- Hi. by apply (f_equal m_id) in Hm.
  - symmetry. apply sumz_unrdy; done.
Qed.

(** The pointer of a list that lost its head [m]. *)
Lemma snd_ok_free p off m l :
  snd_ok p off (m :: l) -> NoDup (ids (m :: l)) -> sumz m_len (m :: l) < 2 ^ 31 ->
  let '(p1, off1) := if is_ptr p m then (None, 0) else (p, off) in
  snd_ok p1 (if off1 =? 0 then off1 else u32 (off1 - m_len m)) l.
Proof.
  intros H Hd Hb. destruct p as [i|]; simpl in H |- *; [|subst; done].
  destruct H as ([|x a] & y & b & Hl & Hi & ->); simplify_eq/=; [by rewrite Z.eqb_refl|].
  rewrite sumz_cons, ?sumz_app in *.
  apply NoDup_cons in Hd as [Hx _].
  destruct (Z.eqb_spec (m_id y) (m_id x)) as [E|].
  { exfalso. apply Hx. rewrite <- E. apply list_elem_of_fmap. exists y. split; [done|].
    apply elem_of_app. right. apply elem_of_cons. auto. }
  exists a, y, b. split; [done|]. split; [done|]. pose proof (sum_len_nonneg a). pose proof (sum_len_nonneg (y :: b)).
  pose proof (m_len_nonneg x). destruct (Z.eqb_spec (m_len x + sumz m_len a) 0); [lia|].
  rewrite u32_small by lia. lia.
Qed.

(** ** Accounting of one mbuf *)

(** The five plain counters are those of [l]. *)
Definition counted (sb : sockbuf) (l : list mbuf) : Prop :=
  sb_ccc sb = sumz m_len l /\ sb_mbcnt sb = sumz (fun m => MSIZE + ext_bytes m) l /\
  sb_mcnt sb = sumz (fun _ => 1) l /\ sb_ccnt sb = sumz ext_one l /\ sb_ctl sb = sumz ctl_len l.

Lemma acct_counted sb l : acct sb l -> counted sb l.
Proof. by intros []. Qed.

Lemma counted_free sb m l :
  counted sb (m :: l) -> Forall (fun m => 0 <= ext_bytes m) (m :: l) -> sumz m_size (m :: l) < 2 ^ 31 ->
  counted (count_mbuf sb (-1) m) l.
Proof.
  intros (H1 & H2 & H3 & H4 & H5) He Hs. apply Forall_cons in He as [Hem He].
  pose proof (size_bounds l He) as Hb. pose proof (m_len_nonneg m). pose proof (ctl_len_nonneg m).
  pose proof (ext_one_nonneg m). rewrite !sumz_cons in *. unfold m_size in Hs at 1.
  repeat split; cbn [count_mbuf with_cnt sb_ccc sb_mbcnt sb_mcnt sb_ccnt sb_ctl];
    rewrite u32_small; unfold MSIZE in *; lia.
Qed.

Lemma counted_alloc sb m l :
  counted sb l -> Forall (fun m => 0 <= ext_bytes m) (m :: l) -> sumz m_size (m :: l) < 2 ^ 31 ->
  counted (count_mbuf sb 1 m) (l ++ [m]).
Proof.
  intros (H1 & H2 & H3 & H4 & H5) He Hs.
  pose proof (size_bounds _ He) as Hb. rewrite !sumz_cons in Hb.
  apply Forall_cons in He as [Hem He]. pose proof (size_bounds l He) as Hb'.
  pose proof (m_len_nonneg m). pose proof (ctl_len_nonneg m).
  pose proof (ext_one_nonneg m). rewrite sumz_cons in Hs. unfold m_size in Hs at 1.
  repeat split; cbn [count_mbuf with_cnt sb_ccc sb_mbcnt sb_mcnt sb_ccnt sb_ctl];
    rewrite sumz_app, sumz_cons; change (sumz _ []) with 0; rewrite u32_small; lia.
Qed.

Lemma counted_unrdy sb l l' : map unrdy l = map unrdy l' -> counted sb l -> counted sb l'.
Proof.
  intros H. destruct (unrdy_sums _ _ H) as (_ & H1 & H2 & H3 & H4 & H5). unfold counted.
  rewrite H1, H2, H3, H4, H5. done.
Qed.

Lemma ready_ok_in i l : ready_ok (Some i) l -> i ∈ ids l.
Proof.
  induction l as [|m l IH]; [done|]. cbn [ready_ok ids fmap list_fmap]. rewrite elem_of_cons.
  destruct (m_notready m); naive_solver.
Qed.

(** The bytes that become available when the first mbuf goes, and the next
    not-ready mbuf. *)
Lemma free_ready sb m tl rest :
  acct sb (m :: tl ++ rest) -> (sb_fnrdy sb = None \/ rest = []) ->
  let acc1 := if notavail m then sb_acc sb else u32 (sb_acc sb - m_len m) in
  exists f a tl',
    (if is_ptr (sb_fnrdy sb) m then
       let '(a, tl', f) := unblock acc1 tl in (with_fnrdy (count_mbuf sb (-1) m) f a, tl')
     else (with_fnrdy (count_mbuf sb (-1) m) (sb_fnrdy sb) acc1, tl))
    = (with_fnrdy (count_mbuf sb (-1) m) f a, tl') /\
    a = sumz avail_len (tl' ++ rest) /\ ready_ok f (tl' ++ rest) /\ map unblk tl' = map unblk tl /\
    (sb_fnrdy sb = None -> f = None) /\ (m_notready m = false -> tl' = tl).
Proof.
  intros [Hd He Hs _ Hacc _ _ _ _ Hr _] Hone. rewrite sumz_cons in *.
  apply Forall_cons in He as [Hem He]. pose proof (size_bounds _ He) as Hb. pose proof (m_len_nonneg m).
  unfold m_size in Hs at 1. unfold MSIZE in *.
  destruct (ready_ok_head _ _ _ Hr) as [Hna _]. cbn [ready_ok] in Hr.
  rewrite Hna. cbv zeta. destruct (m_notready m) eqn:E.
  - destruct Hr as [Hf Hall]. destruct Hone as [|Hone]; [congruence|]. subst rest.
    rewrite Hf. cbn [is_ptr]. rewrite Z.eqb_refl. rewrite app_nil_r in *.
    rewrite avail_len_true in Hacc by (rewrite Hna; done).
    rewrite sum_avail_blocked in Hacc by done.
    destruct (unblock_spec tl (sb_acc sb)) as (a & l' & f & -> & -> & Hro & Hu); [done|lia|lia|].
    exists f, (sb_acc sb + sumz avail_len l'), l'. rewrite app_nil_r. repeat split; try done; lia.
  - destruct Hr as [Hbl Hr].
    assert (is_ptr (sb_fnrdy sb) m = false) as ->.
    { destruct (sb_fnrdy sb) as [i|] eqn:Ef; [|done]. simpl. apply Z.eqb_neq. intros ->.
      apply NoDup_cons in Hd as [Hd _]. apply Hd, (ready_ok_in _ _ Hr). }
    rewrite avail_len_false in Hacc by (rewrite Hna; done).
    eexists _, _, tl. split; [done|]. rewrite u32_small by lia. repeat split; try done; lia.
Qed.

(** [sbfree] of the first mbuf keeps the accounting of the others. *)
Lemma sbfree_spec sb m tl rest :
  acct sb (m :: tl ++ rest) -> (sb_fnrdy sb = None \/ rest = []) ->
  exists sb' tl', sbfree sb m tl = (sb', tl') /\ acct sb' (tl' ++ rest) /\ map unblk tl' = map unblk tl /\
    frame sb sb' /\ (sb_fnrdy sb = None -> sb_fnrdy sb' = None) /\ (m_notready m = false -> tl' = tl).
Proof.
  intros Ha Hone. destruct (free_ready _ _ _ _ Ha Hone) as (f & a & tl' & Heq & -> & Hr' & Hu & Hn & Ht).
  pose proof (acct_counted _ _ Ha) as Hc. destruct Ha as [Hd He Hs _ Hacc _ _ _ _ Hr Hsnd].
  pose proof (counted_free _ _ _ Hc He Hs) as Hc'. destruct Hc as (Hccc & _).
  pose proof He as He'. apply Forall_cons in He' as [Hem He'].
  pose proof (size_bounds _ He') as Hb. pose proof (m_len_nonneg m).
  assert (Hs' : m_len m + sumz m_len (tl ++ rest) < 2 ^ 31 /\ sumz m_size (tl ++ rest) < 2 ^ 31)
    by (rewrite sumz_cons in Hs; unfold m_size in Hs at 1; unfold MSIZE in *; lia).
  pose proof (unblk_app _ _ rest Hu) as Hu'.
  unfold sbfree. cbv zeta in Heq |- *. rewrite Heq.
  pose proof (snd_ok_free _ _ _ _ Hsnd Hd ltac:(rewrite sumz_cons; lia)) as Hsn.
  eexists _, tl'. split; [done|]. split; [|split; [done|]].
  - assert (HH : counted (count_mbuf sb (-1) m) (tl' ++ rest)) by by eapply counted_unrdy, Hc'; apply unblk_unrdy.
    destruct HH as (H1 & H2 & H3 & H4 & H5).
    assert (NoDup (ids (tl' ++ rest))).
    { rewrite (unrdy_ids _ _ (unblk_unrdy _ _ Hu')). by apply NoDup_cons in Hd as [_ Hd]. }
    assert (Forall (fun m => 0 <= ext_bytes m) (tl' ++ rest)) by by eapply unrdy_forall; [|by symmetry; apply unblk_unrdy, Hu'|].
    assert (sumz m_size (tl' ++ rest) < 2 ^ 31).
    { destruct (unrdy_sums _ _ (unblk_unrdy _ _ Hu')) as [-> _]. lia. }
    assert (Hsn' : forall p o, snd_ok p o (tl ++ rest) -> snd_ok p o (tl' ++ rest)) by (intros; eapply snd_ok_unrdy; [|done]; by symmetry; apply unblk_unrdy).
    destruct (is_ptr (sb_sndptr sb) m); cbn in Hsn |- *;
      [|destruct (sb_sndptroff sb =? 0)]; split; cbn; try done; apply Hsn'; try done.
  - destruct (is_ptr (sb_sndptr sb) m); cbn; [|destruct (sb_sndptroff sb =? 0)]; done.
Qed.

(** [sballoc] of a new last mbuf. *)
Lemma sballoc_spec sb m l :
  acct sb l -> m_id m ∉ ids l -> m_blocked m = false -> 0 <= ext_bytes m ->
  sumz m_size l + m_size m < 2 ^ 31 ->
  exists sb' m', sballoc sb m = (sb', m') /\ acct sb' (l ++ [m']) /\ unblk m' = m /\
    frame sb sb' /\ (sb_fnrdy sb = None -> m_notready m = false -> sb_fnrdy sb' = None /\ m' = m) /\
    sb_sndptr sb' = sb_sndptr sb /\ sb_sndptroff sb' = sb_sndptroff sb.
Proof.
  intros Ha Hi Hbl Hem Hsz. pose proof (acct_counted _ _ Ha) as Hc. destruct Ha as [Hd He Hs _ Hacc _ _ _ _ Hr Hsnd].
  assert (Forall (fun m => 0 <= ext_bytes m) (m :: l)) as He1 by by apply Forall_cons.
  pose proof (counted_alloc _ _ _ Hc He1 ltac:(rewrite sumz_cons; lia)) as Hc'.
  pose proof (size_bounds _ He) as Hb. pose proof (m_len_nonneg m).
  assert (Hum : unblk m = m) by (destruct m; cbn in *; by subst).
  assert (acct_of : forall sb' m', unblk m' = m -> counted sb' (l ++ [m]) -> sb_acc sb' = sumz avail_len (l ++ [m']) ->
    ready_ok (sb_fnrdy sb') (l ++ [m']) -> snd_ok (sb_sndptr sb') (sb_sndptroff sb') l -> acct sb' (l ++ [m'])).
  { intros sb' m' Hu' Hcn Hav Hrd Hsn.
    assert (Hmap : map unblk (l ++ [m]) = map unblk (l ++ [m'])) by (rewrite !map_app; cbn [map]; by rewrite Hum, Hu').
    destruct (counted_unrdy _ _ _ (unblk_unrdy _ _ Hmap) Hcn) as (? & ? & ? & ? & ?). split; try done.
    - rewrite <- (unrdy_ids _ _ (unblk_unrdy _ _ Hmap)). unfold ids. rewrite fmap_app. apply NoDup_app. repeat split; [done| |apply NoDup_singleton].
      intros x Hx. cbn. rewrite list_elem_of_singleton. by intros ->.
    - eapply unrdy_forall; [|exact (unblk_unrdy _ _ Hmap)|]; [done|]. apply Forall_app. split; [done|]. by apply Forall_singleton.
    - destruct (unrdy_sums _ _ (unblk_unrdy _ _ Hmap)) as [<- _]. rewrite sumz_app, sumz_cons. change (sumz _ []) with 0. lia.
    - destruct (sb_sndptr sb') as [i|]; [|done]. destruct Hsn as (x & y & z & -> & ? & ?).
      exists x, y, (z ++ [m']). by rewrite <- app_assoc. }
  unfold sballoc. destruct (sb_fnrdy sb) as [i|] eqn:Ef; [|destruct (m_notready m) eqn:Enr].
  - eexists _, _. split; [done|]. split; [|repeat split; first [done|exact Hum]].
    apply acct_of; try first [done|exact Hum]; cbn; rewrite ?Ef.
    + rewrite sumz_app, sumz_cons, avail_len_true by (unfold notavail; cbn; apply orb_true_r). change (sumz _ []) with 0. lia.
    + apply ready_ok_app_some; [done|]. by apply Forall_singleton.
  - eexists _, _. split; [done|]. split; [|repeat split; first [done|exact Hum]].
    apply acct_of; try done; cbn.
    + rewrite sumz_app, sumz_cons, avail_len_true by (unfold notavail; by rewrite Enr). change (sumz _ []) with 0. lia.
    + apply ready_ok_app_none; [done|]. cbn. by rewrite Enr.
  - eexists _, _. split; [done|]. split; [|repeat split; first [done|exact Hum]].
    change (m_size m) with (m_len m + (256 + ext_bytes m)) in Hsz. unfold MSIZE in Hb.
    apply acct_of; try done; cbn.
    + rewrite sumz_app, sumz_cons, avail_len_false by (unfold notavail; by rewrite Enr). change (sumz _ []) with 0.
      rewrite u32_small; lia.
    + apply ready_ok_app_none; [done|]. cbn. by rewrite Enr.
Qed.

(** * The queue of bytes *)

(** The bytes of a chain, each with whether it is ready. *)
Definition cells (m : mbuf) : list (Z * bool) := (fun b => (b, negb (m_notready m))) <$> m_bytes m.
Definition view (l : list mbuf) : list (Z * bool) := concat (cells <$> l).

(** The ready bytes in front of the first one that is not. *)
Fixpoint ready_prefix (v : list (Z * bool)) : list Z :=
  match v with
  | (b, true) :: t => b :: ready_prefix t
  | _ => []
  end.

(** The address of an mbuf and whether it is referenced from outside. *)
Definition sig (m : mbuf) : Z * bool := (m_id m, m_notready m).
Definition sigs (l : list mbuf) : list (Z * bool) := sig <$> l.
Definition ready_ids (g : list (Z * bool)) : list Z := fst <$> filter (fun p => snd p = false) g.

Lemma view_cons m l : view (m :: l) = cells m ++ view l.
Proof. done. Qed.

Lemma view_app a b : view (a ++ b) = view a ++ view b.
Proof. unfold view. by rewrite fmap_app, concat_app. Qed.

Lemma view_length l : Z.of_nat (length (view l)) = sumz m_len l.
Proof.
  induction l as [|m l IH]; [done|].
  rewrite view_cons, length_app, sumz_cons, <- IH. unfold cells, m_len. rewrite length_fmap. lia.
Qed.

Lemma cells_length m : Z.of_nat (length (cells m)) = m_len m.
Proof. unfold cells, m_len. by rewrite length_fmap. Qed.

Lemma unblk_view l l' : map unblk l = map unblk l' -> view l = view l'.
Proof.
  intros H. unfold view. f_equal. apply (f_equal (map cells)) in H. rewrite !map_map in H. exact H.
Qed.

Lemma unblk_sigs l l' : map unblk l = map unblk l' -> sigs l = sigs l'.
Proof. intros H. apply (f_equal (map sig)) in H. rewrite !map_map in H. exact H. Qed.

Lemma unblk_pos l l' : map unblk l = map unblk l' -> pos l -> pos l'.
Proof. intros H. apply unrdy_forall; [done|by apply unblk_unrdy]. Qed.

Lemma sigs_ids l : ids l = fst <$> sigs l.
Proof. unfold ids, sigs. rewrite <- list_fmap_compose. done. Qed.

Lemma ready_ids_app a b : ready_ids (a ++ b) = ready_ids a ++ ready_ids b.
Proof. unfold ready_ids. by rewrite filter_app, fmap_app. Qed.

Lemma ready_prefix_app_true a b :
  Forall (fun c => snd c = true) a -> ready_prefix (a ++ b) = (fst <$> a) ++ ready_prefix b.
Proof. induction 1 as [|[x []] a Hx Ha IH]; [done| |done]. cbn. by rewrite IH. Qed.

(** [sbavail] counts the ready bytes in front. *)
Lemma avail_view f l : ready_ok f l -> pos l -> Z.of_nat (length (ready_prefix (view l))) = sumz avail_len l.
Proof.
  revert f. induction l as [|m l IH]; intros f Hr Hp; [done|].
  apply Forall_cons in Hp as [Hm Hp]. pose proof (ready_ok_head _ _ _ Hr) as [Hna _]. cbn [ready_ok] in Hr.
  rewrite view_cons, sumz_cons. destruct (m_notready m) eqn:E.
  - destruct Hr as [_ Hr]. rewrite avail_len_true by (by rewrite Hna).
    rewrite sum_avail_blocked by done. unfold cells, m_len in *. destruct (m_bytes m); [simpl in Hm; lia|].
    cbn. rewrite E. done.
  - destruct Hr as [_ Hr]. rewrite avail_len_false by (by rewrite Hna).
    rewrite ready_prefix_app_true.
    + rewrite length_app, length_fmap, Nat2Z.inj_add, cells_length. by rewrite (IH f).
    + apply Forall_forall. intros c Hc. apply list_elem_of_fmap in Hc as (b & -> & _). cbn. by rewrite E.
Qed.

(** ** Cutting *)

(** A cut never ends inside an mbuf that is not available. *)
Definition cut_ok (len : Z) (l : list mbuf) : Prop :=
  0 <= len /\ (len <= sumz avail_len l \/ len = sumz m_len l).

(** The state after a cut from [m] to [m'], with [rest] behind. *)
Record cut_to (sb sb' : sockbuf) (m m' rest f f' : list mbuf) : Prop := {
  k_acct : acct sb' (m' ++ rest);
  k_frame : frame sb sb';
  k_none : sb_fnrdy sb = None -> sb_fnrdy sb' = None;
  k_pos : pos m -> pos m';
  k_free : exists g, sigs m = g ++ sigs m' /\ ids f' = reverse (ready_ids g) ++ ids f;
  k_size : sumz m_size m' <= sumz m_size m
}.

Lemma frame_trans a b c : frame a b -> frame b c -> frame a c.
Proof. unfold frame. intuition congruence. Qed.

(** Freeing [x] and going on from there. *)
Lemma cut_to_free sb sb1 sb' x t t1 m' rest f f' (b : bool) :
  map unblk t1 = map unblk t -> frame sb sb1 -> (sb_fnrdy sb = None -> sb_fnrdy sb1 = None) ->
  (b = true -> m_notready x = true) ->
  cut_to sb1 sb' t1 m' rest (if b then f else x :: f) f' ->
  (b = false -> m_notready x = false) -> 0 <= m_size x ->
  cut_to sb sb' (x :: t) m' rest f f'.
Proof.
  intros Hu Hf Hn Hb [H1 H2 H3 H4 (g & Hg & Hfr) H6] Hb' Hx. split; auto.
  - by eapply frame_trans.
  - intros Hp. apply Forall_cons in Hp as [_ Hp]. apply H4. by eapply unblk_pos.
  - exists (sig x :: g). rewrite (unblk_sigs _ _ Hu) in Hg. split; [unfold sigs in *; cbn; by rewrite Hg|].
    rewrite Hfr. change (sig x :: g) with ([sig x] ++ g). rewrite ready_ids_app, reverse_app, <- app_assoc. f_equal.
    destruct b.
    + unfold ready_ids, sig. rewrite Hb by done. done.
    + unfold ready_ids, sig. rewrite Hb' by done. done.
  - rewrite sumz_cons. destruct (unrdy_sums _ _ (unblk_unrdy _ _ Hu)) as (Hs & _). lia.
Qed.

Lemma acct_head_size sb x l : acct sb (x :: l) -> 0 <= m_size x.
Proof. intros Ha. pose proof (a_ext _ _ Ha) as He. apply Forall_cons in He as [He _]. pose proof (m_len_nonneg x). unfold m_size, MSIZE. lia. Qed.

Lemma cut_to_refl sb m rest f : acct sb (m ++ rest) -> cut_to sb sb m m rest f f.
Proof. intros H. split; auto; [done| |lia]. by exists []. Qed.

Lemma chop_len x len : 0 <= len <= m_len x -> m_len (chop x len) = m_len x - len.
Proof. intros H. unfold m_len, chop in *. cbn. rewrite length_drop. lia. Qed.

Lemma chop_cells x len : cells (chop x len) = drop (Z.to_nat len) (cells x).
Proof. unfold cells, chop. cbn. by rewrite fmap_drop. Qed.

Lemma snd_ok_chop p off x l len :
  snd_ok p off (x :: l) -> 0 < len < m_len x -> sumz m_len (x :: l) < 2 ^ 31 ->
  snd_ok p (if off =? 0 then off else u32 (off - len)) (chop x len :: l).
Proof.
  destruct p as [i|]; [|intros -> _; done]. intros (a & m & b & Hl & Hi & ->) Hlen Hb.
  destruct a as [|y a]; simplify_eq/=.
  - exists [], (chop m len), b. done.
  - exists (chop y len :: a), m, b. split; [done|]. split; [done|].
    rewrite !sumz_cons, chop_len by lia. rewrite sumz_cons, sumz_app in Hb.
    pose proof (sum_len_nonneg a). pose proof (sum_len_nonneg (m :: b)).
    destruct (Z.eqb_spec (m_len y + sumz m_len a) 0); [lia|]. rewrite u32_small; lia.
Qed.

Lemma cut_head_spec sb x l len :
  acct sb (x :: l) -> 0 < len < m_len x -> notavail x = false -> acct (cut_head sb x len) (chop x len :: l).
Proof.
  intros [Hd He Hs H1 H2 H3 H4 H5 H6 Hr Hsnd] Hlen Hna.
  pose proof (size_bounds _ He) as Hb. rewrite !sumz_cons in Hb. rewrite sumz_cons in *.
  pose proof He as He'. apply Forall_cons in He' as [Hex He']. pose proof (size_bounds _ He') as Hb'.
  change (m_size x) with (m_len x + (256 + ext_bytes x)) in *. unfold MSIZE in *.
  pose proof (snd_ok_chop _ _ _ _ len Hsnd Hlen ltac:(rewrite sumz_cons; lia)) as Hsnd'.
  assert (Hc : ctl_len (chop x len) = if is_ctl x then m_len x - len else 0).
  { unfold ctl_len. change (is_ctl (chop x len)) with (is_ctl x). destruct (is_ctl x); [|done]. apply chop_len. lia. }
  assert (Hc0 : ctl_len x = if is_ctl x then m_len x else 0) by done.
  unfold cut_head. destruct (sb_sndptroff sb =? 0) eqn:Eo; (split; cbn [with_snd with_fnrdy with_cnt sb_ccc sb_acc sb_mbcnt sb_mcnt sb_ccnt sb_ctl sb_fnrdy sb_sndptr sb_sndptroff]; rewrite ?sumz_cons).
  all: try done.
  all: change (m_size (chop x len)) with (m_len (chop x len) + (256 + ext_bytes x)) || idtac.
  all: rewrite ?chop_len, ?Hc by lia.
  all: try (rewrite avail_len_false in * by done; rewrite ?chop_len by lia).
  all: try (rewrite u32_small; lia).
  all: try lia.
  all: try by apply Forall_cons.
  all: destruct (is_ctl x); rewrite ?u32_small; lia.
Qed.

Lemma cut_ok_head len x l f :
  cut_ok len (x :: l) -> ready_ok f (x :: l) -> 0 < len -> len < m_len x -> notavail x = false.
Proof.
  intros [_ H] Hr H0 Hlt. rewrite !sumz_cons in H. pose proof (sum_len_nonneg l).
  destruct (notavail x) eqn:E; [|done]. rewrite avail_len_true in H by done.
  destruct (ready_ok_head _ _ _ Hr) as [Hna _]. cbn in Hr. rewrite <- Hna, E in Hr.
  rewrite sum_avail_blocked in H by tauto. lia.
Qed.

Lemma cut_ok_next len x t t1 rest f :
  cut_ok len (x :: t ++ rest) -> ready_ok f (x :: t ++ rest) -> map unblk t1 = map unblk t ->
  (m_notready x = false -> t1 = t) -> 0 < len -> m_len x <= len -> cut_ok (len - m_len x) (t1 ++ rest).
Proof.
  intros [_ H] Hr Hu Ht H0 Hle. split; [lia|]. rewrite !sumz_cons in H.
  destruct (unrdy_sums _ _ (unblk_unrdy _ _ (unblk_app _ _ rest Hu))) as (_ & Hl & _).
  destruct (ready_ok_head _ _ _ Hr) as [Hna _]. cbn in Hr. destruct (m_notready x) eqn:E.
  - rewrite avail_len_true in H by (by rewrite Hna). rewrite sum_avail_blocked in H by tauto. lia.
  - rewrite avail_len_false in H by (by rewrite Hna). destruct H as [H|H]; [|right; lia]. left.
    rewrite Ht by done. lia.
Qed.

Lemma cut_record_spec fuel sb m rest len f :
  acct sb (m ++ rest) -> (sb_fnrdy sb = None \/ rest = []) -> cut_ok len (m ++ rest) -> (length m <= fuel)%nat ->
  exists sb' m' len' f', cut_record fuel sb m len f = Done (sb', m', len', f') /\
    cut_to sb sb' m m' rest f f' /\ cut_ok len' (m' ++ rest) /\
    (0 < len' -> m' = [] /\ len = sumz m_len m + len') /\
    (len' = 0 -> len <= sumz m_len m /\ view m' = drop (Z.to_nat len) (view m)).
Proof.
  revert sb m len f. induction fuel as [|n IH]; intros sb m len f Ha Hone Hk Hf.
  all: pose proof Hk as [H0 _].
  all: assert (len = 0 \/ 0 < len) as [->|Hpos] by lia;
    [exists sb, m, 0, f; destruct m; (split; [done|]; split; [by apply cut_to_refl|]; split; [done|];
       split; [lia|]; split; [apply sum_len_nonneg|done])|].
  - destruct m; [|simpl in Hf; lia]. exists sb, [], len, f. cbn. assert (len >? 0 = true) as -> by lia.
    split; [done|]. split; [by apply cut_to_refl|]. split; [done|]. split; [done|lia].
  - destruct m as [|x t].
    { exists sb, [], len, f. cbn. assert (len >? 0 = true) as -> by lia.
      split; [done|]. split; [by apply cut_to_refl|]. split; [done|]. split; [done|lia]. }
    cbn [cut_record]. assert (len >? 0 = true) as -> by lia. pose proof (a_rdy _ _ Ha) as Hr. pose proof (acct_head_size _ _ _ Ha) as Hxs.
    pose proof (sum_len_nonneg t).
    destruct (m_len x >? len) eqn:E.
    + assert (notavail x = false) as Hna by (eapply cut_ok_head; eauto; lia).
      eexists _, _, _, _. split; [done|]. split; [|split; [|split; [lia|]]].
      * split; try done.
        -- apply cut_head_spec; try done. lia.
        -- unfold cut_head. destruct (sb_sndptroff sb =? 0); done.
        -- unfold cut_head. destruct (sb_sndptroff sb =? 0); done.
        -- intros Hp. apply Forall_cons in Hp as [_ Hp]. apply Forall_cons. rewrite chop_len by lia. split; [lia|done].
        -- by exists [].
        -- rewrite !sumz_cons. change (m_size (chop x len)) with (m_len (chop x len) + (MSIZE + ext_bytes x)).
           rewrite chop_len by lia. change (m_size x) with (m_len x + (MSIZE + ext_bytes x)). lia.
      * split; [lia|]. left. apply sumz_nonneg, avail_len_nonneg.
      * intros _. rewrite sumz_cons. split; [lia|]. rewrite !view_cons, chop_cells.
        rewrite drop_app_le; [done|]. pose proof (cells_length x). lia.
    + destruct (sbfree_spec sb x t rest Ha Hone) as (sb1 & t1 & -> & Ha1 & Hu & Hfr & Hn & Ht).
      pose proof (cut_ok_next _ _ _ _ _ _ Hk Hr Hu Ht Hpos ltac:(lia)) as Hk1.
      destruct (unrdy_sums _ _ (unblk_unrdy _ _ Hu)) as (_ & Hl & _).
      destruct (IH sb1 t1 (len - m_len x) (if m_notready x then f else x :: f))
        as (sb' & m' & len' & f' & -> & Hc & Hk' & Hgt & Heq).
      { done. } { destruct Hone; auto. } { done. }
      { apply (f_equal length) in Hu. rewrite !length_map in Hu. cbn in Hf. lia. }
      exists sb', m', len', f'. split; [done|]. split; [by eapply cut_to_free|]. split; [done|].
      rewrite sumz_cons. split.
      * intros H1. destruct (Hgt H1). split; [done|lia].
      * intros H1. destruct (Heq H1) as [Hle ->]. split; [lia|].
        rewrite (unblk_view _ _ Hu), view_cons. pose proof (cells_length x).
        rewrite drop_app_ge by lia. f_equal. lia.
Qed.

Lemma pos_app a b : pos (a ++ b) <-> pos a /\ pos b.
Proof. apply Forall_app. Qed.

Lemma sigs_app a b : sigs (a ++ b) = sigs a ++ sigs b.
Proof. apply fmap_app. Qed.

Lemma cut_to_trans sb sb1 sb2 m m1 rest x f f1 f2 :
  cut_to sb sb1 m m1 rest f f1 -> cut_to sb1 sb2 (m1 ++ rest) x [] f1 f2 -> cut_to sb sb2 (m ++ rest) x [] f f2.
Proof.
  intros [A1 A2 A3 A4 (g & Hg & Hf) A6] [B1 B2 B3 B4 (g' & Hg' & Hf') B6]. split; auto.
  - by eapply frame_trans.
  - rewrite pos_app in *. tauto.
  - exists (g ++ g'). rewrite sigs_app, Hg, <- app_assoc, <- sigs_app, Hg', app_assoc. split; [done|].
    by rewrite Hf', Hf, ready_ids_app, reverse_app, app_assoc.
  - rewrite sumz_app in *. lia.
Qed.

Lemma cut_to_flat sb sb1 m m1 rest f f1 :
  cut_to sb sb1 m m1 rest f f1 -> cut_to sb sb1 (m ++ rest) (m1 ++ rest) [] f f1.
Proof. intros H. eapply cut_to_trans; [done|]. apply cut_to_refl. rewrite app_nil_r. apply H. Qed.

Lemma one_concat (o : option Z) (next : list (list mbuf)) :
  o = None \/ next = [] -> o = None \/ concat next = [].
Proof. intros [H|H]; [by left|right; by rewrite H]. Qed.

Lemma cut_records_spec sb m next len f :
  acct sb (m ++ concat next) -> Forall (fun r => r <> []) next -> (sb_fnrdy sb = None \/ next = []) ->
  cut_ok len (m ++ concat next) ->
  exists sb' m' next' f', cut_records sb m next len f = Done (sb', m', next', f') /\
    cut_to sb sb' (m ++ concat next) (m' ++ concat next') [] f f' /\
    view (m' ++ concat next') = drop (Z.to_nat len) (view (m ++ concat next)) /\
    (exists k, next' = drop k next).
Proof.
  revert sb m len f. induction next as [|r rs IH]; intros sb m len f Ha Hne Hone Hk.
  all: destruct (cut_record_spec (length m) sb m _ len f Ha (one_concat _ _ Hone) Hk ltac:(lia)) as (sb1 & m1 & len1 & f1 & He & Hc & Hk1 & Hgt & Heq).
  all: cbn [cut_records]; rewrite He; cbn [mbind outcome_bind].
  all: destruct Hk1 as [H1 Hk1]; assert (len1 = 0 \/ 0 < len1) as [->|Hpos] by lia.
  - cbn. destruct (Heq eq_refl) as [Hle Hv]. eexists _, _, [], _. split; [done|]. split; [by apply cut_to_flat|].
    split; [|by exists 0%nat]. cbn. rewrite !app_nil_r in *. done.
  - destruct (Hgt Hpos) as [-> Hl]. cbn in Hk1. exfalso. change (sumz avail_len []) with 0 in Hk1.
    change (sumz m_len []) with 0 in Hk1. lia.
  - cbn. destruct (Heq eq_refl) as [Hle Hv]. eexists _, _, (r :: rs), _. split; [done|]. split; [by apply cut_to_flat|].
    split; [|by exists 0%nat]. rewrite (view_app m1), (view_app m), Hv. pose proof (view_length m).
    by rewrite drop_app_le by lia.
  - assert (len1 >? 0 = true) as -> by lia. destruct (Hgt Hpos) as [-> Hl].
    apply Forall_cons in Hne as [Hr Hne]. cbn in Hk1.
    destruct Hone as [Hnone|]; [|done].
    destruct (IH sb1 r len1 f1) as (sb' & m' & next' & f' & -> & Hc' & Hv & (k & ->)).
    { apply Hc. } { done. } { left. by apply Hc. } { by split. }
    eexists _, _, _, _. split; [done|]. split; [by eapply cut_to_trans|]. split; [|by exists (S k)].
    rewrite Hv. cbn [concat]. rewrite (view_app m). pose proof (view_length m).
    rewrite drop_app_ge by lia. f_equal. lia.
Qed.

Lemma cut_empty_spec fuel sb m rest f :
  acct sb (m ++ rest) -> (sb_fnrdy sb = None \/ pos m) -> (length m <= fuel)%nat ->
  exists sb' m' f', cut_empty fuel sb m f = Done (sb', m', f') /\ cut_to sb sb' m m' rest f f' /\
    view m' = view m /\ (sumz m_len m' = 0 -> m' = []).
Proof.
  revert sb m f. induction fuel as [|n IH]; intros sb m f Ha Hone Hf; (destruct m as [|x t];
    [eexists _, _, _; split; [done|]; split; [by apply cut_to_refl|by split]|]); [cbn in Hf; lia|].
  cbn [cut_empty]. destruct (Z.eqb_spec (m_len x) 0) as [Hx|].
  2:{ eexists _, _, _. split; [done|]. split; [by apply cut_to_refl|]. split; [done|].
      rewrite sumz_cons. pose proof (m_len_nonneg x). pose proof (sum_len_nonneg t). lia. }
  destruct Hone as [Hnone|Hp]; [|apply Forall_cons in Hp; lia].
  assert (m_notready x = false) as Hnr.
  { pose proof (a_rdy _ _ Ha) as Hr. rewrite Hnone in Hr. cbn in Hr. destruct (m_notready x); naive_solver. }
  destruct (sbfree_spec sb x t rest Ha (or_introl Hnone)) as (sb1 & t1 & -> & Ha1 & Hu & Hfr & Hn & Ht).
  rewrite Ht in * by done.
  destruct (IH sb1 t (x :: f)) as (sb' & m' & f' & -> & Hc & Hv & Hz); [done|by left; auto|cbn in Hf; lia|].
  eexists _, _, _. split; [done|]. split.
  - eapply (cut_to_free sb sb1 sb' x t t m' rest f f' false); try done. by eapply acct_head_size.
  - split; [|done]. rewrite Hv, view_cons. pose proof (cells_length x). by destruct (cells x); [|simpl in *; lia].
Qed.

(** ** The buffer *)

Lemma last_ids l : m_id <$> last l = last (ids l).
Proof. unfold ids. by rewrite fmap_last. Qed.

Lemma last_app_ne {A} (a b : list A) : b <> [] -> last (a ++ b) = last b.
Proof. intros H. rewrite last_app. destruct (last b) eqn:E; [done|]. by apply last_None in E. Qed.

Lemma last_drop_ne {A} (l : list A) k : drop k l <> [] -> last (drop k l) = last l.
Proof. intros H. rewrite <- (take_drop k l) at 2. by rewrite last_app_ne. Qed.

(** What is left of the records after the first one shrank to [m2] and [k]
    more went. *)
Definition requeue (m2 : list mbuf) (k : nat) (next : list (list mbuf)) : list (list mbuf) :=
  match m2 with [] => drop k next | _ => m2 :: drop k next end.

Lemma requeue_concat m2 k next : concat (requeue m2 k next) = m2 ++ concat (drop k next).
Proof. by destruct m2. Qed.

Lemma requeue_ne m2 k next :
  Forall (fun r => r <> []) next -> Forall (fun r => r <> []) (requeue m2 k next).
Proof.
  intros H. destruct m2; [by apply Forall_drop|]. apply Forall_cons. split; [done|by apply Forall_drop].
Qed.

Lemma requeue_length m m2 k next : (length (requeue m2 k next) <= length (m :: next))%nat.
Proof. pose proof (length_drop next k). destruct m2; cbn in *; lia. Qed.

Lemma requeue_last m m2 k next :
  (2 <= length (requeue m2 k next))%nat -> last (requeue m2 k next) = last (m :: next).
Proof.
  intros H2. assert (Hdr : drop k next <> []) by (intros E; unfold requeue in H2; rewrite E in H2; destruct m2; cbn in H2; lia).
  assert (Hn : next <> []) by (intros ->; by rewrite drop_nil in Hdr).
  change (m :: next) with ([m] ++ next). rewrite (last_app_ne [m]), <- (last_drop_ne next k) by done.
  destruct m2 as [|y m2]; [done|]. change (requeue (y :: m2) k next) with ([y :: m2] ++ drop k next). by apply last_app_ne.
Qed.

(** The end of [sbcut_internal] and [SB_EMPTY_FIXUP]: the pointers of a buffer
    whose records are now [q]. *)
Lemma fixup_inv sb sb2 q g :
  inv sb -> frame sb sb2 -> acct sb2 (concat q) -> Forall (fun r => r <> []) q ->
  sigs (chain sb) = g ++ sigs (concat q) -> ((2 <= length q)%nat -> last q = last (sb_mb sb)) ->
  (sb_fnrdy sb2 = None \/ ((length q <= 1)%nat /\ pos (concat q))) ->
  inv (cut_fixup (with_mb sb2 q)) /\ chain (cut_fixup (with_mb sb2 q)) = concat q /\
  sb_mb (cut_fixup (with_mb sb2 q)) = q.
Proof.
  intros [_ _ Ht Hl _] (_ & Ft & Fl & _) Ha Hne Hg Hlast Hone.
  assert (Htail : q <> [] -> sb_mbtail sb2 = m_id <$> last (concat q)).
  { intros Hn. rewrite <- Ft, Ht, !last_ids, !sigs_ids, Hg, fmap_app, last_app_ne; [done|].
    rewrite <- sigs_ids. destruct q as [|[|y r] rs]; [done|by apply Forall_cons in Hne as []|done]. }
  destruct q as [|r [|r2 q]]; (split; [|done]); destruct Ha; (split; [done|done| | |done]); cbn -[last].
  all: try done; try by apply Htail.
  rewrite <- Fl, Hl, Hlast by (cbn; lia). done.
Qed.

Lemma cut_fixup_fields sb :
  cfg (cut_fixup sb) = cfg sb /\ sb_freed (cut_fixup sb) = sb_freed sb.
Proof. unfold cut_fixup. by destruct (sb_mb sb) as [|r [|? ?]]. Qed.

Lemma sbcut_empty sb : inv sb -> sb_mb sb = [] -> forall len, cut_ok len (chain sb) -> len = 0.
Proof.
  intros Hi H len [H0 Hk]. unfold chain in Hk. rewrite H in Hk.
  change (sumz avail_len (concat [])) with 0 in Hk. change (sumz m_len (concat [])) with 0 in Hk. lia.
Qed.

(** [sbcut_internal] removes exactly [len] bytes and keeps the invariant; it
    returns the removed mbufs that are not referenced from outside. *)
Lemma sbcut_spec sb len :
  inv sb -> cut_ok len (chain sb) ->
  exists sb' f, sbcut_internal sb len = Done (sb', f) /\ inv sb' /\
    view (chain sb') = drop (Z.to_nat len) (view (chain sb)) /\
    (pos (chain sb) -> pos (chain sb')) /\ (length (sb_mb sb') <= length (sb_mb sb))%nat /\
    cfg sb' = cfg sb /\ sb_freed sb' = sb_freed sb /\
    (sumz m_len (chain sb') = 0 -> sb_mb sb <> [] -> (length (sb_mb sb') < length (sb_mb sb))%nat) /\
    exists g, sigs (chain sb) = g ++ sigs (chain sb') /\ ids f = reverse (ready_ids g) /\
      sumz m_size (chain sb') <= sumz m_size (chain sb).
Proof.
  intros Hi Hk. pose proof Hi as [Hne Ha Ht Hl Hone]. unfold sbcut_internal.
  destruct (sb_mb sb) as [|m next] eqn:Eq.
  { rewrite (sbcut_empty sb Hi Eq len Hk). eexists _, _. split; [done|].
    assert (chain sb = []) as Hch by (unfold chain; by rewrite Eq). rewrite Hch in Ha.
    destruct (fixup_inv sb sb [] [] Hi) as (H1 & H2 & H3);
      [done|done|constructor|by rewrite Hch|cbn; lia|right; split; [cbn; lia|constructor]|].
    rewrite Hch, H2, H3. split; [exact H1|]. do 6 (split; [done|]). by exists []. }
  assert (Hch : chain sb = m ++ concat next) by (unfold chain; by rewrite Eq).
  apply Forall_cons in Hne as [_ Hne].
  assert (Hone' : sb_fnrdy sb = None \/ (next = [] /\ pos m)).
  { destruct Hone as [|[H1 H2]]; [by left|right]. destruct next; [|cbn in H1; lia].
    rewrite Hch in H2. cbn in H2. rewrite app_nil_r in H2. done. }
  rewrite Hch in Ha, Hk |- *.
  destruct (cut_records_spec sb m next len []) as (sb1 & m1 & next1 & f1 & -> & Hc1 & Hv1 & k & ->);
    [done|done|naive_solver|done|]. cbn [mbind outcome_bind].
  assert (Ha1 : acct sb1 (m1 ++ concat (drop k next))) by (pose proof (k_acct _ _ _ _ _ _ _ Hc1) as H; by rewrite app_nil_r in H).
  destruct (cut_empty_spec (length m1) sb1 m1 (concat (drop k next)) f1) as (sb2 & m2 & f2 & -> & Hc2 & Hv2 & Hz2); [done| |lia|].
  { destruct Hone' as [H|[H1 H2]]; [left; by apply Hc1|right].
    pose proof (k_pos _ _ _ _ _ _ _ Hc1) as Hp. rewrite H1, drop_nil in Hp. cbn in Hp. rewrite !app_nil_r in Hp. auto. }
  cbn [mbind outcome_bind]. change (match m2 with [] => _ | _ => _ end) with (requeue m2 k next).
  assert (Hc : cut_to sb sb2 (m ++ concat next) (m2 ++ concat (drop k next)) [] [] f2).
  { rewrite <- (app_nil_r (m ++ concat next)).
    eapply cut_to_trans; [exact Hc1|]. rewrite app_nil_r. by apply cut_to_flat. }
  destruct Hc as [Hca Hfr Hnone Hp (g & Hg & Hfree) Hsz]. rewrite app_nil_r in Hca, Hfree.
  rewrite <- requeue_concat in Hca, Hg, Hp, Hsz. pose proof Hfr as (_ & _ & _ & Hfl & Hfd).
  eexists _, f2. split; [done|].
  destruct (fixup_inv sb sb2 (requeue m2 k next) g) as (H1 & H2 & H3); [done|done|done|by apply requeue_ne|by rewrite Hch| | |].
  { rewrite Eq. apply requeue_last. }
  { destruct Hone as [H|[Hx1 Hx2]]; [left; auto|right]. rewrite Hch in Hx2. split; [|auto].
    pose proof (requeue_length m m2 k next). lia. }
  rewrite H2, H3. split; [exact H1|]. split.
  { rewrite requeue_concat, view_app, Hv2, <- view_app. done. }
  split; [done|]. split; [apply (requeue_length m)|].
  destruct (cut_fixup_fields (with_mb sb2 (requeue m2 k next))) as [-> ->]. do 2 (split; [done|]).
  split; [|by exists g]. intros Hz _. rewrite requeue_concat, sumz_app in Hz.
  pose proof (sum_len_nonneg m2). pose proof (sum_len_nonneg (concat (drop k next))).
  rewrite Hz2 by lia. cbn. rewrite length_drop. lia.
Qed.

(** ** Appending *)

(** The last record and the last mbuf. *)
Lemma q_last (q : list (list mbuf)) :
  Forall (fun r => r <> []) q -> q <> [] -> exists q0 r0 n, q = q0 ++ [r0 ++ [n]].
Proof.
  intros Hne Hq. destruct (exists_last Hq) as (q0 & r & ->).
  apply Forall_app in Hne as [_ Hr]. apply Forall_cons in Hr as [Hr _].
  destruct (exists_last Hr) as (r0 & n & ->). by exists q0, r0, n.
Qed.

Lemma chain_last q0 r0 (n : mbuf) : concat (q0 ++ [r0 ++ [n]]) = (concat q0 ++ r0) ++ [n].
Proof. rewrite concat_app. cbn. by rewrite app_nil_r, app_assoc. Qed.

Lemma not_in_ids i l m : i ∉ ids l -> m ∈ l -> m_id m =? i = false.
Proof. intros Hi Hm. apply Z.eqb_neq. intros <-. apply Hi, list_elem_of_fmap. eauto. Qed.

Lemma map_upd_other i (f : mbuf -> mbuf) l :
  i ∉ ids l -> map (fun m => if m_id m =? i then f m else m) l = l.
Proof.
  intros Hi. rewrite <- (map_id l) at 2. apply map_ext_in. intros m Hm.
  by rewrite (not_in_ids i l m Hi (proj2 (list_elem_of_In _ _) Hm)).
Qed.

Lemma cut_after_other i m r : i ∉ ids r -> cut_after i m r = r.
Proof.
  induction r as [|h t IH]; [done|]. unfold ids. rewrite fmap_cons, not_elem_of_cons. intros [H1 H2].
  cbn. assert (m_id h =? i = false) as -> by lia. by rewrite IH.
Qed.

Lemma cut_after_last m r n : m_id n ∉ ids r -> cut_after (m_id n) m (r ++ [n]) = r ++ [n; m].
Proof.
  induction r as [|h t IH]; [cbn; by rewrite Z.eqb_refl|].
  unfold ids. rewrite fmap_cons, not_elem_of_cons. intros [H1 H2].
  cbn. assert (m_id h =? m_id n = false) as -> by lia. by rewrite IH.
Qed.

Lemma map_cut_after_other i m q : i ∉ ids (concat q) -> map (cut_after i m) q = q.
Proof.
  induction q as [|r q IH]; [done|]. cbn. unfold ids. rewrite fmap_app, not_elem_of_app. intros [H1 H2].
  by rewrite cut_after_other, IH.
Qed.

Lemma map_map_upd_other i f q :
  i ∉ ids (concat q) -> map (map (fun m => if m_id m =? i then f m else m)) q = q.
Proof.
  induction q as [|r q IH]; [done|]. cbn. unfold ids. rewrite fmap_app, not_elem_of_app. intros [H1 H2].
  by rewrite map_upd_other, IH.
Qed.

Lemma ids_app a b : ids (a ++ b) = ids a ++ ids b.
Proof. apply fmap_app. Qed.

(** The last mbuf's address occurs once. *)
Lemma last_id_fresh q0 r0 n :
  NoDup (ids (concat (q0 ++ [r0 ++ [n]]))) -> m_id n ∉ ids (concat q0) /\ m_id n ∉ ids r0.
Proof.
  rewrite chain_last, !ids_app, <- app_assoc. intros H.
  apply NoDup_app in H as (_ & Hx & H). apply NoDup_app in H as (_ & Hy & _). split; intros Hi.
  - apply (Hx _ Hi). apply elem_of_app. right. by apply list_elem_of_singleton.
  - apply (Hy _ Hi). by apply list_elem_of_singleton.
Qed.

Lemma set_next_last sb q0 r0 n m :
  sb_mb sb = q0 ++ [r0 ++ [n]] -> NoDup (ids (chain sb)) ->
  set_next sb (m_id n) m = with_mb sb (q0 ++ [r0 ++ [n; m]]).
Proof.
  unfold set_next, chain. intros E Hd. rewrite E in *. destruct (last_id_fresh _ _ _ Hd).
  rewrite map_app. cbn [map]. rewrite map_cut_after_other, cut_after_last by done. done.
Qed.

Lemma upd_last sb q0 r0 n f :
  sb_mb sb = q0 ++ [r0 ++ [n]] -> NoDup (ids (chain sb)) ->
  upd sb (m_id n) f = with_mb sb (q0 ++ [r0 ++ [f n]]).
Proof.
  unfold upd, chain. intros E Hd. rewrite E in *. destruct (last_id_fresh _ _ _ Hd).
  rewrite map_app. cbn [map]. rewrite map_map_upd_other, map_app by done. cbn [map].
  rewrite map_upd_other, Z.eqb_refl by done. done.
Qed.

Lemma find_last l n : m_id n ∉ ids l -> List.find (is_ptr (Some (m_id n))) (l ++ [n]) = Some n.
Proof.
  induction l as [|h t IH]; [cbn; by rewrite Z.eqb_refl|].
  unfold ids. rewrite fmap_cons, not_elem_of_cons. intros [H1 H2].
  cbn. assert (m_id n =? m_id h = false) as -> by lia. by apply IH.
Qed.
