(* ===== verification/SbAppend.v ===== *)
(** Appending to the socket buffers of SbQueue.v: [sbcompress] and the
    functions built on it keep the accounting, lose no byte and no mbuf. *)
From stdpp Require Import base list.
From Stdlib Require Import ZArith Lia.
From S2P Require Import Prelude SbQueue.

Local Open Scope Z_scope.

(** An mbuf that may be given to a socket buffer. *)
Definition fresh_mbuf (m : mbuf) : Prop := m_blocked m = false /\ 0 <= ext_bytes m.

(** Is the buffer a stream buffer?  Not-ready data goes only there, record
    marks only elsewhere. *)
Section mode.
Variable is_stream : bool.

Definition one_ok (sb : sockbuf) (eor : bool) (m : list mbuf) : Prop :=
  if is_stream then
    (length (sb_mb sb) <= 1)%nat /\ pos (chain sb) /\ eor = false /\ Forall (fun x => m_eor x = false) m
  else sb_fnrdy sb = None /\ Forall (fun x => m_notready x = false) m.

(** The loop of [sbcompress] before it takes the mbufs [m]. *)
Record appending (sb : sockbuf) (eor : bool) (m : list mbuf) : Prop := {
  p_ne : Forall (fun r => r <> []) (sb_mb sb);
  p_acct : acct sb (chain sb);
  p_tail : sb_mbtail sb = m_id <$> last (chain sb);
  p_ids : NoDup (ids (chain sb) ++ ids m);
  p_mbufs : Forall fresh_mbuf m;
  p_size : sumz m_size (chain sb) + sumz m_size m < 2 ^ 31;
  p_one : one_ok sb eor m;
  p_eor : eor = true -> m <> [] \/ sb_mb sb <> []
}.

Definition last_ok (sb : sockbuf) : Prop :=
  sb_lastrecord sb = (r ← last (sb_mb sb); m_id <$> head r).

(** sb_lastrecord while [m] is being appended: right, or, in an empty buffer,
    the next mbuf. *)
Definition lr_ok (sb : sockbuf) (m : list mbuf) : Prop :=
  (sb_mb sb <> [] /\ last_ok sb) \/ (sb_mb sb = [] /\ sb_lastrecord sb = m_id <$> head m).

(** Only the last record changes, behind its first mbuf. *)
Inductive shape (q q' : list (list mbuf)) : Prop :=
  | shape_nil : q = [] -> (length q' <= 1)%nat -> shape q q'
  | shape_snoc q0 h t h' t' :
      q = q0 ++ [h :: t] -> q' = q0 ++ [h' :: t'] -> m_id h' = m_id h -> shape q q'.

(** What a step of the loop keeps. *)
Record keeps (sb : sockbuf) (m : list mbuf) (sb' : sockbuf) (m' : list mbuf) : Prop := {
  e_view : view (chain sb') ++ view m' = view (chain sb) ++ view m;
  e_ids : ids (chain sb') ++ ids m' ++ sb_freed sb' ≡ₚ ids (chain sb) ++ ids m ++ sb_freed sb;
  e_flags : cfg sb' = cfg sb;
  e_last : lr_ok sb m -> lr_ok sb' m';
  e_shape : shape (sb_mb sb) (sb_mb sb');
  e_freed : sb_freed sb `prefix_of` sb_freed sb';
  e_size : sumz m_size (chain sb') + sumz m_size m' <= sumz m_size (chain sb) + sumz m_size m
}.

Lemma shape_refl q : Forall (fun r => r <> []) q -> shape q q.
Proof.
  intros Hne. destruct (decide (q = [])) as [->|Hq]; [apply shape_nil; cbn; auto with lia|].
  destruct (exists_last Hq) as (q0 & [|h t] & ->).
  - apply Forall_app in Hne as [_ Hne]. by apply Forall_cons in Hne as [].
  - by apply (shape_snoc _ _ q0 h t h t).
Qed.

Lemma shape_trans a b c : shape a b -> shape b c -> shape a c.
Proof.
  intros [-> Hl|q0 h t h' t' -> E1 Hh] [E2 Hl2|q1 g u g' u' E2 -> Hg]; try rewrite E1 in E2.
  - by apply shape_nil.
  - rewrite E2, length_app in Hl. cbn in Hl. apply shape_nil; [done|]. rewrite length_app. cbn. lia.
  - by destruct q0.
  - apply app_inj_tail in E2 as [-> [= -> ->]]. by eapply shape_snoc; [| |etrans].
Qed.

Lemma app_keeps_trans sb m sb1 m1 sb2 m2 : keeps sb m sb1 m1 -> keeps sb1 m1 sb2 m2 -> keeps sb m sb2 m2.
Proof.
  intros [A1 A2 A3 A4 A5 A6 A7] [B1 B2 B3 B4 B5 B6 B7]. split; [congruence|by etrans|congruence|auto|by eapply shape_trans|by etrans|lia].
Qed.

(** ** The three ways of an mbuf *)

Lemma one_ok_tail sb eor mb next :
  one_ok sb eor (mb :: next) -> one_ok sb (eor || m_eor mb) next.
Proof.
  unfold one_ok. destruct is_stream; [intros (H1 & H2 & -> & H3)|intros [H1 H2]].
  - apply Forall_cons in H3 as [-> ?]. done.
  - by apply Forall_cons in H2 as [_ ?].
Qed.

Lemma last_in sb :
  last_ok sb -> Forall (fun r => r <> []) (sb_mb sb) -> sb_mb sb <> [] ->
  exists i, sb_lastrecord sb = Some i /\ i ∈ ids (chain sb).
Proof.
  unfold last_ok, chain. intros H Hne Hq. destruct (exists_last Hq) as (q0 & [|h t] & E); rewrite E in *.
  - apply Forall_app in Hne as [_ Hne]. by apply Forall_cons in Hne as [].
  - rewrite last_snoc in H. cbn in H. exists (m_id h). split; [done|].
    rewrite concat_app, ids_app, elem_of_app. right. cbn. apply elem_of_cons. by left.
Qed.

Lemma fresh_size m : fresh_mbuf m -> 0 <= m_size m.
Proof. intros [_ H]. pose proof (m_len_nonneg m). unfold m_size, MSIZE. lia. Qed.

Lemma nodup_drop_mid {A} (a b c : list A) : NoDup (a ++ b ++ c) -> NoDup (a ++ c).
Proof.
  intros H. apply NoDup_app in H as (Ha & Hab & Hbc). apply NoDup_app in Hbc as (_ & _ & Hc).
  apply NoDup_app. split; [done|]. split; [|done]. intros x Hx Hc'. apply (Hab x Hx), elem_of_app. by right.
Qed.

Lemma step_skip sb eor mb next :
  appending sb eor (mb :: next) -> m_len mb = 0 -> (eor || m_eor mb = true -> next <> [] \/ sb_mb sb <> []) ->
  let sb' := m_free (skip_lastrecord sb mb next) mb in
  appending sb' (eor || m_eor mb) next /\ keeps sb (mb :: next) sb' next.
Proof.
  intros [Hne Ha Ht Hd Hm Hs Ho He] Hlen He' sb'.
  assert (sb' = m_free sb mb \/ sb' = m_free (with_lastrecord sb (m_id <$> head next)) mb) as Hsb
    by (unfold sb', skip_lastrecord; destruct (is_ptr _ _); auto).
  assert (Hq : sb_mb sb' = sb_mb sb /\ chain sb' = chain sb) by (destruct Hsb as [->| ->]; done).
  destruct Hq as [Hq Hc]. pose proof (one_ok_tail _ _ _ _ Ho) as Ho'.
  apply Forall_cons in Hm as [Hmb Hm]. rewrite sumz_cons in Hs. pose proof (fresh_size mb Hmb).
  split.
  - destruct Ha. split; rewrite ?Hq, ?Hc; try done.
    + destruct Hsb as [->| ->]; done.
    + destruct Hsb as [->| ->]; done.
    + change (ids (mb :: next)) with ([m_id mb] ++ ids next) in Hd. by apply nodup_drop_mid in Hd.
    + lia.
    + unfold one_ok in *. rewrite Hq, Hc. destruct Hsb as [->| ->]; done.
  - split.
    + rewrite Hc, view_cons. pose proof (cells_length mb). by destruct (cells mb); [|cbn in *; lia].
    + rewrite Hc. change (ids (mb :: next)) with (m_id mb :: ids next).
      assert (sb_freed sb' = sb_freed sb ++ [m_id mb]) as -> by (by destruct Hsb as [->| ->]).
      solve_Permutation.
    + by destruct Hsb as [->| ->].
    + intros [[Hn Hl]|[Hn Hl]]; [left|right]; rewrite Hq; (split; [done|]); unfold sb', skip_lastrecord.
      * destruct (last_in _ Hl Hne Hn) as (i & Hi & Hin). rewrite Hi. cbn [is_ptr].
        destruct (Z.eqb_spec i (m_id mb)) as [->|]; [|done].
        apply NoDup_app in Hd as (_ & Hd & _). destruct (Hd _ Hin). apply elem_of_cons. by left.
      * rewrite Hl. cbn. by rewrite Z.eqb_refl.
    + rewrite Hq. by apply shape_refl.
    + exists [m_id mb]. by destruct Hsb as [->| ->].
    + rewrite Hc, sumz_cons. lia.
Qed.

(** [n] with the data of [mb] behind its own. *)
Definition merged (n mb : mbuf) : mbuf :=
  with_bytes n (m_bytes n ++ m_bytes mb) (m_room n - m_len mb).

Lemma merged_len n mb : m_len (merged n mb) = m_len n + m_len mb.
Proof. unfold m_len, merged. cbn. rewrite length_app. lia. Qed.

Lemma merged_size l n mb : fresh_mbuf mb -> sumz m_size (l ++ [merged n mb]) <= sumz m_size (l ++ [n]) + m_size mb.
Proof.
  intros [_ Hmb]. rewrite !sumz_app, !sumz_cons. change (sumz m_size []) with 0.
  change (m_size (merged n mb)) with (m_len (merged n mb) + (MSIZE + ext_bytes n)). rewrite merged_len.
  change (m_size n) with (m_len n + (MSIZE + ext_bytes n)). change (m_size mb) with (m_len mb + (256 + ext_bytes mb)). lia.
Qed.

Lemma merged_cells n mb : m_notready n = m_notready mb -> cells (merged n mb) = cells n ++ cells mb.
Proof. intros H. unfold cells, merged. cbn. rewrite fmap_app, H. done. Qed.

Lemma ready_ok_replace f l n n' :
  m_notready n' = m_notready n -> m_blocked n' = m_blocked n -> m_id n' = m_id n ->
  ready_ok f (l ++ [n]) -> ready_ok f (l ++ [n']).
Proof.
  intros H1 H2 H3. induction l as [|x l IH]; cbn; [by rewrite H1, H2, H3|].
  destruct (m_notready x); [|naive_solver]. intros [-> H]. split; [done|].
  apply Forall_app in H as [Ha Hb]. apply Forall_app. split; [done|].
  apply Forall_cons in Hb as [Hb _]. apply Forall_cons. split; [|done]. by rewrite H2.
Qed.

Lemma snd_ok_replace p off l n n' :
  m_id n' = m_id n -> snd_ok p off (l ++ [n]) -> snd_ok p off (l ++ [n']).
Proof.
  intros Hi. destruct p as [i|]; [|done]. intros (a & m & b & E & Hm & ->).
  destruct (decide (b = [])) as [->|Hb].
  - apply app_inj_tail in E as [<- <-]. exists l, n', []. split; [done|]. split; [congruence|done].
  - destruct (exists_last Hb) as (b' & y & ->). rewrite app_comm_cons, app_assoc in E.
    apply app_inj_tail in E as [-> <-]. exists a, m, (b' ++ [n']). split; [|done]. by rewrite <- app_assoc.
Qed.

(** The tail of a buffer with not-ready data is not available. *)
Lemma ready_ok_last f l n : ready_ok f (l ++ [n]) -> notavail n = match f with Some _ => true | None => false end.
Proof.
  induction l as [|x l IH]; cbn.
  - unfold notavail. destruct (m_notready n); [by intros [-> _]|]. by intros [-> ->].
  - destruct (m_notready x); [|naive_solver]. intros [-> H]. apply Forall_app in H as [_ H].
    apply Forall_cons in H as [H _]. unfold notavail. rewrite H. apply orb_true_r.
Qed.

Lemma coalesce_acct sb mb n l :
  acct sb (l ++ [n]) -> m_type n = m_type mb -> fresh_mbuf mb ->
  sumz m_size (l ++ [n]) + m_size mb < 2 ^ 31 -> acct (coalesce sb mb n) (l ++ [merged n mb]).
Proof.
  intros [Hd He Hs H1 H2 H3 H4 H5 H6 Hr Hsnd] Hty [_ Hex] Hsz.
  pose proof (size_bounds _ He) as Hb. pose proof (m_len_nonneg mb). pose proof (m_len_nonneg n).
  change (m_size mb) with (m_len mb + (256 + ext_bytes mb)) in Hsz.
  pose proof (ready_ok_last _ _ _ Hr) as Hav.
  assert (Hctl : ctl_len (merged n mb) = ctl_len n + ctl_len mb /\ 0 <= ctl_len mb <= m_len mb).
  { unfold ctl_len. change (is_ctl (merged n mb)) with (is_ctl n).
    assert (is_ctl n = is_ctl mb) as -> by (unfold is_ctl; by rewrite Hty).
    rewrite merged_len. destruct (is_ctl mb); lia. }
  assert (Hsum : forall f, sumz f (l ++ [merged n mb]) = sumz f (l ++ [n]) + (f (merged n mb) - f n)).
  { intros f. rewrite !sumz_app, !sumz_cons. change (sumz f []) with 0. lia. }
  assert (Hid : ids (l ++ [merged n mb]) = ids (l ++ [n])) by (by rewrite !ids_app).
  assert (Hrd : ready_ok (sb_fnrdy sb) (l ++ [merged n mb])) by by apply (ready_ok_replace _ l n).
  assert (Hsn : snd_ok (sb_sndptr sb) (sb_sndptroff sb) (l ++ [merged n mb])) by by apply (snd_ok_replace _ _ l n).
  assert (Hext : Forall (fun m => 0 <= ext_bytes m) (l ++ [merged n mb])).
  { apply Forall_app in He as [Hel Hen]. apply Forall_app. split; [done|]. by apply Forall_cons in Hen as [? _]; apply Forall_cons. }
  unfold coalesce. destruct (sb_fnrdy sb) eqn:Ef; (split; cbn [m_free m_freem with_fnrdy with_cnt upd with_mb
     sb_ccc sb_acc sb_mbcnt sb_mcnt sb_ccnt sb_ctl sb_fnrdy sb_sndptr sb_sndptroff]; rewrite ?Hsum, ?Hid, ?Ef; try done).
  all: try change (m_size (merged n mb)) with (m_len (merged n mb) + (MSIZE + ext_bytes n)).
  all: try change (m_size n) with (m_len n + (MSIZE + ext_bytes n)).
  all: rewrite ?merged_len.
  all: try (change (ext_bytes (merged n mb)) with (ext_bytes n); lia).
  all: try (change (ext_one (merged n mb)) with (ext_one n); lia).
  all: try (rewrite u32_small; lia).
  - rewrite !avail_len_true by done. lia.
  - rewrite !avail_len_false by done. rewrite merged_len, u32_small; lia.
Qed.

Lemma coalesce_mb sb mb n q0 r0 :
  sb_mb sb = q0 ++ [r0 ++ [n]] -> NoDup (ids (chain sb)) ->
  sb_mb (coalesce sb mb n) = q0 ++ [r0 ++ [merged n mb]].
Proof.
  intros E Hd. unfold coalesce. rewrite (upd_last _ _ _ _ _ E Hd). by destruct (sb_fnrdy sb).
Qed.

Lemma coalesce_fields sb mb n :
  cfg (coalesce sb mb n) = cfg sb /\ sb_freed (coalesce sb mb n) = sb_freed sb ++ [m_id mb] /\
  sb_mbtail (coalesce sb mb n) = sb_mbtail sb /\ sb_lastrecord (coalesce sb mb n) = sb_lastrecord sb /\
  sb_fnrdy (coalesce sb mb n) = sb_fnrdy sb.
Proof. unfold coalesce. by destruct (sb_fnrdy sb) eqn:E. Qed.

Lemma head_snoc_id r0 n n' : m_id n' = m_id n -> m_id <$> head (r0 ++ [n']) = m_id <$> head (r0 ++ [n]).
Proof. intros H. destruct r0; cbn; [by rewrite H|done]. Qed.

Lemma shape_last q0 r0 n n' l :
  m_id n' = m_id n -> shape (q0 ++ [r0 ++ [n]]) (q0 ++ [r0 ++ n' :: l]).
Proof.
  intros H. destruct r0 as [|h r0]; cbn.
  - by apply (shape_snoc _ _ q0 n [] n' l).
  - by apply (shape_snoc _ _ q0 h (r0 ++ [n]) h (r0 ++ n' :: l)).
Qed.

(** A buffer whose last record is rewritten behind its head keeps
    sb_lastrecord right. *)
Lemma lr_shape sb sb' m m' :
  lr_ok sb m -> sb_mb sb <> [] -> shape (sb_mb sb) (sb_mb sb') -> sb_lastrecord sb' = sb_lastrecord sb -> lr_ok sb' m'.
Proof.
  intros [[_ Hl]|[Hl _]] Hn Hs Heq; [|done]. left.
  destruct Hs as [|q0 h t h' t' E E' Hh]; [done|]. split; [rewrite E'; by destruct q0|].
  unfold last_ok in *. rewrite Heq, Hl, E, E', !last_snoc. cbn. by rewrite Hh.
Qed.

Lemma step_coalesce sb eor mb next q0 r0 n :
  appending sb eor (mb :: next) -> sb_mb sb = q0 ++ [r0 ++ [n]] -> can_coalesce sb mb n = true ->
  appending (coalesce sb mb n) (eor || m_eor mb) next /\ keeps sb (mb :: next) (coalesce sb mb n) next.
Proof.
  intros [Hne Ha Ht Hd Hm Hs Ho He] E Hcan. pose proof (a_ids _ _ Ha) as Hdi.
  unfold can_coalesce in Hcan. bool_hyps.
  assert (Hnr : m_notready n = m_notready mb) by congruence.
  assert (Hty : m_type n = m_type mb) by lia.
  apply Forall_cons in Hm as [Hmb Hm]. rewrite sumz_cons in Hs. pose proof (fresh_size mb Hmb).
  pose proof (coalesce_mb sb mb n q0 r0 E Hdi) as Eq.
  destruct (coalesce_fields sb mb n) as (Ff & Fr & Ft & Fl & Fn).
  assert (Hch : chain sb = (concat q0 ++ r0) ++ [n]) by (unfold chain; by rewrite E, chain_last).
  assert (Hch' : chain (coalesce sb mb n) = (concat q0 ++ r0) ++ [merged n mb]) by (unfold chain; by rewrite Eq, chain_last).
  assert (Hsz : 0 <= sumz m_size next).
  { clear - Hm. induction Hm as [|x l Hx Hl IH]; [done|]. rewrite sumz_cons. pose proof (fresh_size x Hx). lia. }
  assert (Hms : sumz m_size ((concat q0 ++ r0) ++ [merged n mb]) <= sumz m_size ((concat q0 ++ r0) ++ [n]) + m_size mb) by by apply merged_size.
  rewrite Hch in *.
  assert (Hac : acct (coalesce sb mb n) ((concat q0 ++ r0) ++ [merged n mb])) by (apply coalesce_acct; [done|done|done|lia]).
  assert (Hids : ids ((concat q0 ++ r0) ++ [merged n mb]) = ids ((concat q0 ++ r0) ++ [n])) by (by rewrite !ids_app).
  split; split; rewrite ?Hch', ?Hids.
  - rewrite Eq. rewrite E in Hne. apply Forall_app in Hne as [Hx _]. apply Forall_app. split; [done|].
    apply Forall_cons. split; [by destruct r0|done].
  - done.
  - by rewrite Ft, Ht, !last_snoc.
  - change (ids (mb :: next)) with ([m_id mb] ++ ids next) in Hd. by apply nodup_drop_mid in Hd.
  - done.
  - lia.
  - apply one_ok_tail in Ho. unfold one_ok in *. rewrite Hch', Fn, Eq. rewrite Hch, E, !length_app in Ho.
    rewrite !length_app. destruct is_stream; [|done]. destruct Ho as (Hl1 & Hp1 & He1). split; [done|]. split; [|done].
    apply pos_app in Hp1 as [Hp1 Hp2]. apply pos_app. split; [done|]. apply Forall_cons in Hp2 as [Hp2 _].
    apply Forall_cons. split; [|done]. rewrite merged_len. pose proof (m_len_nonneg mb). lia.
  - intros _. right. rewrite Eq. by destruct q0.
  - rewrite !view_app, view_cons, (view_cons _ next), merged_cells by done. cbn. rewrite !app_nil_r.
    rewrite Hch, !view_app, view_cons. cbn. by rewrite !app_nil_r, <- !app_assoc.
  - rewrite Fr, Hch. change (ids (mb :: next)) with (m_id mb :: ids next). solve_Permutation.
  - done.
  - intros Hlr. eapply lr_shape; [exact Hlr|rewrite E; by destruct q0| |done]. rewrite E, Eq. by apply shape_last.
  - rewrite E, Eq. by apply shape_last.
  - by exists [m_id mb].
  - rewrite Hch, sumz_cons. lia.
Qed.

Lemma acct_eor sb l m e : acct sb (l ++ [m]) -> acct sb (l ++ [with_eor m e]).
Proof.
  intros [Hd He Hs H1 H2 H3 H4 H5 H6 Hr Hsnd].
  assert (Hsum : forall f, f (with_eor m e) = f m -> sumz f (l ++ [with_eor m e]) = sumz f (l ++ [m])).
  { intros f Hf. by rewrite !sumz_app, !sumz_cons, Hf. }
  split; rewrite ?Hsum by done; try done.
  - by rewrite ids_app in *.
  - apply Forall_app in He as [Hel Hen]. apply Forall_app. split; [done|].
    apply Forall_cons in Hen as [Hen _]. by apply Forall_cons.
  - by apply (ready_ok_replace _ l m).
  - by apply (snd_ok_replace _ _ l m).
Qed.

(** The third way, at the end of the chain. *)
Lemma sblink_spec sb mb n :
  acct sb (chain sb) -> Forall (fun r => r <> []) (sb_mb sb) -> n = m_id <$> last (chain sb) ->
  m_id mb ∉ ids (chain sb) -> fresh_mbuf mb -> sumz m_size (chain sb) + m_size mb < 2 ^ 31 ->
  exists m', unblk m' = with_eor mb false /\ acct (sblink sb mb n) (chain sb ++ [m']) /\
    ((sb_mb sb = [] /\ sb_mb (sblink sb mb n) = [[m']]) \/
     (exists q0 r0 x, sb_mb sb = q0 ++ [r0 ++ [x]] /\ sb_mb (sblink sb mb n) = q0 ++ [r0 ++ [x; m']])) /\
    cfg (sblink sb mb n) = cfg sb /\ sb_freed (sblink sb mb n) = sb_freed sb /\
    sb_lastrecord (sblink sb mb n) = sb_lastrecord sb /\ sb_mbtail (sblink sb mb n) = Some (m_id mb) /\
    (sb_fnrdy sb = None -> m_notready mb = false -> sb_fnrdy (sblink sb mb n) = None).
Proof.
  intros Ha Hne -> Hi [Hbl Hex] Hsz.
  destruct (sballoc_spec sb mb (chain sb) Ha Hi Hbl Hex Hsz) as (sb1 & m1 & E & Ha1 & Hu & Hf & Hn & _).
  destruct Hf as (F1 & F2 & F3 & F4 & F5).
  assert (Hd : NoDup (ids (chain sb1))) by (unfold chain; rewrite <- F1; apply Ha).
  exists (with_eor m1 false). split; [by rewrite <- Hu|].
  unfold sblink. rewrite E. apply (acct_eor _ _ _ false) in Ha1.
  destruct (decide (sb_mb sb = [])) as [E0|Hq].
  - assert (last (chain sb) = None) as -> by (unfold chain; by rewrite E0). cbn.
    destruct Ha1. split; [split; done|]. split; [by left|]. do 4 (split; [done|]). naive_solver.
  - destruct (q_last _ Hne Hq) as (q0 & r0 & x & E0).
    assert (last (chain sb) = Some x) as -> by (unfold chain; by rewrite E0, chain_last, last_snoc).
    change (m_id <$> Some x) with (Some (m_id x)). cbv iota.
    rewrite F1 in E0. rewrite (set_next_last sb1 q0 r0 x _ E0 Hd). cbn.
    destruct Ha1. split; [split; done|]. split; [right; exists q0, r0, x; by rewrite F1|]. do 4 (split; [done|]). naive_solver.
Qed.

Lemma step_link sb eor mb next :
  appending sb eor (mb :: next) -> (m_len mb = 0 -> eor || m_eor mb = true) ->
  let sb' := sblink sb mb (sb_mbtail sb) in
  appending sb' (eor || m_eor mb) next /\ keeps sb (mb :: next) sb' next /\ sb_mbtail sb' = Some (m_id mb).
Proof.
  intros [Hne Ha Ht Hd Hm Hs Ho He] Hlen sb'.
  apply Forall_cons in Hm as [Hmb Hm]. rewrite sumz_cons in Hs.
  assert (Hsz : 0 <= sumz m_size next).
  { clear - Hm. induction Hm as [|x l Hx Hl IH]; [done|]. rewrite sumz_cons. pose proof (fresh_size x Hx). lia. }
  change (ids (mb :: next)) with ([m_id mb] ++ ids next) in Hd.
  assert (Hni : m_id mb ∉ ids (chain sb)).
  { apply NoDup_app in Hd as (_ & Hd & _). intros Hin. apply (Hd _ Hin), elem_of_app. left. by apply list_elem_of_singleton. }
  destruct (sblink_spec sb mb (sb_mbtail sb)) as (m' & Hu & Hac & Hq & Ff & Fr & Fl & Ft & Fn); [done..|lia|].
  fold sb' in Hac, Hq, Ff, Fr, Fl, Ft, Fn.
  assert (Hch : chain sb' = chain sb ++ [m']).
  { unfold chain. destruct Hq as [[-> ->]|(q0 & r0 & x & -> & ->)]; [done|].
    rewrite !concat_app. cbn. rewrite !app_nil_r, <- !app_assoc. done. }
  assert (Hid : m_id m' = m_id mb) by (by apply (f_equal m_id) in Hu).
  assert (Hln : m_len m' = m_len mb) by (by apply (f_equal m_len) in Hu).
  assert (Hsize : m_size m' = m_size mb) by (by apply (f_equal m_size) in Hu).
  assert (Hcells : cells m' = cells mb) by (by apply (f_equal cells) in Hu).
  assert (Hsh : shape (sb_mb sb) (sb_mb sb')).
  { destruct Hq as [[-> ->]|(q0 & r0 & x & -> & ->)]; [by apply shape_nil; cbn; auto with lia|by apply shape_last]. }
  split; [|split; [|done]]; split; rewrite ?Hch.
  - destruct Hq as [[_ ->]|(q0 & r0 & x & E & ->)]; [by apply Forall_cons|].
    rewrite E in Hne. apply Forall_app in Hne as [Hx _]. apply Forall_app. split; [done|].
    apply Forall_cons. split; [by destruct r0|done].
  - done.
  - by rewrite Ft, last_snoc, <- Hid.
  - rewrite ids_app, <- app_assoc. cbn. by rewrite Hid.
  - done.
  - rewrite sumz_app, sumz_cons, Hsize. change (sumz m_size []) with 0. lia.
  - unfold one_ok in *. destruct is_stream; [destruct Ho as (H1 & H2 & -> & H3)|destruct Ho as [H1 H2]].
    2:{ apply Forall_cons in H2 as [H2 H3]. auto. }
    + apply Forall_cons in H3 as [H3 H4]. rewrite H3 in Hlen |- *. split.
      { destruct Hq as [[_ ->]|(q0 & r0 & x & E & ->)]; [done|]. rewrite E, length_app in H1. by rewrite length_app. }
      split; [|done]. rewrite Hch. apply pos_app. split; [done|]. apply Forall_cons. split; [|done].
      rewrite Hln. pose proof (m_len_nonneg mb). destruct (decide (m_len mb = 0)) as [E|]; [by apply Hlen in E|lia].
  - intros _. right. destruct Hq as [[_ ->]|(q0 & r0 & x & E & ->)]; [done|by destruct q0].
  - rewrite view_app, !view_cons, Hcells. cbn. by rewrite app_nil_r, app_assoc.
  - rewrite ids_app, Fr. cbn. rewrite Hid. solve_Permutation.
  - done.
  - intros Hlr. destruct (decide (sb_mb sb = [])) as [E|]; [|by eapply lr_shape].
    destruct Hq as [[_ E']|(q0 & r0 & x & E' & _)]; [|rewrite E in E'; by destruct q0].
    left. rewrite E'. split; [done|]. destruct Hlr as [[]|[_ Hl]]; [done|].
    unfold last_ok. rewrite E', Fl, Hl. cbn. by rewrite Hid.
  - done.
  - by rewrite Fr.
  - rewrite sumz_app, !sumz_cons, Hsize. change (sumz m_size []) with 0. lia.
Qed.

(** sb_mbtail is NULL or points to the last mbuf. *)
Lemma deref_tail sb :
  acct sb (chain sb) -> Forall (fun r => r <> []) (sb_mb sb) -> sb_mbtail sb = m_id <$> last (chain sb) ->
  (sb_mb sb = [] /\ sb_mbtail sb = None) \/
  exists q0 r0 n, sb_mb sb = q0 ++ [r0 ++ [n]] /\ sb_mbtail sb = Some (m_id n) /\
    deref sb (sb_mbtail sb) = Done (Some n).
Proof.
  intros Ha Hne Ht. destruct (decide (sb_mb sb = [])) as [E|Hq].
  { left. split; [done|]. rewrite Ht. unfold chain. by rewrite E. }
  right. destruct (q_last _ Hne Hq) as (q0 & r0 & n & E). exists q0, r0, n.
  assert (Hch : chain sb = (concat q0 ++ r0) ++ [n]) by (unfold chain; by rewrite E, chain_last).
  rewrite Hch, last_snoc in Ht. rewrite Ht. split; [done|]. split; [done|].
  unfold deref. cbn [fmap option_fmap option_map]. rewrite Hch, find_last; [done|].
  pose proof (a_ids _ _ Ha) as Hd. unfold chain in Hd. rewrite E in Hd.
  destruct (last_id_fresh _ _ _ Hd). rewrite ids_app, not_elem_of_app. done.
Qed.

Lemma step_eor sb q0 r0 n :
  appending sb true [] -> sb_mb sb = q0 ++ [r0 ++ [n]] ->
  let sb' := upd sb (m_id n) (fun y => with_eor y true) in
  appending sb' true [] /\ keeps sb [] sb' [].
Proof.
  intros [Hne Ha Ht Hd Hm Hs Ho He] E sb'.
  assert (Hsb : sb' = with_mb sb (q0 ++ [r0 ++ [with_eor n true]])) by (apply upd_last; [done|apply Ha]).
  assert (Hch : chain sb = (concat q0 ++ r0) ++ [n]) by (unfold chain; by rewrite E, chain_last).
  assert (Hch' : chain sb' = (concat q0 ++ r0) ++ [with_eor n true]) by (unfold chain; by rewrite Hsb; cbn; rewrite chain_last).
  assert (Hsh : shape (sb_mb sb) (sb_mb sb')) by (rewrite Hsb, E; by apply shape_last).
  rewrite Hch in *. apply (acct_eor _ _ _ true) in Ha.
  split; split; rewrite ?Hch'.
  - rewrite Hsb. rewrite E in Hne. apply Forall_app in Hne as [Hx _]. apply Forall_app. split; [done|].
    apply Forall_cons. split; [by destruct r0|done].
  - rewrite Hsb. destruct Ha. by split.
  - rewrite Hsb. cbn. rewrite Ht. by rewrite !last_snoc.
  - by rewrite ids_app in *.
  - done.
  - by rewrite sumz_app, sumz_cons in *.
  - unfold one_ok in *. destruct is_stream; [by destruct Ho as (_ & _ & H3 & _)|]. by rewrite Hsb.
  - intros _. right. rewrite Hsb. by destruct q0.
  - rewrite Hch. by rewrite !view_app.
  - rewrite Hch, Hsb. by rewrite !ids_app.
  - by rewrite Hsb.
  - intros Hl. eapply lr_shape; [done|rewrite E; by destruct q0|done|by rewrite Hsb].
  - done.
  - by rewrite Hsb.
  - rewrite Hch. by rewrite !sumz_app, !sumz_cons.
Qed.

Lemma app_keeps_refl sb m : Forall (fun r => r <> []) (sb_mb sb) -> keeps sb m sb m.
Proof. intros H. by split; try apply shape_refl. Qed.

(** [sbcompress] returns, appends exactly the bytes of the chain, and every
    mbuf of it is in the buffer or has been freed. *)
Lemma sbcompress_spec m sb eor :
  appending sb eor m ->
  exists sb' eor', sbcompress_loop sb eor m (sb_mbtail sb) = Done sb' /\ appending sb' eor' [] /\ keeps sb m sb' [].
Proof.
  revert sb eor. induction m as [|mb next IH]; intros sb eor Hp; pose proof Hp as [Hne Ha Ht _ _ _ _ He].
  - destruct eor; [|exists sb, false; cbn; by split; [|split; [|apply app_keeps_refl]]].
    destruct (deref_tail sb Ha Hne Ht) as [[E _]|(q0 & r0 & n & E & Etl & Edr)].
    { by destruct (He eq_refl). }
    cbn [sbcompress_loop]. rewrite Edr, Etl. eexists _, true. split; [done|]. by eapply step_eor.
  - cbn [sbcompress_loop].
    assert (exists nb, deref sb (sb_mbtail sb) = Done nb /\
      match nb with Some n => exists q0 r0, sb_mb sb = q0 ++ [r0 ++ [n]] | None => True end) as (nb & -> & Hnb).
    { destruct (deref_tail sb Ha Hne Ht) as [[E ->]|(q0 & r0 & n & E & Etl & Edr)]; [by exists None|]. exists (Some n). split; [done|]. by exists q0, r0. }
    cbn [mbind outcome_bind].
    match goal with |- context [if ?c then _ else _] => destruct c eqn:Ec end.
    { bool_hyps. destruct (step_skip sb eor mb next) as [Hp' Hk]; [done|lia| |].
      { intros He1. rewrite He1 in *. destruct next as [|o next]; [right|by left]. cbn in *.
        destruct nb as [n|]; [|done]. destruct Hnb as (q0 & r0 & ->). by destruct q0. }
      destruct (IH _ _ Hp') as (sb' & eor' & E & H1 & H2). 
      assert (sb_mbtail (m_free (skip_lastrecord sb mb next) mb) = sb_mbtail sb) as Etl
        by (unfold skip_lastrecord; by destruct (is_ptr _ _)).
      rewrite Etl in E. exists sb', eor'. split; [done|]. split; [done|]. by eapply app_keeps_trans. }
    assert (Hlen : m_len mb = 0 -> eor || m_eor mb = true).
    { intros Hz. rewrite Hz in Ec. cbn in Ec. by destruct (eor || m_eor mb). }
    match goal with |- context [if ?c then _ else _] => destruct c eqn:Ec2 end.
    + destruct nb as [n|]; [|done]. destruct Hnb as (q0 & r0 & E0).
      destruct (step_coalesce sb eor mb next q0 r0 n Hp E0 Ec2) as [Hp' Hk].
      destruct (IH _ _ Hp') as (sb' & eor' & E & H1 & H2).
      destruct (coalesce_fields sb mb n) as (_ & _ & Etl & _). rewrite Etl in E.
      exists sb', eor'. split; [done|]. split; [done|]. by eapply app_keeps_trans.
    + destruct (step_link sb eor mb next Hp Hlen) as (Hp' & Hk & Etl).
      destruct (IH _ _ Hp') as (sb' & eor' & E & H1 & H2). rewrite Etl in E.
      exists sb', eor'. split; [done|]. split; [done|]. by eapply app_keeps_trans.
Qed.

End mode.

(** ** The append functions *)

(** A stream buffer: one record without empty mbufs. *)
Definition stream (sb : sockbuf) : Prop := inv sb /\ (length (sb_mb sb) <= 1)%nat /\ pos (chain sb).

(** A record buffer: nothing in it waits for its data. *)
Definition dgram (sb : sockbuf) : Prop := inv sb /\ sb_fnrdy sb = None.

(** [m] is a chain of new mbufs for which the buffer's counters have room. *)
Definition new_mbufs (sb : sockbuf) (m : list mbuf) : Prop :=
  NoDup (ids (chain sb) ++ ids m) /\ Forall (fun x => 0 <= ext_bytes x) m /\
  sumz m_size (chain sb) + sumz m_size m < 2 ^ 31.

Lemma appending_inv md sb eor :
  appending md sb eor [] -> lr_ok sb [] -> inv sb.
Proof.
  intros [Hne Ha Ht _ _ _ Ho _] Hl. split; try done.
  - destruct Hl as [[_ ?]|[E ->]]; [done|]. by rewrite E.
  - destruct md; [destruct Ho as (? & ? & _)|destruct Ho as [? _]]; auto.
Qed.

Lemma sum_demote nr m : sumz m_size (m_demote nr m) = sumz m_size m.
Proof. induction m as [|x m IH]; [done|]. cbn [m_demote map]. by rewrite !sumz_cons, <- IH. Qed.

Lemma ids_demote nr m : ids (m_demote nr m) = ids m.
Proof. unfold ids, m_demote. by rewrite <- list_fmap_compose. Qed.

Lemma sb_head_last sb : (length (sb_mb sb) <= 1)%nat -> Forall (fun r => r <> []) (sb_mb sb) ->
  sb_head sb = (r ← last (sb_mb sb); m_id <$> head r).
Proof.
  unfold sb_head, chain. destruct (sb_mb sb) as [|[|h t] [|]]; try (cbn; intros; lia); [done|..].
  - intros _ H. by apply Forall_cons in H as [].
  - intros _ _. done.
Qed.

(** [sbappendstream]: the bytes go to the end of the stream. *)
Lemma sbappendstream_spec sb m nr :
  stream sb -> new_mbufs sb m ->
  exists sb', sbappendstream_locked sb m nr = Done sb' /\ stream sb' /\
    view (chain sb') = view (chain sb) ++ view (m_demote nr m) /\ cfg sb' = cfg sb /\
    ids (chain sb') ++ sb_freed sb' ≡ₚ ids (chain sb) ++ ids m ++ sb_freed sb /\
    sb_freed sb `prefix_of` sb_freed sb' /\ sumz m_size (chain sb') <= sumz m_size (chain sb) + sumz m_size m.
Proof.
  intros (Hi & Hl & Hp) (Hd & He & Hs). pose proof Hi as [Hne Ha Ht Hla _].
  assert (Happ : appending true sb false (m_demote nr m)).
  { split; try done.
    - by rewrite ids_demote.
    - apply List.Forall_map. eapply Forall_impl; [exact He|]. by intros x Hx.
    - by rewrite sum_demote.
    - split; [done|]. split; [done|]. split; [done|]. apply List.Forall_map.
      eapply Forall_impl; [exact He|]. done. }
  destruct (sbcompress_spec _ _ _ _ Happ) as (sb1 & eor & E & [Hne1 Ha1 Ht1 _ _ _ (Hl1 & Hp1 & _) _] & [Kv Ki Kf _ Ks Kfr Kz]).
  unfold sbappendstream_locked, sbcompress. rewrite E. cbn. eexists. split; [done|].
  rewrite ids_demote in Ki. cbn in Ki, Kv. rewrite app_nil_r in Kv. rewrite sum_demote in Kz. change (sumz m_size []) with 0 in Kz. rewrite Z.add_0_r in Kz.
  split; [|done]. split; [|done]. destruct Ha1. split; try done.
  - cbn. by rewrite <- sb_head_last.
  - right. done.
Qed.

Lemma set_nextpkt_last r q0 h t :
  NoDup (ids (concat (q0 ++ [h :: t]))) ->
  set_nextpkt (m_id h) r (q0 ++ [h :: t]) = Done (q0 ++ [h :: t; r]).
Proof.
  induction q0 as [|x q0 IH]; cbn [app concat]; intros Hd.
  - cbn. by rewrite Z.eqb_refl.
  - rewrite ids_app in Hd. apply NoDup_app in Hd as (_ & Hx & Hd). cbn [set_nextpkt].
    assert (existsb (is_ptr (Some (m_id h))) (take 1 x) = false) as ->.
    { destruct x as [|y x]; [done|]. cbn. rewrite orb_false_r. apply Z.eqb_neq. intros E.
      apply (Hx (m_id y)); [by apply elem_of_cons; left|]. rewrite <- E.
      rewrite concat_app, ids_app, elem_of_app. right. cbn. apply elem_of_cons. by left. }
    by rewrite IH.
Qed.

(** SBLINKRECORD adds a record at the end. *)
Lemma sblinkrecord_spec sb r :
  last_ok sb -> Forall (fun r => r <> []) (sb_mb sb) -> NoDup (ids (chain sb)) ->
  SBLINKRECORD sb r = Done (with_lastrecord (with_mb sb (sb_mb sb ++ [r])) (m_id <$> head r)).
Proof.
  unfold last_ok, SBLINKRECORD, chain. intros Hl Hne Hd. rewrite Hl.
  destruct (decide (sb_mb sb = [])) as [E|Hq]; [by rewrite E|].
  destruct (exists_last Hq) as (q0 & [|h t] & E); rewrite E in *.
  - apply Forall_app in Hne as [_ Hne]. by apply Forall_cons in Hne as [].
  - rewrite last_snoc. cbn [mbind option_bind head fmap option_fmap option_map].
    rewrite set_nextpkt_last by done. cbn. by rewrite <- app_assoc.
Qed.

Definition data (l : list mbuf) : list Z := concat (m_bytes <$> l).

Lemma data_view l : data l = fst <$> view l.
Proof.
  induction l as [|m l IH]; [done|]. rewrite view_cons, fmap_app, <- IH. unfold cells.
  rewrite <- list_fmap_compose. unfold data at 1. cbn. f_equal. symmetry. apply list_fmap_id.
Qed.

Lemma data_app a b : data (a ++ b) = data a ++ data b.
Proof. unfold data. by rewrite fmap_app, concat_app. Qed.

Definition all_ready (m : list mbuf) : Prop := Forall (fun x => m_notready x = false /\ m_blocked x = false) m.

Lemma clr_ready m : all_ready (m_clrprotoflags m).
Proof. apply List.Forall_map, Forall_forall. done. Qed.

Lemma clr_new sb m : new_mbufs sb m -> new_mbufs sb (m_clrprotoflags m).
Proof.
  intros (H1 & H2 & H3).
  assert (ids (m_clrprotoflags m) = ids m) as Hi by (unfold ids, m_clrprotoflags; by rewrite <- list_fmap_compose).
  assert (sumz m_size (m_clrprotoflags m) = sumz m_size m) as Hz.
  { clear. induction m as [|x m IH]; [done|]. cbn [m_clrprotoflags map]. by rewrite !sumz_cons, <- IH. }
  split; [by rewrite Hi|]. split; [|by rewrite Hz]. apply List.Forall_map. eapply Forall_impl; [exact H2|]. done.
Qed.

Lemma new_cons sb m h :
  new_mbufs sb (h :: m) -> m_id h ∉ ids (chain sb) /\ 0 <= ext_bytes h /\
    sumz m_size (chain sb) + m_size h < 2 ^ 31 /\ NoDup (ids (chain sb ++ [h]) ++ ids m) /\
    Forall (fun x => 0 <= ext_bytes x) m /\ sumz m_size (chain sb) + m_size h + sumz m_size m < 2 ^ 31.
Proof.
  intros (H1 & H2 & H3). apply Forall_cons in H2 as [Hh Hm]. rewrite sumz_cons in H3.
  assert (0 <= sumz m_size m).
  { clear - Hm. induction Hm as [|x l Hx Hl IH]; [done|]. rewrite sumz_cons. pose proof (m_len_nonneg x).
    unfold m_size at 1, MSIZE. lia. }
  split. { apply NoDup_app in H1 as (_ & H1 & _). intros Hi. apply (H1 _ Hi). apply elem_of_cons. by left. }
  split; [done|]. split; [lia|]. split; [by rewrite ids_app, <- app_assoc|]. split; [done|lia].
Qed.

(** sballoc of ready mbufs. *)
Lemma sballoc_all_spec r sb l :
  acct sb l -> sb_fnrdy sb = None -> all_ready r -> NoDup (ids l ++ ids r) ->
  Forall (fun x => 0 <= ext_bytes x) r -> sumz m_size l + sumz m_size r < 2 ^ 31 ->
  exists sb', sballoc_all sb r = (sb', r) /\ acct sb' (l ++ r) /\ frame sb sb' /\ sb_fnrdy sb' = None.
Proof.
  revert sb l. induction r as [|m r IH]; intros sb l Ha Hn Hr Hd He Hs.
  { exists sb. rewrite app_nil_r. done. }
  apply Forall_cons in Hr as [[Hnr Hbl] Hr]. 
  assert (Hnw : new_mbufs (with_mb sb [l]) (m :: r)) by (unfold new_mbufs, chain; cbn; rewrite app_nil_r; done).
  apply new_cons in Hnw as (N1 & N2 & N3 & N4 & N5 & N6). unfold chain in *. cbn in *. rewrite app_nil_r in *.
  destruct (sballoc_spec sb m l Ha N1 Hbl N2 N3) as (sb1 & m1 & -> & Ha1 & _ & Hf & Hn1 & _).
  destruct (Hn1 Hn Hnr) as [Hn2 ->].
  destruct (IH sb1 (l ++ [m])) as (sb' & -> & Ha' & Hf' & Hn'); try done.
  { rewrite sumz_app, sumz_cons. change (sumz m_size []) with 0. lia. }
  exists sb'. rewrite <- app_assoc in Ha'. split; [done|]. split; [done|]. split; [by eapply frame_trans|done].
Qed.

Lemma inv_last sb : inv sb -> last_ok sb.
Proof. by intros []. Qed.

(** A record of ready mbufs is linked as it is. *)
Lemma link_all_spec sb r :
  dgram sb -> new_mbufs sb r -> all_ready r -> r <> [] ->
  exists sb', link_all sb r = Done sb' /\ dgram sb' /\ sb_mb sb' = sb_mb sb ++ [r] /\
    cfg sb' = cfg sb /\ sb_freed sb' = sb_freed sb.
Proof.
  intros [Hi Hn] (N1 & N2 & N3) Hr Hne. pose proof Hi as [Hq Ha Ht Hl _].
  destruct (sballoc_all_spec r sb (chain sb) Ha Hn Hr N1 N2 N3) as (sb1 & E & Ha1 & (F1 & F2 & F3 & F4 & F5) & Hn1).
  unfold link_all. rewrite E, sblinkrecord_spec.
  - cbn. eexists. split; [done|]. cbn. rewrite <- F1, F4, F5. split; [|done]. split; [|done].
    assert (Hch : concat (sb_mb sb ++ [r]) = chain sb ++ r) by (rewrite concat_app; cbn; by rewrite app_nil_r).
    split; unfold chain; cbn; rewrite <- ?F1, ?Hch.
    + apply Forall_app. split; [done|by apply Forall_cons].
    + destruct Ha1. by split.
    + by rewrite last_app_ne.
    + by rewrite last_snoc.
    + by left.
  - unfold last_ok. rewrite <- F3, <- F1. apply Hi.
  - by rewrite <- F1.
  - unfold chain. rewrite <- F1. apply Ha.
Qed.
