(* ===== verification/SbStream.v ===== *)
(** Socket buffers as queues: what the operations of SbQueue.v do to the bytes
    of a stream and to the records of a datagram socket. *)
From stdpp Require Import base list.
From Stdlib Require Import ZArith Lia.
From S2P Require Import Prelude SbQueue SbAppend.

Local Open Scope Z_scope.

(** * Dropping and flushing *)

Lemma inv_freem sb ms : inv sb -> inv (m_freem sb ms).
Proof. intros [H1 [] H3 H4 H5]. by split; [|split| | |]. Qed.

Lemma sbdrop_spec sb len :
  inv sb -> cut_ok len (chain sb) ->
  exists sb', sbdrop_locked sb len = Done sb' /\ inv sb' /\
    view (chain sb') = drop (Z.to_nat len) (view (chain sb)) /\
    (pos (chain sb) -> pos (chain sb')) /\ (length (sb_mb sb') <= length (sb_mb sb))%nat /\
    cfg sb' = cfg sb /\
    (sumz m_len (chain sb') = 0 -> sb_mb sb <> [] -> (length (sb_mb sb') < length (sb_mb sb))%nat) /\
    exists g, sigs (chain sb) = g ++ sigs (chain sb') /\ sb_freed sb' = sb_freed sb ++ reverse (ready_ids g) /\
      sumz m_size (chain sb') <= sumz m_size (chain sb).
Proof.
  intros Hi Hk. destruct (sbcut_spec sb len Hi Hk) as (sb1 & f & E & Hi1 & Hv & Hp & Hl & Hf & Hfr & Hz & g & Hg & Hids & Hsz).
  unfold sbdrop_locked. rewrite E. cbn. eexists. split; [done|]. split; [by apply inv_freem|].
  do 5 (split; [done|]). exists g. split; [done|]. unfold m_freem. cbn. rewrite Hfr, <- Hids. done.
Qed.

Lemma empty_sums sb : inv sb -> sb_mb sb = [] ->
  sb_ccc sb = 0 /\ sb_acc sb = 0 /\ sb_mbcnt sb = 0 /\ sb_mcnt sb = 0 /\ sb_ccnt sb = 0 /\ sb_ctl sb = 0 /\
  sb_mbtail sb = None /\ sb_lastrecord sb = None /\ sb_fnrdy sb = None /\ sb_sndptr sb = None /\ sb_sndptroff sb = 0.
Proof.
  intros [_ [_ _ _ H1 H2 H3 H4 H5 H6 H7 H8] H9 H10 _] E. unfold chain in *. rewrite E in *. cbn in H7.
  destruct (sb_sndptr sb); [destruct H8 as (? & ? & ? & H8 & _); by destruct x|]. done.
Qed.

Lemma mbcnt_zero l : Forall (fun m => 0 <= ext_bytes m) l -> sumz (fun m => MSIZE + ext_bytes m) l = 0 -> l = [].
Proof.
  destruct l as [|m l]; [done|]. intros H. apply Forall_cons in H as [Hm H]. rewrite sumz_cons.
  pose proof (size_bounds l H). unfold MSIZE in *. lia.
Qed.

Lemma sbflush_loop_spec fuel sb :
  inv sb -> (length (sb_mb sb) <= fuel)%nat ->
  exists sb', sbflush_loop fuel sb = Done sb' /\ inv sb' /\ sb_mb sb' = [] /\ cfg sb' = cfg sb /\
    sb_freed sb' ≡ₚ sb_freed sb ++ ready_ids (sigs (chain sb)).
Proof.
  revert sb. induction fuel as [|n IH]; intros sb Hi Hf; pose proof (i_acct _ Hi) as Ha.
  all: destruct (Z.eqb_spec (sb_mbcnt sb) 0) as [E0|Hne].
  all: try (rewrite (a_mbcnt _ _ Ha) in E0; apply mbcnt_zero in E0; [|apply Ha];
    exists sb; cbn [sbflush_loop]; rewrite (a_mbcnt _ _ Ha), E0; cbn; split; [done|]; split; [done|];
    rewrite app_nil_r; split; [|done]; unfold chain in E0; pose proof (i_ne _ Hi) as Hq;
    destruct (sb_mb sb) as [|[|x r] q]; [done|by apply Forall_cons in Hq as []|done]).
  - destruct Hne. rewrite (a_mbcnt _ _ Ha). unfold chain. by destruct (sb_mb sb); [|cbn in Hf; lia].
  - cbn [sbflush_loop]. assert (sb_mbcnt sb =? 0 = false) as -> by lia.
    assert (Hq : sb_mb sb <> []).
    { intros E. apply Hne. rewrite (a_mbcnt _ _ Ha). unfold chain. by rewrite E. }
    pose proof (size_bounds _ (a_ext _ _ Ha)) as Hb. pose proof (a_size _ _ Ha) as Hs.
    assert (Hc : (sb_ccc sb =? 0) && match head (chain sb) with None => true | Some m => negb (m_len m =? 0) end = false).
    { rewrite (a_ccc _ _ Ha). destruct (chain sb) as [|x l] eqn:E.
      - by destruct Hne; rewrite (a_mbcnt _ _ Ha).
      - cbn. rewrite sumz_cons. pose proof (sum_len_nonneg l). pose proof (m_len_nonneg x).
        destruct (Z.eqb_spec (m_len x) 0); [by rewrite andb_false_r|]. apply andb_false_iff. left. lia. }
    rewrite Hc, wraps_small by (rewrite ?(a_ccc _ _ Ha); change (2 ^ (32 - 1)) with (2 ^ 31); lia).
    destruct (sbdrop_spec sb (sb_ccc sb) Hi) as (sb1 & -> & Hi1 & Hv & _ & _ & Hfl & Hz & g & Hg & Hfr & _).
    { rewrite (a_ccc _ _ Ha). split; [lia|by right]. }
    cbn [mbind outcome_bind].
    assert (sumz m_len (chain sb1) = 0) as Hz1.
    { rewrite <- view_length, Hv, length_drop, (a_ccc _ _ Ha), <- view_length. lia. }
    destruct (IH sb1 Hi1) as (sb' & -> & Hi' & Hq' & Hfl' & Hfr').
    { specialize (Hz Hz1 Hq). lia. }
    exists sb'. split; [done|]. split; [done|]. split; [done|]. split; [congruence|].
    rewrite Hfr', Hfr, Hg, ready_ids_app, (reverse_Permutation (ready_ids g)). by rewrite app_assoc.
Qed.

(** * Data becomes ready *)

Lemma split_at_spec i a m t : i = m_id m -> i ∉ ids a -> split_at i (a ++ m :: t) = Some (a, m :: t).
Proof.
  intros -> Hi. induction a as [|h a IH]; [cbn; by rewrite Z.eqb_refl|].
  unfold ids in Hi. rewrite fmap_cons, not_elem_of_cons in Hi. destruct Hi as [H1 H2].
  cbn. assert (m_id h =? m_id m = false) as -> by lia. by rewrite IH.
Qed.

(** The mbufs that [sbready] marks. *)
Definition mark (blocker : bool) (m : mbuf) : mbuf :=
  with_rdy m false (if blocker then false else m_blocked m).

Lemma ready_loop_spec c blocker acc l :
  (c <= length l)%nat -> 0 <= acc -> acc + sumz m_len l < 2 ^ 31 ->
  ready_loop c blocker acc l =
    (if blocker then
       let '(a, t, f) := unblock (acc + sumz m_len (take c l)) (drop c l) in
       Done (a, map (mark true) (take c l) ++ t, f)
     else Done (acc, map (mark false) (take c l) ++ drop c l, None)).
Proof.
  revert acc l. induction c as [|c IH]; intros acc l Hc H0 Hb.
  { rewrite take_0, drop_0. change (sumz m_len []) with 0. rewrite Z.add_0_r. destruct blocker; [|done].
    cbn. by destruct (unblock acc l) as [[? ?] ?]. }
  destruct l as [|m t]; [cbn in Hc; lia|]. rewrite sumz_cons in Hb. cbn [ready_loop].
  pose proof (m_len_nonneg m). pose proof (sum_len_nonneg t). cbn in Hc. rewrite IH.
  2: lia. 2,3: destruct blocker; rewrite ?u32_small; lia.
  destruct blocker; [|done]. rewrite u32_small by lia. cbn [take drop]. rewrite sumz_cons, <- Z.add_assoc.
  by destruct (unblock _ _) as [[? ?] ?].
Qed.

(** What lies behind and in front of the mbuf [m] that is not ready. *)
Lemma ready_ok_split f a m t :
  ready_ok f (a ++ m :: t) -> NoDup (ids (a ++ m :: t)) -> m_notready m = true ->
  (f = Some (m_id m) /\ ready_ok None a /\ Forall (fun x => m_blocked x = true) t) \/
  (f <> Some (m_id m) /\ Forall (fun x => m_blocked x = true) (m :: t) /\
   forall b, Forall (fun x => m_blocked x = true) b -> ready_ok f (a ++ b)).
Proof.
  intros H Hd Hnr. induction a as [|x a IH]; cbn in *.
  { rewrite Hnr in H. left. destruct H as [-> H]. done. }
  apply NoDup_cons in Hd as [Hx Hd]. destruct (m_notready x) eqn:E.
  - right. destruct H as [-> H]. apply Forall_app in H as [Ha Hm]. split; [|split; [done|]].
    + intros [= E2]. apply Hx. rewrite E2. rewrite ids_app, elem_of_app. right. apply elem_of_cons. by left.
    + intros b Hb. split; [done|]. by apply Forall_app.
  - destruct H as [Hbl H]. destruct (IH H Hd) as [(-> & H1 & H2)|(H1 & H2 & H3)]; [left|right]; auto 6.
Qed.

Lemma mark_unrdy b l : map unrdy (map (mark b) l) = map unrdy l.
Proof. rewrite map_map. done. Qed.

Lemma view_mark b l : view (map (mark b) l) = (fun c => (fst c, true)) <$> view l.
Proof.
  induction l as [|m l IH]; [done|]. cbn [map]. rewrite !view_cons, fmap_app, IH. f_equal.
  unfold cells. cbn. rewrite <- list_fmap_compose. done.
Qed.

Lemma ready_ok_marked l : ready_ok None (map (mark true) l).
Proof. induction l; [done|]. by cbn. Qed.

Lemma acct_unrdy sb l sb' l' :
  acct sb l -> map unrdy l' = map unrdy l ->
  counted sb' l -> sb_sndptr sb' = sb_sndptr sb -> sb_sndptroff sb' = sb_sndptroff sb ->
  ready_ok (sb_fnrdy sb') l' -> sb_acc sb' = sumz avail_len l' -> acct sb' l'.
Proof.
  intros [Hd He Hs H1 H2 H3 H4 H5 H6 Hr Hsnd] Hu Hc E1 E2 Hr' Ha'. symmetry in Hu.
  destruct (counted_unrdy _ _ _ Hu Hc) as (? & ? & ? & ? & ?). destruct (unrdy_sums _ _ Hu) as (Hsz & _).
  split; try done.
  - by rewrite <- (unrdy_ids _ _ Hu).
  - by eapply unrdy_forall.
  - by rewrite <- Hsz.
  - rewrite E1, E2. by eapply snd_ok_unrdy.
Qed.

(** A stream buffer whose mbufs changed their flags only. *)
Lemma stream_unrdy sb sb' l l' :
  stream sb -> sb_mb sb = [l] -> sb_mb sb' = [l'] -> map unrdy l' = map unrdy l -> acct sb' l' ->
  sb_mbtail sb' = sb_mbtail sb -> sb_lastrecord sb' = sb_lastrecord sb ->
  stream sb' /\ ids (chain sb') = ids (chain sb).
Proof.
  intros ([Hne Ha Ht Hl _] & _ & Hp) E E' Hu Ha' Et El. unfold stream, chain in *. rewrite E in *. rewrite E'.
  cbn in *. rewrite !app_nil_r in *. pose proof (unrdy_ids _ _ Hu) as Hids.
  assert (Hn : l' <> []) by (intros ->; destruct l; [by apply Forall_cons in Hne as []|done]).
  assert (Hpos : pos l') by (by eapply unrdy_forall; [|symmetry; exact Hu|]).
  split; [|done]. split; [|split; [lia|done]]. split; unfold chain; rewrite ?E'; cbn; rewrite ?app_nil_r; try done.
  - by apply Forall_cons.
  - by rewrite Et, Ht, !last_ids, Hids.
  - rewrite El, Hl. destruct l, l'; try done. cbn in *. congruence.
  - right. split; [lia|done].
Qed.

(** The two cases of [sbready]: the mbufs from the first not-ready one on, and
    mbufs behind another not-ready one. *)
Lemma ready_cases sb a m t k :
  acct sb (a ++ m :: t) -> m_notready m = true -> (0 < k <= length (m :: t))%nat ->
  exists b', map unrdy b' = map unrdy (m :: t) /\
    view b' = ((fun p => (fst p, true)) <$> view (take k (m :: t))) ++ view (drop k (m :: t)) /\
    ((sb_fnrdy sb = Some (m_id m) /\ exists acc f,
       ready_loop k true (sb_acc sb) (m :: t) = Done (acc, b', f) /\
       ready_ok f (a ++ b') /\ acc = sumz avail_len (a ++ b')) \/
     (sb_fnrdy sb <> Some (m_id m) /\ exists f,
       ready_loop k false (sb_acc sb) (m :: t) = Done (sb_acc sb, b', f) /\
       ready_ok (sb_fnrdy sb) (a ++ b') /\ sb_acc sb = sumz avail_len (a ++ b'))).
Proof.
  intros Ha Hnm Hk. set (b := m :: t).
  pose proof (size_bounds _ (a_ext _ _ Ha)) as Hb. pose proof (a_size _ _ Ha) as Hs.
  pose proof (a_acc _ _ Ha) as Hacc. rewrite !sumz_app in Hb. rewrite sumz_app in Hacc, Hs.
  pose proof (sumz_nonneg avail_len a avail_len_nonneg). fold b in Hacc, Hb, Hs.
  assert (Hsplit : sumz m_len b = sumz m_len (take k b) + sumz m_len (drop k b)).
  { rewrite <- sumz_app. by rewrite take_drop. }
  assert (Hub : forall bl, map unrdy (map (mark bl) (take k b) ++ drop k b) = map unrdy b).
  { intros bl. rewrite map_app, mark_unrdy, <- map_app. by rewrite take_drop. }
  pose proof (sum_len_nonneg (drop k b)). pose proof (sum_len_nonneg (take k b)). pose proof (sum_len_nonneg a).
  assert (Hava : sumz avail_len a <= sumz m_len a).
  { apply sumz_le, Forall_forall. intros x _. unfold avail_len, m_len. destruct (notavail x); lia. }
  destruct (ready_ok_split _ a m t (a_rdy _ _ Ha) (a_ids _ _ Ha) Hnm) as [(Ef & Hra & Hbl)|(Ef & Hbl & Hrb)].
  - assert (Havb : sumz avail_len b = 0).
    { unfold b. rewrite sumz_cons, avail_len_true by (unfold notavail; by rewrite Hnm). by rewrite sum_avail_blocked. }
    assert (Hdb : Forall (fun x => m_blocked x = true) (drop k b)).
    { destruct k as [|k]; [lia|]. unfold b. cbn. by apply Forall_drop. }
    destruct (unblock_spec (drop k b) (sb_acc sb + sumz m_len (take k b)) Hdb) as (acc & l' & f & Eu & -> & Hro & Hu); [lia|lia|].
    exists (map (mark true) (take k b) ++ l'). split; [|split; [|left]].
    + rewrite map_app, mark_unrdy, (unblk_unrdy _ _ Hu), <- map_app. by rewrite take_drop.
    + rewrite view_app, view_mark, (unblk_view _ _ Hu). done.
    + split; [done|]. eexists _, _. rewrite ready_loop_spec by (unfold b in *; lia). fold b. rewrite Eu.
      split; [done|]. split; [by apply ready_ok_app_none, ready_ok_app_none; [|apply ready_ok_marked|]|].
      rewrite !sumz_app, (sum_avail_none (map _ _)) by apply ready_ok_marked.
      destruct (unrdy_sums _ _ (mark_unrdy true (take k b))) as (_ & -> & _). lia.
  - assert (Havb : sumz avail_len b = 0) by by apply sum_avail_blocked.
    assert (Hbm : Forall (fun x => m_blocked x = true) (map (mark false) (take k b) ++ drop k b)).
    { apply Forall_app. split; [|by apply Forall_drop]. apply List.Forall_map. by apply Forall_take. }
    exists (map (mark false) (take k b) ++ drop k b). split; [done|]. split; [by rewrite view_app, view_mark|]. right.
    split; [done|]. exists None. rewrite ready_loop_spec by (unfold b in *; lia). split; [done|].
    split; [by apply Hrb|]. rewrite sumz_app, (sum_avail_blocked (_ ++ _)) by done. lia.
Qed.

(** [sbready] of [c] mbufs from [m]: their bytes become ready. *)
Lemma sbready_spec sb a m t c :
  stream sb -> chain sb = a ++ m :: t -> 0 < c <= Z.of_nat (length (m :: t)) ->
  Forall (fun x => m_notready x = true) (take (Z.to_nat c) (m :: t)) ->
  exists sb' ret, sbready sb (m_id m) c = Done (sb', ret) /\ stream sb' /\
    view (chain sb') = view a ++ ((fun p => (fst p, true)) <$> view (take (Z.to_nat c) (m :: t)))
                       ++ view (drop (Z.to_nat c) (m :: t)) /\
    ret = (if bool_decide (sb_fnrdy sb = Some (m_id m)) then 0 else EINPROGRESS) /\
    ids (chain sb') = ids (chain sb) /\ cfg sb' = cfg sb /\ sb_freed sb' = sb_freed sb.
Proof.
  intros Hst Hch Hc Hnr. pose proof Hst as (Hi & Hl & Hp). pose proof (i_acct _ Hi) as Ha.
  assert (Hq : sb_mb sb = [a ++ m :: t]).
  { unfold chain in Hch. destruct (sb_mb sb) as [|r [|r' q]]; [by destruct a|cbn in Hch; by rewrite app_nil_r in Hch; subst|cbn in Hl; lia]. }
  rewrite Hch in *. set (k := Z.to_nat c) in *.
  assert (Hnm : m_notready m = true).
  { assert (exists k', k = S k') as (k' & Ek) by (exists (pred k); lia). rewrite Ek in Hnr. cbn in Hnr.
    by apply Forall_cons in Hnr as [? _]. }
  assert (Hia : m_id m ∉ ids a).
  { pose proof (a_ids _ _ Ha) as Hd. rewrite ids_app in Hd. apply NoDup_app in Hd as (_ & Hd & _).
    intros Hin. apply (Hd _ Hin), elem_of_cons. by left. }
  destruct (ready_cases sb a m t k Ha Hnm ltac:(lia)) as (b' & Hu & Hv & Hcase).
  assert (Hu' : map unrdy (a ++ b') = map unrdy (a ++ m :: t)) by (by rewrite !map_app, Hu).
  unfold sbready. rewrite Hq. cbn [ready_in]. rewrite (split_at_spec _ a m t) by done. fold k.
  destruct Hcase as [(Ef & acc & f & E & Hr & Hac)|(Ef & f & E & Hr & Hac)].
  - rewrite bool_decide_true, E by done. cbn.
    assert (Ha' : acct (with_fnrdy (with_mb sb [a ++ b']) f acc) (a ++ b')) by (by apply (acct_unrdy sb (a ++ m :: t)); try exact (acct_counted _ _ Ha)).
    eexists _, _. split; [done|].
    destruct (stream_unrdy sb (with_fnrdy (with_mb sb [a ++ b']) f acc) (a ++ m :: t) (a ++ b')) as [H1 H2]; try done.
    rewrite Hch in H2. split; [done|]. split; [|done]. unfold chain. cbn [sb_mb with_fnrdy with_mb concat]. by rewrite app_nil_r, view_app, Hv.
  - rewrite bool_decide_false, E by done. cbn.
    assert (Ha' : acct (with_mb sb [a ++ b']) (a ++ b')) by (by apply (acct_unrdy sb (a ++ m :: t)); try exact (acct_counted _ _ Ha)).
    eexists _, _. split; [done|].
    destruct (stream_unrdy sb (with_mb sb [a ++ b']) (a ++ m :: t) (a ++ b')) as [H1 H2]; try done.
    rewrite Hch in H2. split; [done|]. split; [|done]. unfold chain. cbn [sb_mb with_fnrdy with_mb concat]. by rewrite app_nil_r, view_app, Hv.
Qed.

(** * The debugging checks *)

Lemma sbcheck_blocked sb l acc ccc mbcnt :
  Forall (fun m => m_blocked m = true) l -> pos l ->
  sbcheck_loop sb l true acc ccc mbcnt =
    Some (acc, ccc + sumz m_len l, mbcnt + sumz (fun m => MSIZE + ext_bytes m) l).
Proof.
  intros Hb. revert ccc mbcnt. induction Hb as [|m l Hm Hl IH]; intros ccc mbcnt Hp; cbn [sbcheck_loop].
  { change (sumz _ []) with 0. by rewrite !Z.add_0_r. }
  apply Forall_cons in Hp as [Hlen Hp]. assert (m_len m =? 0 = false) as -> by lia.
  rewrite andb_false_r. cbn [andb orb]. assert (notavail m = true) as -> by (unfold notavail; rewrite Hm; apply orb_true_r).
  cbn. rewrite IH, !sumz_cons by done. do 2 f_equal; [f_equal|]; lia.
Qed.

Lemma sbcheck_loop_spec sb l acc ccc mbcnt :
  ready_ok (sb_fnrdy sb) l -> pos l ->
  sbcheck_loop sb l false acc ccc mbcnt =
    Some (acc + sumz avail_len l, ccc + sumz m_len l, mbcnt + sumz (fun m => MSIZE + ext_bytes m) l).
Proof.
  revert acc ccc mbcnt. induction l as [|m l IH]; intros acc ccc mbcnt Hr Hp; cbn [sbcheck_loop].
  { change (sumz _ []) with 0. by rewrite !Z.add_0_r. }
  apply Forall_cons in Hp as [Hlen Hp]. assert (m_len m =? 0 = false) as -> by lia.
  destruct (ready_ok_head _ _ _ Hr) as [Hna _]. rewrite Hna. cbn [ready_ok] in Hr.
  rewrite !sumz_cons. destruct (m_notready m) eqn:E.
  - destruct Hr as [-> Hb]. cbn. rewrite Z.eqb_refl. cbn. rewrite sbcheck_blocked by done.
    rewrite avail_len_true, sum_avail_blocked by (done || by rewrite Hna). do 2 f_equal; [f_equal|]; lia.
  - destruct Hr as [Hbl Hr]. cbn. rewrite IH by done. rewrite avail_len_false by (by rewrite Hna).
    do 2 f_equal; [f_equal|]; lia.
Qed.

Lemma last_concat (q : list (list mbuf)) :
  Forall (fun r => r <> []) q -> (r ← last q; m_id <$> last r) = m_id <$> last (concat q).
Proof.
  intros Hne. destruct (decide (q = [])) as [->|Hq]; [done|].
  destruct (q_last q Hne Hq) as (q0 & r0 & n & ->). rewrite chain_last, !last_snoc. cbn. by rewrite last_snoc.
Qed.

(** No check fires on a stream buffer. *)
Lemma stream_checks sb : stream sb -> sbcheck sb = true /\ sblastrecordchk sb = true /\ sblastmbufchk sb = true.
Proof.
  intros ([Hne Ha Ht Hl _] & _ & Hp). unfold sbcheck, sblastrecordchk, sblastmbufchk.
  rewrite sbcheck_loop_spec by (done || apply Ha).
  rewrite (a_acc _ _ Ha), (a_ccc _ _ Ha), (a_mbcnt _ _ Ha), !Z.eqb_refl, !bool_decide_true; [done| |done].
  by rewrite last_concat.
Qed.

(** * The send pointer *)

Lemma snd_advance_spec m s o :
  0 <= s -> 0 <= o < sumz m_len m -> s + sumz m_len m < 2 ^ 31 ->
  exists c y m2 o', snd_advance s o m = (s + sumz m_len c, o', y :: m2) /\ m = c ++ y :: m2.
Proof.
  revert s o. induction m as [|x t IH]; intros s o Hs Ho Hb; [change (sumz m_len []) with 0 in Ho; lia|].
  rewrite sumz_cons in *. pose proof (m_len_nonneg x). pose proof (sum_len_nonneg t). cbn [snd_advance].
  destruct ((o >? 0) && (o >=? m_len x)) eqn:E.
  - bool_hyps. rewrite !u32_small by lia.
    destruct (IH (s + m_len x) (o - m_len x)) as (c & y & m2 & o' & -> & ->); [lia..|].
    exists (x :: c), y, m2, o'. rewrite sumz_cons. split; [|done]. do 2 f_equal. lia.
  - exists [], x, t, o. change (sumz m_len []) with 0. by rewrite Z.add_0_r.
Qed.

(** The chain at the send pointer. *)
Lemma chain_from_snd sb l :
  sb_mb sb = [l] -> acct sb l -> exists a b, l = a ++ b /\ chain_from sb (sb_sndptr sb) = Done b /\
    sb_sndptroff sb = sumz m_len a.
Proof.
  intros E Ha. pose proof (a_snd _ _ Ha) as Hs. unfold chain_from, snd_ok in *. rewrite E.
  destruct (sb_sndptr sb) as [i|]; [|by exists [], l].
  destruct Hs as (a & m & b & -> & Hi & ->). exists a, (m :: b). split; [done|]. split; [|done].
  rewrite split_at_spec; [done|done|]. pose proof (a_ids _ _ Ha) as Hd. rewrite ids_app in Hd.
  apply NoDup_app in Hd as (_ & Hd & _). intros Hin. apply (Hd _ Hin), elem_of_cons. by left.
Qed.

Lemma stream_one sb : stream sb -> 0 < sb_acc sb -> sb_mb sb = [chain sb].
Proof.
  intros (Hi & Hl & _) Ha. unfold chain. destruct (sb_mb sb) as [|r [|? ?]] eqn:E; [|cbn; by rewrite app_nil_r|cbn in Hl; lia].
  destruct (empty_sums sb Hi E) as (_ & H & _). lia.
Qed.

Lemma stream_snd sb p o : stream sb -> snd_ok p o (chain sb) -> stream (with_snd sb p o).
Proof. intros ([H1 [] H3 H4 H5] & Hl & Hp) Hs. repeat (split; try done). Qed.

(** [sbsndptr] returns a position in the chain that is [off] bytes from the
    start. *)
Lemma sbsndptr_spec sb off len :
  stream sb -> 0 <= off -> 0 < len -> off + len <= sb_acc sb ->
  exists sb' a m moff, sbsndptr sb off len = Done (sb', m, moff) /\ stream sb' /\ sb_mb sb' = sb_mb sb /\
    chain sb = a ++ m /\ 0 <= moff /\ sumz m_len a + moff = off /\
    sb_acc sb' = sb_acc sb /\ cfg sb' = cfg sb /\ sb_freed sb' = sb_freed sb.
Proof.
  intros Hst Ho Hlen Hle. pose proof (stream_one sb Hst ltac:(lia)) as E. pose proof Hst as (Hi & _ & _).
  pose proof (i_acct _ Hi) as Ha. pose proof (size_bounds _ (a_ext _ _ Ha)) as Hb. pose proof (a_size _ _ Ha) as Hsz.
  rewrite (a_acc _ _ Ha) in Hle. unfold sbsndptr.
  destruct (sb_sndptroff sb >? off) eqn:Eo.
  { unfold chain_from. rewrite E. cbn. exists sb, [], (chain sb), off. by split_and!. }
  destruct (chain_from_snd sb _ E Ha) as (a & b & Hc & -> & Hoff). cbn [mbind outcome_bind].
  rewrite Hc in Hb, Hsz, Hle. rewrite !sumz_app in Hb. rewrite sumz_app in Hsz, Hle. pose proof (sum_len_nonneg a). pose proof (sum_len_nonneg b).
  rewrite Hoff in Eo |- *. rewrite u32_small by lia. destruct b as [|x t].
  { change (sumz avail_len []) with 0 in *. change (sumz m_len []) with 0 in *. lia. }
  rewrite (sumz_cons m_len) in *. rewrite sumz_cons in Hle. rewrite (sumz_cons avail_len) in Hb. pose proof (m_len_nonneg x). pose proof (sum_len_nonneg t).
  destruct (Z.eqb_spec (off - sumz m_len a) (m_len x)) as [Em|Em].
  - cbv beta iota. rewrite (u32_small (sumz m_len a + m_len x)), u32_small by lia.
    destruct (snd_advance_spec t (sumz m_len a + m_len x) (off - (sumz m_len a + m_len x) + len - 1))
      as (c & y & m2 & o' & -> & Ht); [lia..|].
    exists (with_snd sb (Some (m_id y)) (sumz m_len a + m_len x + sumz m_len c)), (a ++ [x]), t, 0.
    rewrite sumz_app, sumz_cons. change (sumz m_len []) with 0. split_and!; try done; try lia.
    + apply stream_snd; [done|]. exists (a ++ x :: c), y, m2. rewrite Hc, Ht, <- app_assoc.
      split; [done|]. split; [done|]. rewrite sumz_app, sumz_cons. lia.
    + by rewrite Hc, <- app_assoc.
  - cbv beta iota. rewrite u32_small by lia.
    destruct (snd_advance_spec (x :: t) (sumz m_len a) (off - sumz m_len a + len - 1))
      as (c & y & m2 & o' & -> & Hxt); [lia|rewrite sumz_cons; lia..|].
    exists (with_snd sb (Some (m_id y)) (sumz m_len a + sumz m_len c)), a, (x :: t), (off - sumz m_len a).
    split_and!; try done; try lia.
    apply stream_snd; [done|]. exists (a ++ c), y, m2. rewrite Hc, Hxt, <- app_assoc.
    split; [done|]. split; [done|]. by rewrite sumz_app.
Qed.

Lemma snd_walk_spec m o :
  0 <= o < sumz m_len m -> sumz m_len m < 2 ^ 31 -> pos m ->
  exists c y m2, snd_walk o m = (y :: m2, o - sumz m_len c) /\ m = c ++ y :: m2 /\ 0 <= o - sumz m_len c < m_len y.
Proof.
  revert o. induction m as [|x t IH]; intros o Ho Hb Hp; [change (sumz m_len []) with 0 in Ho; lia|].
  rewrite sumz_cons in *. apply Forall_cons in Hp as [Hx Hp]. pose proof (sum_len_nonneg t). cbn [snd_walk].
  assert (o < m_len x \/ m_len x <= o) as [Hlt|Hge] by lia.
  - exists [], x, t. change (sumz m_len []) with 0. rewrite Z.sub_0_r. split; [|split; [done|lia]].
    destruct (o >? 0) eqn:E; [|done]. by assert (o <? m_len x = true) as -> by lia.
  - assert (o >? 0 = true) as -> by lia. assert (o <? m_len x = false) as -> by lia. rewrite u32_small by lia.
    destruct (IH (o - m_len x)) as (c & y & m2 & -> & -> & Hc); [lia|lia|done|].
    exists (x :: c), y, m2. rewrite sumz_cons. split; [f_equal; lia|]. split; [done|lia].
Qed.

(** [sbsndmbuf] finds the mbuf that holds byte [off]. *)
Lemma sbsndmbuf_spec sb off :
  stream sb -> 0 <= off < sb_acc sb ->
  exists a y t moff, sbsndmbuf sb off = Done (y :: t, moff) /\ chain sb = a ++ y :: t /\
    0 <= moff < m_len y /\ sumz m_len a + moff = off.
Proof.
  intros Hst Ho. pose proof (stream_one sb Hst ltac:(lia)) as E. pose proof Hst as (Hi & _ & Hp).
  pose proof (i_acct _ Hi) as Ha. pose proof (size_bounds _ (a_ext _ _ Ha)) as Hb. pose proof (a_size _ _ Ha) as Hsz.
  rewrite (a_acc _ _ Ha) in Ho.
  assert (Hwalk : exists c y t, snd_walk off (chain sb) = (y :: t, off - sumz m_len c) /\ chain sb = c ++ y :: t /\ 0 <= off - sumz m_len c < m_len y)
    by (apply snd_walk_spec; [lia|lia|done]).
  assert (Hcf : chain_from sb None = Done (chain sb)) by (unfold chain_from; by rewrite E).
  unfold sbsndmbuf. rewrite Hcf. destruct (sb_sndptr sb) as [i|] eqn:Ep.
  - destruct (sb_sndptroff sb >? off) eqn:Eo.
    { destruct Hwalk as (c & y & t & Ew & Hc & Hr). cbn. rewrite Ew. eexists c, y, t, _. split; [done|]. split; [done|lia]. }
    destruct (chain_from_snd sb _ E Ha) as (a & b & Hc & Hb' & Hoff). rewrite Ep in Hb'. rewrite Hb'. cbn.
    rewrite Hc in Hp, Hb, Hsz. apply pos_app in Hp as [_ Hp]. rewrite !sumz_app in Hb. rewrite sumz_app in Hsz.
    pose proof (sum_len_nonneg a). pose proof (sum_len_nonneg b). rewrite Hc, sumz_app in Ho.
    rewrite Hoff in *. rewrite u32_small by lia.
    destruct (snd_walk_spec b (off - sumz m_len a)) as (c & y & m2 & -> & -> & Hr); [lia|lia|done|].
    exists (a ++ c), y, m2, (off - sumz m_len a - sumz m_len c). rewrite sumz_app, Hc, app_assoc. split; [done|]. split; [done|lia].
  - destruct Hwalk as (c & y & t & Ew & Hc & Hr). cbn. rewrite Ew. eexists c, y, t, _. split; [done|]. split; [done|lia].
Qed.

(** * The stream as a queue *)

(** What the transport and the application do with a stream buffer. *)
Inductive sop :=
  | SAppend (m : list mbuf) (notready : bool)
  | SReady (i c : Z)
  | SDrop (len : Z)
  | SFlush
  | SSend (off len : Z).

Definition sstep (sb : sockbuf) (op : sop) : outcome sockbuf :=
  match op with
  | SAppend m nr => sbappendstream_locked sb m nr
  | SReady i c => x ← sbready sb i c; Done (fst x)
  | SDrop len => sbdrop_locked sb len
  | SFlush => sbflush_internal sb
  | SSend off len => x ← sbsndptr sb off len; Done (fst (fst x))
  end.

(** The assertions of the operations (KASSERT) and, for an append, that the
    mbufs are new and the counters can hold them. *)
Definition sop_ok (sb : sockbuf) (op : sop) : Prop :=
  match op with
  | SAppend m _ => new_mbufs sb m
  | SReady i c => exists a m t, chain sb = a ++ m :: t /\ i = m_id m /\ 0 < c <= Z.of_nat (length (m :: t)) /\
                    Forall (fun x => m_notready x = true) (take (Z.to_nat c) (m :: t))
  | SDrop len => 0 <= len <= sbavail sb
  | SFlush => True
  | SSend off len => 0 <= off /\ 0 < len /\ off + len <= sbavail sb
  end.

(** The operations on a queue of bytes, of which some are not ready yet.  The
    queue is the view of the mbufs [l] of the buffer, since sbready names mbufs:
    of its arguments, the first mbuf [i] and the number [c], it makes ready the
    bytes of the [c] mbufs that start with [i], and no others. *)
Inductive qstep (l : list mbuf) : sop -> list (Z * bool) -> Prop :=
  | q_append m nr : qstep l (SAppend m nr) (view l ++ view (m_demote nr m))
  | q_ready i c a b d :
      l = a ++ b ++ d -> Z.of_nat (length b) = c -> m_id <$> head b = Some i ->
      Forall (fun p => snd p = false) (view b) ->
      qstep l (SReady i c) (view a ++ ((fun p => (fst p, true)) <$> view b) ++ view d)
  | q_drop len : qstep l (SDrop len) (drop (Z.to_nat len) (view l))
  | q_flush : qstep l SFlush []
  | q_send off len : qstep l (SSend off len) (view l).

(** Every mbuf that came in is in the buffer, was freed once, or belongs to
    the owner of not-ready data. *)
Definition accounted (sb : sockbuf) (incoming : list Z) (sb' : sockbuf) : Prop :=
  exists owned, ids (chain sb') ++ sb_freed sb' ++ owned ≡ₚ ids (chain sb) ++ incoming ++ sb_freed sb /\
    (sb_fnrdy sb = None -> owned = []).

Definition incoming (op : sop) : list Z := match op with SAppend m _ => ids m | _ => [] end.

Lemma not_ready_view l : Forall (fun x => m_notready x = true) l -> Forall (fun p => snd p = false) (view l).
Proof.
  induction 1 as [|m l Hm Hl IH]; [constructor|]. rewrite view_cons. apply Forall_app. split; [|done].
  apply Forall_forall. intros p Hp. apply list_elem_of_fmap in Hp as (b & -> & _). cbn. by rewrite Hm.
Qed.

Lemma ready_ids_split g : ready_ids g ++ (fst <$> filter (fun p => snd p = true) g) ≡ₚ fst <$> g.
Proof.
  induction g as [|[i []] g IH]; [done|..]; unfold ready_ids in *; cbn in *; rewrite ?filter_cons; cbn.
  - rewrite <- IH. solve_Permutation.
  - by rewrite <- IH.
Qed.

Lemma none_ready sb l : sb_fnrdy sb = None -> ready_ok (sb_fnrdy sb) l -> filter (fun p => snd p = true) (sigs l) = [].
Proof.
  intros -> H. apply ready_ok_none in H. induction H as [|m l Hm Hl IH]; [done|].
  cbn. rewrite decide_False; [done|]. unfold notavail in Hm. cbn. by destruct (m_notready m).
Qed.

Lemma stream_counts sb : stream sb ->
  sbused sb = Z.of_nat (length (view (chain sb))) /\
  sbavail sb = Z.of_nat (length (ready_prefix (view (chain sb)))).
Proof.
  intros (Hi & _ & Hp). pose proof (i_acct _ Hi) as Ha. unfold sbused, sbavail.
  rewrite (a_ccc _ _ Ha), (a_acc _ _ Ha), view_length. split; [done|]. symmetry. eapply avail_view; [apply Ha|done].
Qed.

(** The mbufs of a cut. *)
Lemma accounted_cut sb sb' g :
  inv sb -> sigs (chain sb) = g ++ sigs (chain sb') -> sb_freed sb' ≡ₚ sb_freed sb ++ ready_ids g ->
  accounted sb [] sb'.
Proof.
  intros Hi Hg Hf. exists (fst <$> filter (fun p => snd p = true) g). split.
  - rewrite (sigs_ids (chain sb)), Hg, fmap_app, <- sigs_ids, Hf, <- (ready_ids_split g). cbn. solve_Permutation.
  - intros Hn. pose proof (none_ready sb (chain sb) Hn (a_rdy _ _ (i_acct _ Hi))) as H.
    rewrite Hg, filter_app in H. apply app_eq_nil in H as [-> _]. done.
Qed.

Lemma stream_drop sb sb' : stream sb -> inv sb' -> (pos (chain sb) -> pos (chain sb')) ->
  (length (sb_mb sb') <= length (sb_mb sb))%nat -> stream sb'.
Proof. intros (_ & Hl & Hp) Hi Hpos Hlen. split; [done|]. split; [lia|auto]. Qed.

Lemma sstep_spec sb op :
  stream sb -> sop_ok sb op ->
  exists sb', sstep sb op = Done sb' /\ stream sb' /\ qstep (chain sb) op (view (chain sb')) /\
    accounted sb (incoming op) sb'.
Proof.
  intros Hst Hok. pose proof Hst as (Hi & Hl & Hp). destruct op as [m nr|i c|len| |off len]; cbn [sstep sop_ok incoming] in *.
  - destruct (sbappendstream_spec sb m nr Hst Hok) as (sb' & E & Hst' & Hv & _ & Hids & _).
    exists sb'. split; [done|]. split; [done|]. split; [rewrite Hv; constructor|]. exists [].
    split; [|done]. by rewrite app_nil_r.
  - destruct Hok as (a & m & t & Hc & -> & Hr & Hnr).
    destruct (sbready_spec sb a m t c Hst Hc Hr Hnr) as (sb' & ret & -> & Hst' & Hv & _ & Hids & _ & Hfr).
    exists sb'. split; [done|]. split; [done|]. split.
    + rewrite Hv, Hc. constructor; [by rewrite take_drop|rewrite length_take; lia| |by apply not_ready_view].
      assert (exists k, Z.to_nat c = S k) as (k & ->) by (exists (pred (Z.to_nat c)); lia). done.
    + exists []. split; [|done]. by rewrite Hids, Hfr, !app_nil_r.
  - destruct (sbdrop_spec sb len Hi) as (sb' & E & Hi' & Hv & Hpos & Hlen & _ & _ & g & Hg & Hfr & _).
    { unfold sbavail in Hok. rewrite (a_acc _ _ (i_acct _ Hi)) in Hok. split; [lia|left; lia]. }
    exists sb'. split; [done|]. split; [by eapply stream_drop|]. split; [rewrite Hv; constructor|].
    eapply accounted_cut; [done|exact Hg|]. by rewrite Hfr, reverse_Permutation.
  - destruct (sbflush_loop_spec (S (length (sb_mb sb))) sb Hi ltac:(lia)) as (sb' & E & Hi' & Hq & _ & Hfr).
    exists sb'. assert (Hch : chain sb' = []) by (unfold chain; by rewrite Hq). split; [done|]. rewrite Hch.
    split; [|split; [constructor|]].
    + split; [done|]. rewrite Hq, Hch. split; [cbn; lia|constructor].
    + eapply accounted_cut; [done| |exact Hfr]. by rewrite Hch, app_nil_r.
  - destruct Hok as (H1 & H2 & H3). destruct (sbsndptr_spec sb off len Hst H1 H2 H3) as (sb' & a & m & moff & -> & Hst' & Hq & _ & _ & _ & _ & _ & Hfr).
    exists sb'. assert (Hch : chain sb' = chain sb) by (unfold chain; by rewrite Hq). split; [done|]. rewrite Hch.
    split; [done|]. split; [constructor|]. exists []. rewrite Hch, Hfr, app_nil_r. done.
Qed.

(** C7. A stream socket buffer is a queue of bytes: appending adds the bytes at
    the end, dropping takes the wanted number from the front, sbready of [c] mbufs
    from the mbuf [i] makes exactly the bytes of these [c] mbufs ready and leaves
    the rest as they were, flushing empties it and reading for transmission
    changes nothing.  Every operation within its assertions
    returns, sbused is the length of the queue, sbavail the number of ready
    bytes in front of the first one that is not, and every mbuf is in the
    buffer, freed once, or left to the owner of not-ready data. *)
Theorem sockbuf_stream_refines sb op :
  stream sb -> sop_ok sb op ->
  exists sb', sstep sb op = Done sb' /\ stream sb' /\ qstep (chain sb) op (view (chain sb')) /\
    sbused sb' = Z.of_nat (length (view (chain sb'))) /\
    sbavail sb' = Z.of_nat (length (ready_prefix (view (chain sb')))) /\
    accounted sb (incoming op) sb'.
Proof.
  intros Hst Hok. destruct (sstep_spec sb op Hst Hok) as (sb' & E & Hst' & Hq & Hacc).
  exists sb'. destruct (stream_counts sb' Hst'). done.
Qed.

(** The states of a stream buffer. *)
Inductive sreach (hiwat mbmax flags : Z) : sockbuf -> Prop :=
  | sr_empty : sreach hiwat mbmax flags (sb_empty hiwat mbmax flags)
  | sr_step sb op sb' :
      sreach hiwat mbmax flags sb -> sop_ok sb op -> sstep sb op = Done sb' -> sreach hiwat mbmax flags sb'.

Lemma empty_stream h m f : stream (sb_empty h m f).
Proof.
  split; [|by split; [cbn; lia|constructor]].
  split; try done; [|by left]. split; try done; constructor.
Qed.

Lemma sreach_stream h m f sb : sreach h m f sb -> stream sb.
Proof.
  induction 1 as [|sb op sb' _ IH Hok E]; [apply empty_stream|].
  destruct (sstep_spec sb op IH Hok) as (sb1 & E1 & H1 & _). congruence.
Qed.

(** C19. In every state that a stream buffer reaches, none of the debugging
    checks sbcheck, sblastrecordchk and sblastmbufchk panics: the counters,
    the chain, sb_fnrdy, sb_lastrecord and sb_mbtail agree. *)
Theorem sockbuf_checks_hold hiwat mbmax flags sb :
  sreach hiwat mbmax flags sb ->
  sbcheck sb = true /\ sblastrecordchk sb = true /\ sblastmbufchk sb = true.
Proof. intros H. eapply stream_checks, sreach_stream, H. Qed.

Lemma data_length l : Z.of_nat (length (data l)) = sumz m_len l.
Proof. rewrite data_view, length_fmap. apply view_length. Qed.

(** ** Examples *)

Definition ex_mbuf (i : Z) (d : list Z) (nr : bool) : mbuf := Mb i MT_DATA d nr false false false None None 0.

Definition ex_op : sop := SAppend [ex_mbuf 1 [10; 11; 12] false; ex_mbuf 2 [] false; ex_mbuf 3 [13; 14] true;
  ex_mbuf 4 [15] true; ex_mbuf 5 [16; 17] false; ex_mbuf 6 [18] true] true.

Lemma ex_op_ok : sop_ok (sb_empty 65536 262144 0) ex_op.
Proof. split; [decide_closed|]. split; [repeat constructor; done|done]. Qed.

(** The buffer after the append: 3 bytes available, 3 not ready, 2 ready ones
    behind them and another that is not. *)
Definition ex_sb : sockbuf :=
  match sstep (sb_empty 65536 262144 0) ex_op with Done sb => sb | _ => sb_empty 0 0 0 end.

Example ex_sb_counts : (sb_acc ex_sb, sb_ccc ex_sb, sb_fnrdy ex_sb, sb_freed ex_sb) = (3, 9, Some 3, [2]).
Proof. reflexivity. Qed.

Lemma ex_sb_reach : sreach 65536 262144 0 ex_sb.
Proof.
  apply (sr_step _ _ _ (sb_empty 65536 262144 0) ex_op); [apply sr_empty|apply ex_op_ok|vm_compute; reflexivity].
Qed.

(** The two mbufs 3 and 4 become ready, and with them the ready bytes behind. *)
Lemma sockbuf_stream_refines_witness :
  exists sb', sstep ex_sb (SReady 3 2) = Done sb' /\ qstep (chain ex_sb) (SReady 3 2) (view (chain sb')) /\
    sbavail sb' = 8 /\ view (chain sb') = ((fun b => (b, true)) <$> [10; 11; 12; 13; 14; 15; 16; 17]) ++ [(18, false)].
Proof.
  destruct (sockbuf_stream_refines ex_sb (SReady 3 2)) as (sb' & E & _ & Hq & _).
  - exact (sreach_stream _ _ _ _ ex_sb_reach).
  - exists [ex_mbuf 1 [10; 11; 12] false], (ex_mbuf 3 [13; 14] true),
      [with_rdy (ex_mbuf 4 [15] true) true true; with_rdy (ex_mbuf 5 [16; 17] false) false true; with_rdy (ex_mbuf 6 [18] true) true true].
    split; [reflexivity|]. split; [reflexivity|]. split; [simpl; lia|]. repeat constructor.
  - exists sb'. split; [exact E|]. split; [exact Hq|]. vm_compute in E. injection E as <-. split; reflexivity.
Defined.

Lemma sockbuf_checks_hold_witness : sbcheck ex_sb = true.
Proof. exact (proj1 (sockbuf_checks_hold 65536 262144 0 ex_sb ex_sb_reach)). Defined.
