(* ===== verification/SbDgram.v ===== *)
(** Socket buffers of datagram and other record sockets: the queue of records
    that sbappendaddr, sbappendcontrol, sbappendrecord and sbappend fill and
    sbdroprecord empties. *)
From stdpp Require Import base list.
From Stdlib Require Import ZArith Lia.
From S2P Require Import Prelude SbQueue SbAppend SbStream.

Local Open Scope Z_scope.

Lemma dgram_inv sb : dgram sb -> inv sb.
Proof. by intros []. Qed.

(** ** Records that are compressed *)

Lemma appending_dgram sb eor : appending false sb eor [] -> lr_ok sb [] -> dgram sb.
Proof. intros H Hl. split; [by eapply appending_inv|]. by destruct (p_one _ _ _ _ H). Qed.

(** The rest of a record behind its first mbuf. *)
Lemma compress_last sb q h next eor :
  appending false sb eor next -> lr_ok sb next -> sb_mb sb = q ++ [h] -> h <> [] ->
  exists sb' h', sbcompress_loop sb eor next (sb_mbtail sb) = Done sb' /\ dgram sb' /\
    sb_mb sb' = q ++ [h'] /\ data h' = data h ++ data next /\ cfg sb' = cfg sb /\
    ids (chain sb') ++ sb_freed sb' ≡ₚ ids (chain sb) ++ ids next ++ sb_freed sb.
Proof.
  intros Ha Hl Hq Hh. destruct (sbcompress_spec _ _ _ _ Ha) as (sb' & eor' & E & Ha' & [Kv Ki Kf Kl Ks _ _]).
  destruct h as [|x t]; [done|].
  destruct Ks as [E0|q0 y u y' u' E0 E1 Hy]; [rewrite Hq in E0; by destruct q|].
  rewrite Hq in E0. apply app_inj_tail in E0 as [-> [= -> ->]].
  exists sb', (y' :: u'). split; [done|]. split; [by eapply appending_dgram; auto|]. split; [done|].
  split; [|split; [done|done]].
  unfold chain in Kv. rewrite Hq, E1, !concat_app in Kv. cbn [concat] in Kv. rewrite !app_nil_r, !view_app in Kv.
  rewrite <- app_assoc in Kv. apply app_inv_head in Kv.
  rewrite !data_view, <- fmap_app. f_equal. exact Kv.
Qed.

Lemma data_clr m : data (m_clrprotoflags m) = data m.
Proof. unfold data, m_clrprotoflags. f_equal. by rewrite <- list_fmap_compose. Qed.

Lemma ids_clr m : ids (m_clrprotoflags m) = ids m.
Proof. unfold ids, m_clrprotoflags. by rewrite <- list_fmap_compose. Qed.

(** Moving M_EOR within a chain changes nothing else. *)
Lemma eor_first (b : bool) x t :
  let x' := if b then with_eor x true else x in
  data (x' :: t) = data (x :: t) /\ ids (x' :: t) = ids (x :: t) /\ sumz m_size (x' :: t) = sumz m_size (x :: t).
Proof. by destruct b. Qed.

Lemma sbappendrecord_spec sb m0 :
  dgram sb -> new_mbufs sb m0 -> m0 <> [] ->
  exists sb' r, sbappendrecord_locked sb m0 = Done sb' /\ dgram sb' /\ sb_mb sb' = sb_mb sb ++ [r] /\
    data r = data m0 /\ cfg sb' = cfg sb /\
    ids (chain sb') ++ sb_freed sb' ≡ₚ ids (chain sb) ++ ids m0 ++ sb_freed sb.
Proof.
  intros [Hi Hn] Hnew Hne. pose proof (clr_new _ _ Hnew) as Hnew'. pose proof (clr_ready m0) as Hrd.
  rewrite <- (data_clr m0), <- (ids_clr m0). unfold sbappendrecord_locked.
  destruct (m_clrprotoflags m0) as [|h next] eqn:Em; [by destruct m0|]. clear Em Hne m0 Hnew.
  apply Forall_cons in Hrd as [[Hnr Hbl] Hrd].
  apply new_cons in Hnew' as (N1 & N2 & N3 & N4 & N5 & N6). pose proof Hi as [Hq Ha Ht Hl _].
  destruct (sballoc_spec sb h (chain sb) Ha N1 Hbl N2 N3) as (sb1 & h1 & -> & Ha1 & _ & (F1 & F2 & F3 & F4 & F5) & Hn1 & _).
  destruct (Hn1 Hn Hnr) as [Hn2 ->].
  set (move := match next with [] => false | _ => m_eor h end).
  set (h2 := if move then with_eor h false else h).
  set (next2 := match next with x :: t => (if move then with_eor x true else x) :: t | [] => [] end).
  assert (Hx2 : data next2 = data next /\ ids next2 = ids next /\ sumz m_size next2 = sumz m_size next /\
    Forall (fun x => m_notready x = false) next2 /\ Forall fresh_mbuf next2).
  { unfold next2. clear - Hrd N5. destruct next as [|x t]; [by repeat split; constructor|].
    destruct (eor_first move x t) as (-> & -> & ->). apply Forall_cons in Hrd as [[Hx Hbx] Hrd]. apply Forall_cons in N5 as [Hex N5].
    do 3 (split; [done|]). split; apply Forall_cons; (split; [by destruct move|]).
    - eapply Forall_impl; [exact Hrd|]. by intros y [].
    - apply Forall_forall. intros y Hy. rewrite Forall_forall in Hrd, N5. split; [by apply Hrd|by apply N5]. }
  destruct Hx2 as (Hd2 & Hi2 & Hz2 & Hr2 & Hf2).
  assert (Hh2 : m_id h2 = m_id h /\ m_bytes h2 = m_bytes h /\ m_size h2 = m_size h) by (unfold h2; by destruct move).
  destruct Hh2 as (Hh2 & Hh3 & Hh4).
  assert (Ha2 : acct sb1 (chain sb ++ [h2])) by (unfold h2; destruct move; [by apply acct_eor|done]).
  rewrite sblinkrecord_spec; [|unfold last_ok; by rewrite <- F3, <- F1|by rewrite <- F1|unfold chain; rewrite <- F1; apply Ha].
  cbn [mbind outcome_bind].
  set (sb2 := with_tail _ _). assert (Hq2 : sb_mb sb2 = sb_mb sb ++ [[h2]]) by (unfold sb2; cbn; by rewrite F1).
  assert (Hc2 : chain sb2 = chain sb ++ [h2]) by (unfold chain; rewrite Hq2, concat_app; done).
  assert (Happ : appending false sb2 false next2).
  { split; rewrite ?Hc2, ?Hq2; try done.
    - apply Forall_app. split; [done|by apply Forall_cons].
    - by destruct Ha2; split.
    - rewrite last_snoc. unfold sb2. cbn. by rewrite Hh2.
    - rewrite ids_app, Hi2 in *. cbn in *. by rewrite Hh2.
    - rewrite sumz_app, sumz_cons, Hz2, Hh4. change (sumz m_size []) with 0. lia. }
  destruct (compress_last sb2 (sb_mb sb) [h2] next2 false Happ) as (sb' & r & E & Hdg & Hmb & Hdata & Hfl & Hids); [|done|done|].
  { left. rewrite Hq2. split; [by destruct (sb_mb sb)|]. unfold last_ok. rewrite Hq2, last_snoc. done. }
  exists sb', r. split; [exact E|]. split; [done|]. split; [done|]. rewrite Hdata, Hd2, Hfl, Hids, Hc2, ids_app, Hi2.
  split; [|split].
  - unfold data. cbn. by rewrite Hh3, app_nil_r.
  - unfold sb2. cbn. done.
  - unfold sb2. cbn. rewrite Hh2, F5. solve_Permutation.
Qed.

Lemma sbm_clr_eq m : sbm_clrprotoflags m false = m_clrprotoflags m.
Proof. unfold sbm_clrprotoflags, m_clrprotoflags. apply map_ext. intros x. by rewrite andb_false_r. Qed.

Lemma dgram_appending sb m :
  dgram sb -> new_mbufs sb m -> all_ready m -> appending false sb false m.
Proof.
  intros [[Hq Ha Ht _ _] Hn] (N1 & N2 & N3) Hr. split; try done.
  - apply Forall_forall. intros y Hy. rewrite Forall_forall in N2. unfold all_ready in Hr. rewrite Forall_forall in Hr.
    split; [by apply Hr|by apply N2].
  - split; [done|]. eapply Forall_impl; [exact Hr|]. by intros y [].
Qed.

(** [sbappend] of ready data. *)
Lemma sbappend_spec sb m :
  dgram sb -> new_mbufs sb m ->
  exists sb', sbappend_locked sb m false = Done sb' /\ dgram sb' /\
    data (chain sb') = data (chain sb) ++ data m /\ cfg sb' = cfg sb /\
    ids (chain sb') ++ sb_freed sb' ≡ₚ ids (chain sb) ++ ids m ++ sb_freed sb.
Proof.
  intros Hd Hnew. pose proof (clr_new _ _ Hnew) as Hnew'. pose proof (clr_ready m) as Hrd.
  rewrite <- (data_clr m), <- (ids_clr m). unfold sbappend_locked. rewrite sbm_clr_eq.
  destruct (m_clrprotoflags m) as [|h t]; [exists sb; cbn; by rewrite app_nil_r|].
  pose proof (dgram_appending _ _ Hd Hnew' Hrd) as Happ. pose proof (dgram_inv _ Hd) as Hi.
  destruct (decide (sb_mb sb = [])) as [E|Hne].
  - destruct (empty_sums sb Hi E) as (_ & _ & _ & _ & _ & _ & Etl & El & _). rewrite E, El. cbn [last].
    assert (Happ' : appending false (with_lastrecord sb (Some (m_id h))) false (h :: t)).
    { destruct Happ as [H1 [] H3 H4 H5 H6 H7 H8]. by split; [|split|..]. }
    destruct (sbcompress_spec _ _ _ _ Happ') as (sb' & eor' & Ec & Ha' & [Kv Ki Kf Kl Ks _ _]).
    cbn [sb_mbtail with_lastrecord] in Ec. rewrite Etl in Ec.
    exists sb'. split; [exact Ec|]. split; [eapply appending_dgram; [done|]; apply Kl; right; by split|].
    split; [|split; [done|exact Ki]]. change (view []) with (@nil (Z * bool)) in Kv. rewrite app_nil_r in Kv.
    by rewrite !data_view, Kv, fmap_app.
  - pose proof Hi as [Hq Ha Ht Hl _]. destruct (q_last _ Hq Hne) as (q0 & r0 & n & E). rewrite E, last_snoc.
    assert (Hch : chain sb = concat q0 ++ (r0 ++ [n])) by (unfold chain; rewrite E, concat_app; cbn; by rewrite app_nil_r).
    destruct (existsb m_eor (r0 ++ [n])).
    + destruct (sbappendrecord_spec sb (h :: t) Hd Hnew') as (sb' & r & Ea & Hd' & Hmb & Hdata & Hfl & Hids); [done|].
      exists sb'. split; [done|]. split; [done|]. split; [|done]. unfold chain. rewrite Hmb, concat_app. cbn [concat].
      by rewrite app_nil_r, data_app, Hdata.
    + assert (Htl : m_id <$> last (r0 ++ [n]) = sb_mbtail sb) by (rewrite Ht, Hch, app_assoc, !last_snoc; done). rewrite Htl.
      destruct (compress_last sb q0 (r0 ++ [n]) (h :: t) false Happ) as (sb' & r & Ec & Hd' & Hmb & Hdata & Hfl & Hids); [|done|by destruct r0|].
      { left. split; [done|]. exact Hl. }
      exists sb'. split; [exact Ec|]. split; [done|]. split; [|done]. rewrite Hch. unfold chain. rewrite Hmb, concat_app. cbn [concat].
      by rewrite app_nil_r, (data_app _ r), Hdata, (data_app (concat q0)), app_assoc.
Qed.

(** ** Dropping a record *)

Lemma free_all_spec l fuel sb rest :
  acct sb (l ++ rest) -> sb_fnrdy sb = None -> (length l <= fuel)%nat ->
  exists sb', free_all fuel sb l = Done sb' /\ acct sb' rest /\ sb_fnrdy sb' = None /\
    sb_mb sb' = sb_mb sb /\ sb_mbtail sb' = sb_mbtail sb /\ sb_lastrecord sb' = sb_lastrecord sb /\
    cfg sb' = cfg sb /\ sb_freed sb' = sb_freed sb ++ ids l.
Proof.
  revert fuel sb. induction l as [|m t IH]; intros fuel sb Ha Hn Hf.
  { exists sb. destruct fuel; cbn; rewrite app_nil_r; done. }
  destruct fuel as [|k]; [cbn in Hf; lia|]. cbn [free_all].
  destruct (sbfree_spec sb m t rest Ha (or_introl Hn)) as (sb1 & t1 & -> & Ha1 & Hu & (F1 & F2 & F3 & F4 & F5) & Hn1 & Ht).
  assert (m_notready m = false) as Hnr.
  { pose proof (a_rdy _ _ Ha) as Hr. rewrite Hn in Hr. cbn in Hr. destruct (m_notready m); naive_solver. }
  rewrite Ht in * by done.
  destruct (IH k (m_free sb1 m)) as (sb' & -> & Ha' & Hn' & G1 & G2 & G3 & G4 & G5).
  { destruct Ha1. by split. } { by apply Hn1. } { cbn in Hf. lia. }
  exists sb'. split; [done|]. split; [done|]. split; [done|]. cbn in *. rewrite G1, G2, G3, G4, G5, F1, F2, F3, F4, F5.
  do 4 (split; [done|]). by rewrite <- app_assoc.
Qed.

Lemma sbdroprecord_spec sb :
  dgram sb ->
  exists sb', sbdroprecord_locked sb = Done sb' /\ dgram sb' /\ sb_mb sb' = tail (sb_mb sb) /\
    cfg sb' = cfg sb /\ sb_freed sb' = sb_freed sb ++ ids (default [] (head (sb_mb sb))).
Proof.
  intros [Hi Hn]. pose proof Hi as [Hq Ha Ht Hl _]. unfold sbdroprecord_locked.
  destruct (sb_mb sb) as [|r rs] eqn:E.
  - destruct (empty_sums sb Hi E) as (_ & _ & _ & _ & _ & _ & Etl & El & _).
    exists (SB_EMPTY_FIXUP sb). split; [done|]. unfold SB_EMPTY_FIXUP. rewrite E. cbn. rewrite app_nil_r.
    split; [|done]. split; [|done]. unfold chain in *. rewrite E in *. destruct Ha. split; unfold chain; cbn; rewrite ?E; try done; first [by split|by left].
  - apply Forall_cons in Hq as [Hr Hq]. assert (Hch : chain sb = r ++ concat rs) by (unfold chain; by rewrite E).
    rewrite Hch in Ha, Ht.
    destruct (free_all_spec r (length r) (with_mb sb rs) (concat rs)) as (sb1 & -> & Ha1 & Hn1 & F1 & F2 & F3 & F4 & F5);
      [by destruct Ha; split|done|lia|]. cbn in F1, F2, F3, F4, F5.
    eexists. split; [done|]. unfold SB_EMPTY_FIXUP. cbn [tail head default from_option]. rewrite F1.
    destruct rs as [|r2 rs].
    + cbn. rewrite F1, F5. split; [|split; [done|split; [exact F4|done]]]. split; [|done]. destruct Ha1. split; unfold chain; cbn; rewrite ?F1; try done; first [by split|by left].
    + rewrite F1, F4, F5. split; [|done]. split; [|done]. split; unfold chain; rewrite ?F1, ?F2, ?F3; try done; try by left.
      all: rewrite ?Ht, ?Hl; try (by rewrite last_cons_cons).
      rewrite last_app_ne; [done|]. apply Forall_cons in Hq as [Hr2 _]. cbn. by destruct r2.
Qed.

(** * The queue of records *)

(** A record: its mbufs with their type and data. *)
Definition fields (r : list mbuf) : list (Z * list Z) := (fun m => (m_type m, m_bytes m)) <$> r.
Definition records (sb : sockbuf) : list (list (Z * list Z)) := fields <$> sb_mb sb.

Inductive dop :=
  | DAddr (nm : option Z) (asa : list Z) (m0 control : list mbuf)
  | DControl (m0 control : list mbuf)
  | DDrop
  | DFlush.

Definition dstep (sb : sockbuf) (op : dop) : outcome (sockbuf * Z) :=
  match op with
  | DAddr nm asa m0 control => sbappendaddr_locked sb nm asa m0 control
  | DControl m0 control => sbappendcontrol_locked sb m0 control
  | DDrop => sb1 ← sbdroprecord_locked sb; Done (sb1, 0)
  | DFlush => sb1 ← sbflush_internal sb; Done (sb1, 0)
  end.

Definition addr_mbuf (i : Z) (asa : list Z) : mbuf :=
  Mb i MT_SONAME asa false false false false None None (MLEN - Z.of_nat (length asa)).

(** The header of a packet holds its length. *)
Definition pkt_ok (m0 : list mbuf) : Prop :=
  match m0 with [] => True | h :: _ => m_pkthdr h = Some (sumz m_len m0) end.

Definition limits_ok (sb : sockbuf) : Prop := 0 <= sb_hiwat sb < 2 ^ 31 /\ 0 <= sb_mbmax sb < 2 ^ 31.

Definition dop_ok (sb : sockbuf) (op : dop) : Prop :=
  match op with
  | DAddr nm asa m0 control =>
      pkt_ok m0 /\ all_ready control /\ new_mbufs sb (addr_mbuf (default (-1) nm) asa :: control ++ m0)
  | DControl m0 control => control <> [] /\ all_ready control /\ new_mbufs sb (control ++ m0)
  | _ => True
  end.

(** The free space, as the socket layer defines it. *)
Definition space (sb : sockbuf) : Z :=
  if flag (sb_flags sb) SB_STOP then 0
  else Z.min (sb_hiwat sb - sumz m_len (chain sb))
             (sb_mbmax sb - sumz (fun m => MSIZE + ext_bytes m) (chain sb)).

(** The specification: a datagram that fits is queued whole or not at all. *)
Definition dspec (sb : sockbuf) (op : dop) : list (list (Z * list Z)) * Z :=
  match op with
  | DAddr nm asa m0 control =>
      if decide (Z.of_nat (length asa) + sumz m_len m0 + sumz m_len control <= space sb /\
                 Z.of_nat (length asa) <= MLEN /\ nm <> None)
      then (records sb ++ [(MT_SONAME, asa) :: fields control ++ fields m0], 1) else (records sb, 0)
  | DControl m0 control =>
      if decide (sumz m_len control + sumz m_len m0 <= space sb)
      then (records sb ++ [fields control ++ fields m0], 1) else (records sb, 0)
  | DDrop => (tail (records sb), 0)
  | DFlush => ([], 0)
  end.

Lemma sbspace_exact sb : inv sb -> limits_ok sb -> sbspace sb = space sb.
Proof.
  intros Hi [[H1 H2] [H3 H4]]. pose proof (i_acct _ Hi) as Ha. pose proof (size_bounds _ (a_ext _ _ Ha)) as Hb.
  pose proof (a_size _ _ Ha) as Hs. unfold sbspace, space. destruct (flag _ _); [done|].
  rewrite (a_ccc _ _ Ha), (a_mbcnt _ _ Ha).
  rewrite !wraps_small by (change (2 ^ (32 - 1)) with (2 ^ 31); lia).
  destruct (_ <? _) eqn:E; lia.
Qed.

Lemma m_length_sum m : m_length m = u32 (sumz m_len m).
Proof. done. Qed.

Lemma fields_clr m : fields (m_clrprotoflags m) = fields m.
Proof. unfold fields, m_clrprotoflags. by rewrite <- list_fmap_compose. Qed.

Lemma new_clr_tail sb a m0 : new_mbufs sb (a ++ m0) -> new_mbufs sb (a ++ m_clrprotoflags m0).
Proof.
  intros (H1 & H2 & H3). unfold new_mbufs. rewrite !ids_app, ids_clr in *. split; [done|].
  apply Forall_app in H2 as [Ha Hm]. split.
  - apply Forall_app. split; [done|]. apply List.Forall_map. eapply Forall_impl; [exact Hm|]. done.
  - rewrite !sumz_app in *. assert (sumz m_size (m_clrprotoflags m0) = sumz m_size m0) as ->; [|done].
    clear. induction m0 as [|x m IH]; [done|]. cbn [m_clrprotoflags map]. by rewrite !sumz_cons, <- IH.
Qed.

(** The sizes of new mbufs fit an int. *)
Lemma new_lengths sb m : inv sb -> new_mbufs sb m -> 0 <= sumz m_len m < 2 ^ 31.
Proof.
  intros Hi (_ & He & Hs). pose proof (size_bounds _ He). pose proof (size_bounds _ (a_ext _ _ (i_acct _ Hi))). lia.
Qed.

Lemma sbappendaddr_internal_spec sb i asa m0 control :
  dgram sb -> all_ready control -> new_mbufs sb (addr_mbuf i asa :: control ++ m0) -> Z.of_nat (length asa) <= MLEN ->
  exists sb', sbappendaddr_locked_internal sb (Some i) asa m0 control = Done (sb', 1) /\ dgram sb' /\
    records sb' = records sb ++ [(MT_SONAME, asa) :: fields control ++ fields m0] /\
    cfg sb' = cfg sb /\ sb_freed sb' = sb_freed sb.
Proof.
  intros Hd Hc Hn Hl. unfold sbappendaddr_locked_internal. assert (Z.of_nat (length asa) >? MLEN = false) as -> by lia.
  fold (addr_mbuf i asa). rewrite app_comm_cons in Hn. apply new_clr_tail in Hn.
  destruct (link_all_spec sb _ Hd Hn) as (sb' & E & Hd' & Hq & Hfl & Hfr); [|done|].
  { apply Forall_app. split; [by apply Forall_cons|]. apply clr_ready. }
  rewrite <- app_comm_cons in E. rewrite E. exists sb'. split; [done|]. split; [done|]. split; [|done].
  unfold records. rewrite Hq, fmap_app. cbn. unfold fields at 2. rewrite fmap_app. fold (fields control).
  by rewrite <- (fields_clr m0).
Qed.

(** The guard of [sbappendaddr_locked], in exact arithmetic. *)
Lemma sbappendaddr_guard sb nm asa m0 control :
  inv sb -> limits_ok sb -> dop_ok sb (DAddr nm asa m0 control) ->
  sbappendaddr_locked sb nm asa m0 control =
    if Z.of_nat (length asa) + sumz m_len m0 + sumz m_len control >? space sb then Done (sb, 0)
    else sbappendaddr_locked_internal sb nm asa m0 control.
Proof.
  intros Hi Hlim (Hpk & _ & Hn). pose proof (new_lengths sb _ Hi Hn) as Hlen. rewrite sumz_cons, sumz_app in Hlen.
  change (m_len (addr_mbuf (default (-1) nm) asa)) with (Z.of_nat (length asa)) in Hlen.
  pose proof (sum_len_nonneg control). pose proof (sum_len_nonneg m0).
  unfold sbappendaddr_locked. rewrite m_length_sum, u32_small, (sbspace_exact sb Hi Hlim) by lia.
  destruct m0 as [|h t].
  - change (sumz m_len []) with 0. rewrite Z.add_0_r, wraps_small; [done|lia|]. change (2 ^ (32 - 1)) with (2 ^ 31). lia.
  - cbn in Hpk. rewrite Hpk, wraps_small; [done|lia|]. change (2 ^ (32 - 1)) with (2 ^ 31). lia.
Qed.

(** The outcome of a step: what [dspec] says. *)
Definition dmeets (sb : sockbuf) (op : dop) : Prop :=
  exists sb', dstep sb op = Done (sb', snd (dspec sb op)) /\ dgram sb' /\ records sb' = fst (dspec sb op) /\
    cfg sb' = cfg sb.

Lemma dmeets_addr sb nm asa m0 control :
  dgram sb -> limits_ok sb -> dop_ok sb (DAddr nm asa m0 control) -> dmeets sb (DAddr nm asa m0 control).
Proof.
  intros Hd Hlim Hok. unfold dmeets. cbn [dstep dspec].
  rewrite (sbappendaddr_guard sb nm asa m0 control (dgram_inv _ Hd) Hlim Hok). destruct Hok as (_ & Hr & Hn).
  destruct (_ >? space sb) eqn:Es.
  { exists sb. rewrite decide_False by lia. done. }
  destruct (decide (Z.of_nat (length asa) <= MLEN)) as [Hml|Hml].
  2:{ exists sb. unfold sbappendaddr_locked_internal. assert (Z.of_nat (length asa) >? MLEN = true) as -> by lia.
      rewrite decide_False by lia. done. }
  destruct nm as [i|].
  - destruct (sbappendaddr_internal_spec sb i asa m0 control Hd Hr Hn Hml) as (sb' & -> & Hd' & Hq & Hfl & Hfr).
    exists sb'. rewrite decide_True by (split_and!; [lia|done|done]). done.
  - exists sb. unfold sbappendaddr_locked_internal. assert (Z.of_nat (length asa) >? MLEN = false) as -> by lia.
    rewrite decide_False by (intros (_ & _ & ?); done). done.
Qed.

Lemma dmeets_control sb m0 control :
  dgram sb -> limits_ok sb -> dop_ok sb (DControl m0 control) -> dmeets sb (DControl m0 control).
Proof.
  intros Hd Hlim (Hne & Hr & Hn). pose proof (dgram_inv _ Hd) as Hi.
  pose proof (new_lengths sb _ Hi Hn) as Hlen. rewrite sumz_app in Hlen.
  pose proof (sum_len_nonneg control). pose proof (sum_len_nonneg m0).
  unfold dmeets. cbn [dstep dspec]. unfold sbappendcontrol_locked. destruct control as [|h t]; [done|]. set (control := h :: t) in *.
  rewrite !m_length_sum, !u32_small, (sbspace_exact sb Hi Hlim), wraps_small by (change (2 ^ (32 - 1)) with (2 ^ 31) || idtac; lia).
  destruct (_ >? space sb) eqn:Es.
  { exists sb. rewrite decide_False by lia. done. }
  apply new_clr_tail in Hn.
  destruct (link_all_spec sb _ Hd Hn) as (sb' & -> & Hd' & Hq & Hfl & _); [|done|].
  { apply Forall_app. split; [done|apply clr_ready]. }
  exists sb'. rewrite decide_True by lia. split; [done|]. split; [done|]. split; [|done].
  unfold records. rewrite Hq, fmap_app. cbn. by rewrite <- (fields_clr m0); unfold fields; rewrite <- fmap_app.
Qed.

Lemma dstep_spec sb op : dgram sb -> limits_ok sb -> dop_ok sb op -> dmeets sb op.
Proof.
  intros Hd Hlim Hok. pose proof (dgram_inv _ Hd) as Hi.
  destruct op as [nm asa m0 control|m0 control| |]; [by apply dmeets_addr|by apply dmeets_control|..].
  - destruct (sbdroprecord_spec sb Hd) as (sb' & E & Hd' & Hq & Hfl & _). exists sb'. cbn. rewrite E.
    split; [done|]. split; [done|]. split; [|done]. unfold records. rewrite Hq. by destruct (sb_mb sb).
  - destruct (sbflush_loop_spec (S (length (sb_mb sb))) sb Hi ltac:(lia)) as (sb' & E & Hi' & Hq & Hfl & _).
    exists sb'. cbn [dstep]. unfold sbflush_internal. rewrite E. split; [done|]. split; [|unfold records; by rewrite Hq].
    split; [done|]. by destruct (empty_sums sb' Hi' Hq) as (_ & _ & _ & _ & _ & _ & _ & _ & ? & _).
Qed.

(** C21. The receive buffer of a datagram socket is a queue of records: a
    datagram (address, control data, data) is queued whole, behind the others
    and unchanged, exactly when its bytes fit the space that hiwat and mbmax
    leave and an mbuf for its address can be had, and is refused with 0 and no
    other effect otherwise; sbdroprecord removes the oldest record and
    sbflush all of them; every operation returns. *)
Theorem dgram_queue_refines sb op :
  dgram sb -> limits_ok sb -> dop_ok sb op ->
  exists sb', dstep sb op = Done (sb', snd (dspec sb op)) /\ dgram sb' /\ records sb' = fst (dspec sb op).
Proof.
  intros H1 H2 H3. destruct (dstep_spec sb op H1 H2 H3) as (sb' & E & Hd & Hr & _). by exists sb'.
Qed.

(** The states of a datagram buffer. *)
Inductive dreach (hiwat mbmax flags : Z) : sockbuf -> Prop :=
  | dr_empty : dreach hiwat mbmax flags (sb_empty hiwat mbmax flags)
  | dr_step sb op sb' ret :
      dreach hiwat mbmax flags sb -> dop_ok sb op -> dstep sb op = Done (sb', ret) -> dreach hiwat mbmax flags sb'.

(** The bytes in a queue of records. *)
Definition total (q : list (list (Z * list Z))) : Z :=
  foldr (fun f a => Z.of_nat (length (snd f)) + a) 0 (concat q).

Lemma total_app a b : total (a ++ b) = total a + total b.
Proof. unfold total. rewrite concat_app. generalize (concat a). intros l. induction l as [|x l IH]; cbn; lia. Qed.

Lemma total_records sb : total (records sb) = sumz m_len (chain sb).
Proof.
  unfold total, records, chain. replace (concat (fields <$> sb_mb sb)) with (fields (concat (sb_mb sb))).
  - induction (concat (sb_mb sb)) as [|m l IH]; [done|]. cbn. rewrite sumz_cons, <- IH. done.
  - induction (sb_mb sb) as [|r q IH]; [done|]. cbn. unfold fields at 1. rewrite fmap_app. by rewrite <- IH.
Qed.

Lemma total_fields r : total [fields r] = sumz m_len r.
Proof. unfold total. cbn. rewrite app_nil_r. induction r as [|m l IH]; [done|]. cbn. by rewrite sumz_cons, <- IH. Qed.

Lemma total_tail q : total (tail q) <= total q.
Proof.
  destruct q as [|r q]; [done|]. change (r :: q) with ([r] ++ q). rewrite total_app. cbn [tail app].
  enough (0 <= total [r]) by lia. unfold total. generalize (concat [r]). intros l. induction l as [|x l IH]; cbn; lia.
Qed.

(** A step never grows the queue above a limit that it respected. *)
Lemma dspec_total sb op : total (records sb) <= sb_hiwat sb -> 0 <= sb_hiwat sb -> total (fst (dspec sb op)) <= sb_hiwat sb.
Proof.
  intros H H0. pose proof (total_records sb) as Ht.
  assert (Hsp : forall n, n <= space sb -> 0 <= n -> total (records sb) + n <= sb_hiwat sb).
  { intros n Hn Hp. unfold space in Hn. destruct (flag _ _); lia. }
  destruct op as [nm asa m0 control|m0 control| |]; cbn [dspec].
  - destruct (decide _) as [(Hd & _)|]; [|done]. cbn [fst]. rewrite total_app.
    assert (Hf : total [(MT_SONAME, asa) :: fields control ++ fields m0] = Z.of_nat (length asa) + sumz m_len m0 + sumz m_len control).
    { rewrite <- (total_fields m0), <- (total_fields control). unfold total. cbn. rewrite !app_nil_r, foldr_app.
      generalize (foldr (fun f a => Z.of_nat (length (snd f)) + a) 0 (fields m0)). intros z.
      assert (foldr (fun f a => Z.of_nat (length (snd f)) + a) z (fields control)
              = foldr (fun f a => Z.of_nat (length (snd f)) + a) 0 (fields control) + z) as ->; [|lia].
      induction (fields control); cbn; lia. }
    rewrite Hf. apply Hsp; [done|]. pose proof (sum_len_nonneg m0). pose proof (sum_len_nonneg control). lia.
  - destruct (decide _) as [Hd|]; [|done]. cbn [fst]. rewrite total_app.
    assert (total [fields control ++ fields m0] = sumz m_len control + sumz m_len m0) as ->.
    { unfold fields. rewrite <- fmap_app. fold (fields (control ++ m0)). by rewrite total_fields, sumz_app. }
    apply Hsp; [done|]. pose proof (sum_len_nonneg m0). pose proof (sum_len_nonneg control). lia.
  - pose proof (total_tail (records sb)). cbn [fst]. lia.
  - exact H0.
Qed.

Lemma empty_dgram h m f : dgram (sb_empty h m f).
Proof. split; [|done]. apply empty_stream. Qed.

Lemma dreach_inv h m f sb :
  0 <= h < 2 ^ 31 -> 0 <= m < 2 ^ 31 -> dreach h m f sb ->
  dgram sb /\ cfg sb = (f, h, m) /\ total (records sb) <= h.
Proof.
  intros Hh Hm. induction 1 as [|sb op sb' ret _ (IH1 & IH2 & IH3) Hok E].
  { split; [apply empty_dgram|]. split; [done|]. cbn. lia. }
  assert (sb_hiwat sb = h /\ sb_mbmax sb = m) as [H1 H2] by (unfold cfg in IH2; by injection IH2).
  assert (Hlim : limits_ok sb) by (split; by rewrite ?H1, ?H2).
  destruct (dstep_spec sb op IH1 Hlim Hok) as (sb1 & E1 & Hd & Hr & Hc).
  rewrite E in E1. injection E1 as -> ->. split; [done|]. split; [congruence|].
  rewrite Hr, <- H1. apply dspec_total; lia.
Qed.

(** Datagrams never take more bytes than the buffer's limit: in every state
    of a datagram buffer the counted bytes are those of its records and at
    most sb_hiwat. *)
Theorem dgram_bounded hiwat mbmax flags sb :
  0 <= hiwat < 2 ^ 31 -> 0 <= mbmax < 2 ^ 31 -> dreach hiwat mbmax flags sb ->
  sbused sb = total (records sb) /\ sbavail sb = sbused sb /\ sbused sb <= hiwat.
Proof.
  intros Hh Hm Hr. destruct (dreach_inv _ _ _ _ Hh Hm Hr) as ([Hi Hn] & _ & Ht). unfold sbused, sbavail.
  pose proof (i_acct _ Hi) as Ha. rewrite (a_ccc _ _ Ha), (a_acc _ _ Ha), total_records in *.
  rewrite sum_avail_none; [done|]. pose proof (a_rdy _ _ Ha) as H. by rewrite Hn in H.
Qed.

(** ** Examples *)

Definition ex_dgram : dop :=
  DAddr (Some 1) [16; 2; 0; 80; 127; 0; 0; 1] [Mb 2 MT_DATA [7; 8; 9] false false false false (Some 3) None 0] [].

Lemma ex_dgram_ok : dop_ok (sb_empty 64 1024 0) ex_dgram.
Proof. split; [done|]. split; [constructor|]. split; [decide_closed|]. split; [repeat constructor; done|done]. Qed.

Lemma dgram_queue_refines_witness :
  exists sb', dstep (sb_empty 64 1024 0) ex_dgram = Done (sb', 1) /\
    records sb' = [[(MT_SONAME, [16; 2; 0; 80; 127; 0; 0; 1]); (MT_DATA, [7; 8; 9])]].
Proof.
  destruct (dgram_queue_refines (sb_empty 64 1024 0) ex_dgram) as (sb' & E & _ & Hr).
  - exact (empty_dgram 64 1024 0).
  - split; simpl; lia.
  - exact ex_dgram_ok.
  - exists sb'. split; [exact E|exact Hr].
Defined.

Lemma dgram_bounded_witness : exists sb, dreach 64 1024 0 sb /\ sbused sb = 11 /\ sbused sb <= 64.
Proof.
  destruct (dstep (sb_empty 64 1024 0) ex_dgram) as [[sb ret]| |] eqn:E.
  - assert (Hr : dreach 64 1024 0 sb) by exact (dr_step _ _ _ _ _ _ _ (dr_empty _ _ _) ex_dgram_ok E).
    exists sb. split; [exact Hr|]. destruct (dgram_bounded 64 1024 0 sb) as (_ & _ & H); [lia|lia|exact Hr|].
    split; [|exact H]. vm_compute in E. injection E as <- <-. reflexivity.
  - discriminate E.
  - discriminate E.
Defined.

Definition ex_record : list mbuf :=
  [Mb 1 MT_DATA [1; 2] false false true false None None 10; Mb 2 MT_DATA [] false false false false None None 0;
   Mb 3 MT_DATA [3] false false false false None None 0].

(** sbappendrecord adds one record with exactly the data of the chain, and
    sbappend adds this data behind that of the buffer, whether it goes on with
    the last record or, behind an end-of-record mark, begins a new one;
    merging and dropping of mbufs loses none: each is in the buffer or freed
    once. *)
Theorem sbappend_keeps_data sb m :
  dgram sb -> new_mbufs sb m -> m <> [] ->
  (exists sb' r, sbappendrecord_locked sb m = Done sb' /\ dgram sb' /\ sb_mb sb' = sb_mb sb ++ [r] /\
    data r = data m /\ ids (chain sb') ++ sb_freed sb' ≡ₚ ids (chain sb) ++ ids m ++ sb_freed sb) /\
  (exists sb', sbappend_locked sb m false = Done sb' /\ dgram sb' /\
    data (chain sb') = data (chain sb) ++ data m /\
    ids (chain sb') ++ sb_freed sb' ≡ₚ ids (chain sb) ++ ids m ++ sb_freed sb).
Proof.
  intros Hd Hn Hne. split.
  - destruct (sbappendrecord_spec sb m Hd Hn Hne) as (sb' & r & E & H1 & H2 & H3 & _ & H4). by exists sb', r.
  - destruct (sbappend_spec sb m Hd Hn) as (sb' & E & H1 & H2 & _ & H3). by exists sb'.
Qed.

Lemma sbappend_keeps_data_witness :
  exists sb', sbappendrecord_locked (sb_empty 64 1024 0) ex_record = Done sb' /\ data (chain sb') = [1; 2; 3].
Proof.
  destruct (sbappend_keeps_data (sb_empty 64 1024 0) ex_record) as [(sb' & r & E & _ & Hq & Hd & _) _].
  - exact (empty_dgram 64 1024 0).
  - split; [decide_closed|]. split; [repeat constructor; done|done].
  - discriminate.
  - exists sb'. split; [exact E|]. unfold chain. rewrite Hq. cbn [sb_mb sb_empty app concat].
    rewrite app_nil_r. exact Hd.
Defined.
