(* ===== verification/Printf.v ===== *)
(** The kernel's printf: kvprintf of src/lib/ff_subr_prf.c, with hex2ascii of
    src/freebsd/libkern/bcd.c.

    The output is the string of the characters given to PCHAR.  The variable
    arguments are a list: a number, a string (None is NULL), a byte array for
    %D, or a pointer for %n; taking an argument of another kind, or more than
    were given, is [Fault], as is reading or writing outside a buffer.  The
    stores of %n are recorded in order. *)
From stdpp Require Import base list strings.
From Stdlib Require Import ZArith Lia Ascii.
From S2P Require Import Prelude CStr.

Local Open Scope char_scope.
Local Open Scope Z_scope.

Definition hex2ascii_data : cstr := lit "0123456789abcdefghijklmnopqrstuvwxyz".

Definition hex2ascii (hex : Z) : outcome ascii :=
  match hex2ascii_data !! Z.to_nat hex with
  | Some c => if 0 <=? hex then Done c else Fault
  | None => Fault
  end.

(** sizeof(intmax_t) * NBBY + 1 *)
Definition MAXNBUF : Z := 65.

(** The loop of [ksprintn]: [p] is the string from the last character written
    back to the NUL; [room]: the characters that fit the buffer. *)
Fixpoint ksprintn_loop (room : nat) (num base : Z) (upper : bool) (p : cstr) : outcome cstr :=
  match room with
  | O => Fault
  | S room' =>
      if base =? 0 then Fault
      else c ← hex2ascii (num mod base);
           let p' := (if upper then toupper c else c) :: p in
           if num / base =? 0 then Done p' else ksprintn_loop room' (num / base) base upper p'
  end.

Definition ksprintn (num base : Z) (upper : bool) : outcome cstr :=
  ksprintn_loop (Z.to_nat (MAXNBUF - 1)) num (u64 base) upper [].

Inductive varg :=
  | VNum (z : Z)
  | VStr (s : option cstr)
  | VMem (b : list Z)
  | VPtr.

(** The variables of a conversion.  [f_num]: the number that the inner loop of
    the digits is reading. *)
Record fspec := Fspec {
  f_padc : ascii;
  f_width : Z;
  f_dwidth : Z;
  f_ladjust : bool;
  f_sharp : bool;
  f_sign : bool;
  f_dot : bool;
  f_l : bool;
  f_q : bool;
  f_h : bool;
  f_c : bool;
  f_j : bool;
  f_t : bool;
  f_z : bool;
  f_num : option Z
}.

Definition fspec0 : fspec :=
  Fspec " " 0 0 false false false false false false false false false false false None.

Definition set_dot s := Fspec (f_padc s) (f_width s) (f_dwidth s) (f_ladjust s) (f_sharp s) (f_sign s) true
  (f_l s) (f_q s) (f_h s) (f_c s) (f_j s) (f_t s) (f_z s) (f_num s).
Definition set_sharp s b := Fspec (f_padc s) (f_width s) (f_dwidth s) (f_ladjust s) b (f_sign s) (f_dot s)
  (f_l s) (f_q s) (f_h s) (f_c s) (f_j s) (f_t s) (f_z s) (f_num s).
Definition set_sign s b := Fspec (f_padc s) (f_width s) (f_dwidth s) (f_ladjust s) (f_sharp s) b (f_dot s)
  (f_l s) (f_q s) (f_h s) (f_c s) (f_j s) (f_t s) (f_z s) (f_num s).
Definition set_ladjust s b := Fspec (f_padc s) (f_width s) (f_dwidth s) b (f_sharp s) (f_sign s) (f_dot s)
  (f_l s) (f_q s) (f_h s) (f_c s) (f_j s) (f_t s) (f_z s) (f_num s).
Definition set_padc s c := Fspec c (f_width s) (f_dwidth s) (f_ladjust s) (f_sharp s) (f_sign s) (f_dot s)
  (f_l s) (f_q s) (f_h s) (f_c s) (f_j s) (f_t s) (f_z s) (f_num s).
Definition set_width s w := Fspec (f_padc s) w (f_dwidth s) (f_ladjust s) (f_sharp s) (f_sign s) (f_dot s)
  (f_l s) (f_q s) (f_h s) (f_c s) (f_j s) (f_t s) (f_z s) (f_num s).
Definition set_dwidth s w := Fspec (f_padc s) (f_width s) w (f_ladjust s) (f_sharp s) (f_sign s) (f_dot s)
  (f_l s) (f_q s) (f_h s) (f_c s) (f_j s) (f_t s) (f_z s) (f_num s).
Definition set_size s l q h c j t z := Fspec (f_padc s) (f_width s) (f_dwidth s) (f_ladjust s) (f_sharp s) (f_sign s)
  (f_dot s) l q h c j t z (f_num s).
Definition set_num s n := Fspec (f_padc s) (f_width s) (f_dwidth s) (f_ladjust s) (f_sharp s) (f_sign s) (f_dot s)
  (f_l s) (f_q s) (f_h s) (f_c s) (f_j s) (f_t s) (f_z s) n.

(** [while (n-- > 0) PCHAR(c)]. *)
Definition fill (c : ascii) (n : Z) : cstr := replicate (Z.to_nat n) c.

(** [handle_nosign] and [handle_sign]: the value as a uintmax_t. *)
Definition fetch_nosign (s : fspec) (z : Z) : Z :=
  if f_j s then u64 z else if f_q s then u64 z else if f_t s then u64 (s64 z)
  else if f_l s then u64 z else if f_z s then u64 z
  else if f_h s then u16 z else if f_c s then u8 z else u32 z.

Definition fetch_sign (s : fspec) (z : Z) : Z :=
  u64 (if f_j s then s64 z else if f_q s then s64 z else if f_t s then s64 z
       else if f_l s then s64 z else if f_z s then s64 z
       else if f_h s then wraps 16 z else if f_c s then wraps 8 z else s32 z).

(** [number:]. *)
Definition number (s : fspec) (num base : Z) (upper : bool) : outcome cstr :=
  let neg := f_sign s && (s64 num <? 0) in
  let num := if neg then u64 (- s64 num) else num in
  p ← ksprintn num base upper;
  let n := Z.of_nat (length p) in
  let sharp := f_sharp s && negb (num =? 0) in
  let tmp := (if sharp then if base =? 8 then 1 else if base =? 16 then 2 else 0 else 0) + b2z neg in
  let dwidth := if negb (f_ladjust s) && Ascii.eqb (f_padc s) "0" then s32 (f_width s - tmp) else f_dwidth s in
  let width := s32 (f_width s - (tmp + Z.max dwidth n)) in
  let dwidth := s32 (dwidth - n) in
  Done ((if f_ladjust s then [] else fill " " width)
        ++ (if neg then ["-"] else [])
        ++ (if sharp then if base =? 8 then ["0"] else if base =? 16 then ["0"; "x"] else [] else [])
        ++ fill "0" dwidth
        ++ p
        ++ (if f_ladjust s then fill " " width else [])).

(** [case 's']. *)
Definition format_s (s : fspec) (p : option cstr) : cstr :=
  let p := default (lit "(null)") p in
  let n := if f_dot s then Z.min (Z.max 0 (f_dwidth s)) (Z.of_nat (length p)) else Z.of_nat (length p) in
  let width := s32 (f_width s - n) in
  (if negb (f_ladjust s) && (width >? 0) then fill (f_padc s) width else [])
  ++ take (Z.to_nat n) p
  ++ (if f_ladjust s && (width >? 0) then fill (f_padc s) width else []).

(** [case 'D']: [width] bytes in hexadecimal with the separator [sep]. *)
Fixpoint format_D (width : nat) (up : list Z) (sep : cstr) : outcome cstr :=
  match width with
  | O => Done []
  | S w =>
      match up with
      | [] => Fault
      | b :: up' =>
          hi ← hex2ascii (Z.shiftr b 4);
          lo ← hex2ascii (Z.land b 15);
          r ← format_D w up' sep;
          Done (hi :: lo :: (match w with O => [] | _ => sep end) ++ r)
      end
  end.

(** The bit names of [case 'b']; [name]: is a name being read, and printed? *)
Fixpoint format_bits (num : Z) (p : cstr) (tmp : bool) (name : option bool) : outcome cstr :=
  match p with
  | [] => Done (if tmp then [">"] else [])
  | c :: t =>
      let n := wraps 8 (code c) in
      match (if n >? 32 then name else None) with
      | Some shown => r ← format_bits num t tmp name; Done (if shown then c :: r else r)
      | None =>
          if (n <? 1) || (n >? 32) then Fault
          else if Z.testbit num (n - 1) then
            r ← format_bits num t true (Some true); Done ((if tmp then "," else "<") :: r)
          else format_bits num t tmp (Some false)
      end
  end.

Definition format_b (z : Z) (p : cstr) : outcome cstr :=
  match p with
  | [] => Fault
  | base :: names =>
      let num := u32 z in
      q ← ksprintn num (wraps 8 (code base)) false;
      if num =? 0 then Done q else r ← format_bits num names false None; Done (q ++ r)
  end.

(** The width of a store of %n in bits. *)
Definition store_bits (s : fspec) : Z :=
  if f_j s || f_q s || f_l s || f_z s then 64 else if f_h s then 16 else if f_c s then 8 else 32.

(** The result of a [switch] on a character of the conversion: go on with the
    conversion ([goto reswitch]), output, a store, or the default case. *)
Inductive conv :=
  | Reswitch (s : fspec) (args : list varg)
  | Out (o : cstr) (args : list varg)
  | Store (args : list varg)
  | Default.

Definition va_num (args : list varg) : outcome (Z * list varg) :=
  match args with VNum z :: r => Done (z, r) | _ => Fault end.
Definition va_str (args : list varg) : outcome (option cstr * list varg) :=
  match args with VStr p :: r => Done (p, r) | _ => Fault end.

Definition out_number (s : fspec) (sign : bool) (base : Z) (upper : bool) (args : list varg) : outcome conv :=
  x ← va_num args;
  let '(z, r) := x in
  let s := set_sign s sign in
  o ← number s (if sign then fetch_sign s z else fetch_nosign s z) base upper;
  Done (Out o r).

(** The switch. *)
Definition convert (radix : Z) (s : fspec) (ch : ascii) (args : list varg) : outcome conv :=
  match ch with
  | "." => Done (Reswitch (set_dot s) args)
  | "#" => Done (Reswitch (set_sharp s true) args)
  | "+" => Done (Reswitch (set_sign s true) args)
  | "-" => Done (Reswitch (set_ladjust s true) args)
  | "%" => Done (Out ["%"] args)
  | "*" =>
      x ← va_num args;
      let '(z, r) := x in
      if f_dot s then Done (Reswitch (set_dwidth s (s32 z)) r)
      else if s32 z <? 0 then Done (Reswitch (set_width (set_ladjust s (negb (f_ladjust s))) (s32 (- s32 z))) r)
      else Done (Reswitch (set_width s (s32 z)) r)
  | "0" => if f_dot s then Done (Reswitch (set_num s (Some 0)) args)
           else Done (Reswitch (set_padc s "0") args)
  | "1" | "2" | "3" | "4" | "5" | "6" | "7" | "8" | "9" =>
      Done (Reswitch (set_num s (Some (digit_val ch))) args)
  | "b" =>
      x ← va_num args; let '(z, r) := x in
      y ← va_str r; let '(p, r2) := y in
      o ← format_b z (default [] p);
      Done (Out o r2)
  | "c" => x ← va_num args; let '(z, r) := x in Done (Out [chr z] r)
  | "D" =>
      match args with
      | VMem up :: r =>
          y ← va_str r; let '(p, r2) := y in
          if f_width s <? 0 then Fault else
          o ← format_D (Z.to_nat (if f_width s =? 0 then 16 else f_width s)) up (default [] p);
          Done (Out o r2)
      | _ => Fault
      end
  | "d" | "i" => out_number s true 10 false args
  | "h" => Done (Reswitch (set_size s (f_l s) (f_q s) (negb (f_h s)) (f_c s || f_h s) (f_j s) (f_t s) (f_z s)) args)
  | "j" => Done (Reswitch (set_size s (f_l s) (f_q s) (f_h s) (f_c s) true (f_t s) (f_z s)) args)
  | "l" => Done (Reswitch (set_size s (negb (f_l s)) (f_q s || f_l s) (f_h s) (f_c s) (f_j s) (f_t s) (f_z s)) args)
  | "n" => match args with VPtr :: r => Done (Store r) | _ => Fault end
  | "o" => out_number s false 8 false args
  | "p" =>
      x ← va_num args; let '(z, r) := x in
      o ← number (set_sign (set_sharp s (f_width s =? 0)) false) (u64 z) 16 false;
      Done (Out o r)
  | "q" => Done (Reswitch (set_size s (f_l s) true (f_h s) (f_c s) (f_j s) (f_t s) (f_z s)) args)
  | "r" => out_number s (f_sign s) radix false args
  | "s" => x ← va_str args; let '(p, r) := x in Done (Out (format_s s p) r)
  | "t" => Done (Reswitch (set_size s (f_l s) (f_q s) (f_h s) (f_c s) (f_j s) true (f_z s)) args)
  | "u" => out_number s false 10 false args
  | "X" => out_number s false 16 true args
  | "x" => out_number s false 16 false args
  | "y" => out_number s true 16 false args
  | "z" => Done (Reswitch (set_size s (f_l s) (f_q s) (f_h s) (f_c s) (f_j s) (f_t s) true) args)
  | _ => Done Default
  end.

(** The end of the digits' loop: width or dwidth is the number read. *)
Definition end_num (s : fspec) : fspec :=
  match f_num s with
  | None => s
  | Some n => set_num (if f_dot s then set_dwidth s n else set_width s n) None
  end.

(** [spec]: the conversion being read, with the characters since '%'; [None]:
    plain text.  [out]: the output so far; [stores]: the values stored by %n. *)
Fixpoint kvprintf_loop (radix : Z) (fmt : cstr) (spec : option (fspec * cstr)) (stop : bool)
    (args : list varg) (out : cstr) (stores : list Z) : outcome (cstr * list Z) :=
  match spec with
  | None =>
      match fmt with
      | [] => Done (out, stores)
      | ch :: fmt' =>
          if Ascii.eqb ch "%" && negb stop
          then kvprintf_loop radix fmt' (Some (fspec0, ["%"])) stop args out stores
          else kvprintf_loop radix fmt' None stop args (out ++ [ch]) stores
      end
  | Some (s, seen) =>
      match fmt with
      | [] => Fault     (* the NUL is printed and the text behind it read *)
      | ch :: fmt' =>
          let seen := seen ++ [ch] in
          match (if isdigit ch then f_num s else None) with
          | Some n => kvprintf_loop radix fmt' (Some (set_num s (Some (s32 (n * 10 + digit_val ch))), seen)) stop args out stores
          | None =>
              let s := end_num s in
              x ← convert radix s ch args;
              match x with
              | Reswitch s' args' => kvprintf_loop radix fmt' (Some (s', seen)) stop args' out stores
              | Out o args' => kvprintf_loop radix fmt' None stop args' (out ++ o) stores
              | Store args' => kvprintf_loop radix fmt' None stop args' out
                                 (stores ++ [wraps (store_bits s) (Z.of_nat (length out))])
              | Default => kvprintf_loop radix fmt' None true args (out ++ seen) stores
              end
          end
      end
  end.

(** Output, stores and the return value. *)
Definition kvprintf (fmt : option cstr) (radix : Z) (args : list varg) : outcome (cstr * list Z * Z) :=
  let fmt := default (lit "(fmt null)" ++ [chr 10]) fmt in
  let radix := if (radix <? 2) || (radix >? 36) then 10 else radix in
  x ← kvprintf_loop radix fmt None false args [] [];
  let '(out, stores) := x in
  Done (out, stores, s32 (Z.of_nat (length out))).

(** Without PRINTF_BUFR_SIZE every character goes to putchar at once. *)
Definition vprintf (fmt : option cstr) (args : list varg) : outcome (cstr * list Z * Z) := kvprintf fmt 10 args.

Example kvprintf_ex1 :
  kvprintf (Some (lit "a=%-5d|%05d|%#x|%ld|%s%%")) 10 [VNum 42; VNum (-42); VNum 255; VNum (-1); VStr (Some (lit "hi"))]
  = Done (lit "a=42   |-0042|0xff|-1|hi%", [], 25).
Proof. vm_compute. reflexivity. Qed.

Example kvprintf_ex2 :
  kvprintf (Some (lit "reg=%b")) 10 [VNum 3; VStr (Some (chr 8 :: chr 2 :: lit "BITTWO" ++ chr 1 :: lit "BITONE"))]
  = Done (lit "reg=3<BITTWO,BITONE>", [], 20).
Proof. vm_compute. reflexivity. Qed.

Example kvprintf_ex3 :
  kvprintf (Some (lit "%3D %k %d")) 10 [VMem [1; 171; 255]; VStr (Some (lit ":")); VNum 1]
  = Done (lit "01:ab:ff %k %d", [], 14).
Proof. vm_compute. reflexivity. Qed.

(** * Digits *)

(** The character of a digit. *)
Definition dig (d : Z) : ascii := nth (Z.to_nat d) hex2ascii_data "0".

Arguments dig : simpl never.

(** [n] in base [b], with at most [k] digits. *)
Fixpoint digits (k : nat) (b n : Z) : cstr :=
  match k with
  | O => []
  | S k' => (if n <? b then [] else digits k' b (n / b)) ++ [dig (n mod b)]
  end.

Lemma hex2ascii_dig d : 0 <= d < 36 -> hex2ascii d = Done (dig d).
Proof.
  intros H. assert (Forall (fun d => hex2ascii d = Done (dig d)) (seqZ 0 36)) as Hall by (vm_compute; repeat constructor).
  rewrite Forall_forall in Hall. apply Hall, elem_of_seqZ. lia.
Qed.

(** [ksprintn] writes the digits and stays within its buffer. *)
Lemma ksprintn_loop_spec room b num p :
  2 <= b <= 36 -> 0 <= num < b ^ Z.of_nat room -> (0 < room)%nat ->
  ksprintn_loop room num b false p = Done (digits room b num ++ p).
Proof.
  intros Hb. revert num p. induction room as [|k IH]; intros num p Hn Hk; [lia|].
  cbn [ksprintn_loop digits]. assert (b =? 0 = false) as -> by lia.
  pose proof (Z.mod_pos_bound num b ltac:(lia)). rewrite hex2ascii_dig by lia. cbn [mbind outcome_bind].
  rewrite Nat2Z.inj_succ, Z.pow_succ_r in Hn by lia.
  destruct (Z.ltb_spec num b).
  - rewrite Z.div_small by lia. cbn. rewrite Z.mod_small by lia. done.
  - assert (0 < num / b) by (apply Z.div_str_pos; lia).
    assert (num / b < b ^ Z.of_nat k) by (apply Z.div_lt_upper_bound; lia).
    assert (num / b =? 0 = false) as -> by lia.
    destruct k as [|k]; [change (b ^ Z.of_nat 0) with 1 in *; lia|]. rewrite IH by lia. by rewrite <- app_assoc.
Qed.

Lemma ksprintn_spec b num : 2 <= b <= 36 -> 0 <= num < 2 ^ 64 -> ksprintn num b false = Done (digits 64 b num).
Proof.
  intros Hb Hn. unfold ksprintn, MAXNBUF. change (Z.to_nat (65 - 1)) with 64%nat.
  rewrite (wrapu_small 64 b) by lia. rewrite ksprintn_loop_spec; [by rewrite app_nil_r|lia| |lia].
  split; [lia|]. eapply Z.lt_le_trans; [apply Hn|]. apply (Z.pow_le_mono_l 2 b 64). lia.
Qed.

Lemma digits_fuel k k' b n :
  2 <= b -> 0 <= n < b ^ Z.of_nat k -> 0 <= n < b ^ Z.of_nat k' -> (0 < k)%nat -> (0 < k')%nat ->
  digits k b n = digits k' b n.
Proof.
  intros Hb. revert k' n. induction k as [|k IH]; intros [|k'] n H1 H2 Hk Hk'; try lia.
  cbn [digits]. f_equal. rewrite Nat2Z.inj_succ, Z.pow_succ_r in H1, H2 by lia.
  destruct (Z.ltb_spec n b); [done|].
  assert (0 < n / b) by (apply Z.div_str_pos; lia).
  assert (n / b < b ^ Z.of_nat k) by (apply Z.div_lt_upper_bound; lia).
  assert (n / b < b ^ Z.of_nat k') by (apply Z.div_lt_upper_bound; lia).
  destruct k as [|k]; [change (b ^ Z.of_nat 0) with 1 in *; lia|].
  destruct k' as [|k']; [change (b ^ Z.of_nat 0) with 1 in *; lia|]. apply IH; lia.
Qed.

Lemma digits_dec k n : print_dec_fuel k n = digits k 10 n.
Proof.
  revert n. induction k as [|k IH]; intros n; [done|]. cbn [print_dec_fuel digits]. rewrite IH. do 2 f_equal.
  pose proof (Z.mod_pos_bound n 10 ltac:(lia)). generalize (n mod 10), H. clear. intros d H.
  assert (Forall (fun d => chr (48 + d) = dig d) (seqZ 0 10)) as Hall by decide_closed.
  rewrite Forall_forall in Hall. apply Hall, elem_of_seqZ. lia.
Qed.

(** Decimal output is [print_dec]. *)
Lemma ksprintn_dec num : 0 <= num < 2 ^ 64 -> ksprintn num 10 false = Done (print_dec num).
Proof.
  intros H. rewrite ksprintn_spec by lia. unfold print_dec. rewrite digits_dec.
  assert (2 ^ 64 <= 10 ^ Z.of_nat 64) by (vm_compute; discriminate).
  assert (2 ^ 64 <= 10 ^ Z.of_nat 20) by (vm_compute; discriminate).
  rewrite (digits_fuel 64 20) by lia. reflexivity.
Qed.

(** * Conversions of a number *)

(** A text without a conversion. *)
Definition plain (t : cstr) : Prop := Forall (fun c => c <> "%") t.

(** The conversion %[-][0][width][l]d. *)
Definition conv_d (ladj zero : bool) (w : Z) (long : bool) : cstr :=
  "%" :: (if ladj then ["-"] else []) ++ (if zero then ["0"] else []) ++ (if w =? 0 then [] else print_dec w)
  ++ (if long then ["l"] else []) ++ ["d"].

(** The reference: sign and digits, filled up to the width. *)
Definition ref_d (ladj zero : bool) (w z : Z) : cstr :=
  let sgn := if z <? 0 then ["-"] else [] in
  let ds := print_dec (Z.abs z) in
  let gap := w - Z.of_nat (length sgn + length ds) in
  if ladj then sgn ++ ds ++ fill " " gap
  else if zero then sgn ++ fill "0" gap ++ ds
  else fill " " gap ++ sgn ++ ds.

Lemma kvprintf_plain radix t rest stop args out stores :
  plain t ->
  kvprintf_loop radix (t ++ rest) None stop args out stores = kvprintf_loop radix rest None stop args (out ++ t) stores.
Proof.
  intros H. revert out. induction H as [|c t Hc Ht IH]; intros out; [by rewrite app_nil_r|].
  cbn [app kvprintf_loop]. destruct (Ascii.eqb_spec c "%"); [done|]. cbn [andb]. rewrite IH, <- app_assoc. done.
Qed.

Definition conv_state (ladj zero : bool) (w : option Z) : fspec :=
  set_num (set_padc (set_ladjust fspec0 ladj) (if zero then "0" else " ")) w.

(** Reading a width. *)
Lemma read_digits ds radix rest s seen stop args out stores n :
  Forall (fun c => isdigit c = true) ds -> f_num s = Some n -> 0 <= n ->
  (forall k, fold_left (fun a c => a * 10 + digit_val c) (take k ds) n < 2 ^ 31) ->
  exists seen', kvprintf_loop radix (ds ++ rest) (Some (s, seen)) stop args out stores =
    kvprintf_loop radix rest (Some (set_num s (Some (fold_left (fun a c => a * 10 + digit_val c) ds n)), seen')) stop args out stores.
Proof.
  intros Hd. revert s seen n. induction Hd as [|c ds Hc Hds IH]; intros s seen n Hs Hn Hlt.
  { exists seen. cbn. rewrite <- Hs. by destruct s. }
  cbn [app kvprintf_loop fold_left]. rewrite Hc, Hs.
  assert (0 <= digit_val c) as Hv.
  { unfold isdigit, between in Hc. apply andb_prop in Hc as [Hc _]. unfold digit_val. lia. }
  assert (n * 10 + digit_val c < 2 ^ 31) as H1 by exact (Hlt 1%nat).
  rewrite (wraps_small 32) by (change (2 ^ (32 - 1)) with (2 ^ 31); lia).
  destruct (IH (set_num s (Some (n * 10 + digit_val c))) (seen ++ [c]) (n * 10 + digit_val c)) as (seen' & E); [done|lia| |].
  { intros k. exact (Hlt (S k)). }
  exists seen'. rewrite E. by destruct s.
Qed.

Lemma fold_dec_mono ds n :
  Forall (fun c => isdigit c = true) ds -> 0 <= n -> n <= fold_left (fun a c => a * 10 + digit_val c) ds n.
Proof.
  intros H. revert n. induction H as [|c ds Hc Hds IH]; intros n Hn; cbn [fold_left]; [lia|].
  assert (0 <= digit_val c) as Hv.
  { unfold isdigit, between in Hc. apply andb_prop in Hc as [Hc _]. unfold digit_val. lia. }
  specialize (IH (n * 10 + digit_val c) ltac:(lia)). lia.
Qed.

(** Every prefix of a number that fits an int fits. *)
Lemma fold_dec_prefix ds n k :
  Forall (fun c => isdigit c = true) ds -> 0 <= n ->
  fold_left (fun a c => a * 10 + digit_val c) (take k ds) n <= fold_left (fun a c => a * 10 + digit_val c) ds n.
Proof.
  intros H Hn. rewrite <- (take_drop k ds) at 2. rewrite fold_left_app. apply fold_dec_mono.
  - by apply Forall_drop.
  - transitivity n; [done|]. apply fold_dec_mono; [by apply Forall_take|done].
Qed.

(** The first digit of a positive number. *)
Lemma print_dec_head w : 0 < w < 10 ^ 20 ->
  exists d ds, print_dec w = d :: ds /\ In d (lit "123456789").
Proof.
  unfold print_dec. rewrite digits_dec. intros Hw.
  assert (forall k n, 0 < n < 10 ^ Z.of_nat k -> exists d ds, digits k 10 n = d :: ds /\ In d (lit "123456789")) as H.
  { clear. intros k. induction k as [|k IH]; intros n Hn; [cbn in Hn; lia|]. cbn [digits].
    rewrite Nat2Z.inj_succ, Z.pow_succ_r in Hn by lia. destruct (Z.ltb_spec n 10).
    - exists (dig n), []. rewrite Z.mod_small by lia. split; [done|].
      assert (Forall (fun d => In (dig d) (lit "123456789")) (seqZ 1 9)) as Hall by (vm_compute; repeat (constructor; auto 20)).
      rewrite Forall_forall in Hall. apply Hall, elem_of_seqZ. lia.
    - destruct (IH (n / 10)) as (d & ds & -> & Hd).
      { split; [apply Z.div_str_pos; lia|apply Z.div_lt_upper_bound; lia]. }
      exists d, (ds ++ [dig (n mod 10)]). done. }
  apply (H 20%nat). exact Hw.
Qed.

Lemma convert_digit radix s d args :
  In d (lit "123456789") -> convert radix s d args = Done (Reswitch (set_num s (Some (digit_val d))) args).
Proof. intros H. cbn in H. repeat destruct H as [<-|H]; try done. Qed.

Lemma lit_digit d : In d (lit "123456789") -> isdigit d = true /\ 0 <= digit_val d.
Proof. intros H. cbn in H. repeat destruct H as [<-|H]; try done. Qed.

(** The width. *)
Lemma read_width radix w rest s seen stop args out stores :
  0 < w < 2 ^ 31 -> f_num s = None ->
  exists seen', kvprintf_loop radix (print_dec w ++ rest) (Some (s, seen)) stop args out stores =
    kvprintf_loop radix rest (Some (set_num s (Some w), seen')) stop args out stores.
Proof.
  intros Hw Hs. destruct (print_dec_spec w) as (Hd & _ & Hv); [lia|].
  destruct (print_dec_head w) as (d & ds & E & Hin); [lia|]. rewrite E in *.
  apply Forall_cons in Hd as [Hd Hds]. destruct (lit_digit d Hin) as [_ Hd0].
  unfold dec_value in Hv. cbn [fold_left] in Hv. rewrite Z.mul_0_l, Z.add_0_l in Hv.
  cbn [app kvprintf_loop]. rewrite Hd, Hs. unfold end_num. rewrite Hs, convert_digit by done. cbn [mbind outcome_bind].
  destruct (read_digits ds radix rest (set_num s (Some (digit_val d))) (seen ++ [d]) stop args out stores (digit_val d))
    as (seen' & ->); [done|done|done| |].
  { intros k. pose proof (fold_dec_prefix ds (digit_val d) k Hds Hd0). lia. }
  exists seen'. rewrite Hv. by destruct s.
Qed.

Lemma print_dec_length n : 0 <= n < 10 ^ 20 -> 0 < Z.of_nat (length (print_dec n)) <= 20.
Proof.
  intros H. destruct (print_dec_spec n H) as (_ & Hne & _). split; [destruct (print_dec n); cbn; [done|lia]|].
  unfold print_dec. assert (forall k m, (length (print_dec_fuel k m) <= k)%nat) as Hl.
  { clear. induction k as [|k IH]; intros m; [done|]. cbn [print_dec_fuel]. rewrite length_app. cbn [length].
    destruct (m <? 10); [cbn; lia|]. specialize (IH (m / 10)). lia. }
  specialize (Hl 20%nat n). lia.
Qed.

(** The number of a conversion without '#'. *)
Lemma number_d ladj zero w l z :
  0 <= w < 2 ^ 31 -> - 2 ^ 63 <= z < 2 ^ 63 ->
  number (set_size (set_sign (set_width (conv_state ladj zero None) w) true) l false false false false false false)
    (u64 z) 10 false = Done (ref_d ladj zero w z).
Proof.
  intros Hw Hz. unfold number, ref_d. cbn [f_sign set_size set_sign f_sharp f_ladjust f_padc f_width f_dwidth conv_state set_num set_padc set_ladjust set_width fspec0 andb].
  assert (Hs : s64 (u64 z) = z).
  { unfold wraps, wrapu. rewrite Zplus_mod_idemp_l. change (64 - 1) with 63. rewrite Z.mod_small; [lia|].
    change (2 ^ 64) with (2 ^ 63 + 2 ^ 63). lia. }
  rewrite Hs.
  assert (Hnum : (if z <? 0 then u64 (- z) else u64 z) = Z.abs z).
  { change (2 ^ 63) with 9223372036854775808 in Hz. destruct (Z.ltb_spec z 0); rewrite wrapu_small; lia. }
  rewrite Hnum, ksprintn_dec by (change (2 ^ 64) with (2 * 2 ^ 63); lia). cbn [mbind outcome_bind].
  pose proof (print_dec_length (Z.abs z) ltac:(lia)) as Hn.
  set (ds := print_dec (Z.abs z)) in *. set (n := Z.of_nat (length ds)) in *.
  set (sgn := if z <? 0 then ["-"] else []).
  assert (Hsg : b2z (z <? 0) = Z.of_nat (length sgn) /\ (length sgn <= 1)%nat) by (unfold sgn; destruct (z <? 0); cbn; lia).
  destruct Hsg as [Hsg Hsg1]. rewrite Hsg, Z.add_0_l, Nat2Z.inj_add. fold n.
  assert (H31 : forall x, - 2 ^ 31 <= x < 2 ^ 31 -> s32 x = x) by (intros x Hx; by apply wraps_small).
  assert (H0 : forall c x, x <= 0 -> fill c x = []) by (intros c x Hx; unfold fill; by rewrite Z2Nat.nonpos by done).
  destruct ladj; cbn [negb andb].
  - rewrite !H31 by lia. rewrite (H0 "0") by lia. cbn [app]. rewrite Z.max_r by lia. by rewrite Z.sub_add_distr.
  - destruct zero; cbn [Ascii.eqb].
    + change (Ascii.eqb "0" "0") with true. cbn iota. rewrite (H31 (w - Z.of_nat (length sgn))) by lia. rewrite !H31 by lia. rewrite (H0 " ") by lia.
      rewrite app_nil_r. by rewrite Z.sub_add_distr.
    + change (Ascii.eqb " " "0") with false. cbn iota. rewrite !H31 by lia. rewrite (H0 "0") by lia.
      rewrite app_nil_r, Z.max_r by lia. done.
Qed.

(** The state when the conversion character is reached. *)
Lemma read_flags radix ladj zero w long rest args out stores :
  0 <= w < 2 ^ 31 ->
  exists seen s', end_num s' = set_size (set_width (conv_state ladj zero None) w) long false false false false false false /\
    kvprintf_loop radix (conv_d ladj zero w long ++ rest) None false args out stores =
    kvprintf_loop radix ("d" :: rest) (Some (s', seen)) false args out stores.
Proof.
  intros Hw. unfold conv_d.
  assert (Hfl : forall rest', exists seen, kvprintf_loop radix
      (("%" :: (if ladj then ["-"] else []) ++ (if zero then ["0"] else [])) ++ rest') None false args out stores =
      kvprintf_loop radix rest' (Some (conv_state ladj zero None, seen)) false args out stores).
  { intros rest'. destruct ladj, zero; eexists; reflexivity. }
  assert (Hl : forall s seen, f_num s = None \/ f_num s = Some w -> exists seen' s',
      end_num s' = set_size (end_num s) (if long then negb (f_l s) else f_l s) (if long then f_q s || f_l s else f_q s) (f_h s) (f_c s) (f_j s) (f_t s) (f_z s) /\
      kvprintf_loop radix (((if long then ["l"] else []) ++ ["d"]) ++ rest) (Some (s, seen)) false args out stores =
      kvprintf_loop radix ("d" :: rest) (Some (s', seen')) false args out stores).
  { intros s seen Hs. destruct long; [|exists seen, s; split; [by destruct s as [? ? ? ? ? ? [] ? ? ? ? ? ? ? []]|done]].
    eexists _, _. split; [|cbn; reflexivity]. by destruct s as [? ? ? ? ? ? [] ? ? ? ? ? ? ? []]. }
  destruct (Z.eqb_spec w 0) as [->|Hne].
  - destruct (Hfl (((if long then ["l"] else []) ++ ["d"]) ++ rest)) as (seen & E).
    destruct (Hl (conv_state ladj zero None) seen) as (seen' & s' & Hs' & E'); [by left|].
    exists seen', s'. split; [rewrite Hs'; by destruct long, ladj, zero|].
    rewrite <- E', <- E. f_equal. cbn [app]. by rewrite <- !app_assoc.
  - destruct (Hfl (print_dec w ++ ((if long then ["l"] else []) ++ ["d"]) ++ rest)) as (seen & E).
    destruct (read_width radix w (((if long then ["l"] else []) ++ ["d"]) ++ rest) (conv_state ladj zero None) seen false args out stores)
      as (seen2 & E2); [lia|done|].
    destruct (Hl (set_num (conv_state ladj zero None) (Some w)) seen2) as (seen' & s' & Hs' & E'); [by right|].
    exists seen', s'. split; [rewrite Hs'; by destruct long, ladj, zero|].
    rewrite <- E', <- E2, <- E. f_equal. cbn [app]. by rewrite <- !app_assoc.
Qed.

Lemma kvprintf_conv_d radix ladj zero w (long : bool) rest z args out stores :
  0 <= w < 2 ^ 31 -> (if long then - 2 ^ 63 <= z < 2 ^ 63 else - 2 ^ 31 <= z < 2 ^ 31) ->
  kvprintf_loop radix (conv_d ladj zero w long ++ rest) None false (VNum z :: args) out stores =
  kvprintf_loop radix rest None false args (out ++ ref_d ladj zero w z) stores.
Proof.
  intros Hw Hz. destruct (read_flags radix ladj zero w long rest (VNum z :: args) out stores Hw) as (seen & s & Hs & ->).
  cbn [kvprintf_loop]. change (isdigit "d") with false. cbn iota. rewrite Hs.
  cbn [convert]. unfold out_number. cbn [va_num mbind outcome_bind].
  assert (fetch_sign (set_sign (set_size (set_width (conv_state ladj zero None) w) long false false false false false false) true) z = u64 z) as ->.
  { unfold fetch_sign. cbn. destruct long; rewrite wraps_small; done. }
  change (set_sign (set_size (set_width (conv_state ladj zero None) w) long false false false false false false) true)
    with (set_size (set_sign (set_width (conv_state ladj zero None) w) true) long false false false false false false).
  rewrite number_d; [done|done|]. destruct long; [done|]. lia.
Qed.

Lemma kvprintf_dec t1 t2 ladj zero w (long : bool) z :
  plain t1 -> plain t2 -> 0 <= w < 2 ^ 31 ->
  (if long then - 2 ^ 63 <= z < 2 ^ 63 else - 2 ^ 31 <= z < 2 ^ 31) ->
  kvprintf (Some (t1 ++ conv_d ladj zero w long ++ t2)) 10 [VNum z] =
    Done (t1 ++ ref_d ladj zero w z ++ t2, [], s32 (Z.of_nat (length (t1 ++ ref_d ladj zero w z ++ t2)))).
Proof.
  intros H1 H2 Hw Hz. unfold kvprintf. cbn [default from_option id].
  change ((10 <? 2) || (10 >? 36)) with false. cbn iota.
  rewrite kvprintf_plain, kvprintf_conv_d by done.
  pose proof (kvprintf_plain 10 t2 [] false [] (([] ++ t1) ++ ref_d ladj zero w z) [] H2) as E.
  rewrite app_nil_r in E. rewrite E. cbn [kvprintf_loop mbind outcome_bind app]. by rewrite <- !app_assoc.
Qed.

(** %[-][0][width]d and %[-][0][width]ld print every int and long as the
    reference formatter does: the sign, the decimal digits, and blanks behind,
    zeros between, or blanks in front up to the width; the text around the
    conversion is copied, and the return value is the length of the output. *)
Theorem kvprintf_decimal t1 t2 ladj zero w (long : bool) z :
  plain t1 -> plain t2 -> 0 <= w < 2 ^ 31 ->
  (if long then - 2 ^ 63 <= z < 2 ^ 63 else - 2 ^ 31 <= z < 2 ^ 31) ->
  kvprintf (Some (t1 ++ conv_d ladj zero w long ++ t2)) 10 [VNum z] =
    Done (t1 ++ ref_d ladj zero w z ++ t2, [], s32 (Z.of_nat (length (t1 ++ ref_d ladj zero w z ++ t2)))).
Proof. apply kvprintf_dec. Qed.

Lemma kvprintf_decimal_witness :
  kvprintf (Some (lit "port " ++ conv_d false true 5 false ++ lit " up")) 10 [VNum (-80)]
  = Done (lit "port -0080 up", [], 13).
Proof.
  rewrite (kvprintf_decimal (lit "port ") (lit " up") false true 5 false (-80)).
  - reflexivity.
  - repeat constructor; discriminate.
  - repeat constructor; discriminate.
  - lia.
  - lia.
Defined.
