(* ===== verification/Kenv.v ===== *)
(** The kernel environment of src/lib/ff_kern_environment.c over the host's
    getenv and setenv (src/lib/ff_host_interface.c).

    The host's environment is a function from names to values; strtoq is the
    host's strtoll with base 0 (src/lib/Makefile does not build the one of
    libkern). *)
From stdpp Require Import base list strings.
From Stdlib Require Import ZArith Lia Ascii.
From S2P Require Import Prelude CStr Printf.

Local Open Scope char_scope.
Local Open Scope Z_scope.

Definition env : Type := cstr -> option cstr.

(** setenv(name, value, 1): a name that is empty or holds '=' is refused. *)
Definition ff_setenv (e : env) (name value : cstr) : Z * env :=
  if match name with [] => true | _ => existsb (Ascii.eqb "=") name end then (-1, e)
  else (0, fun n => if streq n name then Some value else e n).

Definition ff_getenv (e : env) (name : cstr) : option cstr := e name.

Definition kern_getenv (e : env) (name : cstr) : option cstr := ff_getenv e name.
Definition kern_setenv (e : env) (name value : cstr) : Z * env := ff_setenv e name value.

Definition testenv (e : env) (name : cstr) : Z :=
  b2z match kern_getenv e name with Some _ => true | None => false end.

(** strlcpy(data, tmp, size): the string left in [data]; [None]: not set. *)
Definition getenv_string (e : env) (name : cstr) (size : Z) : option cstr :=
  match kern_getenv e name with
  | Some tmp => Some (take (Z.to_nat (size - 1)) tmp)
  | None => None
  end.

(** ** strtoll with base 0 *)

Definition xdigit_val (c : ascii) : Z :=
  if isdigit c then code c - 48 else code (tolower c) - 87.

Definition is_base (b : Z) (c : ascii) : bool := isxdigit c && (xdigit_val c <? b).

Definition base_value (b : Z) (ds : cstr) : Z := fold_left (fun a c => a * b + xdigit_val c) ds 0.

(** The base that a number's prefix selects and the digits behind it. *)
Definition base_of (s : cstr) : Z * cstr :=
  match s with
  | "0" :: x :: c :: r =>
      if (Ascii.eqb x "x" || Ascii.eqb x "X") && isxdigit c then (16, c :: r) else (8, s)
  | "0" :: _ => (8, s)
  | _ => (10, s)
  end.

Definition strtoq (s : cstr) : Z * cstr :=
  let s1 := skip_while isspace s in
  let '(neg, s2) :=
    match s1 with
    | "-" :: r => (true, r)
    | "+" :: r => (false, r)
    | _ => (false, s1)
    end in
  let '(b, s3) := base_of s2 in
  match take_while (is_base b) s3 with
  | [] => (0, s)
  | ds => (clamp LONG_MIN LONG_MAX (if neg then - base_value b ds else base_value b ds),
           skip_while (is_base b) s3)
  end.

(** The factor of a suffix, multiplied step by step. *)
Definition kilo (iv : Z) : Z := s64 (iv * 1024).

Definition getenv_quad (e : env) (name : cstr) : option Z :=
  match kern_getenv e name with
  | None => None
  | Some value =>
      let '(iv, vtp) := strtoq value in
      if streq vtp value || (match vtp with _ :: _ :: _ => true | _ => false end) then None
      else match vtp with
      | [] => Some iv
      | c :: _ =>
          match c with
          | "t" | "T" => Some (kilo (kilo (kilo (kilo iv))))
          | "g" | "G" => Some (kilo (kilo (kilo iv)))
          | "m" | "M" => Some (kilo (kilo iv))
          | "k" | "K" => Some (kilo iv)
          | _ => None
          end
      end
  end.

Definition getenv_int (e : env) (name : cstr) : option Z := s32 <$> getenv_quad e name.
Definition getenv_uint (e : env) (name : cstr) : option Z := u32 <$> getenv_quad e name.
Definition getenv_long (e : env) (name : cstr) : option Z := s64 <$> getenv_quad e name.
Definition getenv_ulong (e : env) (name : cstr) : option Z := u64 <$> getenv_quad e name.

(** A tunable keeps its value when its variable is not set. *)
Definition tunable_int_init (e : env) (path : cstr) (var : Z) : Z := default var (getenv_int e path).
Definition tunable_long_init (e : env) (path : cstr) (var : Z) : Z := default var (getenv_long e path).
Definition tunable_ulong_init (e : env) (path : cstr) (var : Z) : Z := default var (getenv_ulong e path).
Definition tunable_quad_init (e : env) (path : cstr) (var : Z) : Z := default var (getenv_quad e path).
Definition tunable_str_init (e : env) (path : cstr) (size : Z) (var : cstr) : cstr :=
  default var (getenv_string e path size).

Example getenv_ex :
  let e := snd (ff_setenv (fun _ => None) (lit "kern.maxfiles") (lit " 0x10k")) in
  (getenv_quad e (lit "kern.maxfiles"), getenv_quad e (lit "kern.hz")) = (Some 16384, None).
Proof. vm_compute. reflexivity. Qed.

(** * Numbers and suffixes *)

(** The suffixes and the power of 1024 they stand for. *)
Definition suffixes : list (cstr * Z) :=
  [([], 0); (lit "k", 1); (lit "K", 1); (lit "m", 2); (lit "M", 2); (lit "g", 3); (lit "G", 3); (lit "t", 4); (lit "T", 4)].

Lemma kilo_mul a k : 0 <= k -> kilo (s64 (a * 1024 ^ k)) = s64 (a * 1024 ^ (k + 1)).
Proof.
  intros Hk. unfold kilo, wraps. rewrite Z.pow_add_r, Z.pow_1_r by lia. f_equal.
  set (x := a * 1024 ^ k). replace (a * (1024 ^ k * 1024)) with (x * 1024) by (unfold x; lia).
  pose proof (Z.div_mod (x + 2 ^ (64 - 1)) (2 ^ 64) ltac:(done)) as Hd.
  set (q := (x + 2 ^ (64 - 1)) / 2 ^ 64) in *. set (r := (x + 2 ^ (64 - 1)) mod 2 ^ 64) in *.
  replace ((r - 2 ^ (64 - 1)) * 1024 + 2 ^ (64 - 1)) with (x * 1024 + 2 ^ (64 - 1) + (- (q * 1024)) * 2 ^ 64) by lia.
  by rewrite Z.mod_add by done.
Qed.

Lemma digits_base ds :
  Forall (fun c => isdigit c = true) ds ->
  Forall (fun c => is_base 10 c = true) ds /\ base_value 10 ds = dec_value ds.
Proof.
  intros H. split.
  - eapply Forall_impl; [exact H|]. intros c Hc. unfold is_base, isxdigit, xdigit_val. rewrite Hc. cbn.
    unfold isdigit, between in Hc. apply andb_prop in Hc as [H1 H2]. lia.
  - unfold base_value, dec_value. generalize 0. induction H as [|c ds Hc _ IH]; intros z; [done|]. cbn [fold_left].
    rewrite IH. unfold xdigit_val, digit_val. by rewrite Hc.
Qed.

Lemma suffix_ok sfx k : In (sfx, k) suffixes ->
  plain sfx /\ 0 <= k /\ match sfx with [] => True | c :: r => r = [] /\ is_base 10 c = false /\ isdigit c = false /\ is_base 8 c = false end.
Proof.
  intros H. cbn in H. repeat destruct H as [[= <- <-]|H]; try done;
    (split; [repeat constructor; discriminate|split; [lia|]]; try done).
Qed.

Lemma base_of_nonzero d r : In d (lit "123456789") -> base_of (d :: r) = (10, d :: r).
Proof. intros H. cbn in H. repeat destruct H as [<-|H]; try done. Qed.

Lemma lit_sign d r : In d (lit "123456789") \/ d = "0" ->
  skip_while isspace (d :: r) = d :: r /\
  match d :: r with "-" :: r => (true, r) | "+" :: r => (false, r) | _ => (false, d :: r) end = (false, d :: r).
Proof. intros [H|H]; cbn in H; [repeat destruct H as [<-|H]; try done|]; subst; done. Qed.

(** The digits and the suffix of a number, after the sign. *)
Lemma scan_print n sfx k :
  0 <= n < 10 ^ 20 -> In (sfx, k) suffixes ->
  exists b d ds, print_dec n = d :: ds /\ (In d (lit "123456789") \/ d = "0") /\
    base_of (print_dec n ++ sfx) = (b, print_dec n ++ sfx) /\
    take_while (is_base b) (print_dec n ++ sfx) = print_dec n /\
    skip_while (is_base b) (print_dec n ++ sfx) = sfx /\ base_value b (print_dec n) = n.
Proof.
  intros Hn Hs. destruct (suffix_ok sfx k Hs) as (_ & _ & Hsfx). assert (n = 0 \/ 0 < n) as [->|Hpos] by lia.
  - exists 8, "0", []. change (print_dec 0) with ["0"]. destruct sfx as [|c r]; [by split_and!; auto|].
    destruct Hsfx as (-> & _ & _ & H8). split_and!; auto; cbn [app take_while skip_while]; change (is_base 8 "0") with true;
      cbn iota; by rewrite H8.
  - destruct (print_dec_head n) as (d & ds & E & Hd); [lia|]. destruct (print_dec_spec n Hn) as (Hds & _ & Hv).
    destruct (digits_base _ Hds) as [Hb Hbv]. exists 10, d, ds. split; [done|]. split; [by left|].
    split; [rewrite E; cbn [app]; by apply base_of_nonzero|].
    rewrite take_while_app_all, skip_while_app_all by done. rewrite Hbv, Hv.
    destruct sfx as [|c r]; [by rewrite app_nil_r|]. destruct Hsfx as (-> & Hc & _ & _). cbn. by rewrite Hc, app_nil_r.
Qed.

Lemma strtoq_print z sfx k :
  - 2 ^ 63 <= z < 2 ^ 63 -> In (sfx, k) suffixes ->
  strtoq ((if z <? 0 then ["-"] else []) ++ print_dec (Z.abs z) ++ sfx) = (z, sfx).
Proof.
  intros Hz Hs. destruct (scan_print (Z.abs z) sfx k) as (b & d & ds & E & Hd & Hbo & Ht & Hsk & Hv); [lia|done|].
  assert (Hcl : clamp LONG_MIN LONG_MAX z = z) by (unfold clamp, LONG_MIN, LONG_MAX; lia).
  destruct (lit_sign d (ds ++ sfx) Hd) as [Hsp Hsg]. unfold strtoq.
  destruct (Z.ltb_spec z 0).
  - cbn [app]. change (skip_while isspace ("-" :: print_dec (Z.abs z) ++ sfx)) with ("-" :: print_dec (Z.abs z) ++ sfx).
    cbn iota. rewrite Hbo, Ht, Hsk. rewrite E in Hv |- *. rewrite Hv. replace (- Z.abs z) with z by lia. by rewrite Hcl.
  - cbn [app]. assert (skip_while isspace (print_dec (Z.abs z) ++ sfx) = print_dec (Z.abs z) ++ sfx) as -> by (by rewrite E).
    assert (match print_dec (Z.abs z) ++ sfx with "-" :: r => (true, r) | "+" :: r => (false, r) | _ => (false, print_dec (Z.abs z) ++ sfx) end
      = (false, print_dec (Z.abs z) ++ sfx)) as -> by (by rewrite E).
    rewrite Hbo, Ht, Hsk. rewrite E in Hv |- *. rewrite Hv. replace (Z.abs z) with z by lia. by rewrite Hcl.
Qed.

Lemma getenv_quad_print e name z sfx k :
  - 2 ^ 63 <= z < 2 ^ 63 -> In (sfx, k) suffixes ->
  e name = Some ((if z <? 0 then ["-"] else []) ++ print_dec (Z.abs z) ++ sfx) ->
  getenv_quad e name = Some (s64 (z * 1024 ^ k)).
Proof.
  intros Hz Hs He. unfold getenv_quad, kern_getenv, ff_getenv. rewrite He, (strtoq_print z sfx k) by done.
  destruct (suffix_ok sfx k Hs) as (_ & _ & Hsfx).
  assert (streq sfx ((if z <? 0 then ["-"] else []) ++ print_dec (Z.abs z) ++ sfx) = false) as ->.
  { unfold streq. apply bool_decide_eq_false. intros E. apply (f_equal length) in E. rewrite !length_app in E.
    pose proof (print_dec_length (Z.abs z) ltac:(lia)). lia. }
  assert (Hz1 : z = s64 (z * 1024 ^ 0)) by (rewrite Z.pow_0_r, Z.mul_1_r; symmetry; by apply wraps_small).
  cbn in Hs. repeat destruct Hs as [[= <- <-]|Hs]; try done; cbn [orb lit String.list_ascii_of_string].
  1: by f_equal.
  all: rewrite Hz1 at 1; by rewrite !kilo_mul by lia.
Qed.

(** A number that is printed with %ld and a unit suffix, put into the
    environment and read back as a tunable is the number times the unit
    (modulo 2^64), for every long and every suffix; the plain number is read
    back unchanged as an int and as a long. *)
Theorem tunable_roundtrip e name z sfx k :
  fst (ff_setenv e name []) = 0 -> - 2 ^ 63 <= z < 2 ^ 63 -> In (sfx, k) suffixes ->
  exists v ret, kvprintf (Some (conv_d false false 0 true ++ sfx)) 10 [VNum z] = Done (v, [], ret) /\
    let e' := snd (kern_setenv e name v) in
    getenv_quad e' name = Some (s64 (z * 1024 ^ k)) /\
    (k = 0 -> tunable_long_init e' name 0 = z /\ (- 2 ^ 31 <= z < 2 ^ 31 -> getenv_int e' name = Some z)) /\
    (forall n, n <> name -> getenv_quad e' n = getenv_quad e n).
Proof.
  intros Hset Hz Hs. destruct (suffix_ok sfx k Hs) as (Hp & Hk & _).
  set (v := (if z <? 0 then ["-"] else []) ++ print_dec (Z.abs z) ++ sfx).
  exists v, (s32 (Z.of_nat (length v))). split.
  { pose proof (print_dec_length (Z.abs z) ltac:(lia)).
    assert (Hv : ref_d false false 0 z ++ sfx = v).
    { unfold ref_d, v. unfold fill. rewrite Z2Nat.nonpos by lia. cbn [replicate app]. by rewrite <- app_assoc. }
    rewrite <- Hv. apply (kvprintf_dec [] sfx false false 0 true z); [constructor|done|lia|done]. }
  cbv zeta. unfold kern_setenv, ff_setenv in *.
  destruct (match name with [] => true | _ => _ end); [done|]. cbn [snd].
  set (e' := fun n => if streq n name then Some v else e n).
  assert (Hq : getenv_quad e' name = Some (s64 (z * 1024 ^ k))).
  { apply (getenv_quad_print e' name z sfx k Hz Hs). unfold e', streq. by rewrite bool_decide_true. }
  split; [done|]. split.
  - intros ->. rewrite Z.pow_0_r, Z.mul_1_r, (wraps_small 64 z) in Hq by done.
    unfold tunable_long_init, getenv_long, getenv_int. rewrite Hq. cbn. split; [by apply wraps_small|].
    intros Hi. f_equal. by apply wraps_small.
  - intros n Hn. unfold getenv_quad, kern_getenv, ff_getenv, e', streq. by rewrite bool_decide_false.
Qed.

Lemma tunable_roundtrip_witness :
  exists v ret, kvprintf (Some (conv_d false false 0 true ++ lit "k")) 10 [VNum (-5)] = Done (v, [], ret) /\
    getenv_quad (snd (kern_setenv (fun _ => None) (lit "kern.ipc.nmbclusters") v)) (lit "kern.ipc.nmbclusters") = Some (-5120).
Proof.
  destruct (tunable_roundtrip (fun _ => None) (lit "kern.ipc.nmbclusters") (-5) (lit "k") 1) as (v & ret & E & Hq & _).
  - reflexivity.
  - lia.
  - simpl. auto.
  - exists v, ret. split; [exact E|exact Hq].
Defined.
