(* ===== verification/Uio.v ===== *)
(** Scatter/gather copies and hash table sizes: src/lib/ff_kern_subr.c, with
    copyin and copyout of src/lib/ff_glue.c.

    Kernel and user buffers are in one byte store (F-Stack has one address
    space).  [uio_iov] is the rest of the vector from the pointer uio_iov on;
    going past its end is [Fault].  [copyinuio] is given the vector that copyin
    reads. *)
From stdpp Require Import base list.
From Stdlib Require Import ZArith Lia.
From S2P Require Import Prelude Memory.

Local Open Scope Z_scope.

Inductive uio_seg := UIO_USERSPACE | UIO_SYSSPACE | UIO_NOCOPY.
Inductive uio_rw := UIO_READ | UIO_WRITE.

Definition UIO_MAXIOV : Z := 1024.
Definition EINVAL : Z := 22.
Definition ENOMEM : Z := 12.

(** struct iovec. *)
Record iovec := Iov { iov_base : Z; iov_len : Z }.

Record uio := Uio {
  uio_iov : list iovec;
  uio_iovcnt : Z;
  uio_offset : Z;
  uio_resid : Z;
  uio_segflg : uio_seg;
  uio_rwf : uio_rw
}.

Definition copyin (mem : list Z) (uaddr kaddr len : Z) : outcome (list Z) := bcopy mem uaddr kaddr len.
Definition copyout (mem : list Z) (kaddr uaddr len : Z) : outcome (list Z) := bcopy mem kaddr uaddr len.

(** The copy of one round of [uiomove]. *)
Definition uiocopy (mem : list Z) (u : uio) (cp base cnt : Z) : outcome (list Z) :=
  match uio_segflg u with
  | UIO_USERSPACE =>
      match uio_rwf u with
      | UIO_READ => copyout mem cp base cnt
      | UIO_WRITE => copyin mem base cp cnt
      end
  | UIO_SYSSPACE =>
      match uio_rwf u with
      | UIO_READ => bcopy mem cp base cnt
      | UIO_WRITE => bcopy mem base cp cnt
      end
  | UIO_NOCOPY => Done mem
  end.

(** [while (n > 0 && uio->uio_resid)]. *)
Fixpoint uiomove_loop (fuel : nat) (mem : list Z) (cp n : Z) (u : uio) : outcome (list Z * uio) :=
  if (n >? 0) && negb (uio_resid u =? 0) then
    match fuel with
    | O => Loop
    | S fuel' =>
        match uio_iov u with
        | [] => Fault
        | iov :: rest =>
            let cnt := u32 (iov_len iov) in
            if cnt =? 0 then
              uiomove_loop fuel' mem cp n
                (Uio rest (s32 (uio_iovcnt u - 1)) (uio_offset u) (uio_resid u) (uio_segflg u) (uio_rwf u))
            else
              let cnt := if cnt >? n then n else cnt in
              mem1 ← uiocopy mem u cp (iov_base iov) cnt;
              uiomove_loop fuel' mem1 (cp + cnt) (n - cnt)
                (Uio (Iov (iov_base iov + cnt) (iov_len iov - cnt) :: rest) (uio_iovcnt u)
                     (s64 (uio_offset u + cnt)) (s64 (uio_resid u - cnt)) (uio_segflg u) (uio_rwf u))
        end
    end
  else Done (mem, u).

(** The store, the uio and the error, which is always 0. *)
Definition uiomove (mem : list Z) (cp n : Z) (u : uio) : outcome (list Z * uio * Z) :=
  x ← uiomove_loop (2 * length (uio_iov u) + 1) mem cp n u;
  let '(mem1, u1) := x in Done (mem1, u1, 0).

(** The sum of the lengths; [None]: the overflow that gives EINVAL. *)
Fixpoint sum_iov (iov : list iovec) (resid : Z) : option Z :=
  match iov with
  | [] => Some resid
  | v :: rest => if iov_len v >? INT_MAX - resid then None else sum_iov rest (resid + iov_len v)
  end.

(** uio_rw is left to the caller: [rw] is what the new memory holds.
    [allocated]: whether malloc returned memory. *)
Definition copyinuio (allocated : bool) (iovp : list iovec) (iovcnt : Z) (rw : uio_rw) : Z * option uio :=
  if iovcnt >? UIO_MAXIOV then (EINVAL, None)
  else if negb allocated then (ENOMEM, None)
  else match sum_iov iovp 0 with
       | None => (EINVAL, None)
       | Some resid => (0, Some (Uio iovp iovcnt (-1) resid UIO_USERSPACE rw))
       end.

(** [for (hashsize = 1; hashsize <= elements; hashsize <<= 1)] *)
Fixpoint hashsize_loop (fuel : nat) (elements hashsize : Z) : outcome Z :=
  if hashsize <=? elements then
    match fuel with
    | O => Loop
    | S fuel' => hashsize_loop fuel' elements (s64 (Z.shiftl hashsize 1))
    end
  else Done hashsize.

(** The number of buckets; the panic is [Fault].  *hashmask is one less. *)
Definition hashinit_flags (elements : Z) : outcome Z :=
  if elements <=? 0 then Fault
  else h ← hashsize_loop 32 elements 1; Done (Z.shiftr h 1).

Example uiomove_ex :
  uiomove [1; 2; 3; 4; 0; 0; 0; 0; 0; 0] 0 4 (Uio [Iov 5 1; Iov 0 0; Iov 7 2] 3 0 3 UIO_SYSSPACE UIO_READ)
  = Done ([1; 2; 3; 4; 0; 1; 0; 2; 3; 0], Uio [Iov 9 0] 1 3 0 UIO_SYSSPACE UIO_READ, 0).
Proof. vm_compute. reflexivity. Qed.

(** * Regions of the store *)

Definition read (mem : list Z) (p n : Z) : list Z := take (Z.to_nat n) (drop (Z.to_nat p) mem).

Definition in_mem (mem : list Z) (p n : Z) : Prop := 0 <= p /\ 0 <= n /\ p + n <= Z.of_nat (length mem).
Definition disj (p n q m : Z) : Prop := p + n <= q \/ q + m <= p.

Lemma read_length mem p n : in_mem mem p n -> Z.of_nat (length (read mem p n)) = n.
Proof. intros (? & ? & ?). unfold read. rewrite length_take, length_drop. lia. Qed.

Lemma read_lookup mem p n i :
  0 <= p -> (read mem p n) !! i = if decide (Z.of_nat i < n) then at_ mem (p + Z.of_nat i) else None.
Proof.
  intros Hp. unfold read, at_. destruct (decide (Z.of_nat i < n)).
  - rewrite lookup_take_lt, lookup_drop by lia. f_equal. lia.
  - by rewrite lookup_take_ge by lia.
Qed.

Lemma read_ext mem mem' p q n :
  0 <= p -> 0 <= q -> (forall i, 0 <= i < n -> at_ mem' (q + i) = at_ mem (p + i)) -> read mem' q n = read mem p n.
Proof.
  intros Hp Hq H. apply list_eq. intros i. rewrite !read_lookup by done.
  destruct (decide _); [|done]. apply H. lia.
Qed.

Lemma read_app mem p a b : 0 <= p -> 0 <= a -> 0 <= b -> read mem p (a + b) = read mem p a ++ read mem (p + a) b.
Proof.
  intros Hp Ha Hb. unfold read. rewrite !Z2Nat.inj_add by lia. rewrite <- drop_drop.
  generalize (drop (Z.to_nat p) mem). intros l. symmetry. apply take_take_drop.
Qed.

(** A copy between disjoint regions. *)
Lemma bcopy_read mem src dst n :
  in_mem mem src n -> in_mem mem dst n ->
  exists mem', bcopy mem src dst n = Done mem' /\ length mem' = length mem /\
    read mem' dst n = read mem src n /\
    (forall p m, 0 <= p -> disj p m dst n -> read mem' p m = read mem p m).
Proof.
  intros (H1 & H2 & H3) (H4 & _ & H5). destruct (bcopy_ok mem src dst n) as (mem' & E & Hl & Hin & Hout); [lia..|].
  exists mem'. split; [done|]. split; [done|]. split; [by apply read_ext|].
  intros p m Hp Hd. apply read_ext; [done..|]. intros i Hi. apply Hout; [lia|]. destruct Hd; lia.
Qed.

(** ** Vectors *)

Definition gather (mem : list Z) (iov : list iovec) : list Z :=
  concat ((fun v => read mem (iov_base v) (iov_len v)) <$> iov).

Definition total (iov : list iovec) : Z := foldr (fun v a => iov_len v + a) 0 iov.

Definition apart (p n : Z) (iov : list iovec) : Prop := Forall (fun v => disj p n (iov_base v) (iov_len v)) iov.

Definition vec_ok (mem : list Z) (iov : list iovec) : Prop :=
  Forall (fun v => in_mem mem (iov_base v) (iov_len v) /\ iov_len v < 2 ^ 31) iov.

(** No two segments overlap. *)
Fixpoint separate (iov : list iovec) : Prop :=
  match iov with
  | [] => True
  | v :: rest => apart (iov_base v) (iov_len v) rest /\ separate rest
  end.

Lemma gather_cons mem v rest : gather mem (v :: rest) = read mem (iov_base v) (iov_len v) ++ gather mem rest.
Proof. done. Qed.

Lemma gather_length mem iov : vec_ok mem iov -> Z.of_nat (length (gather mem iov)) = total iov.
Proof.
  induction 1 as [|v rest [Hv _] _ IH]; [done|]. rewrite gather_cons, length_app, Nat2Z.inj_add, IH, read_length by done. done.
Qed.

Lemma total_nonneg mem iov : vec_ok mem iov -> 0 <= total iov.
Proof. induction 1 as [|v rest [(_ & ? & _) _] _ IH]; [done|]. change (total (v :: rest)) with (iov_len v + total rest). lia. Qed.

Lemma vec_ok_length mem mem' iov : length mem' = length mem -> vec_ok mem iov -> vec_ok mem' iov.
Proof. intros E H. eapply Forall_impl; [exact H|]. intros v. unfold in_mem. by rewrite E. Qed.

(** A vector away from the region that a copy changed. *)
Lemma gather_same mem mem' p n iov :
  (forall q m, 0 <= q -> disj q m p n -> read mem' q m = read mem q m) ->
  vec_ok mem iov -> apart p n iov -> gather mem' iov = gather mem iov.
Proof.
  intros H Hv Ha. unfold gather. f_equal. induction Hv as [|v rest [(Hb & _) _] _ IH]; [done|].
  apply Forall_cons in Ha as [Hd Ha]. cbn. rewrite IH by done. f_equal. apply H; [done|]. destruct Hd; [right|left]; done.
Qed.

Lemma total_cons v rest : total (v :: rest) = iov_len v + total rest.
Proof. done. Qed.

(** The state after [k] bytes have been moved. *)
Definition moved (u : uio) (k : Z) (iov' : list iovec) (cnt' : Z) : uio :=
  Uio iov' cnt' (uio_offset u + k) (uio_resid u - k) (uio_segflg u) (uio_rwf u).

Definition offset_ok (u : uio) : Prop := - 2 ^ 62 <= uio_offset u <= 2 ^ 62 /\ 0 <= uio_resid u < 2 ^ 31.

Lemma uiocopy_read mem u cp base cnt :
  uio_rwf u = UIO_READ -> uio_segflg u <> UIO_NOCOPY -> uiocopy mem u cp base cnt = bcopy mem cp base cnt.
Proof. unfold uiocopy. intros ->. by destruct (uio_segflg u). Qed.

Lemma uiocopy_write mem u cp base cnt :
  uio_rwf u = UIO_WRITE -> uio_segflg u <> UIO_NOCOPY -> uiocopy mem u cp base cnt = bcopy mem base cp cnt.
Proof. unfold uiocopy. intros ->. by destruct (uio_segflg u). Qed.

(** Nothing to do. *)
Lemma uiomove_stop fuel mem cp n u : n <= 0 \/ uio_resid u = 0 -> uiomove_loop fuel mem cp n u = Done (mem, u).
Proof.
  intros H. assert ((n >? 0) && negb (uio_resid u =? 0) = false) as E by (destruct H; lia).
  by destruct fuel; cbn [uiomove_loop]; rewrite E.
Qed.

(** One round on a segment that is not empty. *)
Lemma uiomove_round fuel mem cp n u v rest mem1 :
  0 < n -> 0 < uio_resid u -> uio_iov u = v :: rest -> 0 < iov_len v < 2 ^ 31 ->
  uiocopy mem u cp (iov_base v) (Z.min (iov_len v) n) = Done mem1 ->
  uiomove_loop (S fuel) mem cp n u =
  uiomove_loop fuel mem1 (cp + Z.min (iov_len v) n) (n - Z.min (iov_len v) n)
    (Uio (Iov (iov_base v + Z.min (iov_len v) n) (iov_len v - Z.min (iov_len v) n) :: rest) (uio_iovcnt u)
       (s64 (uio_offset u + Z.min (iov_len v) n)) (s64 (uio_resid u - Z.min (iov_len v) n)) (uio_segflg u) (uio_rwf u)).
Proof.
  intros Hn Hr E Hl Hc. cbn [uiomove_loop]. assert ((n >? 0) && negb (uio_resid u =? 0) = true) as -> by lia.
  rewrite E. assert (u32 (iov_len v) = iov_len v) as ->.
  { apply wrapu_small. split; [lia|]. transitivity (2 ^ 31); [lia|done]. }
  assert (iov_len v =? 0 = false) as -> by lia.
  assert ((if iov_len v >? n then n else iov_len v) = Z.min (iov_len v) n) as -> by (destruct (_ >? _) eqn:?; lia).
  rewrite Hc. done.
Qed.

(** An empty segment is passed over. *)
Lemma uiomove_skip fuel mem cp n u v rest :
  0 < n -> 0 < uio_resid u -> uio_iov u = v :: rest -> iov_len v = 0 ->
  uiomove_loop (S fuel) mem cp n u =
  uiomove_loop fuel mem cp n (Uio rest (s32 (uio_iovcnt u - 1)) (uio_offset u) (uio_resid u) (uio_segflg u) (uio_rwf u)).
Proof.
  intros Hn Hr E Hl. cbn [uiomove_loop]. assert ((n >? 0) && negb (uio_resid u =? 0) = true) as -> by lia.
  rewrite E, Hl. done.
Qed.

Lemma s64_small x : - 2 ^ 63 <= x < 2 ^ 63 -> s64 x = x.
Proof. intros H. apply wraps_small; [done|]. exact H. Qed.

(** What a read of the device does: [k] bytes from [cp] go to the front of the
    vector. *)
Definition scattered (mem mem' : list Z) (cp k : Z) (iov iov' : list iovec) : Prop :=
  length mem' = length mem /\
  gather mem' iov = read mem cp k ++ drop (Z.to_nat k) (gather mem iov) /\
  gather mem' iov' = drop (Z.to_nat k) (gather mem iov) /\ vec_ok mem' iov' /\ total iov' = total iov - k /\
  (forall p m, 0 <= p -> apart p m iov -> read mem' p m = read mem p m).

Lemma scattered_none mem cp iov k :
  vec_ok mem iov -> k = 0 -> scattered mem mem cp k iov iov.
Proof. intros H ->. repeat split; try done. lia. Qed.

(** The rest of a segment of which [n] bytes are used. *)
Lemma rest_ok mem v rest n :
  0 <= n <= iov_len v -> vec_ok mem (v :: rest) -> vec_ok mem (Iov (iov_base v + n) (iov_len v - n) :: rest).
Proof.
  intros Hn [[(? & ? & ?) ?] Hr]%Forall_cons. apply Forall_cons. split; [|done]. unfold in_mem. cbn. lia.
Qed.

Lemma disj_sym p n q m : disj p n q m -> disj q m p n.
Proof. unfold disj. lia. Qed.

Lemma apart_shrink p n p' n' iov :
  p <= p' -> p' + n' <= p + n -> apart p n iov -> apart p' n' iov.
Proof. intros H1 H2 H. eapply Forall_impl; [exact H|]. unfold disj. intros v. lia. Qed.

(** The last segment used, of which [n] bytes are filled. *)
Lemma scatter_part mem mem' v rest cp n :
  0 <= n <= iov_len v -> vec_ok mem (v :: rest) -> separate (v :: rest) -> in_mem mem cp n ->
  length mem' = length mem -> read mem' (iov_base v) n = read mem cp n ->
  (forall p m, 0 <= p -> disj p m (iov_base v) n -> read mem' p m = read mem p m) ->
  scattered mem mem' cp n (v :: rest) (Iov (iov_base v + n) (iov_len v - n) :: rest).
Proof.
  intros Hn Hv [Ha Hs] Hc Hl Hr Hf. pose proof Hv as [[(Hb & Hlv & Hm) Hlt] Hv']%Forall_cons.
  assert (gather mem' rest = gather mem rest) as Eg.
  { apply (gather_same _ _ (iov_base v) n); [done..|]. eapply apart_shrink; [| |exact Ha]; lia. }
  assert (read mem' (iov_base v + n) (iov_len v - n) = read mem (iov_base v + n) (iov_len v - n)) as Et
    by (apply Hf; [lia|right; lia]).
  assert (drop (Z.to_nat n) (gather mem (v :: rest)) = read mem (iov_base v + n) (iov_len v - n) ++ gather mem rest) as Ed.
  { rewrite gather_cons. replace (iov_len v) with (n + (iov_len v - n)) at 1 by lia.
    rewrite read_app, <- app_assoc by lia. apply drop_app_length'. pose proof (read_length mem (iov_base v) n).
    unfold in_mem in *. lia. }
  rewrite <- Eg in Ed. unfold scattered. split; [done|]. split.
  { rewrite Ed, gather_cons. replace (iov_len v) with (n + (iov_len v - n)) at 1 by lia.
    rewrite read_app by lia. by rewrite Hr, Et, <- app_assoc. }
  split; [by rewrite Ed, gather_cons, <- Et|]. split.
  { apply rest_ok; [done|]. by eapply vec_ok_length. }
  split; [rewrite !total_cons; cbn; lia|].
  intros p m Hp [Hd _]%Forall_cons. apply Hf; [done|]. unfold disj in *. lia.
Qed.

(** A segment that is filled, and the rest of the copy. *)
Lemma scatter_cons mem mem1 mem' v rest cp k iov' :
  vec_ok mem (v :: rest) -> separate (v :: rest) -> 0 <= k ->
  in_mem mem cp (iov_len v + k) -> apart cp (iov_len v + k) (v :: rest) ->
  length mem1 = length mem -> read mem1 (iov_base v) (iov_len v) = read mem cp (iov_len v) ->
  (forall p m, 0 <= p -> disj p m (iov_base v) (iov_len v) -> read mem1 p m = read mem p m) ->
  scattered mem1 mem' (cp + iov_len v) k rest iov' ->
  scattered mem mem' cp (iov_len v + k) (v :: rest) iov'.
Proof.
  intros Hv [Ha Hs] Hk (Hc & Hc' & Hc'') [Hd Hap]%Forall_cons Hl Hr Hf (Hl' & Hg & Hg' & Hv' & Ht & Hfr).
  pose proof Hv as [[(Hb & Hlv & Hm) Hlt] Hvr]%Forall_cons.
  assert (gather mem1 rest = gather mem rest) as Eg by (by apply (gather_same _ _ (iov_base v) (iov_len v))).
  assert (drop (Z.to_nat (iov_len v + k)) (gather mem (v :: rest)) = drop (Z.to_nat k) (gather mem rest)) as Ed.
  { rewrite gather_cons, Z2Nat.inj_add, <- drop_drop by lia. f_equal. apply drop_app_length'.
    pose proof (read_length mem (iov_base v) (iov_len v)). unfold in_mem in *. lia. }
  unfold scattered. rewrite Ed, <- Eg. split; [congruence|]. split.
  { rewrite gather_cons, Hg. rewrite (Hfr (iov_base v)), Hr, read_app, <- app_assoc by (done || lia). do 2 f_equal.
    apply Hf; [lia|]. unfold disj in *. lia. }
  split; [done|]. split; [done|]. split; [rewrite total_cons; lia|].
  intros p m Hp [Hd' Hap']%Forall_cons. rewrite Hfr by done. by apply Hf.
Qed.

(** A write to the device: the first [k] bytes of the vector go to [cp]. *)
Definition gathered (mem mem' : list Z) (cp k : Z) (iov iov' : list iovec) : Prop :=
  length mem' = length mem /\
  read mem' cp k = take (Z.to_nat k) (gather mem iov) /\
  gather mem' iov' = drop (Z.to_nat k) (gather mem iov) /\ vec_ok mem' iov' /\ total iov' = total iov - k /\
  (forall p m, 0 <= p -> disj p m cp k -> read mem' p m = read mem p m).

Lemma gathered_none mem cp iov k : vec_ok mem iov -> k = 0 -> gathered mem mem cp k iov iov.
Proof. intros H ->. repeat split; try done. lia. Qed.

Lemma gather_part mem mem' v rest cp n :
  0 <= n <= iov_len v -> vec_ok mem (v :: rest) -> in_mem mem cp n -> apart cp n (v :: rest) ->
  length mem' = length mem -> read mem' cp n = read mem (iov_base v) n ->
  (forall p m, 0 <= p -> disj p m cp n -> read mem' p m = read mem p m) ->
  gathered mem mem' cp n (v :: rest) (Iov (iov_base v + n) (iov_len v - n) :: rest).
Proof.
  intros Hn Hv Hc [Hd Hap]%Forall_cons Hl Hr Hf. pose proof Hv as [[(Hb & Hlv & Hm) Hlt] Hv']%Forall_cons.
  assert (gather mem' rest = gather mem rest) as Eg by (by apply (gather_same _ _ cp n)).
  assert (read mem' (iov_base v + n) (iov_len v - n) = read mem (iov_base v + n) (iov_len v - n)) as Et
    by (apply Hf; [lia|unfold disj in *; lia]).
  assert (gather mem (v :: rest) = read mem (iov_base v) n ++ read mem (iov_base v + n) (iov_len v - n) ++ gather mem rest) as Ed.
  { rewrite gather_cons. replace (iov_len v) with (n + (iov_len v - n)) at 1 by lia. by rewrite read_app, <- app_assoc by lia. }
  assert (length (read mem (iov_base v) n) = Z.to_nat n) as Hn'.
  { pose proof (read_length mem (iov_base v) n). unfold in_mem in *. lia. }
  unfold gathered. rewrite Ed. split; [done|]. split; [by rewrite take_app_length'|].
  split; [rewrite drop_app_length', gather_cons by done; cbn; by rewrite Et, Eg|].
  split; [apply rest_ok; [done|]; by eapply vec_ok_length|]. split; [rewrite !total_cons; cbn; lia|]. exact Hf.
Qed.

Lemma gather_more mem mem1 mem' v rest cp k iov' :
  vec_ok mem (v :: rest) -> 0 <= k -> in_mem mem cp (iov_len v + k) -> apart cp (iov_len v + k) (v :: rest) ->
  length mem1 = length mem -> read mem1 cp (iov_len v) = read mem (iov_base v) (iov_len v) ->
  (forall p m, 0 <= p -> disj p m cp (iov_len v) -> read mem1 p m = read mem p m) ->
  gathered mem1 mem' (cp + iov_len v) k rest iov' ->
  gathered mem mem' cp (iov_len v + k) (v :: rest) iov'.
Proof.
  intros Hv Hk (Hc & Hc' & Hc'') [Hd Hap]%Forall_cons Hl Hr Hf (Hl' & Hg & Hg' & Hv' & Ht & Hfr).
  pose proof Hv as [[(Hb & Hlv & Hm) Hlt] Hvr]%Forall_cons.
  assert (gather mem1 rest = gather mem rest) as Eg.
  { apply (gather_same _ _ cp (iov_len v)); [done..|]. eapply apart_shrink; [| |exact Hap]; lia. }
  assert (length (read mem (iov_base v) (iov_len v)) = Z.to_nat (iov_len v)) as Hn'.
  { pose proof (read_length mem (iov_base v) (iov_len v)). unfold in_mem in *. lia. }
  unfold gathered. rewrite gather_cons, Z2Nat.inj_add by lia.
  split; [congruence|]. split.
  { rewrite read_app, Hg, Eg by lia. rewrite (Hfr cp) by (done || (unfold disj; lia)). rewrite Hr.
    by rewrite <- Hn', take_app_add. }
  split; [rewrite Hg', Eg, <- drop_drop; by rewrite drop_app_length'|].
  split; [done|]. split; [rewrite total_cons; lia|].
  intros p m Hp Hd'. rewrite Hfr by (done || (unfold disj in *; lia)). apply Hf; [done|]. unfold disj in *; lia.
Qed.

(** * The loop, in both directions *)

(** What a call needs: the room that is left is what the vector has, and the
    kernel's buffer and the segments are in the store and do not meet. *)
Record call_ok (mem : list Z) (cp n : Z) (u : uio) : Prop := {
  co_n : 0 <= n;
  co_resid : uio_resid u = total (uio_iov u);
  co_small : total (uio_iov u) < 2 ^ 31;
  co_offset : - 2 ^ 62 <= uio_offset u /\ uio_offset u + total (uio_iov u) < 2 ^ 62;
  co_seg : uio_segflg u <> UIO_NOCOPY;
  co_vec : vec_ok mem (uio_iov u);
  co_buf : in_mem mem cp (Z.min n (total (uio_iov u)));
  co_apart : apart cp (Z.min n (total (uio_iov u))) (uio_iov u);
  co_sep : uio_rwf u = UIO_READ -> separate (uio_iov u)
}.

(** What a call that moves [k] bytes has done. *)
Definition transfer (mem mem' : list Z) (cp k : Z) (u u' : uio) : Prop :=
  uio_resid u' = uio_resid u - k /\ uio_offset u' = uio_offset u + k /\
  uio_segflg u' = uio_segflg u /\ uio_rwf u' = uio_rwf u /\
  match uio_rwf u with
  | UIO_READ => scattered mem mem' cp k (uio_iov u) (uio_iov u')
  | UIO_WRITE => gathered mem mem' cp k (uio_iov u) (uio_iov u')
  end.

Lemma transfer_none mem cp u : vec_ok mem (uio_iov u) -> transfer mem mem cp 0 u u.
Proof.
  intros H. unfold transfer. split; [lia|]. split; [lia|]. split; [done|]. split; [done|].
  destruct (uio_rwf u); [by apply scattered_none|by apply gathered_none].
Qed.

(** The copy of one round, in either direction. *)
Definition copied (mem mem1 : list Z) (rw : uio_rw) (cp base c : Z) : Prop :=
  length mem1 = length mem /\
  match rw with
  | UIO_READ => read mem1 base c = read mem cp c /\ (forall p m, 0 <= p -> disj p m base c -> read mem1 p m = read mem p m)
  | UIO_WRITE => read mem1 cp c = read mem base c /\ (forall p m, 0 <= p -> disj p m cp c -> read mem1 p m = read mem p m)
  end.

Lemma uiocopy_copied mem u cp base c :
  uio_segflg u <> UIO_NOCOPY -> in_mem mem cp c -> in_mem mem base c ->
  exists mem1, uiocopy mem u cp base c = Done mem1 /\ copied mem mem1 (uio_rwf u) cp base c.
Proof.
  intros Hs H1 H2. unfold copied. destruct (uio_rwf u) eqn:Erw.
  - rewrite uiocopy_read by done. destruct (bcopy_read mem cp base c) as (mem1 & ? & ? & ? & ?); eauto 10.
  - rewrite uiocopy_write by done. destruct (bcopy_read mem base cp c) as (mem1 & ? & ? & ? & ?); eauto 10.
Qed.

(** The last segment, and a segment before others, as transfers. *)
Lemma transfer_part mem mem1 cp n u v rest cnt :
  uio_iov u = v :: rest -> call_ok mem cp n u -> n <= iov_len v -> copied mem mem1 (uio_rwf u) cp (iov_base v) n ->
  transfer mem mem1 cp n u
    (Uio (Iov (iov_base v + n) (iov_len v - n) :: rest) cnt (uio_offset u + n) (uio_resid u - n) (uio_segflg u) (uio_rwf u)).
Proof.
  intros Ei [Hn Hr Hs Ho Hg Hv Hb Ha Hsep] Hle (Hl & Hc). rewrite Ei in *.
  pose proof Hv as [_ Hv']%Forall_cons. pose proof (total_nonneg _ _ Hv').
  rewrite total_cons in Hb, Ha. rewrite Z.min_l in Hb, Ha by lia.
  unfold transfer. cbn. rewrite Ei. split; [done|]. split; [done|]. split; [done|]. split; [done|].
  destruct (uio_rwf u); destruct Hc as [Hc Hf].
  - apply scatter_part; [lia|done|by apply Hsep|done..].
  - apply gather_part; [lia|done..].
Qed.

Lemma transfer_cons mem mem1 mem' cp n u v rest k cnt u' :
  uio_iov u = v :: rest -> call_ok mem cp n u -> iov_len v + k = Z.min n (total (v :: rest)) -> 0 <= k ->
  copied mem mem1 (uio_rwf u) cp (iov_base v) (iov_len v) ->
  transfer mem1 mem' (cp + iov_len v) k
    (Uio rest cnt (uio_offset u + iov_len v) (uio_resid u - iov_len v) (uio_segflg u) (uio_rwf u)) u' ->
  transfer mem mem' cp (iov_len v + k) u u'.
Proof.
  intros Ei [Hn Hr Hs Ho Hg Hv Hb Ha Hsep] Hk Hk0 (Hl & Hc) (E1 & E2 & E3 & E4 & E5). rewrite Ei in *. cbn in E1, E2, E3, E4, E5.
  rewrite <- Hk in Hb, Ha.
  unfold transfer. rewrite Ei. split; [lia|]. split; [lia|]. split; [done|]. split; [done|].
  destruct (uio_rwf u); destruct Hc as [Hc Hf].
  - eapply scatter_cons; [done|by apply Hsep|done..].
  - eapply gather_more; done.
Qed.

Lemma call_ok_rest mem mem1 cp n u v rest cnt :
  uio_iov u = v :: rest -> call_ok mem cp n u -> iov_len v <= n -> length mem1 = length mem ->
  call_ok mem1 (cp + iov_len v) (n - iov_len v)
    (Uio rest cnt (uio_offset u + iov_len v) (uio_resid u - iov_len v) (uio_segflg u) (uio_rwf u)).
Proof.
  intros Ei [Hn Hr Hs Ho Hg Hv Hb Ha Hsep] Hle Hl. rewrite Ei in *.
  pose proof Hv as [[(Hvb & Hvl & _) _] Hv']%Forall_cons. pose proof (total_nonneg _ _ Hv').
  rewrite total_cons in Hr, Hs, Ho, Hb, Ha. apply Forall_cons in Ha as [_ Ha].
  constructor; cbn [uio_iov uio_offset uio_resid uio_segflg uio_rwf]; [lia|lia|lia|lia|done| | | |].
  - by eapply vec_ok_length.
  - unfold in_mem in *. rewrite Hl. lia.
  - eapply apart_shrink; [| |exact Ha]; lia.
  - intros E. by apply Hsep in E as [_ ?].
Qed.

Lemma call_ok_less mem cp n m u : call_ok mem cp n u -> 0 <= m <= n -> call_ok mem cp m u.
Proof.
  intros [Hn Hr Hs Ho Hg Hv Hb Ha Hsep] Hm. pose proof (total_nonneg _ _ Hv). constructor; [lia|done..| | |done].
  - unfold in_mem in *. lia.
  - eapply apart_shrink; [| |exact Ha]; lia.
Qed.

(** The rounds after a segment that was filled, or was empty. *)
Lemma uiomove_next fuel mem1 cp n u rest cnt base off resid :
  let u1 := Uio (Iov base 0 :: rest) cnt off resid (uio_segflg u) (uio_rwf u) in
  0 < n -> 0 < resid ->
  uiomove_loop (S fuel) mem1 cp n u1 =
  uiomove_loop fuel mem1 cp n (Uio rest (s32 (cnt - 1)) off resid (uio_segflg u) (uio_rwf u)).
Proof. intros u1 Hn Hr. by rewrite (uiomove_skip _ _ _ _ _ (Iov base 0) rest) by done. Qed.

Lemma uiomove_loop_transfer iov : forall fuel mem cp n u,
  uio_iov u = iov -> call_ok mem cp n u -> (2 * length iov <= fuel)%nat ->
  exists mem' u', uiomove_loop fuel mem cp n u = Done (mem', u') /\
    transfer mem mem' cp (Z.min n (uio_resid u)) u u'.
Proof.
  induction iov as [|v rest IH]; intros fuel mem cp n u Ei Hok Hf;
    pose proof Hok as [Hn Hr Hs Ho Hg Hv Hb Ha Hsep]; rewrite Ei in *.
  { exists mem, u. rewrite uiomove_stop by (right; done). split; [done|].
    replace (Z.min n (uio_resid u)) with 0 by (cbn in Hr; lia). apply transfer_none. by rewrite Ei. }
  pose proof (total_nonneg _ _ Hv) as Ht. pose proof Hv as [[Hvm Hvl] Hv']%Forall_cons. pose proof Hvm as (Hvb & Hv0 & _).
  pose proof (total_nonneg _ _ Hv') as Ht'. pose proof (total_cons v rest) as Etot.
  destruct (decide (n = 0 \/ total (v :: rest) = 0)) as [Hz|Hz].
  { exists mem, u. rewrite uiomove_stop by (destruct Hz; lia). split; [done|].
    replace (Z.min n (uio_resid u)) with 0 by lia. apply transfer_none. by rewrite Ei. }
  cbn [length] in Hf. destruct fuel as [|[|fuel]]; [lia..|].
  destruct (decide (iov_len v = 0)) as [E0|E0].
  { rewrite (uiomove_skip _ _ _ _ _ v rest) by (done || lia).
    pose proof (call_ok_rest _ mem _ _ _ _ _ (s32 (uio_iovcnt u - 1)) Ei Hok ltac:(lia) eq_refl) as Hok'.
    rewrite E0, Z.add_0_r, (Z.sub_0_r n), (Z.sub_0_r (uio_resid u)), (Z.add_0_r (uio_offset u)) in Hok'.
    destruct (IH (S fuel) mem cp n (Uio rest _ _ _ _ _) eq_refl Hok' ltac:(lia)) as (mem' & u' & E & HT). exists mem', u'. split; [done|].
    replace (Z.min n (uio_resid u)) with (iov_len v + Z.min n (uio_resid u)) by lia.
    eapply (transfer_cons _ mem); [done|done|lia|lia| |by rewrite E0, !Z.add_0_r, Z.sub_0_r].
    split; [done|]. rewrite E0. by destruct (uio_rwf u). }
  destruct (uiocopy_copied mem u cp (iov_base v) (Z.min (iov_len v) n)) as (mem1 & Ec & Hc); [done| | |].
  { unfold in_mem in *. lia. } { unfold in_mem in *. lia. }
  rewrite (uiomove_round _ _ _ _ _ v rest mem1) by (done || lia). rewrite !s64_small.
  2: { split; [transitivity 0; [done|lia]|]. transitivity (2 ^ 31); [lia|done]. }
  2: { split; [transitivity (- 2 ^ 62); [done|lia]|]. transitivity (2 ^ 62); [lia|done]. }
  destruct (decide (n <= iov_len v)) as [Hle|Hle].
  { rewrite Z.min_r in Hc |- * by lia. rewrite uiomove_stop by lia. do 2 eexists. split; [done|].
    replace (Z.min n (uio_resid u)) with n by lia. by eapply transfer_part. }
  rewrite Z.min_l in Hc |- * by lia. destruct (decide (total rest = 0)) as [Er|Er].
  { rewrite uiomove_stop by (right; cbn; lia). do 2 eexists. split; [done|].
    replace (Z.min n (uio_resid u)) with (iov_len v) by lia.
    eapply transfer_part; [done|eapply call_ok_less; [done|lia]|lia|done]. }
  rewrite Z.sub_diag, uiomove_next by lia. pose proof Hc as [Hl _].
  destruct (IH fuel mem1 _ _ (Uio rest _ _ _ _ _) eq_refl (call_ok_rest _ mem1 _ _ _ _ _ (s32 (uio_iovcnt u - 1)) Ei Hok ltac:(lia) Hl) ltac:(lia))
    as (mem' & u' & E & HT).
  exists mem', u'. split; [done|]. cbn [uio_resid] in HT.
  replace (Z.min n (uio_resid u)) with (iov_len v + Z.min (n - iov_len v) (uio_resid u - iov_len v)) by lia.
  eapply transfer_cons; [done|done|lia|lia|done|exact HT].
Qed.

(** C33. uiomove moves exactly the smaller of the count asked for and the room
    that is left, whatever the segments (empty ones too): it returns 0, the
    residue and the offset move by that count, a read puts the bytes of the
    kernel's buffer at the front of the vector in order and a write takes them
    from there, the vector that is left denotes what was not used, and no other
    byte changes. *)
Theorem uiomove_exact mem cp n u :
  call_ok mem cp n u ->
  exists mem' u', uiomove mem cp n u = Done (mem', u', 0) /\ transfer mem mem' cp (Z.min n (uio_resid u)) u u'.
Proof.
  intros Hok. destruct (uiomove_loop_transfer _ (2 * length (uio_iov u) + 1) mem cp n u eq_refl Hok) as (mem' & u' & E & HT); [lia|].
  exists mem', u'. split; [|done]. unfold uiomove. by rewrite E.
Qed.

Lemma uiomove_exact_witness :
  let u := Uio [Iov 5 1; Iov 0 0; Iov 7 2] 3 0 3 UIO_SYSSPACE UIO_READ in
  exists mem' u', uiomove [1; 2; 3; 4; 0; 0; 0; 0; 0; 0] 0 2 u = Done (mem', u', 0) /\
    transfer [1; 2; 3; 4; 0; 0; 0; 0; 0; 0] mem' 0 2 u u'.
Proof.
  intros u. apply (uiomove_exact [1; 2; 3; 4; 0; 0; 0; 0; 0; 0] 0 2 u).
  constructor; try done; try (intros _); repeat constructor; cbn; unfold disj; lia.
Defined.

(** * Counts that are checked *)

(** The residue is the sum of the lengths, and no partial sum passes INT_MAX. *)
Lemma sum_iov_total iov r :
  Forall (fun v => 0 <= iov_len v) iov -> 0 <= r <= INT_MAX ->
  sum_iov iov r = if decide (r + total iov <= INT_MAX) then Some (r + total iov) else None.
Proof.
  intros H. revert r. induction H as [|v rest Hv Hr IH]; intros r Hb.
  { change (total []) with 0. cbn [sum_iov]. rewrite Z.add_0_r. destruct (decide _); [done|lia]. }
  assert (0 <= total rest) as Ht.
  { clear -Hr. induction Hr; [done|]. rewrite total_cons. lia. }
  cbn [sum_iov]. rewrite total_cons. destruct (_ >? _) eqn:E.
  - destruct (decide _); [lia|done].
  - by rewrite IH, Z.add_assoc by lia.
Qed.

(** The vectors a caller can pass are those whose lengths add up to at most
    INT_MAX, and then [uiomove] starts from a residue that is their sum. *)
Lemma copyinuio_resid iov rw :
  Forall (fun v => 0 <= iov_len v) iov ->
  copyinuio true iov (Z.of_nat (length iov)) rw =
  if decide (Z.of_nat (length iov) <= UIO_MAXIOV /\ total iov <= INT_MAX)
  then (0, Some (Uio iov (Z.of_nat (length iov)) (-1) (total iov) UIO_USERSPACE rw))
  else (EINVAL, None).
Proof.
  intros H. unfold copyinuio. rewrite sum_iov_total by (done || (unfold INT_MAX; lia)). cbn [negb].
  destruct (_ >? _) eqn:E; [destruct (decide _); [lia|done]|].
  repeat destruct (decide _); try done; lia.
Qed.

Lemma hashsize_loop_ok d : forall j fuel elements,
  0 < elements < 2 ^ 31 -> j = 31 - Z.of_nat d -> 0 <= j -> 2 ^ j <= 2 * elements -> (d < fuel)%nat ->
  exists k, 1 <= k <= 31 /\ hashsize_loop fuel elements (2 ^ j) = Done (2 ^ k) /\ 2 ^ (k - 1) <= elements < 2 ^ k.
Proof.
  induction d as [|d IH]; intros j fuel elements He Hj H0 Hp Hf; (destruct fuel as [|fuel]; [lia|]);
    cbn [hashsize_loop]; destruct (2 ^ j <=? elements) eqn:E.
  1: { replace j with 31 in E by lia. lia. }
  2: { assert (s64 (Z.shiftl (2 ^ j) 1) = 2 ^ (j + 1)) as ->.
       { rewrite Z.shiftl_mul_pow2, <- Z.pow_add_r by lia. apply s64_small.
         split; [transitivity 0; [done|apply Z.pow_nonneg; lia]|]. apply Z.pow_lt_mono_r; lia. }
       apply IH; [done|lia|lia| |lia]. rewrite Z.pow_add_r by lia. lia. }
  all: assert (j <> 0) by (intros ->; cbn in E; lia);
       assert (2 ^ j = 2 * 2 ^ (j - 1)) by (rewrite <- Z.pow_succ_r by lia; f_equal; lia);
       exists j; split; [lia|]; split; [done|lia].
Qed.

(** For every positive int, hashinit_flags finds a table size without
    looping or overflowing: the largest power of two that is not above the number
    of elements, so that the mask (one less) selects a bucket of the table. *)
Theorem hashinit_size elements :
  0 < elements < 2 ^ 31 ->
  exists k, 0 <= k <= 30 /\ hashinit_flags elements = Done (2 ^ k) /\ 2 ^ k <= elements < 2 ^ (k + 1) /\
    (forall h, 0 <= h -> 0 <= Z.land h (2 ^ k - 1) < 2 ^ k).
Proof.
  intros He. unfold hashinit_flags. assert (elements <=? 0 = false) as -> by lia.
  destruct (hashsize_loop_ok 31 0 32 elements He) as (k & Hk & E & Hb); [lia|lia|cbn; lia|lia|].
  change (2 ^ 0) with 1 in E. rewrite E. exists (k - 1). cbn [mbind outcome_bind]. split; [lia|]. split.
  { f_equal. rewrite Z.shiftr_div_pow2 by lia. replace k with (k - 1 + 1) at 1 by lia.
    rewrite Z.pow_add_r by lia. by rewrite Z.div_mul. }
  rewrite Z.sub_add. split; [done|]. intros h Hh. rewrite Z.sub_1_r, <- Z.ones_equiv, Z.land_ones by lia.
  apply Z.mod_pos_bound. lia.
Qed.

Lemma hashinit_size_witness :
  exists k, 0 <= k <= 30 /\ hashinit_flags 1000 = Done (2 ^ k) /\ 2 ^ k <= 1000 < 2 ^ (k + 1) /\
    (forall h, 0 <= h -> 0 <= Z.land h (2 ^ k - 1) < 2 ^ k).
Proof. apply (hashinit_size 1000). lia. Defined.
