(* ===== verification/Mbuf.v ===== *)
(** Chains of mbufs: src/freebsd/kern/uipc_mbuf.c and sys/mbuf.h, with the
    reference counts of kern/kern_mbuf.c.

    A chain (m_next) is the list of its mbufs; [m_id] is an mbuf's address and
    [s_used] the addresses that are allocated: freeing another one is [Fault].
    An mbuf without external storage has its bytes in [m_dat], the MLEN bytes
    behind the fixed fields, of which the packet header takes the first 56 when
    M_PKTHDR is set ([m_pkthdr]).  External storage (M_EXT) is shared: it is in
    [s_ext] under its address with its reference count.  [m_data] is the offset of
    the data in the storage.  In C the count of a cluster is a field of the mbuf
    that was allocated with it (EXT_FLAG_EMBREF), so that this mbuf stays
    allocated, although it is in no chain any more, until the last user of the
    cluster is freed.  Here a cluster has the address of that mbuf: the mbuf that
    holds the count of [e] is [ext_buf e], and the one with EXT_FLAG_EMBREF is that
    with [m_id = ext_buf e].  Of the packet header the length and the interface are
    modelled, of the flags M_EXT, M_PKTHDR and M_RDONLY, of the kinds of storage
    the clusters (EXT_PACKET).

    Uninitialised memory is [junk]; an allocation fails when [nmbufs] mbufs, the
    limit of the zone, are in use or the n-th answer [avail n] of the allocator
    says so. *)
From stdpp Require Import base list gmap.
From Stdlib Require Import ZArith Lia.
From S2P Require Import Prelude.

Local Open Scope Z_scope.

Definition MLEN : Z := 224.
Definition PKTHDR_SIZE : Z := 56.
Definition MHLEN : Z := 168.
Definition MINCLSIZE : Z := MHLEN + 1.
Definition MCLBYTES : Z := 2048.
Definition M_COPYALL : Z := 1000000000.

(** struct m_ext: the storage and its size. *)
Record ext := Ext { ext_buf : Z; ext_size : Z }.

(** struct pkthdr. *)
Record pkthdr := Pkthdr { ph_len : Z; ph_rcvif : Z }.

(** struct mbuf. *)
Record mbuf := Mb {
  m_id : Z;
  m_type : Z;
  m_data : Z;
  m_len : Z;
  m_rdonly : bool;
  m_pkthdr : option pkthdr;
  m_ext : option ext;
  m_dat : list Z
}.

Record store := Store {
  s_next : Z;
  s_used : gset Z;
  s_ext : gmap Z (list Z * Z)
}.

Definition set_len (m : mbuf) (n : Z) : mbuf :=
  Mb (m_id m) (m_type m) (m_data m) n (m_rdonly m) (m_pkthdr m) (m_ext m) (m_dat m).
Definition set_data (m : mbuf) (p : Z) : mbuf :=
  Mb (m_id m) (m_type m) p (m_len m) (m_rdonly m) (m_pkthdr m) (m_ext m) (m_dat m).
Definition set_pkthdr (m : mbuf) (h : option pkthdr) : mbuf :=
  Mb (m_id m) (m_type m) (m_data m) (m_len m) (m_rdonly m) h (m_ext m) (m_dat m).
Definition set_rdonly (m : mbuf) (r : bool) : mbuf :=
  Mb (m_id m) (m_type m) (m_data m) (m_len m) r (m_pkthdr m) (m_ext m) (m_dat m).
Definition set_ext (m : mbuf) (e : option ext) : mbuf :=
  Mb (m_id m) (m_type m) (m_data m) (m_len m) (m_rdonly m) (m_pkthdr m) e (m_dat m).
Definition set_dat (m : mbuf) (d : list Z) : mbuf :=
  Mb (m_id m) (m_type m) (m_data m) (m_len m) (m_rdonly m) (m_pkthdr m) (m_ext m) d.

(** [mp->m_pkthdr.len += d] and [= n] when M_PKTHDR is set. *)
Definition hdr_add (m : mbuf) (d : Z) : mbuf :=
  set_pkthdr m ((fun h => Pkthdr (s32 (ph_len h + d)) (ph_rcvif h)) <$> m_pkthdr m).
Definition hdr_set (m : mbuf) (n : Z) : mbuf :=
  set_pkthdr m ((fun h => Pkthdr n (ph_rcvif h)) <$> m_pkthdr m).
Definition on_head (f : mbuf -> mbuf) (c : list mbuf) : list mbuf :=
  match c with [] => [] | m :: t => f m :: t end.

(** min and max of u_ints. *)
Definition umin (a b : Z) : Z := Z.min (u32 a) (u32 b).
Definition umax (a b : Z) : Z := Z.max (u32 a) (u32 b).

(** The offset of M_START in the storage, and M_SIZE. *)
Definition M_START (m : mbuf) : Z :=
  match m_ext m, m_pkthdr m with
  | Some _, _ => 0
  | None, Some _ => PKTHDR_SIZE
  | None, None => 0
  end.

Definition M_SIZE (m : mbuf) : Z :=
  match m_ext m, m_pkthdr m with
  | Some e, _ => ext_size e
  | None, Some _ => MHLEN
  | None, None => MLEN
  end.

Definition m_align (m : mbuf) (len : Z) : mbuf :=
  set_data m (m_data m + Z.land (M_SIZE m - len) (Z.lnot 7)).

(** * Storage *)

Definition m_extrefcnt (s : store) (e : ext) : outcome Z :=
  match s_ext s !! ext_buf e with Some (_, c) => Done c | None => Fault end.

Definition M_WRITABLE (s : store) (m : mbuf) : outcome bool :=
  if m_rdonly m then Done false
  else match m_ext m with
       | None => Done true
       | Some e => c ← m_extrefcnt s e; Done (c =? 1)
       end.

Definition M_TRAILINGSPACE (s : store) (m : mbuf) : outcome Z :=
  w ← M_WRITABLE s m;
  Done (if (w : bool) then M_START m + M_SIZE m - (m_data m + m_len m) else 0).

Definition M_LEADINGSPACE (s : store) (m : mbuf) : outcome Z :=
  w ← M_WRITABLE s m;
  Done (if (w : bool) then m_data m - M_START m else 0).

(** The bytes of the storage. *)
Definition storage (s : store) (m : mbuf) : option (list Z) :=
  match m_ext m with
  | Some e => fst <$> s_ext s !! ext_buf e
  | None => Some (m_dat m)
  end.

(** Reading [n] bytes at [m_data + at]. *)
Definition mread (s : store) (m : mbuf) (at_ n : Z) : outcome (list Z) :=
  match storage s m with
  | Some st =>
      let p := m_data m + at_ in
      if (0 <=? p) && (0 <=? n) && (p + n <=? Z.of_nat (length st)) then Done (take (Z.to_nat n) (drop (Z.to_nat p) st))
      else Fault
  | None => Fault
  end.

Definition overwrite (st : list Z) (p : Z) (d : list Z) : list Z :=
  take (Z.to_nat p) st ++ d ++ drop (Z.to_nat p + length d) st.

(** Writing [d] at [m_data + at]; a write into the packet header is [Fault]. *)
Definition mwrite (s : store) (m : mbuf) (at_ : Z) (d : list Z) : outcome (store * mbuf) :=
  let p := m_data m + at_ in
  match m_ext m with
  | Some e =>
      match s_ext s !! ext_buf e with
      | Some (st, c) =>
          if (0 <=? p) && (p + Z.of_nat (length d) <=? Z.of_nat (length st))
          then Done (Store (s_next s) (s_used s) (<[ext_buf e := (overwrite st p d, c)]> (s_ext s)), m)
          else Fault
      | None => Fault
      end
  | None =>
      if (M_START m <=? p) && (p + Z.of_nat (length d) <=? MLEN)
      then Done (s, set_dat m (overwrite (m_dat m) p d)) else Fault
  end.

(** * Allocation and release *)

Section Mbuf.
Variable junk : Z -> Z -> Z.
Variable avail : Z -> bool.
Variable nmbufs : Z.
Variable max_protohdr : Z.

Definition uninit (i n : Z) : list Z := junk i <$> seqZ 0 n.

(** The allocator's answer, and the next one. *)
Definition can_alloc (s : store) : bool := avail (s_next s) && (Z.of_nat (size (s_used s)) <? nmbufs).
Definition bump (s : store) : store := Store (s_next s + 1) (s_used s) (s_ext s).

Definition m_get (s : store) (type : Z) : store * option mbuf :=
  let i := s_next s in
  if can_alloc s then
    (Store (i + 1) ({[i]} ∪ s_used s) (s_ext s), Some (Mb i type 0 0 false None None (uninit i MLEN)))
  else (bump s, None).

Definition m_gethdr (s : store) (type : Z) : store * option mbuf :=
  let i := s_next s in
  if can_alloc s then
    (Store (i + 1) ({[i]} ∪ s_used s) (s_ext s),
     Some (Mb i type PKTHDR_SIZE 0 false (Some (Pkthdr 0 0)) None (uninit i MLEN)))
  else (bump s, None).

(** An mbuf with a cluster. *)
Definition m_getcl (s : store) (type : Z) (hdr : bool) : store * option mbuf :=
  let i := s_next s in
  if can_alloc s then
    (Store (i + 1) ({[i]} ∪ s_used s) (<[i := (uninit i MCLBYTES, 1)]> (s_ext s)),
     Some (Mb i type 0 0 false (if hdr then Some (Pkthdr 0 0) else None) (Some (Ext i MCLBYTES)) (uninit i MLEN)))
  else (bump s, None).

Definition mb_dupcl (s : store) (n m : mbuf) : outcome (store * mbuf) :=
  match m_ext m with
  | None => Fault
  | Some e =>
      match s_ext s !! ext_buf e with
      | Some (st, c) =>
          Done (Store (s_next s) (s_used s) (<[ext_buf e := (st, u32 (c + 1))]> (s_ext s)),
                set_rdonly (set_ext n (Some e)) (m_rdonly n || m_rdonly m))
      | None => Fault
      end
  end.

(** The last user frees the cluster and the mbuf [mref] that holds its count; an
    mbuf that does not hold the count is freed at once. *)
Definition mb_free_ext (s : store) (m : mbuf) (e : ext) : outcome store :=
  let mref := ext_buf e in
  match s_ext s !! ext_buf e with
  | Some (st, c) =>
      let s1 :=
        if c =? 1 then Store (s_next s) (s_used s ∖ {[mref]}) (delete (ext_buf e) (s_ext s))
        else Store (s_next s) (s_used s) (<[ext_buf e := (st, u32 (c - 1))]> (s_ext s)) in
      Done (if m_id m =? mref then s1 else Store (s_next s1) (s_used s1 ∖ {[m_id m]}) (s_ext s1))
  | None => Fault
  end.

Definition m_free (s : store) (m : mbuf) : outcome store :=
  if decide (m_id m ∈ s_used s) then
    match m_ext m with
    | Some e => mb_free_ext s m e
    | None => Done (Store (s_next s) (s_used s ∖ {[m_id m]}) (s_ext s))
    end
  else Fault.

Fixpoint m_freem (s : store) (c : list mbuf) : outcome store :=
  match c with [] => Done s | m :: t => s1 ← m_free s m; m_freem s1 t end.

(** * Packet headers *)

(** [to] and [from] after the move. *)
Definition m_move_pkthdr (to from : mbuf) : mbuf * mbuf :=
  (set_rdonly (set_pkthdr (match m_ext to with None => set_data to PKTHDR_SIZE | Some _ => to end) (m_pkthdr from))
     (m_rdonly from),
   set_pkthdr from None).

(** The copy of the tags can fail. *)
Definition m_dup_pkthdr (s : store) (to from : mbuf) : store * bool * mbuf :=
  (bump s, avail (s_next s),
   set_rdonly (set_pkthdr (match m_ext to with None => set_data to PKTHDR_SIZE | Some _ => to end) (m_pkthdr from))
     (m_rdonly from)).

(** bzero of the packet header clears the first bytes of m_dat. *)
Definition m_demote_pkthdr (m : mbuf) : mbuf :=
  set_pkthdr (set_dat m (overwrite (m_dat m) 0 (replicate (Z.to_nat PKTHDR_SIZE) 0))) None.

Definition m_demote (c : list mbuf) (all : bool) : list mbuf :=
  let f m := match m_pkthdr m with Some _ => m_demote_pkthdr m | None => m end in
  if all then f <$> c else match c with [] => [] | m :: t => m :: (f <$> t) end.

Definition m_length (c : list mbuf) : Z := u32 (foldr (fun m a => m_len m + a) 0 c).
Definition m_fixhdr (c : list mbuf) : list mbuf := on_head (fun m => hdr_set m (s32 (m_length c))) c.

(** * Copies *)

(** [while (off > 0)]. *)
Fixpoint m_skip (c : list mbuf) (off : Z) : outcome (list mbuf * Z) :=
  if off >? 0 then
    match c with
    | [] => Fault
    | m :: t => if off <? m_len m then Done (c, off) else m_skip t (off - m_len m)
    end
  else Done (c, off).

Fixpoint copydata_loop (s : store) (c : list mbuf) (off len : Z) : outcome (list Z) :=
  if len >? 0 then
    match c with
    | [] => Fault
    | m :: t =>
        let count := umin (m_len m - off) len in
        d ← mread s m off count;
        r ← copydata_loop s t 0 (len - count);
        Done (d ++ r)
    end
  else Done [].

Definition m_copydata (s : store) (c : list mbuf) (off len : Z) : outcome (list Z) :=
  x ← m_skip c off; let '(c1, off1) := x in copydata_loop s c1 off1 len.

(** [f] is called with the bytes of each piece; it returns a code and its own
    state. *)
Fixpoint apply_loop {A} (f : A -> list Z -> Z * A) (s : store) (c : list mbuf) (off len : Z) (arg : A)
  : outcome (Z * A) :=
  if len >? 0 then
    match c with
    | [] => Fault
    | m :: t =>
        let count := umin (m_len m - off) len in
        d ← mread s m off count;
        let '(rval, arg1) := f arg d in
        if rval =? 0 then apply_loop f s t 0 (len - count) arg1 else Done (rval, arg1)
    end
  else Done (0, arg).

Definition m_apply {A} (f : A -> list Z -> Z * A) (s : store) (c : list mbuf) (off len : Z) (arg : A)
  : outcome (Z * A) :=
  x ← m_skip c off; let '(c1, off1) := x in apply_loop f s c1 off1 len arg.

(** The mbuf as its index in the chain; NULL is [None]. *)
Fixpoint m_getptr (c : list mbuf) (loc : Z) : outcome (option (nat * Z)) :=
  if loc >=? 0 then
    match c with
    | [] => Fault
    | m :: t =>
        if m_len m >? loc then Done (Some (O, loc))
        else
          let loc := loc - m_len m in
          match t with
          | [] => Done (if loc =? 0 then Some (O, m_len m) else None)
          | _ => r ← m_getptr t loc; Done (option_map (fun x => (S (fst x), snd x)) r)
          end
    end
  else Done None.

(** The data of an mbuf of the copy: shared external storage, or the bytes. *)
Definition copy_mbuf (s : store) (n m : mbuf) (off len : Z) : outcome (store * mbuf) :=
  match m_ext m with
  | Some _ => mb_dupcl s (set_len (set_data n (m_data m + off)) len) m
  | None => d ← mread s m off len; x ← mwrite s n 0 d; let '(s1, n1) := x in Done (s1, set_len n1 len)
  end.

(** The loop of [m_copym]: [top] is the copy so far. *)
Fixpoint copym_loop (s : store) (c : list mbuf) (off0 off len : Z) (copyhdr : bool) (top : list mbuf)
  : outcome (store * list mbuf) :=
  if len >? 0 then
    match c with
    | [] => Done (s, top)
    | m :: t =>
        match (if copyhdr then m_gethdr else m_get) s (m_type m) with
        | (s1, None) => s2 ← m_freem s1 top; Done (s2, [])
        | (s1, Some n) =>
            let '(s2, ok, n1) :=
              if copyhdr then
                let '(s', ok, n') := m_dup_pkthdr s1 n m in
                (s', ok, if len =? M_COPYALL then hdr_add n' (- off0) else hdr_set n' len)
              else (s1, true, n) in
            if (ok : bool) then
              let n_len := umin len (m_len m - off) in
              x ← copy_mbuf s2 n1 m off n_len;
              let '(s3, n2) := x in
              copym_loop s3 t off0 0 (if len =? M_COPYALL then len else len - n_len) false (top ++ [n2])
            else s3 ← m_freem s2 (top ++ [n1]); Done (s3, [])
        end
    end
  else Done (s, top).

(** The chain [] is NULL. *)
Definition m_copym (s : store) (c : list mbuf) (off0 len : Z) : outcome (store * list mbuf) :=
  match c with
  | [] => Fault
  | m :: _ =>
      let copyhdr := (off0 =? 0) && match m_pkthdr m with Some _ => true | None => false end in
      x ← m_skip c off0; let '(c1, off) := x in
      copym_loop s c1 off0 off len copyhdr []
  end.

(** The inner loop of [m_dup]: fills [n] up to [nsize] bytes; the rest of the
    source and the offset in it.  A source mbuf that is not used up leaves the
    new one full, which ends the loop. *)
Fixpoint dup_fill (s : store) (n : mbuf) (nsize : Z) (c : list mbuf) (moff : Z)
  : outcome (store * mbuf * list mbuf * Z) :=
  match c with
  | [] => Done (s, n, [], moff)
  | m :: t =>
      if m_len n <? nsize then
        let chunk := umin (nsize - m_len n) (m_len m - moff) in
        d ← mread s m moff chunk;
        x ← mwrite s n (m_len n) d;
        let '(s1, n1) := x in
        let n2 := set_len n1 (m_len n + chunk) in
        if moff + chunk =? m_len m then dup_fill s1 n2 nsize t 0
        else Done (s1, n2, c, moff + chunk)
      else Done (s, n, c, moff)
  end.

Fixpoint dup_loop (fuel : nat) (s : store) (c : list mbuf) (moff remain : Z) (top : list mbuf)
  : outcome (store * list mbuf) :=
  let first := match top with [] => true | _ => false end in
  if (remain >? 0) || first then
    match fuel, c with
    | O, _ => Loop
    | _, [] => Fault
    | S fuel', m :: _ =>
        let big := remain >=? MINCLSIZE in
        match (if big then m_getcl s (m_type m) false else m_get s (m_type m)) with
        | (s1, None) => s2 ← m_freem s1 top; Done (s2, [])
        | (s1, Some n) =>
            let '(s2, ok, n1) :=
              if first then let '(s', ok, n') := m_dup_pkthdr s1 n m in (s', ok, set_rdonly n' false)
              else (s1, true, n) in
            if (ok : bool) then
              let nsize := if big then MCLBYTES else if first then MHLEN else MLEN in
              x ← dup_fill s2 (set_len n1 0) nsize c moff;
              let '(s3, n2, c1, moff1) := x in
              dup_loop fuel' s3 c1 moff1 (remain - m_len n2) (top ++ [n2])
            else s3 ← m_free s2 n1; s4 ← m_freem s3 top; Done (s4, [])
        end
    end
  else Done (s, top).

(** The KASSERTs are not compiled in: a header length above the length of the
    chain makes the loop read the type of a NULL mbuf. *)
Definition m_dup (s : store) (c : list mbuf) : outcome (store * list mbuf) :=
  match c with
  | [] => Done (s, [])
  | m :: _ =>
      match m_pkthdr m with
      | None => Fault
      | Some h => dup_loop (S (Z.to_nat (ph_len h))) s c 0 (ph_len h) []
      end
  end.

(** * Joining and trimming *)

(** [while (n)] of [m_cat], with [m] the last mbuf of the first chain. *)
Fixpoint cat_loop (s : store) (m : mbuf) (n : list mbuf) : outcome (store * list mbuf) :=
  match n with
  | [] => Done (s, [m])
  | n0 :: t =>
      w ← M_WRITABLE s m;
      sp ← M_TRAILINGSPACE s m;
      if negb w || (sp <? m_len n0) then Done (s, m :: n)
      else
        d ← mread s n0 0 (m_len n0);
        x ← mwrite s m (m_len m) d;
        let '(s1, m1) := x in
        s2 ← m_free s1 n0;
        cat_loop s2 (set_len m1 (m_len m + m_len n0)) t
  end.

Fixpoint m_cat (s : store) (m n : list mbuf) : outcome (store * list mbuf) :=
  match m with
  | [] => Fault
  | [x] => cat_loop s x n
  | x :: t => r ← m_cat s t n; let '(s1, t1) := r in Done (s1, x :: t1)
  end.

Definition m_catpkt (s : store) (m n : list mbuf) : outcome (store * list mbuf) :=
  match n with
  | n0 :: _ =>
      match m_pkthdr n0 with
      | Some h => m_cat s (on_head (fun m0 => hdr_add m0 (ph_len h)) m) (m_demote n true)
      | None => Fault
      end
  | [] => Fault
  end.

(** Trim from the head: the chain and the length that is left. *)
Fixpoint adj_head (c : list mbuf) (len : Z) : list mbuf * Z :=
  if len >? 0 then
    match c with
    | [] => ([], len)
    | m :: t =>
        if m_len m <=? len then
          let '(t1, len1) := adj_head t (len - m_len m) in (set_len m 0 :: t1, len1)
        else (set_data (set_len m (m_len m - len)) (m_data m + len) :: t, 0)
    end
  else (c, len).

(** Truncation after [count] bytes: the chain and the mbufs to free. *)
Fixpoint adj_tail (c : list mbuf) (count : Z) : list mbuf * list mbuf :=
  match c with
  | [] => ([], [])
  | m :: t =>
      if m_len m >=? count then ([set_len m count], t)
      else let '(t1, f) := adj_tail t (count - m_len m) in (m :: t1, f)
  end.

Fixpoint on_last (f : mbuf -> mbuf) (c : list mbuf) : list mbuf :=
  match c with [] => [] | [m] => [f m] | m :: t => m :: on_last f t end.

Definition m_adj (s : store) (c : list mbuf) (req_len : Z) : outcome (store * list mbuf) :=
  match last c with
  | None => Done (s, c)
  | Some l =>
      if req_len >=? 0 then
        let '(c1, len) := adj_head c req_len in
        Done (s, on_head (fun m => hdr_add m (- (req_len - len))) c1)
      else
        let len := s32 (- req_len) in
        let count := s32 (foldr (fun m a => m_len m + a) 0 c) in
        if m_len l >=? len then
          Done (s, on_head (fun m => hdr_add m (- len)) (on_last (fun m => set_len m (m_len m - len)) c))
        else
          let count := if count - len <? 0 then 0 else count - len in
          let '(c1, f) := adj_tail (on_head (fun m => hdr_set m count) c) count in
          s1 ← m_freem s f; Done (s1, c1)
  end.

(** * Rearranging *)

(** The loop of [m_pullup] and [m_copyup]: the mbuf that is filled, the rest of
    the chain and the length still wanted. *)
Fixpoint pull_loop (fuel : nat) (s : store) (m : mbuf) (n : list mbuf) (len space : Z)
  : outcome (store * mbuf * list mbuf * Z) :=
  match fuel, n with
  | O, _ => Loop
  | _, [] => Fault
  | S fuel', n0 :: t =>
      let count := umin (umin (umax len max_protohdr) space) (m_len n0) in
      d ← mread s n0 0 count;
      x ← mwrite s m (m_len m) d;
      let '(s1, m1) := x in
      let m2 := set_len m1 (m_len m + count) in
      let n0 := set_len n0 (m_len n0 - count) in
      y ← (if m_len n0 =? 0 then s2 ← m_free s1 n0; Done (s2, t)
           else Done (s1, set_data n0 (m_data n0 + count) :: t));
      let '(s2, n2) := y in
      if (len - count >? 0) && negb (Nat.eqb (length n2) 0)
      then pull_loop fuel' s2 m2 n2 (len - count) (space - count)
      else Done (s2, m2, n2, len - count)
  end.

(** [None] is NULL. *)
Definition pull_into (s : store) (m : mbuf) (n : list mbuf) (len : Z) : outcome (store * option (list mbuf)) :=
  x ← pull_loop (S (length n)) s m n len (MLEN - (m_data m + m_len m));
  let '(s1, m1, n1, len1) := x in
  if len1 >? 0 then s2 ← m_free s1 m1; s3 ← m_freem s2 n1; Done (s3, None)
  else Done (s1, Some (m1 :: n1)).

Definition m_pullup (s : store) (c : list mbuf) (len : Z) : outcome (store * option (list mbuf)) :=
  match c with
  | [] => Fault
  | n :: t =>
      if match m_ext n with None => true | Some _ => false end && (m_data n + len <? MLEN) && negb (Nat.eqb (length t) 0)
      then
        if m_len n >=? len then Done (s, Some c) else pull_into s n t (len - m_len n)
      else if len >? MHLEN then s1 ← m_freem s c; Done (s1, None)
      else
        match m_get s (m_type n) with
        | (s1, None) => s2 ← m_freem s1 c; Done (s2, None)
        | (s1, Some m) =>
            let '(m1, n1) := match m_pkthdr n with Some _ => m_move_pkthdr m n | None => (m, n) end in
            pull_into s1 m1 (n1 :: t) len
        end
  end.

Definition m_copyup (s : store) (c : list mbuf) (len dstoff : Z) : outcome (store * option (list mbuf)) :=
  match c with
  | [] => Fault
  | n :: t =>
      if len >? MHLEN - dstoff then s1 ← m_freem s c; Done (s1, None)
      else
        match m_get s (m_type n) with
        | (s1, None) => s2 ← m_freem s1 c; Done (s2, None)
        | (s1, Some m) =>
            let '(m1, n1) := match m_pkthdr n with Some _ => m_move_pkthdr m n | None => (m, n) end in
            pull_into s1 (set_data m1 (m_data m1 + dstoff)) (n1 :: t) len
        end
  end.

(** The mbufs in front of the one where the split is, that one, those behind
    it, and the offset in it. *)
Fixpoint split_find (c : list mbuf) (len : Z) : option (list mbuf * mbuf * list mbuf * Z) :=
  match c with
  | [] => None
  | m :: t =>
      if len >? u32 (m_len m) then
        match split_find t (u32 (len - m_len m)) with
        | Some (pre, x, post, l) => Some (m :: pre, x, post, l)
        | None => None
        end
      else Some ([], m, t, len)
  end.

(** [extpacket:] the data behind [len] goes to [n]. *)
Definition split_data (s : store) (n m : mbuf) (post : list mbuf) (len remain : Z)
  : outcome (store * mbuf * list mbuf) :=
  x ← match m_ext m with
      | Some _ => mb_dupcl s (set_data n (m_data m + len)) m
      | None => d ← mread s m len remain; mwrite s n 0 d
      end;
  let '(s1, n1) := x in
  Done (s1, set_len m len, set_len n1 remain :: post).

(** [m0->m_pkthdr.len = len0], with the mbufs before the split and the one
    where it is. *)
Definition split_hdr (pre : list mbuf) (m : mbuf) (len0 : Z) : list mbuf * mbuf :=
  match pre with
  | [] => ([], hdr_set m len0)
  | x :: t => (hdr_set x len0 :: t, m)
  end.

(** The first part and the second; [] is NULL. *)
Fixpoint m_split (fuel : nat) (s : store) (m0 : list mbuf) (len0 : Z) : outcome (store * list mbuf * list mbuf) :=
  match fuel with
  | O => Loop
  | S fuel' =>
      match split_find m0 (u32 len0) with
      | None => Done (s, m0, [])
      | Some (pre, m, post, len) =>
          let remain := u32 (m_len m - len) in
          let h0 := default m (hd_error pre) in
          match m_pkthdr h0 with
          | Some h =>
              match m_gethdr s (m_type h0) with
              | (s1, None) => Done (s1, m0, [])
              | (s1, Some n) =>
                  let n := set_pkthdr n (Some (Pkthdr (s32 (ph_len h - len0)) (ph_rcvif h))) in
                  let '(pre, m) := split_hdr pre m len0 in
                  if remain =? 0 then Done (s1, pre ++ [m], n :: post)
                  else if match m_ext m with None => remain >? MHLEN | Some _ => false end then
                    x ← m_split fuel' s1 (m :: post) len;
                    let '(s2, c1, c2) := x in
                    match c2 with
                    | [] => s3 ← m_free s2 n; Done (s3, pre ++ c1, [])
                    | _ => Done (s2, pre ++ c1, set_len (m_align n 0) 0 :: c2)
                    end
                  else
                    let n := match m_ext m with None => m_align n remain | Some _ => n end in
                    x ← split_data s1 n m post len remain;
                    let '(s2, m1, c2) := x in Done (s2, pre ++ [m1], c2)
              end
          | None =>
              if remain =? 0 then Done (s, pre ++ [m], post)
              else
                match m_get s (m_type m) with
                | (s1, None) => Done (s1, m0, [])
                | (s1, Some n) =>
                    x ← split_data s1 (m_align n remain) m post len remain;
                    let '(s2, m1, c2) := x in Done (s2, pre ++ [m1], c2)
                end
          end
      end
  end.

(** * Adding space and data *)

Definition m_prepend (s : store) (c : list mbuf) (len : Z) : outcome (store * option (list mbuf)) :=
  match c with
  | [] => Fault
  | m :: t =>
      match (match m_pkthdr m with Some _ => m_gethdr | None => m_get end) s (m_type m) with
      | (s1, None) => s2 ← m_freem s1 c; Done (s2, None)
      | (s1, Some mn) =>
          let '(mn, m) := match m_pkthdr m with Some _ => m_move_pkthdr mn m | None => (mn, m) end in
          let mn := if len <? M_SIZE mn then m_align mn len else mn in
          Done (s1, Some (set_len mn len :: m :: t))
      end
  end.

Definition M_PREPEND (s : store) (c : list mbuf) (plen : Z) : outcome (store * option (list mbuf)) :=
  match c with
  | [] => Fault
  | m :: t =>
      sp ← M_LEADINGSPACE s m;
      r ← (if sp >=? plen then Done (s, Some (set_len (set_data m (m_data m - plen)) (m_len m + plen) :: t))
           else m_prepend s c plen);
      let '(s1, oc) := r in
      Done (s1, option_map (on_head (fun m => hdr_add m plen)) oc)
  end.

(** [while (remainder > 0)] of [m_append]: the new mbufs and what is left. *)
Fixpoint append_loop (fuel : nat) (s : store) (type : Z) (cp : list Z) : outcome (store * list mbuf * list Z) :=
  match cp with
  | [] => Done (s, [], [])
  | _ =>
      match fuel with
      | O => Loop
      | S fuel' =>
          match m_get s type with
          | (s1, None) => Done (s1, [], cp)
          | (s1, Some n) =>
              let n_len := umin MLEN (Z.of_nat (length cp)) in
              x ← mwrite s1 n 0 (take (Z.to_nat n_len) cp);
              let '(s2, n1) := x in
              y ← append_loop fuel' s2 (m_type n1) (drop (Z.to_nat n_len) cp);
              let '(s3, t, r) := y in
              Done (s3, set_len n1 n_len :: t, r)
          end
      end
  end.

(** The chain from its last mbuf on. *)
Definition append_last (s : store) (m : mbuf) (cp : list Z) : outcome (store * list mbuf * list Z) :=
  sp ← M_TRAILINGSPACE s m;
  x ← (if sp >? 0 then
         let space := if sp >? Z.of_nat (length cp) then Z.of_nat (length cp) else sp in
         y ← mwrite s m (m_len m) (take (Z.to_nat space) cp);
         let '(s1, m1) := y in Done (s1, set_len m1 (m_len m + space), drop (Z.to_nat space) cp)
       else Done (s, m, cp));
  let '(s1, m1, cp1) := x in
  y ← append_loop (length cp1) s1 (m_type m1) cp1;
  let '(s2, t, r) := y in Done (s2, m1 :: t, r).

Fixpoint append_chain (s : store) (c : list mbuf) (cp : list Z) : outcome (store * list mbuf * list Z) :=
  match c with
  | [] => Fault
  | [m] => append_last s m cp
  | m :: t => x ← append_chain s t cp; let '(s1, t1, r) := x in Done (s1, m :: t1, r)
  end.

(** The [len] bytes at cp are [cp]; the result is 1 when all are appended. *)
Definition m_append (s : store) (c : list mbuf) (cp : list Z) : outcome (store * list mbuf * Z) :=
  x ← append_chain s c cp;
  let '(s1, c1, r) := x in
  Done (s1, on_head (fun m => hdr_add m (Z.of_nat (length cp) - Z.of_nat (length r))) c1,
        b2z (Nat.eqb (length r) 0)).

(** [while (len > 0)] of [m_copyback]: the chain from [m] on and totlen. *)
Fixpoint copyback_loop (fuel : nat) (s : store) (m : mbuf) (t : list mbuf) (off totlen : Z) (cp : list Z)
  : outcome (store * list mbuf * Z) :=
  let len := Z.of_nat (length cp) in
  if len >? 0 then
    match fuel with
    | O => Loop
    | S fuel' =>
        sp ← M_TRAILINGSPACE s m;
        let m1 := if Nat.eqb (length t) 0 && (len >? m_len m - off)
                  then set_len m (m_len m + umin (len - (m_len m - off)) sp) else m in
        let mlen := umin (m_len m1 - off) len in
        x ← mwrite s m1 off (take (Z.to_nat mlen) cp);
        let '(s1, m2) := x in
        let cp1 := drop (Z.to_nat mlen) cp in
        let totlen := totlen + (mlen + off) in
        match cp1, t with
        | [], _ => Done (s1, m2 :: t, totlen)
        | _, [] =>
            match m_get s1 (m_type m2) with
            | (s2, None) => Done (s2, [m2], totlen)
            | (s2, Some n) =>
                y ← copyback_loop fuel' s2 (set_len n (umin MLEN (Z.of_nat (length cp1)))) [] 0 totlen cp1;
                let '(s3, t1, tot) := y in Done (s3, m2 :: t1, tot)
            end
        | _, n :: t1 =>
            y ← copyback_loop fuel' s1 n t1 0 totlen cp1;
            let '(s3, t2, tot) := y in Done (s3, m2 :: t2, tot)
        end
    end
  else Done (s, m :: t, totlen).

(** [while (off > (mlen = m->m_len))], then the loop above. *)
Fixpoint copyback_skip (fuel : nat) (s : store) (m : mbuf) (t : list mbuf) (off totlen : Z) (cp : list Z)
  : outcome (store * list mbuf * Z) :=
  if off >? m_len m then
    match fuel with
    | O => Loop
    | S fuel' =>
        let off1 := off - m_len m in
        let totlen := totlen + m_len m in
        match t with
        | [] =>
            match m_get s (m_type m) with
            | (s1, None) => Done (s1, [m], totlen)
            | (s1, Some n) =>
                x ← mwrite s1 n 0 (replicate (Z.to_nat MLEN) 0);
                let '(s2, n1) := x in
                y ← copyback_skip fuel' s2 (set_len n1 (umin MLEN (Z.of_nat (length cp) + off1))) [] off1 totlen cp;
                let '(s3, t1, tot) := y in Done (s3, m :: t1, tot)
            end
        | n :: t1 =>
            y ← copyback_skip fuel' s n t1 off1 totlen cp;
            let '(s3, t2, tot) := y in Done (s3, m :: t2, tot)
        end
    end
  else copyback_loop (length t + length cp + 1) s m t off totlen cp.

Definition m_copyback (s : store) (c : list mbuf) (off : Z) (cp : list Z) : outcome (store * list mbuf) :=
  match c with
  | [] => Done (s, [])
  | m :: t =>
      x ← copyback_skip (length t + Z.to_nat off + 1) s m t off 0 cp;
      let '(s1, c1, totlen) := x in
      Done (s1, on_head (fun m => match m_pkthdr m with
                                  | Some h => if ph_len h <? totlen then hdr_set m totlen else m
                                  | None => m
                                  end) c1)
  end.

End Mbuf.
