(* ===== verification/MbufInv.v ===== *)
(** The invariant of the mbuf store of Mbuf.v and the specifications of its
    primitives.

    [inv s l]: the mbufs [l] are the live ones, each inside its storage, the
    reference count of every external storage is the number of live mbufs that
    use it, and the allocated mbufs are the live ones and those that hold the count
    of a storage still in use.  A primitive that is given one mbuf of [l] keeps the data of all the
    others ([frame]). *)
From stdpp Require Import base list gmap.
From Stdlib Require Import ZArith Lia.
From S2P Require Import Prelude Mbuf.

Local Open Scope Z_scope.

(** * Data and counts *)

Definition slice (st : list Z) (p n : Z) : list Z := take (Z.to_nat n) (drop (Z.to_nat p) st).

Definition data (s : store) (m : mbuf) : list Z :=
  match storage s m with Some st => slice st (m_data m) (m_len m) | None => [] end.

Definition bytes (s : store) (c : list mbuf) : list Z := concat (data s <$> c).

Definition uses (i : Z) (m : mbuf) : Z :=
  match m_ext m with Some e => if ext_buf e =? i then 1 else 0 | None => 0 end.

Definition refs (i : Z) (l : list mbuf) : Z := foldr (fun m a => uses i m + a) 0 l.

Definition refcount (s : store) (i : Z) : Z :=
  match s_ext s !! i with Some (_, c) => c | None => 0 end.

(** An mbuf is inside its storage. *)
Record mb_ok (m : mbuf) : Prop := {
  ok_dat : Z.of_nat (length (m_dat m)) = MLEN;
  ok_start : M_START m <= m_data m;
  ok_len : 0 <= m_len m;
  ok_end : m_data m + m_len m <= M_START m + M_SIZE m;
  ok_ext : match m_ext m with Some e => ext_size e < 2 ^ 31 | None => True end
}.

Definition has_ext (s : store) (m : mbuf) : Prop :=
  match m_ext m with
  | Some e => exists st c, s_ext s !! ext_buf e = Some (st, c) /\ Z.of_nat (length st) = ext_size e
  | None => True
  end.

Definition frame (s s' : store) (l : list mbuf) : Prop := forall m, m ∈ l -> data s' m = data s m.

Lemma frame_refl s l : frame s s l.
Proof. by intros m _. Qed.

Lemma mframe_trans s1 s2 s3 l : frame s1 s2 l -> frame s2 s3 l -> frame s1 s3 l.
Proof. intros H1 H2 m Hm. rewrite H2 by done. by apply H1. Qed.

Lemma frame_sub s s' l l' : l' ⊆ l -> frame s s' l -> frame s s' l'.
Proof. intros Hs H m Hm. apply H, Hs, Hm. Qed.

Lemma frame_bytes s s' c : frame s s' c -> bytes s' c = bytes s c.
Proof.
  intros H. unfold bytes. f_equal. apply list_fmap_ext. intros i m Hm. apply H. by eapply list_elem_of_lookup_2.
Qed.

Lemma bytes_cons s m c : bytes s (m :: c) = data s m ++ bytes s c.
Proof. done. Qed.

Lemma bytes_app s c1 c2 : bytes s (c1 ++ c2) = bytes s c1 ++ bytes s c2.
Proof. unfold bytes. by rewrite fmap_app, concat_app. Qed.

Lemma refs_cons i m l : refs i (m :: l) = uses i m + refs i l.
Proof. done. Qed.

Lemma refs_app i l1 l2 : refs i (l1 ++ l2) = refs i l1 + refs i l2.
Proof. induction l1 as [|m l1 IH]; [done|]. cbn [app]. rewrite !refs_cons, IH. lia. Qed.

Lemma refs_perm i l1 l2 : l1 ≡ₚ l2 -> refs i l1 = refs i l2.
Proof. induction 1; rewrite ?refs_cons; lia. Qed.

Lemma uses_range i m : 0 <= uses i m <= 1.
Proof. unfold uses. destruct (m_ext m) as [e|]; [destruct (_ =? _)|]; lia. Qed.

Lemma refs_range i l : 0 <= refs i l <= Z.of_nat (length l).
Proof. induction l as [|m l IH]; [done|]. pose proof (uses_range i m). rewrite refs_cons. cbn [length]. lia. Qed.

Lemma refs_elem i l m : m ∈ l -> uses i m <= refs i l.
Proof.
  induction 1 as [m l|m m' l Hm IH]; rewrite refs_cons.
  - pose proof (refs_range i l). lia.
  - pose proof (uses_range i m'). lia.
Qed.

Lemma refs_user i l : 0 < refs i l -> exists m e, m ∈ l /\ m_ext m = Some e /\ ext_buf e = i.
Proof.
  induction l as [|m l IH]; [done|]. rewrite refs_cons. unfold uses. intros Hp.
  destruct (m_ext m) as [e|] eqn:Ee; [destruct (Z.eqb_spec (ext_buf e) i)|].
  - exists m, e. split; [left|done].
  - destruct IH as (x & ex & Hx & E); [lia|]. exists x, ex. split; [by right|done].
  - destruct IH as (x & ex & Hx & E); [lia|]. exists x, ex. split; [by right|done].
Qed.

Lemma uses_ext m e : m_ext m = Some e -> uses (ext_buf e) m = 1.
Proof. unfold uses. intros ->. by rewrite Z.eqb_refl. Qed.

(** * The invariant *)

Section Inv.
Context (junk : Z -> Z -> Z) (avail : Z -> bool) (nmbufs : Z).
Context (nmbufs_int : nmbufs < 2 ^ 31).

Record inv (s : store) (l : list mbuf) : Prop := {
  inv_ids : NoDup (m_id <$> l);
  inv_used : s_used s = list_to_set (m_id <$> l) ∪ dom (s_ext s);
  inv_own : forall m, m ∈ l -> is_Some (s_ext s !! m_id m) -> exists e, m_ext m = Some e /\ ext_buf e = m_id m;
  inv_fresh : forall i, i ∈ s_used s -> i < s_next s;
  inv_refs : forall i, refcount s i = refs i l;
  inv_pos : forall i st c, s_ext s !! i = Some (st, c) -> 0 < c;
  inv_mb : Forall (fun m => mb_ok m /\ has_ext s m) l;
  inv_size : Z.of_nat (size (s_used s)) <= nmbufs
}.

#[local] Instance inv_perm s : Proper ((≡ₚ) ==> iff) (inv s).
Proof.
  assert (forall l1 l2, l1 ≡ₚ l2 -> inv s l1 -> inv s l2) as H.
  { intros l1 l2 Hp [H1 H2 H3 H4 H5 H6 H7 H8]. constructor; [| | |done| |done| |done].
    - by rewrite <- Hp.
    - rewrite H2. f_equal. apply leibniz_equiv. intros i. by rewrite !elem_of_list_to_set, Hp.
    - intros m. rewrite <- Hp. apply H3.
    - intros i. rewrite H5. by apply refs_perm.
    - by rewrite <- Hp. }
  intros l1 l2 Hp. split; apply H; [done|by symmetry].
Qed.

Lemma inv_elem s l m : inv s l -> m ∈ l -> mb_ok m /\ has_ext s m.
Proof. intros [] Hm. rewrite Forall_forall in inv_mb0. by apply inv_mb0. Qed.

Lemma inv_ext_fresh s l i : inv s l -> is_Some (s_ext s !! i) -> i < s_next s.
Proof. intros H Hi. apply (inv_fresh _ _ H). rewrite (inv_used _ _ H). apply elem_of_union_r, elem_of_dom, Hi. Qed.

Lemma length_omap_le {A B} (f : A -> option B) (l : list A) : (length (omap f l) <= length l)%nat.
Proof. induction l as [|x l IH]; [done|]. cbn. destruct (f x); cbn; [by apply le_n_S|by apply Nat.le_le_succ_r]. Qed.

(** The storages in use are at most as many as the live mbufs. *)
Lemma ext_users s l : inv s l -> Z.of_nat (size (dom (s_ext s))) <= Z.of_nat (length l).
Proof.
  intros H. set (users := omap (fun m => ext_buf <$> m_ext m) l).
  assert (dom (s_ext s) ⊆ list_to_set users) as Hsub.
  { intros i Hi. apply elem_of_list_to_set, list_elem_of_omap. apply elem_of_dom in Hi as [[st c] E].
    assert (0 < refs i l) as Hp.
    { rewrite <- (inv_refs _ _ H). unfold refcount. rewrite E. by eapply inv_pos. }
    destruct (refs_user i l Hp) as (m & e & Hm & Ee & Ei). exists m. split; [done|]. rewrite Ee. cbn. by f_equal. }
  apply subseteq_size in Hsub.
  assert (size (list_to_set users : gset Z) <= length users)%nat as Hu.
  { clear. induction users as [|i u IH]; [done|]. cbn. pose proof (size_union_alt ({[i]} : gset Z) (list_to_set u)).
    pose proof (subseteq_size (list_to_set u ∖ {[i]} : gset Z) (list_to_set u) ltac:(set_solver)).
    rewrite size_singleton in *. lia. }
  pose proof (length_omap_le (fun m => ext_buf <$> m_ext m) l) as Hl. fold users in Hl.
  lia.
Qed.

Lemma used_size s l : inv s l -> Z.of_nat (length l) <= Z.of_nat (size (s_used s)) <= 2 * Z.of_nat (length l).
Proof using. clear nmbufs_int junk avail.
  intros H. assert (size (list_to_set (m_id <$> l) : gset Z) = length l) as Hl
    by (rewrite size_list_to_set by apply (inv_ids _ _ H); apply length_fmap).
  pose proof (ext_users _ _ H). rewrite (inv_used _ _ H). split.
  - rewrite <- Hl. apply Nat2Z.inj_le, subseteq_size, union_subseteq_l.
  - rewrite size_union_alt. pose proof (subseteq_size (dom (s_ext s) ∖ list_to_set (m_id <$> l)) (dom (s_ext s)) ltac:(set_solver)). lia.
Qed.

Lemma inv_length s l : inv s l -> Z.of_nat (length l) <= nmbufs.
Proof using. clear nmbufs_int junk avail. intros H. pose proof (used_size _ _ H). pose proof (inv_size _ _ H). lia. Qed.

Lemma inv_count s l i : inv s l -> refcount s i < 2 ^ 31.
Proof. intros H. rewrite (inv_refs _ _ H). pose proof (refs_range i l). pose proof (inv_length _ _ H). lia. Qed.

(** An mbuf without storage of its own holds no count. *)
Lemma inv_not_owner s l m : inv s l -> m ∈ l -> (forall e, m_ext m = Some e -> ext_buf e <> m_id m) -> m_id m ∉ dom (s_ext s).
Proof. intros H Hm Hn Hd. apply elem_of_dom in Hd. destruct (inv_own _ _ H m Hm Hd) as (e & E1 & E2). by eapply Hn. Qed.

(** ** Replacing one mbuf *)

Lemma inv_update s m m' l :
  inv s (m :: l) -> m_id m' = m_id m -> m_ext m' = m_ext m -> mb_ok m' -> inv s (m' :: l).
Proof.
  intros [H1 H2 H3 H4 H5 H6 H7 H8] Ei Ee Hok. apply Forall_cons in H7 as [[_ He] H7]. constructor; try done.
  - cbn in *. by rewrite Ei.
  - cbn in *. by rewrite Ei.
  - intros x [->|Hx]%elem_of_cons; [rewrite Ei, Ee; apply (H3 m); left|]. by apply H3; right.
  - intros i. rewrite H5. cbn. unfold uses. by rewrite Ee.
  - apply Forall_cons. split; [|done]. split; [done|]. unfold has_ext in *. by rewrite Ee.
Qed.

Lemma data_same s m m' : m_data m' = m_data m -> m_len m' = m_len m -> storage s m' = storage s m -> data s m' = data s m.
Proof. unfold data. by intros -> -> ->. Qed.

Lemma storage_ok s l m : inv s l -> m ∈ l ->
  exists st, storage s m = Some st /\ M_START m + M_SIZE m <= Z.of_nat (length st).
Proof.
  intros H Hm. destruct (inv_elem _ _ _ H Hm) as [[Hd _ _ _ _] He]. unfold storage, has_ext, M_START, M_SIZE in *.
  destruct (m_ext m) as [e|].
  - destruct He as (st & c & E & L). exists st. rewrite E. split; [done|]. lia.
  - exists (m_dat m). split; [done|]. rewrite Hd. destruct (m_pkthdr m); unfold PKTHDR_SIZE, MHLEN, MLEN; lia.
Qed.

Lemma start_nonneg m : 0 <= M_START m.
Proof. unfold M_START. destruct (m_ext m), (m_pkthdr m); unfold PKTHDR_SIZE; lia. Qed.

Lemma size_small m : mb_ok m -> M_START m + M_SIZE m < 2 ^ 31.
Proof.
  intros [_ _ _ _ He]. unfold M_START, M_SIZE.
  destruct (m_ext m), (m_pkthdr m); unfold PKTHDR_SIZE, MHLEN, MLEN; lia.
Qed.

Lemma len_small m : mb_ok m -> 0 <= m_len m < 2 ^ 31 /\ 0 <= m_data m.
Proof. intros H. pose proof (size_small m H). pose proof (start_nonneg m). destruct H. lia. Qed.

Lemma slice_len st p n : 0 <= p -> 0 <= n -> p + n <= Z.of_nat (length st) -> Z.of_nat (length (slice st p n)) = n.
Proof. intros. unfold slice. rewrite length_take, length_drop. lia. Qed.

Lemma mdata_length s l m : inv s l -> m ∈ l -> Z.of_nat (length (data s m)) = m_len m.
Proof.
  intros H Hm. destruct (storage_ok _ _ _ H Hm) as (st & E & L). destruct (inv_elem _ _ _ H Hm) as [Hok _].
  pose proof (start_nonneg m). destruct Hok. unfold data. rewrite E. apply slice_len; lia.
Qed.

(** A read inside the data. *)
Lemma mread_ok s l m a n :
  inv s l -> m ∈ l -> 0 <= a -> 0 <= n -> a + n <= m_len m ->
  mread s m a n = Done (take (Z.to_nat n) (drop (Z.to_nat a) (data s m))).
Proof.
  intros H Hm Ha Hn Hl. destruct (storage_ok _ _ _ H Hm) as (st & E & L). destruct (inv_elem _ _ _ H Hm) as [Hok _].
  pose proof (start_nonneg m). destruct Hok. unfold mread, data. rewrite E.
  assert ((0 <=? m_data m + a) && (0 <=? n) && (m_data m + a + n <=? Z.of_nat (length st)) = true) as -> by lia.
  unfold slice. f_equal. rewrite skipn_firstn_comm, drop_drop, take_take, Z2Nat.inj_add by lia. f_equal. lia.
Qed.

(** ** Allocation *)

Lemma not_used s l : inv s l -> s_next s ∉ m_id <$> l /\ s_ext s !! s_next s = None.
Proof.
  intros H. split.
  - intros Hin. assert (s_next s ∈ s_used s) as Hu by (rewrite (inv_used _ _ H); by apply elem_of_union_l, elem_of_list_to_set).
    apply (inv_fresh _ _ H) in Hu. lia.
  - destruct (s_ext s !! s_next s) eqn:E; [|done]. pose proof (inv_ext_fresh _ _ (s_next s) H ltac:(by eexists)). lia.
Qed.

Lemma uninit_length i n : 0 <= n -> Z.of_nat (length (uninit junk i n)) = n.
Proof. intros. unfold uninit. rewrite length_fmap, length_seqZ. lia. Qed.

Lemma bump_inv s l : inv s l -> inv (bump s) l /\ frame s (bump s) l.
Proof.
  intros [H1 H2 H3 H4 H5 H6 H7 H8]. split; [|by intros m _]. constructor; try done; cbn.
  intros i Hi. apply H4 in Hi. lia.
Qed.

(** A new mbuf, with or without a cluster of its own. *)
Lemma alloc_inv s l m ex :
  inv s l -> can_alloc avail nmbufs s = true -> m_id m = s_next s -> mb_ok m ->
  match m_ext m with
  | None => ex = s_ext s
  | Some e => ext_buf e = s_next s /\ exists st, ex = <[s_next s := (st, 1)]> (s_ext s) /\ Z.of_nat (length st) = ext_size e
  end ->
  let s' := Store (s_next s + 1) ({[s_next s]} ∪ s_used s) ex in
  inv s' (m :: l) /\ frame s s' l.
Proof using. clear nmbufs_int junk.
  intros H Hc Ei Hok He s'. pose proof (not_used _ _ H) as [Hn Hx]. pose proof (used_size _ _ H) as Hsz.
  unfold can_alloc in Hc. apply andb_true_iff in Hc as [_ Hc].
  assert (forall i, i <> s_next s -> ex !! i = s_ext s !! i) as Hex.
  { intros i Hi. destruct (m_ext m); [|by subst]. destruct He as (_ & st & -> & _). by apply lookup_insert_ne. }
  assert (forall x, x ∈ l -> storage s' x = storage s x) as Hst.
  { intros x Hxl. unfold storage, s'. cbn. destruct (inv_elem _ _ _ H Hxl) as [_ Hxe]. unfold has_ext in Hxe.
    destruct (m_ext x) as [e|]; [|done]. rewrite Hex; [done|]. destruct Hxe as (st & c & E & _). congruence. }
  split; [|intros x Hxl; unfold data; by rewrite Hst].
  destruct H as [H1 H2 H3 H4 H5 H6 H7 H8]. constructor; cbn [m_id s_used s_next s_ext s' fmap list_fmap].
  - apply NoDup_cons. by rewrite Ei.
  - cbn. rewrite Ei, H2. destruct (m_ext m); [destruct He as (_ & st & -> & _); rewrite dom_insert_L|subst]; set_solver.
  - intros x [->|Hx']%elem_of_cons.
    + rewrite Ei. destruct (m_ext m) as [e|]; [destruct He as [<- _]; by eexists|subst; by rewrite Hx; intros []].
    + rewrite Hex; [by apply H3|]. intros E. apply Hn. rewrite <- E. by apply list_elem_of_fmap_2.
  - intros i [->%elem_of_singleton|Hi]%elem_of_union; [lia|]. apply H4 in Hi. lia.
  - intros i. rewrite refs_cons, <- H5. unfold refcount, uses, s'. cbn [s_ext]. destruct (decide (i = s_next s)) as [->|Hne].
    + rewrite Hx. destruct (m_ext m) as [e|]; [|by subst; rewrite Hx].
      destruct He as (-> & st & -> & _). by rewrite lookup_insert_eq, Z.eqb_refl.
    + rewrite Hex by done. destruct (m_ext m) as [e|]; [|lia]. destruct He as (-> & _).
      assert (s_next s =? i = false) as -> by lia. lia.
  - intros i st c Hi. destruct (decide (i = s_next s)) as [->|Hne]; [|rewrite Hex in Hi by done; by eapply H6].
    destruct (m_ext m); [|subst; congruence]. destruct He as (_ & st' & -> & _). rewrite lookup_insert_eq in Hi. by simplify_eq.
  - apply Forall_cons. split.
    { split; [done|]. unfold has_ext. destruct (m_ext m) as [e|]; [|done]. destruct He as (-> & st & -> & L).
      exists st, 1. cbn. by rewrite lookup_insert_eq. }
    eapply Forall_impl; [exact H7|]. cbn. intros x [Hxo Hxe]. split; [done|]. unfold has_ext in *.
    destruct (m_ext x); [|done]. cbn. destruct Hxe as (st & c & E & L). rewrite Hex by congruence. by exists st, c.
  - pose proof (size_union_alt {[s_next s]} (s_used s)) as Hun.
    pose proof (subseteq_size (s_used s ∖ {[s_next s]}) (s_used s) ltac:(set_solver)). rewrite size_singleton in Hun. lia.
Qed.

(** What the clients use of a new mbuf: [hdr] with a packet header, [room] its
    size. *)
Definition fresh (type : Z) (h : option pkthdr) (x : bool) (m : mbuf) : Prop :=
  m_len m = 0 /\ m_type m = type /\ m_pkthdr m = h /\ m_rdonly m = false /\ m_data m = M_START m /\
  (if x then M_SIZE m = MCLBYTES /\ is_Some (m_ext m) else m_ext m = None).

Definition got (s s' : store) (l : list mbuf) (type : Z) (h : option pkthdr) (x : bool) (om : option mbuf) : Prop :=
  match om with
  | Some m => inv s' (m :: l) /\ frame s s' l /\ fresh type h x m /\
              (forall e, m_ext m = Some e -> refcount s' (ext_buf e) = 1)
  | None => inv s' l /\ frame s s' l
  end.

Lemma m_get_spec s l type s' om :
  inv s l -> m_get junk avail nmbufs s type = (s', om) -> got s s' l type None false om.
Proof.
  intros H. unfold m_get. destruct (can_alloc avail nmbufs s) eqn:E; intros [= <- <-]; [|by apply bump_inv].
  unfold got. match goal with |- inv _ (?m :: _) /\ _ => destruct (alloc_inv s l m (s_ext s) H E) as [H1 H2]; try done end.
Qed.

Lemma m_gethdr_spec s l type s' om :
  inv s l -> m_gethdr junk avail nmbufs s type = (s', om) -> got s s' l type (Some (Pkthdr 0 0)) false om.
Proof.
  intros H. unfold m_gethdr. destruct (can_alloc avail nmbufs s) eqn:E; intros [= <- <-]; [|by apply bump_inv].
  unfold got. match goal with |- inv _ (?m :: _) /\ _ => destruct (alloc_inv s l m (s_ext s) H E) as [H1 H2]; try done end.
Qed.

Lemma m_getcl_spec s l type hdr s' om :
  inv s l -> m_getcl junk avail nmbufs s type hdr = (s', om) ->
  got s s' l type (if hdr then Some (Pkthdr 0 0) else None) true om.
Proof.
  intros H. unfold m_getcl. destruct (can_alloc avail nmbufs s) eqn:E; intros [= <- <-]; [|by apply bump_inv].
  unfold got. match goal with |- inv (Store _ _ ?ex) (?m :: _) /\ _ => destruct (alloc_inv s l m ex H E) as [H1 H2]; try done end.
  - cbn. split; [done|]. eexists. split; [done|]. by apply uninit_length.
  - split; [done|]. split; [done|]. split; [by repeat split|]. intros e [= <-]. unfold refcount. cbn. by rewrite lookup_insert_eq.
Qed.

(** ** Changes of the external storage

    [ex] keeps the bytes of every storage that a mbuf of [l] uses. *)
Definition keeps (s : store) (ex : gmap Z (list Z * Z)) (l : list mbuf) : Prop :=
  forall m e, m ∈ l -> m_ext m = Some e -> fst <$> ex !! ext_buf e = fst <$> s_ext s !! ext_buf e.

Lemma keeps_frame s l n u ex : keeps s ex l -> frame s (Store n u ex) l.
Proof.
  intros H m Hm. unfold data, storage. destruct (m_ext m) as [e|] eqn:E; [|done]. cbn [s_ext]. by rewrite (H m e Hm E).
Qed.

Lemma keeps_has s l n u ex :
  keeps s ex l -> Forall (fun m => mb_ok m /\ has_ext s m) l -> Forall (fun m => mb_ok m /\ has_ext (Store n u ex) m) l.
Proof.
  intros H Hl. rewrite Forall_forall in *. intros m Hm. destruct (Hl m Hm) as [Hok He]. split; [done|].
  unfold has_ext in *. destruct (m_ext m) as [e|] eqn:E; [|done]. destruct He as (st & c & Es & L).
  specialize (H m e Hm E). rewrite Es in H. cbn [s_ext]. destruct (ex !! ext_buf e) as [[st' c']|]; [|done].
  exists st', c'. split; [done|]. cbn in H. by simplify_eq.
Qed.

Lemma no_uses i l m e : refs i l = 0 -> m ∈ l -> m_ext m = Some e -> ext_buf e <> i.
Proof. intros H Hm E <-. pose proof (refs_elem (ext_buf e) l m Hm). rewrite (uses_ext m e E) in *. lia. Qed.

(** The mbufs still allocated after [m], which uses [e] with count [c], is freed. *)
Lemma free_used s m l e st c ex :
  inv s (m :: l) -> m_ext m = Some e -> s_ext s !! ext_buf e = Some (st, c) ->
  ex = (if c =? 1 then delete (ext_buf e) (s_ext s) else <[ext_buf e := (st, u32 (c - 1))]> (s_ext s)) ->
  let u1 := if c =? 1 then s_used s ∖ {[ext_buf e]} else s_used s in
  (if m_id m =? ext_buf e then u1 else u1 ∖ {[m_id m]}) = list_to_set (m_id <$> l) ∪ dom ex.
Proof using. clear nmbufs_int junk avail.
  intros H Ee Es -> u1. pose proof (inv_ids _ _ H) as [Hn _]%NoDup_cons.
  pose proof (inv_refs _ _ H (ext_buf e)) as Hr. unfold refcount in Hr. rewrite Es, refs_cons, (uses_ext m e Ee) in Hr.
  assert (c = 1 -> ext_buf e ∉ m_id <$> l) as Hlast.
  { intros -> Hin. apply list_elem_of_fmap in Hin as (x & Ex & Hx).
    destruct (inv_own _ _ H x ltac:(by right) ltac:(rewrite <- Ex, Es; by eexists)) as (e' & E1 & E2).
    pose proof (refs_elem (ext_buf e) l x Hx). unfold uses in *. rewrite E1, E2, <- Ex, Z.eqb_refl in *. lia. }
  assert (m_id m <> ext_buf e -> m_id m ∉ dom (s_ext s)) as Hown.
  { intros Hne. apply (inv_not_owner s (m :: l)); [done|left|]. intros e'. rewrite Ee. intros [= <-]. by apply not_eq_sym. }
  assert (ext_buf e ∈ dom (s_ext s)) as Hd by (apply elem_of_dom; rewrite Es; by eexists).
  apply leibniz_equiv. intros i. unfold u1. rewrite (inv_used _ _ H). cbn [fmap list_fmap list_to_set].
  destruct (Z.eqb_spec c 1) as [E1|E1], (Z.eqb_spec (m_id m) (ext_buf e)) as [E2|E2];
    rewrite ?dom_delete_L, ?dom_insert_L, !elem_of_union, ?elem_of_difference, ?elem_of_union, ?elem_of_singleton, ?elem_of_list_to_set.
  all: try specialize (Hlast E1); try specialize (Hown E2).
  all: destruct (decide (i = m_id m)) as [->|]; [|destruct (decide (i = ext_buf e)) as [->|]]; rewrite ?E2 in *; tauto.
Qed.

Lemma m_free_spec s m l :
  inv s (m :: l) -> exists s', m_free s m = Done s' /\ inv s' l /\ frame s s' l.
Proof using nmbufs_int. clear junk avail.
  intros H. assert (Hc : forall i, refcount s i < 2 ^ 31) by (intros i; by eapply inv_count).
  assert (Hown : forall x, x ∈ l -> is_Some (s_ext s !! m_id x) -> exists e, m_ext x = Some e /\ ext_buf e = m_id x)
    by (intros x Hx; apply (inv_own _ _ H); by right).
  pose proof H as [H1 H2 H3 H4 H5 H6 H7 H8]. apply NoDup_cons in H1 as [Hn H1]. apply Forall_cons in H7 as [[Hok He] H7].
  assert (Hsub : forall u : gset Z, u ⊆ s_used s -> (forall i, i ∈ u -> i < s_next s) /\ Z.of_nat (size u) <= nmbufs).
  { intros u Hu. split; [intros i Hi; by apply H4, Hu|]. apply subseteq_size in Hu. lia. }
  unfold m_free. rewrite decide_True by (rewrite H2; cbn; set_solver).
  unfold has_ext in He. destruct (m_ext m) as [e|] eqn:Ee; cbn.
  2: { eexists. split; [done|]. split; [|by intros x _]. destruct (Hsub (s_used s ∖ {[m_id m]}) ltac:(set_solver)).
       assert (m_id m ∉ dom (s_ext s)) by (apply (inv_not_owner s (m :: l)); [done|left|by rewrite Ee]).
       constructor; cbn; try done; [rewrite H2; cbn; set_solver|].
       intros i. specialize (H5 i). rewrite refs_cons in H5. unfold uses in H5. by rewrite Ee in H5. }
  destruct He as (st & c & Es & L). unfold mb_free_ext. rewrite Es.
  assert (Hrc : c = 1 + refs (ext_buf e) l).
  { specialize (H5 (ext_buf e)). rewrite refs_cons, (uses_ext m e Ee) in H5. unfold refcount in H5. by rewrite Es in H5. }
  specialize (Hc (ext_buf e)). unfold refcount in Hc. rewrite Es in Hc. pose proof (refs_range (ext_buf e) l).
  set (ex := if c =? 1 then delete (ext_buf e) (s_ext s) else <[ext_buf e := (st, u32 (c - 1))]> (s_ext s)).
  pose proof (free_used s m l e st c ex H Ee Es eq_refl) as Hu. cbv zeta in Hu.
  set (u := if m_id m =? ext_buf e then _ else _) in Hu.
  assert (u ⊆ s_used s) as Hsu by (unfold u; destruct (_ =? _), (_ =? _); set_solver).
  destruct (Hsub u Hsu) as [Hlt Hsz]. exists (Store (s_next s) u ex).
  split; [unfold u, ex; by destruct (c =? 1), (_ =? _)|].
  assert (Hlook : forall i, i <> ext_buf e -> ex !! i = s_ext s !! i).
  { intros i Hi. unfold ex. destruct (c =? 1); [by apply lookup_delete_ne|by apply lookup_insert_ne]. }
  assert (Hk : keeps s ex l).
  { intros x ex' Hx Ex. destruct (decide (ext_buf ex' = ext_buf e)) as [E|E]; [|by rewrite Hlook].
    unfold ex. destruct (c =? 1) eqn:E1; [|by rewrite E, lookup_insert_eq, Es].
    by destruct (no_uses (ext_buf e) l x ex'); [lia|..]. }
  split; [|by apply keeps_frame]. constructor; cbn [s_used s_next s_ext]; try done.
  - intros x Hx Hi. apply Hown; [done|]. destruct (decide (m_id x = ext_buf e)) as [->|Hne]; [by rewrite Es|]. by rewrite <- Hlook.
  - intros i. unfold refcount. cbn [s_ext]. destruct (decide (i = ext_buf e)) as [->|Hne].
    + unfold ex. destruct (c =? 1) eqn:E1; [rewrite lookup_delete_eq; lia|]. rewrite lookup_insert_eq.
      rewrite wrapu_small; [lia|]. split; [lia|]. transitivity (2 ^ 31); [lia|done].
    + rewrite Hlook by done. specialize (H5 i). rewrite refs_cons in H5. unfold refcount, uses in H5. rewrite Ee in H5.
      assert (ext_buf e =? i = false) as E1 by lia. rewrite E1 in H5. exact H5.
  - intros i st' c' Hi. destruct (decide (i = ext_buf e)) as [->|Hne]; [|rewrite Hlook in Hi by done; by eapply H6].
    unfold ex in Hi. destruct (c =? 1) eqn:E1; [by rewrite lookup_delete_eq in Hi|]. rewrite lookup_insert_eq in Hi. simplify_eq.
    rewrite wrapu_small; [lia|]. split; [lia|]. transitivity (2 ^ 31); [lia|done].
  - by eapply keeps_has.
Qed.

Lemma m_freem_inv c : forall s l,
  inv s (c ++ l) -> exists s', m_freem s c = Done s' /\ inv s' l /\ frame s s' l.
Proof using nmbufs_int. clear junk avail.
  induction c as [|m c IH]; intros s l H; [exists s; split; [done|]; split; [done|apply frame_refl]|].
  destruct (m_free_spec s m (c ++ l) H) as (s1 & E1 & H1 & F1). destruct (IH s1 l H1) as (s2 & E2 & H2 & F2).
  exists s2. cbn. rewrite E1. split; [done|]. split; [done|]. eapply mframe_trans; [|done].
  eapply frame_sub; [|done]. set_solver.
Qed.

(** ** Sharing and writing *)

Lemma mb_dupcl_spec s n0 n m e l :
  inv s (n0 :: l) -> m ∈ l -> m_ext m = Some e -> m_id n = m_id n0 -> m_ext n0 = None ->
  let n' := set_rdonly (set_ext n (Some e)) (m_rdonly n || m_rdonly m) in
  mb_ok n' ->
  exists s', mb_dupcl s n m = Done (s', n') /\ inv s' (n' :: l) /\ frame s s' l /\ storage s' n' = storage s m.
Proof.
  intros H Hm Ee Ei E0 n' Hok. assert (Hc : forall i, refcount s i < 2 ^ 31) by (intros i; by eapply inv_count).
  assert (has_ext s m) as Hx by (eapply (inv_elem s (n0 :: l)); [done|by right]).
  assert (m_id n0 ∉ dom (s_ext s)) as Hn0 by (apply (inv_not_owner s (n0 :: l)); [done|left|by rewrite E0]).
  destruct H as [H1 H2 H3 H4 H5 H6 H7 H8]. apply Forall_cons in H7 as [_ H7].
  unfold has_ext in Hx. unfold mb_dupcl. rewrite Ee in *. destruct Hx as (st & c & Es & L). rewrite Es.
  specialize (Hc (ext_buf e)). unfold refcount in Hc. rewrite Es in Hc. pose proof (H6 _ _ _ Es) as Hp.
  assert (u32 (c + 1) = c + 1) as -> by (apply wrapu_small; split; [lia|]; apply (Z.le_lt_trans _ (2 ^ 31)); [lia|done]).
  eexists. split; [done|]. set (ex := <[_ := _]> _).
  assert (Hlook : forall i, i <> ext_buf e -> ex !! i = s_ext s !! i) by (intros i Hi; by apply lookup_insert_ne).
  assert (Hk : keeps s ex l).
  { intros x ex' Hx' Ex. destruct (decide (ext_buf ex' = ext_buf e)) as [E|E]; [|by rewrite Hlook].
    unfold ex. by rewrite E, lookup_insert_eq, Es. }
  split; [|split; [by apply keeps_frame|unfold storage, ex; cbn; by rewrite Ee, lookup_insert_eq, Es]].
  constructor; cbn [s_used s_next s_ext]; try done.
  - cbn in *. by rewrite Ei.
  - unfold ex. rewrite dom_insert_lookup_L by (rewrite Es; by eexists). cbn in *. by rewrite Ei.
  - intros x Hx Hd. assert (is_Some (s_ext s !! m_id x)) as Hd'.
    { destruct (decide (m_id x = ext_buf e)) as [->|Hne]; [by rewrite Es|]. by rewrite <- Hlook. }
    apply elem_of_cons in Hx as [->|Hx]; [|by apply H3; [right|]]. apply elem_of_dom in Hd'. cbn in Hd'. by rewrite Ei in Hd'.
  - intros i. specialize (H5 i). rewrite refs_cons in *. unfold refcount, uses in *. rewrite E0 in H5. cbn [s_ext m_ext n' set_rdonly set_ext].
    destruct (decide (i = ext_buf e)) as [->|Hne].
    + unfold ex. rewrite lookup_insert_eq, Z.eqb_refl. rewrite Es in H5. lia.
    + rewrite Hlook by done. assert (ext_buf e =? i = false) as -> by lia. lia.
  - intros i st' c' Hi. destruct (decide (i = ext_buf e)) as [->|Hne]; [|rewrite Hlook in Hi by done; by eapply H6].
    unfold ex in Hi. rewrite lookup_insert_eq in Hi. simplify_eq. lia.
  - apply Forall_cons. split; [|by eapply keeps_has]. split; [done|]. unfold has_ext. cbn. exists st, (c + 1).
    unfold ex. by rewrite lookup_insert_eq.
Qed.

(** No other mbuf uses the storage. *)
Definition sole (s : store) (m : mbuf) : Prop :=
  match m_ext m with Some e => refcount s (ext_buf e) = 1 | None => True end.

Lemma writable_sole s m b : M_WRITABLE s m = Done b -> b = true -> sole s m.
Proof.
  intros H ->. unfold M_WRITABLE, sole, m_extrefcnt, refcount in *. destruct (m_rdonly m); [done|].
  destruct (m_ext m) as [e|]; [|done]. destruct (s_ext s !! ext_buf e) as [[st c]|]; [|done].
  cbn in H. injection H as H. lia.
Qed.

Lemma writable_done s l m : inv s l -> m ∈ l -> exists b, M_WRITABLE s m = Done b.
Proof.
  intros H Hm. destruct (inv_elem _ _ _ H Hm) as [_ He]. unfold M_WRITABLE, m_extrefcnt, has_ext in *.
  destruct (m_rdonly m); [eauto|]. destruct (m_ext m) as [e|]; [|eauto]. destruct He as (st & c & -> & _). cbn. eauto.
Qed.

Lemma overwrite_length st p d :
  0 <= p -> p + Z.of_nat (length d) <= Z.of_nat (length st) -> length (overwrite st p d) = length st.
Proof. intros. unfold overwrite. rewrite !length_app, length_take, length_drop. lia. Qed.

Lemma mwrite_spec s m l a d :
  inv s (m :: l) -> sole s m -> M_START m <= m_data m + a ->
  m_data m + a + Z.of_nat (length d) <= M_START m + M_SIZE m ->
  exists s' m' st, mwrite s m a d = Done (s', m') /\ inv s' (m' :: l) /\ frame s s' l /\
    m' = set_dat m (m_dat m') /\ storage s m = Some st /\ storage s' m' = Some (overwrite st (m_data m + a) d) /\
    sole s' m' /\ M_START m + M_SIZE m <= Z.of_nat (length st).
Proof.
  intros H Hs Ha Hd. destruct (storage_ok s (m :: l) m H ltac:(left)) as (st & Est & Lst). pose proof (start_nonneg m).
  assert (mb_ok m /\ has_ext s m) as [Hok He] by (eapply (inv_elem s (m :: l)); [done|left]).
  unfold mwrite. destruct (m_ext m) as [e|] eqn:Ee.
  - unfold has_ext, sole, refcount, storage in *. rewrite Ee in *. destruct He as (st' & c & Es & L). rewrite Es in *. cbn in Est, Hs. simplify_eq.
    assert ((0 <=? m_data m + a) && (m_data m + a + Z.of_nat (length d) <=? Z.of_nat (length st)) = true) as -> by lia.
    exists (Store (s_next s) (s_used s) (<[ext_buf e:=(overwrite st (m_data m + a) d, 1)]> (s_ext s))), m, st.
    split; [done|]. set (ex := <[_ := _]> _).
    assert (Hlook : forall i, i <> ext_buf e -> ex !! i = s_ext s !! i) by (intros i Hi; by apply lookup_insert_ne).
    assert (Hr0 : refs (ext_buf e) l = 0).
    { pose proof (inv_refs _ _ H (ext_buf e)) as Hr. rewrite refs_cons, (uses_ext m e Ee) in Hr. unfold refcount in Hr. rewrite Es in Hr. lia. }
    assert (Hk : keeps s ex l).
    { intros x ex' Hx Ex. rewrite Hlook; [done|]. by eapply no_uses. }
    split; [|split; [by apply keeps_frame|]; split; [by destruct m|]; split; [done|]; cbn; rewrite Ee; unfold ex; by rewrite lookup_insert_eq].
    destruct H as [H1 H2 H3 H4 H5 H6 H7 H8]. constructor; cbn [s_used s_next s_ext]; try done.
    + unfold ex. rewrite dom_insert_lookup_L by (rewrite Es; by eexists). done.
    + intros x Hx Hi. apply H3; [done|]. destruct (decide (m_id x = ext_buf e)) as [->|Hne]; [by rewrite Es|]. by rewrite <- Hlook.
    + intros i. rewrite <- H5. unfold refcount. cbn [s_ext]. destruct (decide (i = ext_buf e)) as [->|Hne]; [|by rewrite Hlook].
      unfold ex. by rewrite lookup_insert_eq, Es.
    + intros i st' c' Hi. destruct (decide (i = ext_buf e)) as [->|Hne]; [|rewrite Hlook in Hi by done; by eapply H6].
      unfold ex in Hi. rewrite lookup_insert_eq in Hi. by simplify_eq.
    + apply Forall_cons in H7 as [_ H7]. apply Forall_cons. split; [|by eapply keeps_has]. split; [done|].
      unfold has_ext. rewrite Ee. cbn. eexists _, 1. unfold ex. rewrite lookup_insert_eq. split; [done|]. rewrite overwrite_length; lia.
  - assert ((M_START m <=? m_data m + a) && (m_data m + a + Z.of_nat (length d) <=? MLEN) = true) as Eb.
    { unfold M_START, M_SIZE in *. rewrite Ee in *. destruct (m_pkthdr m); unfold PKTHDR_SIZE, MHLEN, MLEN in *; lia. }
    rewrite Eb. unfold storage in Est. rewrite Ee in Est. injection Est as <-.
    exists s, (set_dat m (overwrite (m_dat m) (m_data m + a) d)), (m_dat m). split; [done|].
    split; [|split; [apply frame_refl|]; split; [done|]; unfold storage, sole; cbn; by rewrite Ee].
    eapply inv_update; [done|done|done|]. destruct Hok. constructor; cbn; try done.
    rewrite overwrite_length by lia. done.
Qed.

Lemma slice_overwrite st p a n d :
  0 <= p -> 0 <= a <= n -> p + a + Z.of_nat (length d) <= Z.of_nat (length st) ->
  slice (overwrite st (p + a) d) p (Z.max n (a + Z.of_nat (length d))) =
  take (Z.to_nat a) (slice st p n) ++ d ++ drop (Z.to_nat a + length d) (slice st p n).
Proof.
  intros Hp Ha Hl. unfold slice, overwrite. rewrite take_take, skipn_firstn_comm.
  rewrite drop_app_le by (rewrite length_take; lia). rewrite skipn_firstn_comm.
  replace (Z.to_nat (p + a) + length d)%nat with (Z.to_nat p + (Z.to_nat a + length d))%nat by lia.
  rewrite <- drop_drop. assert (Hlu : Z.of_nat (length (drop (Z.to_nat p) st)) >= a + Z.of_nat (length d)) by (rewrite length_drop; lia).
  generalize dependent (drop (Z.to_nat p) st). intros u Hu.
  replace (Z.to_nat (p + a) - Z.to_nat p)%nat with (Z.to_nat a) by lia.
  replace (Z.to_nat a `min` Z.to_nat n)%nat with (Z.to_nat a) by lia.
  rewrite take_app_ge by (rewrite length_take; lia). f_equal. rewrite length_take.
  rewrite take_app_ge by lia. f_equal. f_equal. lia.
Qed.

(** Writing inside the data or at its end. *)
Lemma mwrite_at s m l a d :
  inv s (m :: l) -> sole s m -> 0 <= a <= m_len m ->
  m_data m + a + Z.of_nat (length d) <= M_START m + M_SIZE m ->
  exists s' m', mwrite s m a d = Done (s', m') /\ m' = set_dat m (m_dat m') /\
    let m2 := set_len m' (Z.max (m_len m) (a + Z.of_nat (length d))) in
    inv s' (m2 :: l) /\ frame s s' l /\ sole s' m2 /\
    data s' m2 = take (Z.to_nat a) (data s m) ++ d ++ drop (Z.to_nat a + length d) (data s m).
Proof.
  intros H Hs Ha Hd. assert (mb_ok m) as Hok by (eapply (inv_elem s (m :: l)); [done|left]).
  destruct (mwrite_spec s m l a d H Hs) as (s' & m' & st & Ew & Hi & Hf & Em & Est & Est' & Hs' & Lst); [destruct Hok; lia|done|].
  exists s', m'. split; [done|]. split; [done|]. cbv zeta.
  assert (mb_ok m') as Hok' by (eapply (inv_elem s' (m' :: l)); [done|left]).
  assert (m_data m' = m_data m /\ m_len m' = m_len m /\ M_START m' = M_START m /\ M_SIZE m' = M_SIZE m) as (E1 & E2 & E3 & E4)
    by (by rewrite Em).
  pose proof (start_nonneg m). split.
  { eapply inv_update; [done|done|done|]. destruct Hok, Hok'. constructor; cbn; try done; unfold M_START, M_SIZE in *; cbn in *; lia. }
  split; [done|]. split; [done|]. unfold data. change (storage s' (set_len m' _)) with (storage s' m').
  rewrite Est, Est'. cbn [m_data m_len set_len]. rewrite E1. apply slice_overwrite; destruct Hok; lia.
Qed.

(** Writing behind the data. *)
Lemma mwrite_end s m l d n :
  inv s (m :: l) -> sole s m -> n = m_len m + Z.of_nat (length d) ->
  m_data m + n <= M_START m + M_SIZE m ->
  exists s' m', mwrite s m (m_len m) d = Done (s', m') /\ m' = set_dat m (m_dat m') /\
    inv s' (set_len m' n :: l) /\ frame s s' l /\ sole s' (set_len m' n) /\ data s' (set_len m' n) = data s m ++ d.
Proof.
  intros H Hs -> Hd. assert (mb_ok m) as Hok by (eapply (inv_elem s (m :: l)); [done|left]). pose proof (ok_len _ Hok).
  destruct (mwrite_at s m l (m_len m) d H Hs) as (s' & m' & E & Em & Hi & Hf & Hs' & Hdt); [lia|lia|].
  rewrite Z.max_r in Hi, Hs', Hdt by lia. exists s', m'. do 5 (split; [done|]). rewrite Hdt.
  pose proof (mdata_length s (m :: l) m H ltac:(left)) as Hlen. rewrite take_ge, drop_ge, app_nil_r by lia. done.
Qed.
End Inv.

#[export] Existing Instance inv_perm.
