(* ===== verification/MbufOps.v ===== *)
(** What the operations of Mbuf.v do to the bytes of chains: each keeps the
    invariant of MbufInv.v, changes its own chain as a byte string, and keeps
    the bytes of every other chain. *)
From stdpp Require Import base list gmap.
From Stdlib Require Import ZArith Lia.
From S2P Require Import Prelude Mbuf MbufInv.

Local Open Scope Z_scope.

Definition total (c : list mbuf) : Z := foldr (fun m a => m_len m + a) 0 c.
Definition head_hdr (c : list mbuf) : option pkthdr := hd_error c ≫= m_pkthdr.

(** The packet header's length is the chain's. *)
Definition hdr_ok (c : list mbuf) : Prop :=
  match head_hdr c with Some h => ph_len h = total c | None => True end.

(** Whether there is a packet header, and whether there is a chain at all. *)
Definition has_hdr (c : list mbuf) : bool := match head_hdr c with Some _ => true | None => false end.
Definition shape (c c' : list mbuf) : Prop := has_hdr c' = has_hdr c /\ (c' = [] <-> c = []).

Lemma mshape_refl c : shape c c.
Proof. done. Qed.

Lemma mshape_trans c1 c2 c3 : shape c1 c2 -> shape c2 c3 -> shape c1 c3.
Proof. intros [E1 H1] [E2 H2]. split; [congruence|naive_solver]. Qed.

Lemma shape_intro c c' : head_hdr c' = head_hdr c -> (c' = [] <-> c = []) -> shape c c'.
Proof. intros E H. split; [|done]. unfold has_hdr. by rewrite E. Qed.

Lemma ctotal_cons m c : total (m :: c) = m_len m + total c.
Proof. done. Qed.

Lemma ctotal_app c1 c2 : total (c1 ++ c2) = total c1 + total c2.
Proof. induction c1 as [|m c1 IH]; [done|]. cbn [app]. rewrite !ctotal_cons, IH. lia. Qed.

Lemma umin_small a b : 0 <= a < 2 ^ 31 -> 0 <= b < 2 ^ 31 -> umin a b = Z.min a b.
Proof.
  intros Ha Hb. unfold umin. rewrite !wrapu_small; [done|split; [lia|]..];
    (apply (Z.lt_trans _ (2 ^ 31)); [lia|done]).
Qed.

Lemma umax_small a b : 0 <= a < 2 ^ 31 -> 0 <= b < 2 ^ 31 -> umax a b = Z.max a b.
Proof.
  intros Ha Hb. unfold umax. rewrite !wrapu_small; [done|split; [lia|]..];
    (apply (Z.lt_trans _ (2 ^ 31)); [lia|done]).
Qed.

Section Ops.
Context (junk : Z -> Z -> Z) (avail : Z -> bool) (nmbufs max_protohdr : Z).
Context (nmbufs_int : nmbufs < 2 ^ 31) (proto_int : 0 <= max_protohdr < 2 ^ 31).
#[local] Abbreviation inv := (inv nmbufs).

(** Another order of the live mbufs. *)
Ltac reorder H := refine (proj1 (inv_perm nmbufs _ _ _ _) H); solve_Permutation.

(** The bytes of a part of a frame. *)
Lemma frame_part s s' l c : frame s s' l -> c ⊆ l -> bytes s' c = bytes s c.
Proof. intros H Hs. apply frame_bytes. by eapply frame_sub. Qed.

Lemma inv_head s m l : inv s (m :: l) -> mb_ok m.
Proof. intros H. eapply inv_elem; [exact H|left]. Qed.

Lemma head_length s m l : inv s (m :: l) -> Z.of_nat (length (data s m)) = m_len m.
Proof. intros H. eapply mdata_length; [exact H|left]. Qed.

Lemma bytes_length c : forall s l, inv s (c ++ l) -> Z.of_nat (length (bytes s c)) = total c.
Proof.
  induction c as [|m c IH]; intros s l H; [done|]. rewrite bytes_cons, length_app, ctotal_cons, Nat2Z.inj_add.
  rewrite (IH s (m :: l)) by reorder H. by rewrite (head_length s m (c ++ l)).
Qed.

Lemma ctotal_nonneg s c l : inv s (c ++ l) -> 0 <= total c.
Proof. intros H. rewrite <- (bytes_length c s l H). lia. Qed.

Lemma mread_full s l m : inv s l -> m ∈ l -> mread s m 0 (m_len m) = Done (data s m).
Proof.
  intros H Hm. pose proof (mdata_length _ _ _ _ H Hm). destruct (inv_elem _ _ _ _ H Hm) as [Hok _].
  pose proof (ok_len _ Hok). rewrite (mread_ok _ _ _ _ _ _ H Hm) by lia. rewrite drop_0, take_ge by lia. done.
Qed.

(** * Joining *)

Lemma cat_loop_spec n : forall s m l,
  inv s (m :: n ++ l) ->
  exists s' c', cat_loop s m n = Done (s', c') /\ inv s' (c' ++ l) /\ frame s s' l /\
    bytes s' c' = bytes s (m :: n) /\ head_hdr c' = m_pkthdr m.
Proof.
  induction n as [|n0 n IH]; intros s m l H.
  { exists s, [m]. split; [done|]. split; [done|]. split; [apply frame_refl|]. done. }
  cbn [cat_loop]. destruct (writable_done _ _ _ m H) as [w Ew]; [left|].
  unfold M_TRAILINGSPACE. rewrite Ew. cbn [mbind outcome_bind].
  destruct (negb w || _) eqn:Eb.
  { exists s, (m :: n0 :: n). split; [done|]. split; [done|]. split; [apply frame_refl|]. done. }
  apply orb_false_iff in Eb as [Hw Hsp]. destruct w; [|done]. clear Hw.
  rewrite (mread_full _ _ _ H) by set_solver. cbn [mbind outcome_bind].
  pose proof (mdata_length _ _ _ n0 H ltac:(set_solver)) as Hn0. pose proof (ok_end _ (inv_head _ _ _ H)).
  destruct (mwrite_end _ _ _ _ (data s n0) (m_len m + m_len n0) H (writable_sole _ _ _ Ew eq_refl))
    as (s1 & m1 & E1 & Em1 & H1 & F1 & _ & D1); [lia|lia|].
  rewrite E1. cbn [mbind outcome_bind]. set (m2 := set_len m1 _) in *.
  destruct (m_free_spec _ nmbufs_int s1 n0 (m2 :: n ++ l)) as (s2 & E2 & H2 & F2); [reorder H1|].
  rewrite E2. cbn [mbind outcome_bind]. destruct (IH s2 m2 l H2) as (s' & c' & E & Hi & F & B & Hh).
  exists s', c'. split; [done|]. split; [done|]. split.
  { eapply mframe_trans; [|exact F]. eapply mframe_trans; (eapply frame_sub; [|done]); set_solver. }
  split; [|rewrite Hh; unfold m2; by rewrite Em1]. rewrite B, !bytes_cons, (F2 m2), D1 by left.
  rewrite (frame_part s1 s2 (m2 :: n ++ l) n), (frame_part s s1 _ n F1) by (done || set_solver). by rewrite <- app_assoc.
Qed.

Lemma m_cat_cons s x y m n :
  m_cat s (x :: y :: m) n = r ← m_cat s (y :: m) n; let '(s1, t1) := r in Done (s1, x :: t1).
Proof. done. Qed.

Lemma m_cat_spec m : forall s n l,
  inv s (m ++ n ++ l) -> m <> [] ->
  exists s' c', m_cat s m n = Done (s', c') /\ inv s' (c' ++ l) /\ frame s s' l /\
    bytes s' c' = bytes s m ++ bytes s n /\ head_hdr c' = head_hdr m.
Proof.
  induction m as [|x m IH]; intros s n l H Hne; [done|]. destruct m as [|y m].
  { destruct (cat_loop_spec n s x l H) as (s' & c' & E & Hi & F & B & Hh). exists s', c'.
    split; [done|]. split; [done|]. split; [done|]. split; [|done]. by rewrite B, !bytes_cons, app_nil_r. }
  rewrite m_cat_cons. destruct (IH s n (x :: l)) as (s' & c' & E & Hi & F & B & Hh); [reorder H|done|].
  rewrite E. cbn [mbind outcome_bind]. exists s', (x :: c'). split; [done|]. split; [reorder Hi|].
  split; [eapply frame_sub; [|done]; set_solver|]. split; [|done].
  rewrite !bytes_cons, B, (F x), app_assoc by left. done.
Qed.

Lemma bytes_nil s : bytes s [] = [].
Proof. done. Qed.

(** * Trimming *)

Definition trim_front (m : mbuf) (k : Z) : mbuf := set_data (set_len m (m_len m - k)) (m_data m + k).

Lemma trim_front_spec s m l k :
  inv s (m :: l) -> 0 <= k <= m_len m ->
  inv s (trim_front m k :: l) /\ data s (trim_front m k) = drop (Z.to_nat k) (data s m).
Proof.
  intros H Hk. pose proof (inv_head _ _ _ H) as Hok. pose proof (len_small _ Hok). split.
  - eapply inv_update; [done|done|done|]. destruct Hok. constructor; cbn; try done; unfold M_START, M_SIZE in *; cbn in *; lia.
  - unfold data. change (storage s (trim_front m k)) with (storage s m). destruct (storage s m) as [st|]; [|by rewrite drop_nil].
    unfold slice. cbn. rewrite skipn_firstn_comm, drop_drop. f_equal; [lia|]. f_equal. lia.
Qed.

Lemma set_len_spec s m l k :
  inv s (m :: l) -> 0 <= k <= m_len m ->
  inv s (set_len m k :: l) /\ data s (set_len m k) = take (Z.to_nat k) (data s m).
Proof.
  intros H Hk. pose proof (inv_head _ _ _ H) as Hok. split.
  - eapply inv_update; [done|done|done|]. destruct Hok. constructor; cbn; try done; unfold M_START, M_SIZE in *; cbn in *; lia.
  - unfold data. change (storage s (set_len m k)) with (storage s m). destruct (storage s m) as [st|]; [|by rewrite take_nil].
    unfold slice. cbn. rewrite take_take. f_equal. lia.
Qed.

(** Changes of the packet header's fields. *)
Lemma set_hdr_spec s m l h :
  inv s (m :: l) -> is_Some h <-> is_Some (m_pkthdr m) -> inv s (set_pkthdr m h :: l) /\ data s (set_pkthdr m h) = data s m.
Proof.
  intros H Hh. split; [|done]. eapply inv_update; [done|done|done|]. pose proof (inv_head _ _ _ H) as Hok.
  assert (M_START (set_pkthdr m h) = M_START m /\ M_SIZE (set_pkthdr m h) = M_SIZE m) as [E1 E2].
  { unfold M_START, M_SIZE. cbn. destruct (m_ext m); [done|]. destruct h, (m_pkthdr m); try done.
    - destruct Hh as [Hh _]. by destruct Hh.
    - destruct Hh as [_ Hh]. by destruct Hh. }
  destruct Hok. constructor; rewrite ?E1, ?E2; done.
Qed.

(** A change of the first mbuf's header. *)
Definition hdr_fun (f : mbuf -> mbuf) : Prop :=
  forall m, exists h, f m = set_pkthdr m h /\ (is_Some h <-> is_Some (m_pkthdr m)).

Lemma hdr_fun_add d : hdr_fun (fun m => hdr_add m d).
Proof. intros m. eexists. split; [done|]. by rewrite fmap_is_Some. Qed.

Lemma hdr_fun_set n : hdr_fun (fun m => hdr_set m n).
Proof. intros m. eexists. split; [done|]. by rewrite fmap_is_Some. Qed.

Lemma on_head_shape f c : hdr_fun f -> shape c (on_head f c).
Proof.
  intros Hf. destruct c as [|m c]; [done|]. split; [|done]. destruct (Hf m) as (h & E & Hh). unfold has_hdr, head_hdr. cbn. rewrite E. cbn.
  destruct h, (m_pkthdr m); try done; exfalso; [destruct Hh as [Hh _]|destruct Hh as [_ Hh]]; by destruct Hh.
Qed.

Lemma on_head_spec s f c l :
  hdr_fun f -> inv s (c ++ l) ->
  inv s (on_head f c ++ l) /\ bytes s (on_head f c) = bytes s c /\ total (on_head f c) = total c.
Proof.
  intros Hf H. destruct c as [|m c]; [done|]. destruct (Hf m) as (h & E & Hh). cbn [on_head]. rewrite E.
  destruct (set_hdr_spec s m (c ++ l) h H Hh) as [Hi D]. split; [done|]. split; [|done]. by rewrite !bytes_cons, D.
Qed.

Lemma adj_head_spec c : forall s l len,
  inv s (c ++ l) -> 0 <= len ->
  let '(c1, len1) := adj_head c len in
  inv s (c1 ++ l) /\ bytes s c1 = drop (Z.to_nat len) (bytes s c) /\ len1 = Z.max 0 (len - total c) /\
  head_hdr c1 = head_hdr c /\ length c1 = length c.
Proof.
  induction c as [|m c IH]; intros s l len H Hlen; cbn [adj_head]; destruct (len >? 0) eqn:E0.
  - split; [done|]. split; [by rewrite bytes_nil, drop_nil|]. split; [cbn; lia|]. done.
  - split; [done|]. split; [by rewrite bytes_nil, drop_nil|]. split; [cbn; lia|]. done.
  - pose proof (head_length _ _ _ H) as Hl. pose proof (ok_len _ (inv_head _ _ _ H)). rewrite ctotal_cons, bytes_cons.
    assert (inv s (c ++ m :: l)) as H' by reorder H. pose proof (ctotal_nonneg _ _ _ H').
    destruct (m_len m <=? len) eqn:E1.
    + destruct (set_len_spec s m (c ++ l) 0 H) as [Hi0 D1]; [lia|].
      specialize (IH s (set_len m 0 :: l) (len - m_len m) ltac:(reorder Hi0) ltac:(lia)).
      destruct (adj_head c (len - m_len m)) as [c1 len1]. destruct IH as (Hi & B & L & _ & Hn).
      split; [reorder Hi|]. rewrite bytes_cons, B, D1. change (Z.to_nat 0) with 0%nat. rewrite take_0, app_nil_l.
      split; [|split; [lia|]; split; [done|cbn; lia]].
      rewrite drop_app_ge by lia. f_equal. lia.
    + destruct (trim_front_spec s m (c ++ l) len H) as [Hi0 D1]; [lia|].
      change (set_data _ _) with (trim_front m len). split; [done|]. rewrite bytes_cons, D1, drop_app_le by lia.
      split; [done|]. split; [lia|]. done.
  - replace len with 0 by lia. split; [done|]. rewrite drop_0. split; [done|].
    pose proof (ctotal_nonneg _ _ _ H). split; [lia|]. done.
Qed.

Lemma adj_tail_spec c : forall s l count,
  inv s (c ++ l) -> 0 <= count <= total c ->
  let '(c1, f) := adj_tail c count in
  inv s (f ++ c1 ++ l) /\ bytes s c1 = take (Z.to_nat count) (bytes s c) /\ shape c c1 /\ head_hdr c1 = head_hdr c.
Proof.
  induction c as [|m c IH]; intros s l count H Hc; cbn [adj_tail].
  { split; [done|]. split; [by rewrite bytes_nil, take_nil|done]. }
  pose proof (head_length _ _ _ H) as Hl. rewrite ctotal_cons in Hc. rewrite bytes_cons.
  destruct (m_len m >=? count) eqn:E.
  - destruct (set_len_spec s m (c ++ l) count H) as [H1 D1]; [lia|]. split; [reorder H1|].
    rewrite bytes_cons, D1, app_nil_r, take_app_le by lia. split; [done|]. split; [by apply shape_intro|done].
  - specialize (IH s (m :: l) (count - m_len m) ltac:(reorder H) ltac:(lia)).
    destruct (adj_tail c (count - m_len m)) as [c1 f]. destruct IH as (Hi & B & _). split; [reorder Hi|].
    rewrite bytes_cons, B, take_app_ge by lia. split; [|split; [by apply shape_intro|done]]. f_equal. f_equal. lia.
Qed.

Lemma on_last_spec c : forall s l m k,
  inv s (c ++ l) -> last c = Some m -> 0 <= k <= m_len m ->
  let c' := on_last (fun m => set_len m (m_len m - k)) c in
  inv s (c' ++ l) /\ bytes s c' = take (Z.to_nat (total c - k)) (bytes s c) /\ head_hdr c' = head_hdr c.
Proof.
  induction c as [|x c IH]; intros s l m k H Hlast Hk; [done|]. pose proof (head_length _ _ _ H) as Hl.
  destruct c as [|y c].
  - injection Hlast as ->. destruct (set_len_spec s m l (m_len m - k) H) as [H1 D1]; [lia|]. split; [done|].
    cbn [on_last]. rewrite ctotal_cons, !bytes_cons, D1. change (total []) with 0. by rewrite bytes_nil, !app_nil_r, Z.add_0_r.
  - destruct (IH s (x :: l) m k ltac:(reorder H) Hlast Hk) as (Hi & B & _).
    change (on_last _ (x :: y :: c)) with (x :: on_last (fun m => set_len m (m_len m - k)) (y :: c)). cbv zeta.
    split; [reorder Hi|]. rewrite ctotal_cons, (bytes_cons s x), (bytes_cons s x (y :: c)), B. split; [|done].
    assert (inv s ((y :: c) ++ x :: l)) as H' by reorder H.
    pose proof (bytes_length (y :: c) s (x :: l) H') as Hbl.
    assert (k <= total (y :: c)) as Hkt.
    { assert (m ∈ y :: c) as Hm by (by apply last_Some_elem_of). clear -H' Hm Hk.
      revert H'. generalize (x :: l). induction Hm as [m c'|m z c' Hm IHm]; intros l' H'; rewrite ctotal_cons.
      - pose proof (ctotal_nonneg s c' (m :: l') ltac:(reorder H')). lia.
      - pose proof (ok_len _ (inv_head _ _ _ H')). specialize (IHm Hk (z :: l') ltac:(reorder H')). lia. }
    rewrite take_app_ge by lia. f_equal. f_equal. lia.
Qed.

Lemma s32_small x : - 2 ^ 31 <= x < 2 ^ 31 -> s32 x = x.
Proof. intros H. apply wraps_small; [done|exact H]. Qed.

(** The header's length after a change of the first mbuf's header. *)
Lemma hdr_ok_add c d n :
  head_hdr c = None \/ (exists h, head_hdr c = Some h /\ ph_len h = n) -> total c = n + d -> - 2 ^ 31 <= n + d < 2 ^ 31 ->
  hdr_ok (on_head (fun m => hdr_add m d) c).
Proof.
  intros Hh Ht Hr. unfold hdr_ok. destruct c as [|m c]; [done|]. change (head_hdr (m :: c)) with (m_pkthdr m) in Hh.
  change (head_hdr (on_head _ (m :: c))) with (m_pkthdr (hdr_add m d)).
  change (total (on_head _ (m :: c))) with (total (m :: c)). cbn [hdr_add set_pkthdr m_pkthdr].
  destruct (m_pkthdr m) as [h|]; [|done]. destruct Hh as [?|(h' & [= <-] & <-)]; [done|].
  cbn [fmap option_fmap option_map ph_len]. by rewrite s32_small.
Qed.

Lemma hdr_ok_set c n : total c = n -> hdr_ok (on_head (fun m => hdr_set m n) c).
Proof.
  intros Ht. unfold hdr_ok. destruct c as [|m c]; [done|].
  change (head_hdr (on_head _ (m :: c))) with (m_pkthdr (hdr_set m n)).
  change (total (on_head _ (m :: c))) with (total (m :: c)). cbn [hdr_set set_pkthdr m_pkthdr].
  by destruct (m_pkthdr m).
Qed.

Lemma hdr_ok_cases c : hdr_ok c -> head_hdr c = None \/ (exists h, head_hdr c = Some h /\ ph_len h = total c).
Proof. unfold hdr_ok. destruct (head_hdr c); eauto. Qed.

(** What m_adj leaves of the bytes. *)
Definition adjusted (b : list Z) (req : Z) : list Z :=
  if req >=? 0 then drop (Z.to_nat req) b else take (Z.to_nat (Z.of_nat (length b) + req)) b.

Lemma m_adj_spec s c l req :
  inv s (c ++ l) -> hdr_ok c -> total c < 2 ^ 31 -> - 2 ^ 31 < req < 2 ^ 31 ->
  exists s' c', m_adj s c req = Done (s', c') /\ inv s' (c' ++ l) /\ frame s s' l /\
    bytes s' c' = adjusted (bytes s c) req /\ hdr_ok c' /\ shape c c'.
Proof.
  intros H Hh Ht Hr. pose proof (ctotal_nonneg _ _ _ H) as Hn. pose proof (bytes_length _ _ _ H) as Hb.
  unfold m_adj, adjusted. destruct (last c) as [ml|] eqn:El.
  2: { apply last_None in El as ->. exists s, []. split; [done|]. split; [done|]. split; [apply frame_refl|].
       split; [|split; [done|apply mshape_refl]]. rewrite bytes_nil, drop_nil, take_nil. by destruct (_ >=? _). }
  apply hdr_ok_cases in Hh. destruct (req >=? 0) eqn:Er.
  { pose proof (adj_head_spec c s l req H ltac:(lia)) as HA. destruct (adj_head c req) as [c1 len1].
    destruct HA as (H1 & B1 & L1 & E1 & Hlen). exists s. eexists. split; [done|].
    destruct (on_head_spec s _ c1 l (hdr_fun_add (- (req - len1))) H1) as (H2 & B2 & T2).
    split; [done|]. split; [apply frame_refl|]. split; [by rewrite B2|].
    pose proof (bytes_length _ _ _ H1) as Hb1. rewrite B1, length_drop in Hb1.
    split; [eapply hdr_ok_add; [by rewrite E1|..]; lia|].
    eapply mshape_trans; [apply shape_intro; [exact E1|]|apply on_head_shape, hdr_fun_add]. destruct c, c1; done. }
  rewrite s32_small by lia. change (foldr _ 0 c) with (total c). rewrite s32_small by lia.
  destruct (m_len ml >=? - req) eqn:Em.
  { destruct (on_last_spec c s l ml (- req) H El) as (H1 & B1 & E1); [lia|]. exists s. eexists. split; [done|].
    destruct (on_head_spec s _ _ l (hdr_fun_add (- - req)) H1) as (H2 & B2 & T2). split; [done|]. split; [apply frame_refl|].
    split; [rewrite B2, B1; f_equal; lia|]. pose proof (bytes_length _ _ _ H1) as Hb1. rewrite B1, length_take in Hb1.
    assert (- req <= total c) as Hle.
    { assert (ml ∈ c) as Hm by (by apply last_Some_elem_of). pose proof (mdata_length _ _ _ ml H ltac:(set_solver)).
      apply list_elem_of_split in Hm as (a & b & ->). rewrite <- Hb, bytes_app, bytes_cons, !length_app. lia. }
    split; [eapply hdr_ok_add; [by rewrite E1|..]; lia|].
    eapply mshape_trans; [apply shape_intro; [exact E1|]|apply on_head_shape, hdr_fun_add]. destruct c as [|x [|y c]]; done. }
  set (count := if _ : bool then _ else _). assert (count = Z.max 0 (total c + req)) as Ec by (unfold count; destruct (_ <? _) eqn:?; lia).
  destruct (on_head_spec s _ c l (hdr_fun_set count) H) as (H1 & B1 & T1).
  pose proof (adj_tail_spec _ s l count H1 ltac:(lia)) as HA.
  destruct (adj_tail (on_head (fun m => hdr_set m count) c) count) as [c1 f] eqn:Ea. destruct HA as (H2 & B2 & Sh2 & E2).
  destruct (m_freem_inv _ nmbufs_int f s (c1 ++ l) H2) as (s' & Ef & H3 & F3). rewrite Ef. exists s', c1.
  split; [done|]. split; [done|]. split; [eapply frame_sub; [|done]; set_solver|].
  rewrite (frame_part s s' _ c1 F3), B2, B1 by set_solver. split; [f_equal; lia|].
  assert (inv s (c1 ++ f ++ l)) as H4 by reorder H2.
  pose proof (bytes_length _ _ _ H4) as Hb1. rewrite B2, B1, length_take in Hb1.
  split; [|eapply mshape_trans; [apply on_head_shape, (hdr_fun_set count)|done]].
  unfold hdr_ok. rewrite E2. unfold head_hdr. destruct c as [|m c]; [done|]. cbn. destruct (m_pkthdr m); [|done]. cbn. lia.
Qed.

(** * Pulling up *)

(** An mbuf without external storage is its own writer. *)
Lemma internal_room s m l :
  inv s (m :: l) -> m_ext m = None -> sole s m /\ M_START m + M_SIZE m = MLEN.
Proof. intros H E. unfold sole, M_START, M_SIZE. rewrite E. split; [done|]. by destruct (m_pkthdr m). Qed.

(** One copy from [n0] to the end of [m]. *)
Lemma move_spec s m n0 l k :
  inv s (m :: n0 :: l) -> sole s m -> 0 <= k <= m_len n0 -> m_data m + m_len m + k <= M_START m + M_SIZE m ->
  exists s1 m1, mread s n0 0 k = Done (take (Z.to_nat k) (data s n0)) /\
    mwrite s m (m_len m) (take (Z.to_nat k) (data s n0)) = Done (s1, m1) /\ m1 = set_dat m (m_dat m1) /\
    inv s1 (set_len m1 (m_len m + k) :: n0 :: l) /\ frame s s1 (n0 :: l) /\
    data s1 (set_len m1 (m_len m + k)) = data s m ++ take (Z.to_nat k) (data s n0).
Proof.
  intros H Hs Hk Hr. pose proof (mdata_length _ _ _ n0 H ltac:(set_solver)) as Hl.
  destruct (mwrite_end _ s m (n0 :: l) (take (Z.to_nat k) (data s n0)) (m_len m + k) H Hs)
    as (s1 & m1 & E1 & Em1 & H1 & F1 & _ & D1); [rewrite length_take; lia|lia|].
  exists s1, m1. split; [|done]. rewrite (mread_ok _ _ _ n0 0 k H) by (set_solver || lia). by rewrite drop_0.
Qed.

Lemma pull_loop_spec n : forall fuel s m l len space,
  inv s (m :: n ++ l) -> n <> [] -> m_ext m = None -> space = MLEN - (m_data m + m_len m) ->
  0 <= len <= space -> (length n <= fuel)%nat ->
  exists s' m' n' len', pull_loop max_protohdr fuel s m n len space = Done (s', m', n', len') /\
    inv s' (m' :: n' ++ l) /\ frame s s' l /\ bytes s' (m' :: n') = bytes s (m :: n) /\
    m_len m' = m_len m + len - len' /\ m_pkthdr m' = m_pkthdr m /\ m_ext m' = None /\
    (len <= total n -> len' <= 0) /\ (total n < len -> 0 < len').
Proof.
  induction n as [|n0 n IH]; intros fuel s m l len space H Hne Hx -> Hlen Hf; [done|].
  destruct fuel as [|fuel]; [cbn in Hf; lia|]. cbn [pull_loop]. cbn [app] in H.
  destruct (internal_room s m _ H Hx) as [Hs Hroom].
  assert (inv s (n0 :: m :: n ++ l)) as Hn by reorder H.
  pose proof (len_small _ (inv_head _ _ _ Hn)) as [Hl0 _]. pose proof (len_small _ (inv_head _ _ _ H)) as [Hlm Hdm].
  assert (inv s (n ++ m :: n0 :: l)) as Hnn by reorder H. pose proof (ctotal_nonneg _ _ _ Hnn) as Htn.
  set (space := MLEN - (m_data m + m_len m)) in *. assert (space < 2 ^ 31) as Hsp by (unfold space, MLEN; lia).
  rewrite (umax_small len max_protohdr) by lia. rewrite (umin_small (Z.max _ _) space) by lia. rewrite umin_small by lia.
  set (k := Z.min (Z.min _ _) _). assert (0 <= k <= m_len n0 /\ k <= space) as [Hk Hks] by (unfold k; lia).
  destruct (move_spec s m n0 (n ++ l) k H Hs Hk) as (s1 & m1 & Er & Ew & Em1 & H1 & F1 & D1); [unfold space in *; lia|].
  rewrite Er. cbn [mbind outcome_bind]. rewrite Ew. cbn [mbind outcome_bind m_len set_len]. set (m2 := set_len m1 _) in *.
  assert (m_ext m2 = None /\ m_pkthdr m2 = m_pkthdr m /\ m_len m2 = m_len m + k /\ m_data m2 = m_data m) as (Ex2 & Eh2 & El2 & Ed2)
    by (unfold m2; rewrite Em1; done).
  assert (bytes s1 (m2 :: n0 :: n) = data s m ++ take (Z.to_nat k) (data s n0) ++ data s n0 ++ bytes s n) as B1.
  { rewrite !bytes_cons, D1, (F1 n0), (frame_part _ _ _ n F1), <- app_assoc by set_solver. done. }
  assert (inv s1 (n0 :: m2 :: n ++ l)) as H1' by reorder H1.
  pose proof (mdata_length _ _ _ n0 H ltac:(set_solver)) as Hdl. rewrite ctotal_cons.
  destruct (m_len n0 - k =? 0) eqn:E0.
  - destruct (set_len_spec s1 n0 (m2 :: n ++ l) (m_len n0 - k) H1') as [H2 _]; [lia|].
    destruct (m_free_spec _ nmbufs_int s1 _ _ H2) as (s2 & E2 & H3 & F2). rewrite E2. cbn [mbind outcome_bind].
    assert (F12 : frame s s2 l).
    { eapply mframe_trans; (eapply frame_sub; [|done]); set_solver. }
    assert (B2 : bytes s2 (m2 :: n) = bytes s (m :: n0 :: n)).
    { rewrite (frame_part _ _ _ _ F2) by set_solver. rewrite !bytes_cons, D1, (frame_part _ _ _ n F1) by set_solver.
      rewrite take_ge, <- app_assoc by lia. done. }
    destruct ((len - k >? 0) && negb (length n =? 0)%nat) eqn:Ec.
    + destruct (IH fuel s2 m2 l (len - k) (space - k) H3) as (s' & m' & n' & len' & E & Hi & F & B & Hl' & Hh & Hx' & Hd1 & Hd2);
        [intros ->; cbn [length Nat.eqb negb] in Ec; by rewrite andb_false_r in Ec|done|unfold space; lia|lia|cbn in Hf; lia|].
      exists s', m', n', len'. split; [done|]. split; [done|]. split; [by eapply mframe_trans|].
      split; [by rewrite B|]. split; [lia|]. split; [congruence|]. split; [done|]. split; intros; [apply Hd1|apply Hd2]; lia.
    + exists s2, m2, n, (len - k). split; [done|]. split; [done|]. split; [done|]. split; [done|]. split; [lia|].
      split; [done|]. split; [done|]. destruct n; [cbn [total foldr] in *; lia|]. cbn [length Nat.eqb negb] in Ec. lia.
  - assert (len - k <= 0) as Hle by lia. assert ((len - k >? 0) = false) as E1 by lia.
    cbn [mbind outcome_bind m_data set_len]. rewrite E1. cbn [andb].
    change (set_data _ _) with (trim_front n0 k). destruct (trim_front_spec s1 n0 _ k H1' Hk) as [H2 D2].
    eexists s1, m2, (trim_front n0 k :: n), (len - k). split; [done|]. split; [reorder H2|].
    split; [eapply frame_sub; [|done]; set_solver|]. split.
    { rewrite !bytes_cons, D1, D2, (F1 n0), (frame_part _ _ _ n F1) by set_solver.
      rewrite <- app_assoc. f_equal. by rewrite (app_assoc (take _ _)), take_drop. }
    split; [lia|]. split; [done|]. split; [done|]. lia.
Qed.

(** The end of a pull-up, with the mbufs freed on failure. *)
Definition pulled (s s' : store) (l : list mbuf) (b : list Z) (h : option pkthdr) (len : Z) (oc : option (list mbuf)) : Prop :=
  frame s s' l /\
  match oc with
  | Some c' => inv s' (c' ++ l) /\ bytes s' c' = b /\ head_hdr c' = h /\ exists m t, c' = m :: t /\ len <= m_len m
  | None => inv s' l
  end.

Lemma pull_into_spec s m n l len :
  inv s (m :: n ++ l) -> n <> [] -> m_ext m = None -> 0 <= len <= MLEN - (m_data m + m_len m) ->
  exists s' oc, pull_into max_protohdr s m n len = Done (s', oc) /\
    pulled s s' l (bytes s (m :: n)) (m_pkthdr m) (m_len m + len) oc /\ (len <= total n -> is_Some oc).
Proof.
  intros H Hne Hx Hlen. unfold pull_into.
  destruct (pull_loop_spec n (S (length n)) s m l len _ H Hne Hx eq_refl Hlen ltac:(lia))
    as (s1 & m1 & n1 & len1 & E & H1 & F1 & B1 & L1 & Hh & _ & Hd1 & Hd2).
  rewrite E. cbn [mbind outcome_bind]. destruct (len1 >? 0) eqn:Ec.
  - destruct (m_free_spec _ nmbufs_int s1 m1 _ H1) as (s2 & E2 & H2 & F2). rewrite E2. cbn [mbind outcome_bind].
    destruct (m_freem_inv _ nmbufs_int n1 s2 l H2) as (s3 & E3 & H3 & F3). rewrite E3. cbn [mbind outcome_bind].
    exists s3, None. split; [done|]. split; [|intros; lia]. split; [|done].
    eapply mframe_trans; [done|]. eapply mframe_trans; [|done]. eapply frame_sub; [|done]. set_solver.
  - exists s1, (Some (m1 :: n1)). split; [done|]. split; [|done]. split; [done|]. split; [done|]. split; [done|].
    split; [done|]. exists m1, n1. split; [done|]. lia.
Qed.

(** The packet header moves to a new mbuf. *)
Lemma move_hdr_spec s m n l type h0 :
  inv s (m :: n :: l) -> fresh type h0 false m -> (m_pkthdr n = None -> h0 = None) ->
  let '(m1, n1) := match m_pkthdr n with Some _ => m_move_pkthdr m n | None => (m, n) end in
  inv s (m1 :: n1 :: l) /\ data s m1 = [] /\ data s n1 = data s n /\ m_pkthdr m1 = m_pkthdr n /\
  m_ext m1 = None /\ m_len m1 = 0 /\ 0 <= m_data m1 <= PKTHDR_SIZE /\ total [n1] = total [n] /\ m_data m1 = M_START m1.
Proof.
  intros H (El & _ & Eh & _ & Ed & Ex) Hh0. pose proof (inv_head _ _ _ H) as Hok.
  assert (Hd : forall x : mbuf, m_len x = 0 -> data s x = []).
  { intros x Ex'. unfold data. rewrite Ex'. destruct (storage s x); [|done]. done. }
  destruct (m_pkthdr n) as [h|] eqn:En.
  2: { rewrite (Hh0 eq_refl) in Eh. split; [done|]. split; [by apply Hd|]. rewrite Ed. unfold M_START. by rewrite Eh, Ex. }
  unfold m_move_pkthdr. rewrite Ex, En. cbn zeta.
  assert (inv s (set_rdonly (set_pkthdr (set_data m PKTHDR_SIZE) (Some h)) (m_rdonly n) :: n :: l)) as H1.
  { eapply inv_update; [done|done|done|]. destruct Hok. constructor; unfold M_START, M_SIZE in *; cbn in *;
      rewrite ?Ex; unfold PKTHDR_SIZE, MHLEN; try done; lia. }
  split.
  { assert (inv s (n :: set_rdonly (set_pkthdr (set_data m PKTHDR_SIZE) (Some h)) (m_rdonly n) :: l)) as H2 by reorder H1.
    assert (inv s (set_pkthdr n None :: set_rdonly (set_pkthdr (set_data m PKTHDR_SIZE) (Some h)) (m_rdonly n) :: l)) as H3.
    { eapply inv_update; [done|done|done|]. destruct (inv_head _ _ _ H2). constructor; unfold M_START, M_SIZE in *; cbn in *;
        rewrite ?En in *; destruct (m_ext n); unfold PKTHDR_SIZE, MHLEN, MLEN in *; try done; lia. }
    reorder H3. }
  split; [by apply Hd|]. do 6 (split; [done|]). unfold M_START. cbn. by rewrite Ex.
Qed.

Lemma m_pullup_spec s c l len :
  inv s (c ++ l) -> c <> [] -> 0 <= len ->
  exists s' oc, m_pullup junk avail nmbufs max_protohdr s c len = Done (s', oc) /\
    pulled s s' l (bytes s c) (head_hdr c) len oc /\
    (len <= total c -> len <= MHLEN -> can_alloc avail nmbufs s = true -> is_Some oc).
Proof.
  intros H Hne Hlen. destruct c as [|n t]; [done|]. clear Hne. unfold m_pullup. cbn [app] in H.
  pose proof (len_small _ (inv_head _ _ _ H)) as [Hln _]. destruct (_ && _ && _) eqn:Eb.
  - apply andb_true_iff in Eb as [[Ex Ed]%andb_true_iff Et].
    destruct (m_len n >=? len) eqn:El.
    { exists s, (Some (n :: t)). split; [done|]. split; [|done]. split; [apply frame_refl|]. split; [done|]. split; [done|].
      split; [done|]. exists n, t. split; [done|]. lia. }
    destruct (pull_into_spec s n t l (len - m_len n) H) as (s' & oc & E & P & Hs); [by intros ->|by destruct (m_ext n)|lia|].
    exists s', oc. split; [done|]. replace (m_len n + (len - m_len n)) with len in P by lia. split; [done|].
    rewrite ctotal_cons. intros. apply Hs. lia.
  - destruct (len >? MHLEN) eqn:Eh.
    { destruct (m_freem_inv _ nmbufs_int (n :: t) s l H) as (s' & E & Hi & F). rewrite E. exists s', None.
      split; [done|]. split; [done|]. lia. }
    destruct (m_get junk avail nmbufs s (m_type n)) as [s1 [m|]] eqn:Eg; pose proof (m_get_spec _ _ _ _ _ _ _ _ H Eg) as G.
    + destruct G as (H1 & F1 & Hfr & _). pose proof (move_hdr_spec s1 m n (t ++ l) _ _ H1 Hfr ltac:(done)) as M.
      destruct (match m_pkthdr n with Some _ => _ | None => _ end) as [m1 n1].
      destruct M as (H2 & D1 & D2 & Hh & Hx & L1 & Hdm & T1 & Hst).
      destruct (pull_into_spec s1 m1 (n1 :: t) l len H2) as (s' & oc & E & [F2 P] & Hs);
        [done|done|unfold MHLEN, MLEN, PKTHDR_SIZE in *; lia|].
      exists s', oc. split; [done|]. split.
      * split; [eapply mframe_trans; [|done]; eapply frame_sub; [|done]; set_solver|].
        rewrite !bytes_cons, D1, D2, app_nil_l, L1, Z.add_0_l, (F1 n), (frame_part _ _ _ t F1), Hh in P by set_solver. exact P.
      * intros. apply Hs. rewrite !ctotal_cons in *. change (total []) with 0 in T1. lia.
    + destruct G as [H1 F1]. destruct (m_freem_inv _ nmbufs_int (n :: t) s1 l H1) as (s' & E & Hi & F). rewrite E.
      exists s', None. split; [done|]. split; [split; [eapply mframe_trans; [|done]; eapply frame_sub; [|done]; set_solver|done]|].
      intros _ _ Ha. unfold m_get in Eg. by rewrite Ha in Eg.
Qed.

Lemma m_copyup_spec s c l len dstoff :
  inv s (c ++ l) -> c <> [] -> 0 <= len -> 0 <= dstoff ->
  exists s' oc, m_copyup junk avail nmbufs max_protohdr s c len dstoff = Done (s', oc) /\
    pulled s s' l (bytes s c) (head_hdr c) len oc /\
    (len <= total c -> len + dstoff <= MHLEN -> can_alloc avail nmbufs s = true -> is_Some oc).
Proof.
  intros H Hne Hlen Hoff. destruct c as [|n t]; [done|]. clear Hne. unfold m_copyup. cbn [app] in H.
  destruct (len >? MHLEN - dstoff) eqn:Eh.
  { destruct (m_freem_inv _ nmbufs_int (n :: t) s l H) as (s' & E & Hi & F). rewrite E. exists s', None.
    split; [done|]. split; [done|]. lia. }
  destruct (m_get junk avail nmbufs s (m_type n)) as [s1 [m|]] eqn:Eg; pose proof (m_get_spec _ _ _ _ _ _ _ _ H Eg) as G.
  - destruct G as (H1 & F1 & Hfr & _). pose proof (move_hdr_spec s1 m n (t ++ l) _ _ H1 Hfr ltac:(done)) as M.
    destruct (match m_pkthdr n with Some _ => _ | None => _ end) as [m1 n1].
    destruct M as (H2 & D1 & D2 & Hh & Hx & L1 & Hdm & T1 & Hst). set (m2 := set_data m1 (m_data m1 + dstoff)).
    assert (inv s1 (m2 :: (n1 :: t) ++ l)) as H3.
    { eapply inv_update; [exact H2|done|done|]. destruct (internal_room _ _ _ H2 Hx) as [_ Hr].
      destruct (inv_head _ _ _ H2). constructor; try done; unfold M_START, M_SIZE, m2 in *; cbn in *; rewrite ?L1;
        unfold MHLEN, MLEN, PKTHDR_SIZE in *; lia. }
    destruct (pull_into_spec s1 m2 (n1 :: t) l len H3) as (s' & oc & E & [F2 P] & Hs);
      [done|done|unfold m2; cbn; unfold MHLEN, MLEN, PKTHDR_SIZE in *; lia|].
    exists s', oc. split; [done|]. split.
    + split; [eapply mframe_trans; [|done]; eapply frame_sub; [|done]; set_solver|].
      assert (data s1 m2 = []) as D3.
      { unfold data, m2. cbn. rewrite L1. by destruct (storage _ _). }
      assert (m_len m2 = 0 /\ m_pkthdr m2 = m_pkthdr n) as [E2 E3] by done.
      rewrite !bytes_cons, D3, D2, app_nil_l, E2, Z.add_0_l, (F1 n), (frame_part _ _ _ t F1), E3 in P by set_solver. exact P.
    + intros. apply Hs. rewrite !ctotal_cons in *. change (total []) with 0 in T1. lia.
  - destruct G as [H1 F1]. destruct (m_freem_inv _ nmbufs_int (n :: t) s1 l H1) as (s' & E & Hi & F). rewrite E.
    exists s', None. split; [done|]. split; [split; [eapply mframe_trans; [|done]; eapply frame_sub; [|done]; set_solver|done]|].
    intros _ _ Ha. unfold m_get in Eg. by rewrite Ha in Eg.
Qed.

(** * Appending *)

Lemma fresh_data s type h x m : fresh type h x m -> data s m = [].
Proof. intros (El & _). unfold data. rewrite El. by destruct (storage s m). Qed.

(** A new mbuf filled with bytes. *)
Lemma fill_spec s m l type h x d :
  inv s (m :: l) -> fresh type h x m -> sole s m -> Z.of_nat (length d) <= M_SIZE m ->
  exists s' m', mwrite s m 0 d = Done (s', m') /\ m' = set_dat m (m_dat m') /\
    inv s' (set_len m' (Z.of_nat (length d)) :: l) /\ frame s s' l /\ data s' (set_len m' (Z.of_nat (length d))) = d.
Proof.
  intros H Hf Hs Hd. pose proof (fresh_data s _ _ _ _ Hf) as Dm. destruct Hf as (El & _ & _ & _ & Ed & _).
  destruct (mwrite_end _ s m l d (Z.of_nat (length d)) H Hs) as (s' & m' & E & Em & H1 & F1 & _ & D1); [lia|lia|].
  rewrite El in E. exists s', m'. split; [done|]. split; [done|]. split; [done|]. split; [done|]. by rewrite D1, Dm.
Qed.

Lemma append_loop_spec fuel : forall s l type cp,
  inv s l -> Z.of_nat (length cp) < 2 ^ 31 -> (length cp <= fuel)%nat ->
  exists s' t r, append_loop junk avail nmbufs fuel s type cp = Done (s', t, r) /\
    inv s' (t ++ l) /\ frame s s' l /\ bytes s' t ++ r = cp.
Proof.
  induction fuel as [|fuel IH]; intros s l type cp H Hlt Hf; (destruct cp as [|b cp];
    [exists s, [], []; split; [done|]; split; [done|]; split; [apply frame_refl|done]|]); [cbn in Hf; lia|].
  cbn [append_loop]. set (cp' := b :: cp) in *. assert (0 < Z.of_nat (length cp')) by (cbn; lia).
  destruct (m_get junk avail nmbufs s type) as [s1 [n|]] eqn:Eg; pose proof (m_get_spec _ _ _ _ _ _ _ _ H Eg) as G.
  2: { destruct G as [H1 F1]. exists s1, [], cp'. done. }
  destruct G as (H1 & F1 & Hfr & _). rewrite umin_small by (unfold MLEN; lia). set (k := Z.min MLEN _).
  assert (0 < k <= Z.of_nat (length cp') /\ k <= MLEN) as [Hk Hk'] by (unfold k, MLEN; lia).
  assert (m_ext n = None /\ m_pkthdr n = None) as [Ex Eh] by (by destruct Hfr as (_ & _ & ? & _ & _ & ?)).
  destruct (fill_spec s1 n l _ _ _ (take (Z.to_nat k) cp') H1 Hfr) as (s2 & n1 & E2 & En1 & H2 & F2 & D2).
  { unfold sole. by rewrite Ex. } { rewrite length_take. unfold M_SIZE. rewrite Ex, Eh. lia. }
  rewrite E2. cbn [mbind outcome_bind]. replace (Z.of_nat (length (take (Z.to_nat k) cp'))) with k in * by (rewrite length_take; lia).
  destruct (IH s2 (set_len n1 k :: l) (m_type n1) (drop (Z.to_nat k) cp') H2) as (s' & t & r & E & Hi & F & B);
    [rewrite length_drop; lia..|].
  rewrite E. cbn [mbind outcome_bind]. exists s', (set_len n1 k :: t), r. split; [done|]. split; [reorder Hi|].
  split; [eapply mframe_trans; [done|]; eapply mframe_trans; [done|]; eapply frame_sub; [|done]; set_solver|].
  rewrite bytes_cons, (F (set_len n1 k)), D2, <- app_assoc, B by left. apply take_drop.
Qed.

Lemma append_last_spec s m l cp :
  inv s (m :: l) -> Z.of_nat (length cp) < 2 ^ 31 ->
  exists s' c' r, append_last junk avail nmbufs s m cp = Done (s', c', r) /\
    inv s' (c' ++ l) /\ frame s s' l /\ (exists d, bytes s' c' = data s m ++ d /\ d ++ r = cp) /\ head_hdr c' = m_pkthdr m /\ c' <> [].
Proof.
  intros H Hlt. unfold append_last, M_TRAILINGSPACE. destruct (writable_done _ _ _ m H) as [w Ew]; [left|]. rewrite Ew.
  cbn [mbind outcome_bind]. set (sp := if (w : bool) then _ else 0).
  pose proof (ok_end _ (inv_head _ _ _ H)) as Hend. pose proof (ok_len _ (inv_head _ _ _ H)) as Hlen.
  destruct (sp >? 0) eqn:Es.
  2: { cbn [mbind outcome_bind]. destruct (append_loop_spec (length cp) s (m :: l) (m_type m) cp H Hlt) as (s' & t & r & E & Hi & F & B); [lia|].
       rewrite E. cbn [mbind outcome_bind]. exists s', (m :: t), r. split; [done|]. split; [reorder Hi|].
       split; [eapply frame_sub; [|done]; set_solver|]. split; [|done]. exists (bytes s' t). split; [|done]. by rewrite bytes_cons, (F m) by left. }
  destruct w; [|done]. assert (sp = M_START m + M_SIZE m - (m_data m + m_len m)) as Esp by done. clearbody sp.
  set (k := if sp >? _ then _ else _).
  assert (0 <= k <= Z.of_nat (length cp) /\ k <= sp) as [Hk Hk'] by (unfold k; destruct (sp >? Z.of_nat (length cp)) eqn:?; lia).
  destruct (mwrite_end _ s m l (take (Z.to_nat k) cp) (m_len m + k) H (writable_sole _ _ _ Ew eq_refl))
    as (s1 & m1 & E1 & Em1 & H1 & F1 & _ & D1); [rewrite length_take; lia|lia|].
  rewrite E1. cbn [mbind outcome_bind].
  destruct (append_loop_spec (length (drop (Z.to_nat k) cp)) s1 (set_len m1 (m_len m + k) :: l) (m_type (set_len m1 (m_len m + k)))
              (drop (Z.to_nat k) cp) H1) as (s' & t & r & E & Hi & F & B); [rewrite length_drop; lia|lia|].
  rewrite E. cbn [mbind outcome_bind]. exists s'. eexists _, r. split; [done|]. split; [reorder Hi|].
  split; [eapply mframe_trans; [done|]; eapply frame_sub; [|done]; set_solver|].
  split; [|split; [|done]; unfold head_hdr; cbn; by rewrite Em1].
  exists (take (Z.to_nat k) cp ++ bytes s' t). rewrite bytes_cons, (F (set_len m1 _)), D1, <- !app_assoc, B, take_drop by left. done.
Qed.

Lemma append_chain_cons s x y c cp :
  append_chain junk avail nmbufs s (x :: y :: c) cp =
  x1 ← append_chain junk avail nmbufs s (y :: c) cp; let '(s1, t1, r) := x1 in Done (s1, x :: t1, r).
Proof. done. Qed.

Lemma append_chain_spec c : forall s l cp,
  inv s (c ++ l) -> c <> [] -> Z.of_nat (length cp) < 2 ^ 31 ->
  exists s' c' r, append_chain junk avail nmbufs s c cp = Done (s', c', r) /\
    inv s' (c' ++ l) /\ frame s s' l /\ (exists d, bytes s' c' = bytes s c ++ d /\ d ++ r = cp) /\ head_hdr c' = head_hdr c /\ c' <> [].
Proof.
  induction c as [|x c IH]; intros s l cp H Hne Hlt; [done|]. destruct c as [|y c].
  { destruct (append_last_spec s x l cp H Hlt) as (s' & c' & r & E & Hi & F & B & Hh). exists s', c', r.
    do 3 (split; [done|]). split; [|done]. by rewrite (bytes_cons s x), bytes_nil, app_nil_r. }
  rewrite append_chain_cons. destruct (IH s (x :: l) cp ltac:(reorder H) ltac:(done) Hlt) as (s' & c' & r & E & Hi & F & (d & B & Hd) & _).
  rewrite E. cbn [mbind outcome_bind]. exists s', (x :: c'), r. split; [done|]. split; [reorder Hi|].
  split; [eapply frame_sub; [|done]; set_solver|]. split; [|done].
  exists d. split; [|done]. rewrite (bytes_cons s' x), (F x), (bytes_cons s x), B, app_assoc by left. done.
Qed.

Lemma m_append_spec s c l cp :
  inv s (c ++ l) -> c <> [] -> hdr_ok c -> total c + Z.of_nat (length cp) < 2 ^ 31 ->
  exists s' c' k, m_append junk avail nmbufs s c cp = Done (s', c', b2z (k =? Z.of_nat (length cp))) /\
    inv s' (c' ++ l) /\ frame s s' l /\ 0 <= k <= Z.of_nat (length cp) /\
    bytes s' c' = bytes s c ++ take (Z.to_nat k) cp /\ hdr_ok c' /\ shape c c'.
Proof.
  intros H Hne Hh Hlt. pose proof (ctotal_nonneg _ _ _ H). unfold m_append.
  destruct (append_chain_spec c s l cp H Hne ltac:(lia)) as (s' & c' & r & E & Hi & F & (d & B & Hd) & Hd' & Hn').
  rewrite E. cbn [mbind outcome_bind]. exists s'. eexists _, (Z.of_nat (length d)).
  assert (length cp = length d + length r)%nat as EL by (by rewrite <- Hd, length_app).
  replace (Z.of_nat (length cp) - Z.of_nat (length r)) with (Z.of_nat (length d)) by lia.
  pose proof (bytes_length _ _ _ Hi) as Hb'. pose proof (bytes_length _ _ _ H) as Hb. rewrite B, length_app in Hb'.
  destruct (on_head_spec s' _ c' l (hdr_fun_add (Z.of_nat (length d))) Hi) as (H2 & B2 & T2). split.
  { do 3 f_equal. destruct r; cbn [length Nat.eqb] in *; symmetry; [apply Z.eqb_eq|apply Z.eqb_neq]; lia. }
  split; [done|]. split; [done|]. split; [lia|]. split; [by rewrite B2, B, Nat2Z.id, <- Hd, take_app_length|].
  apply hdr_ok_cases in Hh. split; [eapply hdr_ok_add; [by rewrite Hd'|..]; lia|].
  eapply mshape_trans; [apply shape_intro; [exact Hd'|done]|apply on_head_shape, hdr_fun_add].
Qed.

(** * Prepending *)

Lemma land_lnot7 x : 0 <= x -> 0 <= Z.land x (Z.lnot 7) <= x.
Proof.
  intros Hx. rewrite <- Z.ldiff_land. change 7 with (Z.ones 3). rewrite Z.ldiff_ones_r by lia.
  rewrite Z.shiftl_mul_pow2, Z.shiftr_div_pow2 by lia. change (2 ^ 3) with 8.
  pose proof (Z.div_pos x 8 Hx). pose proof (Z.mul_div_le x 8 ltac:(lia)). lia.
Qed.

(** Alignment of an empty mbuf for [len] bytes. *)
Lemma align_spec s m l len :
  inv s (m :: l) -> m_len m = 0 -> m_data m = M_START m -> 0 <= len <= M_SIZE m ->
  inv s (m_align m len :: l) /\ m_data (m_align m len) + len <= M_START m + M_SIZE m /\ M_START m <= m_data (m_align m len).
Proof.
  intros H El Ed Hlen. pose proof (land_lnot7 (M_SIZE m - len) ltac:(lia)) as Hl. pose proof (start_nonneg m).
  unfold m_align. set (k := Z.land _ _) in *. clearbody k. cbn [m_data set_data].
  split; [|lia]. eapply inv_update; [done|done|done|]. destruct (inv_head _ _ _ H).
  constructor; try done; unfold M_START, M_SIZE in *; cbn in *; lia.
Qed.

(** [len] bytes of junk in front. *)
Definition prepended (s s' : store) (l : list mbuf) (b : list Z) (h : option pkthdr) (len : Z) (oc : option (list mbuf)) : Prop :=
  frame s s' l /\
  match oc with
  | Some c' => inv s' (c' ++ l) /\ head_hdr c' = h /\ (exists j, bytes s' c' = j ++ b /\ Z.of_nat (length j) = len) /\
               exists m t, c' = m :: t /\ len <= m_len m /\ (0 < len -> sole s' m)
  | None => inv s' l
  end.

Lemma get_any_spec s l n s' om :
  inv s l -> (match m_pkthdr n with Some _ => m_gethdr junk avail nmbufs | None => m_get junk avail nmbufs end) s (m_type n) = (s', om) ->
  exists h0, got nmbufs s s' l (m_type n) h0 false om /\ (m_pkthdr n = None -> h0 = None).
Proof.
  intros H E. destruct (m_pkthdr n); eexists; (split; [first [by eapply m_gethdr_spec|by eapply m_get_spec]|done]).
Qed.

Lemma m_prepend_spec s c l len :
  inv s (c ++ l) -> c <> [] -> 0 <= len <= MHLEN ->
  exists s' oc, m_prepend junk avail nmbufs s c len = Done (s', oc) /\ prepended s s' l (bytes s c) (head_hdr c) len oc.
Proof.
  intros H Hne Hlen. destruct c as [|m t]; [done|]. cbn [app] in H. unfold m_prepend.
  destruct ((match m_pkthdr m with Some _ => m_gethdr junk avail nmbufs | None => m_get junk avail nmbufs end) s (m_type m)) as [s1 [mn|]] eqn:Eg;
    destruct (get_any_spec _ _ _ _ _ H Eg) as (h0 & G & Hh0).
  - destruct G as (H1 & F1 & Hfr & _). pose proof (move_hdr_spec s1 mn m (t ++ l) _ _ H1 Hfr Hh0) as M.
    destruct (match m_pkthdr m with Some _ => m_move_pkthdr mn m | None => (mn, m) end) as [m1 n1].
    destruct M as (H2 & D1 & D2 & Hh & Hx & L1 & Hdm & T1 & Hst).
    assert (MHLEN <= M_SIZE m1 /\ M_START m1 + M_SIZE m1 = MLEN) as [Hsz Hroom].
    { unfold M_SIZE, M_START. rewrite Hx. destruct (m_pkthdr m1); unfold MHLEN, MLEN, PKTHDR_SIZE; lia. }
    set (m2 := if len <? M_SIZE m1 then m_align m1 len else m1).
    assert (inv s1 (m2 :: n1 :: t ++ l) /\ m_data m2 + len <= MLEN /\ M_START m1 <= m_data m2 /\ m_pkthdr m2 = m_pkthdr m1 /\
            m_ext m2 = None /\ m_id m2 = m_id m1) as (H3 & Hend & Hbeg & Eh2 & Ex2 & Ei2).
    { unfold m2. destruct (len <? M_SIZE m1) eqn:El; [|split; [done|]; split; [lia|]; split; [lia|done]].
      destruct (align_spec s1 m1 (n1 :: t ++ l) len H2 L1 Hst) as (Ha & Hb & Hc); [lia|].
      split; [done|]. split; [lia|]. done. }
    assert (inv s1 (set_len m2 len :: n1 :: t ++ l)) as H4.
    { eapply inv_update; [exact H3|done|done|]. destruct (inv_head _ _ _ H3).
      constructor; try done; unfold M_START, M_SIZE in *; cbn in *; rewrite ?Eh2, ?Ex2, ?Hx in *; lia. }
    exists s1, (Some (set_len m2 len :: n1 :: t)). split; [reflexivity|]. split; [eapply frame_sub; [|done]; set_solver|]. split; [exact H4|].
    split; [by unfold head_hdr; cbn; rewrite Eh2, Hh|]. split; [|eexists _, _; split; [done|]; split; [cbn; lia|]; intros _; unfold sole; cbn; by rewrite Ex2].
    exists (data s1 (set_len m2 len)). rewrite !bytes_cons, D2, (F1 m), (frame_part _ _ _ t F1) by set_solver.
    split; [done|]. by rewrite (head_length _ _ _ H4).
  - destruct G as [H1 F1]. destruct (m_freem_inv _ nmbufs_int (m :: t) s1 l H1) as (s' & E & Hi & F). rewrite E.
    exists s', None. split; [done|]. split; [|done]. eapply mframe_trans; [|done]. eapply frame_sub; [|done]. set_solver.
Qed.

Lemma M_PREPEND_spec s c l len :
  inv s (c ++ l) -> c <> [] -> 0 <= len <= MHLEN -> hdr_ok c -> total c + len < 2 ^ 31 ->
  exists s' oc, M_PREPEND junk avail nmbufs s c len = Done (s', oc) /\
    match oc with
    | Some c' => inv s' (c' ++ l) /\ frame s s' l /\ hdr_ok c' /\ shape c c' /\
                 (exists j, bytes s' c' = j ++ bytes s c /\ Z.of_nat (length j) = len) /\
                 exists m t, c' = m :: t /\ len <= m_len m /\ (0 < len -> sole s' m)
    | None => inv s' l /\ frame s s' l
    end.
Proof.
  intros H Hne Hlen Hh Ht. pose proof (bytes_length _ _ _ H) as Hbl. destruct c as [|m t]; [done|]. unfold M_PREPEND, M_LEADINGSPACE.
  destruct (writable_done _ _ _ m H) as [w Ew]; [left|]. rewrite Ew. cbn [mbind outcome_bind].
  assert (exists s1 oc, (if (if w then m_data m - M_START m else 0) >=? len
                         then Done (s, Some (set_len (set_data m (m_data m - len)) (m_len m + len) :: t))
                         else m_prepend junk avail nmbufs s (m :: t) len) = Done (s1, oc) /\
                        prepended s s1 l (bytes s (m :: t)) (head_hdr (m :: t)) len oc) as (s1 & oc & E & F & P).
  { destruct (_ >=? len) eqn:Es; [|by apply m_prepend_spec].
    exists s. eexists. split; [done|]. split; [apply frame_refl|]. set (m2 := set_len _ _).
    assert (len <= m_data m - M_START m) as Hle.
    { pose proof (ok_start _ (inv_head _ _ _ H)). destruct w; lia. }
    assert (inv s (m2 :: t ++ l)) as H2.
    { eapply inv_update; [exact H|done|done|]. destruct (inv_head _ _ _ H).
      constructor; try done; unfold M_START, M_SIZE, m2 in *; cbn in *; lia. }
    split; [done|]. split; [done|]. split; [|eexists _, _; split; [done|]; split; [cbn; pose proof (ok_len _ (inv_head _ _ _ H)); lia|];
      intros Hpos; assert (sole s m) as Hsm by (destruct w; [by eapply writable_sole|lia]); exact Hsm].
    destruct (trim_front_spec s m2 _ len H2) as [_ D]; [cbn; pose proof (ok_len _ (inv_head _ _ _ H)); lia|].
    assert (trim_front m2 len = m) as Etf.
    { unfold trim_front, m2. destruct m. cbn. unfold set_data, set_len. cbn. f_equal; lia. }
    rewrite Etf in D. exists (take (Z.to_nat len) (data s m2)). rewrite !bytes_cons, D. split.
    - by rewrite app_assoc, take_drop.
    - rewrite length_take. pose proof (head_length _ _ _ H2) as Hl2. cbn [m_len m2 set_len] in Hl2.
      pose proof (ok_len _ (inv_head _ _ _ H)). lia. }
  rewrite E. cbn [mbind outcome_bind]. eexists s1, _. split; [done|]. destruct oc as [c'|]; cbn [option_map]; [|done].
  destruct P as (H1 & Hd & (j & B & Lj) & (m' & t' & -> & Hl' & Hsl)).
  destruct (on_head_spec s1 _ (m' :: t') l (hdr_fun_add len) H1) as (H2 & B2 & T2). split; [done|]. split; [done|].
  pose proof (bytes_length _ _ _ H1) as Hb1. rewrite B, length_app in Hb1. split.
  - apply hdr_ok_cases in Hh. eapply hdr_ok_add; [by rewrite Hd|..]; lia.
  - split; [eapply mshape_trans; [apply shape_intro; [exact Hd|done]|apply on_head_shape, hdr_fun_add]|].
    split; [exists j; by rewrite B2|]. by eexists _, _.
Qed.

(** * Splitting *)

(** Only the first mbuf of a chain has a packet header. *)
Definition hdr_first (c : list mbuf) : Prop := Forall (fun m => m_pkthdr m = None) (tail c).

Lemma u32_int x : 0 <= x < 2 ^ 31 -> u32 x = x.
Proof. intros H. apply wrapu_small. split; [lia|]. apply (Z.lt_trans _ (2 ^ 31)); [lia|done]. Qed.

Lemma split_find_spec c : forall s l len,
  inv s (c ++ l) -> 0 <= len < 2 ^ 31 ->
  match split_find c len with
  | Some (pre, m, post, len') => c = pre ++ m :: post /\ len' = len - total pre /\ 0 <= len' <= m_len m
  | None => total c < len \/ c = []
  end.
Proof.
  induction c as [|x c IH]; intros s l len H Hlen; cbn [split_find]; [by right|].
  pose proof (len_small _ (inv_head _ _ _ H)) as [Hl _]. rewrite u32_int by lia.
  destruct (len >? m_len x) eqn:E.
  - rewrite u32_int by lia. specialize (IH s (x :: l) (len - m_len x) ltac:(reorder H) ltac:(lia)).
    destruct (split_find c (len - m_len x)) as [[[[pre m] post] len']|].
    + destruct IH as (-> & -> & Hl'). split; [done|]. rewrite ctotal_cons. lia.
    + left. rewrite ctotal_cons. destruct IH as [?| ->]; [lia|]. change (total []) with 0. lia.
  - split; [done|]. change (total []) with 0. lia.
Qed.

Lemma split_data_spec s n p m l post len :
  inv s (n :: m :: l) -> m_len n = 0 -> m_ext n = None -> 0 <= len <= m_len m ->
  (m_ext m = None -> inv s (set_data n p :: m :: l) /\ p + (m_len m - len) <= M_START n + M_SIZE n) ->
  exists s' m1 n1, split_data s (set_data n p) m post len (m_len m - len) = Done (s', m1, n1 :: post) /\
    inv s' (m1 :: n1 :: l) /\ frame s s' l /\ data s' m1 = take (Z.to_nat len) (data s m) /\
    data s' n1 = drop (Z.to_nat len) (data s m) /\ m_pkthdr n1 = m_pkthdr n /\ m_pkthdr m1 = m_pkthdr m /\
    m_len m1 = len /\ m_len n1 = m_len m - len.
Proof.
  intros H El Ex Hlen Hroom. unfold split_data. assert (inv s (m :: n :: l)) as Hm by reorder H.
  pose proof (len_small _ (inv_head _ _ _ Hm)) as [Hlm Hdm]. pose proof (head_length _ _ _ Hm) as Hdl.
  assert (exists s1 n0, match m_ext m with
      | Some _ => mb_dupcl s (set_data (set_data n p) (m_data m + len)) m
      | None => d ← mread s m len (m_len m - len); mwrite s (set_data n p) 0 d end = Done (s1, n0) /\
      inv s1 (set_len n0 (m_len m - len) :: m :: l) /\ frame s s1 (m :: l) /\
      data s1 (set_len n0 (m_len m - len)) = drop (Z.to_nat len) (data s m) /\ m_pkthdr n0 = m_pkthdr n) as (s1 & n0 & E & H1 & F1 & D1 & Hh1).
  { destruct (m_ext m) as [e|] eqn:Ee.
    - destruct (mb_dupcl_spec _ nmbufs_int s n (set_data (set_data n p) (m_data m + len)) m e (m :: l) H ltac:(left) Ee eq_refl Ex) as (s1 & E & H1 & F1 & St).
      { destruct (inv_head _ _ _ Hm), (inv_head _ _ _ H). constructor; try done; unfold M_START, M_SIZE in *; cbn in *; rewrite ?Ee in *; lia. }
      eexists s1, _. split; [exact E|]. split.
      { eapply inv_update; [exact H1|done|done|]. destruct (inv_head _ _ _ Hm), (inv_head _ _ _ H).
        constructor; try done; unfold M_START, M_SIZE in *; cbn in *; rewrite ?Ee in *; lia. }
      split; [done|]. split; [|done]. destruct (trim_front_spec s m (n :: l) len Hm Hlen) as [_ <-].
      unfold data. change (storage s1 (set_len ?x _)) with (storage s1 x).
      change (storage s (trim_front m len)) with (storage s m). cbn [m_data m_len set_len trim_front set_data set_rdonly set_ext] in *. by rewrite St.
    - rewrite (mread_ok _ _ _ m len (m_len m - len) H) by (set_solver || lia). cbn [mbind outcome_bind].
      rewrite take_ge by (rewrite length_drop; lia). specialize (Hroom eq_refl) as [Hp Hroom].
      destruct (mwrite_end _ s (set_data n p) (m :: l) (drop (Z.to_nat len) (data s m)) (m_len m - len) Hp) as (s1 & n1 & E & En & H1 & F1 & _ & D1);
        [by unfold sole; cbn; rewrite Ex|rewrite length_drop; cbn; lia|cbn; exact Hroom|].
      cbn [m_len set_data] in E. rewrite El in E. exists s1, n1. split; [done|]. split; [done|]. split; [done|]. split; [|by rewrite En].
      rewrite D1. unfold data at 1. cbn [m_len set_data m_data]. rewrite El. by destruct (storage s _). }
  rewrite E. cbn [mbind outcome_bind]. assert (inv s1 (m :: set_len n0 (m_len m - len) :: l)) as H2 by reorder H1.
  destruct (set_len_spec s1 m _ len H2 Hlen) as [H3 D3]. eexists s1, _, _. split; [done|]. split; [done|].
  split; [eapply frame_sub; [|done]; set_solver|]. split; [by rewrite D3, (F1 m) by left|]. done.
Qed.

(** The two parts. *)
Definition parts (s s' : store) (c c1 c2 : list mbuf) (len0 : Z) : Prop :=
  bytes s' c1 = take (Z.to_nat len0) (bytes s c) /\ bytes s' c2 = drop (Z.to_nat len0) (bytes s c) /\ total c1 = len0.

Lemma parts_intro s s' pre m post m1 c2 l len0 len :
  inv s (pre ++ m :: post ++ l) -> len = len0 - total pre -> 0 <= len <= m_len m ->
  bytes s' pre = bytes s pre -> data s' m1 = take (Z.to_nat len) (data s m) -> m_len m1 = len ->
  bytes s' c2 = drop (Z.to_nat len) (data s m) ++ bytes s post -> 
  forall pre' , bytes s' pre' = bytes s' pre -> total pre' = total pre -> 
  parts s s' (pre ++ m :: post) (pre' ++ [m1]) c2 len0.
Proof.
  intros H -> Hlen Bp Dm Lm Bc pre' Bp' Tp'. pose proof (bytes_length pre s (m :: post ++ l) H) as Hbp.
  pose proof (mdata_length _ _ _ m H ltac:(set_solver)) as Hdl. pose proof (ctotal_nonneg _ _ _ H).
  unfold parts. rewrite !bytes_app, bytes_cons, bytes_nil, bytes_cons, app_nil_r, Bp', Bp, Dm, Bc, ctotal_app, Tp'.
  rewrite take_app_ge, drop_app_ge by lia.
  replace (Z.to_nat len0 - length (bytes s pre))%nat with (Z.to_nat (len0 - total pre)) by lia.
  rewrite take_app_le, drop_app_le by lia. split; [done|]. split; [done|]. rewrite ctotal_cons, Lm. change (total []) with 0. lia.
Qed.

Lemma head_default pre m post : m_pkthdr (default m (hd_error pre)) = head_hdr (pre ++ m :: post).
Proof. by destruct pre. Qed.

Lemma head_snoc pre m m1 : m_pkthdr m1 = m_pkthdr m -> head_hdr (pre ++ [m1]) = head_hdr (pre ++ [m]).
Proof. by destruct pre. Qed.

Lemma head_last pre m post : head_hdr (pre ++ [m]) = head_hdr (pre ++ m :: post).
Proof. by destruct pre. Qed.

(** Enough room in a new mbuf for the rest of an internal one. *)
Lemma internal_len s m l : inv s (m :: l) -> m_ext m = None -> m_len m <= (match m_pkthdr m with Some _ => MHLEN | None => MLEN end).
Proof.
  intros H Ex. destruct (inv_head _ _ _ H). unfold M_START, M_SIZE in *. rewrite Ex in *.
  destruct (m_pkthdr m); unfold MHLEN, MLEN, PKTHDR_SIZE in *; lia.
Qed.

Lemma m_split_plain f s c l len0 :
  inv s (c ++ l) -> head_hdr c = None -> 0 <= len0 <= total c -> c <> [] -> total c < 2 ^ 31 ->
  exists s' c1 c2, m_split junk avail nmbufs (S f) s c len0 = Done (s', c1, c2) /\
    inv s' (c1 ++ c2 ++ l) /\ frame s s' l /\ head_hdr c1 = None /\ (hdr_first c -> head_hdr c2 = None) /\
    (parts s s' c c1 c2 len0 \/ (c2 = [] /\ c1 = c /\ bytes s' c1 = bytes s c /\ can_alloc avail nmbufs s = false)).
Proof.
  intros H Hh Hlen Hne Ht. cbn [m_split]. rewrite u32_int by lia.
  pose proof (split_find_spec c s l len0 H ltac:(lia)) as HF.
  destruct (split_find c len0) as [[[[pre m] post] len]|]; [|destruct HF; [lia|done]].
  destruct HF as (-> & -> & Hl). rewrite <- app_assoc in H. cbn [app] in H. set (len := len0 - total pre) in *.
  rewrite head_default with (post := post), Hh.
  assert (inv s (m :: pre ++ post ++ l)) as Hm by reorder H. pose proof (len_small _ (inv_head _ _ _ Hm)) as [Hlm _].
  rewrite u32_int by lia. pose proof (head_length _ _ _ Hm) as Hdl.
  assert (Hf2 : hdr_first (pre ++ m :: post) -> head_hdr post = None).
  { intros Hf. assert (Forall (fun m => m_pkthdr m = None) post) as Hp.
    { unfold hdr_first in Hf. destruct pre; cbn in Hf; [done|]. by apply Forall_app in Hf as [_ [_ ?]%Forall_cons]. }
    destruct post as [|p post]; [done|]. by apply Forall_cons in Hp as [? _]. }
  destruct (m_len m - len =? 0) eqn:E0.
  { exists s, (pre ++ [m]), post. split; [done|]. split; [reorder H|]. split; [apply frame_refl|].
    split; [by rewrite head_last with (post := post)|]. split; [done|]. left.
    eapply (parts_intro s s pre m post m post l len0 len); try done; [by rewrite take_ge by lia|lia|by rewrite drop_ge by lia]. }
  destruct (m_get junk avail nmbufs s (m_type m)) as [s1 [n|]] eqn:Eg; pose proof (m_get_spec _ _ _ _ _ _ _ _ H Eg) as G.
  2: { destruct G as [H1 F1]. exists s1, (pre ++ m :: post), []. split; [done|]. split; [reorder H1|].
       split; [eapply frame_sub; [|done]; set_solver|]. split; [done|]. split; [done|]. right. split; [done|]. split; [done|].
       split; [apply (frame_part _ _ _ _ F1); set_solver|]. unfold m_get in Eg. by destruct (can_alloc avail nmbufs s). }
  destruct G as (H1 & F1 & (El & _ & Eh & _ & Ed & Ex) & _).
  assert (M_SIZE n = MLEN) as Esz by (unfold M_SIZE; by rewrite Ex, Eh).
  assert (inv s1 (n :: m :: pre ++ post ++ l)) as H1' by reorder H1.
  destruct (split_data_spec s1 n (m_data (m_align n (m_len m - len))) m (pre ++ post ++ l) post len H1' El Ex Hl)
    as (s2 & m1 & n1 & E2 & H2 & F2 & D2 & Dn2 & Hh2 & Hm2 & Lm & Ln).
  { intros Exm. pose proof (internal_len _ _ _ Hm Exm) as Hil.
    assert (m_len m - len <= MLEN) by (destruct (m_pkthdr m); unfold MHLEN, MLEN in *; lia).
    destruct (align_spec s1 n _ (m_len m - len) H1' El Ed) as (Ha & Hb & Hc); [lia|]. split; [exact Ha|]. lia. }
  change (m_align n (m_len m - len)) with (set_data n (m_data (m_align n (m_len m - len)))). rewrite E2. cbn [mbind outcome_bind].
  exists s2, (pre ++ [m1]), (n1 :: post). split; [done|]. split; [reorder H2|].
  split; [eapply mframe_trans; (eapply frame_sub; [|done]); set_solver|].
  split; [by rewrite (head_snoc pre m), head_last with (post := post)|]. split; [intros _; unfold head_hdr; cbn; congruence|]. left.
  assert (Fm : data s1 m = data s m) by (apply F1; set_solver).
  eapply (parts_intro s s2 pre m post m1 (n1 :: post) l len0 len); try done.
  - rewrite (frame_part _ _ _ pre F2), (frame_part _ _ _ pre F1) by set_solver. done.
  - by rewrite D2, Fm.
  - rewrite bytes_cons, Dn2, Fm, (frame_part _ _ _ post F2), (frame_part _ _ _ post F1) by set_solver. done.
Qed.

Lemma split_hdr_spec pre m len0 pre' m' :
  split_hdr pre m len0 = (pre', m') ->
  (forall post, pre' ++ m' :: post = on_head (fun x => hdr_set x len0) (pre ++ m :: post)) /\
  (forall s, bytes s pre' = bytes s pre /\ data s m' = data s m) /\ total pre' = total pre /\
  m_len m' = m_len m /\ m_ext m' = m_ext m /\ (pre <> [] -> m' = m).
Proof. destruct pre as [|x pre]; cbn; intros [= <- <-]; done. Qed.

Lemma hdr_ok_head c h n : head_hdr c = Some h -> ph_len h = n -> total c = n -> hdr_ok c.
Proof. intros E El Et. unfold hdr_ok. rewrite E. lia. Qed.

Lemma hdr_ok_cons m c n : m_pkthdr m = Some n -> ph_len n = m_len m + total c -> hdr_ok (m :: c).
Proof. intros E El. by apply (hdr_ok_head (m :: c) n _ E El). Qed.

Lemma on_head_set_hdr c h n : head_hdr c = Some h -> head_hdr (on_head (fun x => hdr_set x n) c) = Some (Pkthdr n (ph_rcvif h)).
Proof. destruct c as [|m c]; [done|]. unfold head_hdr. cbn. by intros ->. Qed.

(** The second part is NULL and the chain keeps its bytes when an allocation
    fails; its header length may be the one of the first part all the same. *)
Definition split_failed (s s' : store) (c c1 c2 : list mbuf) (len0 : Z) : Prop :=
  c2 = [] /\ bytes s' c1 = bytes s c /\ exists h', head_hdr c1 = Some h' /\ (ph_len h' = total c \/ ph_len h' = len0).

Lemma m_split_spec s c l len0 h :
  inv s (c ++ l) -> head_hdr c = Some h -> ph_len h = total c -> 0 <= len0 <= total c -> total c < 2 ^ 31 ->
  exists s' c1 c2, m_split junk avail nmbufs 2 s c len0 = Done (s', c1, c2) /\
    inv s' (c1 ++ c2 ++ l) /\ frame s s' l /\
    ((parts s s' c c1 c2 len0 /\ hdr_ok c1 /\ hdr_ok c2 /\ has_hdr c1 = true /\ has_hdr c2 = true) \/
     split_failed s s' c c1 c2 len0).
Proof.
  intros H Hh Hok Hlen Ht. assert (c <> []) as Hne by (by intros ->).
  remember 1%nat as one. cbn [m_split]. rewrite u32_int by lia.
  pose proof (split_find_spec c s l len0 H ltac:(lia)) as HF.
  destruct (split_find c len0) as [[[[pre m] post] len]|]; [|destruct HF; [lia|done]].
  destruct HF as (-> & Elen & Hl). rewrite head_default with (post := post), Hh.
  assert (inv s (m :: pre ++ post ++ l)) as Hm by reorder H. pose proof (len_small _ (inv_head _ _ _ Hm)) as [Hlm _].
  rewrite u32_int by lia. rewrite ctotal_app, ctotal_cons in Hok, Ht, Hlen.
  destruct (m_gethdr junk avail nmbufs s _) as [s1 [n|]] eqn:Eg; pose proof (m_gethdr_spec _ _ _ _ _ _ _ _ H Eg) as G.
  2: { destruct G as [H1 F1]. exists s1, (pre ++ m :: post), []. split; [done|]. split; [reorder H1|].
       split; [eapply frame_sub; [|done]; set_solver|]. right. split; [done|]. split; [apply (frame_part _ _ _ _ F1); set_solver|]. exists h. split; [done|]. left. by rewrite Hok, ctotal_app, ctotal_cons. }
  destruct G as (H1 & F1 & (El & _ & Eh & _ & Ed & Ex) & _). set (n' := set_pkthdr n _).
  destruct (split_hdr pre m len0) as [pre' m'] eqn:Esh. destruct (split_hdr_spec _ _ _ _ _ Esh) as (Ec & Bs & Tp & Lm' & Xm' & Hpm).
  assert (inv s1 (n' :: pre' ++ m' :: post ++ l)) as H2.
  { destruct (set_hdr_spec s1 n _ (Some (Pkthdr (s32 (ph_len h - len0)) (ph_rcvif h))) H1) as [Ha _]; [by rewrite Eh|].
    assert (inv s1 ((pre ++ m :: post) ++ n' :: l)) as Hb by reorder Ha.
    destruct (on_head_spec s1 _ _ _ (hdr_fun_set len0) Hb) as [Hc _]. rewrite <- Ec, <- app_assoc in Hc. cbn [app] in Hc. reorder Hc. }
  assert (Hhd : head_hdr (pre' ++ m' :: post) = Some (Pkthdr len0 (ph_rcvif h))) by (rewrite Ec; by apply on_head_set_hdr).
  assert (Hh1 : forall m1, m_pkthdr m1 = m_pkthdr m' -> head_hdr (pre' ++ [m1]) = Some (Pkthdr len0 (ph_rcvif h))).
  { intros m1 Em1. by rewrite (head_snoc pre' m'), head_last with (post := post). }
  assert (Hok1 : forall m1, m_pkthdr m1 = m_pkthdr m' -> total (pre' ++ [m1]) = len0 -> hdr_ok (pre' ++ [m1]) /\ has_hdr (pre' ++ [m1]) = true).
  { intros m1 Em1 Et. split; [by eapply (hdr_ok_head _ (Pkthdr len0 (ph_rcvif h))); [apply Hh1|..]|]. unfold has_hdr. by rewrite Hh1. }
  assert (Hpre : bytes s1 pre' = bytes s pre) by (rewrite (proj1 (Bs s1)); apply (frame_part _ _ _ _ F1); set_solver).
  assert (Hdm : data s1 m' = data s m) by (rewrite (proj2 (Bs s1)); apply F1; set_solver).
  assert (Hpost : bytes s1 post = bytes s post) by (apply (frame_part _ _ _ _ F1); set_solver).
  assert (Hhn : s32 (ph_len h - len0) = m_len m - len + total post) by (rewrite s32_small by lia; lia).
  rewrite <- app_assoc in H. cbn [app] in H. pose proof (head_length _ _ _ Hm) as Hdl.
  assert (FL : frame s s1 l) by (eapply frame_sub; [|exact F1]; set_solver).
  destruct (m_len m - len =? 0) eqn:E0.
  { exists s1, (pre' ++ [m']), (n' :: post). split; [done|]. split; [reorder H2|]. split; [done|]. left.
    assert (parts s s1 (pre ++ m :: post) (pre' ++ [m']) (n' :: post) len0) as P.
    { eapply (parts_intro s s1 pre m post m' (n' :: post) l len0 len); try done; [rewrite <- Hpre; symmetry; apply Bs|..|apply Bs].
      - by rewrite Hdm, take_ge by lia.
      - lia.
      - rewrite bytes_cons, Hpost, drop_ge by lia. unfold data. cbn. rewrite El. by destruct (storage s1 _). }
    destruct (Hok1 m' eq_refl) as [O1 O2]; [apply P|]. split; [done|]. split; [done|].
    split; [eapply hdr_ok_cons; [done|]; cbn [ph_len n' m_len set_pkthdr]; lia|done]. }
  destruct (match m_ext m' with None => m_len m - len >? MHLEN | Some _ => false end) eqn:Eb.
  - assert (pre <> []) as Hpn.
    { intros ->. rewrite Xm' in Eb. destruct (m_ext m) eqn:Exm; [done|]. pose proof (internal_len _ _ _ Hm Exm) as Hil.
      unfold head_hdr in Hh. cbn in Hh. rewrite Hh in Hil. change (total []) with 0 in *. lia. }
    rewrite (Hpm Hpn) in *. assert (m_pkthdr m = None) as Hmn.
    { destruct (m_ext m) eqn:Exm; [done|]. pose proof (internal_len _ _ _ Hm Exm) as Hil. destruct (m_pkthdr m); [lia|done]. }
    pose proof (ctotal_nonneg s1 post (n' :: pre' ++ m :: l) ltac:(reorder H2)) as Htp. subst one.
    pose proof (ctotal_nonneg s1 pre' (n' :: m :: post ++ l) ltac:(reorder H2)) as Htpre.
    destruct (m_split_plain 0 s1 (m :: post) (n' :: pre' ++ l) len ltac:(reorder H2) Hmn) as
      (s2 & c1 & c2 & E2 & H3 & F3 & _ & _ & P); [rewrite ctotal_cons; lia|done|rewrite ctotal_cons; lia|].
    rewrite E2. cbn [mbind outcome_bind].
    assert (Bpre : bytes s2 pre' = bytes s pre) by (rewrite (frame_part _ _ _ pre' F3) by set_solver; done).
    assert (FL2 : frame s s2 l) by (eapply mframe_trans; [done|]; eapply frame_sub; [|done]; set_solver).
    destruct P as [(P1 & P2 & P3)|(-> & -> & PB & _)].
    + rewrite bytes_cons, Hdm, Hpost, take_app_le in P1 by lia. rewrite bytes_cons, Hdm, Hpost, drop_app_le in P2 by lia.
      assert (c2 <> []) as Hc2.
      { intros ->. rewrite bytes_nil in P2. apply (f_equal length) in P2. rewrite length_app, length_drop in P2. cbn in P2. lia. }
      destruct c2 as [|x c2]; [done|]. exists s2, (pre' ++ c1). eexists. split; [done|].
      assert (inv s2 (n' :: pre' ++ c1 ++ (x :: c2) ++ l)) as H4 by reorder H3.
      assert (M_START n' = M_START n) as Esn by (unfold M_START; cbn; by rewrite Ex, Eh).
      destruct (align_spec s2 n' _ 0 H4 El ltac:(by rewrite Esn)) as (Ha & _ & _).
      { pose proof (size_small _ (inv_head _ _ _ H4)). unfold M_SIZE. cbn. rewrite Ex. unfold MHLEN. lia. }
      destruct (set_len_spec s2 (m_align n' 0) _ 0 Ha) as [H5 D5]; [cbn; lia|].
      split; [reorder H5|]. split; [done|]. left. assert (total (pre' ++ c1) = len0) as Et by (rewrite ctotal_app; lia). split.
      { unfold parts. rewrite !bytes_app, (bytes_cons s2 (set_len _ _)), P1, P2, Bpre, D5. change (Z.to_nat 0) with 0%nat. rewrite take_0, app_nil_l.
        pose proof (bytes_length pre s (m :: post ++ l) H) as Hbp.
        rewrite bytes_cons. rewrite take_app_ge, drop_app_ge by lia. split; [|split; [|done]].
        - f_equal. rewrite take_app_le by lia. f_equal. lia.
        - rewrite drop_app_le by lia. f_equal. f_equal. lia. }
      assert (head_hdr (pre' ++ c1) = Some (Pkthdr len0 (ph_rcvif h))) as Hhc by (rewrite <- Hhd; by destruct pre'; [destruct pre|]).
      split; [by eapply (hdr_ok_head _ (Pkthdr len0 (ph_rcvif h)))|]. split; [|split; [unfold has_hdr; by rewrite Hhc|done]].
      * eapply hdr_ok_cons; [done|]. cbn [ph_len m_len set_len].
        pose proof (bytes_length (x :: c2) s2 (n' :: pre' ++ c1 ++ l) ltac:(reorder H4)) as Hbl.
        rewrite P2, length_app, length_drop in Hbl. pose proof (bytes_length post s (m :: pre ++ l) ltac:(reorder H)). lia.
    + destruct (m_free_spec _ nmbufs_int s2 n' (pre' ++ (m :: post) ++ l)) as (s3 & E3 & H4 & F4); [reorder H3|].
      rewrite E3. cbn [mbind outcome_bind]. exists s3, (pre' ++ m :: post), []. split; [done|]. split; [reorder H4|].
      split; [eapply mframe_trans; [done|]; eapply frame_sub; [|done]; set_solver|]. right. split; [done|].
      split; [|exists (Pkthdr len0 (ph_rcvif h)); split; [done|by right]].
      rewrite (frame_part _ _ _ _ F4) by set_solver. rewrite bytes_app, Bpre, PB, bytes_app, !bytes_cons, Hdm, Hpost. done.
  - set (p := match m_ext m' with None => m_data (m_align n' (m_len m - len)) | Some _ => m_data n' end).
    assert ((match m_ext m' with None => m_align n' (m_len m - len) | Some _ => n' end) = set_data n' p) as Ep
      by (unfold p; by destruct (m_ext m')).
    rewrite Ep. assert (inv s1 (n' :: m' :: pre' ++ post ++ l)) as H3 by reorder H2.
    assert (M_START n' = M_START n /\ M_SIZE n' = MHLEN) as [Esn Esz] by (unfold M_START, M_SIZE; cbn; by rewrite Ex, Eh).
    rewrite <- Lm'. rewrite <- Lm' in Hl.
    destruct (split_data_spec s1 n' p m' (pre' ++ post ++ l) post len H3 El Ex Hl)
      as (s2 & m1 & n1 & E2 & H4 & F4 & D4 & Dn4 & Hhn1 & Hhm1 & Lm1 & Ln1).
    { unfold p. intros Exm. rewrite Exm in *. rewrite Lm'.
      destruct (align_spec s1 n' _ (m_len m - len) H3 El ltac:(by rewrite Esn)) as (Ha & Hb & Hc); [rewrite Esz; lia|].
      split; [exact Ha|done]. }
    rewrite E2. cbn [mbind outcome_bind]. exists s2, (pre' ++ [m1]), (n1 :: post). split; [done|]. split; [reorder H4|].
    split; [eapply mframe_trans; [done|]; eapply frame_sub; [|done]; set_solver|]. left.
    assert (parts s s2 (pre ++ m :: post) (pre' ++ [m1]) (n1 :: post) len0) as P.
    { rewrite Lm' in Hl. eapply (parts_intro s s2 pre m post m1 (n1 :: post) l len0 len); try done.
      - rewrite <- (proj1 (Bs s2)), (frame_part _ _ _ pre' F4) by set_solver. done.
      - by rewrite D4, Hdm.
      - rewrite bytes_cons, Dn4, Hdm, (frame_part _ _ _ post F4), Hpost by set_solver. done.
      - apply Bs. }
    destruct (Hok1 m1 Hhm1) as [O1 O2]; [apply P|]. split; [done|]. split; [done|].
    split; [eapply hdr_ok_cons; [by rewrite Hhn1|]; cbn [ph_len]; lia|]. split; [done|]. unfold has_hdr, head_hdr. cbn. by rewrite Hhn1.
Qed.
End Ops.
