(* ===== verification/MbufCopy.v ===== *)
(** Copies of mbuf chains (Mbuf.v): m_copydata, m_apply and m_getptr read the
    right bytes; m_copym shares external storage and m_dup copies it, and both
    leave the source and every other chain as they were. *)
From stdpp Require Import base list gmap.
From Stdlib Require Import ZArith Lia.
From S2P Require Import Prelude Mbuf MbufInv MbufOps.

Local Open Scope Z_scope.

Section Copy.
Context (junk : Z -> Z -> Z) (avail : Z -> bool) (nmbufs : Z).
Context (nmbufs_int : nmbufs < 2 ^ 31).
#[local] Abbreviation inv := (inv nmbufs).

Ltac reorder H := refine (proj1 (inv_perm nmbufs _ _ _ _) H); solve_Permutation.

(** * Reading *)

(** The part of a chain at an offset. *)
Lemma m_skip_spec c : forall s l off,
  inv s (c ++ l) -> 0 <= off <= total c ->
  exists pre c1 off1, m_skip c off = Done (c1, off1) /\ c = pre ++ c1 /\ off = total pre + off1 /\ 0 <= off1 /\
    (off1 = 0 \/ exists m t, c1 = m :: t /\ off1 < m_len m) /\ (off = 0 -> pre = []).
Proof.
  induction c as [|m c IH]; intros s l off H Hoff.
  { change (total []) with 0 in Hoff. assert (off = 0) as -> by lia. exists [], [], 0. do 4 (split; [done|]). split; [by left|done]. }
  cbn [m_skip]. destruct (off >? 0) eqn:E0.
  2: { assert (off = 0) as -> by lia. exists [], (m :: c), 0. do 4 (split; [done|]). split; [by left|done]. }
  destruct (off <? m_len m) eqn:E1.
  { exists [], (m :: c), off. split; [done|]. split; [done|]. split; [done|]. split; [lia|]. split; [|done].
    right. exists m, c. split; [done|lia]. }
  rewrite ctotal_cons in Hoff.
  destruct (IH s (m :: l) (off - m_len m) ltac:(reorder H) ltac:(lia)) as (pre & c1 & off1 & E & -> & Eo & Hp & Hd & _).
  exists (m :: pre), c1, off1. split; [done|]. split; [done|]. rewrite ctotal_cons. split; [lia|]. split; [done|]. split; [done|lia].
Qed.

(** The bytes at an offset, in terms of the part. *)
Lemma drop_part s pre c1 l off off1 :
  inv s (pre ++ c1 ++ l) -> off = total pre + off1 -> 0 <= off1 ->
  drop (Z.to_nat off) (bytes s (pre ++ c1)) = drop (Z.to_nat off1) (bytes s c1).
Proof.
  intros H -> Ho. pose proof (bytes_length _ pre s _ H) as Hb. rewrite bytes_app, drop_app_ge by lia. f_equal. lia.
Qed.

(** One mbuf of a loop over [len] bytes from [off]. *)
Lemma take_drop_step (d r : list Z) (off len k : Z) :
  0 <= off <= Z.of_nat (length d) -> 0 <= len -> k = Z.min (Z.of_nat (length d) - off) len ->
  take (Z.to_nat len) (drop (Z.to_nat off) (d ++ r)) =
  take (Z.to_nat k) (drop (Z.to_nat off) d) ++ take (Z.to_nat (len - k)) r.
Proof.
  intros Ho Hl ->. rewrite drop_app_le by lia. destruct (decide (len <= Z.of_nat (length d) - off)).
  - rewrite Z.min_r by lia. rewrite take_app_le by (rewrite length_drop; lia). rewrite Z.sub_diag, take_0, app_nil_r. done.
  - rewrite Z.min_l by lia. rewrite take_app_ge by (rewrite length_drop; lia). rewrite length_drop.
    rewrite (take_ge (drop _ d)) by (rewrite length_drop; lia). f_equal. f_equal. lia.
Qed.

Definition off_ok (c : list mbuf) (off : Z) : Prop :=
  0 <= off /\ match c with m :: _ => off <= m_len m | [] => off = 0 end.

Lemma off_ok_zero s c l : inv s (c ++ l) -> off_ok c 0.
Proof. intros H. destruct c as [|m c]; [done|]. pose proof (ok_len _ (inv_head _ _ _ _ H)). done. Qed.

Lemma copydata_loop_spec c : forall s l off len,
  inv s (c ++ l) -> off_ok c off -> 0 <= len -> off + len <= total c -> total c < 2 ^ 31 ->
  copydata_loop s c off len = Done (take (Z.to_nat len) (drop (Z.to_nat off) (bytes s c))).
Proof.
  induction c as [|m c IH]; intros s l off len H [Ho Hoff] Hlen Hle Ht; cbn [copydata_loop]; destruct (len >? 0) eqn:E0;
    try (assert (len = 0) as -> by lia; by rewrite take_0).
  { change (total []) with 0 in Hle. lia. }
  rewrite ctotal_cons in Hle, Ht. assert (inv s (c ++ m :: l)) as H' by reorder H.
  pose proof (ctotal_nonneg _ _ _ _ H'). pose proof (head_length _ _ _ _ H) as Hl.
  rewrite umin_small by lia. rewrite (mread_ok _ _ _ m off _ H) by (set_solver || lia). cbn [mbind outcome_bind].
  rewrite (IH s (m :: l) 0 _ H' (off_ok_zero _ _ _ H')) by lia. cbn [mbind outcome_bind].
  rewrite bytes_cons, (take_drop_step _ _ off len (Z.min (m_len m - off) len)) by lia. by rewrite drop_0.
Qed.

Lemma mb_copydata_spec s c l off len :
  inv s (c ++ l) -> 0 <= off -> 0 <= len -> off + len <= total c -> total c < 2 ^ 31 ->
  m_copydata s c off len = Done (take (Z.to_nat len) (drop (Z.to_nat off) (bytes s c))).
Proof.
  intros H Ho Hl Hle Ht. unfold m_copydata.
  destruct (m_skip_spec c s l off H ltac:(lia)) as (pre & c1 & off1 & E & -> & Eo & Hp & Hd & _). rewrite E. cbn [mbind outcome_bind].
  rewrite <- app_assoc in H. rewrite ctotal_app in *. pose proof (ctotal_nonneg _ _ _ _ H).
  assert (inv s (c1 ++ pre ++ l)) as H' by reorder H. rewrite (copydata_loop_spec c1 s (pre ++ l)); [|done| |lia..].
  - by rewrite (drop_part s pre c1 l off off1).
  - destruct Hd as [->|(m & t & -> & Hlt)]; [by eapply off_ok_zero|]. split; lia.
Qed.

(** [m_getptr] finds the byte at [loc], or the end of the chain. *)
Lemma m_getptr_spec c : forall s l loc,
  inv s (c ++ l) -> c <> [] ->
  exists r, m_getptr c loc = Done r /\
    match r with
    | Some (i, off) => 0 <= loc <= total c /\ exists m, c !! i = Some m /\ loc = total (take i c) + off /\ 0 <= off <= m_len m /\
                       (loc < total c -> off < m_len m)
    | None => loc < 0 \/ total c < loc
    end.
Proof.
  induction c as [|m c IH]; intros s l loc H Hne; [done|]. cbn [m_getptr].
  assert (inv s (c ++ m :: l)) as H' by reorder H. pose proof (ctotal_nonneg _ _ _ _ H') as Ht. rewrite ctotal_cons.
  pose proof (ok_len _ (inv_head _ _ _ _ H)).
  destruct (loc >=? 0) eqn:E0; [|exists None; split; [done|]; lia].
  destruct (m_len m >? loc) eqn:E1.
  { exists (Some (O, loc)). split; [done|]. split; [lia|]. exists m. split; [done|]. change (total (take 0 _)) with 0. lia. }
  destruct c as [|y c].
  { eexists. split; [done|]. change (total []) with 0 in *. destruct (loc - m_len m =? 0) eqn:E2; [|lia]. split; [lia|].
    exists m. split; [done|]. change (total (take 0 _)) with 0. lia. }
  destruct (IH s (m :: l) (loc - m_len m) H' ltac:(done)) as (r & E & P). rewrite E. cbn [mbind outcome_bind].
  eexists. split; [done|]. destruct r as [[i off]|]; cbn [option_map fst snd]; [|lia]. destruct P as (Hr & x & Ex & El & Ho & Hlt).
  split; [lia|]. exists x. split; [done|]. cbn [take]. rewrite ctotal_cons. split; [lia|]. split; [done|]. intros. apply Hlt. lia.
Qed.

(** A callback run over pieces until it returns a code. *)
Fixpoint run_pieces {A} (f : A -> list Z -> Z * A) (ps : list (list Z)) (arg : A) : Z * A :=
  match ps with
  | [] => (0, arg)
  | d :: t => let '(r, a) := f arg d in if r =? 0 then run_pieces f t a else (r, a)
  end.

Lemma apply_loop_spec {A} (f : A -> list Z -> Z * A) c : forall s l off len arg,
  inv s (c ++ l) -> off_ok c off -> 0 <= len -> off + len <= total c -> total c < 2 ^ 31 ->
  exists ps, concat ps = take (Z.to_nat len) (drop (Z.to_nat off) (bytes s c)) /\
    apply_loop f s c off len arg = Done (run_pieces f ps arg).
Proof.
  induction c as [|m c IH]; intros s l off len arg H [Ho Hoff] Hlen Hle Ht; cbn [apply_loop]; destruct (len >? 0) eqn:E0;
    try (assert (len = 0) as -> by lia; exists []; by rewrite take_0).
  { change (total []) with 0 in Hle. lia. }
  rewrite ctotal_cons in Hle, Ht. assert (inv s (c ++ m :: l)) as H' by reorder H.
  pose proof (ctotal_nonneg _ _ _ _ H'). pose proof (head_length _ _ _ _ H) as Hl.
  rewrite umin_small by lia. rewrite (mread_ok _ _ _ m off _ H) by (set_solver || lia). cbn [mbind outcome_bind].
  set (d := take (Z.to_nat (Z.min _ _)) _). destruct (f arg d) as [r a] eqn:Ef.
  destruct (IH s (m :: l) 0 (len - Z.min (m_len m - off) len) a H' (off_ok_zero _ _ _ H') ltac:(lia) ltac:(lia) ltac:(lia)) as (ps & Ep & Er).
  exists (d :: ps). cbn [concat run_pieces]. rewrite Ep, Ef, Er, bytes_cons, drop_0.
  rewrite (take_drop_step _ _ off len (Z.min (m_len m - off) len)) by lia. split; [done|]. by destruct (r =? 0).
Qed.

Lemma m_apply_spec {A} (f : A -> list Z -> Z * A) s c l off len arg :
  inv s (c ++ l) -> 0 <= off -> 0 <= len -> off + len <= total c -> total c < 2 ^ 31 ->
  exists ps, concat ps = take (Z.to_nat len) (drop (Z.to_nat off) (bytes s c)) /\
    m_apply f s c off len arg = Done (run_pieces f ps arg).
Proof.
  intros H Ho Hl Hle Ht. unfold m_apply.
  destruct (m_skip_spec c s l off H ltac:(lia)) as (pre & c1 & off1 & E & -> & Eo & Hp & Hd & _). rewrite E. cbn [mbind outcome_bind].
  rewrite <- app_assoc in H. rewrite ctotal_app in *. pose proof (ctotal_nonneg _ _ _ _ H).
  assert (inv s (c1 ++ pre ++ l)) as H' by reorder H. rewrite (drop_part s pre c1 l off off1) by done.
  apply (apply_loop_spec f c1 s (pre ++ l)); [done| |lia..].
  destruct Hd as [->|(m & t & -> & Hlt)]; [by eapply off_ok_zero|]. split; lia.
Qed.

(** * Copies that share storage *)

(** A new mbuf for the data of [m]. *)
Definition blank (n : mbuf) : Prop := m_len n = 0 /\ m_ext n = None /\ m_data n = M_START n.

Lemma copy_mbuf_spec s n m l off k :
  inv s (n :: l) -> m ∈ l -> blank n -> 0 <= off -> 0 <= k -> off + k <= m_len m -> (m_ext m = None -> k <= M_SIZE n) ->
  exists s' n', copy_mbuf s n m off k = Done (s', n') /\ inv s' (n' :: l) /\ frame s s' l /\
    data s' n' = take (Z.to_nat k) (drop (Z.to_nat off) (data s m)) /\ m_pkthdr n' = m_pkthdr n /\ m_len n' = k.
Proof.
  intros H Hm (El & Ex & Ed) Ho Hk Hle Hroom. unfold copy_mbuf.
  destruct (inv_elem _ _ (n :: l) m H ltac:(by right)) as [Hok He]. pose proof (len_small _ Hok) as [_ Hdm].
  destruct (m_ext m) as [e|] eqn:Ee.
  - destruct (mb_dupcl_spec _ nmbufs_int s n (set_len (set_data n (m_data m + off)) k) m e l H Hm Ee eq_refl Ex) as (s1 & E & H1 & F1 & St).
    { destruct Hok, (inv_head _ _ _ _ H). constructor; try done; unfold M_START, M_SIZE in *; cbn in *; rewrite ?Ee in *; lia. }
    eexists s1, _. split; [exact E|]. split; [done|]. split; [done|]. split; [|done].
    unfold data. rewrite St. destruct (storage s m) as [st|]; [|by rewrite drop_nil, take_nil]. cbn.
    unfold slice. rewrite skipn_firstn_comm, drop_drop, take_take, Z2Nat.inj_add by lia. f_equal. lia.
  - specialize (Hroom eq_refl). rewrite (mread_ok _ _ (n :: l) m off k H) by (set_solver || lia). cbn [mbind outcome_bind].
    pose proof (mdata_length _ _ (n :: l) m H ltac:(by right)) as Hdl.
    assert (Z.of_nat (length (take (Z.to_nat k) (drop (Z.to_nat off) (data s m)))) = k) as Lk by (rewrite length_take, length_drop; lia).
    destruct (mwrite_end _ s n l (take (Z.to_nat k) (drop (Z.to_nat off) (data s m))) k H) as (s1 & n1 & E & En & H1 & F1 & _ & D1);
      [by unfold sole; rewrite Ex|lia|rewrite Ed; lia|].
    rewrite El in E. rewrite E. cbn [mbind outcome_bind]. eexists s1, _. split; [done|]. split; [done|]. split; [done|].
    split; [|cbn; by rewrite En]. rewrite D1. unfold data at 1. rewrite El. by destruct (storage s n).
Qed.

(** The copy of a packet header onto a new mbuf. *)
Lemma dup_hdr_spec s n m l h s1 ok n1 :
  inv s (n :: l) -> m_ext n = None -> m_len n = 0 -> m_pkthdr m = Some h -> m_dup_pkthdr avail s n m = (s1, ok, n1) ->
  inv s1 (n1 :: l) /\ frame s s1 l /\ blank n1 /\ m_pkthdr n1 = Some h /\ ok = avail (s_next s) /\ M_SIZE n1 = MHLEN.
Proof.
  intros H Ex El Eh. unfold m_dup_pkthdr. rewrite Ex, Eh. intros [= <- <- <-].
  destruct (bump_inv _ s (n :: l) H) as [H1 F1]. split.
  { eapply inv_update; [exact H1|done|done|]. destruct (inv_head _ _ _ _ H).
    constructor; try done; unfold M_START, M_SIZE; cbn; rewrite ?Ex; unfold PKTHDR_SIZE, MHLEN; lia. }
  split; [eapply frame_sub; [|done]; set_solver|]. split; [|split; [done|]; split; [done|]; unfold M_SIZE; cbn; by rewrite Ex].
  split; [done|]. split; [done|]. unfold M_START. cbn. by rewrite Ex.
Qed.

(** A header set by the copy. *)
Lemma blank_hdr s n l f : hdr_fun f -> inv s (n :: l) -> blank n -> inv s (f n :: l) /\ blank (f n) /\ M_SIZE (f n) = M_SIZE n.
Proof.
  intros Hf H (E1 & E2 & E3). destruct (Hf n) as (h & E & Hh). rewrite E.
  destruct (set_hdr_spec _ s n l h H Hh) as [H1 _]. split; [done|]. unfold blank, M_START, M_SIZE in *. cbn. rewrite E2 in *.
  destruct h, (m_pkthdr n); try done; exfalso; [destruct Hh as [Hh _]|destruct Hh as [_ Hh]]; by destruct Hh.
Qed.

(** The allocator ran out: with an allocator that never says no, chains of [n]
    mbufs, each with a second mbuf that holds the count of its cluster, would
    exceed the limit. *)
Definition short (n : Z) : Prop := (forall i, avail i = true) -> nmbufs < 2 * n.

Lemma short_alloc s l n : inv s l -> can_alloc avail nmbufs s = false -> Z.of_nat (length l) < n -> short n.
Proof.
  intros H Hc Hn Ha. unfold can_alloc in Hc. pose proof (used_size _ _ _ H). rewrite Ha in Hc. cbn in Hc. lia.
Qed.

Lemma short_tags s n : avail (s_next s) = false -> short n.
Proof. intros E Ha. by rewrite Ha in E. Qed.

Lemma get_none (hdr : bool) s type s' :
  (if hdr then m_gethdr junk avail nmbufs else m_get junk avail nmbufs) s type = (s', None) -> can_alloc avail nmbufs s = false.
Proof. unfold m_gethdr, m_get. destruct hdr, (can_alloc avail nmbufs s); done. Qed.

Lemma get_blank (hdr : bool) s l type s' om :
  inv s l -> (if hdr then m_gethdr junk avail nmbufs else m_get junk avail nmbufs) s type = (s', om) ->
  frame s s' l /\
  match om with
  | Some n => inv s' (n :: l) /\ blank n /\ (m_pkthdr n = None <-> hdr = false)
  | None => inv s' l
  end.
Proof.
  intros H E. destruct hdr.
  - pose proof (m_gethdr_spec _ _ _ _ _ _ _ _ H E) as G. destruct om as [n|]; [|by destruct G].
    destruct G as (H1 & F & (? & _ & Eh & _ & ? & ?) & _). split; [done|]. split; [done|]. split; [done|]. by rewrite Eh.
  - pose proof (m_get_spec _ _ _ _ _ _ _ _ H E) as G. destruct om as [n|]; [|by destruct G].
    destruct G as (H1 & F & (? & _ & Eh & _ & ? & ?) & _). split; [done|]. split; [done|]. split; [done|]. by rewrite Eh.
Qed.

(** The header of the copy. *)
Definition copy_hdr (h : pkthdr) (off0 len : Z) : pkthdr :=
  Pkthdr (if len =? M_COPYALL then s32 (ph_len h + - off0) else len) (ph_rcvif h).

(** One allocation of the loop, with the header when it is wanted. *)
Lemma copym_new s l m copyhdr off0 len s1 n :
  inv s l -> (if copyhdr : bool then m_gethdr junk avail nmbufs else m_get junk avail nmbufs) s (m_type m) = (s1, Some n) ->
  (copyhdr = true -> is_Some (m_pkthdr m)) ->
  forall s2 ok n1,
  (if copyhdr then
     let '(s', ok, n') := m_dup_pkthdr avail s1 n m in
     (s', ok, if len =? M_COPYALL then hdr_add n' (- off0) else hdr_set n' len)
   else (s1, true, n)) = (s2, ok, n1) ->
  inv s2 (n1 :: l) /\ frame s s2 l /\ blank n1 /\ (ok = false -> avail (s_next s1) = false) /\
  (if copyhdr then exists h, m_pkthdr m = Some h /\ m_pkthdr n1 = Some (copy_hdr h off0 len) /\ M_SIZE n1 = MHLEN
   else m_pkthdr n1 = None /\ M_SIZE n1 = MLEN).
Proof.
  intros H Eg Hh s2 ok n1. destruct (get_blank _ _ _ _ _ _ H Eg) as (F1 & H1 & B1 & Hn). destruct copyhdr.
  - destruct (Hh eq_refl) as [h Eh]. destruct (m_dup_pkthdr avail s1 n m) as [[s' ok'] n'] eqn:Ed. intros [= -> -> <-].
    destruct B1 as (El & Ex & Ed'). destruct (dup_hdr_spec s1 n m l h s2 ok n' H1 Ex El Eh Ed) as (H2 & F2 & B2 & E2 & Ok & Sz).
    set (f := fun x => if len =? M_COPYALL then hdr_add x (- off0) else hdr_set x len).
    assert (hdr_fun f) as Hf by (unfold f; destruct (len =? M_COPYALL); [apply hdr_fun_add|apply hdr_fun_set]).
    destruct (blank_hdr s2 n' l f Hf H2 B2) as (H3 & B3 & Sz3). change (if len =? M_COPYALL then hdr_add n' (- off0) else hdr_set n' len) with (f n').
    split; [done|]. split; [by eapply mframe_trans|]. split; [done|]. split; [congruence|]. exists h. split; [done|].
    split; [|congruence]. unfold f, copy_hdr, hdr_add, hdr_set. destruct (len =? M_COPYALL); cbn; by rewrite E2.
  - intros [= <- <- <-]. split; [done|]. split; [done|]. split; [done|]. split; [done|].
    assert (m_pkthdr n = None) as E by (by apply Hn). split; [done|]. destruct B1 as (_ & Ex & _). unfold M_SIZE. by rewrite Ex, E.
Qed.

Lemma head_hdr_app c t : c <> [] -> head_hdr (c ++ t) = head_hdr c.
Proof. by destruct c. Qed.

(** Copying everything stays copying everything. *)
Lemma copyall_step (r : list Z) len k :
  0 <= k -> Z.of_nat (length r) + k <= M_COPYALL ->
  take (Z.to_nat (len - k)) r = take (Z.to_nat (if len =? M_COPYALL then len else len - k)) r.
Proof.
  intros Hk Hr. destruct (len =? M_COPYALL) eqn:E; [|done]. rewrite !take_ge by lia. done.
Qed.

Lemma copym_loop_spec c : forall s l top off0 off len copyhdr,
  inv s (top ++ c ++ l) -> off_ok c off -> 0 <= len <= M_COPYALL -> total c <= M_COPYALL ->
  (copyhdr = true -> off = 0 /\ top = [] /\ is_Some (head_hdr c) /\ 0 < len) ->
  exists s' c', copym_loop junk avail nmbufs s c off0 off len copyhdr top = Done (s', c') /\
    inv s' (c' ++ c ++ l) /\ frame s s' (c ++ l) /\
    ((bytes s' c' = bytes s top ++ take (Z.to_nat len) (drop (Z.to_nat off) (bytes s c)) /\
      head_hdr c' = if copyhdr then (fun h => copy_hdr h off0 len) <$> head_hdr c else head_hdr top) \/
     (c' = [] /\ short (Z.of_nat (length top + 2 * length c + length l)))).
Proof.
  induction c as [|m c IH]; intros s l top off0 off len copyhdr H [Ho Hoff] Hlen Ht Hc; cbn [copym_loop].
  { assert (copyhdr = false) as -> by (destruct copyhdr; [|done]; destruct (Hc eq_refl) as (_ & _ & [? [=]] & _)).
    exists s, top. split; [by destruct (len >? 0)|]. split; [done|]. split; [apply frame_refl|]. left.
    rewrite bytes_nil, drop_nil, take_nil, app_nil_r. done. }
  destruct (len >? 0) eqn:E0.
  2: { assert (copyhdr = false) as -> by (destruct copyhdr; [|done]; destruct (Hc eq_refl); lia).
       exists s, top. split; [done|]. split; [done|]. split; [apply frame_refl|]. left.
       replace len with 0 by lia. by rewrite take_0, app_nil_r. }
  assert (inv s (m :: c ++ top ++ l)) as Hm by reorder H. pose proof (inv_head _ _ _ _ Hm) as Hok. pose proof (len_small _ Hok) as [Hlm _].
  rewrite ctotal_cons in Ht. pose proof (ctotal_nonneg _ s c (m :: top ++ l) ltac:(reorder H)) as Htc.
  destruct ((if copyhdr then m_gethdr junk avail nmbufs else m_get junk avail nmbufs) s (m_type m)) as [s1 [n|]] eqn:Eg.
  2: { destruct (get_blank _ _ _ _ _ _ H Eg) as (F1 & H1). destruct (m_freem_inv _ nmbufs_int top s1 _ H1) as (s2 & E2 & H2 & F2).
       rewrite E2. cbn [mbind outcome_bind]. exists s2, []. split; [done|]. split; [done|].
       split; [eapply mframe_trans; [|done]; eapply frame_sub; [|done]; set_solver|]. right. split; [done|].
       eapply short_alloc; [exact H|by eapply get_none|]. rewrite !length_app. cbn [length]. lia. }
  destruct (if copyhdr then _ else _) as [[s2 ok] n1] eqn:Ed in |- *.
  destruct (copym_new s _ m copyhdr off0 len s1 n H Eg ltac:(intros E; by destruct (Hc E) as (_ & _ & ? & _)) _ _ _ Ed)
    as (H2 & F2 & B2 & Hok2 & Hh2).
  destruct ok.
  2: { assert (inv s2 ((top ++ [n1]) ++ (m :: c) ++ l)) as H3 by reorder H2.
       destruct (m_freem_inv _ nmbufs_int _ s2 _ H3) as (s3 & E3 & H4 & F3). rewrite E3. cbn [mbind outcome_bind].
       exists s3, []. split; [done|]. split; [done|].
       split; [eapply mframe_trans; [|done]; eapply frame_sub; [|done]; set_solver|]. right. split; [done|].
       by apply (short_tags s1), Hok2. }
  rewrite umin_small by (unfold M_COPYALL in *; lia). set (k := Z.min len (m_len m - off)).
  assert (0 <= k /\ off + k <= m_len m) as [Hk Hk'] by (unfold k; lia).
  assert (inv s2 (n1 :: m :: c ++ top ++ l)) as H2' by reorder H2.
  destruct (copy_mbuf_spec s2 n1 m (m :: c ++ top ++ l) off k H2' ltac:(left) B2 Ho Hk Hk') as (s3 & n2 & E3 & H3 & F3 & D3 & Eh3 & _).
  { intros Exm. pose proof (internal_len _ _ _ _ Hm Exm) as Hil. destruct copyhdr.
    - destruct Hh2 as (h & Emh & _ & ->). rewrite Emh in Hil. lia.
    - destruct Hh2 as [_ ->]. destruct (m_pkthdr m); unfold MHLEN, MLEN in *; lia. }
  rewrite E3. cbn [mbind outcome_bind].
  set (len' := if len =? M_COPYALL then len else len - k).
  destruct (IH s3 (m :: l) (top ++ [n2]) off0 0 len' false) as (s' & c' & E & Hi & F & P);
    [reorder H3|eapply (off_ok_zero s3 c (n2 :: m :: top ++ l)); reorder H3|unfold len'; destruct (len =? M_COPYALL); lia|lia|done|].
  rewrite E. exists s', c'. split; [done|]. split; [reorder Hi|].
  assert (Fl : frame s s3 (m :: c ++ top ++ l)).
  { eapply mframe_trans; [eapply frame_sub; [|exact F2]; set_solver|exact F3]. }
  split; [eapply mframe_trans; [eapply frame_sub; [|exact Fl]; set_solver|]; eapply frame_sub; [|exact F]; set_solver|].
  destruct P as [[B Hh]|[-> Hs]].
  2: { right. split; [done|]. intros Ha. specialize (Hs Ha). rewrite length_app in Hs. cbn [length] in *. lia. }
  left. pose proof (head_length _ _ _ _ Hm) as Hdl. split.
  - assert (inv s (c ++ m :: top ++ l)) as Hc2 by reorder H. pose proof (bytes_length _ c s _ Hc2) as Hbc.
    rewrite B, bytes_app, bytes_cons, bytes_nil, app_nil_r, D3, drop_0, (frame_part _ _ _ top Fl), (frame_part _ _ _ c Fl) by set_solver.
    rewrite (F2 m) by set_solver. rewrite bytes_cons, (take_drop_step _ _ off len k) by (unfold k; lia).
    rewrite <- app_assoc. do 2 f_equal. symmetry. apply copyall_step; lia.
  - rewrite Hh. destruct copyhdr.
    + destruct (Hc eq_refl) as (_ & -> & _). destruct Hh2 as (h & Emh & Enh & _). unfold head_hdr. cbn. by rewrite Emh, Eh3, Enh.
    + destruct top as [|t top]; [|done]. unfold head_hdr. cbn. rewrite Eh3. by destruct Hh2.
Qed.

(** A copy [c'] of the bytes [b], or none for want of mbufs. *)
Definition copied (s s' : store) (l c' : list mbuf) (b : list Z) (hdr : bool) (n : Z) : Prop :=
  inv s' (c' ++ l) /\ frame s s' l /\ ((bytes s' c' = b /\ hdr_ok c' /\ has_hdr c' = hdr) \/ (c' = [] /\ short n)).

Lemma m_copym_spec s c l off0 len :
  inv s (c ++ l) -> c <> [] -> hdr_ok c -> total c < M_COPYALL -> 0 <= off0 <= total c ->
  0 < len -> len = M_COPYALL \/ off0 + len <= total c ->
  exists s' c', m_copym junk avail nmbufs s c off0 len = Done (s', c') /\
    copied s s' (c ++ l) c' (take (Z.to_nat len) (drop (Z.to_nat off0) (bytes s c)))
      ((off0 =? 0) && has_hdr c) (Z.of_nat (2 * length c + length l)).
Proof.
  intros H Hne Hok Ht Ho Hlen Hl. unfold m_copym. destruct c as [|m t]; [done|]. clear Hne. set (c := m :: t) in *.
  destruct (m_skip_spec c s l off0 H Ho) as (pre & c1 & off & E & Ec & Eo & Hp & Hd & Hz). rewrite E. cbn [mbind outcome_bind].
  rewrite Ec in H, Ht, Hl. rewrite <- app_assoc in H. rewrite ctotal_app in *. pose proof (ctotal_nonneg _ _ _ _ H) as Hpre.
  set (copyhdr := (off0 =? 0) && match m_pkthdr m with Some _ => true | None => false end).
  change ((off0 =? 0) && has_hdr c) with copyhdr. assert (inv s ([] ++ c1 ++ pre ++ l)) as H' by reorder H.
  pose proof (ctotal_nonneg _ s c1 (pre ++ l) H') as Htc1.
  assert (Hch : copyhdr = true -> off = 0 /\ (@nil mbuf = []) /\ is_Some (head_hdr c1) /\ 0 < len).
  { unfold copyhdr. intros [Ez Es]%andb_true_iff. assert (off0 = 0) as Ez' by lia. rewrite (Hz Ez') in *.
    change (total []) with 0 in Eo. split; [lia|]. split; [done|]. split; [|lia]. cbn in Ec. subst c1.
    unfold head_hdr, c. cbn. by destruct (m_pkthdr m). }
  destruct (copym_loop_spec c1 s (pre ++ l) [] off0 off len copyhdr H') as (s' & c' & E' & Hi & F & P);
    [|unfold M_COPYALL in *; lia|lia|done|].
  { destruct Hd as [->|(x & tt & -> & Hlt)]; [by eapply off_ok_zero|]. split; lia. }
  exists s', c'. split; [done|]. unfold copied. rewrite Ec. split; [reorder Hi|]. split; [eapply frame_sub; [|exact F]; set_solver|].
  destruct P as [[B Hh]|[-> Hs]].
  2: { right. split; [done|]. intros Ha. specialize (Hs Ha). rewrite length_app in *. cbn [length] in Hs. lia. }
  left. rewrite (drop_part s pre c1 l off0 off) by done. split; [done|].
  split; [|unfold has_hdr; rewrite Hh; destruct copyhdr; [by destruct (Hch eq_refl) as (_ & _ & [h ->] & _)|done]].
  unfold hdr_ok. rewrite Hh. destruct copyhdr eqn:Ech; [|done]. destruct (Hch eq_refl) as (-> & _ & [h Eh] & _).
  assert (pre = []) as Epre by (apply Hz; unfold copyhdr in Ech; lia). rewrite Epre in *. cbn [app] in Ec. subst c1.
  change (total []) with 0 in *. assert (off0 = 0) as -> by lia. unfold hdr_ok in Hok. rewrite Eh in Hok |- *.
  cbn [fmap option_fmap option_map copy_hdr ph_len]. pose proof (bytes_length _ c' s' _ Hi) as Hb'. rewrite B, drop_0, length_app, length_take in Hb'.
  pose proof (bytes_length _ c s _ H') as Hbc. cbn [length bytes] in Hb'. rewrite bytes_nil in Hb'. cbn [length] in Hb'.
  destruct (len =? M_COPYALL) eqn:El; [|lia]. rewrite s32_small by (unfold M_COPYALL in *; lia). lia.
Qed.

(** * Copies with storage of their own *)

(** An empty mbuf with room for [nsize] bytes. *)
Definition room (s : store) (n : mbuf) (nsize : Z) : Prop :=
  m_data n = M_START n /\ M_SIZE n = nsize /\ sole s n.

Lemma dup_new s l m (big first : bool) s1 n h :
  inv s l -> (if big then m_getcl junk avail nmbufs s (m_type m) false else m_get junk avail nmbufs s (m_type m)) = (s1, Some n) ->
  (first = true -> m_pkthdr m = Some h) ->
  forall s2 ok n1,
  (if first then let '(s', ok, n') := m_dup_pkthdr avail s1 n m in (s', ok, set_rdonly n' false) else (s1, true, n)) = (s2, ok, n1) ->
  inv s2 (set_len n1 0 :: l) /\ inv s2 (n1 :: l) /\ frame s s2 l /\ (ok = false -> avail (s_next s1) = false) /\
  room s2 (set_len n1 0) (if big then MCLBYTES else if first then MHLEN else MLEN) /\
  m_pkthdr n1 = if first then Some h else None.
Proof.
  intros H Eg Hh s2 ok n1 E2.
  assert (exists x, got nmbufs s s1 l (m_type m) None x (Some n) /\ x = big) as (x & G & ->).
  { destruct big; eexists; (split; [|done]); [exact (m_getcl_spec _ _ _ _ _ _ _ _ _ H Eg)|exact (m_get_spec _ _ _ _ _ _ _ _ H Eg)]. }
  destruct G as (H1 & F1 & (El & _ & Eh & _ & Ed & Ex) & Hrc).
  assert (sole s1 n) as Hsole by (unfold sole; destruct (m_ext n) eqn:E; [by apply Hrc|done]).
  assert (inv s2 (n1 :: l) /\ frame s s2 l /\ (ok = false -> avail (s_next s1) = false) /\ m_len n1 = 0 /\
    room s2 n1 (if big then MCLBYTES else if first then MHLEN else MLEN) /\ m_pkthdr n1 = if first then Some h else None) as
    (H2 & F2 & Ho & El2 & R2 & Eh2).
  { destruct first.
    - specialize (Hh eq_refl). unfold m_dup_pkthdr in E2. rewrite Hh in E2. injection E2 as <- <- <-.
      destruct (bump_inv _ s1 (n :: l) H1) as [H2 F2]. set (n1 := set_rdonly _ false).
      assert (m_len n1 = 0 /\ m_id n1 = m_id n /\ m_ext n1 = m_ext n /\ m_dat n1 = m_dat n /\ m_pkthdr n1 = Some h /\
              m_data n1 = match m_ext n with None => PKTHDR_SIZE | Some _ => m_data n end) as (A1 & A2 & A3 & A4 & A5 & A6)
        by (unfold n1; destruct (m_ext n) eqn:Exn; cbn; rewrite ?Exn; done).
      assert (M_START n1 = m_data n1 /\ M_SIZE n1 = if big then MCLBYTES else MHLEN) as [S1 S2].
      { unfold M_START, M_SIZE in *. rewrite A3, A5, A6. destruct big; [destruct Ex as [? [e Ee]]; rewrite Ee in *; done|by rewrite Ex]. }
      split.
      { eapply inv_update; [exact H2|done|done|]. destruct (inv_head _ _ _ _ H1). constructor; rewrite ?A1, ?A3, ?A4, ?S1, ?S2; try done; try lia.
        destruct big; unfold MCLBYTES, MHLEN; lia. }
      split; [eapply mframe_trans; [done|]; eapply frame_sub; [|done]; set_solver|]. split; [done|]. split; [done|].
      split; [|done]. split; [done|]. split; [done|]. unfold sole in *. by rewrite A3.
    - injection E2 as <- <- <-. split; [done|]. split; [done|]. split; [done|]. split; [done|]. split; [|done].
      split; [done|]. split; [|done]. destruct big; [by destruct Ex|]. unfold M_SIZE. by rewrite Ex, Eh. }
  split; [|done]. eapply inv_update; [exact H2|done|done|]. pose proof (inv_head _ _ _ _ H2) as Hok. destruct Hok.
  constructor; try done; unfold M_START, M_SIZE in *; cbn in *; lia.
Qed.

Lemma dup_fill_spec c : forall s n l nsize moff,
  inv s (n :: c ++ l) -> room s n nsize -> m_len n <= nsize < 2 ^ 31 -> off_ok c moff ->
  exists s' n' used c1 moff1, dup_fill s n nsize c moff = Done (s', n', c1, moff1) /\ c = used ++ c1 /\ off_ok c1 moff1 /\
    inv s' (n' :: c ++ l) /\ frame s s' (c ++ l) /\ m_pkthdr n' = m_pkthdr n /\ (c1 = [] \/ m_len n' = nsize) /\
    data s' n' ++ drop (Z.to_nat moff1) (bytes s c1) = data s n ++ drop (Z.to_nat moff) (bytes s c).
Proof.
  induction c as [|m c IH]; intros s n l nsize moff H (Rd & Rs & Rw) Hn [Ho Hoff]; cbn [dup_fill].
  { exists s, n, [], [], moff. split; [done|]. split; [done|]. split; [done|]. split; [done|]. split; [apply frame_refl|].
    split; [done|]. split; [by left|done]. }
  destruct (m_len n <? nsize) eqn:E0.
  2: { exists s, n, [], (m :: c), moff. split; [done|]. split; [done|]. split; [done|]. split; [done|]. split; [apply frame_refl|].
       split; [done|]. split; [right; lia|done]. }
  cbn [app] in H. assert (inv s (m :: n :: c ++ l)) as Hm by reorder H. pose proof (len_small _ (inv_head _ _ _ _ Hm)) as [Hlm _].
  pose proof (len_small _ (inv_head _ _ _ _ H)) as [Hln _]. pose proof (head_length _ _ _ _ Hm) as Hdl.
  rewrite umin_small by lia. set (k := Z.min _ _). assert (0 <= k /\ moff + k <= m_len m /\ m_len n + k <= nsize) as (Hk & Hk1 & Hk2) by (unfold k; lia).
  rewrite (mread_ok _ _ _ m moff k H) by (set_solver || lia). cbn [mbind outcome_bind].
  set (d := take (Z.to_nat k) (drop (Z.to_nat moff) (data s m))). assert (Z.of_nat (length d) = k) as Ld by (unfold d; rewrite length_take, length_drop; lia).
  destruct (mwrite_end _ s n (m :: c ++ l) d (m_len n + k) H Rw) as (s1 & n1 & E1 & En1 & H1 & F1 & S1 & D1); [lia|lia|].
  rewrite E1. cbn [mbind outcome_bind]. set (n2 := set_len n1 (m_len n + k)) in *.
  assert (m_data n2 = m_data n /\ M_START n2 = M_START n /\ M_SIZE n2 = M_SIZE n /\ m_pkthdr n2 = m_pkthdr n /\ m_len n2 = m_len n + k) as (A1 & A2 & A3 & A4 & A5)
    by (unfold n2; rewrite En1; done).
  destruct (moff + k =? m_len m) eqn:E2.
  - destruct (IH s1 n2 (m :: l) nsize 0) as (s' & n' & used & c1 & moff1 & E & -> & Oo & Hi & F & Hh & Hd & B);
      [reorder H1|split; [congruence|]; split; [congruence|done]|lia|eapply (off_ok_zero s1 c (n2 :: m :: l)); reorder H1|].
    exists s', n', (m :: used), c1, moff1. split; [done|]. split; [done|]. split; [done|]. split; [reorder Hi|].
    split; [eapply mframe_trans; [exact F1|]; eapply frame_sub; [|exact F]; set_solver|]. split; [congruence|]. split; [done|].
    rewrite (frame_part _ _ _ c1 F1), (frame_part _ _ _ (used ++ c1) F1), drop_0, D1, <- app_assoc in B by set_solver.
    rewrite B. f_equal. unfold d. rewrite take_ge by (rewrite length_drop; lia). by rewrite bytes_cons, drop_app_le by lia.
  - exists s1, n2, [], (m :: c), (moff + k). split; [done|]. split; [done|]. split; [split; lia|]. split; [done|]. split; [done|].
    split; [done|]. split; [right; lia|]. rewrite D1, <- app_assoc. f_equal. unfold d.
    rewrite bytes_cons, !drop_app_le by lia. rewrite Z2Nat.inj_add, <- drop_drop by lia. by rewrite app_assoc, take_drop.
Qed.

Lemma dup_none s type (big : bool) s' :
  (if big then m_getcl junk avail nmbufs s type false else m_get junk avail nmbufs s type) = (s', None) ->
  can_alloc avail nmbufs s = false /\ s' = bump s.
Proof. unfold m_getcl, m_get. destruct big, (can_alloc avail nmbufs s); intros [= <-]; done. Qed.

Lemma dup_loop_spec fuel : forall s l top c moff remain,
  inv s (top ++ c ++ l) -> off_ok c moff -> remain = total c - moff -> total c < 2 ^ 31 ->
  (top = [] -> is_Some (head_hdr c) /\ moff = 0) -> (Z.to_nat remain + (if decide (top = []) then 1 else 0) <= fuel)%nat ->
  exists s' c', dup_loop junk avail nmbufs fuel s c moff remain top = Done (s', c') /\
    inv s' (c' ++ c ++ l) /\ frame s s' (c ++ l) /\
    ((bytes s' c' = bytes s top ++ drop (Z.to_nat moff) (bytes s c) /\
      head_hdr c' = if decide (top = []) then head_hdr c else head_hdr top) \/
     (c' = [] /\ short (Z.of_nat (length (top ++ c ++ l)) + remain + if decide (top = []) then 2 else 1))).
Proof.
  induction fuel as [|fuel IH]; intros s l top c moff remain H Ho Er Ht Htop Hf; cbn [dup_loop];
    assert (inv s (c ++ top ++ l)) as Hcl by reorder H;
    pose proof (bytes_length _ c s _ Hcl) as Hbc; pose proof (ctotal_nonneg _ _ _ _ Hcl) as Hc0;
    assert (0 <= remain) as Hr0 by (destruct Ho as [? Hm]; destruct c as [|m c]; [change (total []) with 0 in *; lia|];
      rewrite ctotal_cons in *; pose proof (ctotal_nonneg _ s c (m :: top ++ l) ltac:(reorder H)); lia);
    destruct ((remain >? 0) || _) eqn:E0.
  1: { exfalso. destruct top; [rewrite decide_True in Hf by done; lia|]. rewrite decide_False in Hf by done. cbn in E0. lia. }
  1,3: destruct top as [|t0 top]; [by rewrite orb_true_r in E0|]; exists s, (t0 :: top); (split; [done|]); (split; [done|]);
    (split; [apply frame_refl|]); left; (split; [|done]); destruct Ho;
    rewrite drop_ge, app_nil_r by (cbn in E0; lia); done.
  destruct c as [|m c].
  { exfalso. change (total []) with 0 in *. destruct Ho as [_ Ho]. cbn in Ho. destruct top; [by destruct Htop as [[? [=]] _]|]. cbn in E0. lia. }
  set (first := match top with [] => true | _ => false end). set (big := remain >=? MINCLSIZE).
  destruct (if big then _ else _) as [s1 [n|]] eqn:Eg.
  2: { destruct (dup_none _ _ _ _ Eg) as [Hca ->]. destruct (bump_inv _ _ _ H) as [H1 F1].
       destruct (m_freem_inv _ nmbufs_int top _ _ H1) as (s2 & E2 & H2 & F2). rewrite E2. cbn [mbind outcome_bind].
       exists s2, []. split; [done|]. split; [done|]. split; [eapply mframe_trans; [|done]; eapply frame_sub; [|done]; set_solver|].
       right. split; [done|]. eapply short_alloc; [exact H|done|destruct (decide (top = [])); lia]. }
  assert (exists h, (first = true -> m_pkthdr m = Some h) /\ (first = true -> top = [])) as (h & Hfh & Hft).
  { unfold first. destruct top; [|by exists (Pkthdr 0 0)]. destruct (Htop eq_refl) as [[h Hh] _]. by exists h. }
  destruct (if first then _ else _) as [[s2 ok] n1] eqn:Ed in |- *.
  destruct (dup_new s _ m big first s1 n h H Eg Hfh _ _ _ Ed) as (H2 & H2n & F2 & Hok & R2 & Eh2).
  destruct ok.
  2: { destruct (m_free_spec _ nmbufs_int s2 n1 _ H2n) as (s3 & E3 & H3 & F3). rewrite E3. cbn [mbind outcome_bind].
       destruct (m_freem_inv _ nmbufs_int top s3 _ H3) as (s4 & E4 & H4 & F4). rewrite E4. cbn [mbind outcome_bind].
       exists s4, []. split; [done|]. split; [done|].
       split; [eapply mframe_trans; [eapply frame_sub; [|exact F2]; set_solver|]; eapply mframe_trans; [|exact F4]; eapply frame_sub; [|exact F3]; set_solver|].
       right. split; [done|]. by apply (short_tags s1), Hok. }
  set (nsize := if big then MCLBYTES else if first then MHLEN else MLEN) in *.
  assert (MHLEN <= nsize < 2 ^ 31) as Hns by (unfold nsize, MCLBYTES, MHLEN, MLEN; destruct big, first; lia).
  destruct (dup_fill_spec (m :: c) s2 (set_len n1 0) (top ++ l) nsize moff) as (s3 & n2 & used & c1 & moff1 & E3 & Ec & O3 & H3 & F3 & Eh3 & Hd3 & B3);
    [reorder H2|done|cbn [m_len set_len]; unfold MHLEN in *; lia|done|].
  rewrite E3. cbn [mbind outcome_bind].
  assert (data s2 (set_len n1 0) = []) as D0 by (unfold data; cbn; by destruct (storage s2 _)).
  rewrite D0, app_nil_l, (frame_part _ _ _ (m :: c) F2), (frame_part _ _ _ c1 F2) in B3
    by first [rewrite Ec; clear; set_solver | clear; set_solver].
  assert (Fl : frame s s3 ((m :: c) ++ top ++ l)).
  { eapply mframe_trans; [eapply frame_sub; [|exact F2]; clear; set_solver|exact F3]. }
  assert (inv s (c1 ++ used ++ top ++ l)) as Hc1.
  { assert (inv s ((m :: c) ++ top ++ l)) as Hx by reorder H. rewrite Ec, <- app_assoc in Hx. reorder Hx. }
  pose proof (bytes_length _ c1 s _ Hc1) as Hbc1. pose proof (head_length _ _ _ _ H3) as Hl2.
  assert (m_len n2 + (total c1 - moff1) = remain) as Hrem.
  { apply (f_equal length) in B3. rewrite length_app, !length_drop in B3. destruct Ho as [Ho1 Ho2], O3 as [O31 O32].
    assert (moff1 <= total c1).
    { destruct c1 as [|x c1]; [change (total []) with 0; lia|]. rewrite ctotal_cons.
      pose proof (ctotal_nonneg _ s c1 (x :: used ++ top ++ l) ltac:(reorder Hc1)). lia. }
    lia. }
  destruct (IH s3 (used ++ l) (top ++ [n2]) c1 moff1 (remain - m_len n2)) as (s' & c' & E & Hi & F & P).
  { rewrite Ec in H3. reorder H3. }
  { done. } { lia. }
  { rewrite Ec, ctotal_app in Ht. pose proof (ctotal_nonneg _ s used (c1 ++ top ++ l) ltac:(reorder Hc1)). lia. }
  { by destruct top. }
  { rewrite decide_False by (by destruct top). rewrite Nat.add_0_r. pose proof (ok_len _ (inv_head _ _ _ _ H3)).
    destruct Hd3 as [-> | Hd3].
    - destruct O3 as [_ O3]. change (total []) with 0 in Hrem. replace (remain - m_len n2) with 0 by lia. lia.
    - unfold MHLEN in *. destruct (decide (top = [])); lia. }
  rewrite E. exists s', c'. split; [done|]. rewrite Ec. split; [reorder Hi|]. rewrite Ec in Fl.
  split; [eapply mframe_trans; [eapply frame_sub; [|exact Fl]|eapply frame_sub; [|exact F]]; clear; set_solver|].
  destruct P as [[B Hh]|[-> Hs]].
  2: { right. split; [done|]. intros Ha. specialize (Hs Ha). pose proof (ok_len _ (inv_head _ _ _ _ H3)).
       rewrite decide_False in Hs by (by destruct top). rewrite !length_app in *. cbn [length] in *.
       assert (remain - m_len n2 + (if decide (top = []) then 0 else 1) <= remain); [|destruct (decide (top = [])); lia].
       destruct Hd3 as [-> | Hd3]; [|unfold MHLEN in *; destruct (decide (top = [])); lia].
       destruct O3 as [_ O3]. change (total []) with 0 in Hrem. destruct (decide (top = [])) as [|Htn]; [lia|].
       destruct top; [done|]. cbn in E0. lia. }
  left. split.
  - rewrite B, bytes_app, bytes_cons, bytes_nil, app_nil_r, (frame_part _ _ _ top Fl), (frame_part _ _ _ c1 Fl) by (clear; set_solver).
    by rewrite <- app_assoc, B3, Ec.
  - rewrite Hh, decide_False by (by destruct top). destruct top as [|t0 top]; [|done]. cbn. unfold head_hdr. cbn.
    rewrite <- Ec. cbn. rewrite Eh3. cbn. rewrite Eh2. unfold first. by rewrite Hfh.
Qed.

Lemma m_dup_spec s c l :
  inv s (c ++ l) -> is_Some (head_hdr c) -> hdr_ok c -> total c < 2 ^ 31 ->
  exists s' c', m_dup junk avail nmbufs s c = Done (s', c') /\
    copied s s' (c ++ l) c' (bytes s c) true (Z.of_nat (length (c ++ l)) + total c + 2).
Proof.
  intros H [h Hh] Hok Ht. unfold hdr_ok in Hok. rewrite Hh in Hok. destruct c as [|m c]; [done|].
  unfold m_dup. unfold head_hdr in Hh. cbn in Hh. rewrite Hh, Hok.
  destruct (dup_loop_spec (S (Z.to_nat (total (m :: c)))) s l [] (m :: c) 0 (total (m :: c)) H) as (s' & c' & E & Hi & F & P);
    [by eapply off_ok_zero|lia|done|by intros _|rewrite decide_True by done; lia|].
  exists s', c'. split; [done|]. split; [done|]. split; [done|]. destruct P as [[B Hd]|P]; [left|by right].
  rewrite drop_0 in B. split; [done|]. unfold hdr_ok, has_hdr. rewrite Hd, decide_True by done. unfold head_hdr. cbn. rewrite Hh.
  split; [|done].
  rewrite Hok, <- (bytes_length _ _ _ _ H), <- (bytes_length _ _ _ _ Hi), B. done.
Qed.
End Copy.
