(* ===== verification/MbufBack.v ===== *)
(** m_copyback (Mbuf.v): bytes written into a chain at an offset, with the chain
    extended when it is too short.

    The function does not check that the storage it writes is its own; [sole]
    is what the caller has to know. *)
From stdpp Require Import base list gmap.
From Stdlib Require Import ZArith Lia.
From S2P Require Import Prelude Mbuf MbufInv MbufOps MbufCopy.

Local Open Scope Z_scope.

Section Back.
Context (junk : Z -> Z -> Z) (avail : Z -> bool) (nmbufs : Z).
Context (nmbufs_int : nmbufs < 2 ^ 31).
#[local] Abbreviation inv := (inv nmbufs).
#[local] Abbreviation short := (short avail nmbufs).

Ltac reorder H := refine (proj1 (inv_perm nmbufs _ _ _ _) H); solve_Permutation.

(** The bytes [cp] at [off]. *)
Definition patched (b : list Z) (off : Z) (cp : list Z) : list Z :=
  take (Z.to_nat off) (b ++ replicate (Z.to_nat off) 0) ++ cp ++ drop (Z.to_nat off + length cp) b.

(** Storage that is one mbuf's own stays so while the users do not change. *)
Lemma sole_keep s s' l l' m :
  inv s l -> inv s' l' -> (forall i, refs i l' = refs i l) -> sole s m -> sole s' m.
Proof.
  intros H H' Hr. unfold sole. destruct (m_ext m) as [e|]; [|done].
  rewrite (inv_refs _ _ _ H), (inv_refs _ _ _ H'), Hr. done.
Qed.

Lemma mwrite_set_len s m k a d :
  mwrite s (set_len m k) a d = x ← mwrite s m a d; let '(s1, m1) := x in Done (s1, set_len m1 k).
Proof.
  unfold mwrite, M_START. cbn. destruct (m_ext m) as [e|].
  - destruct (s_ext s !! ext_buf e) as [[st c]|]; [|done]. by destruct (_ && _).
  - by destruct (_ && _).
Qed.

(** The write of one round, with the extension of the last mbuf. *)
Lemma back_write s m l off cp (lastm : bool) sp :
  inv s (m :: l) -> sole s m -> 0 <= off <= m_len m -> Z.of_nat (length cp) < 2 ^ 31 ->
  M_TRAILINGSPACE s m = Done sp ->
  let len := Z.of_nat (length cp) in
  let m1 := if lastm && (len >? m_len m - off) then set_len m (m_len m + umin (len - (m_len m - off)) sp) else m in
  let mlen := umin (m_len m1 - off) len in
  exists s1 m2, mwrite s m1 off (take (Z.to_nat mlen) cp) = Done (s1, m2) /\
    inv s1 (m2 :: l) /\ frame s s1 l /\ m_pkthdr m2 = m_pkthdr m /\ m_type m2 = m_type m /\ m_ext m2 = m_ext m /\
    0 <= mlen <= len /\ m_len m2 = Z.max (m_len m) (off + mlen) /\ (off < m_len m -> 0 < len -> 0 < mlen) /\
    (mlen < len -> m_len m2 = off + mlen) /\ (lastm = false -> off + mlen <= m_len m) /\
    data s1 m2 = take (Z.to_nat off) (data s m) ++ take (Z.to_nat mlen) cp ++ drop (Z.to_nat (off + mlen)) (data s m).
Proof.
  intros H Hs Hoff Hcp Esp len. pose proof (inv_head _ _ _ _ H) as Hok. pose proof (len_small _ Hok) as [Hlm _].
  pose proof (size_small _ Hok) as Hsz. pose proof (ok_end _ Hok) as Hend. pose proof (ok_start _ Hok) as Hst. pose proof (start_nonneg m) as Hs0.
  assert (0 <= sp <= M_START m + M_SIZE m - (m_data m + m_len m)) as Hsp.
  { unfold M_TRAILINGSPACE in Esp. destruct (M_WRITABLE s m) as [w| |]; [|done|done]. cbn in Esp. injection Esp as <-. destruct w; lia. }
  intros m1. set (x := if lastm && (len >? m_len m - off) then umin (len - (m_len m - off)) sp else 0).
  assert (m1 = set_len m (m_len m + x)) as Em1.
  { unfold m1, x. destruct (lastm && _); [done|]. rewrite Z.add_0_r. by destruct m. }
  assert (0 <= x <= sp /\ (x = 0 \/ x <= len - (m_len m - off)) /\ (lastm = false -> x = 0)) as (Hx & Hx' & Hxl).
  { unfold x. destruct lastm; cbn [andb]; [|lia]. destruct (len >? m_len m - off) eqn:E; [|lia]. rewrite umin_small by (unfold len in *; lia). lia. }
  intros mlen. assert (mlen = Z.min (m_len m + x - off) len) as Emlen.
  { unfold mlen. rewrite Em1. cbn [m_len set_len]. apply umin_small; unfold len in *; lia. }
  assert (Z.of_nat (length (take (Z.to_nat mlen) cp)) = mlen) as Lt by (rewrite length_take; unfold len in *; lia).
  destruct (mwrite_at _ s m l off (take (Z.to_nat mlen) cp) H Hs) as (s1 & m' & E & Em & H1 & F1 & _ & D1); [lia|lia|].
  rewrite Lt in *. assert (Z.max (m_len m) (off + mlen) = m_len m + x) as Emax by (unfold len in *; lia). rewrite Emax in *.
  exists s1, (set_len m' (m_len m + x)). rewrite Em1, mwrite_set_len, E. split; [done|]. split; [done|]. split; [done|].
  assert (m_pkthdr m' = m_pkthdr m /\ m_type m' = m_type m /\ m_ext m' = m_ext m) as (? & ? & ?) by (by rewrite Em).
  split; [done|]. split; [done|]. split; [done|]. split; [unfold len in *; lia|]. split; [done|]. split; [unfold len in *; lia|].
  split; [cbn [m_len set_len]; unfold len in *; lia|]. split; [intros Hf; specialize (Hxl Hf); unfold len in *; lia|].
  rewrite D1. do 3 f_equal. lia.
Qed.

Definition extra (m : mbuf) (off : Z) : nat := if off <? m_len m then 0 else 1.

Lemma refs_same i m m' l : m_ext m' = m_ext m -> refs i (m' :: l) = refs i (m :: l).
Proof. intros E. rewrite !refs_cons. unfold uses. by rewrite E. Qed.

(** What a round did, seen from the whole chain. *)
Lemma patch_step (d r a cp1 : list Z) (off mlen : Z) :
  0 <= off <= Z.of_nat (length d) -> Z.of_nat (length a) = mlen -> Z.of_nat (length d) <= off + mlen ->
  (r = [] \/ off + mlen <= Z.of_nat (length d)) ->
  take (Z.to_nat off) d ++ a ++ cp1 ++ drop (length cp1) r =
  take (Z.to_nat off) (d ++ r) ++ (a ++ cp1) ++ drop (Z.to_nat off + length (a ++ cp1)) (d ++ r).
Proof.
  intros Ho Ha Hd Hr. rewrite take_app_le by lia. f_equal. rewrite <- app_assoc. do 2 f_equal.
  rewrite length_app, drop_app_ge by lia. destruct Hr as [-> | Hr]; [by rewrite !drop_nil|]. f_equal. lia.
Qed.

Lemma copyback_loop_spec fuel : forall s m t l off totlen cp,
  inv s (m :: t ++ l) -> Forall (sole s) (m :: t) -> 0 <= off <= m_len m -> Z.of_nat (length cp) < 2 ^ 31 ->
  (length t + length cp + extra m off <= fuel)%nat ->
  exists s' c' tot', copyback_loop junk avail nmbufs fuel s m t off totlen cp = Done (s', c', tot') /\
    inv s' (c' ++ l) /\ frame s s' l /\
    ((bytes s' c' = take (Z.to_nat off) (bytes s (m :: t)) ++ cp ++ drop (Z.to_nat off + length cp) (bytes s (m :: t)) /\
      head_hdr c' = m_pkthdr m /\ (cp <> [] -> tot' = totlen + off + Z.of_nat (length cp))) \/
     short (Z.of_nat (length (m :: t ++ l) + (length t + length cp + extra m off)))).
Proof.
  induction fuel as [|fuel IH]; intros s m t l off totlen cp H Hs Hoff Hcp Hf; cbn [copyback_loop]; cbv zeta;
    (destruct (Z.of_nat (length cp) >? 0) eqn:E0;
     [|destruct cp; [|done]; exists s, (m :: t), totlen; (split; [done|]); (split; [done|]); (split; [apply frame_refl|]); left;
       (split; [by rewrite Nat.add_0_r, app_nil_l, take_drop|]); done]).
  { exfalso. lia. }
  apply Forall_cons in Hs as [Hsm Hst]. pose proof (head_length _ _ _ _ H) as Hdl.
  assert (exists sp, M_TRAILINGSPACE s m = Done sp) as [sp Esp].
  { destruct (writable_done _ _ _ m H ltac:(left)) as [w Ew]. unfold M_TRAILINGSPACE. rewrite Ew. cbn. eauto. }
  rewrite Esp. cbn [mbind outcome_bind].
  destruct (back_write s m (t ++ l) off cp (length t =? 0)%nat sp H Hsm Hoff Hcp Esp) as
    (s1 & m2 & E1 & H1 & F1 & Eh & Ety & Ex & Hml & Lm2 & Hpos & Hfull & Hin & D1).
  rewrite E1. cbn [mbind outcome_bind]. set (mlen := umin (m_len _ - off) _) in *. clearbody mlen.
  set (cp1 := drop (Z.to_nat mlen) cp). assert (cp = take (Z.to_nat mlen) cp ++ cp1) as Ecp by (unfold cp1; by rewrite take_drop).
  assert (Z.of_nat (length cp1) = Z.of_nat (length cp) - mlen) as Lcp1 by (unfold cp1; rewrite length_drop; lia).
  assert (Z.of_nat (length (take (Z.to_nat mlen) cp)) = mlen) as Lt by (rewrite length_take; lia).
  assert (Hst1 : Forall (sole s1) t).
  { eapply Forall_impl; [exact Hst|]. intros x Hx. eapply sole_keep; [exact H|exact H1| |exact Hx]. intros j. by apply refs_same. }
  assert (Bt : bytes s1 t = bytes s t) by (apply (frame_part _ _ _ _ F1); set_solver).
  assert (Fl : frame s s1 l) by (eapply frame_sub; [|exact F1]; set_solver).
  assert (Hne : (length cp1 + 1 <= length cp + extra m off)%nat) by (unfold extra; destruct (off <? m_len m) eqn:?; lia).
  destruct cp1 as [|b cp1'] eqn:Ecp1.
  - exists s1, (m2 :: t), (totlen + (mlen + off)). split; [done|]. split; [done|]. split; [done|]. left. cbn [length] in Lcp1.
    split; [|split; [done|]; intros _; lia]. rewrite !bytes_cons, D1, Bt.
    rewrite (take_ge cp) by lia. rewrite take_app_le by lia. rewrite <- !app_assoc. do 2 f_equal.
    replace (Z.to_nat off + length cp)%nat with (Z.to_nat (off + mlen)) by lia.
    destruct t as [|x t]; [by rewrite bytes_nil, !app_nil_r|]. rewrite drop_app_le; [done|]. specialize (Hin eq_refl). lia.
  - rewrite <- Ecp1 in *. assert (0 < Z.of_nat (length cp1)) as Hc1 by (rewrite Ecp1; cbn; lia). assert (m_len m2 = off + mlen) as Lm2' by (apply Hfull; lia).
    assert (D1' : data s1 m2 = take (Z.to_nat off) (data s m) ++ take (Z.to_nat mlen) cp).
    { rewrite D1, (drop_ge (data s m)), app_nil_r by lia. done. }
    clear E1. clearbody cp1. clear Ecp1 b cp1'.
    destruct t as [|x t].
    + destruct (m_get junk avail nmbufs s1 (m_type m2)) as [s2 [n|]] eqn:Eg; pose proof (m_get_spec _ _ _ _ _ _ _ _ H1 Eg) as G.
      2: { destruct G as [H2 F2]. exists s2, [m2], (totlen + (mlen + off)). split; [done|]. split; [done|].
           split; [eapply mframe_trans; [done|]; eapply frame_sub; [|done]; set_solver|]. right.
           eapply short_alloc; [exact H1|unfold m_get in Eg; by destruct (can_alloc _ _ _)|]. cbn [length app]. lia. }
      destruct G as (H2 & F2 & (El & _ & Eh2 & _ & Ed & Ex2) & _).
      rewrite umin_small by (unfold MLEN; lia). set (k := Z.min MLEN _). assert (0 < k <= MLEN /\ k <= Z.of_nat (length cp1)) as [Hk Hk'] by (unfold k, MLEN; lia).
      assert (inv s2 (set_len n k :: m2 :: l)) as H3.
      { eapply inv_update; [exact H2|done|done|]. destruct (inv_head _ _ _ _ H2). constructor; try done; unfold M_START, M_SIZE in *; cbn in *;
          rewrite ?Eh2, ?Ex2 in *; lia. }
      destruct (IH s2 (set_len n k) [] (m2 :: l) 0 (totlen + (mlen + off)) cp1) as (s' & c' & tot' & E & Hi & F & P);
        [done|repeat constructor; unfold sole; cbn; by rewrite Ex2|cbn; lia|lia|unfold extra; cbn [m_len set_len length] in *; replace (0 <? k) with true by lia; lia|].
      rewrite E. cbn [mbind outcome_bind]. exists s', (m2 :: c'), tot'. split; [done|]. split; [reorder Hi|].
      split; [eapply mframe_trans; [done|]; eapply mframe_trans; [eapply frame_sub; [|exact F2]; set_solver|]; eapply frame_sub; [|exact F]; set_solver|].
      destruct P as [(B & Hh & Htot)|P].
      2: { right. intros Ha. specialize (P Ha). unfold extra at 1 in P. cbn [m_len set_len length app] in P.
           replace (0 <? k) with true in P by lia. cbn [length app]. lia. }
      left. split; [|split; [done|]; intros _; rewrite Htot by (intros ->; cbn in Hc1; lia); lia].
      rewrite (bytes_cons s' m2), (F m2), (F2 m2), D1' by set_solver. rewrite B, bytes_cons, bytes_nil, app_nil_r.
      change (Z.to_nat 0) with 0%nat. rewrite take_0, app_nil_l, Nat.add_0_l.
      rewrite (drop_ge (data s2 _)) by (pose proof (head_length _ _ _ _ H3) as Hn; cbn [m_len set_len] in Hn; lia).
      rewrite bytes_cons, bytes_nil, <- !app_assoc. rewrite Ecp at 2 3.
      rewrite <- (patch_step (data s m) [] (take (Z.to_nat mlen) cp) cp1 off mlen) by (lia || by left). by rewrite drop_nil.
    + apply Forall_cons in Hst1 as [Hsx Hst1]. assert (inv s1 (x :: t ++ m2 :: l)) as H2 by reorder H1.
      pose proof (ok_len _ (inv_head _ _ _ _ H2)) as Hlx.
      destruct (IH s1 x t (m2 :: l) 0 (totlen + (mlen + off)) cp1) as (s' & c' & tot' & E & Hi & F & P);
        [done|by constructor|lia|lia|unfold extra at 1; cbn [length] in *; destruct (0 <? m_len x); lia|].
      rewrite E. cbn [mbind outcome_bind]. exists s', (m2 :: c'), tot'. split; [done|]. split; [reorder Hi|].
      split; [eapply mframe_trans; [done|]; eapply frame_sub; [|exact F]; set_solver|].
      destruct P as [(B & Hh & Htot)|P].
      2: { right. intros Ha. specialize (P Ha). unfold extra at 1 in P. cbn [length app] in *. rewrite !length_app in *. cbn [length] in *.
           destruct (0 <? m_len x); lia. }
      left. split; [|split; [done|]; intros _; rewrite Htot by (intros ->; cbn in Hc1; lia); lia].
      specialize (Hin eq_refl). rewrite (bytes_cons s' m2), (F m2), D1' by set_solver. rewrite B, Bt, (bytes_cons s m (x :: t)).
      change (Z.to_nat 0) with 0%nat. rewrite take_0, app_nil_l, Nat.add_0_l, <- app_assoc. rewrite Ecp at 2 3.
      apply (patch_step _ _ _ _ off mlen); [lia|lia|lia|by right; lia].
Qed.

Lemma patched_app d r off cp :
  Z.of_nat (length d) <= off -> patched (d ++ r) off cp = d ++ patched r (off - Z.of_nat (length d)) cp.
Proof.
  intros Ho. unfold patched. set (o := Z.to_nat (off - Z.of_nat (length d))).
  assert (take (Z.to_nat off) ((d ++ r) ++ replicate (Z.to_nat off) 0) = d ++ take o (r ++ replicate o 0)) as ->.
  { rewrite <- app_assoc, take_app_ge by lia. f_equal. replace (Z.to_nat off - length d)%nat with o by lia.
    replace (Z.to_nat off) with (o + length d)%nat by lia.
    by rewrite replicate_add, (app_assoc r), take_app_le by (rewrite length_app, length_replicate; lia). }
  rewrite <- app_assoc. do 3 f_equal. rewrite drop_app_ge by lia. f_equal. lia.
Qed.

Lemma patched_zeros k off cp :
  0 <= off -> (k <= Z.to_nat off + length cp)%nat -> patched (replicate k 0) off cp = patched [] off cp.
Proof.
  intros Ho Hk. unfold patched. rewrite app_nil_l, drop_nil, (drop_ge (replicate k 0)) by (rewrite length_replicate; lia).
  rewrite <- replicate_add, !take_replicate. do 2 f_equal. lia.
Qed.

Lemma patched_inside b off cp :
  off <= Z.of_nat (length b) -> patched b off cp = take (Z.to_nat off) b ++ cp ++ drop (Z.to_nat off + length cp) b.
Proof. intros Ho. unfold patched. by rewrite take_app_le by lia. Qed.

Definition empty_extra (m : mbuf) : nat := if 0 <? m_len m then 0 else 1.

Lemma copyback_skip_spec fuel : forall s m t l off totlen cp,
  inv s (m :: t ++ l) -> Forall (sole s) (m :: t) -> 0 <= off -> off + Z.of_nat (length cp) < 2 ^ 31 -> cp <> [] ->
  (length t + Z.to_nat off + empty_extra m <= fuel)%nat ->
  exists s' c' tot', copyback_skip junk avail nmbufs fuel s m t off totlen cp = Done (s', c', tot') /\
    inv s' (c' ++ l) /\ frame s s' l /\
    ((bytes s' c' = patched (bytes s (m :: t)) off cp /\ head_hdr c' = m_pkthdr m /\ tot' = totlen + off + Z.of_nat (length cp)) \/
     short (Z.of_nat (length (m :: t ++ l) + (length t + Z.to_nat off + empty_extra m + length cp + 1)))).
Proof.
  induction fuel as [|fuel IH]; intros s m t l off totlen cp H Hs Hoff Hcp Hne Hf; cbn [copyback_skip];
    pose proof (len_small _ (inv_head _ _ _ _ H)) as [Hlm _]; pose proof (head_length _ _ _ _ H) as Hdl;
    (destruct (off >? m_len m) eqn:E0;
     [|destruct (copyback_loop_spec (length t + length cp + 1) s m t l off totlen cp H Hs) as (s' & c' & tot' & E & Hi & F & P);
        [lia|lia|unfold extra; destruct (off <? m_len m); lia|]; exists s', c', tot'; (split; [done|]); (split; [done|]); (split; [done|]);
        destruct P as [(B & Hh & Ht)|P];
        [left; rewrite B, patched_inside by (rewrite bytes_cons, length_app; lia); (split; [done|]); (split; [done|]); by apply Ht
        |right; intros Ha; specialize (P Ha); unfold extra in P; destruct (off <? m_len m); lia]]).
  { exfalso. lia. }
  apply Forall_cons in Hs as [Hsm Hst].
  assert (Hoe : (Z.to_nat (off - m_len m) + 1 <= Z.to_nat off + empty_extra m)%nat) by (unfold empty_extra; destruct (0 <? m_len m) eqn:?; lia).
  destruct t as [|x t].
  - destruct (m_get junk avail nmbufs s (m_type m)) as [s1 [n|]] eqn:Eg; pose proof (m_get_spec _ _ _ _ _ _ _ _ H Eg) as G.
    2: { destruct G as [H1 F1]. exists s1, [m], (totlen + m_len m). split; [done|]. split; [done|].
         split; [eapply frame_sub; [|done]; set_solver|]. right.
         eapply short_alloc; [exact H|unfold m_get in Eg; by destruct (can_alloc _ _ _)|]. cbn [length app]. lia. }
    destruct G as (H1 & F1 & Hfr & _). pose proof Hfr as (El & _ & Eh1 & _ & Ed & Ex).
    destruct (fill_spec _ s1 n (m :: l) _ _ _ (replicate (Z.to_nat MLEN) 0) H1 Hfr) as (s2 & n1 & E2 & En1 & H2 & F2 & D2).
    { unfold sole. by rewrite Ex. } { rewrite length_replicate. unfold M_SIZE. rewrite Ex, Eh1. unfold MLEN. lia. }
    rewrite E2. cbn [mbind outcome_bind]. rewrite length_replicate in *.
    rewrite umin_small by (unfold MLEN; lia). set (k := Z.min MLEN _).
    assert (0 < k <= MLEN /\ k <= Z.of_nat (length cp) + (off - m_len m)) as [Hk Hk'] by (unfold k, MLEN; destruct cp; [done|]; cbn [length]; lia).
    destruct (set_len_spec _ s2 (set_len n1 (Z.of_nat (Z.to_nat MLEN))) (m :: l) k H2) as [H3 D3]; [cbn; unfold MLEN in *; lia|].
    change (set_len (set_len n1 _) k) with (set_len n1 k) in H3, D3. rewrite D2, take_replicate in D3.
    replace (Z.to_nat k `min` Z.to_nat MLEN)%nat with (Z.to_nat k) in D3 by lia.
    destruct (IH s2 (set_len n1 k) [] (m :: l) (off - m_len m) (totlen + m_len m) cp) as (s' & c' & tot' & E & Hi & F & P);
      [done|repeat constructor; unfold sole; cbn; rewrite En1; cbn; by rewrite Ex|lia|lia|done
      |unfold empty_extra at 1; cbn [m_len set_len length] in *; replace (0 <? k) with true by lia; lia|].
    rewrite E. cbn [mbind outcome_bind]. exists s', (m :: c'), tot'. split; [done|]. split; [reorder Hi|].
    split; [eapply mframe_trans; [eapply frame_sub; [|exact F1]; set_solver|]; eapply mframe_trans; [eapply frame_sub; [|exact F2]; set_solver|];
            eapply frame_sub; [|exact F]; set_solver|].
    destruct P as [(B & Hh & Ht)|P].
    2: { right. intros Ha. specialize (P Ha). unfold empty_extra at 1 in P. cbn [m_len set_len length app] in *. replace (0 <? k) with true in P by lia. lia. }
    left. split; [|split; [done|lia]].
    rewrite (bytes_cons s' m), (F m), (F2 m), (F1 m), B by set_solver. rewrite !bytes_cons, D3, bytes_nil, app_nil_r.
    rewrite (patched_app (data s m)), Hdl by lia. f_equal. apply patched_zeros; lia.
  - cbn [app] in H. assert (inv s (x :: t ++ m :: l)) as H1 by reorder H.
    destruct (IH s x t (m :: l) (off - m_len m) (totlen + m_len m) cp) as (s' & c' & tot' & E & Hi & F & P);
      [done|done|lia|lia|done|unfold empty_extra at 1; cbn [length] in *; destruct (0 <? m_len x); lia|].
    rewrite E. cbn [mbind outcome_bind]. exists s', (m :: c'), tot'. split; [done|]. split; [reorder Hi|].
    split; [eapply frame_sub; [|exact F]; set_solver|].
    destruct P as [(B & Hh & Ht)|P].
    2: { right. intros Ha. specialize (P Ha). unfold empty_extra at 1 in P. cbn [length app] in *. rewrite !length_app in *. cbn [length] in *.
         destruct (0 <? m_len x); lia. }
    left. split; [|split; [done|lia]]. rewrite (bytes_cons s' m), (F m), B by set_solver.
    rewrite (bytes_cons s m), (patched_app (data s m)), Hdl by lia. done.
Qed.

Lemma patched_length b off cp :
  0 <= off -> Z.of_nat (length (patched b off cp)) = Z.max (Z.of_nat (length b)) (off + Z.of_nat (length cp)).
Proof. intros Ho. unfold patched. rewrite !length_app, length_take, length_drop, length_app, length_replicate. lia. Qed.

Lemma m_copyback_spec s c l off cp :
  inv s (c ++ l) -> c <> [] -> Forall (sole s) c -> hdr_ok c -> 0 <= off -> cp <> [] ->
  off + Z.of_nat (length cp) < 2 ^ 31 ->
  exists s' c', m_copyback junk avail nmbufs s c off cp = Done (s', c') /\ inv s' (c' ++ l) /\ frame s s' l /\
    ((bytes s' c' = patched (bytes s c) off cp /\ hdr_ok c') \/
     short (Z.of_nat (2 * length (c ++ l) + Z.to_nat off + length cp + 1))).
Proof.
  intros H Hne Hs Hok Ho Hcp Hlt. destruct c as [|m t]; [done|]. cbn [app] in H. unfold m_copyback.
  destruct (copyback_skip_spec (length t + Z.to_nat off + 1) s m t l off 0 cp H Hs Ho Hlt Hcp) as (s' & c' & tot' & E & Hi & F & P);
    [unfold empty_extra; destruct (0 <? m_len m); lia|].
  rewrite E. cbn [mbind outcome_bind]. set (f := fun m : mbuf => match m_pkthdr m with Some _ => _ | None => _ end).
  assert (hdr_fun f) as Hf.
  { intros x. unfold f. destruct (m_pkthdr x) as [h|] eqn:Ex; [|exists (m_pkthdr x); split; [by destruct x|by rewrite Ex]].
    destruct (ph_len h <? tot'); [destruct (hdr_fun_set tot' x) as (h' & ? & ?); exists h'; by rewrite Ex in *|].
    exists (m_pkthdr x). split; [by destruct x|by rewrite Ex]. }
  destruct (on_head_spec _ s' f c' l Hf Hi) as (H2 & B2 & T2). exists s'. eexists. split; [done|]. split; [done|]. split; [done|].
  destruct P as [(B & Hh & ->)|P].
  2: { right. intros Ha. specialize (P Ha). cbn [app length] in *. rewrite length_app in *. unfold empty_extra in P. destruct (0 <? m_len m); lia. }
  left. rewrite B2. split; [done|]. unfold hdr_ok in *. rewrite T2.
  assert (total c' = Z.max (total (m :: t)) (off + Z.of_nat (length cp))) as Et.
  { rewrite <- (bytes_length _ _ _ _ Hi), B, patched_length by done. by rewrite (bytes_length _ (m :: t) s l H). }
  destruct c' as [|m' t']; [done|]. change (head_hdr (m' :: t')) with (m_pkthdr m') in Hh.
  change (head_hdr (m :: t)) with (m_pkthdr m) in Hok. change (head_hdr (on_head f (m' :: t'))) with (m_pkthdr (f m')).
  unfold f. rewrite Hh, Et. destruct (m_pkthdr m) as [h|]; [|by rewrite Hh].
  destruct (ph_len h <? _) eqn:Ec; unfold hdr_set; cbn [m_pkthdr set_pkthdr]; rewrite Hh; cbn [fmap option_fmap option_map ph_len]; lia.
Qed.
End Back.
