(* ===== verification/MbufSpec.v ===== *)
(** Mbuf chains as byte strings: the operations of Mbuf.v refine operations on a
    map from handles to byte strings with an optional packet header.

    The chains of a state share external storage; the theorem says that this
    cannot be seen: an operation changes the bytes of its own chains only. *)
From stdpp Require Import base list gmap.
From Stdlib Require Import ZArith Lia.
From S2P Require Import Prelude Mbuf MbufInv MbufOps MbufCopy.

Local Open Scope Z_scope.

(** The chains of a state, by handle. *)
Abbreviation chains := (gmap Z (list mbuf)).

(** * Concatenation of packets *)

Section Spec.
Context (junk : Z -> Z -> Z) (avail : Z -> bool) (nmbufs max_protohdr : Z).
Context (nmbufs_int : nmbufs < 2 ^ 31) (proto_int : 0 <= max_protohdr < 2 ^ 31).
#[local] Abbreviation inv := (inv nmbufs).

Ltac reorder H := refine (proj1 (inv_perm nmbufs _ _ _ _) H); solve_Permutation.

Lemma demote_one s m l h :
  inv s (m :: l) -> m_pkthdr m = Some h -> inv s (m_demote_pkthdr m :: l) /\ data s (m_demote_pkthdr m) = data s m.
Proof.
  intros H Eh. pose proof (inv_head _ _ _ _ H) as Hok. pose proof (ok_dat _ Hok) as Hd. pose proof (len_small _ Hok) as [Hl Hp]. split.
  - eapply inv_update; [done|done|done|]. destruct Hok. constructor; cbn; try done.
    + rewrite overwrite_length; [done|lia|]. rewrite length_replicate. unfold MLEN, PKTHDR_SIZE in *. lia.
    + unfold M_START in *. cbn in *. destruct (m_ext m); lia.
    + unfold M_START, M_SIZE in *. cbn in *. rewrite Eh in *. destruct (m_ext m); unfold PKTHDR_SIZE, MHLEN, MLEN in *; lia.
  - unfold data, storage. cbn. destruct (m_ext m) eqn:Ex; [done|]. unfold slice, overwrite. cbn [m_data m_len m_demote_pkthdr set_pkthdr set_dat].
    assert (PKTHDR_SIZE <= m_data m) as Hge by (pose proof (ok_start _ Hok) as Hs; unfold M_START in Hs; by rewrite Ex, Eh in Hs).
    rewrite take_0, app_nil_l, length_replicate. f_equal. rewrite drop_app_ge by (rewrite length_replicate; lia).
    rewrite length_replicate, drop_drop. f_equal. unfold PKTHDR_SIZE in *. lia.
Qed.

Lemma m_demote_spec n : forall s l,
  inv s (n ++ l) -> inv s (m_demote n true ++ l) /\ bytes s (m_demote n true) = bytes s n.
Proof.
  induction n as [|m n IH]; intros s l H; [done|]. cbn [m_demote fmap list_fmap] in *.
  set (m' := match m_pkthdr m with Some _ => m_demote_pkthdr m | None => m end).
  assert (inv s (m' :: n ++ l) /\ data s m' = data s m) as [H1 D1].
  { unfold m'. destruct (m_pkthdr m) eqn:E; [by eapply demote_one|done]. }
  destruct (IH s (m' :: l)) as [H2 B2]; [reorder H1|]. cbn [m_demote fmap list_fmap] in H2, B2.
  split; [reorder H2|]. by rewrite !bytes_cons, D1, B2.
Qed.

Lemma m_catpkt_spec s m n l :
  inv s (m ++ n ++ l) -> has_hdr m = true -> has_hdr n = true -> hdr_ok m -> hdr_ok n -> total m + total n < 2 ^ 31 ->
  exists s' c', m_catpkt s m n = Done (s', c') /\ inv s' (c' ++ l) /\ frame s s' l /\
    bytes s' c' = bytes s m ++ bytes s n /\ hdr_ok c' /\ has_hdr c' = true.
Proof.
  intros H Hm Hn Okm Okn Ht. assert (inv s (n ++ m ++ l)) as Hn' by reorder H.
  pose proof (ctotal_nonneg _ _ _ _ H) as Htm. pose proof (ctotal_nonneg _ _ _ _ Hn') as Htn.
  destruct n as [|n0 n]; [done|]. unfold m_catpkt. unfold has_hdr, hdr_ok in Hn, Okn. change (head_hdr (n0 :: n)) with (m_pkthdr n0) in *.
  destruct (m_pkthdr n0) as [h|]; [|done]. destruct m as [|m0 m]; [done|].
  destruct (on_head_spec _ s _ (m0 :: m) ((n0 :: n) ++ l) (hdr_fun_add (ph_len h)) H) as (H1 & B1 & T1).
  set (m1 := on_head _ (m0 :: m)) in *.
  destruct (m_demote_spec (n0 :: n) s (m1 ++ l)) as [H2 B2]; [reorder H1|].
  assert (inv s (m1 ++ m_demote (n0 :: n) true ++ l)) as H3 by reorder H2.
  destruct (m_cat_spec junk avail nmbufs max_protohdr nmbufs_int proto_int m1 s _ l H3) as (s' & c' & E & Hi & F & B & Hh); [done|].
  rewrite E. exists s', c'. split; [done|]. split; [done|]. split; [done|]. rewrite B, B1, B2. split; [done|].
  pose proof (bytes_length _ _ _ _ Hi) as Hb. rewrite B, B1, B2, length_app in Hb.
  pose proof (bytes_length _ (m0 :: m) s ((n0 :: n) ++ l) H) as Hbm. pose proof (bytes_length _ _ _ _ Hn') as Hbn.
  unfold hdr_ok, has_hdr in *. rewrite Hh. change (head_hdr (m0 :: m)) with (m_pkthdr m0) in *.
  change (head_hdr m1) with (m_pkthdr (hdr_add m0 (ph_len h))). unfold hdr_add. cbn [m_pkthdr set_pkthdr]. destruct (m_pkthdr m0) as [h0|]; [|done].
  cbn [fmap option_fmap option_map ph_len]. split; [|done]. rewrite s32_small by lia. lia.
Qed.

(** * A store of chains *)

(** All mbufs of all chains. *)
Definition live (M : chains) : list mbuf := concat (snd <$> map_to_list M).

Inductive op :=
  | Get (h : Z) (hdr : bool)
  | Getcl (h : Z) (hdr : bool)
  | Append (h : Z) (d : list Z)
  | Adj (h req : Z)
  | Pullup (h len : Z)
  | Prepend (h : Z) (d : list Z)
  | Split (h h2 len : Z)
  | Copym (h h2 off len : Z)
  | Dup (h h2 : Z)
  | Catpkt (h h2 : Z)
  | Free (h : Z).

Definition put (M : chains) (h : Z) (c : list mbuf) : chains := match c with [] => M | _ => <[h := c]> M end.

(** A header in front: M_PREPEND and the caller's copy into the new space. *)
Definition prepend (s : store) (c : list mbuf) (d : list Z) : outcome (store * option (list mbuf)) :=
  x ← M_PREPEND junk avail nmbufs s c (Z.of_nat (length d));
  let '(s1, oc) := x in
  match oc with
  | Some (m :: t) => y ← mwrite s1 m 0 d; let '(s2, m1) := y in Done (s2, Some (m1 :: t))
  | _ => Done (s1, None)
  end.

Definition MT_DATA : Z := 1.

Definition run (s : store) (M : chains) (o : op) : outcome (store * chains) :=
  match o with
  | Get h hdr =>
      match (if hdr then m_gethdr junk avail nmbufs else m_get junk avail nmbufs) s MT_DATA with
      | (s1, Some m) => Done (s1, <[h := [m]]> M)
      | (s1, None) => Done (s1, M)
      end
  | Getcl h hdr =>
      match m_getcl junk avail nmbufs s MT_DATA hdr with
      | (s1, Some m) => Done (s1, <[h := [m]]> M)
      | (s1, None) => Done (s1, M)
      end
  | Append h d =>
      match M !! h with
      | Some c => x ← m_append junk avail nmbufs s c d; let '(s1, c1, _) := x in Done (s1, <[h := c1]> M)
      | None => Fault
      end
  | Adj h req =>
      match M !! h with
      | Some c => x ← m_adj s c req; let '(s1, c1) := x in Done (s1, <[h := c1]> M)
      | None => Fault
      end
  | Pullup h len =>
      match M !! h with
      | Some c =>
          x ← m_pullup junk avail nmbufs max_protohdr s c len;
          let '(s1, oc) := x in Done (s1, match oc with Some c1 => <[h := c1]> M | None => delete h M end)
      | None => Fault
      end
  | Prepend h d =>
      match M !! h with
      | Some c => x ← prepend s c d; let '(s1, oc) := x in Done (s1, match oc with Some c1 => <[h := c1]> M | None => delete h M end)
      | None => Fault
      end
  | Split h h2 len =>
      match M !! h with
      | Some c => x ← m_split junk avail nmbufs 2 s c len; let '(s1, c1, c2) := x in Done (s1, put (<[h := c1]> M) h2 c2)
      | None => Fault
      end
  | Copym h h2 off len =>
      match M !! h with
      | Some c => x ← m_copym junk avail nmbufs s c off len; let '(s1, c2) := x in Done (s1, put M h2 c2)
      | None => Fault
      end
  | Dup h h2 =>
      match M !! h with
      | Some c => x ← m_dup junk avail nmbufs s c; let '(s1, c2) := x in Done (s1, put M h2 c2)
      | None => Fault
      end
  | Catpkt h h2 =>
      match M !! h, M !! h2 with
      | Some m, Some n => x ← m_catpkt s m n; let '(s1, c1) := x in Done (s1, <[h := c1]> (delete h2 M))
      | _, _ => Fault
      end
  | Free h =>
      match M !! h with
      | Some c => s1 ← m_freem s c; Done (s1, delete h M)
      | None => Fault
      end
  end.

(** ** Byte strings *)

(** The length in the packet header, when there is one, and the bytes. *)
Record achain := AChain { a_hdr : option Z; a_bytes : list Z }.

Definition alen (x : achain) : Z := Z.of_nat (length (a_bytes x)).
Definition pk (hdr : bool) (b : list Z) : achain := AChain (if hdr then Some (Z.of_nat (length b)) else None) b.
Definition is_pk (x : achain) : bool := match a_hdr x with Some n => n =? alen x | None => false end.
Definition consistent (x : achain) : bool := match a_hdr x with Some n => n =? alen x | None => true end.
Definition hdr_of (x : achain) : bool := match a_hdr x with Some _ => true | None => false end.

Definition abs1 (s : store) (c : list mbuf) : achain := AChain (ph_len <$> head_hdr c) (bytes s c).
Definition abs (s : store) (M : chains) : gmap Z achain := abs1 s <$> M.

(** When an operation may be called. *)
Definition guard (a : gmap Z achain) (o : op) : Prop :=
  match o with
  | Get h _ | Getcl h _ => a !! h = None
  | Append h d => exists x, a !! h = Some x /\ consistent x = true /\ alen x + Z.of_nat (length d) < M_COPYALL
  | Adj h req => exists x, a !! h = Some x /\ consistent x = true /\ alen x < M_COPYALL /\ - 2 ^ 31 < req < 2 ^ 31
  | Pullup h len => exists x, a !! h = Some x /\ 0 <= len
  | Prepend h d => exists x, a !! h = Some x /\ consistent x = true /\ alen x + Z.of_nat (length d) < M_COPYALL /\
                             0 < Z.of_nat (length d) <= MHLEN
  | Split h h2 len => exists x, a !! h = Some x /\ is_pk x = true /\ alen x < M_COPYALL /\ 0 <= len <= alen x /\ a !! h2 = None
  | Copym h h2 off len => exists x, a !! h = Some x /\ consistent x = true /\ alen x < M_COPYALL /\ 0 <= off < alen x /\ 0 < len /\
                                    (len = M_COPYALL \/ off + len <= alen x) /\ a !! h2 = None
  | Dup h h2 => exists x, a !! h = Some x /\ is_pk x = true /\ alen x < M_COPYALL /\ a !! h2 = None
  | Catpkt h h2 => exists x y, a !! h = Some x /\ a !! h2 = Some y /\ h <> h2 /\ is_pk x = true /\ is_pk y = true /\
                               alen x + alen y < M_COPYALL
  | Free h => is_Some (a !! h)
  end.

(** What it may do to the byte strings; the second rule of an operation is the
    one for want of mbufs. *)
Inductive astep (a : gmap Z achain) : op -> gmap Z achain -> Prop :=
  | A_get h hdr : astep a (Get h hdr) (<[h := pk hdr []]> a)
  | A_get_none h hdr : astep a (Get h hdr) a
  | A_getcl h hdr : astep a (Getcl h hdr) (<[h := pk hdr []]> a)
  | A_getcl_none h hdr : astep a (Getcl h hdr) a
  | A_append h d x k : a !! h = Some x -> 0 <= k <= Z.of_nat (length d) ->
      astep a (Append h d) (<[h := pk (hdr_of x) (a_bytes x ++ take (Z.to_nat k) d)]> a)
  | A_adj h req x : a !! h = Some x -> astep a (Adj h req) (<[h := pk (hdr_of x) (adjusted (a_bytes x) req)]> a)
  | A_pullup h len : astep a (Pullup h len) a
  | A_pullup_none h len : astep a (Pullup h len) (delete h a)
  | A_prepend h d x : a !! h = Some x -> astep a (Prepend h d) (<[h := pk (hdr_of x) (d ++ a_bytes x)]> a)
  | A_prepend_none h d : astep a (Prepend h d) (delete h a)
  | A_split h h2 len x : a !! h = Some x ->
      astep a (Split h h2 len)
        (<[h2 := pk true (drop (Z.to_nat len) (a_bytes x))]> (<[h := pk true (take (Z.to_nat len) (a_bytes x))]> a))
  | A_split_none h h2 len x n : a !! h = Some x -> n = alen x \/ n = len ->
      astep a (Split h h2 len) (<[h := AChain (Some n) (a_bytes x)]> a)
  | A_copym h h2 off len x : a !! h = Some x ->
      astep a (Copym h h2 off len)
        (<[h2 := pk ((off =? 0) && hdr_of x) (take (Z.to_nat len) (drop (Z.to_nat off) (a_bytes x)))]> a)
  | A_copym_none h h2 off len : astep a (Copym h h2 off len) a
  | A_dup h h2 x : a !! h = Some x -> astep a (Dup h h2) (<[h2 := x]> a)
  | A_dup_none h h2 : astep a (Dup h h2) a
  | A_catpkt h h2 x y : a !! h = Some x -> a !! h2 = Some y ->
      astep a (Catpkt h h2) (<[h := pk true (a_bytes x ++ a_bytes y)]> (delete h2 a))
  | A_free h : astep a (Free h) (delete h a).
End Spec.
