(* ===== verification/MbufRefine.v ===== *)
(** The refinement of MbufSpec.v: a state is well formed when its chains hold
    exactly the allocated mbufs; every operation that may be called returns,
    keeps that, and does to the byte strings what the specification says.  It
    holds of every state reached from the empty one, which gives: no leak, exact
    reference counts, and chains that share storage but not contents. *)
From stdpp Require Import base list gmap.
From Stdlib Require Import ZArith Lia.
From S2P Require Import Prelude Mbuf MbufInv MbufOps MbufCopy MbufSpec.

Local Open Scope Z_scope.

(** * Chains and their mbufs *)

Lemma concat_perm (x y : list (Z * list mbuf)) : x ≡ₚ y -> concat (snd <$> x) ≡ₚ concat (snd <$> y).
Proof. induction 1; cbn; [done|by f_equiv|by rewrite !(assoc_L (++)), (Permutation_app_comm (snd _))|by etrans]. Qed.

Lemma live_insert (M : chains) h c : M !! h = None -> live (<[h := c]> M) ≡ₚ c ++ live M.
Proof. intros H. exact (concat_perm _ ((h, c) :: map_to_list M) (map_to_list_insert M h c H)). Qed.

Lemma live_delete (M : chains) h c : M !! h = Some c -> live M ≡ₚ c ++ live (delete h M).
Proof. intros H. symmetry. exact (concat_perm ((h, c) :: map_to_list (delete h M)) _ (map_to_list_delete M h c H)). Qed.

Lemma live_elem (M : chains) h c : M !! h = Some c -> c ⊆ live M.
Proof. intros H m Hm. rewrite (live_delete M h c H). apply elem_of_app. by left. Qed.

Lemma abs_frame s s' M : frame s s' (live M) -> abs s' M = abs s M.
Proof.
  intros H. unfold abs. apply map_fmap_ext. intros h c Hc. unfold abs1. f_equal.
  eapply frame_part; [done|]. by eapply live_elem.
Qed.

Lemma abs_insert s M h c : abs s (<[h := c]> M) = <[h := abs1 s c]> (abs s M).
Proof. apply fmap_insert. Qed.

Lemma abs_delete s M h : abs s (delete h M) = delete h (abs s M).
Proof. apply fmap_delete. Qed.

Lemma abs_lookup s M h x : abs s M !! h = Some x -> exists c, M !! h = Some c /\ x = abs1 s c.
Proof. unfold abs. rewrite lookup_fmap. intros (c & Ec & E)%fmap_Some. by exists c. Qed.

Lemma abs_some s (M : chains) h c : M !! h = Some c -> abs s M !! h = Some (abs1 s c).
Proof. intros E. unfold abs. by rewrite lookup_fmap, E. Qed.

Lemma abs_none s M h : abs s M !! h = None -> M !! h = None.
Proof. unfold abs. rewrite lookup_fmap. by intros ?%fmap_None. Qed.

Lemma abs_put s M h c x : M !! h = Some c -> <[h := x]> (abs s (delete h M)) = <[h := x]> (abs s M).
Proof. intros H. rewrite abs_delete. apply insert_delete_eq. Qed.

(** ** The conditions are decidable *)

#[global] Instance lookup_dec {A} (a : gmap Z A) h (P : A -> Prop) `{!forall x, Decision (P x)} :
  Decision (exists x, a !! h = Some x /\ P x).
Proof.
  destruct (a !! h) as [x|] eqn:E; [|right; by intros (x & ? & _)].
  destruct (decide (P x)) as [Hp|Hp]; [left; by exists x|right; intros (y & ? & ?); by simplify_eq].
Defined.

#[global] Instance lookup_dec2 {A} (a : gmap Z A) h h2 (P : A -> A -> Prop) `{!forall x y, Decision (P x y)} :
  Decision (exists x y, a !! h = Some x /\ a !! h2 = Some y /\ P x y).
Proof.
  destruct (a !! h) as [x|] eqn:E; [|right; by intros (x & y & ? & _)].
  destruct (a !! h2) as [y|] eqn:E2; [|right; by intros (x' & y & _ & ? & _)].
  destruct (decide (P x y)) as [Hp|Hp]; [left; by exists x, y|right; intros (? & ? & ? & ? & ?); by simplify_eq].
Defined.

#[global] Instance lookup_none_dec {A} (a : gmap Z A) h : Decision (a !! h = None).
Proof. destruct (a !! h); [by right|by left]. Defined.

#[global] Instance guard_dec a o : Decision (guard a o).
Proof. destruct o; cbn; apply _. Defined.

Section Refine.
Context (junk : Z -> Z -> Z) (avail : Z -> bool) (nmbufs max_protohdr : Z).
Context (nmbufs_int : nmbufs < 2 ^ 31) (proto_int : 0 <= max_protohdr < 2 ^ 31).
#[local] Abbreviation inv := (inv nmbufs).

Definition wf (s : store) (M : chains) : Prop := inv s (live M) /\ map_Forall (fun _ c => c <> []) M.

Lemma wf_open s M h c : wf s M -> M !! h = Some c -> inv s (c ++ live (delete h M)) /\ c <> [].
Proof.
  intros [H Hn] E. split; [|by apply (Hn h c)]. eapply inv_perm; [|exact H]. symmetry. by apply live_delete.
Qed.

(** A state whose chains are those of [M], outside the ones given back. *)
Lemma wf_intro s M0 h c :
  M0 !! h = None -> map_Forall (fun _ c => c <> []) M0 -> c <> [] -> inv s (c ++ live M0) -> wf s (<[h := c]> M0).
Proof.
  intros E Hn Hc H. split; [|by apply map_Forall_insert_2].
  eapply inv_perm; [|exact H]. by apply live_insert.
Qed.

Lemma nonempty_delete s M h : wf s M -> map_Forall (fun _ c => c <> []) (delete h M).
Proof. intros [_ Hn]. by apply map_Forall_delete. Qed.

Lemma wf_set s s' M h c c' :
  wf s M -> M !! h = Some c -> c' <> [] -> inv s' (c' ++ live (delete h M)) -> frame s s' (live (delete h M)) ->
  wf s' (<[h := c']> M) /\ abs s' (<[h := c']> M) = <[h := abs1 s' c']> (abs s M).
Proof.
  intros W E Hc H F. rewrite <- insert_delete_eq. split.
  - apply wf_intro; [by rewrite lookup_delete_eq|by eapply nonempty_delete|done|done].
  - by rewrite abs_insert, (abs_frame _ _ _ F), (abs_put _ _ _ c).
Qed.

Lemma wf_remove s s' M h :
  wf s M -> inv s' (live (delete h M)) -> frame s s' (live (delete h M)) ->
  wf s' (delete h M) /\ abs s' (delete h M) = delete h (abs s M).
Proof.
  intros W H F. split; [split; [done|by eapply nonempty_delete]|]. by rewrite (abs_frame _ _ _ F), abs_delete.
Qed.

Lemma wf_new s s' M h c :
  wf s M -> M !! h = None -> c <> [] -> inv s' (c ++ live M) -> frame s s' (live M) ->
  wf s' (<[h := c]> M) /\ abs s' (<[h := c]> M) = <[h := abs1 s' c]> (abs s M).
Proof.
  intros [_ Hn] E Hc H F. split; [by apply wf_intro|]. by rewrite abs_insert, (abs_frame _ _ _ F).
Qed.

Lemma wf_keep s s' M : wf s M -> inv s' (live M) -> frame s s' (live M) -> wf s' M /\ abs s' M = abs s M.
Proof. intros [_ Hn] H F. split; [done|]. by apply abs_frame. Qed.

(** ** The abstraction of one chain *)

Lemma abs1_pk s c l : inv s (c ++ l) -> hdr_ok c -> abs1 s c = pk (has_hdr c) (bytes s c).
Proof.
  intros H Hh. pose proof (bytes_length _ _ _ _ H) as L. unfold abs1, pk, hdr_ok, has_hdr in *.
  destruct (head_hdr c) as [h|]; [|done]. cbn. do 2 f_equal. lia.
Qed.

Lemma abs1_alen s c l : inv s (c ++ l) -> alen (abs1 s c) = total c.
Proof. intros H. unfold alen. cbn. by apply (bytes_length _ _ _ _ H). Qed.

Lemma abs1_consistent s c l : inv s (c ++ l) -> consistent (abs1 s c) = true -> hdr_ok c.
Proof.
  intros H. unfold consistent. rewrite (abs1_alen _ _ _ H). unfold hdr_ok. cbn. destruct (head_hdr c); cbn; [lia|done].
Qed.

Lemma abs1_is_pk s c l : inv s (c ++ l) -> is_pk (abs1 s c) = true -> hdr_ok c /\ is_Some (head_hdr c).
Proof.
  intros H. unfold is_pk. rewrite (abs1_alen _ _ _ H). unfold hdr_ok. cbn. destruct (head_hdr c); cbn; [|done].
  intros. split; [lia|by eexists].
Qed.

Lemma abs1_hdr_of s c : hdr_of (abs1 s c) = has_hdr c.
Proof. unfold hdr_of, has_hdr. cbn. by destruct (head_hdr c). Qed.

Lemma is_Some_has_hdr c : is_Some (head_hdr c) -> has_hdr c = true.
Proof. unfold has_hdr. by intros [h ->]. Qed.

Lemma has_hdr_nonempty c : has_hdr c = true -> c <> [].
Proof. by intros H ->. Qed.
(** * One operation *)

#[local] Abbreviation run := (run junk avail nmbufs max_protohdr).

Definition simulated (s : store) (M : chains) (o : op) : Prop :=
  exists s' M', run s M o = Done (s', M') /\ astep (abs s M) o (abs s' M') /\ wf s' M'.

(** From the facts of a specification lemma: the run returns [s'] and [M'],
    whose abstraction is [a]. *)
Lemma simulated_by s M o s' M' a :
  run s M o = Done (s', M') -> wf s' M' /\ abs s' M' = a -> astep (abs s M) o a -> simulated s M o.
Proof. intros E [W <-] A. by exists s', M'. Qed.

(** A new mbuf becomes a chain of its own, with no data. *)
Lemma refine_new s M o h (hdr x : bool) s1 om :
  wf s M -> M !! h = None -> got nmbufs s s1 (live M) MT_DATA (if hdr then Some (Pkthdr 0 0) else None) x om ->
  run s M o = Done (s1, match om with Some n => <[h := [n]]> M | None => M end) ->
  astep (abs s M) o (<[h := pk hdr []]> (abs s M)) -> astep (abs s M) o (abs s M) -> simulated s M o.
Proof.
  intros W Eh G E A1 A2. destruct om as [n|].
  - destruct G as (H & F & Hf & _). eapply simulated_by; [done|by apply (wf_new s)|].
    replace (abs1 s1 [n]) with (pk hdr []); [done|]. unfold abs1, pk, bytes. cbn.
    rewrite (fresh_data s1 _ _ _ _ Hf). destruct Hf as (_ & _ & -> & _). by destruct hdr.
  - destruct G as [H F]. eapply simulated_by; [done|by apply (wf_keep s)|done].
Qed.

Lemma refine_get s M h hdr : wf s M -> guard (abs s M) (Get h hdr) -> simulated s M (Get h hdr).
Proof.
  intros W G%abs_none. pose proof (proj1 W) as Hi.
  destruct ((if hdr then m_gethdr junk avail nmbufs else m_get junk avail nmbufs) s MT_DATA) as [s1 om] eqn:E.
  eapply (refine_new _ _ _ h hdr false s1 om); [done|done| |cbn; rewrite E; by destruct om|constructor|constructor].
  destruct hdr; [by eapply m_gethdr_spec|by eapply m_get_spec].
Qed.

Lemma refine_getcl s M h hdr : wf s M -> guard (abs s M) (Getcl h hdr) -> simulated s M (Getcl h hdr).
Proof.
  intros W G%abs_none. pose proof (proj1 W) as Hi.
  destruct (m_getcl junk avail nmbufs s MT_DATA hdr) as [s1 om] eqn:E.
  eapply (refine_new _ _ _ h hdr true s1 om); [done|done| |cbn; rewrite E; by destruct om|constructor|constructor].
  by eapply m_getcl_spec.
Qed.

Lemma refine_append s M h d : wf s M -> guard (abs s M) (Append h d) -> simulated s M (Append h d).
Proof.
  intros W (x & (c & Ec & ->)%abs_lookup & Hc & Hl). destruct (wf_open _ _ _ _ W Ec) as [H Hne].
  rewrite (abs1_alen _ _ _ H) in Hl. apply (abs1_consistent _ _ _ H) in Hc. unfold M_COPYALL in Hl.
  destruct (m_append_spec junk avail nmbufs max_protohdr nmbufs_int proto_int s c _ d H Hne Hc) as (s' & c' & k & E & H' & F & Hk & B & Hh & [S1 S2]); [lia|].
  eapply (simulated_by _ _ _ s' (<[h := c']> M)); [cbn; by rewrite Ec, E|eapply wf_set; [done|done| |done|done]|].
  { by rewrite S2. }
  rewrite (abs1_pk _ _ _ H' Hh), S1, B, <- (abs1_hdr_of s). apply (A_append _ h d (abs1 s c)); [|done].
  by apply abs_some.
Qed.

Lemma refine_adj s M h req : wf s M -> guard (abs s M) (Adj h req) -> simulated s M (Adj h req).
Proof.
  intros W (x & (c & Ec & ->)%abs_lookup & Hc & Hl & Hr). destruct (wf_open _ _ _ _ W Ec) as [H Hne].
  rewrite (abs1_alen _ _ _ H) in Hl. apply (abs1_consistent _ _ _ H) in Hc. unfold M_COPYALL in Hl.
  destruct (m_adj_spec junk avail nmbufs max_protohdr nmbufs_int proto_int s c _ req H Hc) as (s' & c' & E & H' & F & B & Hh & [S1 S2]); [lia|lia|].
  eapply (simulated_by _ _ _ s' (<[h := c']> M)); [cbn; by rewrite Ec, E|eapply wf_set; [done|done| |done|done]|].
  { by rewrite S2. }
  rewrite (abs1_pk _ _ _ H' Hh), S1, B, <- (abs1_hdr_of s). apply (A_adj _ h req (abs1 s c)).
  by apply abs_some.
Qed.

Lemma refine_pullup s M h len : wf s M -> guard (abs s M) (Pullup h len) -> simulated s M (Pullup h len).
Proof.
  intros W (x & (c & Ec & ->)%abs_lookup & Hl). destruct (wf_open _ _ _ _ W Ec) as [H Hne].
  destruct (m_pullup_spec junk avail nmbufs max_protohdr nmbufs_int proto_int s c _ len H Hne Hl) as (s' & [c'|] & E & [F P] & _).
  - destruct P as (H' & B & Hh & m & t & -> & _).
    eapply (simulated_by _ _ _ s' (<[h := m :: t]> M)); [cbn; by rewrite Ec, E|by eapply wf_set|].
    unfold abs1. rewrite B, Hh. change (AChain _ _) with (abs1 s c). rewrite <- abs_insert, insert_id by done. constructor.
  - eapply (simulated_by _ _ _ s' (delete h M)); [cbn; by rewrite Ec, E|by apply (wf_remove s)|]. constructor.
Qed.

Lemma refine_free s M h : wf s M -> guard (abs s M) (Free h) -> simulated s M (Free h).
Proof.
  intros W [x (c & Ec & ->)%abs_lookup]. destruct (wf_open _ _ _ _ W Ec) as [H Hne].
  destruct (m_freem_inv nmbufs nmbufs_int c s _ H) as (s' & E & H' & F).
  eapply (simulated_by _ _ _ s' (delete h M)); [cbn; by rewrite Ec, E|by apply (wf_remove s)|]. constructor.
Qed.

Lemma set_len_id m : set_len m (m_len m) = m.
Proof. by destruct m. Qed.

Lemma prepend_spec s c l d :
  inv s (c ++ l) -> c <> [] -> 0 < Z.of_nat (length d) <= MHLEN -> hdr_ok c -> total c + Z.of_nat (length d) < 2 ^ 31 ->
  exists s' oc, prepend junk avail nmbufs s c d = Done (s', oc) /\ frame s s' l /\
    match oc with
    | Some c' => inv s' (c' ++ l) /\ hdr_ok c' /\ has_hdr c' = has_hdr c /\ c' <> [] /\ bytes s' c' = d ++ bytes s c
    | None => inv s' l
    end.
Proof.
  intros H Hne Hd Hh Hl. unfold prepend.
  destruct (M_PREPEND_spec junk avail nmbufs max_protohdr nmbufs_int proto_int s c l (Z.of_nat (length d)) H Hne ltac:(lia) Hh Hl) as (s1 & [c1|] & E & P);
    rewrite E; cbn [mbind outcome_bind]; [|destruct P; by exists s1, None].
  destruct P as (H1 & F1 & Hh1 & [S1 _] & (j & B & Lj) & m & t & -> & Hm & Hs).
  pose proof (inv_head _ _ _ _ H1) as Hok. pose proof (ok_end _ Hok) as He. pose proof (head_length _ _ _ _ H1) as Ld.
  destruct (mwrite_at _ s1 m (t ++ l) 0 d H1 (Hs ltac:(lia))) as (s2 & m2 & E2 & Em & H2 & F2 & _ & D2); [lia|lia|].
  rewrite Z.max_l in H2, D2 by lia. rewrite E2. cbn [mbind outcome_bind].
  assert (set_len m2 (m_len m) = m2) as Eid by (rewrite Em; by destruct m). rewrite Eid in H2, D2.
  exists s2, (Some (m2 :: t)). split; [done|]. split; [eapply mframe_trans; [done|]; eapply frame_sub; [|done]; set_solver|].
  split; [done|]. unfold hdr_ok, has_hdr in *. cbn [head_hdr hd_error mbind option_bind] in *.
  assert (m_pkthdr m2 = m_pkthdr m /\ m_len m2 = m_len m) as [Eh El] by (by rewrite Em).
  rewrite (ctotal_cons m2), El, Eh, <- ctotal_cons. split; [done|]. split; [done|]. split; [done|].
  rewrite bytes_cons, D2, (frame_part _ _ _ t F2) by set_solver. rewrite bytes_cons in B.
  rewrite take_0, app_nil_l. rewrite <- app_assoc. f_equal. change (Z.to_nat 0 + length d)%nat with (length d).
  rewrite <- (drop_app_le (data s1 m)) by lia. rewrite B. replace (length d) with (length j) by lia. by rewrite drop_app_length.
Qed.

Lemma refine_prepend s M h d : wf s M -> guard (abs s M) (Prepend h d) -> simulated s M (Prepend h d).
Proof.
  intros W (x & (c & Ec & ->)%abs_lookup & Hc & Hl & Hd). destruct (wf_open _ _ _ _ W Ec) as [H Hne].
  rewrite (abs1_alen _ _ _ H) in Hl. apply (abs1_consistent _ _ _ H) in Hc. unfold M_COPYALL in Hl.
  destruct (prepend_spec s c _ d H Hne Hd Hc) as (s' & [c'|] & E & F & P); [lia| |].
  - destruct P as (H' & Hh & S1 & Hne' & B).
    eapply (simulated_by _ _ _ s' (<[h := c']> M)); [cbn; by rewrite Ec, E|by eapply wf_set|].
    rewrite (abs1_pk _ _ _ H' Hh), S1, B, <- (abs1_hdr_of s). apply (A_prepend _ h d (abs1 s c)). by apply abs_some.
  - eapply (simulated_by _ _ _ s' (delete h M)); [cbn; by rewrite Ec, E|by apply (wf_remove s)|]. constructor.
Qed.

Lemma refine_copy s M o h h2 c s' c' b hdr n :
  wf s M -> M !! h = Some c -> M !! h2 = None -> run s M o = Done (s', put M h2 c') ->
  copied avail nmbufs s s' (c ++ live (delete h M)) c' b hdr n -> b <> [] \/ hdr = true ->
  astep (abs s M) o (<[h2 := pk hdr b]> (abs s M)) -> astep (abs s M) o (abs s M) -> simulated s M o.
Proof.
  intros W Ec E2 E (H & F & Hb) Hne A1 A2. pose proof (live_delete M h c Ec) as Hp.
  assert (frame s s' (live M)) as F' by (intros m Hm; apply F; by rewrite <- Hp).
  assert (inv s' (c' ++ live M)) as H' by (eapply inv_perm; [|exact H]; by rewrite Hp).
  destruct Hb as [(B & Hh & Eh)|[-> _]]; [|eapply (simulated_by _ _ _ s' M); [done|by apply (wf_keep s)|done]].
  assert (c' <> []) as Hc' by (intros ->; destruct Hne as [Hne|Hne]; [by subst b|by subst hdr]).
  eapply (simulated_by _ _ _ s' (<[h2 := c']> M)); [by destruct c'|by apply (wf_new s)|].
  by rewrite (abs1_pk _ _ _ H' Hh), Eh, B.
Qed.

Lemma refine_copym s M h h2 off len :
  wf s M -> guard (abs s M) (Copym h h2 off len) -> simulated s M (Copym h h2 off len).
Proof.
  intros W (x & (c & Ec & ->)%abs_lookup & Hc & Hl & Hoff & Hlen & Hrange & E2%abs_none). destruct (wf_open _ _ _ _ W Ec) as [H Hne].
  rewrite (abs1_alen _ _ _ H) in Hl, Hoff, Hrange. apply (abs1_consistent _ _ _ H) in Hc.
  destruct (m_copym_spec junk avail nmbufs nmbufs_int s c _ off len H Hne Hc Hl) as (s' & c' & E & P); [lia|done|done|].
  eapply refine_copy; [done|exact Ec|exact E2|cbn; by rewrite Ec, E|exact P| | |constructor].
  - left. intros Hb%(f_equal length). rewrite length_take, length_drop in Hb. pose proof (bytes_length _ _ _ _ H). cbn in Hb. lia.
  - rewrite <- (abs1_hdr_of s). apply (A_copym _ h h2 off len (abs1 s c)). by apply abs_some.
Qed.

Lemma refine_dup s M h h2 : wf s M -> guard (abs s M) (Dup h h2) -> simulated s M (Dup h h2).
Proof.
  intros W (x & (c & Ec & ->)%abs_lookup & Hp & Hl & E2%abs_none). destruct (wf_open _ _ _ _ W Ec) as [H Hne].
  rewrite (abs1_alen _ _ _ H) in Hl. destruct (abs1_is_pk _ _ _ H Hp) as [Hh Hs]. unfold M_COPYALL in Hl.
  destruct (m_dup_spec junk avail nmbufs nmbufs_int s c _ H Hs Hh) as (s' & c' & E & P); [lia|].
  eapply refine_copy; [done|exact Ec|exact E2|cbn; by rewrite Ec, E|exact P|by right| |constructor].
  rewrite <- (is_Some_has_hdr c Hs), <- (abs1_pk _ _ _ H Hh). apply (A_dup _ h h2). by apply abs_some.
Qed.

Lemma refine_catpkt s M h h2 : wf s M -> guard (abs s M) (Catpkt h h2) -> simulated s M (Catpkt h h2).
Proof.
  intros W (x & y & (c & Ec & ->)%abs_lookup & (n & En & ->)%abs_lookup & Hne & Px & Py & Hl).
  destruct (wf_open _ _ _ _ W En) as [Hn _]. destruct (wf_open _ _ _ _ W Ec) as [Hc _].
  rewrite (abs1_alen _ _ _ Hn), (abs1_alen _ _ _ Hc) in Hl. unfold M_COPYALL in Hl.
  destruct (abs1_is_pk _ _ _ Hc Px) as [Okc Sc%is_Some_has_hdr]. destruct (abs1_is_pk _ _ _ Hn Py) as [Okn Sn%is_Some_has_hdr].
  assert (delete h2 M !! h = Some c) as Ec' by (by rewrite lookup_delete_ne).
  assert (inv s (c ++ n ++ live (delete h (delete h2 M)))) as H.
  { eapply inv_perm; [|exact Hn]. rewrite (live_delete (delete h2 M) h c Ec'). solve_Permutation. }
  destruct (m_catpkt_spec junk avail nmbufs max_protohdr nmbufs_int proto_int s c n _ H Sc Sn Okc Okn) as (s' & c' & E & H' & F & B & Hh & Sh); [lia|].
  exists s', (<[h := c']> (delete h2 M)). split; [cbn; by rewrite Ec, En, E|]. rewrite abs_insert. split.
  - rewrite (abs1_pk _ _ _ H' Hh), Sh, B, <- insert_delete_eq, <- abs_delete, (abs_frame _ _ _ F), !abs_delete, insert_delete_eq.
    apply (A_catpkt _ h h2 (abs1 s c) (abs1 s n)); by apply abs_some.
  - rewrite <- insert_delete_eq. apply wf_intro; [by rewrite lookup_delete_eq| |by apply has_hdr_nonempty|done].
    by apply map_Forall_delete, (nonempty_delete s).
Qed.

Lemma refine_split s M h h2 len : wf s M -> guard (abs s M) (Split h h2 len) -> simulated s M (Split h h2 len).
Proof.
  intros W (x & (c & Ec & ->)%abs_lookup & Px & Hl & Hlen & E2%abs_none). destruct (wf_open _ _ _ _ W Ec) as [H Hne].
  rewrite (abs1_alen _ _ _ H) in Hl, Hlen. destruct (abs1_is_pk _ _ _ H Px) as [Okc [hd Sc]]. unfold M_COPYALL in Hl.
  assert (ph_len hd = total c) as Et by (unfold hdr_ok in Okc; by rewrite Sc in Okc).
  destruct (m_split_spec junk avail nmbufs max_protohdr nmbufs_int proto_int s c _ len hd H Sc Et Hlen) as (s' & c1 & c2 & E & H' & F & P); [lia|].
  destruct P as [((B1 & B2 & _) & O1 & O2 & S1 & S2)|(-> & B & hd' & Sh & Hn)].
  - assert (h <> h2) as Hh by congruence. assert (inv s' (c2 ++ c1 ++ live (delete h M))) as H2 by (eapply inv_perm; [|exact H']; solve_Permutation).
    apply has_hdr_nonempty in S1 as N1. apply has_hdr_nonempty in S2 as N2.
    exists s', (<[h2 := c2]> (<[h := c1]> M)). split; [cbn [MbufSpec.run]; rewrite Ec, E; by destruct c2|]. split.
    + rewrite !abs_insert, (abs1_pk _ _ _ H' O1), (abs1_pk _ _ _ H2 O2), S1, S2, B1, B2.
      rewrite <- (insert_delete_eq (abs s' M) h), <- abs_delete, (abs_frame _ _ _ F), (abs_put _ _ _ c) by done.
      apply (A_split _ h h2 len (abs1 s c)). by apply abs_some.
    + rewrite <- (insert_delete_eq M h). apply wf_intro; [by rewrite lookup_insert_ne, lookup_delete_ne|  |done|].
      * apply map_Forall_insert_2; [done|by eapply nonempty_delete].
      * eapply inv_perm; [|exact H2]. by rewrite live_insert by (by rewrite lookup_delete_eq).
  - assert (c1 <> []) as N1 by (by intros ->). 
    eapply (simulated_by _ _ _ s' (<[h := c1]> M)); [cbn [MbufSpec.run]; by rewrite Ec, E|by eapply wf_set|].
    unfold abs1 at 1. rewrite B, Sh. change (bytes s c) with (a_bytes (abs1 s c)).
    apply A_split_none; [by apply abs_some|]. by rewrite (abs1_alen _ _ _ H).
Qed.

Lemma refine_step s M o : wf s M -> guard (abs s M) o -> simulated s M o.
Proof.
  destruct o; [apply refine_get|apply refine_getcl|apply refine_append|apply refine_adj|apply refine_pullup|apply refine_prepend|
    apply refine_split|apply refine_copym|apply refine_dup|apply refine_catpkt|apply refine_free].
Qed.

(** * Histories *)

Definition empty_store : store := Store 0 ∅ ∅.

(** A sequence of calls; none when one of them may not be made. *)
Fixpoint run_ops (s : store) (M : chains) (l : list op) : option (store * chains) :=
  match l with
  | [] => Some (s, M)
  | o :: l =>
      if decide (guard (abs s M) o) then
        match run s M o with Done (s', M') => run_ops s' M' l | _ => None end
      else None
  end.

(** The states that calls within their conditions lead to. *)
Inductive reachable : store -> chains -> Prop :=
  | R_init : reachable empty_store ∅
  | R_step s M o s' M' : reachable s M -> guard (abs s M) o -> run s M o = Done (s', M') -> reachable s' M'.

Lemma run_ops_reachable l : forall s M s' M', reachable s M -> run_ops s M l = Some (s', M') -> reachable s' M'.
Proof.
  induction l as [|o l IH]; intros s M s' M' R; cbn [run_ops]; [by intros [= <- <-]|].
  destruct (decide (guard (abs s M) o)) as [G|]; [|done]. destruct (run s M o) as [[s1 M1]| |] eqn:E; try done.
  apply IH. by eapply R_step.
Qed.

Lemma wf_empty : 0 <= nmbufs -> wf empty_store ∅.
Proof.
  intros Hn. split; [|apply map_Forall_empty]. unfold live. rewrite map_to_list_empty. constructor; try done; cbn.
  - constructor.
  - intros m Hm. by apply not_elem_of_nil in Hm.
Qed.

Lemma reachable_wf s M : 0 <= nmbufs -> reachable s M -> wf s M.
Proof using nmbufs_int proto_int.
  intros Hn. induction 1 as [|s M o s' M' _ IH G E]; [by apply wf_empty|].
  destruct (refine_step _ _ _ IH G) as (s2 & M2 & E2 & _ & W). rewrite E in E2. by injection E2 as <- <-.
Qed.
End Refine.
