(* ===== verification/MbufProps.v ===== *)
(** What the refinement of MbufRefine.v gives for the users of mbuf chains: the
    correctness theorems of the component and an evaluated instance of each. *)
From stdpp Require Import base list gmap.
From Stdlib Require Import ZArith Lia.
From S2P Require Import Prelude Mbuf MbufInv MbufOps MbufCopy MbufBack MbufSpec MbufRefine.

Local Open Scope Z_scope.

Section Props.
Context (junk : Z -> Z -> Z) (avail : Z -> bool) (nmbufs max_protohdr : Z).
Context (nmbufs_int : 0 <= nmbufs < 2 ^ 31) (proto_int : 0 <= max_protohdr < 2 ^ 31).
#[local] Abbreviation reachable := (reachable junk avail nmbufs max_protohdr).
#[local] Abbreviation run := (run junk avail nmbufs max_protohdr).

(** The chains other than that of [h] keep their bytes. *)
Definition others (s s' : store) (M : chains) (h : Z) : Prop :=
  forall h' c', h' <> h -> M !! h' = Some c' -> bytes s' c' = bytes s c'.

Lemma others_frame s s' M h : frame s s' (live (delete h M)) -> others s s' M h.
Proof.
  intros F h' c' Hne E. eapply frame_part; [exact F|]. apply (live_elem _ h'). by rewrite lookup_delete_ne.
Qed.

Lemma reach_wf s M : reachable s M -> MbufRefine.wf nmbufs s M.
Proof. intros R. eapply (reachable_wf junk avail nmbufs max_protohdr); [lia|lia|lia|exact R]. Qed.

Lemma reachable_open s M h c : reachable s M -> M !! h = Some c -> MbufInv.inv nmbufs s (c ++ live (delete h M)) /\ c <> [].
Proof. intros R E. eapply wf_open; [|done]. by apply reach_wf. Qed.

(** C3. Mbuf chains are byte strings.  From any state reached by calls within
    their conditions, a further call within its conditions returns, and does to
    the byte strings (with their packet header lengths) of all chains what the
    abstract step allows, although the chains share clusters: only the chains
    named in the call change. *)
Theorem mbuf_chains_refine s M o :
  reachable s M -> guard (abs s M) o ->
  exists s' M', run s M o = Done (s', M') /\ astep (abs s M) o (abs s' M') /\ reachable s' M'.
Proof.
  intros R G. destruct (refine_step junk avail nmbufs max_protohdr ltac:(lia) proto_int s M o) as (s' & M' & E & A & _); [|done|].
  - by apply reach_wf.
  - exists s', M'. split; [done|]. split; [done|]. by eapply R_step.
Qed.

(** C4. Mbufs and clusters are accounted for exactly.  In every reachable state
    the mbufs of the chains are distinct; the allocated mbufs are these and the
    mbufs that hold the reference count of a cluster still in use, which stay
    allocated after they are freed themselves until the last user of the
    cluster goes; a freed mbuf is kept only in that case.  The count of a cluster
    is the number of mbufs on it, a cluster without users is gone, the limit of
    the zone is kept, and when all chains are freed nothing is left. *)
Theorem mbuf_accounting s M :
  reachable s M ->
  NoDup (m_id <$> live M) /\ s_used s = list_to_set (m_id <$> live M) ∪ dom (s_ext s) /\
  (forall i, i ∈ s_used s -> i ∉ m_id <$> live M -> exists m e, m ∈ live M /\ m_ext m = Some e /\ ext_buf e = i) /\
  (forall i, refcount s i = refs i (live M)) /\ (forall i, is_Some (s_ext s !! i) <-> 0 < refs i (live M)) /\
  Z.of_nat (size (s_used s)) <= nmbufs /\ (M = ∅ -> s_used s = ∅ /\ s_ext s = ∅).
Proof.
  intros R. destruct (reach_wf _ _ R) as [[H1 H2 H3 H4 H5 H6 H7 H8] _].
  assert (forall i, is_Some (s_ext s !! i) <-> 0 < refs i (live M)) as Hx.
  { intros i. rewrite <- H5. unfold refcount. destruct (s_ext s !! i) as [[st n]|] eqn:E.
    - split; [intros _; by eapply H6|by eexists].
    - split; [by intros []|lia]. }
  do 2 (split; [done|]). split.
  { intros i Hi Hn. apply refs_user, Hx, elem_of_dom. rewrite H2 in Hi.
    apply elem_of_union in Hi as [Hi%elem_of_list_to_set|Hi]; done. }
  do 3 (split; [done|]). intros ->. assert (s_ext s = ∅) as E.
  { apply map_empty. intros i. specialize (Hx i).
    destruct (s_ext s !! i); [|done]. destruct Hx as [Hx _]. specialize (Hx ltac:(by eexists)). done. }
  split; [|done]. by rewrite H2, E, dom_empty_L.
Qed.

(** C5. Every mbuf of a reachable state is inside its storage: the data pointer
    and length lie in the internal array or in the cluster the mbuf refers to,
    which exists and has the recorded size. *)
Theorem mbuf_in_bounds s M h c m :
  reachable s M -> M !! h = Some c -> m ∈ c ->
  M_START m <= m_data m /\ 0 <= m_len m /\ m_data m + m_len m <= M_START m + M_SIZE m /\
  exists st, storage s m = Some st /\ M_START m + M_SIZE m <= Z.of_nat (length st).
Proof.
  intros R E Hm. destruct (reachable_open _ _ _ _ R E) as [H _].
  assert (m ∈ c ++ live (delete h M)) as Hin by (apply elem_of_app; by left).
  destruct (inv_elem _ _ _ _ H Hin) as [[_ ? ? ? _] _]. do 3 (split; [done|]). by eapply storage_ok.
Qed.

(** m_pullup makes the first [len] bytes contiguous: when it returns a chain,
    that chain has the same bytes and header and its first mbuf holds the first
    [len] of them; it does so whenever the chain is long enough, [len] fits a
    header mbuf and an mbuf can be had; other chains keep their bytes. *)
Theorem m_pullup_contiguous s M h c len :
  reachable s M -> M !! h = Some c -> 0 <= len ->
  exists s' oc, m_pullup junk avail nmbufs max_protohdr s c len = Done (s', oc) /\ others s s' M h /\
    (len <= total c -> len <= MHLEN -> can_alloc avail nmbufs s = true -> is_Some oc) /\
    match oc with
    | Some c' => bytes s' c' = bytes s c /\ head_hdr c' = head_hdr c /\
                 exists m t, c' = m :: t /\ len <= m_len m /\ take (Z.to_nat len) (data s' m) = take (Z.to_nat len) (bytes s c)
    | None => s_used s' = list_to_set (m_id <$> live (delete h M)) ∪ dom (s_ext s')
    end.
Proof.
  intros R E Hlen. destruct (reachable_open _ _ _ _ R E) as [H Hne].
  destruct (m_pullup_spec junk avail nmbufs max_protohdr ltac:(lia) proto_int s c _ len H Hne Hlen) as (s' & oc & Er & [F P] & Hs).
  exists s', oc. split; [done|]. split; [by apply others_frame|]. split; [done|]. destruct oc as [c'|].
  - destruct P as (H' & B & Hh & m & t & -> & Hm). split; [done|]. split; [done|]. exists m, t. split; [done|]. split; [done|].
    rewrite <- B, bytes_cons. pose proof (head_length _ _ _ _ H') as Ld. symmetry. apply take_app_le. lia.
  - by destruct P.
Qed.

(** m_copyback writes exactly the given bytes at the given offset, extending
    the chain (with zeros up to the offset) and the header length when needed, in
    a chain whose mbufs share no cluster and while mbufs last; other chains keep
    their bytes. *)
Theorem m_copyback_exact s M h c off cp :
  reachable s M -> M !! h = Some c -> Forall (sole s) c -> hdr_ok c -> 0 <= off -> cp <> [] ->
  off + Z.of_nat (length cp) < 2 ^ 31 -> (forall i, avail i = true) ->
  2 * (2 * Z.of_nat (length (live M)) + off + Z.of_nat (length cp)) < nmbufs - 1 ->
  exists s' c', m_copyback junk avail nmbufs s c off cp = Done (s', c') /\ others s s' M h /\
    bytes s' c' = patched (bytes s c) off cp /\ hdr_ok c'.
Proof.
  intros R E Hs Hh Ho Hc Hl Ha Hn. destruct (reachable_open _ _ _ _ R E) as [H Hne].
  destruct (m_copyback_spec junk avail nmbufs ltac:(lia) s c _ off cp H Hne Hs Hh Ho Hc Hl) as (s' & c' & Er & _ & F & P).
  exists s', c'. split; [done|]. split; [by apply others_frame|]. destruct P as [P|P]; [done|].
  specialize (P Ha). rewrite <- (Permutation_length (live_delete M h c E)) in P. lia.
Qed.

(** m_copym copies exactly the requested range, sharing clusters, and m_dup
    the whole packet, whenever enough mbufs are left; the header of the copy (from
    offset 0) gives the length of the copy. *)
Theorem m_copy_complete s M h c off len :
  reachable s M -> M !! h = Some c -> hdr_ok c -> total c < M_COPYALL -> 0 <= off <= total c -> 0 < len ->
  len = M_COPYALL \/ off + len <= total c -> (forall i, avail i = true) ->
  2 * (2 * Z.of_nat (length (live M)) + total c + 2) <= nmbufs ->
  (exists s' c', m_copym junk avail nmbufs s c off len = Done (s', c') /\
     bytes s' c' = take (Z.to_nat len) (drop (Z.to_nat off) (bytes s c)) /\ hdr_ok c' /\ has_hdr c' = (off =? 0) && has_hdr c /\
     frame s s' (live M)) /\
  (has_hdr c = true ->
   exists s' c', m_dup junk avail nmbufs s c = Done (s', c') /\ bytes s' c' = bytes s c /\ hdr_ok c' /\ frame s s' (live M)).
Proof.
  intros R E Hh Ht Ho Hl Hr Ha Hn. destruct (reachable_open _ _ _ _ R E) as [H Hne]. pose proof (ctotal_nonneg _ _ _ _ H).
  pose proof (live_delete M h c E) as Hp. pose proof (Permutation_length Hp) as HL. rewrite length_app in HL.
  assert (forall s', frame s s' (c ++ live (delete h M)) -> frame s s' (live M)) as Hf by (intros s' F m Hm; apply F; by rewrite <- Hp).
  split.
  - destruct (m_copym_spec junk avail nmbufs ltac:(lia) s c _ off len H Hne Hh Ht Ho Hl Hr) as (s' & c' & Er & _ & F & [P|[_ P]]).
    + exists s', c'. destruct P as (? & ? & ?). auto 10.
    + specialize (P Ha). lia.
  - intros Hd. unfold M_COPYALL in Ht.
    destruct (m_dup_spec junk avail nmbufs ltac:(lia) s c _ H) as (s' & c' & Er & _ & F & [P|[_ P]]); [|done|lia| |].
    + unfold has_hdr in Hd. by destruct (head_hdr c).
    + exists s', c'. destruct P as (? & ? & ?). auto 10.
    + specialize (P Ha). rewrite length_app in P. lia.
Qed.
End Props.

(** * Evaluated instances

    A packet of 300 bytes over two mbufs, its duplicate in a cluster, and a copy
    that shares the cluster, cut by 40 bytes. *)

Definition no_junk (_ _ : Z) : Z := 0.
Definition plenty (_ : Z) : bool := true.
Definition all_but (k i : Z) : bool := negb (i =? k).

Definition after (avail : Z -> bool) (l : list op) : store * chains :=
  default (empty_store, ∅) (run_ops no_junk avail 1000 60 empty_store ∅ l).

Definition demo_ops : list op :=
  [Get 1 true; Append 1 (seqZ 0 300); Dup 1 2; Copym 2 3 0 M_COPYALL; Adj 3 (-40)].
Definition demo : store * chains := after plenty demo_ops.
Definition demo_chain (h : Z) : list mbuf := default [] (demo.2 !! h).

Lemma after_reachable avail l :
  run_ops no_junk avail 1000 60 empty_store ∅ l <> None -> reachable no_junk avail 1000 60 (after avail l).1 (after avail l).2.
Proof.
  unfold after. intros H. destruct (run_ops no_junk avail 1000 60 empty_store ∅ l) as [[s M]|] eqn:E; [|done].
  eapply run_ops_reachable; [apply R_init|exact E].
Qed.

Lemma demo_reachable : reachable no_junk plenty 1000 60 demo.1 demo.2.
Proof. apply after_reachable. vm_compute. discriminate. Qed.

Lemma demo_chain_lookup h : demo.2 !! h <> None -> demo.2 !! h = Some (demo_chain h).
Proof. unfold demo_chain. by destruct (demo.2 !! h). Qed.

Ltac demo_bounds := split; [discriminate|reflexivity].

(** Appending to the duplicate leaves the copy that shares its cluster alone. *)
Lemma mbuf_chains_refine_witness :
  exists s' M', run no_junk plenty 1000 60 demo.1 demo.2 (Append 2 [1; 2; 3]) = Done (s', M') /\
    astep (abs demo.1 demo.2) (Append 2 [1; 2; 3]) (abs s' M') /\ reachable no_junk plenty 1000 60 s' M'.
Proof.
  apply (mbuf_chains_refine no_junk plenty 1000 60); [demo_bounds|demo_bounds|exact demo_reachable|].
  apply (bool_decide_unpack _). vm_compute. exact I.
Defined.

(** A packet in a cluster and a copy of it; the packet is freed.  Its mbuf holds
    the count and stays allocated next to that of the copy. *)
Definition kept : store * chains := after plenty [Get 1 true; Append 1 (seqZ 0 300); Dup 1 2; Copym 2 3 0 M_COPYALL; Free 1; Free 2].

Lemma kept_reachable : reachable no_junk plenty 1000 60 kept.1 kept.2.
Proof. apply after_reachable. vm_compute. discriminate. Qed.

Lemma mbuf_accounting_witness :
  m_id <$> live kept.2 = [4] /\ s_used kept.1 = {[2; 4]} /\
  (exists m e, m ∈ live kept.2 /\ m_ext m = Some e /\ ext_buf e = 2) /\ refcount kept.1 2 = 1 /\
  s_used kept.1 = list_to_set (m_id <$> live kept.2) ∪ dom (s_ext kept.1).
Proof.
  destruct (mbuf_accounting no_junk plenty 1000 60 ltac:(demo_bounds) ltac:(demo_bounds) kept.1 kept.2 kept_reachable)
    as (_ & Hu & Hk & _).
  split; [vm_compute; reflexivity|]. split; [vm_compute; reflexivity|].
  split; [|split; [vm_compute; reflexivity|exact Hu]].
  apply Hk; apply (bool_decide_unpack _); vm_compute; exact I.
Defined.

Lemma mbuf_in_bounds_witness :
  exists m, m ∈ demo_chain 3 /\ m_len m = 260 /\ m_data m + m_len m <= M_START m + M_SIZE m.
Proof.
  destruct (demo_chain 3) as [|m t] eqn:E; [vm_compute in E; discriminate|]. exists m. split; [left|].
  assert (hd_error (demo_chain 3) = Some m) as Eh by (by rewrite E). split; [vm_compute in Eh; by injection Eh as <-|].
  apply (mbuf_in_bounds no_junk plenty 1000 60) with (s := demo.1) (M := demo.2) (h := 3) (c := m :: t);
    [demo_bounds|demo_bounds|exact demo_reachable| |left].
  rewrite <- E. apply demo_chain_lookup. vm_compute. discriminate.
Defined.

(** The first 200 bytes of the packet are more than a header mbuf holds; 160 are
    not. *)
Lemma m_pullup_contiguous_witness :
  exists s' oc, m_pullup no_junk plenty 1000 60 demo.1 (demo_chain 2) 160 = Done (s', oc) /\ is_Some oc.
Proof.
  destruct (m_pullup_contiguous no_junk plenty 1000 60 ltac:(demo_bounds) ltac:(demo_bounds) demo.1 demo.2 2 (demo_chain 2) 160)
    as (s' & oc & E & _ & Hs & _).
  - exact demo_reachable.
  - apply demo_chain_lookup. vm_compute. discriminate.
  - discriminate.
  - exists s', oc. split; [exact E|]. apply Hs; [vm_compute; discriminate|discriminate|vm_compute; reflexivity].
Defined.

Lemma m_copyback_exact_witness :
  exists s' c', m_copyback no_junk plenty 1000 demo.1 (demo_chain 1) 290 (seqZ 0 30) = Done (s', c') /\
    bytes s' c' = patched (bytes demo.1 (demo_chain 1)) 290 (seqZ 0 30).
Proof.
  destruct (m_copyback_exact no_junk plenty 1000 60 ltac:(demo_bounds) ltac:(demo_bounds) demo.1 demo.2 1 (demo_chain 1) 290 (seqZ 0 30))
    as (s' & c' & E & _ & B & _).
  - exact demo_reachable.
  - apply demo_chain_lookup. vm_compute. discriminate.
  - vm_compute. repeat constructor.
  - vm_compute. reflexivity.
  - discriminate.
  - discriminate.
  - reflexivity.
  - reflexivity.
  - vm_compute. reflexivity.
  - exists s', c'. split; [exact E|exact B].
Defined.

Lemma m_copy_complete_witness :
  exists s' c', m_copym no_junk plenty 1000 demo.1 (demo_chain 1) 100 150 = Done (s', c') /\
    bytes s' c' = take 150 (drop 100 (bytes demo.1 (demo_chain 1))).
Proof.
  destruct (m_copy_complete no_junk plenty 1000 60 ltac:(demo_bounds) ltac:(demo_bounds) demo.1 demo.2 1 (demo_chain 1) 100 150)
    as [(s' & c' & E & B & _) _].
  - exact demo_reachable.
  - apply demo_chain_lookup. vm_compute. discriminate.
  - vm_compute. reflexivity.
  - vm_compute. reflexivity.
  - vm_compute. split; discriminate.
  - reflexivity.
  - right. vm_compute. discriminate.
  - reflexivity.
  - vm_compute. discriminate.
  - exists s', c'. split; [exact E|exact B].
Defined.

(** A failed m_split does not restore the packet: when the split point is in
    an mbuf whose tail is longer than a header mbuf holds and the second
    allocation fails, NULL is returned and the chain keeps its bytes, but its
    header length has become the length of the first part. *)
Theorem m_split_failure_header :
  exists avail s M c s' c1,
    reachable no_junk avail 1000 60 s M /\ M !! 1 = Some c /\ hdr_ok c /\ total c = 392 /\
    m_split no_junk avail 1000 2 s c 169 = Done (s', c1, []) /\
    bytes s' c1 = bytes s c /\ ph_len <$> head_hdr c1 = Some 169 /\ total c1 = 392.
Proof.
  set (x := after (all_but 3) [Get 1 true; Append 1 (seqZ 0 392)]).
  set (c := default [] (x.2 !! 1)). set (r := m_split no_junk (all_but 3) 1000 2 x.1 c 169).
  exists (all_but 3), x.1, x.2, c, (match r with Done (s', _, _) => s' | _ => x.1 end), (match r with Done (_, c1, _) => c1 | _ => [] end).
  split; [apply after_reachable; vm_compute; discriminate|].
  repeat split; vm_compute; reflexivity.
Qed.
