(* ===== verification/TcpCopy.v ===== *)
(** The copy of a segment out of the send buffer: src/freebsd/netinet/tcp_output.c,
    from the allocation of the header mbuf to the copied data.

    The socket buffer is that of SbQueue.v, the mbuf store that of Mbuf.v: [phys]
    gives the mbuf of the store at an address, and [held] says that the mbufs of
    the buffer have their bytes in the store. *)
From stdpp Require Import base list gmap.
From Stdlib Require Import ZArith Lia.
From S2P Require Import Prelude Mbuf MbufInv MbufOps MbufCopy MbufSpec MbufRefine MbufProps SbQueue SbAppend SbStream.

Local Open Scope Z_scope.

Section Copy.
Context (junk : Z -> Z -> Z) (avail : Z -> bool) (nmbufs max_linkhdr : Z).

(** The packet [m], or [None] with ENOBUFS.  The operands of the test are an int,
    an unsigned and an int, so that it is made on unsigned numbers. *)
Definition tcp_copy (phys : Z -> Mbuf.mbuf) (s : store) (sb : sockbuf) (off len hdrlen : Z)
  : outcome (store * sockbuf * option (list Mbuf.mbuf)) :=
  let '(s1, om) :=
    if MHLEN <? u32 (hdrlen + max_linkhdr) then m_getcl junk avail nmbufs s MT_DATA true
    else m_gethdr junk avail nmbufs s MT_DATA in
  match om with
  | None => Done (s1, sb, None)
  | Some m0 =>
      let m := set_len (set_data m0 (m_data m0 + max_linkhdr)) hdrlen in
      x ← sbsndptr sb off len;
      let '(sb1, mb, moff) := x in
      let c := (fun y => phys (m_id y)) <$> mb in
      if len <=? u32 (MHLEN - hdrlen - max_linkhdr) then
        d ← Mbuf.m_copydata s1 c moff len;
        y ← mwrite s1 m hdrlen d;
        let '(s2, m1) := y in
        Done (s2, sb1, Some [set_len m1 (hdrlen + len)])
      else
        y ← m_copym junk avail nmbufs s1 c moff len;
        let '(s2, n) := y in
        match n with
        | [] => s3 ← Mbuf.m_free s2 m; Done (s3, sb1, None)
        | _ => Done (s2, sb1, Some (m :: n))
        end
  end.

(** The mbufs of the buffer in the store; m_demote took their packet headers. *)
Definition at_store (phys : Z -> Mbuf.mbuf) (l : list mbuf) : list Mbuf.mbuf := (fun y => phys (m_id y)) <$> l.

Definition held (phys : Z -> Mbuf.mbuf) (s : store) (l : list mbuf) : Prop :=
  Forall (fun y => MbufInv.data s (phys (m_id y)) = m_bytes y /\ Mbuf.m_pkthdr (phys (m_id y)) = None) l.

#[local] Abbreviation inv := (MbufInv.inv nmbufs).
#[local] Abbreviation frame := MbufInv.frame.
Ltac reorder H := refine (proj1 (inv_perm nmbufs _ _ _ _) H); unfold at_store; rewrite ?fmap_app; solve_Permutation.

Lemma held_bytes phys s l : held phys s l -> bytes s (at_store phys l) = data l.
Proof. induction 1 as [|y l [Hy _] Hl IH]; [done|]. change (at_store phys (y :: l)) with (phys (m_id y) :: at_store phys l). by rewrite bytes_cons, Hy, IH. Qed.

Lemma held_app phys s a b : held phys s (a ++ b) <-> held phys s a /\ held phys s b.
Proof. apply Forall_app. Qed.

Lemma held_frame phys s s' l r : at_store phys l ⊆ r -> frame s s' r -> held phys s l -> held phys s' l.
Proof.
  intros Hs F H. unfold held in *. rewrite Forall_forall in *. intros y Hy. destruct (H y Hy) as [E Ep]. split; [|done].
  rewrite F; [done|]. apply Hs. by apply (list_elem_of_fmap_2 (fun y => phys (m_id y))).
Qed.

Lemma held_hdr_ok phys s l : held phys s l -> hdr_ok (at_store phys l).
Proof. destruct 1 as [|y l [_ Hp] _]; [done|]. unfold hdr_ok, head_hdr. cbn. by rewrite Hp. Qed.

Lemma held_total phys s l r : inv s (at_store phys l ++ r) -> held phys s l -> total (at_store phys l) = sumz m_len l.
Proof. intros H Hh. rewrite <- (MbufOps.bytes_length nmbufs _ s r H), (held_bytes _ _ _ Hh). apply data_length. Qed.

Context (nmbufs_int : nmbufs < 2 ^ 31).

(** The header mbuf: room for [hdrlen] bytes behind [max_linkhdr]. *)
Lemma header_mbuf s l s1 m0 hdrlen :
  inv s l -> m_gethdr junk avail nmbufs s MT_DATA = (s1, Some m0) ->
  0 <= hdrlen -> 0 <= max_linkhdr -> hdrlen + max_linkhdr <= MHLEN ->
  let m := set_len (set_data m0 (m_data m0 + max_linkhdr)) hdrlen in
  inv s1 (m :: l) /\ frame s s1 l /\ MbufInv.sole s1 m /\ Mbuf.m_len m = hdrlen /\
  M_START m + M_SIZE m = m_data m - max_linkhdr + MHLEN.
Proof.
  intros H E Hh Hl Hb m. pose proof (m_gethdr_spec _ _ _ _ _ _ _ _ H E) as (H1 & F & (Elen & _ & Eh & _ & Ed & Ex) & _).
  pose proof (inv_head _ _ _ _ H1) as Hok.
  assert (Hs : M_START m = M_START m0 /\ M_SIZE m = M_SIZE m0) by done. destruct Hs as [Hs1 Hs2].
  assert (Hs3 : M_SIZE m0 = MHLEN) by (unfold M_SIZE; by rewrite Ex, Eh).
  split; [|split; [done|]; split; [unfold MbufInv.sole, m; cbn; by rewrite Ex|]; split; [done|]].
  - eapply inv_update; [exact H1|done|done|]. destruct Hok. constructor; try done; rewrite ?Hs1, ?Hs2, ?Hs3; cbn; lia.
  - rewrite Hs1, Hs2, Hs3. cbn. lia.
Qed.

(** What the two ways of copying give: the packet, its bytes behind the header
    being [d], or none and the allocator ran out. *)
Definition packet (s s' : store) (l : list Mbuf.mbuf) (hdrlen : Z) (d : list Z) (o : option (list Mbuf.mbuf)) : Prop :=
  frame s s' l /\
  match o with
  | Some p => inv s' (p ++ l) /\ drop (Z.to_nat hdrlen) (bytes s' p) = d /\
              Z.of_nat (length (bytes s' p)) = hdrlen + Z.of_nat (length d)
  | None => inv s' l /\ short avail nmbufs (2 + 2 * Z.of_nat (length l))
  end.

(** The data into the header mbuf. *)
Lemma copy_inline s m l c r moff len hdrlen :
  inv s (m :: l) -> l ≡ₚ c ++ r -> MbufInv.sole s m -> Mbuf.m_len m = hdrlen -> 0 <= hdrlen ->
  0 <= moff -> 0 <= len -> moff + len <= total c -> total c < 2 ^ 31 -> m_data m + hdrlen + len <= M_START m + M_SIZE m ->
  exists s2 m1, Mbuf.m_copydata s c moff len = Done (take (Z.to_nat len) (drop (Z.to_nat moff) (bytes s c))) /\
    mwrite s m hdrlen (take (Z.to_nat len) (drop (Z.to_nat moff) (bytes s c))) = Done (s2, m1) /\
    packet s s2 l hdrlen (take (Z.to_nat len) (drop (Z.to_nat moff) (bytes s c))) (Some [set_len m1 (hdrlen + len)]).
Proof.
  intros H Hp Hs <- Hh Hm Hl Hle Ht Hroom. assert (inv s (c ++ m :: r)) as Hc.
  { refine (proj1 (inv_perm nmbufs _ _ _ _) H). rewrite Hp. solve_Permutation. }
  assert (Z.of_nat (length (take (Z.to_nat len) (drop (Z.to_nat moff) (bytes s c)))) = len) as Hd.
  { pose proof (MbufOps.bytes_length _ _ _ _ Hc). rewrite length_take, length_drop. lia. }
  set (d := take _ _) in *.
  destruct (mwrite_end nmbufs s m l d (Mbuf.m_len m + len) H Hs) as (s2 & m1 & E & _ & Hi & F & _ & D); [lia|lia|].
  exists s2, m1. split; [apply (mb_copydata_spec junk avail nmbufs nmbufs_int s c (m :: r) moff len Hc); lia|]. split; [done|]. split; [done|]. split; [done|].
  rewrite bytes_cons, (bytes_nil s2), app_nil_r, D. pose proof (head_length _ _ _ _ H) as Hlm.
  rewrite drop_app_ge, length_app by lia. split; [|lia].
  replace (Z.to_nat (Mbuf.m_len m) - length (MbufInv.data s m))%nat with 0%nat by lia. done.
Qed.

(** The data in mbufs of its own. *)
Lemma copy_chain s m l c r moff len hdrlen :
  inv s (m :: l) -> l ≡ₚ c ++ r -> Mbuf.m_len m = hdrlen -> hdr_ok c -> c <> [] ->
  0 <= moff -> 0 < len -> moff + len <= total c -> total c < M_COPYALL ->
  exists s2 n, m_copym junk avail nmbufs s c moff len = Done (s2, n) /\
    match n with
    | [] => exists s3, Mbuf.m_free s2 m = Done s3 /\
              packet s s3 l hdrlen (take (Z.to_nat len) (drop (Z.to_nat moff) (bytes s c))) None
    | _ => packet s s2 l hdrlen (take (Z.to_nat len) (drop (Z.to_nat moff) (bytes s c))) (Some (m :: n))
    end.
Proof.
  intros H Hp <- Hok Hne Hm Hl Hle Ht. assert (inv s (c ++ m :: r)) as Hc.
  { refine (proj1 (inv_perm nmbufs _ _ _ _) H). rewrite Hp. solve_Permutation. }
  destruct (m_copym_spec junk avail nmbufs nmbufs_int s c (m :: r) moff len Hc Hne Hok Ht ltac:(lia) Hl ltac:(by right))
    as (s2 & n & E & Hi & F & P).
  assert (frame s s2 l) as Fl by (eapply frame_sub; [|exact F]; intros x; rewrite Hp; set_solver).
  exists s2, n. split; [done|]. pose proof (MbufOps.bytes_length _ _ _ _ Hc) as Hbl.
  assert (inv s2 (n ++ m :: l)) as Hi'.
  { refine (proj1 (inv_perm nmbufs _ _ _ _) Hi). rewrite Hp. solve_Permutation. }
  destruct n as [|x n].
  - destruct P as [(B & _)|[_ Hs]].
    { apply (f_equal length) in B. rewrite length_take, length_drop in B. cbn in B. lia. }
    destruct (m_free_spec nmbufs nmbufs_int s2 m l Hi') as (s3 & E3 & H3 & F3).
    exists s3. split; [done|]. split; [by eapply mframe_trans|]. split; [done|]. intros Ha. specialize (Hs Ha).
    rewrite Hp, length_app. cbn [length] in Hs. lia.
  - destruct P as [(B & _)|[E0 _]]; [|done]. split; [done|]. split; [reorder Hi'|].
    pose proof (head_length _ _ _ _ H) as Hlm. assert (MbufInv.data s2 m = MbufInv.data s m) as Dm by (apply F; set_solver).
    rewrite bytes_cons, B, Dm, drop_app_ge, length_app by lia. split; [|rewrite length_take, length_drop; lia].
    replace (Z.to_nat (Mbuf.m_len m) - length (MbufInv.data s m))%nat with 0%nat by lia. done.
Qed.

(** The mbufs from the cached send pointer on hold the segment. *)
Lemma snd_source hiwat mbmax flags sb off len :
  sreach hiwat mbmax flags sb -> 0 <= off -> 0 < len -> off + len <= sbavail sb ->
  exists sb1 a mb moff, sbsndptr sb off len = Done (sb1, mb, moff) /\
    sreach hiwat mbmax flags sb1 /\ chain sb1 = chain sb /\ chain sb = a ++ mb /\
    0 <= moff /\ moff + len <= sumz m_len mb <= sbused sb /\
    take (Z.to_nat len) (drop (Z.to_nat off) (data (chain sb))) = take (Z.to_nat len) (drop (Z.to_nat moff) (data mb)).
Proof using. clear.
  intros Hr H1 H2 H3. pose proof (sreach_stream _ _ _ _ Hr) as Hst. pose proof Hst as (Hin & _).
  destruct (sbsndptr_spec sb off len Hst H1 H2 H3) as (sb1 & a & mb & moff & E & Hst1 & Hq & Hc & Hm & Hoff & _).
  exists sb1, a, mb, moff. split; [done|]. split.
  { eapply sr_step; [exact Hr|by instantiate (1 := SSend off len)|]. cbn. by rewrite E. }
  split; [unfold chain; by rewrite Hq|]. split; [done|]. split; [done|].
  pose proof (size_bounds _ (a_ext _ _ (i_acct _ Hin))) as Hb. pose proof (sum_len_nonneg a).
  unfold sbavail, sbused in *. rewrite (a_acc _ _ (i_acct _ Hin)) in H3. rewrite (a_ccc _ _ (i_acct _ Hin)).
  rewrite Hc in Hb, H3 |- *. rewrite !sumz_app in Hb. rewrite sumz_app in H3. rewrite sumz_app. split; [lia|].
  rewrite data_app. pose proof (data_length a). rewrite drop_app_ge by lia. do 2 f_equal. lia.
Qed.

(** C18. A segment copied out of the send buffer is exact.  In every state of a
    stream buffer, whatever was sent, acknowledged and retransmitted before, whose
    mbufs are in the store, tcp_output's copy of [len] available bytes at offset
    [off] from the cached send pointer returns.  Either it has a packet: behind
    [hdrlen] bytes for the headers it holds exactly these [len] bytes of the stream,
    in the header mbuf when they fit and otherwise in a chain of mbufs that share
    the clusters of the buffer.  Or an mbuf was refused (ENOBUFS): then the header
    mbuf is free again.  Either way the buffer and every other chain keep their
    bytes and the store stays consistent.  The headers are at most MHLEN -
    max_linkhdr bytes, and the buffer holds less than M_COPYALL bytes. *)
Theorem tcp_copy_exact hiwat mbmax flags phys s sb rest off len hdrlen :
  sreach hiwat mbmax flags sb -> 0 <= off -> 0 < len -> off + len <= sbavail sb -> sbused sb < M_COPYALL ->
  0 <= hdrlen -> 0 <= max_linkhdr -> hdrlen + max_linkhdr <= MHLEN ->
  inv s (at_store phys (chain sb) ++ rest) -> held phys s (chain sb) ->
  exists s' sb' o, tcp_copy phys s sb off len hdrlen = Done (s', sb', o) /\
    sreach hiwat mbmax flags sb' /\ chain sb' = chain sb /\ held phys s' (chain sb) /\
    packet s s' (at_store phys (chain sb) ++ rest) hdrlen (take (Z.to_nat len) (drop (Z.to_nat off) (data (chain sb)))) o /\
    (forall p, o = Some p -> length p = 1%nat <-> len <= MHLEN - hdrlen - max_linkhdr).
Proof.
  intros Hr H1 H2 H3 Hu Hh Hml Hhb Hi Hheld.
  assert (forall s', frame s s' (at_store phys (chain sb) ++ rest) -> held phys s' (chain sb)) as Hkeep.
  { intros s' F. eapply held_frame; [|exact F|done]. set_solver. }
  unfold tcp_copy. unfold MHLEN in Hhb. rewrite (u32_small (hdrlen + _)), (u32_small (MHLEN - _ - _)) by (unfold MHLEN; lia).
  assert (MHLEN <? hdrlen + max_linkhdr = false) as -> by (unfold MHLEN; lia).
  destruct (m_gethdr junk avail nmbufs s MT_DATA) as [s1 [m0|]] eqn:Eg.
  2: { pose proof (m_gethdr_spec _ _ _ _ _ _ _ _ Hi Eg) as [Hi1 F]. eexists _, _, _. split; [done|]. do 2 (split; [done|]).
       split; [by apply Hkeep|]. split; [|done]. split; [done|]. split; [done|].
       eapply short_alloc; [exact Hi|by eapply (get_none junk avail nmbufs true)|lia]. }
  destruct (header_mbuf _ _ _ _ hdrlen Hi Eg Hh Hml Hhb) as (Hi1 & F1 & Hs1 & Hl1 & Hsz). set (m := set_len _ hdrlen) in *.
  destruct (snd_source _ _ _ sb off len Hr H1 H2 H3) as (sb1 & a & mb & moff & E & Hr1 & Hch1 & Hc & Hm & Hle & Ed).
  rewrite E, Ed. cbn [mbind outcome_bind].
  pose proof (Hkeep _ F1) as Hheld1. rewrite Hc in Hheld1. apply held_app in Hheld1 as [_ Hmb].
  set (L := at_store phys (chain sb) ++ rest) in *.
  assert (L ≡ₚ at_store phys mb ++ at_store phys a ++ rest) as HpL.
  { unfold L. rewrite Hc. unfold at_store. rewrite fmap_app. solve_Permutation. }
  assert (inv s1 (at_store phys mb ++ m :: at_store phys a ++ rest)) as Hi1'.
  { refine (proj1 (inv_perm nmbufs _ _ _ _) Hi1). rewrite HpL. solve_Permutation. }
  pose proof (held_total _ _ _ _ Hi1' Hmb) as Htot.
  rewrite <- (held_bytes _ _ _ Hmb). change ((fun y => phys (m_id y)) <$> mb) with (at_store phys mb). unfold M_COPYALL in Hu.
  destruct (Z.leb_spec len (MHLEN - hdrlen - max_linkhdr)) as [Hfit|Hbig].
  - destruct (copy_inline s1 m L (at_store phys mb) _ moff len hdrlen Hi1 HpL Hs1 Hl1) as (s2 & m1 & -> & E2 & F2 & P); [lia..|].
    cbn [mbind outcome_bind]. rewrite E2. eexists _, _, _. split; [done|]. do 2 (split; [done|]).
    pose proof (mframe_trans _ _ _ _ F1 F2) as F. split; [by apply Hkeep|]. split; [by split|]. by intros p [= <-].
  - destruct (copy_chain s1 m L (at_store phys mb) _ moff len hdrlen Hi1 HpL Hl1) as (s2 & n & -> & P).
    { by eapply held_hdr_ok. }
    { intros E0. rewrite E0 in Htot. change (total []) with 0 in Htot. lia. }
    1-4: unfold M_COPYALL; lia.
    cbn [mbind outcome_bind]. destruct n as [|x n].
    + destruct P as (s3 & -> & F3 & P). cbn [mbind outcome_bind]. eexists _, _, _. split; [done|]. do 2 (split; [done|]).
      pose proof (mframe_trans _ _ _ _ F1 F3) as F. split; [by apply Hkeep|]. split; [by split|done].
    + destruct P as (F2 & P). eexists _, _, _. split; [done|]. do 2 (split; [done|]).
      pose proof (mframe_trans _ _ _ _ F1 F2) as F. split; [by apply Hkeep|]. split; [by split|].
      intros p [= <-]. cbn. split; [done|lia].
Qed.
End Copy.

(** ** An example

    300 bytes in two mbufs of the store and of a send buffer; segments of 200 bytes,
    in mbufs of their own, and of 50 bytes, in the header mbuf. *)
Definition ex_store : store * chains := after plenty [Get 1 false; Append 1 (seqZ 0 300)].
Definition ex_chain : list Mbuf.mbuf := default [] (ex_store.2 !! 1).
Definition ex_phys (i : Z) : Mbuf.mbuf := nth (Z.to_nat i) ex_chain (Mbuf.Mb 0 0 0 0 false None None []).

Definition ex_append : sop :=
  SAppend [SbQueue.Mb 0 MT_DATA (seqZ 0 224) false false false false None None 0;
           SbQueue.Mb 1 MT_DATA (seqZ 224 76) false false false false None None 148] false.
Definition ex_buf : sockbuf :=
  match sstep (sb_empty 65536 262144 0) ex_append with Done sb => sb | _ => sb_empty 0 0 0 end.

Lemma ex_buf_reach : sreach 65536 262144 0 ex_buf.
Proof.
  apply (sr_step _ _ _ (sb_empty 65536 262144 0) ex_append); [apply sr_empty| |vm_compute; reflexivity].
  split; [decide_closed|]. split; [repeat constructor; done|done].
Qed.

Lemma ex_inv : MbufInv.inv 1000 ex_store.1 (at_store ex_phys (chain ex_buf) ++ []).
Proof.
  assert (reachable no_junk plenty 1000 60 ex_store.1 ex_store.2) as R by (apply after_reachable; vm_compute; discriminate).
  destruct (reach_wf no_junk plenty 1000 60 ltac:(demo_bounds) ltac:(demo_bounds) _ _ R) as [H _].
  replace (at_store ex_phys (chain ex_buf) ++ []) with (live ex_store.2) by (vm_compute; reflexivity). exact H.
Qed.

Lemma ex_held : held ex_phys ex_store.1 (chain ex_buf).
Proof. repeat constructor; vm_compute; reflexivity. Qed.

Lemma tcp_copy_exact_witness :
  (exists s' sb' p, tcp_copy no_junk plenty 1000 16 ex_phys ex_store.1 ex_buf 100 200 52 = Done (s', sb', Some p) /\
     length p = 3%nat /\ drop 52 (bytes s' p) = seqZ 100 200) /\
  (exists s' sb' p, tcp_copy no_junk plenty 1000 16 ex_phys ex_store.1 ex_buf 200 50 52 = Done (s', sb', Some p) /\
     length p = 1%nat /\ drop 52 (bytes s' p) = seqZ 200 50).
Proof.
  assert (forall off len, 0 <= off -> 0 < len -> off + len <= 300 ->
    exists s' sb' o, tcp_copy no_junk plenty 1000 16 ex_phys ex_store.1 ex_buf off len 52 = Done (s', sb', o) /\
      packet plenty 1000 ex_store.1 s' (at_store ex_phys (chain ex_buf) ++ []) 52
        (take (Z.to_nat len) (drop (Z.to_nat off) (data (chain ex_buf)))) o) as H.
  { intros off len H1 H2 H3.
    destruct (tcp_copy_exact no_junk plenty 1000 16 ltac:(reflexivity) 65536 262144 0 ex_phys ex_store.1 ex_buf [] off len 52)
      as (s' & sb' & o & E & _ & _ & _ & P & _); [exact ex_buf_reach|exact H1|exact H2|exact H3|reflexivity|discriminate|discriminate|
      discriminate|exact ex_inv|exact ex_held|].
    exists s', sb', o. split; [exact E|exact P]. }
  split.
  - destruct (H 100 200 ltac:(discriminate) ltac:(reflexivity) ltac:(discriminate)) as (s' & sb' & o & E & _ & P).
    destruct o as [p|]; [|vm_compute in E; discriminate]. exists s', sb', p. split; [exact E|].
    destruct P as (_ & B & _). split; [vm_compute in E; injection E as _ _ <-; reflexivity|]. etransitivity; [exact B|].
    vm_compute. reflexivity.
  - destruct (H 200 50 ltac:(discriminate) ltac:(reflexivity) ltac:(discriminate)) as (s' & sb' & o & E & _ & P).
    destruct o as [p|]; [|vm_compute in E; discriminate]. exists s', sb', p. split; [exact E|].
    destruct P as (_ & B & _). split; [vm_compute in E; injection E as _ _ <-; reflexivity|]. etransitivity; [exact B|].
    vm_compute. reflexivity.
Defined.
