(* ===== verification/Config.v ===== *)
(** The configuration reader of src/lib/ff_config.c: command line options, the
    INI file through IniParser, the check of the result and the arguments it
    hands to DPDK.

    The constants of DPDK's build configuration, its rte_strsplit, the results of
    getopt_long, the contents of uninitialised arrays and the answers of malloc
    are parameters.  [Fault] is an access outside an array or through NULL, a
    shift by more than the width, or a string longer than its buffer. *)
From stdpp Require Import base list strings sorting.
From Stdlib Require Import ZArith Lia Ascii.
From S2P Require Import Prelude CStr IniParser.

Local Open Scope Z_scope.

Definition DPDK_CONFIG_NUM : Z := 16.
Definition DPDK_CONFIG_MAXLEN : Z := 256.
Definition DPDK_MAX_LCORE : Z := 128.
Definition BURST_TX_DRAIN_US : Z := 100.
Definition BITS_PER_HEX : nat := 4.

(** * Data *)

(** struct ff_port_cfg; the hardware address and features are not set here. *)
Record ff_port_cfg := PortCfg {
  p_name : option cstr;
  p_port_id : Z;  (* uint8_t *)
  p_addr : option cstr;
  p_netmask : option cstr;
  p_broadcast : option cstr;
  p_gateway : option cstr;
  p_pcap : option cstr;
  p_nb_lcores : Z;
  p_lcore_list : list Z  (* DPDK_MAX_LCORE elements *)
}.

Definition set_p_name (v : option cstr) (x : ff_port_cfg) : ff_port_cfg :=
  PortCfg v (p_port_id x) (p_addr x) (p_netmask x) (p_broadcast x) (p_gateway x) (p_pcap x) (p_nb_lcores x)
    (p_lcore_list x).
Definition set_p_port_id (v : Z) (x : ff_port_cfg) : ff_port_cfg :=
  PortCfg (p_name x) v (p_addr x) (p_netmask x) (p_broadcast x) (p_gateway x) (p_pcap x) (p_nb_lcores x)
    (p_lcore_list x).
Definition set_p_addr (v : option cstr) (x : ff_port_cfg) : ff_port_cfg :=
  PortCfg (p_name x) (p_port_id x) v (p_netmask x) (p_broadcast x) (p_gateway x) (p_pcap x) (p_nb_lcores x)
    (p_lcore_list x).
Definition set_p_netmask (v : option cstr) (x : ff_port_cfg) : ff_port_cfg :=
  PortCfg (p_name x) (p_port_id x) (p_addr x) v (p_broadcast x) (p_gateway x) (p_pcap x) (p_nb_lcores x)
    (p_lcore_list x).
Definition set_p_broadcast (v : option cstr) (x : ff_port_cfg) : ff_port_cfg :=
  PortCfg (p_name x) (p_port_id x) (p_addr x) (p_netmask x) v (p_gateway x) (p_pcap x) (p_nb_lcores x)
    (p_lcore_list x).
Definition set_p_gateway (v : option cstr) (x : ff_port_cfg) : ff_port_cfg :=
  PortCfg (p_name x) (p_port_id x) (p_addr x) (p_netmask x) (p_broadcast x) v (p_pcap x) (p_nb_lcores x)
    (p_lcore_list x).
Definition set_p_pcap (v : option cstr) (x : ff_port_cfg) : ff_port_cfg :=
  PortCfg (p_name x) (p_port_id x) (p_addr x) (p_netmask x) (p_broadcast x) (p_gateway x) v (p_nb_lcores x)
    (p_lcore_list x).
Definition set_p_nb_lcores (v : Z) (x : ff_port_cfg) : ff_port_cfg :=
  PortCfg (p_name x) (p_port_id x) (p_addr x) (p_netmask x) (p_broadcast x) (p_gateway x) (p_pcap x) v
    (p_lcore_list x).
Definition set_p_lcore_list (v : list Z) (x : ff_port_cfg) : ff_port_cfg :=
  PortCfg (p_name x) (p_port_id x) (p_addr x) (p_netmask x) (p_broadcast x) (p_gateway x) (p_pcap x)
    (p_nb_lcores x) v.

Record ff_vdev_cfg := VdevCfg {
  v_name : option cstr;
  v_iface : option cstr;
  v_path : option cstr;
  v_mac : option cstr;
  v_vdev_id : Z;  (* uint8_t *)
  v_nb_queues : Z;  (* uint8_t *)
  v_nb_cq : Z;  (* uint8_t *)
  v_queue_size : Z  (* uint16_t *)
}.

Definition set_v_name (v : option cstr) (x : ff_vdev_cfg) : ff_vdev_cfg :=
  VdevCfg v (v_iface x) (v_path x) (v_mac x) (v_vdev_id x) (v_nb_queues x) (v_nb_cq x) (v_queue_size x).
Definition set_v_iface (v : option cstr) (x : ff_vdev_cfg) : ff_vdev_cfg :=
  VdevCfg (v_name x) v (v_path x) (v_mac x) (v_vdev_id x) (v_nb_queues x) (v_nb_cq x) (v_queue_size x).
Definition set_v_path (v : option cstr) (x : ff_vdev_cfg) : ff_vdev_cfg :=
  VdevCfg (v_name x) (v_iface x) v (v_mac x) (v_vdev_id x) (v_nb_queues x) (v_nb_cq x) (v_queue_size x).
Definition set_v_mac (v : option cstr) (x : ff_vdev_cfg) : ff_vdev_cfg :=
  VdevCfg (v_name x) (v_iface x) (v_path x) v (v_vdev_id x) (v_nb_queues x) (v_nb_cq x) (v_queue_size x).
Definition set_v_vdev_id (v : Z) (x : ff_vdev_cfg) : ff_vdev_cfg :=
  VdevCfg (v_name x) (v_iface x) (v_path x) (v_mac x) v (v_nb_queues x) (v_nb_cq x) (v_queue_size x).
Definition set_v_nb_queues (v : Z) (x : ff_vdev_cfg) : ff_vdev_cfg :=
  VdevCfg (v_name x) (v_iface x) (v_path x) (v_mac x) (v_vdev_id x) v (v_nb_cq x) (v_queue_size x).
Definition set_v_nb_cq (v : Z) (x : ff_vdev_cfg) : ff_vdev_cfg :=
  VdevCfg (v_name x) (v_iface x) (v_path x) (v_mac x) (v_vdev_id x) (v_nb_queues x) v (v_queue_size x).
Definition set_v_queue_size (v : Z) (x : ff_vdev_cfg) : ff_vdev_cfg :=
  VdevCfg (v_name x) (v_iface x) (v_path x) (v_mac x) (v_vdev_id x) (v_nb_queues x) (v_nb_cq x) v.

(** [value]: the string, or the long or int it was read as. *)
Inductive conf_value := VStr (s : cstr) | VLong (n : Z) | VInt (n : Z).

Record ff_freebsd_cfg := FreebsdCfg { fc_name : cstr; fc_str : cstr; fc_value : conf_value; fc_vlen : Z }.

(** The struct dpdk of struct ff_config. *)
Record dpdk_cfg := DpdkCfg {
  proc_type : option cstr;
  lcore_mask : option cstr;
  proc_mask : option cstr;
  base_virtaddr : option cstr;
  nb_channel : Z;
  memory : Z;
  no_huge : Z;
  nb_procs : Z;
  proc_id : Z;
  promiscuous : Z;
  nb_vdev : Z;
  numa_on : Z;
  tso : Z;
  vlan_strip : Z;
  idle_sleep : Z;  (* unsigned *)
  pkt_tx_delay : Z;  (* unsigned *)
  proc_lcore : option (list Z);  (* RTE_MAX_LCORE elements *)
  nb_ports : Z;
  max_portid : Z;  (* uint16_t *)
  portid_list : option (list Z);  (* nb_ports elements *)
  port_cfgs : option (list ff_port_cfg);  (* RTE_MAX_ETHPORTS elements *)
  vdev_cfgs : option (list ff_vdev_cfg)  (* RTE_MAX_ETHPORTS elements *)
}.

Definition set_proc_type (v : option cstr) (x : dpdk_cfg) : dpdk_cfg :=
  DpdkCfg v (lcore_mask x) (proc_mask x) (base_virtaddr x) (nb_channel x) (memory x) (no_huge x) (nb_procs x)
    (proc_id x) (promiscuous x) (nb_vdev x) (numa_on x) (tso x) (vlan_strip x) (idle_sleep x)
    (pkt_tx_delay x) (proc_lcore x) (nb_ports x) (max_portid x) (portid_list x) (port_cfgs x) (vdev_cfgs x).
Definition set_lcore_mask (v : option cstr) (x : dpdk_cfg) : dpdk_cfg :=
  DpdkCfg (proc_type x) v (proc_mask x) (base_virtaddr x) (nb_channel x) (memory x) (no_huge x) (nb_procs x)
    (proc_id x) (promiscuous x) (nb_vdev x) (numa_on x) (tso x) (vlan_strip x) (idle_sleep x)
    (pkt_tx_delay x) (proc_lcore x) (nb_ports x) (max_portid x) (portid_list x) (port_cfgs x) (vdev_cfgs x).
Definition set_proc_mask (v : option cstr) (x : dpdk_cfg) : dpdk_cfg :=
  DpdkCfg (proc_type x) (lcore_mask x) v (base_virtaddr x) (nb_channel x) (memory x) (no_huge x) (nb_procs x)
    (proc_id x) (promiscuous x) (nb_vdev x) (numa_on x) (tso x) (vlan_strip x) (idle_sleep x)
    (pkt_tx_delay x) (proc_lcore x) (nb_ports x) (max_portid x) (portid_list x) (port_cfgs x) (vdev_cfgs x).
Definition set_base_virtaddr (v : option cstr) (x : dpdk_cfg) : dpdk_cfg :=
  DpdkCfg (proc_type x) (lcore_mask x) (proc_mask x) v (nb_channel x) (memory x) (no_huge x) (nb_procs x)
    (proc_id x) (promiscuous x) (nb_vdev x) (numa_on x) (tso x) (vlan_strip x) (idle_sleep x)
    (pkt_tx_delay x) (proc_lcore x) (nb_ports x) (max_portid x) (portid_list x) (port_cfgs x) (vdev_cfgs x).
Definition set_nb_channel (v : Z) (x : dpdk_cfg) : dpdk_cfg :=
  DpdkCfg (proc_type x) (lcore_mask x) (proc_mask x) (base_virtaddr x) v (memory x) (no_huge x) (nb_procs x)
    (proc_id x) (promiscuous x) (nb_vdev x) (numa_on x) (tso x) (vlan_strip x) (idle_sleep x)
    (pkt_tx_delay x) (proc_lcore x) (nb_ports x) (max_portid x) (portid_list x) (port_cfgs x) (vdev_cfgs x).
Definition set_memory (v : Z) (x : dpdk_cfg) : dpdk_cfg :=
  DpdkCfg (proc_type x) (lcore_mask x) (proc_mask x) (base_virtaddr x) (nb_channel x) v (no_huge x) (nb_procs x)
    (proc_id x) (promiscuous x) (nb_vdev x) (numa_on x) (tso x) (vlan_strip x) (idle_sleep x)
    (pkt_tx_delay x) (proc_lcore x) (nb_ports x) (max_portid x) (portid_list x) (port_cfgs x) (vdev_cfgs x).
Definition set_no_huge (v : Z) (x : dpdk_cfg) : dpdk_cfg :=
  DpdkCfg (proc_type x) (lcore_mask x) (proc_mask x) (base_virtaddr x) (nb_channel x) (memory x) v (nb_procs x)
    (proc_id x) (promiscuous x) (nb_vdev x) (numa_on x) (tso x) (vlan_strip x) (idle_sleep x)
    (pkt_tx_delay x) (proc_lcore x) (nb_ports x) (max_portid x) (portid_list x) (port_cfgs x) (vdev_cfgs x).
Definition set_nb_procs (v : Z) (x : dpdk_cfg) : dpdk_cfg :=
  DpdkCfg (proc_type x) (lcore_mask x) (proc_mask x) (base_virtaddr x) (nb_channel x) (memory x) (no_huge x) v
    (proc_id x) (promiscuous x) (nb_vdev x) (numa_on x) (tso x) (vlan_strip x) (idle_sleep x)
    (pkt_tx_delay x) (proc_lcore x) (nb_ports x) (max_portid x) (portid_list x) (port_cfgs x) (vdev_cfgs x).
Definition set_proc_id (v : Z) (x : dpdk_cfg) : dpdk_cfg :=
  DpdkCfg (proc_type x) (lcore_mask x) (proc_mask x) (base_virtaddr x) (nb_channel x) (memory x) (no_huge x)
    (nb_procs x) v (promiscuous x) (nb_vdev x) (numa_on x) (tso x) (vlan_strip x) (idle_sleep x)
    (pkt_tx_delay x) (proc_lcore x) (nb_ports x) (max_portid x) (portid_list x) (port_cfgs x) (vdev_cfgs x).
Definition set_promiscuous (v : Z) (x : dpdk_cfg) : dpdk_cfg :=
  DpdkCfg (proc_type x) (lcore_mask x) (proc_mask x) (base_virtaddr x) (nb_channel x) (memory x) (no_huge x)
    (nb_procs x) (proc_id x) v (nb_vdev x) (numa_on x) (tso x) (vlan_strip x) (idle_sleep x) (pkt_tx_delay x)
    (proc_lcore x) (nb_ports x) (max_portid x) (portid_list x) (port_cfgs x) (vdev_cfgs x).
Definition set_nb_vdev (v : Z) (x : dpdk_cfg) : dpdk_cfg :=
  DpdkCfg (proc_type x) (lcore_mask x) (proc_mask x) (base_virtaddr x) (nb_channel x) (memory x) (no_huge x)
    (nb_procs x) (proc_id x) (promiscuous x) v (numa_on x) (tso x) (vlan_strip x) (idle_sleep x)
    (pkt_tx_delay x) (proc_lcore x) (nb_ports x) (max_portid x) (portid_list x) (port_cfgs x) (vdev_cfgs x).
Definition set_numa_on (v : Z) (x : dpdk_cfg) : dpdk_cfg :=
  DpdkCfg (proc_type x) (lcore_mask x) (proc_mask x) (base_virtaddr x) (nb_channel x) (memory x) (no_huge x)
    (nb_procs x) (proc_id x) (promiscuous x) (nb_vdev x) v (tso x) (vlan_strip x) (idle_sleep x)
    (pkt_tx_delay x) (proc_lcore x) (nb_ports x) (max_portid x) (portid_list x) (port_cfgs x) (vdev_cfgs x).
Definition set_tso (v : Z) (x : dpdk_cfg) : dpdk_cfg :=
  DpdkCfg (proc_type x) (lcore_mask x) (proc_mask x) (base_virtaddr x) (nb_channel x) (memory x) (no_huge x)
    (nb_procs x) (proc_id x) (promiscuous x) (nb_vdev x) (numa_on x) v (vlan_strip x) (idle_sleep x)
    (pkt_tx_delay x) (proc_lcore x) (nb_ports x) (max_portid x) (portid_list x) (port_cfgs x) (vdev_cfgs x).
Definition set_vlan_strip (v : Z) (x : dpdk_cfg) : dpdk_cfg :=
  DpdkCfg (proc_type x) (lcore_mask x) (proc_mask x) (base_virtaddr x) (nb_channel x) (memory x) (no_huge x)
    (nb_procs x) (proc_id x) (promiscuous x) (nb_vdev x) (numa_on x) (tso x) v (idle_sleep x)
    (pkt_tx_delay x) (proc_lcore x) (nb_ports x) (max_portid x) (portid_list x) (port_cfgs x) (vdev_cfgs x).
Definition set_idle_sleep (v : Z) (x : dpdk_cfg) : dpdk_cfg :=
  DpdkCfg (proc_type x) (lcore_mask x) (proc_mask x) (base_virtaddr x) (nb_channel x) (memory x) (no_huge x)
    (nb_procs x) (proc_id x) (promiscuous x) (nb_vdev x) (numa_on x) (tso x) (vlan_strip x) v
    (pkt_tx_delay x) (proc_lcore x) (nb_ports x) (max_portid x) (portid_list x) (port_cfgs x) (vdev_cfgs x).
Definition set_pkt_tx_delay (v : Z) (x : dpdk_cfg) : dpdk_cfg :=
  DpdkCfg (proc_type x) (lcore_mask x) (proc_mask x) (base_virtaddr x) (nb_channel x) (memory x) (no_huge x)
    (nb_procs x) (proc_id x) (promiscuous x) (nb_vdev x) (numa_on x) (tso x) (vlan_strip x) (idle_sleep x) v
    (proc_lcore x) (nb_ports x) (max_portid x) (portid_list x) (port_cfgs x) (vdev_cfgs x).
Definition set_proc_lcore (v : option (list Z)) (x : dpdk_cfg) : dpdk_cfg :=
  DpdkCfg (proc_type x) (lcore_mask x) (proc_mask x) (base_virtaddr x) (nb_channel x) (memory x) (no_huge x)
    (nb_procs x) (proc_id x) (promiscuous x) (nb_vdev x) (numa_on x) (tso x) (vlan_strip x) (idle_sleep x)
    (pkt_tx_delay x) v (nb_ports x) (max_portid x) (portid_list x) (port_cfgs x) (vdev_cfgs x).
Definition set_nb_ports (v : Z) (x : dpdk_cfg) : dpdk_cfg :=
  DpdkCfg (proc_type x) (lcore_mask x) (proc_mask x) (base_virtaddr x) (nb_channel x) (memory x) (no_huge x)
    (nb_procs x) (proc_id x) (promiscuous x) (nb_vdev x) (numa_on x) (tso x) (vlan_strip x) (idle_sleep x)
    (pkt_tx_delay x) (proc_lcore x) v (max_portid x) (portid_list x) (port_cfgs x) (vdev_cfgs x).
Definition set_max_portid (v : Z) (x : dpdk_cfg) : dpdk_cfg :=
  DpdkCfg (proc_type x) (lcore_mask x) (proc_mask x) (base_virtaddr x) (nb_channel x) (memory x) (no_huge x)
    (nb_procs x) (proc_id x) (promiscuous x) (nb_vdev x) (numa_on x) (tso x) (vlan_strip x) (idle_sleep x)
    (pkt_tx_delay x) (proc_lcore x) (nb_ports x) v (portid_list x) (port_cfgs x) (vdev_cfgs x).
Definition set_portid_list (v : option (list Z)) (x : dpdk_cfg) : dpdk_cfg :=
  DpdkCfg (proc_type x) (lcore_mask x) (proc_mask x) (base_virtaddr x) (nb_channel x) (memory x) (no_huge x)
    (nb_procs x) (proc_id x) (promiscuous x) (nb_vdev x) (numa_on x) (tso x) (vlan_strip x) (idle_sleep x)
    (pkt_tx_delay x) (proc_lcore x) (nb_ports x) (max_portid x) v (port_cfgs x) (vdev_cfgs x).
Definition set_port_cfgs (v : option (list ff_port_cfg)) (x : dpdk_cfg) : dpdk_cfg :=
  DpdkCfg (proc_type x) (lcore_mask x) (proc_mask x) (base_virtaddr x) (nb_channel x) (memory x) (no_huge x)
    (nb_procs x) (proc_id x) (promiscuous x) (nb_vdev x) (numa_on x) (tso x) (vlan_strip x) (idle_sleep x)
    (pkt_tx_delay x) (proc_lcore x) (nb_ports x) (max_portid x) (portid_list x) v (vdev_cfgs x).
Definition set_vdev_cfgs (v : option (list ff_vdev_cfg)) (x : dpdk_cfg) : dpdk_cfg :=
  DpdkCfg (proc_type x) (lcore_mask x) (proc_mask x) (base_virtaddr x) (nb_channel x) (memory x) (no_huge x)
    (nb_procs x) (proc_id x) (promiscuous x) (nb_vdev x) (numa_on x) (tso x) (vlan_strip x) (idle_sleep x)
    (pkt_tx_delay x) (proc_lcore x) (nb_ports x) (max_portid x) (portid_list x) (port_cfgs x) v.

Record kni_cfg := KniCfg {
  k_enable : Z;
  k_method : option cstr;
  k_tcp_port : option cstr;
  k_udp_port : option cstr
}.

Definition set_k_enable (v : Z) (x : kni_cfg) : kni_cfg :=
  KniCfg v (k_method x) (k_tcp_port x) (k_udp_port x).
Definition set_k_method (v : option cstr) (x : kni_cfg) : kni_cfg :=
  KniCfg (k_enable x) v (k_tcp_port x) (k_udp_port x).
Definition set_k_tcp_port (v : option cstr) (x : kni_cfg) : kni_cfg :=
  KniCfg (k_enable x) (k_method x) v (k_udp_port x).
Definition set_k_udp_port (v : option cstr) (x : kni_cfg) : kni_cfg :=
  KniCfg (k_enable x) (k_method x) (k_tcp_port x) v.

Record freebsd_cfg := FbCfg {
  f_boot : list ff_freebsd_cfg;
  f_sysctl : list ff_freebsd_cfg;
  f_physmem : Z;  (* long *)
  f_hz : Z;
  f_fd_reserve : Z;
  f_mem_size : Z
}.

Definition set_f_boot (v : list ff_freebsd_cfg) (x : freebsd_cfg) : freebsd_cfg :=
  FbCfg v (f_sysctl x) (f_physmem x) (f_hz x) (f_fd_reserve x) (f_mem_size x).
Definition set_f_sysctl (v : list ff_freebsd_cfg) (x : freebsd_cfg) : freebsd_cfg :=
  FbCfg (f_boot x) v (f_physmem x) (f_hz x) (f_fd_reserve x) (f_mem_size x).
Definition set_f_physmem (v : Z) (x : freebsd_cfg) : freebsd_cfg :=
  FbCfg (f_boot x) (f_sysctl x) v (f_hz x) (f_fd_reserve x) (f_mem_size x).
Definition set_f_hz (v : Z) (x : freebsd_cfg) : freebsd_cfg :=
  FbCfg (f_boot x) (f_sysctl x) (f_physmem x) v (f_fd_reserve x) (f_mem_size x).
Definition set_f_fd_reserve (v : Z) (x : freebsd_cfg) : freebsd_cfg :=
  FbCfg (f_boot x) (f_sysctl x) (f_physmem x) (f_hz x) v (f_mem_size x).
Definition set_f_mem_size (v : Z) (x : freebsd_cfg) : freebsd_cfg :=
  FbCfg (f_boot x) (f_sysctl x) (f_physmem x) (f_hz x) (f_fd_reserve x) v.

(** struct ff_config; its log part is never set. *)
Record ff_config := Config {
  filename : cstr;
  dpdk : dpdk_cfg;
  kni : kni_cfg;
  freebsd : freebsd_cfg;
  allocs : Z  (* allocations that the code checked so far *)
}.

Definition set_filename (v : cstr) (x : ff_config) : ff_config :=
  Config v (dpdk x) (kni x) (freebsd x) (allocs x).
Definition set_dpdk (v : dpdk_cfg) (x : ff_config) : ff_config :=
  Config (filename x) v (kni x) (freebsd x) (allocs x).
Definition set_kni (v : kni_cfg) (x : ff_config) : ff_config :=
  Config (filename x) (dpdk x) v (freebsd x) (allocs x).
Definition set_freebsd (v : freebsd_cfg) (x : ff_config) : ff_config :=
  Config (filename x) (dpdk x) (kni x) v (allocs x).
Definition set_allocs (v : Z) (x : ff_config) : ff_config :=
  Config (filename x) (dpdk x) (kni x) (freebsd x) v.

Definition on_dpdk (f : dpdk_cfg -> dpdk_cfg) (c : ff_config) : ff_config := set_dpdk (f (dpdk c)) c.
Definition on_kni (f : kni_cfg -> kni_cfg) (c : ff_config) : ff_config := set_kni (f (kni c)) c.
Definition on_freebsd (f : freebsd_cfg -> freebsd_cfg) (c : ff_config) : ff_config := set_freebsd (f (freebsd c)) c.

Definition port0 : ff_port_cfg := PortCfg None 0 None None None None None 0 (replicate (Z.to_nat DPDK_MAX_LCORE) 0).
Definition vdev0 : ff_vdev_cfg := VdevCfg None None None None 0 0 0 0.

(** Reads and writes of arrays. *)
Definition aread {A} (l : list A) (i : Z) : outcome A :=
  if 0 <=? i then match l !! Z.to_nat i with Some x => Done x | None => Fault end else Fault.
Definition awrite {A} (l : list A) (i : Z) (x : A) : outcome (list A) :=
  if (0 <=? i) && (i <? Z.of_nat (length l)) then Done (<[Z.to_nat i := x]> l) else Fault.

(** A pointer that is used. *)
Definition deref {A} (p : option A) : outcome A := match p with Some x => Done x | None => Fault end.

(** * Text *)

(** [sprintf("%llx")]. *)
Definition hex_char (d : Z) : ascii := if d <? 10 then chr (48 + d) else chr (87 + d).
Fixpoint print_hex_fuel (k : nat) (n : Z) : cstr :=
  match k with
  | O => []
  | S k' => (if n <? 16 then [] else print_hex_fuel k' (n / 16)) ++ [hex_char (n mod 16)]
  end.
Definition print_hex (n : Z) : cstr := print_hex_fuel 16 n.

(** [sprintf("%d")]. *)
Definition print_int (n : Z) : cstr := if n <? 0 then "-"%char :: print_dec (- n) else print_dec n.

(** [sscanf(s, "%d", &n) == 1]. *)
Definition scan_int (s : cstr) : option Z :=
  let '(v, rest) := strtol10 s in if bool_decide (rest = s) then None else Some (s32 v).

Definition strcaseeq (a b : cstr) : bool := bool_decide (map tolower a = map tolower b).

Definition xdigit2val (c : ascii) : Z :=
  if isdigit c then code c - 48 else if isupper c then code c - 65 + 10 else code c - 97 + 10.

Definition is_integer (s : cstr) : bool :=
  let s := match s with c :: r => if Ascii.eqb c "-" || Ascii.eqb c "+" then r else s | [] => s end in
  match s with
  | [] => false
  | c :: r => isdigit c && bool_decide (skip_while isdigit r = [])
  end.

Definition is_space (c : ascii) : bool := Ascii.eqb c " ".
Definition strstrip (s : cstr) : cstr := strip_end is_space (skip_while is_space s).

(** * The list search and sort *)

Fixpoint uint16_binary_search (fuel : nat) (arr : list Z) (l r x : Z) : outcome Z :=
  match fuel with
  | O => Loop
  | S fuel' =>
      if r >=? l then
        let mid := l + (r - l) / 2 in
        v ← aread arr mid;
        if v =? x then Done mid
        else if v >? x then uint16_binary_search fuel' arr l (mid - 1) x
        else uint16_binary_search fuel' arr (mid + 1) r x
      else Done (-1)
  end.

(** qsort of the first [n] elements. *)
Definition sort_uint16_array (arr : list Z) (n : Z) : list Z :=
  merge_sort Z.le (take (Z.to_nat n) arr) ++ drop (Z.to_nat n) arr.

(** * Parsers of values *)

Section Config.
Variable RTE_MAX_LCORE RTE_MAX_ETHPORTS : Z.
(** [rte_strsplit(s, 4096, tokens, max, delim)]: the tokens. *)
Variable rte_strsplit : cstr -> Z -> ascii -> list cstr.
(** Element [i] of an uninitialised array. *)
Variable junk : Z -> Z.
(** The answer to the i-th allocation whose result is tested. *)
Variable malloc_ok : Z -> bool.

Definition alloc (cfg : ff_config) : bool * ff_config := (malloc_ok (allocs cfg), set_allocs (allocs cfg + 1) cfg).

(** The bits of one hexadecimal digit: [proc_lcore], [count], [idx] and the
    process's own mask. *)
Fixpoint mask_bits (j : nat) (proc_id val : Z) (arr : list Z) (count idx : Z) (pm : option cstr)
  : outcome (list Z * Z * Z * option cstr) :=
  match j with
  | O => Done (arr, count, idx, pm)
  | S j' =>
      if idx <? RTE_MAX_LCORE then
        if Z.testbit val (Z.of_nat BITS_PER_HEX - Z.of_nat j) then
          arr1 ← awrite arr count (u16 idx);
          pm1 ← (if u32 proc_id =? count then
                   if idx <? 64 then Done (Some (print_hex (2 ^ idx))) else Fault
                 else Done pm);
          mask_bits j' proc_id val arr1 (count + 1) (idx + 1) pm1
        else mask_bits j' proc_id val arr count (idx + 1) pm
      else Done (arr, count, idx, pm)
  end.

(** [for (i = i - 1; i >= 0 && idx < RTE_MAX_LCORE; i--)] over the characters
    from the last one on: what is left of them, or [None] for a character that
    is not a hexadecimal digit. *)
Fixpoint mask_loop (cs : cstr) (proc_id : Z) (arr : list Z) (count idx : Z) (pm : option cstr)
  : outcome (list Z * Z * option cstr * option cstr) :=
  match cs with
  | [] => Done (arr, count, pm, Some [])
  | c :: r =>
      if idx <? RTE_MAX_LCORE then
        if isxdigit c then
          x ← mask_bits BITS_PER_HEX proc_id (xdigit2val c) arr count idx pm;
          let '(arr1, count1, idx1, pm1) := x in
          mask_loop r proc_id arr1 count1 idx1 pm1
        else Done (arr, count, pm, None)
      else Done (arr, count, pm, Some cs)
  end.

(** The string without blanks at both ends and without 0x. *)
Definition mask_digits (s : cstr) : cstr :=
  let s := skip_while isblank s in
  let s := match s with
           | c :: d :: r => if Ascii.eqb c "0" && (Ascii.eqb d "x" || Ascii.eqb d "X") then r else s
           | _ => s
           end in
  strip_end isblank s.

Definition parse_lcore_mask (cfg : ff_config) (coremask : cstr) : outcome (ff_config * Z) :=
  let '(ok, cfg) := alloc cfg in
  if negb ok then Done (on_dpdk (set_proc_lcore None) cfg, 0)
  else
    let arr := replicate (Z.to_nat RTE_MAX_LCORE) 0 in
    let cfg := on_dpdk (set_proc_lcore (Some arr)) cfg in
    match mask_digits coremask with
    | [] => Done (cfg, 0)
    | s =>
        x ← mask_loop (reverse s) (proc_id (dpdk cfg)) arr 0 0 (proc_mask (dpdk cfg));
        let '(arr1, count, pm, rest) := x in
        let cfg1 := on_dpdk (fun d => set_proc_mask pm (set_proc_lcore (Some arr1) d)) cfg in
        match rest with
        | None => Done (cfg1, 0)
        | Some cs =>
            if negb (forallb (fun c => Ascii.eqb c "0") cs) then Done (cfg1, 0)
            else if u32 (proc_id (dpdk cfg)) >=? count then Done (cfg1, 0)
            else Done (on_dpdk (set_nb_procs count) cfg1, 1)
        end
    end.

(** A new element goes behind the first one. *)
Definition conf_insert (n : ff_freebsd_cfg) (l : list ff_freebsd_cfg) : list ff_freebsd_cfg :=
  match l with [] => [n] | h :: t => h :: n :: t end.

Definition freebsd_conf_handler (cfg : ff_config) (section name value : cstr) : ff_config * Z :=
  let '(ok, cfg) := alloc cfg in
  if negb ok then (cfg, 0)
  else if streq section (lit "boot") then
    (on_freebsd (fun f => set_f_boot (conf_insert (FreebsdCfg name value (VStr value) (Z.of_nat (length value))) (f_boot f)) f) cfg, 1)
  else if streq section (lit "sysctl") then
    let '(v, vlen) :=
      if is_integer value then
        if streq name (lit "kern.ipc.maxsockbuf") then (VLong (atol value), 8) else (VInt (atoi value), 4)
      else (VStr value, Z.of_nat (length value)) in
    (on_freebsd (fun f => set_f_sysctl (conf_insert (FreebsdCfg name value v vlen) (f_sysctl f)) f) cfg, 1)
  else (cfg, 0).

(** [for (j = lv; j <= rv; ++j)]: the array and the count, [None] when there
    are too many. *)
Fixpoint range_loop (fuel : nat) (arr : list Z) (nr max_ele j rv : Z) : outcome (list Z * option Z) :=
  match fuel with
  | O => Loop
  | S fuel' =>
      if j <=? rv then
        if nr >? max_ele then Done (arr, None)
        else arr1 ← awrite arr nr (u16 j); range_loop fuel' arr1 (nr + 1) max_ele (s32 (j + 1)) rv
      else Done (arr, Some nr)
  end.

(** One token; [None] is an error. *)
Definition list_token (arr : list Z) (nr max_ele : Z) (tok : cstr) : outcome (list Z * option Z) :=
  match find_char "-" tok with
  | None =>
      let '(v, endptr) := strtol10 (strstrip tok) in
      if bool_decide (endptr <> []) then Done (arr, None)
      else if nr >? max_ele then Done (arr, None)
      else arr1 ← awrite arr nr (u16 v); Done (arr1, Some (nr + 1))
  | Some middle =>
      let '(lv, e1) := strtol10 (strstrip (take middle tok)) in
      if bool_decide (e1 <> []) then Done (arr, None)
      else
        let '(rv, e2) := strtol10 (strstrip (drop (S middle) tok)) in
        if bool_decide (e2 <> []) then Done (arr, None)
        else range_loop (S (S (length arr))) arr nr max_ele (s32 lv) rv
  end.

Fixpoint list_tokens (arr : list Z) (nr max_ele : Z) (toks : list cstr) : outcome (list Z * option Z) :=
  match toks with
  | [] => Done (arr, Some nr)
  | tok :: r =>
      x ← list_token arr nr max_ele tok;
      let '(arr1, o) := x in
      match o with
      | None => Done (arr1, None)
      | Some nr1 => list_tokens arr1 nr1 max_ele r
      end
  end.

(** The array, the size and the result. *)
Definition parse_config_list (arr : list Z) (sz : Z) (value : cstr) : outcome (list Z * Z * Z) :=
  x ← list_tokens arr 0 sz (rte_strsplit value 128 ",");
  let '(arr1, o) := x in
  match o with
  | None => Done (arr1, sz, 0)
  | Some nr => if nr <=? 0 then Done (arr1, sz, 1) else Done (sort_uint16_array arr1 nr, nr, 1)
  end.

Definition parse_port_lcore_list (p : ff_port_cfg) (v_str : cstr) : outcome (ff_port_cfg * Z) :=
  x ← parse_config_list (p_lcore_list p) DPDK_MAX_LCORE v_str;
  let '(arr, sz, r) := x in Done (set_p_lcore_list arr (set_p_nb_lcores sz p), r).

Definition parse_port_list (cfg : ff_config) (v_str : cstr) : outcome (ff_config * Z) :=
  x ← parse_config_list (junk <$> seqZ 0 RTE_MAX_ETHPORTS) RTE_MAX_ETHPORTS v_str;
  let '(ports, sz, res) := x in
  if res =? 0 then Done (cfg, res)
  else
    let '(ok, cfg) := alloc cfg in
    if negb ok then Done (cfg, 0)
    else
      let l := take (Z.to_nat sz) ports in
      m ← aread l (sz - 1);
      Done (on_dpdk (fun d => set_max_portid m (set_nb_ports sz (set_portid_list (Some l) d))) cfg, res).

(** * Handlers *)

(** The loop that initialises the ports of the list. *)
Fixpoint init_ports (pc : list ff_port_cfg) (ports : list Z) (nb_procs : Z) (proc_lcore : option (list Z))
  : outcome (list ff_port_cfg) :=
  match ports with
  | [] => Done pc
  | portid :: r =>
      p ← aread pc portid;
      l ← match proc_lcore with
          | Some cores =>
              if (0 <=? nb_procs) && (nb_procs <=? Z.of_nat (length cores)) && (nb_procs <=? DPDK_MAX_LCORE)
              then Done (take (Z.to_nat nb_procs) cores ++ drop (Z.to_nat nb_procs) (p_lcore_list p))
              else Fault
          | None => if nb_procs =? 0 then Done (p_lcore_list p) else Fault
          end;
      pc1 ← awrite pc portid (set_p_lcore_list l (set_p_nb_lcores nb_procs (set_p_port_id (u8 portid) p)));
      init_ports pc1 r nb_procs proc_lcore
  end.

(** The port configurations, allocated by the first call. *)
Definition get_ports (cfg : ff_config) : outcome (ff_config * option (list ff_port_cfg)) :=
  match port_cfgs (dpdk cfg) with
  | Some pc => Done (cfg, Some pc)
  | None =>
      let '(ok, cfg) := alloc cfg in
      if negb ok then Done (cfg, None)
      else
        ports ← deref (portid_list (dpdk cfg));
        pc ← init_ports (replicate (Z.to_nat RTE_MAX_ETHPORTS) port0) ports (nb_procs (dpdk cfg)) (proc_lcore (dpdk cfg));
        Done (on_dpdk (set_port_cfgs (Some pc)) cfg, Some pc)
  end.

(** The assignment that one name of a [portN] section stands for. *)
Definition port_set (cur : ff_port_cfg) (name value : cstr) : outcome (ff_port_cfg * Z) :=
  if streq name (lit "addr") then Done (set_p_addr (Some value) cur, 1)
  else if streq name (lit "netmask") then Done (set_p_netmask (Some value) cur, 1)
  else if streq name (lit "broadcast") then Done (set_p_broadcast (Some value) cur, 1)
  else if streq name (lit "gateway") then Done (set_p_gateway (Some value) cur, 1)
  else if streq name (lit "pcap") then Done (set_p_pcap (Some value) cur, 1)
  else if streq name (lit "lcore_list") then parse_port_lcore_list cur value
  else Done (cur, 1).

Definition port_cfg_handler (cfg : ff_config) (section name value : cstr) : outcome (ff_config * Z) :=
  if nb_ports (dpdk cfg) =? 0 then Done (cfg, 0)
  else
    x ← get_ports cfg;
    let '(cfg, opc) := x in
    match opc with
    | None => Done (cfg, 0)
    | Some pc =>
        match scan_int (drop 4 section) with
        | None => Done (cfg, 0)
        | Some portid =>
            if portid >? max_portid (dpdk cfg) then Done (cfg, 1)
            else
              cur ← aread pc portid;
              let cur := match p_name cur with None => set_p_name (Some section) (set_p_port_id (u8 portid) cur) | Some _ => cur end in
              y ← port_set cur name value;
              let '(cur1, r) := y in
              pc1 ← awrite pc portid cur1;
              Done (on_dpdk (set_port_cfgs (Some pc1)) cfg, r)
        end
    end.

Definition vdev_set (cur : ff_vdev_cfg) (name value : cstr) : ff_vdev_cfg :=
  if streq name (lit "iface") then set_v_iface (Some value) cur
  else if streq name (lit "path") then set_v_path (Some value) cur
  else if streq name (lit "queues") then set_v_nb_queues (u8 (atoi value)) cur
  else if streq name (lit "queue_size") then set_v_queue_size (u16 (atoi value)) cur
  else if streq name (lit "mac") then set_v_mac (Some value) cur
  else if streq name (lit "cq") then set_v_nb_cq (u8 (atoi value)) cur
  else cur.

Definition vdev_cfg_handler (cfg : ff_config) (section name value : cstr) : outcome (ff_config * Z) :=
  if nb_vdev (dpdk cfg) =? 0 then Done (cfg, 0)
  else
    let '(cfg, ovc) :=
      match vdev_cfgs (dpdk cfg) with
      | Some vc => (cfg, Some vc)
      | None =>
          let '(ok, cfg) := alloc cfg in
          if negb ok then (cfg, None)
          else
            let vc := replicate (Z.to_nat RTE_MAX_ETHPORTS) vdev0 in
            (on_dpdk (set_vdev_cfgs (Some vc)) cfg, Some vc)
      end in
    match ovc with
    | None => Done (cfg, 0)
    | Some vc =>
        match scan_int (drop 4 section) with
        | None => Done (cfg, 0)
        | Some vdevid =>
            if vdevid >? nb_vdev (dpdk cfg) then Done (cfg, 1)
            else
              cur ← aread vc vdevid;
              let cur := match v_name cur with None => set_v_name (Some section) (set_v_vdev_id (u8 vdevid) cur) | Some _ => cur end in
              vc1 ← awrite vc vdevid (vdev_set cur name value);
              Done (on_dpdk (set_vdev_cfgs (Some vc1)) cfg, 1)
        end
    end.

(** The settings of [dpdk] and [kni] that are one assignment. *)
Definition plain_setting (section name value : cstr) : option (ff_config -> ff_config) :=
  let at_ s n := streq section (lit s) && streq name (lit n) in
  let int := atoi value in
  if at_ "dpdk" "channel" then Some (on_dpdk (set_nb_channel int))
  else if at_ "dpdk" "memory" then Some (on_dpdk (set_memory int))
  else if at_ "dpdk" "no_huge" then Some (on_dpdk (set_no_huge int))
  else if at_ "dpdk" "base_virtaddr" then Some (on_dpdk (set_base_virtaddr (Some value)))
  else if at_ "dpdk" "nb_vdev" then Some (on_dpdk (set_nb_vdev int))
  else if at_ "dpdk" "promiscuous" then Some (on_dpdk (set_promiscuous int))
  else if at_ "dpdk" "numa_on" then Some (on_dpdk (set_numa_on int))
  else if at_ "dpdk" "tso" then Some (on_dpdk (set_tso int))
  else if at_ "dpdk" "vlan_strip" then Some (on_dpdk (set_vlan_strip int))
  else if at_ "dpdk" "idle_sleep" then Some (on_dpdk (set_idle_sleep (u32 int)))
  else if at_ "dpdk" "pkt_tx_delay" then Some (on_dpdk (set_pkt_tx_delay (u32 int)))
  else if at_ "kni" "enable" then Some (on_kni (set_k_enable int))
  else if at_ "kni" "method" then Some (on_kni (set_k_method (Some value)))
  else if at_ "kni" "tcp_port" then Some (on_kni (set_k_tcp_port (Some value)))
  else if at_ "kni" "udp_port" then Some (on_kni (set_k_udp_port (Some value)))
  else if at_ "freebsd.boot" "hz" then Some (on_freebsd (set_f_hz int))
  else if at_ "freebsd.boot" "physmem" then Some (on_freebsd (set_f_physmem (atol value)))
  else if at_ "freebsd.boot" "fd_reserve" then Some (on_freebsd (set_f_fd_reserve int))
  else if at_ "freebsd.boot" "memsz_MB" then Some (on_freebsd (set_f_mem_size int))
  else None.

Definition ini_parse_handler (cfg : ff_config) (section name value : cstr) : outcome (ff_config * Z) :=
  match plain_setting section name value with
  | Some f => Done (f cfg, 1)
  | None =>
      if streq section (lit "dpdk") && streq name (lit "lcore_mask") then
        parse_lcore_mask (on_dpdk (set_lcore_mask (Some value)) cfg) value
      else if streq section (lit "dpdk") && streq name (lit "port_list") then parse_port_list cfg value
      else if streq section (lit "freebsd.boot") then Done (freebsd_conf_handler cfg (lit "boot") name value)
      else if streq section (lit "freebsd.sysctl") then Done (freebsd_conf_handler cfg (lit "sysctl") name value)
      else if streq (take 4 section) (lit "port") then port_cfg_handler cfg section name value
      else if streq (take 4 section) (lit "vdev") then vdev_cfg_handler cfg section name value
      else Done (cfg, 1)
  end.

(** The handler as IniParser calls it; a fault ends the program. *)
Definition config_user (u : outcome ff_config) (section name value : cstr) : outcome ff_config * Z :=
  match u with
  | Done cfg =>
      match ini_parse_handler cfg section name value with
      | Done (cfg1, r) => (Done cfg1, r)
      | Fault => (Fault, 0)
      | Loop => (Loop, 0)
      end
  | _ => (u, 0)
  end.

(** * Options, check, arguments of DPDK *)

(** The results of getopt_long in order: the option's character and optarg.
    The second component is the return value. *)
Fixpoint parse_opts (cfg : ff_config) (opts : list (ascii * cstr)) : ff_config * Z :=
  match opts with
  | [] => (cfg, 0)
  | (c, optarg) :: r =>
      if Ascii.eqb c "c" then parse_opts (set_filename optarg cfg) r
      else if Ascii.eqb c "p" then parse_opts (on_dpdk (set_proc_id (atoi optarg)) cfg) r
      else if Ascii.eqb c "t" then parse_opts (on_dpdk (set_proc_type (Some optarg)) cfg) r
      else (cfg, -1)
  end.

Definition ff_parse_args (cfg : ff_config) (opts : list (ascii * cstr)) : ff_config * Z :=
  let '(cfg, r) := parse_opts cfg opts in
  if r <? 0 then (cfg, r)
  else
    let ty := default (lit "auto") (proc_type (dpdk cfg)) in
    let cfg := on_dpdk (set_proc_type (Some ty)) cfg in
    if negb (streq ty (lit "primary")) && negb (streq ty (lit "secondary")) && negb (streq ty (lit "auto")) then (cfg, -1)
    else
      (if u16 (proc_id (dpdk cfg)) >? RTE_MAX_LCORE then on_dpdk (set_proc_id 0) cfg else cfg, 0).

(** [for (k = 0; k < pc->nb_lcores; k++)]: 0, or -1 for an lcore that is not
    enabled. *)
Fixpoint check_lcores (cores : list Z) (d : dpdk_cfg) : outcome Z :=
  match cores with
  | [] => Done 0
  | c :: r =>
      i ← uint16_binary_search (S (S (Z.to_nat (nb_procs d)))) (default [] (proc_lcore d)) 0 (nb_procs d - 1) c;
      if i <? 0 then Done (-1) else check_lcores r d
  end.

Definition check_port (cfg : ff_config) (pc : ff_port_cfg) : outcome Z :=
  let d := dpdk cfg in
  match p_addr pc, p_netmask pc, p_broadcast pc, p_gateway pc with
  | Some _, Some _, Some _, Some _ =>
      if p_nb_lcores pc <=? Z.of_nat (length (p_lcore_list pc)) then
        let cores := take (Z.to_nat (p_nb_lcores pc)) (p_lcore_list pc) in
        r ← check_lcores cores d;
        if r <? 0 then Done (-1)
        else if ctrue (k_enable (kni cfg)) && bool_decide (proc_type d = Some (lit "primary")) then
          pl ← deref (proc_lcore d);
          lcore_id ← aread pl (proc_id d);
          Done (if existsb (Z.eqb lcore_id) cores then 0 else -1)
        else Done 0
      else Fault
  | _, _, _, _ => Done (-1)
  end.

Fixpoint check_ports (cfg : ff_config) (ports : list Z) : outcome Z :=
  match ports with
  | [] => Done 0
  | portid :: r =>
      pcs ← deref (port_cfgs (dpdk cfg));
      pc ← aread pcs portid;
      x ← check_port cfg pc;
      if x <? 0 then Done (-1) else check_ports cfg r
  end.

Definition ff_check_config (cfg : ff_config) : outcome Z :=
  if ctrue (k_enable (kni cfg)) && negb (bool_decide (is_Some (k_method (kni cfg)))) then Done (-1)
  else if match k_method (kni cfg) with
          | Some m => negb (strcaseeq m (lit "accept")) && negb (strcaseeq m (lit "reject"))
          | None => false
          end then Done (-1)
  else check_ports cfg (take (Z.to_nat (nb_ports (dpdk cfg))) (default [] (portid_list (dpdk cfg)))).

(** One argument: it is printed into a buffer and stored in the array. *)
Definition push_arg (argv : list cstr) (a : cstr) : outcome (list cstr) :=
  if (Z.of_nat (length a) <? DPDK_CONFIG_MAXLEN) && (Z.of_nat (length argv) <? DPDK_CONFIG_NUM + 1)
  then Done (argv ++ [a]) else Fault.

Definition push_if (b : bool) (argv : list cstr) (a : cstr) : outcome (list cstr) :=
  if b then push_arg argv a else Done argv.

Definition vdev_arg (v : ff_vdev_cfg) : cstr :=
  lit "--vdev=virtio_user" ++ print_dec (v_vdev_id v) ++ lit ",path=" ++ default (lit "(null)") (v_path v) ++
  (if ctrue (v_nb_queues v) then lit ",queues=" ++ print_dec (v_nb_queues v) else []) ++
  (if ctrue (v_nb_cq v) then lit ",cq=" ++ print_dec (v_nb_cq v) else []) ++
  (if ctrue (v_queue_size v) then lit ",queue_size=" ++ print_dec (v_queue_size v) else []) ++
  match v_mac v with Some m => lit ",mac=" ++ m | None => [] end.

(** [for (i = 0; i < nb_vdev; i++)], from [i] on. *)
Fixpoint vdev_args (n : nat) (i : Z) (vc : option (list ff_vdev_cfg)) (argv : list cstr) : outcome (list cstr) :=
  match n with
  | O => Done argv
  | S n' =>
      l ← deref vc; v ← aread l i;
      argv1 ← push_arg argv (vdev_arg v);
      vdev_args n' (i + 1) vc argv1
  end.

Definition dpdk_args_setup (cfg : ff_config) : outcome (list cstr) :=
  let d := dpdk cfg in
  let str pre o argv := match o with Some s => push_arg argv (lit pre ++ s) | None => Done argv end in
  a ← push_arg [] (lit "f-stack");
  a ← push_if (ctrue (no_huge d)) a (lit "--no-huge");
  a ← str "-c" (proc_mask d) a;
  a ← push_if (ctrue (nb_channel d)) a (lit "-n" ++ print_int (nb_channel d));
  a ← push_if (ctrue (memory d)) a (lit "-m" ++ print_int (memory d));
  a ← str "--proc-type=" (proc_type d) a;
  a ← str "--base-virtaddr=" (base_virtaddr d) a;
  if ctrue (nb_vdev d) then
    a ← vdev_args (Z.to_nat (nb_vdev d)) 0 (vdev_cfgs d) a;
    a ← push_arg a (lit "--no-pci");
    push_arg a (lit "--file-prefix=container")
  else Done a.

(** memset, then the defaults. *)
Definition ff_default_config : ff_config :=
  Config (lit "config.ini")
    (DpdkCfg None None None None 0 0 0 0 (-1) 1 0 1 0 0 0 BURST_TX_DRAIN_US None 0 0 None None None)
    (KniCfg 0 None None None)
    (FbCfg [] [] (1048576 * 256) 100 0 256) 0.

(** The return value, the configuration and dpdk_argv; [files] is fopen. *)
Definition ff_load_config (files : cstr -> option cstr) (opts : list (ascii * cstr)) : outcome (Z * ff_config * list cstr) :=
  let '(cfg, ret) := ff_parse_args ff_default_config opts in
  if ret <? 0 then Done (ret, cfg, [])
  else
    match ini_parse files (filename cfg) config_user (Done cfg) with
    | None => Loop
    | Some (ret, u) =>
        cfg ← u;
        if negb (ret =? 0) then Done (-1, cfg, [])
        else
          r ← ff_check_config cfg;
          if ctrue r then Done (-1, cfg, [])
          else argv ← dpdk_args_setup cfg;
               if Z.of_nat (length argv) <=? 0 then Done (-1, cfg, argv) else Done (0, cfg, argv)
    end.
End Config.
