(* ===== verification/ConfigSpec.v ===== *)
(** What the configuration reader of Config.v computes: core masks, port and core
    lists, the check of the result, and termination on every input. *)
From stdpp Require Import base list strings sorting.
From Stdlib Require Import ZArith Lia Ascii.
From S2P Require Import Prelude CStr IniParser Config.

Local Open Scope Z_scope.

(** * Arrays *)

Lemma awrite_app {A} (a b : list A) x y : awrite (a ++ x :: b) (Z.of_nat (length a)) y = Done (a ++ y :: b).
Proof.
  unfold awrite. rewrite length_app. cbn [length]. rewrite (proj2 (Z.leb_le _ _)), (proj2 (Z.ltb_lt _ _)) by lia. cbn [andb].
  by rewrite Nat2Z.id, insert_app_r_alt, Nat.sub_diag by lia.
Qed.

Lemma aread_lookup {A} (l : list A) i x : 0 <= i -> l !! Z.to_nat i = Some x -> aread l i = Done x.
Proof. intros Hi E. unfold aread. assert (0 <=? i = true) as -> by lia. by rewrite E. Qed.

Lemma aread_done {A} (l : list A) i x : aread l i = Done x -> 0 <= i /\ l !! Z.to_nat i = Some x.
Proof. unfold aread. destruct (0 <=? i) eqn:E; [|done]. destruct (l !! Z.to_nat i); [|done]. intros [= <-]. split; [lia|done]. Qed.

(** * Core masks *)

Definition hex_value (ds : cstr) : Z := fold_left (fun a c => a * 16 + xdigit2val c) ds 0.

(** The cores of a mask, in order. *)
Definition cores_below (v n : Z) : list Z := filter (fun i => Z.testbit v i = true) (seqZ 0 n).

Lemma cores_below_succ v n :
  0 <= n -> cores_below v (n + 1) = cores_below v n ++ (if Z.testbit v n then [n] else []).
Proof.
  intros Hn. unfold cores_below. rewrite seqZ_app by lia. rewrite filter_app. f_equal. change (seqZ (0 + n) 1) with [0 + n].
  replace (0 + n) with n by lia. destruct (Z.testbit v n) eqn:E; [by rewrite filter_cons_True|by rewrite filter_cons_False by congruence].
Qed.

Lemma cores_below_length v n : 0 <= n -> (length (cores_below v n) <= Z.to_nat n)%nat.
Proof. intros Hn. unfold cores_below. etrans; [apply length_filter|]. by rewrite length_seqZ. Qed.

Lemma cores_below_high v n m : 0 <= v < 2 ^ n -> 0 <= n <= m -> cores_below v m = cores_below v n.
Proof.
  intros Hv Hn. replace m with (n + Z.of_nat (Z.to_nat (m - n))) by lia. generalize (Z.to_nat (m - n)) as k.
  induction k as [|k IH]; [by rewrite Z.add_0_r|]. replace (n + Z.of_nat (S k)) with (n + Z.of_nat k + 1) by lia.
  rewrite cores_below_succ by lia. rewrite IH. assert (Z.testbit v (n + Z.of_nat k) = false) as ->; [|by rewrite app_nil_r].
  apply Z.testbit_false; [lia|]. rewrite Z.div_small; [done|]. split; [lia|].
  eapply Z.lt_le_trans; [apply Hv|]. apply Z.pow_le_mono_r; lia.
Qed.

(** The digits from the last one on. *)
Fixpoint low_value (cs : cstr) : Z := match cs with [] => 0 | c :: r => xdigit2val c + 16 * low_value r end.

Lemma low_value_hex ds : low_value (reverse ds) = hex_value ds.
Proof.
  unfold hex_value. rewrite <- (reverse_involutive ds) at 2. generalize (reverse ds) as cs.
  induction cs as [|c cs IH]; [done|]. rewrite reverse_cons, fold_left_app. cbn. rewrite <- IH. lia.
Qed.

Lemma code_range c : 0 <= code c < 256.
Proof. unfold code. pose proof (N_ascii_bounded c). lia. Qed.

Lemma xdigit_range c : isxdigit c = true -> 0 <= xdigit2val c < 16 /\ (xdigit2val c = 0 -> c = "0"%char).
Proof.
  unfold isxdigit, xdigit2val, isdigit, isupper, between. intros H.
  assert (0 <= (if (48 <=? code c) && (code c <=? 57) then code c - 48
           else if (65 <=? code c) && (code c <=? 90) then code c - 65 + 10 else code c - 97 + 10) < 16 /\
          ((if (48 <=? code c) && (code c <=? 57) then code c - 48
           else if (65 <=? code c) && (code c <=? 90) then code c - 65 + 10 else code c - 97 + 10) = 0 -> code c = 48)) as [H1 H2].
  { destruct (48 <=? code c) eqn:?, (code c <=? 57) eqn:?, (65 <=? code c) eqn:?, (code c <=? 90) eqn:?; cbn in *; lia. }
  split; [done|]. intros E. apply H2 in E. unfold code in E. rewrite <- (ascii_N_embedding c). by replace (N_of_ascii c) with 48%N by lia.
Qed.

Lemma low_value_nonneg cs : Forall (fun c => isxdigit c = true) cs -> 0 <= low_value cs.
Proof. induction 1 as [|c cs Hc _ IH]; cbn; [done|]. apply xdigit_range in Hc as [? _]. lia. Qed.

Lemma low_value_zero cs :
  Forall (fun c => isxdigit c = true) cs -> low_value cs = 0 -> forallb (fun c => Ascii.eqb c "0") cs = true.
Proof.
  induction 1 as [|c cs Hc Hcs IH]; cbn; [done|]. intros E. pose proof (low_value_nonneg cs Hcs).
  apply xdigit_range in Hc as [? Hz]. rewrite Hz by lia. apply IH. lia.
Qed.

(** The digits [cs] are the bits of [v] from [idx] on. *)
Lemma digit_bits v idx d w b :
  0 <= idx -> v / 2 ^ idx = d + 16 * w -> 0 <= d < 16 -> (b < 4)%nat -> Z.testbit d (Z.of_nat b) = Z.testbit v (idx + Z.of_nat b).
Proof.
  intros Hi E Hd Hb. rewrite Z.add_comm, <- Z.div_pow2_bits, E by lia.
  rewrite <- (Z.mod_pow2_bits_low (d + 16 * w) 4) by lia. f_equal.
  change (2 ^ 4) with 16. rewrite Z.mul_comm, Z.mod_add by lia. symmetry. by apply Z.mod_small.
Qed.

Section Mask.
Context (RTE_MAX_LCORE proc_id : Z).
Context (lcore_int : 0 <= RTE_MAX_LCORE < 2 ^ 16) (proc_int : 0 <= proc_id < 2 ^ 31).

(** The mask of the process when the cores are [l]. *)
Definition own_mask (pm0 : option cstr) (l : list Z) : option cstr :=
  match l !! Z.to_nat proc_id with Some c => Some (print_hex (2 ^ c)) | None => pm0 end.

Definition arr_of (l : list Z) : list Z := l ++ replicate (Z.to_nat RTE_MAX_LCORE - length l) 0.

(** No shift beyond 63 for the process's own core. *)
Definition own_small (v : Z) : Prop := forall c, cores_below v RTE_MAX_LCORE !! Z.to_nat proc_id = Some c -> c < 64.

Lemma own_mask_snoc pm0 l x :
  own_mask pm0 (l ++ [x]) = if u32 proc_id =? Z.of_nat (length l) then Some (print_hex (2 ^ x)) else own_mask pm0 l.
Proof.
  unfold own_mask. rewrite wrapu_small by lia. destruct (proc_id =? Z.of_nat (length l)) eqn:E.
  - rewrite list_lookup_middle; [done|lia].
  - destruct (decide (Z.to_nat proc_id < length l)%nat) as [H|H].
    + by rewrite lookup_app_l by lia.
    + rewrite !lookup_ge_None_2; [done|lia|rewrite length_app; cbn; lia].
Qed.

Lemma arr_of_snoc l x :
  Z.of_nat (length l) < RTE_MAX_LCORE -> awrite (arr_of l) (Z.of_nat (length l)) x = Done (arr_of (l ++ [x])).
Proof.
  intros H. unfold arr_of. rewrite length_app. cbn [length].
  replace (Z.to_nat RTE_MAX_LCORE - length l)%nat with (S (Z.to_nat RTE_MAX_LCORE - (length l + 1)))%nat by lia.
  cbn [replicate]. rewrite awrite_app. by rewrite <- app_assoc.
Qed.

Lemma prefix_lookup v n c :
  0 <= n < RTE_MAX_LCORE -> cores_below v (n + 1) !! Z.to_nat proc_id = Some c ->
  cores_below v RTE_MAX_LCORE !! Z.to_nat proc_id = Some c.
Proof.
  intros Hn. replace RTE_MAX_LCORE with (n + 1 + Z.of_nat (Z.to_nat (RTE_MAX_LCORE - (n + 1)))) by lia.
  generalize (Z.to_nat (RTE_MAX_LCORE - (n + 1))) as k. induction k as [|k IH]; intros H; [by rewrite Z.add_0_r|].
  replace (n + 1 + Z.of_nat (S k)) with (n + 1 + Z.of_nat k + 1) by lia. rewrite cores_below_succ by lia.
  apply lookup_app_l_Some. by apply IH.
Qed.

(** One digit: its bits are those of [v] from [idx] on. *)
Lemma mask_bits_spec v pm0 j : forall idx val,
  0 <= idx -> own_small v -> (j <= BITS_PER_HEX)%nat -> idx <= RTE_MAX_LCORE ->
  (forall b, (b < j)%nat -> Z.testbit val (Z.of_nat BITS_PER_HEX - Z.of_nat j + Z.of_nat b) = Z.testbit v (idx + Z.of_nat b)) ->
  let l := cores_below v idx in
  exists idx', mask_bits RTE_MAX_LCORE j proc_id val (arr_of l) (Z.of_nat (length l)) idx (own_mask pm0 l) =
    (let l' := cores_below v idx' in Done (arr_of l', Z.of_nat (length l'), idx', own_mask pm0 l')) /\
    idx' = Z.min RTE_MAX_LCORE (idx + Z.of_nat j).
Proof.
  induction j as [|j IH]; intros idx val Hi Ho Hj Hm Hb; cbn zeta.
  { exists idx. split; [done|lia]. }
  cbn [mask_bits]. destruct (idx <? RTE_MAX_LCORE) eqn:Ei; [|exists idx; split; [done|lia]].
  pose proof (Hb O ltac:(lia)) as Hb0. rewrite !Z.add_0_r in Hb0. rewrite Hb0.
  pose proof (cores_below_length v idx Hi) as Hl. pose proof (cores_below_succ v idx Hi) as Hs.
  assert (Hstep : forall b, (b < j)%nat ->
    Z.testbit val (Z.of_nat BITS_PER_HEX - Z.of_nat j + Z.of_nat b) = Z.testbit v (idx + 1 + Z.of_nat b)).
  { intros b Hbj. specialize (Hb (S b) ltac:(lia)). replace (idx + 1 + Z.of_nat b) with (idx + Z.of_nat (S b)) by lia.
    rewrite <- Hb. f_equal. lia. }
  destruct (IH (idx + 1) val ltac:(lia) Ho ltac:(lia) ltac:(lia) Hstep) as (idx' & E & Hx). cbn zeta in E.
  destruct (Z.testbit v idx) eqn:Et.
  - rewrite (wrapu_small 16 idx) by lia. rewrite arr_of_snoc by lia. cbn [mbind outcome_bind]. rewrite <- Hs.
    rewrite Hs, own_mask_snoc, <- Hs in E. rewrite Hs, length_app, <- Hs in E. cbn [length] in E. rewrite Nat2Z.inj_add in E. change (Z.of_nat 1) with 1 in E.
    destruct (u32 proc_id =? Z.of_nat (length (cores_below v idx))) eqn:Ep.
    + assert (idx < 64) as H64.
      { apply Ho. apply (prefix_lookup v idx); [lia|]. rewrite Hs. rewrite wrapu_small in Ep by lia. apply list_lookup_middle. lia. }
      assert (idx <? 64 = true) as -> by lia. cbn [mbind outcome_bind]. rewrite E. exists idx'. split; [done|lia].
    + cbn [mbind outcome_bind]. rewrite E. exists idx'. split; [done|lia].
  - rewrite app_nil_r in Hs. rewrite Hs in E. rewrite E. exists idx'. split; [done|lia].
Qed.

Lemma mask_loop_spec v pm0 cs : forall idx,
  Forall (fun c => isxdigit c = true) cs -> own_small v -> 0 <= v < 2 ^ RTE_MAX_LCORE -> 0 <= idx <= RTE_MAX_LCORE ->
  (if idx <? RTE_MAX_LCORE then v / 2 ^ idx = low_value cs else low_value cs = 0) ->
  let l := cores_below v idx in
  let L := cores_below v RTE_MAX_LCORE in
  exists rest, forallb (fun c => Ascii.eqb c "0") rest = true /\
    mask_loop RTE_MAX_LCORE cs proc_id (arr_of l) (Z.of_nat (length l)) idx (own_mask pm0 l) =
    Done (arr_of L, Z.of_nat (length L), own_mask pm0 L, Some rest).
Proof.
  induction cs as [|c cs IH]; intros idx Hx Ho Hv Hi Hlow; cbn zeta.
  { exists []. split; [done|]. cbn [mask_loop]. destruct (idx <? RTE_MAX_LCORE) eqn:Ei; [|by replace idx with RTE_MAX_LCORE by lia].
    cbn in Hlow. rewrite (cores_below_high v idx RTE_MAX_LCORE); [done| |lia].
    apply Z.div_small_iff in Hlow; [|apply Z.pow_nonzero; lia]. destruct Hlow as [|Hl]; [lia|].
    pose proof (Z.pow_pos_nonneg 2 idx). lia. }
  cbn [mask_loop]. destruct (idx <? RTE_MAX_LCORE) eqn:Ei.
  2: { exists (c :: cs). split; [by apply low_value_zero|]. by replace idx with RTE_MAX_LCORE by lia. }
  apply Forall_cons in Hx as [Hc Hx]. rewrite Hc. cbn [low_value] in Hlow. pose proof (xdigit_range c Hc) as [Hd _].
  destruct (mask_bits_spec v pm0 BITS_PER_HEX idx (xdigit2val c)) as (idx' & E & Hidx); [lia|done|done|lia| |].
  { intros b Hb. replace (Z.of_nat BITS_PER_HEX - Z.of_nat BITS_PER_HEX + Z.of_nat b) with (Z.of_nat b) by lia.
    eapply digit_bits; [lia|done|done|done]. }
  cbn zeta in E. rewrite E. cbn [mbind outcome_bind]. change (Z.of_nat BITS_PER_HEX) with 4 in Hidx.
  apply IH; [done|done|done|lia|].
  assert (0 <= low_value cs) as Hn by (by apply low_value_nonneg).
  destruct (idx' <? RTE_MAX_LCORE) eqn:Ei'.
  - replace idx' with (idx + 4) by lia. rewrite Z.pow_add_r, <- Z.div_div, Hlow by lia. change (2 ^ 4) with 16.
    rewrite Z.mul_comm, Z.div_add by lia. rewrite Z.div_small by lia. lia.
  - assert (v / 2 ^ idx < 2 ^ (RTE_MAX_LCORE - idx)) as Hb.
    { apply Z.div_lt_upper_bound; [apply Z.pow_pos_nonneg; lia|]. rewrite <- Z.pow_add_r by lia.
      replace (idx + (RTE_MAX_LCORE - idx)) with RTE_MAX_LCORE by lia; lia. }
    assert (2 ^ (RTE_MAX_LCORE - idx) <= 2 ^ 4) by (apply Z.pow_le_mono_r; lia). lia.
Qed.
End Mask.

Lemma xdigit_plain c : isxdigit c = true -> isblank c = false /\ Ascii.eqb c "x" = false /\ Ascii.eqb c "X" = false.
Proof.
  intros H. assert (isblank c = false) as Hb.
  { revert H. unfold isxdigit, isdigit, isblank, between. intros H. apply orb_false_iff. split; apply Z.eqb_neq; intros E;
      rewrite E in H; done. }
  split; [done|]. split; apply Ascii.eqb_neq; intros ->; done.
Qed.

Lemma blank_plain c : isblank c = true -> Ascii.eqb c "x" = false /\ Ascii.eqb c "X" = false.
Proof. intros H. split; apply Ascii.eqb_neq; intros ->; done. Qed.

Lemma strip_end_app {A} (f : A -> bool) l t :
  Forall (fun x => f x = true) t -> strip_end f (l ++ t) = strip_end f l.
Proof.
  intros H. unfold strip_end. by rewrite reverse_app, skip_while_app_all by (by apply Forall_reverse).
Qed.

Lemma mask_digits_spec pre x ds post :
  Forall (fun c => isblank c = true) pre -> Forall (fun c => isblank c = true) post ->
  x = [] \/ x = lit "0x" \/ x = lit "0X" -> ds <> [] -> Forall (fun c => isxdigit c = true) ds ->
  mask_digits (pre ++ x ++ ds ++ post) = ds.
Proof.
  intros Hpre Hpost Hx Hne Hds. unfold mask_digits. rewrite skip_while_app_all by done.
  assert (strip_end isblank (ds ++ post) = ds) as Hs.
  { rewrite strip_end_app by done. apply strip_end_id. destruct (last ds) as [c|] eqn:E; [|done].
    apply last_Some_elem_of in E. rewrite Forall_forall in Hds. by apply xdigit_plain, Hds. }
  destruct ds as [|c ds]; [done|]. apply Forall_cons in Hds as [Hc Hds]. pose proof (xdigit_plain c Hc) as (Hb & _).
  destruct Hx as [->|[->| ->]]; cbn [app]; rewrite skip_while_id; try done.
  cbn [app] in Hs. destruct (ds ++ post) as [|d r] eqn:E; [done|].
  assert (Ascii.eqb d "x" = false /\ Ascii.eqb d "X" = false) as [-> ->]; [|by rewrite andb_false_r].
  destruct ds as [|d' ds]; cbn in E.
  - subst post. apply Forall_cons in Hpost as [Hd _]. by apply blank_plain.
  - injection E as -> _. apply Forall_cons in Hds as [Hd _]. by apply xdigit_plain.
Qed.

Lemma parse_lcore_mask_spec MAXC malloc_ok cfg s ds v :
  0 < MAXC < 2 ^ 16 -> malloc_ok (allocs cfg) = true -> 0 <= proc_id (dpdk cfg) < 2 ^ 31 ->
  mask_digits s = ds -> ds <> [] -> Forall (fun c => isxdigit c = true) ds -> hex_value ds = v -> v < 2 ^ MAXC ->
  own_small MAXC (proc_id (dpdk cfg)) v ->
  let L := cores_below v MAXC in
  parse_lcore_mask MAXC malloc_ok cfg s =
  (let cfg1 := on_dpdk (fun d => set_proc_mask (own_mask (proc_id d) (proc_mask d) L) (set_proc_lcore (Some (arr_of MAXC L)) d))
                 (set_allocs (allocs cfg + 1) cfg) in
   if proc_id (dpdk cfg) <? Z.of_nat (length L) then Done (on_dpdk (set_nb_procs (Z.of_nat (length L))) cfg1, 1)
   else Done (cfg1, 0)).
Proof.
  intros HM Ha Hp Hd Hne Hx Hv Hlt Ho L. unfold parse_lcore_mask, alloc. rewrite Ha, Hd. cbn [negb].
  destruct ds as [|c ds'] eqn:Eds; [done|]. rewrite <- Eds in *. clear Eds Hne.
  assert (0 <= v) as H0. { rewrite <- Hv, <- low_value_hex. apply low_value_nonneg. by apply Forall_reverse. }
  destruct (mask_loop_spec MAXC (proc_id (dpdk cfg)) ltac:(lia) Hp v (proc_mask (dpdk cfg)) (reverse ds) 0) as (rest & Hz & E);
    [by apply Forall_reverse|done|lia|lia| |].
  { replace (0 <? MAXC) with true by lia. rewrite Z.div_1_r, low_value_hex. done. }
  cbn zeta in E. change (cores_below v 0) with (@nil Z) in E. unfold arr_of in E at 1. cbn [app length] in E.
  rewrite Nat.sub_0_r in E. change (Z.of_nat 0) with 0 in E.
  assert (own_mask (proc_id (dpdk cfg)) (proc_mask (dpdk cfg)) [] = proc_mask (dpdk cfg)) as En by done. rewrite En in E.
  cbn [on_dpdk set_dpdk dpdk set_proc_lcore proc_id proc_mask set_allocs]. rewrite E. cbn [mbind outcome_bind].
  rewrite Hz. cbn [negb]. rewrite wrapu_small by lia. fold L.
  destruct (proc_id (dpdk cfg) >=? Z.of_nat (length L)) eqn:Eg, (proc_id (dpdk cfg) <? Z.of_nat (length L)) eqn:El; try lia; done.
Qed.

(** * The search *)

Definition ordered (arr : list Z) (n : Z) : Prop :=
  forall i j x y, 0 <= i <= j -> j < n -> arr !! Z.to_nat i = Some x -> arr !! Z.to_nat j = Some y -> x <= y.

Lemma binary_search_spec fuel : forall arr n l r x,
  ordered arr n -> n <= Z.of_nat (length arr) -> 0 <= l -> r < n -> (Z.to_nat (r - l + 1) < fuel)%nat ->
  exists res, uint16_binary_search fuel arr l r x = Done res /\
    (0 <= res /\ l <= res <= r /\ arr !! Z.to_nat res = Some x \/
     res = -1 /\ forall i, l <= i <= r -> arr !! Z.to_nat i <> Some x).
Proof.
  induction fuel as [|fuel IH]; intros arr n l r x Ho Hn Hl Hr Hf; [lia|]. cbn [uint16_binary_search].
  destruct (r >=? l) eqn:Ec; [|exists (-1); split; [done|]; right; split; [done|lia]].
  set (mid := l + (r - l) / 2). assert (l <= mid <= r) as Hm.
  { unfold mid. pose proof (Z.div_pos (r - l) 2). pose proof (Z.div_le_upper_bound (r - l) 2 (r - l)). lia. }
  clearbody mid. destruct (lookup_lt_is_Some_2 arr (Z.to_nat mid)) as [v Ev]; [lia|].
  rewrite (aread_lookup arr mid v) by (lia || done). cbn [mbind outcome_bind].
  destruct (v =? x) eqn:Ex. { exists mid. split; [done|]. left. assert (v = x) as <- by lia. split; [lia|]. split; [lia|done]. }
  destruct (v >? x) eqn:Eg.
  - destruct (IH arr n l (mid - 1) x) as (res & E & H); [done|done|lia|lia|lia|]. exists res. split; [done|].
    destruct H as [(? & ? & ?)|(-> & H)]; [left; split; [done|]; split; [lia|done]|]. right. split; [done|]. intros i Hi Eix.
    destruct (decide (i <= mid - 1)); [by apply (H i); [lia|]|].
    pose proof (Ho mid i v x ltac:(lia) ltac:(lia) Ev Eix). lia.
  - destruct (IH arr n (mid + 1) r x) as (res & E & H); [done|done|lia|lia|lia|]. exists res. split; [done|].
    destruct H as [(? & ? & ?)|(-> & H)]; [left; split; [done|]; split; [lia|done]|]. right. split; [done|]. intros i Hi Eix.
    destruct (decide (mid + 1 <= i)); [by apply (H i); [lia|]|].
    pose proof (Ho i mid x v ltac:(lia) ltac:(lia) Eix Ev). lia.
Qed.

(** The search over the first [n] elements decides membership. *)
Lemma search_member arr n x :
  ordered arr n -> 0 <= n <= Z.of_nat (length arr) ->
  exists res, uint16_binary_search (S (S (Z.to_nat n))) arr 0 (n - 1) x = Done res /\
    (res <? 0 = false <-> x ∈ take (Z.to_nat n) arr).
Proof.
  intros Ho Hn. destruct (binary_search_spec (S (S (Z.to_nat n))) arr n 0 (n - 1) x Ho) as (res & E & H); [lia|lia|lia|lia|].
  exists res. split; [done|]. rewrite list_elem_of_lookup. destruct H as [(H0 & Hr & Ex)|(-> & H)].
  - split; [intros _|lia]. exists (Z.to_nat res). rewrite lookup_take_lt by lia. done.
  - split; [done|]. intros [i Hi]. apply lookup_take_Some in Hi as [Ei Hi]. exfalso. apply (H (Z.of_nat i)); [lia|].
    by rewrite Nat2Z.id.
Qed.

Lemma sorted_lookup {A} (R : relation A) l : forall i j x y,
  StronglySorted R l -> (i < j)%nat -> l !! i = Some x -> l !! j = Some y -> R x y.
Proof.
  induction l as [|z l IH]; intros i j x y Hs Hij Ex Ey; [done|]. apply StronglySorted_cons in Hs as [Hz Hs].
  destruct j as [|j]; [lia|]. destruct i as [|i]; cbn in Ex, Ey; [|by apply (IH i j x y Hs ltac:(lia))].
  injection Ex as <-. rewrite Forall_forall in Hz. apply Hz. by eapply list_elem_of_lookup_2.
Qed.

Lemma cores_elem v n c : 0 <= n -> c ∈ cores_below v n <-> 0 <= c < n /\ Z.testbit v c = true.
Proof. intros Hn. unfold cores_below. rewrite list_elem_of_filter, elem_of_seqZ. split; [intros []|intros [? ?]]; split; (done || lia). Qed.

Lemma cores_sorted v n : 0 <= n -> StronglySorted Z.lt (cores_below v n).
Proof.
  intros Hn. rewrite <- (Z2Nat.id n) by done. clear Hn. generalize (Z.to_nat n) as k. induction k as [|k IH]; [constructor|].
  replace (Z.of_nat (S k)) with (Z.of_nat k + 1) by lia. rewrite cores_below_succ by lia. apply StronglySorted_app_2; [|done|].
  - intros x y Hx Hy. apply cores_elem in Hx; [|lia]. destruct (Z.testbit v (Z.of_nat k)); [|by apply elem_of_nil in Hy].
    apply list_elem_of_singleton in Hy. lia.
  - destruct (Z.testbit v (Z.of_nat k)); repeat constructor.
Qed.

Lemma arr_of_ordered MAXC v :
  0 <= MAXC -> let L := cores_below v MAXC in
  ordered (arr_of MAXC L) (Z.of_nat (length L)) /\ length (arr_of MAXC L) = Z.to_nat MAXC /\ take (length L) (arr_of MAXC L) = L.
Proof.
  intros HM L. pose proof (cores_below_length v MAXC HM) as HL. fold L in HL. split; [|split].
  - intros i j x y Hi Hj Ex Ey. unfold arr_of in Ex, Ey. rewrite lookup_app_l in Ex, Ey by lia.
    destruct (decide (i = j)) as [->|]; [rewrite Ex in Ey; injection Ey as ->; lia|].
    assert (x < y); [|lia]. eapply (sorted_lookup Z.lt L); [by apply cores_sorted| |exact Ex|exact Ey]. lia.
  - unfold arr_of. rewrite length_app, length_replicate. lia.
  - unfold arr_of. by rewrite take_app_length.
Qed.

(** * Lists of ports and cores

    The grammar of config.ini: numbers and ranges, separated by commas. *)

Inductive num_list := Num (n : Z) | Range (lo hi : Z).

Definition num_print (it : num_list) : cstr :=
  match it with Num n => print_dec n | Range lo hi => print_dec lo ++ "-"%char :: print_dec hi end.

Definition num_expand (it : num_list) : list Z :=
  match it with Num n => [n] | Range lo hi => seqZ lo (hi - lo + 1) end.

Definition num_ok (it : num_list) : Prop :=
  match it with Num n => 0 <= n < 2 ^ 16 | Range lo hi => 0 <= lo < 2 ^ 16 /\ 0 <= hi < 2 ^ 16 end.

Fixpoint join (d : ascii) (toks : list cstr) : cstr :=
  match toks with [] => [] | [t] => t | t :: r => t ++ d :: join d r end.

(** [e] written behind [d], when there is room. *)
Definition fill (d rest e : list Z) : outcome (list Z * option Z) :=
  if (length e <=? length rest)%nat then Done (d ++ e ++ drop (length e) rest, Some (Z.of_nat (length d + length e))) else Fault.

Lemma awrite_past {A} (l : list A) x : awrite l (Z.of_nat (length l)) x = Fault.
Proof. unfold awrite. rewrite Z.ltb_irrefl. by rewrite andb_false_r. Qed.

Lemma range_loop_spec fuel : forall d rest j rv,
  0 <= j -> rv < 2 ^ 16 -> j < 2 ^ 16 + 1 -> (length rest < fuel)%nat ->
  range_loop fuel (d ++ rest) (Z.of_nat (length d)) (Z.of_nat (length (d ++ rest))) j rv = fill d rest (seqZ j (rv - j + 1)).
Proof.
  induction fuel as [|fuel IH]; intros d rest j rv Hj Hr Hj2 Hf; [lia|]. cbn [range_loop].
  destruct (j <=? rv) eqn:Ej.
  2: { rewrite seqZ_nil by lia. unfold fill. cbn. by rewrite drop_0, Nat.add_0_r. }
  rewrite length_app. assert (Z.of_nat (length d) >? Z.of_nat (length d + length rest) = false) as ->.
  { rewrite Z.gtb_ltb. apply Z.ltb_ge. lia. }
  rewrite (wrapu_small 16 j), (wraps_small 32 (j + 1)) by lia.
  rewrite (seqZ_cons j) by lia. replace (Z.pred (rv - j + 1)) with (rv - (j + 1) + 1) by lia. change (Z.succ j) with (j + 1).
  destruct rest as [|y rest]; [by rewrite app_nil_r, awrite_past|].
  rewrite awrite_app. cbn [mbind outcome_bind length]. specialize (IH (d ++ [j]) rest (j + 1) rv).
  rewrite !length_app, <- app_assoc in IH. cbn [app length] in IH.
  replace (Z.of_nat (length d) + 1) with (Z.of_nat (length d + 1)) by lia.
  replace (length d + S (length rest))%nat with (length d + 1 + length rest)%nat by lia.
  rewrite IH by (cbn in Hf; lia). unfold fill. cbn [length drop Nat.leb].
  destruct (_ <=? _)%nat; [|done]. rewrite length_app. cbn [length]. rewrite <- app_assoc. do 2 f_equal. f_equal. lia.
Qed.

Lemma drop_past {A} (a b : list A) x : drop (S (length a)) (a ++ x :: b) = b.
Proof. by induction a. Qed.

Lemma digits_strip ds : Forall (fun c => isdigit c = true) ds -> strstrip ds = ds.
Proof.
  intros H. unfold strstrip. assert (forall c, isdigit c = true -> is_space c = false) as Hc.
  { intros c Hd. unfold is_space. apply Ascii.eqb_neq. by intros ->. }
  rewrite skip_while_id; [apply strip_end_id|].
  - destruct (last ds) as [c|] eqn:E; [|done]. apply last_Some_elem_of in E. rewrite Forall_forall in H. by apply Hc, H.
  - destruct H; [done|]. by apply Hc.
Qed.

Lemma num_token n : 0 <= n < 2 ^ 16 -> strtol10 (strstrip (print_dec n)) = (n, []) /\ Forall (fun c => isdigit c = true) (print_dec n).
Proof.
  intros Hn. destruct (print_dec_spec n) as (Hd & _ & _); [lia|]. split; [|done]. rewrite digits_strip by done.
  pose proof (strtol10_print_dec n [] ltac:(unfold LONG_MAX; lia) I) as E. by rewrite app_nil_r in E.
Qed.

Lemma list_token_spec d rest it :
  num_ok it ->
  list_token (d ++ rest) (Z.of_nat (length d)) (Z.of_nat (length (d ++ rest))) (num_print it) = fill d rest (num_expand it).
Proof.
  intros Hok. unfold list_token. destruct it as [n|lo hi]; cbn [num_print num_expand num_ok] in *.
  - destruct (num_token n Hok) as [E Hd]. rewrite (find_char_digits "-" (print_dec n)) by done. rewrite E.
    rewrite bool_decide_eq_false_2 by (by intros []). rewrite length_app.
    assert (Z.of_nat (length d) >? Z.of_nat (length d + length rest) = false) as -> by (rewrite Z.gtb_ltb; apply Z.ltb_ge; lia).
    rewrite wrapu_small by lia. destruct rest as [|y rest]; [by rewrite app_nil_r, awrite_past|].
    rewrite awrite_app. cbn [mbind outcome_bind]. unfold fill. cbn. do 3 f_equal. lia.
  - destruct Hok as [Hlo Hhi]. destruct (num_token lo Hlo) as [E1 Hd1]. destruct (num_token hi Hhi) as [E2 Hd2].
    assert (find_char "-" (print_dec lo ++ "-"%char :: print_dec hi) = Some (length (print_dec lo))) as ->.
    { rewrite find_char_app_none by (by apply find_char_digits). cbn [find_char]. rewrite Ascii.eqb_refl. cbn. f_equal. lia. }
    rewrite take_app_length, E1.
    rewrite bool_decide_eq_false_2 by (by intros []). rewrite drop_past. rewrite E2. rewrite bool_decide_eq_false_2 by (by intros []).
    rewrite wraps_small by lia. apply range_loop_spec; [lia|lia|lia|]. rewrite length_app. lia.
Qed.

Lemma list_tokens_spec its : forall d rest,
  Forall num_ok its ->
  list_tokens (d ++ rest) (Z.of_nat (length d)) (Z.of_nat (length (d ++ rest))) (num_print <$> its) =
  fill d rest (concat (num_expand <$> its)).
Proof.
  induction its as [|it its IH]; intros d rest H; cbn [fmap list_fmap concat list_tokens].
  { unfold fill. cbn. by rewrite drop_0, Nat.add_0_r. }
  apply Forall_cons in H as [Hit H]. rewrite list_token_spec by done. unfold fill. rewrite !length_app.
  set (e := num_expand it). set (es := concat (num_expand <$> its)).
  destruct (length e <=? length rest)%nat eqn:E1; cbn [mbind outcome_bind].
  - apply Nat.leb_le in E1. specialize (IH (d ++ e) (drop (length e) rest) H). fold es in IH.
    rewrite <- app_assoc, !length_app, length_drop in IH.
    replace (length d + (length e + (length rest - length e)))%nat with (length d + length rest)%nat in IH by lia.
    rewrite IH. unfold fill. rewrite length_drop, drop_drop.
    destruct (length es <=? length rest - length e)%nat eqn:E2, (length e + length es <=? length rest)%nat eqn:E3;
      rewrite ?Nat.leb_le, ?Nat.leb_gt in *; try lia; [|done].
    rewrite <- !app_assoc. rewrite length_app. do 3 f_equal. lia.
  - apply Nat.leb_gt in E1. destruct (length e + length es <=? length rest)%nat eqn:E3; [apply Nat.leb_le in E3; lia|done].
Qed.

Lemma parse_config_list_spec rte_strsplit arr its :
  Forall num_ok its -> rte_strsplit (join "," (num_print <$> its)) 128 ","%char = num_print <$> its ->
  let e := concat (num_expand <$> its) in
  parse_config_list rte_strsplit arr (Z.of_nat (length arr)) (join "," (num_print <$> its)) =
  if (length e <=? length arr)%nat then
    match e with
    | [] => Done (arr, Z.of_nat (length arr), 1)
    | _ => Done (merge_sort Z.le e ++ drop (length e) arr, Z.of_nat (length e), 1)
    end
  else Fault.
Proof.
  intros Hok Hs e. unfold parse_config_list. rewrite Hs. pose proof (list_tokens_spec its [] arr Hok) as E. cbn [app length] in E.
  change (Z.of_nat 0) with 0 in E. rewrite E. unfold fill. cbn [app length Nat.add]. fold e.
  destruct (length e <=? length arr)%nat; [|done]. cbn [mbind outcome_bind]. destruct e as [|x e']; [done|]. set (e := x :: e') in *.
  assert (Z.of_nat (length e) <=? 0 = false) as -> by (apply Z.leb_gt; cbn; lia). unfold sort_uint16_array.
  by rewrite Nat2Z.id, take_app_length, drop_app_length.
Qed.

(** * The check *)

(** What a configuration must satisfy. *)
Definition port_fits (cfg : ff_config) (pc : ff_port_cfg) : Prop :=
  let d := dpdk cfg in
  let cores := take (Z.to_nat (p_nb_lcores pc)) (p_lcore_list pc) in
  is_Some (p_addr pc) /\ is_Some (p_netmask pc) /\ is_Some (p_broadcast pc) /\ is_Some (p_gateway pc) /\
  (forall c, c ∈ cores -> c ∈ take (Z.to_nat (nb_procs d)) (default [] (proc_lcore d))) /\
  (k_enable (kni cfg) <> 0 -> proc_type d = Some (lit "primary") ->
   0 <= proc_id d /\ exists own, default [] (proc_lcore d) !! Z.to_nat (proc_id d) = Some own /\ own ∈ cores).

Definition method_fits (k : kni_cfg) : Prop :=
  (k_enable k <> 0 -> is_Some (k_method k)) /\
  forall m, k_method k = Some m -> strcaseeq m (lit "accept") = true \/ strcaseeq m (lit "reject") = true.

Definition enabled_ports (d : dpdk_cfg) : list Z := take (Z.to_nat (nb_ports d)) (default [] (portid_list d)).

Definition consistent_config (cfg : ff_config) : Prop :=
  method_fits (kni cfg) /\
  forall portid, portid ∈ enabled_ports (dpdk cfg) ->
    exists pcs pc, port_cfgs (dpdk cfg) = Some pcs /\ 0 <= portid /\ pcs !! Z.to_nat portid = Some pc /\ port_fits cfg pc.

(** What the reader keeps true of the cores. *)
Definition cores_ok (d : dpdk_cfg) : Prop :=
  0 <= nb_procs d <= Z.of_nat (length (default [] (proc_lcore d))) /\ ordered (default [] (proc_lcore d)) (nb_procs d).

Lemma check_lcores_spec d cores :
  cores_ok d -> exists r, check_lcores cores d = Done r /\ (r = 0 \/ r = -1) /\
    (r = 0 <-> forall c, c ∈ cores -> c ∈ take (Z.to_nat (nb_procs d)) (default [] (proc_lcore d))).
Proof.
  intros [Hn Ho]. induction cores as [|c cores (r & E & Hr & IH)]; cbn [check_lcores].
  { exists 0. split; [done|]. split; [by left|]. split; [|done]. intros _ c Hc. by apply elem_of_nil in Hc. }
  destruct (search_member _ _ c Ho Hn) as (i & Ei & Hi). rewrite Ei. cbn [mbind outcome_bind]. destruct (i <? 0).
  - exists (-1). split; [done|]. split; [by right|]. split; [done|]. intros H. exfalso.
    assert (true = false); [|done]. apply Hi, H. left.
  - exists r. split; [done|]. split; [done|]. rewrite IH. split.
    + intros H x [->|Hx]%elem_of_cons; [by apply Hi|by apply H].
    + intros H x Hx. apply H. by right.
Qed.

Lemma existsb_elem x l : existsb (Z.eqb x) l = true <-> x ∈ l.
Proof.
  rewrite existsb_exists. split.
  - intros (y & Hy & E). apply Z.eqb_eq in E as <-. by apply list_elem_of_In.
  - intros H. exists x. split; [by apply list_elem_of_In|apply Z.eqb_refl].
Qed.

(** The configured cores fit their array. *)
Definition cores_fit (pc : ff_port_cfg) : Prop := p_nb_lcores pc <= Z.of_nat (length (p_lcore_list pc)).

Lemma check_port_spec cfg pc :
  cores_ok (dpdk cfg) -> cores_fit pc -> check_port cfg pc = Done 0 <-> port_fits cfg pc.
Proof.
  intros Hok Hfit. unfold check_port, port_fits. set (d := dpdk cfg) in *.
  set (cores := take (Z.to_nat (p_nb_lcores pc)) (p_lcore_list pc)).
  destruct (p_addr pc); [|by split; [|intros [[] _]]]. destruct (p_netmask pc); [|by split; [|intros (_ & [] & _)]].
  destruct (p_broadcast pc); [|by split; [|intros (_ & _ & [] & _)]].
  destruct (p_gateway pc); [|by split; [|intros (_ & _ & _ & [] & _)]].
  rewrite (proj2 (Z.leb_le _ _) Hfit). destruct (check_lcores_spec d cores Hok) as (r & E & Hr & Hc). rewrite E. cbn [mbind outcome_bind].
  destruct Hr as [->| ->]; cbn [Z.ltb Z.compare].
  2: { split; [done|]. intros (_ & _ & _ & _ & H & _). assert (-1 = 0); [|done]. by apply Hc. }
  unfold ctrue. destruct (k_enable (kni cfg) =? 0) eqn:Ek; cbn [negb andb].
  { split; [|done]. intros _. do 4 (split; [by eexists|]). split; [by apply Hc|]. lia. }
  destruct (bool_decide_reflect (proc_type d = Some (lit "primary"))) as [Ep|Ep].
  2: { split; [|done]. intros _. do 4 (split; [by eexists|]). split; [by apply Hc|]. by intros _ ?. }
  split.
  - destruct (proc_lcore d) as [pl|] eqn:El; [|done]. cbn [deref mbind outcome_bind]. destruct (aread pl (proc_id d)) as [own| |] eqn:Ea; [|done|done].
    apply aread_done in Ea as [Hp Ea]. cbn [mbind outcome_bind]. intros H. do 4 (split; [by eexists|]). split; [by apply Hc|].
    intros _ _. split; [done|]. exists own. split; [done|]. apply existsb_elem. by destruct (existsb _ _).
  - intros (_ & _ & _ & _ & _ & H). destruct (H ltac:(lia) Ep) as (Hp & own & Eo & Hin).
    destruct (proc_lcore d) as [pl|]; [|done]. cbn [deref mbind outcome_bind default] in *.
    rewrite (aread_lookup pl _ own Hp Eo). cbn [mbind outcome_bind]. by rewrite (proj2 (existsb_elem own cores) Hin).
Qed.

Lemma check_port_values cfg pc x : check_port cfg pc = Done x -> x = 0 \/ x = -1.
Proof.
  unfold check_port. destruct (p_addr pc), (p_netmask pc), (p_broadcast pc), (p_gateway pc); try (intros [= <-]; by right).
  destruct (_ <=? _); [|done]. destruct (check_lcores _ _) as [r| |]; [|done|done]. cbn [mbind outcome_bind].
  destruct (r <? 0); [intros [= <-]; by right|]. destruct (_ && _); [|intros [= <-]; by left].
  destruct (deref _); [|done|done]. cbn [mbind outcome_bind]. destruct (aread _ _); [|done|done]. cbn [mbind outcome_bind].
  intros [= <-]. destruct (existsb _ _); auto.
Qed.

Lemma check_ports_spec cfg ports :
  cores_ok (dpdk cfg) -> (forall pcs, port_cfgs (dpdk cfg) = Some pcs -> Forall cores_fit pcs) ->
  check_ports cfg ports = Done 0 <->
  forall portid, portid ∈ ports ->
    exists pcs pc, port_cfgs (dpdk cfg) = Some pcs /\ 0 <= portid /\ pcs !! Z.to_nat portid = Some pc /\ port_fits cfg pc.
Proof.
  intros Hok Hfit. induction ports as [|q ports IH]; cbn [check_ports].
  { split; [|done]. intros _ x Hx. by apply elem_of_nil in Hx. }
  split.
  - destruct (port_cfgs (dpdk cfg)) as [pcs|] eqn:Ep; [|done]. cbn [deref mbind outcome_bind].
    destruct (aread pcs q) as [pc| |] eqn:Ea; [|done|done]. apply aread_done in Ea as [Hq Ea]. cbn [mbind outcome_bind].
    destruct (check_port cfg pc) as [x| |] eqn:Ec; [|done|done]. cbn [mbind outcome_bind].
    destruct (check_port_values _ _ _ Ec) as [->| ->]; [|done]. cbn. intros H portid [->|Hin]%elem_of_cons; [|by apply IH].
    exists pcs, pc. do 3 (split; [done|]). apply check_port_spec; [done| |done].
    specialize (Hfit pcs eq_refl). rewrite Forall_forall in Hfit. apply Hfit. by eapply list_elem_of_lookup_2.
  - intros H. destruct (H q) as (pcs & pc & Ep & Hq & Ea & Hf); [left|]. rewrite Ep. cbn [deref mbind outcome_bind].
    rewrite (aread_lookup pcs q pc Hq Ea). cbn [mbind outcome_bind]. apply (check_port_spec cfg pc Hok) in Hf.
    + rewrite Hf. cbn. apply IH. intros portid Hin. apply H. by right.
    + specialize (Hfit pcs Ep). rewrite Forall_forall in Hfit. apply Hfit. by eapply list_elem_of_lookup_2.
Qed.

Lemma ff_check_config_spec cfg :
  cores_ok (dpdk cfg) -> (forall pcs, port_cfgs (dpdk cfg) = Some pcs -> Forall cores_fit pcs) ->
  ff_check_config cfg = Done 0 <-> consistent_config cfg.
Proof.
  intros Hok Hfit. unfold ff_check_config, consistent_config, method_fits, ctrue.
  rewrite <- (check_ports_spec cfg (enabled_ports (dpdk cfg)) Hok Hfit). unfold enabled_ports.
  destruct (k_method (kni cfg)) as [m|] eqn:Em.
  - rewrite bool_decide_eq_true_2 by (by eexists). rewrite andb_false_r.
    destruct (strcaseeq m (lit "accept")) eqn:E1, (strcaseeq m (lit "reject")) eqn:E2; cbn [negb andb];
      [split; [intros H; split; [split; [by eexists|intros m' [= <-]; auto]|done]|by intros []]..|].
    split; [done|]. intros [[_ H] _]. destruct (H m eq_refl); congruence.
  - rewrite (bool_decide_eq_false_2 (is_Some None)) by (by intros []). rewrite andb_true_r.
    destruct (k_enable (kni cfg) =? 0) eqn:Ek; cbn [negb].
    + split; [intros H; split; [split; [lia|done]|done]|by intros []].
    + split; [done|]. intros [[H _] _]. destruct (H ltac:(lia)). done.
Qed.
