(* ===== verification/ConfigLoad.v ===== *)
(** ff_load_config as a whole: it returns on every input, and a configuration
    file with a core mask, a port list and the sections of the ports is read into
    exactly that configuration. *)
From stdpp Require Import base list strings sorting.
From Stdlib Require Import ZArith Lia Ascii.
From S2P Require Import Prelude CStr IniParser Config ConfigSpec.

Local Open Scope Z_scope.

(** * Termination *)

(** The result is not [Loop]. *)
Definition ends {A} (x : outcome A) : Prop := x <> Loop.

Lemma ends_bind {A B} (x : outcome A) (f : A -> outcome B) : ends x -> (forall a, ends (f a)) -> ends (x ≫= f).
Proof. intros Hx Hf. destruct x; [apply Hf|done|done]. Qed.

Lemma ends_aread {A} (l : list A) i : ends (aread l i).
Proof. unfold aread. destruct (_ <=? _); [|done]. by destruct (_ !! _). Qed.

Lemma ends_awrite {A} (l : list A) i x : ends (awrite l i x).
Proof. unfold awrite. by destruct (_ && _). Qed.

Lemma ends_deref {A} (p : option A) : ends (deref p).
Proof. by destruct p. Qed.

Create HintDb ends discriminated.
#[local] Hint Resolve ends_aread ends_awrite ends_deref : ends.

(** Follows the structure of the code. *)
Ltac ends_step :=
  first
  [ done
  | solve [auto with ends]
  | apply ends_bind; [|intros ?]
  | match goal with
    | |- ends (let '_ := ?x in _) => destruct x
    | |- ends (if ?b then _ else _) => destruct b
    | |- ends (match ?x with _ => _ end) => destruct x
    end ].
Ltac ends_auto := repeat ends_step.

Lemma awrite_length {A} (l : list A) i x l' : awrite l i x = Done l' -> length l' = length l /\ 0 <= i < Z.of_nat (length l).
Proof.
  unfold awrite. destruct (0 <=? i) eqn:E1, (i <? Z.of_nat (length l)) eqn:E2; cbn; try done. intros [= <-].
  rewrite length_insert. split; [done|]. apply Z.leb_le in E1. apply Z.ltb_lt in E2. lia.
Qed.

Lemma range_loop_ends fuel : forall arr nr max_ele j rv,
  0 <= nr -> (length arr - Z.to_nat nr < fuel)%nat -> ends (range_loop fuel arr nr max_ele j rv).
Proof.
  induction fuel as [|fuel IH]; intros arr nr max_ele j rv Hn Hf; [lia|]. cbn [range_loop].
  destruct (j <=? rv); [|done]. destruct (nr >? max_ele); [done|].
  destruct (awrite arr nr (u16 j)) as [arr1| |] eqn:E; [|done|by apply ends_awrite in E]. cbn [mbind outcome_bind].
  apply awrite_length in E as [El Hr]. apply IH; [lia|]. rewrite El. lia.
Qed.

Lemma list_token_ends arr nr max_ele tok : 0 <= nr -> ends (list_token arr nr max_ele tok).
Proof.
  intros Hn. unfold list_token. destruct (find_char "-" tok); [|ends_auto].
  destruct (strtol10 _). destruct (bool_decide _); [done|]. destruct (strtol10 _). destruct (bool_decide _); [done|].
  apply range_loop_ends; lia.
Qed.

Lemma range_loop_count fuel : forall arr nr max_ele j rv arr' nr',
  0 <= nr -> range_loop fuel arr nr max_ele j rv = Done (arr', Some nr') -> 0 <= nr'.
Proof.
  induction fuel as [|fuel IH]; intros arr nr max_ele j rv arr' nr' Hn; [done|]. cbn [range_loop].
  destruct (j <=? rv); [|intros [= <- <-]; done]. destruct (nr >? max_ele); [done|].
  destruct (awrite _ _ _); [|done|done]. cbn [mbind outcome_bind]. apply IH. lia.
Qed.

Lemma list_token_count arr nr max_ele tok arr' nr' :
  0 <= nr -> list_token arr nr max_ele tok = Done (arr', Some nr') -> 0 <= nr'.
Proof.
  intros Hn. unfold list_token. destruct (find_char "-" tok).
  - destruct (strtol10 _). destruct (bool_decide _); [done|]. destruct (strtol10 _). destruct (bool_decide _); [done|].
    by apply range_loop_count.
  - destruct (strtol10 _). destruct (bool_decide _); [done|]. destruct (nr >? max_ele); [done|].
    destruct (awrite _ _ _); [|done|done]. intros [= <- <-]. lia.
Qed.

Lemma list_tokens_ends toks : forall arr nr max_ele, 0 <= nr -> ends (list_tokens arr nr max_ele toks).
Proof.
  induction toks as [|tok toks IH]; intros arr nr max_ele Hn; [done|]. cbn [list_tokens].
  destruct (list_token arr nr max_ele tok) as [[arr1 [nr1|]]| |] eqn:E; [|done|done|].
  - apply IH. by eapply list_token_count.
  - by apply list_token_ends in E.
Qed.

Lemma search_ends fuel : forall arr l r x, (Z.to_nat (r - l + 1) < fuel)%nat -> ends (uint16_binary_search fuel arr l r x).
Proof.
  induction fuel as [|fuel IH]; intros arr l r x Hf; [lia|]. cbn [uint16_binary_search].
  destruct (r >=? l) eqn:E; [|done]. apply ends_bind; [auto with ends|]. intros v.
  assert (l <= l + (r - l) / 2 <= r).
  { pose proof (Z.div_pos (r - l) 2). pose proof (Z.div_le_upper_bound (r - l) 2 (r - l)). lia. }
  destruct (v =? x); [done|]. destruct (v >? x); apply IH; lia.
Qed.

Section Ends.
Context (RTE_MAX_LCORE RTE_MAX_ETHPORTS : Z) (rte_strsplit : cstr -> Z -> ascii -> list cstr).
Context (junk : Z -> Z) (malloc_ok : Z -> bool).

Lemma mask_bits_ends j : forall proc_id val arr count idx pm, ends (mask_bits RTE_MAX_LCORE j proc_id val arr count idx pm).
Proof. induction j as [|j IH]; intros; [done|]. cbn [mask_bits]. ends_auto. Qed.

Lemma mask_loop_ends cs : forall proc_id arr count idx pm, ends (mask_loop RTE_MAX_LCORE cs proc_id arr count idx pm).
Proof.
  induction cs as [|c cs IH]; intros; [done|]. cbn [mask_loop]. destruct (_ <? _); [|done]. destruct (isxdigit c); [|done].
  apply ends_bind; [apply mask_bits_ends|]. intros [[[arr1 count1] idx1] pm1]. apply IH.
Qed.

Lemma parse_lcore_mask_ends cfg s : ends (parse_lcore_mask RTE_MAX_LCORE malloc_ok cfg s).
Proof.
  unfold parse_lcore_mask. destruct (alloc malloc_ok cfg) as [ok cfg1]. destruct (negb ok); [done|].
  destruct (mask_digits s); [done|]. apply ends_bind; [apply mask_loop_ends|]. intros [[[? ?] ?] rest]. ends_auto.
Qed.

Lemma parse_config_list_ends arr sz v : ends (parse_config_list rte_strsplit arr sz v).
Proof. unfold parse_config_list. apply ends_bind; [by apply list_tokens_ends|]. intros [arr1 o]. ends_auto. Qed.
#[local] Hint Resolve parse_lcore_mask_ends parse_config_list_ends : ends.

Lemma init_ports_ends ports : forall pc n pl, ends (init_ports pc ports n pl).
Proof. induction ports as [|q ports IH]; intros; [done|]. cbn [init_ports]. ends_auto. Qed.
#[local] Hint Resolve init_ports_ends : ends.

Lemma parse_port_list_ends cfg v : ends (parse_port_list RTE_MAX_ETHPORTS rte_strsplit junk malloc_ok cfg v).
Proof. unfold parse_port_list. ends_auto. Qed.

Lemma port_cfg_handler_ends cfg s n v : ends (port_cfg_handler RTE_MAX_ETHPORTS rte_strsplit malloc_ok cfg s n v).
Proof. unfold port_cfg_handler, get_ports, port_set, parse_port_lcore_list. ends_auto. Qed.

Lemma vdev_cfg_handler_ends cfg s n v : ends (vdev_cfg_handler RTE_MAX_ETHPORTS malloc_ok cfg s n v).
Proof. unfold vdev_cfg_handler. ends_auto. Qed.
#[local] Hint Resolve parse_port_list_ends port_cfg_handler_ends vdev_cfg_handler_ends : ends.

#[local] Abbreviation handler := (ini_parse_handler RTE_MAX_LCORE RTE_MAX_ETHPORTS rte_strsplit junk malloc_ok).
#[local] Abbreviation user := (config_user RTE_MAX_LCORE RTE_MAX_ETHPORTS rte_strsplit junk malloc_ok).

Lemma ini_parse_handler_ends cfg s n v : ends (handler cfg s n v).
Proof. unfold ini_parse_handler. destruct (plain_setting s n v); [done|]. ends_auto. Qed.

Lemma config_user_ends u s n v : ends u -> ends (user u s n v).1.
Proof.
  intros Hu. unfold config_user. destruct u as [cfg| |]; [|done|done].
  pose proof (ini_parse_handler_ends cfg s n v). by destruct (handler cfg s n v) as [[? ?]| |].
Qed.

Lemma call_handler_ends st p s n v : ends (ini_user st) -> ends (ini_user (call_handler user st p s n v)).
Proof.
  intros H. unfold call_handler. pose proof (config_user_ends (ini_user st) s n v H). by destruct (user (ini_user st) s n v).
Qed.

Lemma ini_line_ends line st : ends (ini_user st) -> ends (ini_user (ini_line user line st)).
Proof.
  intros H. unfold ini_line. cbn zeta.
  repeat match goal with
  | |- context [if ?b then _ else _] => destruct b
  | |- context [let '_ := find_chars_or_comment ?a ?b in _] => destruct (find_chars_or_comment a b)
  end; try done; by apply call_handler_ends.
Qed.

Lemma check_lcores_ends d cores : ends (check_lcores cores d).
Proof.
  induction cores as [|c cores IH]; [done|]. cbn [check_lcores]. apply ends_bind; [apply search_ends; lia|]. intros i. ends_auto.
Qed.
#[local] Hint Resolve check_lcores_ends : ends.

Lemma check_port_ends cfg pc : ends (check_port cfg pc).
Proof. unfold check_port. ends_auto. Qed.
#[local] Hint Resolve check_port_ends : ends.

Lemma check_ports_ends cfg ports : ends (check_ports cfg ports).
Proof. induction ports as [|q ports IH]; [done|]. cbn [check_ports]. ends_auto. Qed.

Lemma ff_check_config_ends cfg : ends (ff_check_config cfg).
Proof. unfold ff_check_config. pose proof (fun l => check_ports_ends cfg l). ends_auto. Qed.

Lemma push_arg_ends a x : ends (push_arg a x).
Proof. unfold push_arg. by destruct (_ && _). Qed.
#[local] Hint Resolve push_arg_ends ff_check_config_ends : ends.

Lemma vdev_args_ends n : forall i vc a, ends (vdev_args n i vc a).
Proof. induction n as [|n IH]; intros; [done|]. cbn [vdev_args]. ends_auto. Qed.
#[local] Hint Resolve vdev_args_ends : ends.

Lemma dpdk_args_setup_ends cfg : ends (dpdk_args_setup cfg).
Proof. unfold dpdk_args_setup, push_if. cbn zeta. ends_auto. Qed.
#[local] Hint Resolve dpdk_args_setup_ends : ends.

Lemma ini_parse_config_ends files f cfg ret u :
  ini_parse files f user (Done cfg) = Some (ret, u) -> ends u.
Proof.
  unfold ini_parse. destruct (files f) as [file|]; [|by intros [= _ <-]].
  unfold ini_parse_file, ini_parse_stream. destruct (ini_loop _ _ _ _ _) as [st|] eqn:E; [|done]. intros [= _ <-].
  apply (ini_loop_invariant user (fun st => ends (ini_user st)) _ _ _ _ ini_line_ends) in E; [done|done].
Qed.

Lemma load_ends files opts :
  ends (ff_load_config RTE_MAX_LCORE RTE_MAX_ETHPORTS rte_strsplit junk malloc_ok files opts).
Proof.
  unfold ff_load_config. destruct (ff_parse_args _ _ _) as [cfg ret]. destruct (ret <? 0); [done|].
  destruct (ini_parse files (filename cfg) user (Done cfg)) as [[r u]|] eqn:E.
  - apply ini_parse_config_ends in E. apply ends_bind; [done|]. intros cfg1. ends_auto.
  - exfalso. unfold ini_parse in E. destruct (files _) as [file|]; [|done].
    unfold ini_parse_file, ini_parse_stream in E.
    destruct (ini_loop_total user (S (length file)) file (IniState [] [] 0 0 (Done cfg))) as [st Es]; [lia|]. by rewrite Es in E.
Qed.
End Ends.

(** * Reading a configuration *)

(** The settings of one port. *)
Record port_conf := PortConf { pt_id : Z; pt_addr : cstr; pt_netmask : cstr; pt_broadcast : cstr; pt_gateway : cstr }.

Definition port_name (p : port_conf) : cstr := lit "port" ++ print_dec (pt_id p).

Definition port_section (p : port_conf) : cstr * list (cstr * cstr) :=
  (port_name p, [(lit "addr", pt_addr p); (lit "netmask", pt_netmask p);
                 (lit "broadcast", pt_broadcast p); (lit "gateway", pt_gateway p)]).

Definition config_doc (mask : cstr) (its : list num_list) (ports : list port_conf) : ini_doc :=
  (lit "dpdk", [(lit "lcore_mask", mask); (lit "port_list", join "," (num_print <$> its))]) :: (port_section <$> ports).

(** What the section of a port does to its configuration. *)
Definition named (p : port_conf) (pc : ff_port_cfg) : ff_port_cfg :=
  match p_name pc with None => set_p_name (Some (port_name p)) (set_p_port_id (u8 (pt_id p)) pc) | Some _ => pc end.
Definition filled (p : port_conf) (pc : ff_port_cfg) : ff_port_cfg :=
  set_p_gateway (Some (pt_gateway p)) (set_p_broadcast (Some (pt_broadcast p))
    (set_p_netmask (Some (pt_netmask p)) (set_p_addr (Some (pt_addr p)) (named p pc)))).
Definition fill_ports (pcs : list ff_port_cfg) (ports : list port_conf) : list ff_port_cfg :=
  foldl (fun pcs p => alter (filled p) (Z.to_nat (pt_id p)) pcs) pcs ports.

Lemma fill_ports_other ports : forall pcs i,
  (forall p, p ∈ ports -> Z.to_nat (pt_id p) <> i) -> fill_ports pcs ports !! i = pcs !! i.
Proof.
  induction ports as [|p ports IH]; intros pcs i H; [done|]. cbn [fill_ports foldl]. rewrite IH.
  - apply list_lookup_alter_ne. apply H. left.
  - intros q Hq. apply H. by right.
Qed.

Lemma fill_ports_length ports : forall pcs, length (fill_ports pcs ports) = length pcs.
Proof. induction ports as [|p ports IH]; intros pcs; [done|]. cbn [fill_ports foldl]. by rewrite IH, length_alter. Qed.

Lemma fill_ports_lookup ports : forall pcs p,
  NoDup (pt_id <$> ports) -> (forall q, q ∈ ports -> 0 <= pt_id q) -> p ∈ ports ->
  fill_ports pcs ports !! Z.to_nat (pt_id p) = filled p <$> pcs !! Z.to_nat (pt_id p).
Proof.
  induction ports as [|q ports IH]; intros pcs p Hnd Hpos Hp; [by apply elem_of_nil in Hp|].
  apply NoDup_cons in Hnd as [Hq Hnd]. cbn [fill_ports foldl].
  assert (forall r, r ∈ ports -> Z.to_nat (pt_id r) <> Z.to_nat (pt_id q)) as Hne.
  { intros r Hr E. pose proof (Hpos r ltac:(by right)). pose proof (Hpos q ltac:(left)).
    apply Hq. replace (pt_id q) with (pt_id r) by lia. by apply list_elem_of_fmap_2. }
  apply elem_of_cons in Hp as [->|Hp].
  - rewrite fill_ports_other by done. by apply list_lookup_alter_eq.
  - rewrite IH; [|done|intros r Hr; apply Hpos; by right|done]. by rewrite list_lookup_alter_ne by (by apply not_eq_sym, Hne).
Qed.

(** The initialised ports use all cores. *)
Definition port_fresh (pc : ff_port_cfg) : Prop := Z.of_nat (length (p_lcore_list pc)) = DPDK_MAX_LCORE /\ 0 <= p_nb_lcores pc <= DPDK_MAX_LCORE.
Definition port_cores (cores : list Z) (pc : ff_port_cfg) : Prop := take (Z.to_nat (p_nb_lcores pc)) (p_lcore_list pc) = cores.

Lemma init_ports_spec arr nb ports : forall pcs,
  0 <= nb <= Z.of_nat (length arr) -> nb <= DPDK_MAX_LCORE -> Forall port_fresh pcs ->
  (forall q, q ∈ ports -> 0 <= q < Z.of_nat (length pcs)) ->
  exists pcs', init_ports pcs ports nb (Some arr) = Done pcs' /\ length pcs' = length pcs /\ Forall port_fresh pcs' /\
    (forall q, q ∈ ports \/ (exists pc, pcs !! Z.to_nat q = Some pc /\ port_cores (take (Z.to_nat nb) arr) pc) ->
       exists pc, pcs' !! Z.to_nat q = Some pc /\ port_cores (take (Z.to_nat nb) arr) pc).
Proof.
  induction ports as [|q ports IH]; intros pcs Hnb Hmax Hf Hq; cbn [init_ports].
  { exists pcs. do 3 (split; [done|]). intros q [H|H]; [by apply elem_of_nil in H|done]. }
  pose proof (Hq q ltac:(left)) as Hq0. destruct (lookup_lt_is_Some_2 pcs (Z.to_nat q)) as [pc Epc]; [lia|].
  rewrite (aread_lookup pcs q pc) by (lia || done). cbn [mbind outcome_bind].
  rewrite (proj2 (Z.leb_le 0 nb)), (proj2 (Z.leb_le nb (Z.of_nat (length arr)))), (proj2 (Z.leb_le nb DPDK_MAX_LCORE)) by lia.
  cbn [andb mbind outcome_bind]. set (l := take (Z.to_nat nb) arr ++ _). unfold awrite at 1.
  rewrite (proj2 (Z.leb_le 0 q)), (proj2 (Z.ltb_lt q (Z.of_nat (length pcs)))) by lia. cbn [andb mbind outcome_bind].
  set (pc1 := set_p_lcore_list l _).
  assert (port_fresh pc /\ Z.of_nat (length l) = DPDK_MAX_LCORE) as [Hpc Hl].
  { rewrite Forall_lookup in Hf. pose proof (Hf _ _ Epc) as [Hpl Hpn]. split; [done|]. unfold l.
    rewrite length_app, length_take, length_drop. lia. }
  assert (port_fresh pc1) as Hpc1 by (split; [done|cbn; lia]).
  assert (port_cores (take (Z.to_nat nb) arr) pc1) as Hco.
  { unfold port_cores, pc1. cbn. unfold l. rewrite take_app_le by (rewrite length_take; lia). apply take_ge. rewrite length_take. lia. }
  destruct (IH (<[Z.to_nat q := pc1]> pcs)) as (pcs' & E & EL & Hf' & Hc'); [done|done| | |].
  - by apply Forall_insert.
  - intros r Hr. rewrite length_insert. apply Hq. by right.
  - exists pcs'. rewrite length_insert in EL. do 3 (split; [done|]). intros r Hr. apply Hc'.
    destruct (decide (Z.to_nat r = Z.to_nat q)) as [Er|Er].
    + right. exists pc1. rewrite Er, list_lookup_insert_eq by lia. done.
    + rewrite list_lookup_insert_ne by done. destruct Hr as [[->|Hr]%elem_of_cons|Hr]; [done|by left|by right].
Qed.

Lemma streq_refl s : streq s s = true.
Proof. by apply bool_decide_eq_true_2. Qed.

Lemma streq_head a b x y : a <> b -> streq (a :: x) (b :: y) = false.
Proof. intros H. apply bool_decide_eq_false_2. by intros [= ?]. Qed.

(** The sections of ports are not among the plain settings. *)
Lemma plain_setting_port x n v : plain_setting (lit "port" ++ x) n v = None.
Proof.
  unfold plain_setting. change (lit "port" ++ x) with ("p"%char :: "o"%char :: "r"%char :: "t"%char :: x).
  change (lit "dpdk") with ("d"%char :: lit "pdk"). change (lit "kni") with ("k"%char :: lit "ni").
  change (lit "freebsd.boot") with ("f"%char :: lit "reebsd.boot"). by rewrite !streq_head.
Qed.

Lemma scan_port n : 0 <= n < 2 ^ 16 -> scan_int (print_dec n) = Some n.
Proof.
  intros Hn. unfold scan_int. pose proof (strtol10_print_dec n [] ltac:(unfold LONG_MAX; lia) I) as E.
  rewrite app_nil_r in E. rewrite E. destruct (print_dec_spec n) as (_ & Hne & _); [lia|].
  rewrite bool_decide_eq_false_2 by congruence. by rewrite wraps_small by lia.
Qed.

Section Load.
Context (RTE_MAX_LCORE RTE_MAX_ETHPORTS : Z) (rte_strsplit : cstr -> Z -> ascii -> list cstr).
Context (junk : Z -> Z) (malloc_ok : Z -> bool) (malloc_all : forall i, malloc_ok i = true).
Context (lcore_int : 0 < RTE_MAX_LCORE <= DPDK_MAX_LCORE) (ports_int : 0 < RTE_MAX_ETHPORTS <= 2 ^ 16).
#[local] Abbreviation handler := (ini_parse_handler RTE_MAX_LCORE RTE_MAX_ETHPORTS rte_strsplit junk malloc_ok).
#[local] Abbreviation user := (config_user RTE_MAX_LCORE RTE_MAX_ETHPORTS rte_strsplit junk malloc_ok).
#[local] Abbreviation phandler := (port_cfg_handler RTE_MAX_ETHPORTS rte_strsplit malloc_ok).

Lemma handler_port p cfg n v : handler cfg (port_name p) n v = phandler cfg (port_name p) n v.
Proof.
  unfold ini_parse_handler, port_name. rewrite plain_setting_port.
  change (lit "port" ++ print_dec (pt_id p)) with ("p"%char :: "o"%char :: "r"%char :: "t"%char :: print_dec (pt_id p)).
  change (lit "dpdk") with ("d"%char :: lit "pdk"). change (lit "freebsd.boot") with ("f"%char :: lit "reebsd.boot").
  change (lit "freebsd.sysctl") with ("f"%char :: lit "reebsd.sysctl"). rewrite !streq_head by done. cbn [andb firstn].
  change ["p"%char; "o"%char; "r"%char; "t"%char] with (lit "port"). by rewrite streq_refl.
Qed.

(** A name of a port section, once the ports are allocated. *)
Lemma phandler_set cfg pcs p pc pc1 n v :
  nb_ports (dpdk cfg) <> 0 -> port_cfgs (dpdk cfg) = Some pcs -> 0 <= pt_id p <= max_portid (dpdk cfg) -> pt_id p < 2 ^ 16 ->
  pcs !! Z.to_nat (pt_id p) = Some pc -> port_set rte_strsplit (named p pc) n v = Done (pc1, 1) ->
  phandler cfg (port_name p) n v = Done (on_dpdk (set_port_cfgs (Some (<[Z.to_nat (pt_id p) := pc1]> pcs))) cfg, 1).
Proof.
  intros Hn Hp Hid H16 Epc Es. unfold port_cfg_handler. rewrite (proj2 (Z.eqb_neq _ _) Hn). unfold get_ports. rewrite Hp.
  cbn [mbind outcome_bind]. change (drop 4 (port_name p)) with (print_dec (pt_id p)). rewrite scan_port by lia.
  assert (pt_id p >? max_portid (dpdk cfg) = false) as -> by (rewrite Z.gtb_ltb; apply Z.ltb_ge; lia).
  rewrite (aread_lookup pcs _ pc) by (lia || done). cbn [mbind outcome_bind]. fold (named p pc). rewrite Es.
  cbn [mbind outcome_bind]. apply lookup_lt_Some in Epc. unfold awrite.
  by rewrite (proj2 (Z.leb_le 0 _)), (proj2 (Z.ltb_lt _ _)) by lia.
Qed.

Lemma named_set p pc f : (forall x, p_name (f x) = p_name x) -> named p (f (named p pc)) = f (named p pc).
Proof. intros Hf. unfold named at 1. rewrite Hf. unfold named. by destruct (p_name pc) eqn:E; [rewrite E|]. Qed.

Lemma user_port cfg p n v cfg1 : phandler cfg (port_name p) n v = Done (cfg1, 1) -> user (Done cfg) (port_name p) n v = (Done cfg1, 1).
Proof. intros E. unfold config_user. by rewrite handler_port, E. Qed.

Lemma section_run cfg pcs p pc line :
  nb_ports (dpdk cfg) <> 0 -> port_cfgs (dpdk cfg) = Some pcs -> 0 <= pt_id p <= max_portid (dpdk cfg) -> pt_id p < 2 ^ 16 ->
  pcs !! Z.to_nat (pt_id p) = Some pc ->
  run_pairs user (port_name p) (port_section p).2 line (Done cfg) =
  (line + 4, 0, Done (on_dpdk (set_port_cfgs (Some (fill_ports pcs [p]))) cfg)).
Proof.
  intros Hn Hp Hid H16 Epc. set (i := Z.to_nat (pt_id p)) in *. pose proof (lookup_lt_Some _ _ _ Epc) as Hlt.
  set (a := set_p_addr (Some (pt_addr p)) (named p pc)). set (b := set_p_netmask (Some (pt_netmask p)) a).
  set (c := set_p_broadcast (Some (pt_broadcast p)) b). set (d := set_p_gateway (Some (pt_gateway p)) c).
  set (st x := on_dpdk (set_port_cfgs (Some (<[i := x]> pcs))) cfg).
  assert (Hstep : forall x y n v, named p x = x -> port_set rte_strsplit x n v = Done (y, 1) ->
    user (Done (st x)) (port_name p) n v = (Done (st y), 1)).
  { intros x y n v Hx Hs. apply user_port.
    rewrite (phandler_set (st x) (<[i := x]> pcs) p x y n v Hn eq_refl Hid H16); [|by rewrite list_lookup_insert_eq|by rewrite Hx].
    unfold st. fold i. by rewrite list_insert_insert_eq. }
  cbn [port_section snd run_pairs].
  rewrite (user_port cfg p (lit "addr") (pt_addr p) (st a)).
  2: { by apply (phandler_set cfg pcs p pc a). }
  assert (Ha : named p a = a) by (by apply (named_set p pc (set_p_addr (Some (pt_addr p))))).
  assert (Hb : named p b = b) by (by apply (named_set p pc (fun x => set_p_netmask (Some (pt_netmask p)) (set_p_addr (Some (pt_addr p)) x)))).
  assert (Hc : named p c = c) by (by apply (named_set p pc
    (fun x => set_p_broadcast (Some (pt_broadcast p)) (set_p_netmask (Some (pt_netmask p)) (set_p_addr (Some (pt_addr p)) x))))).
  rewrite (Hstep a b), (Hstep b c), (Hstep c d) by done. cbn [ctrue Z.eqb negb]. f_equal; [f_equal; lia|].
  unfold st, fill_ports. cbn [foldl]. fold i. do 4 f_equal. unfold d, c, b, a. fold (filled p pc).
  apply list_eq. intros k. destruct (decide (k = i)) as [->|Hk].
  - by rewrite list_lookup_insert_eq, list_lookup_alter_eq, Epc.
  - by rewrite list_lookup_insert_ne, list_lookup_alter_ne.
Qed.

Lemma sections_run ports : forall cfg pcs line,
  nb_ports (dpdk cfg) <> 0 -> port_cfgs (dpdk cfg) = Some pcs ->
  (forall p, p ∈ ports -> 0 <= pt_id p <= max_portid (dpdk cfg) /\ pt_id p < 2 ^ 16 /\ pt_id p < Z.of_nat (length pcs)) ->
  run_doc user (port_section <$> ports) line (Done cfg) =
  (0, Done (on_dpdk (set_port_cfgs (Some (fill_ports pcs ports))) cfg)).
Proof.
  induction ports as [|p ports IH]; intros cfg pcs line Hn Hp Hids.
  { cbn. unfold fill_ports. cbn. rewrite <- Hp. by destruct cfg as [? [] ? ? ?]. }
  destruct (Hids p ltac:(left)) as (H1 & H2 & H3). destruct (lookup_lt_is_Some_2 pcs (Z.to_nat (pt_id p))) as [pc Epc]; [lia|].
  cbn [fmap list_fmap run_doc]. rewrite (surjective_pairing (port_section p)). change (port_section p).1 with (port_name p).
  rewrite (section_run cfg pcs p pc) by done. cbn [ctrue Z.eqb negb].
  pose proof (IH (on_dpdk (set_port_cfgs (Some (fill_ports pcs [p]))) cfg) (fill_ports pcs [p]) (line + 1 + 4)) as E.
  cbn [fmap list_fmap] in E. rewrite E; [done|done|done|].
  intros q Hq. rewrite fill_ports_length. apply (Hids q). by right.
Qed.

(** The first port section allocates and initialises all ports. *)
Lemma first_section cfg ids arr pc0 ports line :
  port_cfgs (dpdk cfg) = None -> portid_list (dpdk cfg) = Some ids -> proc_lcore (dpdk cfg) = Some arr -> ports <> [] ->
  init_ports (replicate (Z.to_nat RTE_MAX_ETHPORTS) port0) ids (nb_procs (dpdk cfg)) (Some arr) = Done pc0 ->
  nb_ports (dpdk cfg) <> 0 ->
  run_doc user (port_section <$> ports) line (Done cfg) =
  run_doc user (port_section <$> ports) line (Done (on_dpdk (set_port_cfgs (Some pc0)) (set_allocs (allocs cfg + 1) cfg))).
Proof.
  intros Hp Hi Ha Hne E Hn. destruct ports as [|p ports]; [done|]. cbn [fmap list_fmap run_doc].
  rewrite (surjective_pairing (port_section p)). change (port_section p).1 with (port_name p). cbn [port_section snd run_pairs].
  assert (phandler cfg (port_name p) (lit "addr") (pt_addr p) =
          phandler (on_dpdk (set_port_cfgs (Some pc0)) (set_allocs (allocs cfg + 1) cfg)) (port_name p) (lit "addr") (pt_addr p)) as Eh.
  { set (cfg1 := on_dpdk (set_port_cfgs (Some pc0)) (set_allocs (allocs cfg + 1) cfg)).
    assert (get_ports RTE_MAX_ETHPORTS malloc_ok cfg = Done (cfg1, Some pc0)) as E0.
    { unfold get_ports, alloc. rewrite Hp, malloc_all. cbn [negb]. change (dpdk (set_allocs (allocs cfg + 1) cfg)) with (dpdk cfg).
      rewrite Hi, Ha. cbn [deref mbind outcome_bind]. by rewrite E. }
    assert (get_ports RTE_MAX_ETHPORTS malloc_ok cfg1 = Done (cfg1, Some pc0)) as E1 by done.
    unfold port_cfg_handler. change (nb_ports (dpdk cfg1)) with (nb_ports (dpdk cfg)).
    by rewrite (proj2 (Z.eqb_neq _ _) Hn), E0, E1. }
  unfold config_user at 1 3. by rewrite !handler_port, Eh.
Qed.

(** ** The settings of [dpdk] *)

Lemma handler_mask cfg v : handler cfg (lit "dpdk") (lit "lcore_mask") v =
  parse_lcore_mask RTE_MAX_LCORE malloc_ok (on_dpdk (set_lcore_mask (Some v)) cfg) v.
Proof. done. Qed.

Lemma handler_ports cfg v : handler cfg (lit "dpdk") (lit "port_list") v =
  parse_port_list RTE_MAX_ETHPORTS rte_strsplit junk malloc_ok cfg v.
Proof. done. Qed.

Lemma parse_port_list_ok cfg its e x :
  Forall num_ok its -> rte_strsplit (join "," (num_print <$> its)) 128 ","%char = num_print <$> its ->
  concat (num_expand <$> its) = e -> e <> [] -> Z.of_nat (length e) <= RTE_MAX_ETHPORTS -> last (merge_sort Z.le e) = Some x ->
  parse_port_list RTE_MAX_ETHPORTS rte_strsplit junk malloc_ok cfg (join "," (num_print <$> its)) =
  Done (on_dpdk (fun d => set_max_portid x (set_nb_ports (Z.of_nat (length e)) (set_portid_list (Some (merge_sort Z.le e)) d)))
          (set_allocs (allocs cfg + 1) cfg), 1).
Proof.
  intros Hok Hs He Hne Hlen Hx. unfold parse_port_list.
  assert (Z.of_nat (length (junk <$> seqZ 0 RTE_MAX_ETHPORTS)) = RTE_MAX_ETHPORTS) as EL by (rewrite length_fmap, length_seqZ; lia).
  rewrite <- EL at 2. rewrite (parse_config_list_spec rte_strsplit _ its Hok Hs). rewrite He.
  rewrite (proj2 (Nat.leb_le _ _)) by lia. destruct e as [|y e']; [done|]. set (e := y :: e') in *.
  cbn [mbind outcome_bind]. change (1 =? 0) with false. unfold alloc. rewrite malloc_all. cbn [negb].
  assert (length (merge_sort Z.le e) = length e) as Em by (apply Permutation_length, merge_sort_Permutation).
  rewrite Nat2Z.id, take_app_le, take_ge by lia.
  rewrite (aread_lookup _ _ x); [done|cbn; lia|]. rewrite last_lookup in Hx. rewrite <- Hx. f_equal. rewrite Em. cbn. lia.
Qed.

(** ** A configuration file *)

Record conf_ok (id : Z) (mask : cstr) (its : list num_list) (ports : list port_conf) (own : Z) : Prop := {
  co_doc : wf_doc (config_doc mask its ports) = true;
  co_digits : mask_digits mask <> [] /\ Forall (fun c => isxdigit c = true) (mask_digits mask);
  co_mask : hex_value (mask_digits mask) < 2 ^ RTE_MAX_LCORE;
  co_id : 0 <= id;
  co_own : cores_below (hex_value (mask_digits mask)) RTE_MAX_LCORE !! Z.to_nat id = Some own /\ own < 64;
  co_items : Forall num_ok its;
  co_split : rte_strsplit (join "," (num_print <$> its)) 128 ","%char = num_print <$> its;
  co_some : concat (num_expand <$> its) <> [];
  co_count : Z.of_nat (length (concat (num_expand <$> its))) <= RTE_MAX_ETHPORTS;
  co_range : forall q, q ∈ concat (num_expand <$> its) -> 0 <= q < RTE_MAX_ETHPORTS;
  co_ports : forall q, q ∈ pt_id <$> ports <-> q ∈ concat (num_expand <$> its);
  co_nodup : NoDup (pt_id <$> ports)
}.

Lemma sorted_last e x q : last (merge_sort Z.le e) = Some x -> q ∈ e -> q <= x.
Proof.
  intros Hx Hq. assert (StronglySorted Z.le (merge_sort Z.le e)) as Hs by (apply StronglySorted_merge_sort; apply _).
  rewrite <- (merge_sort_Permutation Z.le e) in Hq. apply list_elem_of_lookup in Hq as [i Hi].
  rewrite last_lookup in Hx. pose proof (lookup_lt_Some _ _ _ Hi).
  destruct (decide (i = Nat.pred (length (merge_sort Z.le e)))) as [->|Hne]; [rewrite Hi in Hx; injection Hx as ->; lia|].
  eapply (sorted_lookup Z.le); [exact Hs| |exact Hi|exact Hx]. lia.
Qed.

Definition args_config (id : Z) : ff_config := on_dpdk (set_proc_type (Some (lit "auto"))) (on_dpdk (set_proc_id id) ff_default_config).

Lemma parse_args_id id :
  0 <= id <= RTE_MAX_LCORE -> ff_parse_args RTE_MAX_LCORE ff_default_config [("p"%char, print_dec id)] = (args_config id, 0).
Proof.
  intros Hid. unfold DPDK_MAX_LCORE in lcore_int. unfold ff_parse_args. cbn [parse_opts].
  change (Ascii.eqb "p" "c") with false. change (Ascii.eqb "p" "p") with true.
  pose proof (atoi_print_dec id [] ltac:(unfold INT_MAX; lia) I) as Ea. rewrite app_nil_r in Ea. rewrite Ea.
  change (0 <? 0) with false. cbn [proc_type dpdk on_dpdk set_dpdk set_proc_id ff_default_config default].
  rewrite streq_refl. rewrite andb_false_r. cbn [proc_id dpdk set_dpdk set_proc_type on_dpdk]. cbn [set_proc_id proc_id]. rewrite (wrapu_small 16 id) by lia.
  by assert (id >? RTE_MAX_LCORE = false) as -> by (rewrite Z.gtb_ltb; apply Z.ltb_ge; lia).
Qed.

(** The state after the settings of [dpdk]. *)
Lemma dpdk_run id mask its ports own :
  conf_ok id mask its ports own ->
  let L := cores_below (hex_value (mask_digits mask)) RTE_MAX_LCORE in
  let ids := merge_sort Z.le (concat (num_expand <$> its)) in
  exists x cfg, last ids = Some x /\
    run_pairs user (lit "dpdk") [(lit "lcore_mask", mask); (lit "port_list", join "," (num_print <$> its))] 1 (Done (args_config id)) =
      (3, 0, Done cfg) /\
    (exists n m, cfg = Config (lit "config.ini")
      (DpdkCfg (Some (lit "auto")) m (Some (print_hex (2 ^ own))) None 0 0 0 (Z.of_nat (length L)) id 1 0 1 0 0 0 BURST_TX_DRAIN_US
         (Some (arr_of RTE_MAX_LCORE L)) (Z.of_nat (length ids)) x (Some ids) None None)
      (KniCfg 0 None None None) (FbCfg [] [] (1048576 * 256) 100 0 256) n).
Proof.
  intros H L ids. unfold DPDK_MAX_LCORE in lcore_int. destruct H as [_ [Hd Hx] Hm Hid [Hown H64] Hit Hsp He Hc _ _ _].
  assert (length ids = length (concat (num_expand <$> its))) as El by (apply Permutation_length, merge_sort_Permutation).
  destruct (last ids) as [x|] eqn:Ex.
  2: { apply last_None in Ex. rewrite Ex in El. by destruct (concat (num_expand <$> its)). }
  assert (id < Z.of_nat (length L)) as HidL by (pose proof (lookup_lt_Some L _ _ Hown); lia).
  assert (Z.of_nat (length L) <= RTE_MAX_LCORE) by (pose proof (cores_below_length (hex_value (mask_digits mask)) RTE_MAX_LCORE); unfold L; lia).
  exists x. eexists. split; [done|]. cbn [run_pairs]. unfold config_user at 1. rewrite handler_mask.
  rewrite (parse_lcore_mask_spec RTE_MAX_LCORE malloc_ok (on_dpdk (set_lcore_mask (Some mask)) (args_config id)) mask _ _
    ltac:(lia) (malloc_all _) ltac:(cbn; lia) eq_refl Hd Hx eq_refl Hm).
  2: { intros c Hc'. cbn in Hc'. rewrite Hown in Hc'. by injection Hc' as <-. }
  fold L. cbn [proc_id dpdk on_dpdk set_dpdk set_lcore_mask args_config set_proc_type set_proc_id].
  rewrite (proj2 (Z.ltb_lt _ _) HidL). cbn [ctrue Z.eqb negb]. unfold config_user. rewrite handler_ports.
  rewrite (parse_port_list_ok _ its _ x Hit Hsp eq_refl He Hc Ex). cbn [ctrue Z.eqb negb]. split; [done|].
  assert (own_mask id None L = Some (print_hex (2 ^ own))) as <- by (unfold own_mask, L; by rewrite Hown).
  exists 2, (Some mask). by rewrite El.
Qed.

(** The configuration that a file stands for. *)
Record loaded (id : Z) (mask : cstr) (its : list num_list) (ports : list port_conf) (cfg : ff_config) : Prop := {
  lo_id : proc_id (dpdk cfg) = id;
  lo_cores : take (Z.to_nat (nb_procs (dpdk cfg))) (default [] (proc_lcore (dpdk cfg))) =
             cores_below (hex_value (mask_digits mask)) RTE_MAX_LCORE;
  lo_ports : enabled_ports (dpdk cfg) = merge_sort Z.le (concat (num_expand <$> its));
  lo_port : forall p, p ∈ ports -> exists pcs pc, port_cfgs (dpdk cfg) = Some pcs /\ pcs !! Z.to_nat (pt_id p) = Some pc /\
    p_addr pc = Some (pt_addr p) /\ p_netmask pc = Some (pt_netmask p) /\ p_broadcast pc = Some (pt_broadcast p) /\
    p_gateway pc = Some (pt_gateway p) /\ port_cores (cores_below (hex_value (mask_digits mask)) RTE_MAX_LCORE) pc;
  lo_consistent : consistent_config cfg
}.

Lemma filled_keeps p pc :
  p_nb_lcores (filled p pc) = p_nb_lcores pc /\ p_lcore_list (filled p pc) = p_lcore_list pc.
Proof. unfold filled, named. by destruct (p_name pc). Qed.

Lemma port_fresh_fit pc : port_fresh pc -> cores_fit pc.
Proof. unfold port_fresh, cores_fit. lia. Qed.

Lemma fill_ports_fresh ports : forall pcs, Forall port_fresh pcs -> Forall port_fresh (fill_ports pcs ports).
Proof.
  induction ports as [|p ports IH]; intros pcs H; [done|]. cbn [fill_ports foldl]. apply IH. apply Forall_alter; [done|].
  intros pc _ Hpc. destruct (filled_keeps p pc) as [E1 E2]. unfold port_fresh in *. by rewrite E1, E2.
Qed.

Lemma doc_run id mask its ports own :
  conf_ok id mask its ports own ->
  exists cfg n m x pcs, run_doc user (config_doc mask its ports) 0 (Done (args_config id)) = (0, Done cfg) /\
    let L := cores_below (hex_value (mask_digits mask)) RTE_MAX_LCORE in
    let ids := merge_sort Z.le (concat (num_expand <$> its)) in
    cfg = Config (lit "config.ini")
      (DpdkCfg (Some (lit "auto")) m (Some (print_hex (2 ^ own))) None 0 0 0 (Z.of_nat (length L)) id 1 0 1 0 0 0 BURST_TX_DRAIN_US
         (Some (arr_of RTE_MAX_LCORE L)) (Z.of_nat (length ids)) x (Some ids) (Some pcs) None)
      (KniCfg 0 None None None) (FbCfg [] [] (1048576 * 256) 100 0 256) n /\
    Forall port_fresh pcs /\
    (forall p, p ∈ ports -> exists pc, pcs !! Z.to_nat (pt_id p) = Some (filled p pc) /\ port_cores L pc).
Proof.
  intros H. destruct (dpdk_run id mask its ports own H) as (x & cfg & Hx & Er & n & m & Ec).
  pose proof lcore_int as Hmax. unfold DPDK_MAX_LCORE in Hmax.
  destruct H as [_ _ _ Hid _ _ _ He Hcount Hrange Hports Hnd].
  set (L := cores_below (hex_value (mask_digits mask)) RTE_MAX_LCORE) in *.
  set (e := concat (num_expand <$> its)) in *. set (ids := merge_sort Z.le e) in *.
  assert (forall q, q ∈ ids <-> q ∈ e) as Hids by (intros q; unfold ids; by rewrite (merge_sort_Permutation Z.le e)).
  destruct (arr_of_ordered RTE_MAX_LCORE (hex_value (mask_digits mask))) as (_ & Hal & Htake); [lia|]. fold L in Hal, Htake.
  pose proof (cores_below_length (hex_value (mask_digits mask)) RTE_MAX_LCORE ltac:(lia)) as HL. fold L in HL.
  destruct (init_ports_spec (arr_of RTE_MAX_LCORE L) (Z.of_nat (length L)) ids (replicate (Z.to_nat RTE_MAX_ETHPORTS) port0))
    as (pc0 & E0 & Hlen & Hfresh & Hcores).
  { lia. } { unfold DPDK_MAX_LCORE. lia. } { apply Forall_replicate. by split. }
  { intros q Hq%Hids. rewrite length_replicate. apply Hrange in Hq. lia. }
  rewrite Nat2Z.id, Htake in Hcores. rewrite length_replicate in Hlen.
  assert (forall p, p ∈ ports -> pt_id p ∈ e) as Hpe by (intros p Hp; apply Hports; by apply list_elem_of_fmap_2).
  assert (Z.of_nat (length ids) <> 0) as Hn0 by (destruct ids; [done|cbn; lia]).
  assert (ports <> []) as Hne.
  { intros ->. destruct e as [|q e']; [done|]. assert (q ∈ pt_id <$> @nil port_conf) as Hq by (apply Hports; left). by apply elem_of_nil in Hq. }
  eexists _, _, m, x, (fill_ports pc0 ports). split; [|split; [|split]].
  - unfold config_doc. cbn [run_doc]. change (0 + 1) with 1. rewrite Er. cbn [ctrue Z.eqb negb].
    rewrite (first_section cfg ids (arr_of RTE_MAX_LCORE L) pc0); [|by subst cfg..|done|by subst cfg|by subst cfg].
    rewrite (sections_run ports _ pc0); [done|by subst cfg|done|].
    intros p Hp. pose proof (Hrange _ (Hpe p Hp)). pose proof (sorted_last _ _ _ Hx (Hpe p Hp)). subst cfg. cbn. lia.
  - subst cfg. done.
  - by apply fill_ports_fresh.
  - intros p Hp. destruct (Hcores (pt_id p)) as (pc & Epc & Hpc); [left; by apply Hids, Hpe|].
    exists pc. split; [|done]. rewrite fill_ports_lookup; [by rewrite Epc|done| |done].
    intros q Hq. pose proof (Hrange _ (Hpe q Hq)). lia.
Qed.

Lemma print_hex_length n : (length (print_hex n) <= 16)%nat.
Proof.
  unfold print_hex. generalize 16%nat as k. intros k. revert n. induction k as [|k IH]; intros n; [done|].
  cbn [print_hex_fuel]. rewrite length_app. cbn [length]. destruct (n <? 16); [cbn; lia|]. specialize (IH (n / 16)). lia.
Qed.

Lemma push_arg_ok argv a : (length a < 256)%nat -> (length argv < 17)%nat -> push_arg argv a = Done (argv ++ [a]).
Proof.
  intros H1 H2. unfold push_arg, DPDK_CONFIG_MAXLEN, DPDK_CONFIG_NUM.
  by rewrite (proj2 (Z.ltb_lt _ _)), (proj2 (Z.ltb_lt _ _)) by lia.
Qed.

Definition dpdk_argv (own : Z) : list cstr := [lit "f-stack"; lit "-c" ++ print_hex (2 ^ own); lit "--proc-type=auto"].

Lemma load_doc files id mask its ports own :
  conf_ok id mask its ports own -> files (lit "config.ini") = Some (render (config_doc mask its ports)) ->
  exists cfg, ff_load_config RTE_MAX_LCORE RTE_MAX_ETHPORTS rte_strsplit junk malloc_ok files [("p"%char, print_dec id)] =
    Done (0, cfg, dpdk_argv own) /\ loaded id mask its ports cfg.
Proof.
  intros H Hf. destruct (doc_run id mask its ports own H) as (cfg & n & m & x & pcs & Er & Ec & Hfresh & Hpcs). cbn zeta in Ec.
  pose proof lcore_int as Hmax. unfold DPDK_MAX_LCORE in Hmax.
  destruct H as [Hwf _ _ Hid [Hown _] _ _ He Hcount Hrange Hports Hnd].
  set (L := cores_below (hex_value (mask_digits mask)) RTE_MAX_LCORE) in *.
  set (ids := merge_sort Z.le (concat (num_expand <$> its))) in *.
  destruct (arr_of_ordered RTE_MAX_LCORE (hex_value (mask_digits mask))) as (Hord & Hal & Htake); [lia|]. fold L in Hord, Hal, Htake.
  pose proof (cores_below_length (hex_value (mask_digits mask)) RTE_MAX_LCORE ltac:(lia)) as HL. fold L in HL.
  assert (enabled_ports (dpdk cfg) = ids) as Hen. { subst cfg. unfold enabled_ports. cbn. by rewrite Nat2Z.id, take_ge. }
  assert (consistent_config cfg) as Hcon.
  { split; [subst cfg; split; [done|by intros ? [=]]|]. rewrite Hen. intros q Hq. unfold ids in Hq.
    rewrite (merge_sort_Permutation Z.le) in Hq. pose proof (Hrange q Hq) as Hq0. apply Hports in Hq.
    apply list_elem_of_fmap in Hq as (p & -> & Hp). destruct (Hpcs p Hp) as (pc & Epc & Hco).
    exists pcs, (filled p pc). split; [by subst cfg|]. split; [lia|]. split; [done|]. destruct (filled_keeps p pc) as [K1 K2].
    unfold port_fits. rewrite K1, K2. do 4 (split; [by eexists|]). unfold port_cores in Hco. rewrite Hco. subst cfg. cbn.
    rewrite Nat2Z.id, Htake. done. }
  exists cfg. split.
  - unfold ff_load_config. rewrite parse_args_id by (pose proof (lookup_lt_Some _ _ _ Hown); lia). change (0 <? 0) with false.
    change (filename (args_config id)) with (lit "config.ini"). unfold ini_parse. rewrite Hf. unfold ini_parse_file, ini_parse_stream.
    pose proof (ini_loop_doc user (config_doc mask its ports) (S (length (render (config_doc mask its ports)))) [] [] 0
      (Done (args_config id)) Hwf ltac:(lia) ltac:(lia)) as El. unfold ini_result in El. rewrite El, Er. cbn [mbind outcome_bind].
    change (negb (0 =? 0)) with false. rewrite (proj2 (ff_check_config_spec cfg ltac:(subst cfg; split; cbn; [lia|done])
      ltac:(intros pcs' Ep; subst cfg; injection Ep as <-; eapply Forall_impl; [exact Hfresh|]; apply port_fresh_fit)) Hcon).
    cbn [mbind outcome_bind]. change (ctrue 0) with false. unfold dpdk_args_setup. rewrite Ec.
    cbn [dpdk no_huge proc_mask nb_channel memory proc_type base_virtaddr nb_vdev]. unfold push_if. change (ctrue 0) with false.
    pose proof (print_hex_length (2 ^ own)).
    rewrite push_arg_ok by (cbn; lia). cbn [mbind outcome_bind].
    rewrite push_arg_ok; [|rewrite length_app; cbn [lit String.list_ascii_of_string length]; lia|cbn; lia]. cbn [mbind outcome_bind].
    rewrite push_arg_ok by (cbn; lia). done.
  - constructor; [by subst cfg| |done| |done].
    + subst cfg. cbn. by rewrite Nat2Z.id, Htake.
    + intros p Hp. destruct (Hpcs p Hp) as (pc & Epc & Hco). exists pcs, (filled p pc). split; [by subst cfg|]. split; [done|].
      do 4 (split; [done|]). unfold port_cores in *. by destruct (filled_keeps p pc) as [-> ->].
Qed.
End Load.
