(* ===== verification/ConfigProps.v ===== *)
(** The correctness theorems of the configuration reader and an evaluated
    instance of each. *)
From stdpp Require Import base list strings sorting.
From Stdlib Require Import ZArith Lia Ascii.
From S2P Require Import Prelude CStr IniParser Config ConfigSpec ConfigLoad.

Local Open Scope Z_scope.

(** * Instances of the parameters *)

(** A splitter as rte_strsplit is documented. *)
Fixpoint split_on (d : ascii) (cur s : cstr) : list cstr :=
  match s with
  | [] => [cur]
  | c :: r => if Ascii.eqb c d then cur :: split_on d [] r else split_on d (cur ++ [c]) r
  end.
Definition strsplit (s : cstr) (max : Z) (d : ascii) : list cstr :=
  match s with [] => [] | _ => take (Z.to_nat max) (split_on d [] s) end.
Definition malloc_always (_ : Z) : bool := true.
Definition junk_zero (_ : Z) : Z := 0.

(** C35. A configuration file is read back: a file with a core mask, a port list
    and one section per port makes ff_load_config return 0 for process [id], with
    the cores of the mask, the sorted ports, each port's addresses and all cores
    on each port, and DPDK is given the mask of the id-th core; the result passes
    the check because it is consistent. *)
Theorem load_config_reads MAXC MAXP rte_strsplit junk malloc_ok files id mask its ports own :
  (forall i, malloc_ok i = true) -> 0 < MAXC <= DPDK_MAX_LCORE -> 0 < MAXP <= 2 ^ 16 ->
  conf_ok MAXC MAXP rte_strsplit id mask its ports own ->
  files (lit "config.ini") = Some (render (config_doc mask its ports)) ->
  exists cfg, ff_load_config MAXC MAXP rte_strsplit junk malloc_ok files [("p"%char, print_dec id)] =
    Done (0, cfg, dpdk_argv own) /\ loaded MAXC id mask its ports cfg.
Proof. intros Hm Hc Hp Hok Hf. by apply load_doc. Qed.

Definition demo_ports : list port_conf :=
  [PortConf 1 (lit "10.0.0.2") (lit "255.0.0.0") (lit "10.255.255.255") (lit "10.0.0.1");
   PortConf 0 (lit "192.168.1.2") (lit "255.255.255.0") (lit "192.168.1.255") (lit "192.168.1.1")].

Definition demo_files (f : cstr) : option cstr :=
  if streq f (lit "config.ini") then Some (render (config_doc (lit "0xb") [Range 0 1] demo_ports)) else None.

Lemma demo_conf_ok : conf_ok 64 32 strsplit 2 (lit "0xb") [Range 0 1] demo_ports 3.
Proof.
  constructor; try (vm_compute; reflexivity); try (vm_compute; discriminate).
  - split; [vm_compute; discriminate|]. vm_compute. repeat constructor.
  - split; [vm_compute; reflexivity|lia].
  - repeat constructor; vm_compute; (reflexivity || discriminate).
  - intros q. change (concat (num_expand <$> [Range 0 1])) with [0; 1]. rewrite !elem_of_cons, elem_of_nil. lia.
  - intros q. change (concat (num_expand <$> [Range 0 1])) with [0; 1]. change (pt_id <$> demo_ports) with [1; 0].
    rewrite !elem_of_cons, elem_of_nil. lia.
  - apply (bool_decide_unpack _). vm_compute. exact I.
Qed.

Lemma load_config_reads_witness :
  exists cfg, ff_load_config 64 32 strsplit junk_zero malloc_always demo_files [("p"%char, print_dec 2)] =
    Done (0, cfg, [lit "f-stack"; lit "-c8"; lit "--proc-type=auto"]) /\ enabled_ports (dpdk cfg) = [0; 1].
Proof.
  destruct (load_config_reads 64 32 strsplit junk_zero malloc_always demo_files 2 (lit "0xb") [Range 0 1] demo_ports 3)
    as (cfg & E & Hl).
  - reflexivity.
  - split; [reflexivity|discriminate].
  - split; [reflexivity|discriminate].
  - exact demo_conf_ok.
  - vm_compute. reflexivity.
  - exists cfg. split; [exact E|]. rewrite (lo_ports _ _ _ _ _ _ Hl). vm_compute. reflexivity.
Defined.

(** C40. ff_load_config ends on every command line, every file and every answer of
    malloc: the loops of the INI reader, of the lists and of the search all stop. *)
Theorem load_config_terminates MAXC MAXP rte_strsplit junk malloc_ok files opts :
  ff_load_config MAXC MAXP rte_strsplit junk malloc_ok files opts <> Loop.
Proof. apply load_ends. Qed.

(** A core mask is read exactly: for a hexadecimal number below 2^RTE_MAX_LCORE,
    with or without blanks and 0x, proc_lcore holds the set bits in order, and the
    call succeeds exactly when the process has a core among them; then nb_procs is
    their number and proc_mask the process's own core. *)
Theorem lcore_mask_exact MAXC malloc_ok cfg pre x ds post :
  0 < MAXC < 2 ^ 16 -> malloc_ok (allocs cfg) = true -> 0 <= proc_id (dpdk cfg) < 2 ^ 31 ->
  Forall (fun c => isblank c = true) pre -> Forall (fun c => isblank c = true) post ->
  x = [] \/ x = lit "0x" \/ x = lit "0X" -> ds <> [] -> Forall (fun c => isxdigit c = true) ds ->
  hex_value ds < 2 ^ MAXC -> own_small MAXC (proc_id (dpdk cfg)) (hex_value ds) ->
  let L := cores_below (hex_value ds) MAXC in
  exists cfg' r, parse_lcore_mask MAXC malloc_ok cfg (pre ++ x ++ ds ++ post) = Done (cfg', r) /\
    take (length L) (default [] (proc_lcore (dpdk cfg'))) = L /\
    (r = 1 <-> proc_id (dpdk cfg) < Z.of_nat (length L)) /\
    (r = 1 -> nb_procs (dpdk cfg') = Z.of_nat (length L) /\
              exists own, L !! Z.to_nat (proc_id (dpdk cfg)) = Some own /\ proc_mask (dpdk cfg') = Some (print_hex (2 ^ own))).
Proof.
  intros HM Ha Hp Hpre Hpost Hx Hne Hd Hlt Ho L.
  rewrite (parse_lcore_mask_spec MAXC malloc_ok cfg _ ds (hex_value ds) HM Ha Hp) by (done || by apply mask_digits_spec).
  fold L. destruct (arr_of_ordered MAXC (hex_value ds)) as (_ & _ & Ht); [lia|]. fold L in Ht. cbn zeta.
  destruct (proc_id (dpdk cfg) <? Z.of_nat (length L)) eqn:E.
  - apply Z.ltb_lt in E. eexists _, 1. split; [done|]. split; [done|]. split; [done|]. intros _. split; [done|].
    destruct (lookup_lt_is_Some_2 L (Z.to_nat (proc_id (dpdk cfg)))) as [own Eo]; [lia|]. exists own. split; [done|].
    cbn. unfold own_mask. by rewrite Eo.
  - apply Z.ltb_ge in E. eexists _, 0. split; [done|]. split; [done|]. split; [lia|done].
Qed.

Lemma lcore_mask_exact_witness :
  exists cfg' r, parse_lcore_mask 64 malloc_always (args_config 2) (lit " 0xB ") = Done (cfg', r) /\
    take 3 (default [] (proc_lcore (dpdk cfg'))) = [0; 1; 3] /\ r = 1.
Proof.
  destruct (lcore_mask_exact 64 malloc_always (args_config 2) (lit " ") (lit "0x") (lit "B") (lit " ")) as (cfg' & r & E & Ht & Hr & _).
  - split; reflexivity.
  - reflexivity.
  - split; [discriminate|reflexivity].
  - repeat constructor.
  - repeat constructor.
  - right. left. reflexivity.
  - discriminate.
  - repeat constructor.
  - vm_compute. reflexivity.
  - intros c Hc. vm_compute in Hc. injection Hc as <-. reflexivity.
  - exists cfg', r. split; [exact E|]. split; [exact Ht|]. apply Hr. vm_compute. reflexivity.
Defined.

(** C39. Port and core lists: a list in the grammar of config.ini is read into its
    numbers, sorted, when they fit the array; one number more is written behind
    the end of the array, because the test for too many elements is made one
    element late. *)
Theorem config_list_bounds rte_strsplit arr its :
  Forall num_ok its -> rte_strsplit (join "," (num_print <$> its)) 128 ","%char = num_print <$> its ->
  let e := concat (num_expand <$> its) in
  let r := parse_config_list rte_strsplit arr (Z.of_nat (length arr)) (join "," (num_print <$> its)) in
  (e <> [] -> (length e <= length arr)%nat -> exists arr', r = Done (arr', Z.of_nat (length e), 1) /\
     take (length e) arr' ≡ₚ e /\ Sorted Z.le (take (length e) arr') /\ drop (length e) arr' = drop (length e) arr) /\
  ((length arr < length e)%nat -> r = Fault).
Proof.
  intros Hok Hs e r. unfold r. rewrite (parse_config_list_spec rte_strsplit arr its Hok Hs). fold e. split.
  - intros Hne Hl. rewrite (proj2 (Nat.leb_le _ _) Hl).
    assert (length (merge_sort Z.le e) = length e) as Em by (apply Permutation_length, merge_sort_Permutation).
    exists (merge_sort Z.le e ++ drop (length e) arr). split; [by destruct e|].
    rewrite <- Em, take_app_length, drop_app_length. split; [apply merge_sort_Permutation|]. split; [apply Sorted_merge_sort; apply _|done].
  - intros Hl. by rewrite (proj2 (Nat.leb_gt _ _) Hl).
Qed.

Lemma config_list_bounds_witness :
  parse_config_list strsplit [9; 9; 9; 9; 9] 5 (lit "7,1-3") = Done ([1; 2; 3; 7; 9], 4, 1) /\
  parse_config_list strsplit [9; 9; 9] 3 (lit "7,1-3") = Fault.
Proof.
  split; [vm_compute; reflexivity|].
  apply (config_list_bounds strsplit [9; 9; 9] [Num 7; Range 1 3]).
  - repeat constructor; vm_compute; (reflexivity || discriminate).
  - vm_compute. reflexivity.
  - vm_compute. repeat constructor.
Defined.
