(* ===== verification/Dispatch.v ===== *)
(** The packet loop of the DPDK driver (src/lib/ff_dpdk_if.c): assignment of the
    receive queues to the processes, handling of received packets (dispatcher,
    classifier, copies of ARP and NDP for the other queues, KNI), the rings
    between the processes and the transmit tables.

    All processes are in one state, because the rings are shared; a step is one
    burst of one process.  The NIC, the rings, the memory pools and the user's
    dispatcher are parameters.  A packet has an identity; the lists [w_freed],
    [w_sent], [w_stack] and [w_kernel] record what was done with it. *)
From stdpp Require Import base list gmap.
From Stdlib Require Import ZArith Lia.
From S2P Require Import Prelude CStr ProtoFilter Config.

Local Open Scope Z_scope.

Definition MAX_PKT_BURST : nat := 32.
Definition MAX_RX_QUEUE_PER_LCORE : nat := 16.
Definition FF_DISPATCH_ERROR : Z := -1.
Definition FF_DISPATCH_RESPONSE : Z := -2.
Definition RTE_PKTMBUF_HEADROOM : Z := 128.

(** * Packets and rings *)

(** struct rte_mbuf: [pk_buf] is the first segment's buffer from the data
    pointer on, [pk_more] the data of the other segments, [pk_bad] the flags of a
    bad checksum. *)
Record pkt := Pkt {
  pk_id : Z;
  pk_buf : list Z;
  pk_dlen : Z;       (* data_len *)
  pk_plen : Z;       (* pkt_len *)
  pk_more : list (list Z);
  pk_headroom : Z;
  pk_vlan : Z;       (* vlan_tci *)
  pk_bad : bool
}.

Definition pk_data (p : pkt) : list Z := take (Z.to_nat (pk_dlen p)) (pk_buf p).

(** What is used of rte_ring: a bounded queue. *)
Class Ring (R : Type) := {
  ring_elems : R -> list pkt;
  ring_enqueue : R -> pkt -> option R;
  ring_dequeue : R -> nat -> list pkt * R
}.

Class RingLaws (R : Type) `{!Ring R} : Prop := {
  enqueue_elems (r r' : R) p : ring_enqueue r p = Some r' -> ring_elems r' = ring_elems r ++ [p];
  dequeue_elems (r r' : R) n l : ring_dequeue r n = (l, r') -> ring_elems r = l ++ ring_elems r' /\ length l = Nat.min n (length (ring_elems r))
}.

(** struct ff_traffic_args of a process. *)
Record traffic := Traffic { t_rx_packets : Z; t_rx_bytes : Z; t_tx_packets : Z; t_tx_bytes : Z }.

(** struct kni_interface_stats. *)
Record kni_stats := KniStats { k_rx_packets : Z; k_rx_dropped : Z; k_tx_packets : Z; k_tx_dropped : Z }.

Record world (R : Type) := World {
  w_ring : gmap (Z * Z) R;                (* dispatch_ring[port][queue] *)
  w_kni : gmap Z R;                       (* kni_rp[port] *)
  w_kst : gmap Z kni_stats;               (* kni_stat[port] *)
  w_tx : gmap (Z * Z) (list pkt);         (* tx_mbufs of (process, port) *)
  w_sent : list (Z * Z * pkt);            (* port, queue *)
  w_stack : list (Z * Z * pkt);           (* process, port *)
  w_kernel : list pkt;                    (* given to the kernel by KNI *)
  w_freed : list pkt;
  w_traffic : gmap Z traffic;
  w_next : Z;                             (* the next packet *)
  w_pool : Z;                             (* allocations from the pools *)
  w_mb : Z;                               (* allocations of stack mbufs *)
  w_bursts : Z                            (* transmit bursts *)
}.
Arguments World {R}.
Arguments w_ring {R}. Arguments w_kni {R}. Arguments w_kst {R}. Arguments w_tx {R}. Arguments w_sent {R}. Arguments w_stack {R}.
Arguments w_kernel {R}. Arguments w_freed {R}. Arguments w_traffic {R}. Arguments w_next {R}. Arguments w_pool {R}.
Arguments w_mb {R}. Arguments w_bursts {R}.

(** * Queues of a process *)

(** The fields of struct lcore_conf that init_lcore_conf sets. *)
Record lcore := Lcore {
  lc_proc_id : Z;
  lc_rx : list (Z * Z);          (* rx_queue_list *)
  lc_txq : gmap Z Z;             (* tx_queue_id *)
  lc_nbq : gmap Z Z              (* nb_queue_list *)
}.

(** The last position of the core in the list, or -1. *)
Fixpoint find_queue (cores : list Z) (lcore_id i q : Z) : Z :=
  match cores with
  | [] => q
  | c :: r => find_queue r lcore_id (i + 1) (if c =? lcore_id then i else q)
  end.

Fixpoint lcore_ports (pcs : list ff_port_cfg) (ports : list Z) (lcore_id : Z) (lc : lcore) : outcome lcore :=
  match ports with
  | [] => Done lc
  | port_id :: r =>
      pc ← aread pcs port_id;
      let queueid := find_queue (take (Z.to_nat (p_nb_lcores pc)) (p_lcore_list pc)) lcore_id 0 (-1) in
      if queueid <? 0 then lcore_ports pcs r lcore_id lc
      else if (length (lc_rx lc) <? MAX_RX_QUEUE_PER_LCORE)%nat then
        lcore_ports pcs r lcore_id
          (Lcore (lc_proc_id lc) (lc_rx lc ++ [(port_id, u16 queueid)])
             (<[port_id := u16 queueid]> (lc_txq lc)) (<[port_id := u16 (p_nb_lcores pc)]> (lc_nbq lc)))
      else Fault
  end.

(** [detected]: DPDK's lcore_config; rte_exit is [Fault]. *)
Definition init_lcore_conf (nb_dev_ports : Z) (detected : Z -> bool) (cfg : ff_config) : outcome lcore :=
  let d := dpdk cfg in
  if nb_dev_ports =? 0 then Fault
  else if max_portid d >=? nb_dev_ports then Fault
  else
    pcs ← deref (port_cfgs d);
    cores ← deref (proc_lcore d);
    if forallb detected (take (Z.to_nat (nb_procs d)) cores) then
      lcore_id ← aread cores (u16 (proc_id d));
      ports ← deref (portid_list d);
      lc ← lcore_ports pcs (take (Z.to_nat (nb_ports d)) ports) lcore_id (Lcore (u16 (proc_id d)) [] ∅ ∅);
      match lc_rx lc with [] => Fault | _ => Done lc end
    else Fault.

(** The rings of the ports in use; a second ring of the same name is refused.
    [ring_new] is what rte_ring_create returns for one. *)
Fixpoint port_rings {R} (ring_new : Z * Z -> R) (portid : Z) (qs : list Z) (m : gmap (Z * Z) R) : outcome (gmap (Z * Z) R) :=
  match qs with
  | [] => Done m
  | queueid :: r =>
      match m !! (portid, queueid) with
      | Some _ => Fault
      | None => port_rings ring_new portid r (<[(portid, queueid) := ring_new (portid, queueid)]> m)
      end
  end.

Fixpoint dispatch_rings {R} (ring_new : Z * Z -> R) (pcs : list ff_port_cfg) (ports : list Z) (m : gmap (Z * Z) R)
  : outcome (gmap (Z * Z) R) :=
  match ports with
  | [] => Done m
  | portid :: r =>
      pconf ← aread pcs portid;
      m1 ← port_rings ring_new portid (seqZ 0 (p_nb_lcores pconf)) m;
      dispatch_rings ring_new pcs r m1
  end.

Definition init_dispatch_ring {R} (ring_new : Z * Z -> R) (cfg : ff_config) : outcome (gmap (Z * Z) R) :=
  pcs ← deref (port_cfgs (dpdk cfg));
  ports ← deref (portid_list (dpdk cfg));
  dispatch_rings ring_new pcs (take (Z.to_nat (nb_ports (dpdk cfg))) ports) ∅.

(** * Packets of a process *)

(** What the loop calls: the user's dispatcher [packet_dispatcher(data, &len,
    queue_id, nb_queues)], which returns a result and leaves a buffer and a length
    ([None] is NULL); the classifier's configuration; whether a process is the
    primary one; hw_features.rx_csum of a port; the answers of rte_pktmbuf_alloc and
    of m_gethdr/m_get; the packets that a transmit burst takes; the bytes behind
    the data of a new buffer. *)
Record env := Env {
  packet_dispatcher : option (list Z -> Z -> Z -> Z -> Z * list Z * Z);
  kc : kni_config;
  kni_accept : bool;
  primary : Z -> bool;
  rx_csum : Z -> bool;
  pool_ok : Z -> bool;
  mb_ok : Z -> bool;
  tx_takes : Z -> nat -> nat;
  room : Z -> list Z
}.

Section Dispatch.
Context {R : Type} `{!Ring R} (E : env).

#[local] Abbreviation world := (world R).

Definition set_rings (r : gmap (Z * Z) R) (w : world) : world :=
  World r (w_kni w) (w_kst w) (w_tx w) (w_sent w) (w_stack w) (w_kernel w) (w_freed w) (w_traffic w) (w_next w) (w_pool w) (w_mb w) (w_bursts w).
Definition set_kni (k : gmap Z R) (w : world) : world :=
  World (w_ring w) k (w_kst w) (w_tx w) (w_sent w) (w_stack w) (w_kernel w) (w_freed w) (w_traffic w) (w_next w) (w_pool w) (w_mb w) (w_bursts w).
Definition set_kst (port : Z) (s : kni_stats) (w : world) : world :=
  World (w_ring w) (w_kni w) (<[port := s]> (w_kst w)) (w_tx w) (w_sent w) (w_stack w) (w_kernel w) (w_freed w) (w_traffic w) (w_next w) (w_pool w) (w_mb w) (w_bursts w).
Definition set_tx (t : gmap (Z * Z) (list pkt)) (w : world) : world :=
  World (w_ring w) (w_kni w) (w_kst w) t (w_sent w) (w_stack w) (w_kernel w) (w_freed w) (w_traffic w) (w_next w) (w_pool w) (w_mb w) (w_bursts w).
Definition add_sent (l : list (Z * Z * pkt)) (w : world) : world :=
  World (w_ring w) (w_kni w) (w_kst w) (w_tx w) (w_sent w ++ l) (w_stack w) (w_kernel w) (w_freed w) (w_traffic w) (w_next w) (w_pool w) (w_mb w) (w_bursts w + 1).
Definition add_stack (x : Z * Z * pkt) (w : world) : world :=
  World (w_ring w) (w_kni w) (w_kst w) (w_tx w) (w_sent w) (w_stack w ++ [x]) (w_kernel w) (w_freed w) (w_traffic w) (w_next w) (w_pool w) (w_mb w) (w_bursts w).
Definition add_kernel (l : list pkt) (w : world) : world :=
  World (w_ring w) (w_kni w) (w_kst w) (w_tx w) (w_sent w) (w_stack w) (w_kernel w ++ l) (w_freed w) (w_traffic w) (w_next w) (w_pool w) (w_mb w) (w_bursts w + 1).
Definition set_traffic (i : Z) (t : traffic) (w : world) : world :=
  World (w_ring w) (w_kni w) (w_kst w) (w_tx w) (w_sent w) (w_stack w) (w_kernel w) (w_freed w) (<[i := t]> (w_traffic w)) (w_next w) (w_pool w) (w_mb w) (w_bursts w).
Definition set_next (n : Z) (w : world) : world :=
  World (w_ring w) (w_kni w) (w_kst w) (w_tx w) (w_sent w) (w_stack w) (w_kernel w) (w_freed w) (w_traffic w) n (w_pool w) (w_mb w) (w_bursts w).
Definition set_pool (n : Z) (w : world) : world :=
  World (w_ring w) (w_kni w) (w_kst w) (w_tx w) (w_sent w) (w_stack w) (w_kernel w) (w_freed w) (w_traffic w) (w_next w) n (w_mb w) (w_bursts w).
Definition set_mb (n : Z) (w : world) : world :=
  World (w_ring w) (w_kni w) (w_kst w) (w_tx w) (w_sent w) (w_stack w) (w_kernel w) (w_freed w) (w_traffic w) (w_next w) (w_pool w) n (w_bursts w).

(** rte_pktmbuf_free. *)
Definition free_pkts (l : list pkt) (w : world) : world :=
  World (w_ring w) (w_kni w) (w_kst w) (w_tx w) (w_sent w) (w_stack w) (w_kernel w) (w_freed w ++ l) (w_traffic w) (w_next w) (w_pool w) (w_mb w) (w_bursts w).

Definition traffic_of (i : Z) (w : world) : traffic := default (Traffic 0 0 0 0) (w_traffic w !! i).

(** rte_ring_enqueue on one of the rings, and what the callers do when it is
    full. *)
Definition enqueue_dispatch (port q : Z) (p : pkt) (w : world) : outcome world :=
  match w_ring w !! (port, q) with
  | None => Fault
  | Some r =>
      match ring_enqueue r p with
      | Some r' => Done (set_rings (<[(port, q) := r']> (w_ring w)) w)
      | None => Done (free_pkts [p] w)
      end
  end.

Definition ff_kni_enqueue (port : Z) (p : pkt) (w : world) : outcome world :=
  match w_kni w !! port with
  | None => Fault
  | Some r =>
      match ring_enqueue r p with
      | Some r' => Done (set_kni (<[port := r']> (w_kni w)) w)
      | None => Done (free_pkts [p] w)
      end
  end.

(** The stack's mbufs for the segments behind the first. *)
Fixpoint veth_segments (segs : list (list Z)) (n : Z) : bool * Z :=
  match segs with
  | [] => (true, n)
  | _ :: r => if mb_ok E n then veth_segments r (n + 1) else (false, n + 1)
  end.

(** When a later segment gets no mbuf, ff_mbuf_free(hdr) frees the packet through
    the first mbuf's external storage, and rte_pktmbuf_free(pkt) frees it again. *)
Definition ff_veth_input (i port : Z) (p : pkt) (w : world) : world :=
  if rx_csum E port && pk_bad p then free_pkts [p] w
  else if mb_ok E (w_mb w) then
    let '(ok, n) := veth_segments (pk_more p) (w_mb w + 1) in
    if ok then add_stack (i, port, p) (set_mb n w) else free_pkts [p; p] (set_mb n w)
  else free_pkts [p] (set_mb (w_mb w + 1) w).

(** [n] buffers from the pool, until one is refused. *)
Fixpoint pool_alloc (n : nat) (k : Z) : bool * Z :=
  match n with
  | O => (true, k)
  | S n' => if pool_ok E k then pool_alloc n' (k + 1) else (false, k + 1)
  end.

(** The copy of one packet; when a segment gets no buffer those of the others are
    given back. *)
Definition pktmbuf_deep_clone (p : pkt) (w : world) : world * option pkt :=
  let '(ok, k) := pool_alloc (S (length (pk_more p))) (w_pool w) in
  if ok then
    (set_next (w_next w + 1) (set_pool k w),
     Some (Pkt (w_next w) (pk_data p ++ room E (w_next w)) (pk_dlen p) (pk_plen p) (pk_more p) RTE_PKTMBUF_HEADROOM (pk_vlan p) (pk_bad p)))
  else (set_pool k w, None).

(** ** Transmission *)

(** [tx_queue_id], [nb_queue_list] and [tx_mbufs] are zero where init_lcore_conf
    set nothing.  Port numbers are below 256. *)
Definition tx_queue_id (lc : lcore) (port : Z) : Z := default 0 (lc_txq lc !! port).
Definition nb_queue_list (lc : lcore) (port : Z) : Z := default 0 (lc_nbq lc !! port).
Definition tx_table (lc : lcore) (port : Z) (w : world) : list pkt := default [] (w_tx w !! (lc_proc_id lc, port)).
Definition set_table (lc : lcore) (port : Z) (t : list pkt) (w : world) : world := set_tx (<[(lc_proc_id lc, port) := t]> (w_tx w)) w.

(** rte_eth_tx_burst on (port, queue): the count taken. *)
Definition taken (l : list pkt) (w : world) : nat := Nat.min (tx_takes E (w_bursts w) (length l)) (length l).

Definition send_burst (lc : lcore) (port : Z) (table : list pkt) (w : world) : world :=
  let ret := taken table w in
  let t := traffic_of (lc_proc_id lc) w in
  let w := add_sent ((fun p => (port, tx_queue_id lc port, p)) <$> take ret table) w in
  let w := set_traffic (lc_proc_id lc)
             (Traffic (t_rx_packets t) (t_rx_bytes t) (u64 (t_tx_packets t + Z.of_nat ret))
                (u64 (t_tx_bytes t + foldr (fun p a => pk_plen p + a) 0 (take ret table)))) w in
  free_pkts (drop ret table) w.

Definition send_single_packet (lc : lcore) (p : pkt) (port : Z) (w : world) : outcome world :=
  let table := tx_table lc port w in
  if (length table <? MAX_PKT_BURST)%nat then
    let table := table ++ [p] in
    if (length table =? MAX_PKT_BURST)%nat then Done (set_table lc port [] (send_burst lc port table w))
    else Done (set_table lc port table w)
  else Fault.

(** The drain of the main loop: every port with waiting packets. *)
Fixpoint drain_ports (lc : lcore) (ports : list Z) (w : world) : world :=
  match ports with
  | [] => w
  | port :: r =>
      match tx_table lc port w with
      | [] => drain_ports lc r w
      | table => drain_ports lc r (set_table lc port [] (send_burst lc port table w))
      end
  end.

(** ** Reception *)

(** rte_pktmbuf_prepend of a VLAN header, and the code that fills it. *)
Definition vlan_insert (p : pkt) : outcome pkt :=
  if pk_headroom p <? 4 then Done p
  else if (length (pk_buf p) <? 14)%nat then Fault
  else Done (Pkt (pk_id p)
               (take 12 (pk_buf p) ++ [0x81; 0x00; Z.shiftr (pk_vlan p) 8; Z.land (pk_vlan p) 255] ++ drop 12 (pk_buf p))
               (u16 (pk_dlen p + 4)) (u32 (pk_plen p + 4)) (pk_more p) (pk_headroom p - 4) (pk_vlan p) (pk_bad p)).

(** What the dispatcher decided: the packet is finished, or goes on to the
    classifier with the buffer and length the dispatcher left. *)
Inductive verdict := Finished (w : world) | Classify (p : pkt) (len : Z).

Definition set_buf (buf : list Z) (p : pkt) : pkt :=
  Pkt (pk_id p) buf (pk_dlen p) (pk_plen p) (pk_more p) (pk_headroom p) (pk_vlan p) (pk_bad p).
Definition set_lens (len : Z) (p : pkt) : pkt :=
  Pkt (pk_id p) (pk_buf p) len len (pk_more p) (pk_headroom p) (pk_vlan p) (pk_bad p).

Definition run_dispatcher (lc : lcore) (port queue : Z) (p : pkt) (from_ring : bool) (w : world) : outcome verdict :=
  match packet_dispatcher E with
  | Some f =>
      if from_ring then Done (Classify p (pk_dlen p))
      else
        let nb_queues := nb_queue_list lc port in
        let '(ret, buf, len) := f (pk_buf p) (pk_dlen p) queue nb_queues in
        let p := set_buf buf p in
        if ret =? FF_DISPATCH_RESPONSE then
          let p := set_lens len p in
          p ← (if pk_vlan p =? 0 then Done p else vlan_insert p);
          Finished <$> send_single_packet lc p port w
        else if (ret =? FF_DISPATCH_ERROR) || (ret >=? nb_queues) then Done (Finished (free_pkts [p] w))
        else if negb (ret =? queue) then Finished <$> enqueue_dispatch port ret p w
        else Done (Classify p len)
  | None => Done (Classify p (pk_dlen p))
  end.

(** The copies for the queues [js] of the port. *)
Fixpoint clone_to_rings (port queue : Z) (js : list Z) (p : pkt) (w : world) : outcome world :=
  match js with
  | [] => Done w
  | j :: r =>
      if j =? queue then clone_to_rings port queue r p w
      else
        let '(w1, c) := pktmbuf_deep_clone p w in
        match c with
        | None => clone_to_rings port queue r p w1
        | Some c => w2 ← enqueue_dispatch port j c w1; clone_to_rings port queue r p w2
        end
  end.

Definition clone_to_kni (lc : lcore) (port : Z) (p : pkt) (w : world) : outcome world :=
  if kc_ff_kni (kc E) && kc_enable_kni (kc E) && primary E (lc_proc_id lc) then
    let '(w1, c) := pktmbuf_deep_clone p w in
    match c with None => Done w1 | Some c => ff_kni_enqueue port c w1 end
  else Done w.

Definition to_kni (filter : FilterReturn) : bool :=
  kc_ff_kni (kc E) && kc_enable_kni (kc E) &&
  match filter with FILTER_KNI => kni_accept E | FILTER_UNKNOWN => negb (kni_accept E) | _ => false end.

Definition copied (filter : FilterReturn) : bool :=
  match filter with FILTER_ARP => true | FILTER_NDP => kc_inet6 (kc E) | _ => false end.

Definition deliver (lc : lcore) (port queue : Z) (filter : FilterReturn) (p : pkt) (from_ring : bool) (w : world) : outcome world :=
  if copied filter then
    w1 ← (if from_ring then Done w else clone_to_rings port queue (seqZ 0 (nb_queue_list lc port)) p w);
    w2 ← clone_to_kni lc port p w1;
    Done (ff_veth_input (lc_proc_id lc) port p w2)
  else if to_kni filter then ff_kni_enqueue port p w
  else Done (ff_veth_input (lc_proc_id lc) port p w).

Definition count_rx (lc : lcore) (p : pkt) (w : world) : world :=
  let t := traffic_of (lc_proc_id lc) w in
  set_traffic (lc_proc_id lc)
    (Traffic (u64 (t_rx_packets t + 1)) (u64 (t_rx_bytes t + pk_dlen p)) (t_tx_packets t) (t_tx_bytes t)) w.

(** The fuel is enough for the recursion of the classifier on frames without an
    IPv4 header of length 0. *)
Definition process_packet (lc : lcore) (port queue : Z) (p : pkt) (from_ring : bool) (w : world) : outcome world :=
  let w := if from_ring then w else count_rx lc p w in
  v ← run_dispatcher lc port queue p from_ring w;
  match v with
  | Finished w1 => Done w1
  | Classify p len =>
      filter ← protocol_filter (kc E) (pk_buf p) (S (2 * Z.to_nat len)) len;
      deliver lc port queue filter p from_ring w
  end.

Fixpoint process_packets (lc : lcore) (port queue : Z) (bufs : list pkt) (from_ring : bool) (w : world) : outcome world :=
  match bufs with
  | [] => Done w
  | p :: r => w1 ← process_packet lc port queue p from_ring w; process_packets lc port queue r from_ring w1
  end.

Definition process_dispatch_ring (lc : lcore) (port queue : Z) (w : world) : outcome world :=
  match w_ring w !! (port, queue) with
  | None => Fault
  | Some r =>
      let '(l, r') := ring_dequeue r MAX_PKT_BURST in
      process_packets lc port queue l true (set_rings (<[(port, queue) := r']> (w_ring w)) w)
  end.

(** Packets that come from outside (a burst of the NIC, KNI or the stack) get
    their identities. *)
Definition set_id (i : Z) (p : pkt) : pkt :=
  Pkt i (pk_buf p) (pk_dlen p) (pk_plen p) (pk_more p) (pk_headroom p) (pk_vlan p) (pk_bad p).
Definition number (n : Z) (l : list pkt) : list pkt := zip_with set_id (seqZ n (Z.of_nat (length l))) l.
Definition arrive (l : list pkt) (w : world) : world := set_next (w_next w + Z.of_nat (length l)) w.

Definition rx_burst (lc : lcore) (port queue : Z) (l : list pkt) (w : world) : outcome world :=
  process_packets lc port queue (number (w_next w) l) false (arrive l w).

(** ff_dpdk_if_send hands a packet of the stack to the transmit table. *)
Definition stack_send (lc : lcore) (port : Z) (p : pkt) (w : world) : outcome world :=
  send_single_packet lc (set_id (w_next w) p) port (arrive [p] w).

(** ** KNI *)

Definition kni_stat_of (port : Z) (w : world) : kni_stats := default (KniStats 0 0 0 0) (w_kst w !! port).

Definition kni_process_tx (port : Z) (w : world) : outcome world :=
  match w_kni w !! port with
  | None => Fault
  | Some r =>
      let '(l, r') := ring_dequeue r MAX_PKT_BURST in
      let n := taken l w in
      let s := kni_stat_of port w in
      let w := set_kni (<[port := r']> (w_kni w)) w in
      let w := free_pkts (drop n l) (add_kernel (take n l) w) in
      Done (set_kst port (KniStats (u64 (k_rx_packets s + Z.of_nat n)) (u64 (k_rx_dropped s + Z.of_nat (length l - n)))
                            (k_tx_packets s) (k_tx_dropped s)) w)
  end.

(** [l] is what rte_kni_rx_burst returns. *)
Definition kni_process_rx (port queue : Z) (l : list pkt) (w : world) : world :=
  match l with
  | [] => w
  | _ =>
      let l := number (w_next w) l in
      let w := arrive l w in
      let n := taken l w in
      let s := kni_stat_of port w in
      let w := free_pkts (drop n l) (add_sent ((fun p => (port, queue, p)) <$> take n l) w) in
      set_kst port (KniStats (k_rx_packets s) (k_rx_dropped s) (u64 (k_tx_packets s + Z.of_nat n))
                      (u64 (k_tx_dropped s + Z.of_nat (length l - n)))) w
  end.

Definition ff_kni_process (port queue : Z) (l : list pkt) (w : world) : outcome world :=
  w1 ← kni_process_tx port w; Done (kni_process_rx port queue l w1).

(** ** The main loop *)

(** One turn of [main_loop] of a process, without timers, messages and the user's
    loop function: [drain] when the transmit delay is over; [rx] and [krx] are the
    bursts the NIC and KNI have for each queue. *)
Fixpoint poll_queues (lc : lcore) (queues : list (Z * Z)) (rx krx : Z * Z -> list pkt) (w : world) : outcome world :=
  match queues with
  | [] => Done w
  | (port, queue) :: r =>
      w1 ← (if kc_ff_kni (kc E) && kc_enable_kni (kc E) && primary E (lc_proc_id lc)
            then ff_kni_process port queue (krx (port, queue)) w else Done w);
      w2 ← process_dispatch_ring lc port queue w1;
      w3 ← rx_burst lc port queue (rx (port, queue)) w2;
      poll_queues lc r rx krx w3
  end.

Definition main_loop_turn (lc : lcore) (drain : bool) (rx krx : Z * Z -> list pkt) (w : world) : outcome world :=
  let w := if drain then drain_ports lc (fst <$> lc_rx lc) w else w in
  poll_queues lc (lc_rx lc) rx krx w.
End Dispatch.
