(* ===== verification/DispatchSpec.v ===== *)
(** The invariant of the packet loop (Dispatch): every packet is in exactly one
    place, the packets in the rings are well formed, the rings exist and no
    transmit table is full; and that each operation keeps it and does not fault. *)
From stdpp Require Import base list gmap.
From Stdlib Require Import ZArith Lia.
From S2P Require Import Prelude CStr ProtoFilter Config Dispatch.

Local Open Scope Z_scope.

(** Permutations of the same lists in another order. *)
Ltac perm_step :=
  match goal with
  | |- ?a ≡ₚ ?a => reflexivity
  | |- ?a ++ _ ≡ₚ ?a ++ _ => apply Permutation_app_head
  | |- _ ≡ₚ _ ++ _ => etransitivity; [|apply Permutation_app_comm]; rewrite <- ?app_assoc
  end.
Ltac perm := rewrite <- ?app_assoc; solve [do 200 (try perm_step)].

Lemma perm_exchange {A} (x x' t t' ps ps' : list A) :
  x' ++ t ≡ₚ x ++ t' -> t' ++ ps' ≡ₚ t ++ ps -> x' ++ ps' ≡ₚ x ++ ps.
Proof.
  intros Hx Ht. apply (Permutation_app_inv_l t). transitivity ((x' ++ t) ++ ps'); [perm|].
  rewrite Hx. transitivity (x ++ t' ++ ps'); [perm|]. rewrite Ht. perm.
Qed.

(** * The elements of a map of queues *)

Section elems.
Context {K A : Type} `{Countable K} (f : A -> list pkt).

Definition elems (m : gmap K A) : list pkt := concat (f ∘ snd <$> map_to_list m).

Lemma elems_empty : elems ∅ = [].
Proof. unfold elems. by rewrite map_to_list_empty. Qed.

Lemma elems_fresh m k x : m !! k = None -> elems (<[k := x]> m) ≡ₚ f x ++ elems m.
Proof. intros E. unfold elems. by rewrite map_to_list_insert. Qed.

(** An update exchanges the old elements of the key for the new ones. *)
Lemma elems_insert m k x : elems (<[k := x]> m) ++ from_option f [] (m !! k) ≡ₚ elems m ++ f x.
Proof.
  destruct (m !! k) as [y|] eqn:E; simpl.
  - rewrite <- (insert_delete_id m k y E) at 2. rewrite <- insert_delete_eq.
    rewrite !elems_fresh by apply lookup_delete_eq. perm.
  - rewrite app_nil_r, elems_fresh by done. apply Permutation_app_comm.
Qed.

Lemma elems_lookup m k x p : m !! k = Some x -> p ∈ f x -> p ∈ elems m.
Proof.
  intros Hk Hp. unfold elems. apply list_elem_of_In, in_concat. exists (f x).
  split; [|by apply list_elem_of_In]. apply list_elem_of_In, (list_elem_of_fmap_2 (f ∘ snd) _ (k, x)).
  by apply elem_of_map_to_list.
Qed.

Lemma elems_nil m : map_Forall (fun _ r => f r = []) m -> elems m = [].
Proof.
  intros Hm. unfold elems. apply concat_nil_Forall, Forall_fmap, Forall_forall. intros [k r] Hk%elem_of_map_to_list.
  exact (Hm _ _ Hk).
Qed.

Lemma elems_push m k r r' l :
  m !! k = Some r -> f r' = f r ++ l -> elems (<[k := r']> m) ≡ₚ elems m ++ l.
Proof.
  intros Hk Hr. apply (Permutation_app_inv_l (f r)). pose proof (elems_insert m k r') as Hi. rewrite Hk in Hi. simpl in Hi.
  rewrite Permutation_app_comm, Hi, Hr. perm.
Qed.

Lemma elems_pop m k r r' l :
  m !! k = Some r -> f r = l ++ f r' -> elems m ≡ₚ elems (<[k := r']> m) ++ l.
Proof.
  intros Hk Hr. apply (Permutation_app_inv_l (f r')). pose proof (elems_insert m k r') as Hi. rewrite Hk in Hi. simpl in Hi.
  rewrite Permutation_app_comm, <- Hi, Hr. perm.
Qed.
End elems.

(** The domain of a map grows with an insertion. *)
Lemma insert_is_Some {K A} `{Countable K} (m : gmap K A) k x i : is_Some (m !! i) -> is_Some (<[k := x]> m !! i).
Proof. rewrite lookup_insert_is_Some'. auto. Qed.

(** * The invariant *)

(** The frame is a list of bytes, at least as long as the headers that the
    classifier reads at once, in a buffer with two more bytes, and has no IPv4 header
    of length 0 that encapsulates IPv4. *)
Definition safe_frame (buf : list Z) (len : Z) : Prop :=
  is_bytes buf = true /\ 18 <= len < 2 ^ 16 /\ len + 2 <= Z.of_nat (length buf) /\
  forall off, ETHER_HDR_LEN <= off -> off + 20 <= len -> ~ zero_ihl_ipip buf off.

Section invariant.
Context {R : Type} `{!Ring R, !RingLaws R} (E : env) (queues : list (Z * Z)) (ports : list Z).

#[local] Abbreviation world := (world R).

Implicit Types w : world.

Definition places (w : world) : list pkt :=
  elems ring_elems (w_ring w) ++ elems ring_elems (w_kni w) ++ elems id (w_tx w) ++
  (snd <$> w_sent w) ++ (snd <$> w_stack w) ++ w_kernel w ++ w_freed w.

(** A packet of one segment, or enough mbufs of the stack; and a frame that the
    classifier ends on. *)
Definition ok_pkt (p : pkt) : Prop :=
  (pk_more p = [] \/ forall n, mb_ok E n = true) /\ safe_frame (pk_buf p) (pk_dlen p).

Definition kni_on : bool := kc_ff_kni (kc E) && kc_enable_kni (kc E).

Record loop_inv (w : world) : Prop := LoopInv {
  li_rings : forall q, q ∈ queues -> is_Some (w_ring w !! q);
  li_elems : Forall ok_pkt (elems ring_elems (w_ring w));
  li_kni : kni_on = true -> forall port, port ∈ ports -> is_Some (w_kni w !! port);
  li_tx : map_Forall (fun _ (t : list pkt) => (length t < MAX_PKT_BURST)%nat) (w_tx w)
}.

(** The packets [ps] are in the hands of the running process. *)
Definition accounted (w : world) (ps : list pkt) : Prop :=
  loop_inv w /\ (pk_id <$> (places w ++ ps)) ≡ₚ seqZ 0 (w_next w) /\ 0 <= w_next w.

Lemma accounted_move w w' ps ps' :
  accounted w ps -> loop_inv w' -> w_next w' = w_next w -> places w' ++ ps' ≡ₚ places w ++ ps -> accounted w' ps'.
Proof. intros (_ & Hp & Hn) HI En Hm. unfold accounted. rewrite En. split; [done|]. by rewrite Hm. Qed.

(** A packet may change as long as it keeps its identity. *)
Lemma accounted_change w p p' ps : accounted w (p :: ps) -> pk_id p' = pk_id p -> accounted w (p' :: ps).
Proof.
  intros (HI & Hp & Hn) En. split_and!; [done| |done]. rewrite <- Hp, !fmap_app. cbn. by rewrite En.
Qed.

Lemma free_accounted w l ps : accounted w (l ++ ps) -> accounted (free_pkts l w) ps.
Proof.
  intros H. eapply accounted_move; [done| |done|unfold places; simpl; perm].
  destruct H as [[]]. by constructor.
Qed.

(** Updates of what the invariant does not mention. *)
Lemma accounted_same w w' ps :
  accounted w ps -> w_ring w' = w_ring w -> w_kni w' = w_kni w -> w_tx w' = w_tx w -> w_sent w' = w_sent w ->
  w_stack w' = w_stack w -> w_kernel w' = w_kernel w -> w_freed w' = w_freed w -> w_next w' = w_next w -> accounted w' ps.
Proof.
  intros H ? ? ? ? ? ? ? ?. destruct H as [HI [Hp Hn]]. unfold accounted, places. destruct HI. destruct w, w'; simplify_eq/=.
  split; [by constructor|done].
Qed.

Lemma enqueue_accounted w port q p ps :
  accounted w (p :: ps) -> ok_pkt p -> (port, q) ∈ queues ->
  exists w', enqueue_dispatch port q p w = Done w' /\ accounted w' ps.
Proof.
  intros H Hok Hq. destruct (li_rings w (proj1 H) _ Hq) as [r Er]. unfold enqueue_dispatch. rewrite Er.
  destruct (ring_enqueue r p) as [r'|] eqn:Ee; (eexists; split; [done|]); [|by apply (free_accounted w [p])].
  pose proof (elems_push ring_elems _ _ _ _ _ Er (enqueue_elems _ _ _ Ee)) as Hp.
  eapply accounted_move; [done| |done|unfold places; simpl; rewrite Hp; change (p :: ps) with ([p] ++ ps); perm].
  destruct H as [[H1 H2 H3 H4] _]. constructor; simpl; [|rewrite Hp; apply Forall_app; auto|done..].
  intros q' Hq'. by apply insert_is_Some, H1.
Qed.

Lemma kni_enqueue_accounted w port p ps :
  accounted w (p :: ps) -> kni_on = true -> port ∈ ports -> exists w', ff_kni_enqueue port p w = Done w' /\ accounted w' ps.
Proof.
  intros H Hon Hq. destruct (li_kni w (proj1 H) Hon _ Hq) as [r Er]. unfold ff_kni_enqueue. rewrite Er.
  destruct (ring_enqueue r p) as [r'|] eqn:Ee; (eexists; split; [done|]); [|by apply (free_accounted w [p])].
  pose proof (elems_push ring_elems _ _ _ _ _ Er (enqueue_elems _ _ _ Ee)) as Hp.
  eapply accounted_move; [done| |done|unfold places; simpl; rewrite Hp; change (p :: ps) with ([p] ++ ps); perm].
  destruct H as [[H1 H2 H3 H4] _]. constructor; simpl; [done..| |done].
  intros Hk q' Hq'. by apply insert_is_Some, H3.
Qed.

Lemma veth_segments_ok segs n : (segs = [] \/ forall n, mb_ok E n = true) -> fst (veth_segments E segs n) = true.
Proof. intros [->|Hm]; [done|]. revert n; induction segs; intros n; simpl; [done|]. by rewrite Hm. Qed.

Lemma veth_input_accounted w i port p ps :
  accounted w (p :: ps) -> ok_pkt p -> accounted (ff_veth_input E i port p w) ps.
Proof.
  intros H [Hok _]. unfold ff_veth_input. destruct (_ && _); [by apply (free_accounted w [p])|].
  destruct (mb_ok E (w_mb w)).
  - pose proof (veth_segments_ok (pk_more p) (w_mb w + 1) Hok) as Hv. destruct (veth_segments _ _ _) as [ok n]. simpl in Hv. subst ok.
    eapply accounted_move; [done| |done|].
    + destruct H as [[]]. by constructor.
    + unfold places. simpl. rewrite fmap_app. simpl. change (p :: ps) with ([p] ++ ps). perm.
  - apply (free_accounted _ [p]). by apply (accounted_same w).
Qed.

(** The copy is a new packet. *)
Lemma clone_accounted w p ps w' c :
  accounted w ps -> pktmbuf_deep_clone E p w = (w', c) ->
  match c with
  | None => accounted w' ps
  | Some c => accounted w' (c :: ps) /\ pk_more c = pk_more p /\ pk_dlen c = pk_dlen p /\
              exists r, pk_buf c = pk_data p ++ room E r
  end.
Proof.
  intros H. unfold pktmbuf_deep_clone. destruct (pool_alloc _ _ _) as [[] k]; intros [= <- <-]; [|by apply (accounted_same w)].
  split_and!; [|done..|by eexists]. destruct H as ([] & Hp & Hn). split_and!; [by constructor| |simpl; lia].
  change (w_next (set_next (w_next w + 1) _)) with (w_next w + 1). rewrite seqZ_app by lia. rewrite <- Hp.
  change (places (set_next _ _)) with (places w). rewrite !fmap_app. simpl.
  symmetry. etransitivity; [|apply Permutation_middle]. rewrite Permutation_app_comm. done.
Qed.

(** ** Transmission *)

(** A burst: the first packets are sent, the others freed. *)
Lemma transmit_accounted w port queue n l ps :
  accounted w (l ++ ps) -> accounted (free_pkts (drop n l) (add_sent ((fun p => (port, queue, p)) <$> take n l) w)) ps.
Proof.
  intros H. apply free_accounted. eapply accounted_move; [done| |done|].
  - destruct H as [[]]. by constructor.
  - unfold places. simpl. rewrite fmap_app, <- list_fmap_compose. unfold compose. simpl. rewrite list_fmap_id.
    transitivity (places w ++ (take n l ++ drop n l) ++ ps); [unfold places; perm|]. by rewrite take_drop.
Qed.

Lemma send_burst_accounted w lc port table ps :
  accounted w (table ++ ps) -> accounted (send_burst E lc port table w) ps.
Proof.
  intros H. eapply accounted_same; [exact (transmit_accounted w port (tx_queue_id lc port) (taken E table w) table ps H)|done..].
Qed.

Lemma tx_table_elems w lc port t :
  elems id (<[(lc_proc_id lc, port) := t]> (w_tx w)) ++ tx_table lc port w ≡ₚ elems id (w_tx w) ++ t.
Proof.
  pose proof (elems_insert id (w_tx w) (lc_proc_id lc, port) t) as Hi. unfold tx_table, default. exact Hi.
Qed.

(** The table of a port is exchanged for another one that is not full. *)
Lemma set_table_accounted w lc port t ps ps' :
  accounted w ps -> (length t < MAX_PKT_BURST)%nat -> t ++ ps' ≡ₚ tx_table lc port w ++ ps -> accounted (set_table lc port t w) ps'.
Proof.
  intros H Ht Hp. eapply accounted_move; [done| |done|].
  - destruct H as [[]]. constructor; simpl; [done..|]. by apply map_Forall_insert_2.
  - unfold places. simpl. set (a := elems ring_elems (w_ring w) ++ elems ring_elems (w_kni w)).
    set (c := (snd <$> w_sent w) ++ (snd <$> w_stack w) ++ w_kernel w ++ w_freed w).
    transitivity (a ++ c ++ elems id (<[(lc_proc_id lc, port) := t]> (w_tx w)) ++ ps'); [subst a c; perm|].
    rewrite (perm_exchange _ _ _ _ _ _ (tx_table_elems w lc port t) Hp). subst a c. perm.
Qed.

(** The code empties the table after the burst. *)
Lemma send_table_accounted w lc port table ps :
  accounted w ps -> forall ps', table ++ ps' ≡ₚ tx_table lc port w ++ ps ->
  accounted (set_table lc port [] (send_burst E lc port table w)) ps'.
Proof.
  intros H ps' Hp. change (set_table lc port [] _) with (send_burst E lc port table (set_table lc port [] w)).
  apply send_burst_accounted, (set_table_accounted w _ _ _ ps); [done|simpl; unfold MAX_PKT_BURST; lia|done].
Qed.

Lemma tx_table_short w lc port : loop_inv w -> (length (tx_table lc port w) < MAX_PKT_BURST)%nat.
Proof.
  intros [_ _ _ Hx]. unfold tx_table. destruct (w_tx w !! _) as [t|] eqn:Et; simpl; [|unfold MAX_PKT_BURST; lia].
  by apply (Hx _ _ Et).
Qed.

Lemma send_single_accounted w lc p port ps :
  accounted w (p :: ps) -> exists w', send_single_packet E lc p port w = Done w' /\ accounted w' ps.
Proof.
  intros H. unfold send_single_packet. pose proof (tx_table_short w lc port (proj1 H)) as Ht.
  rewrite (proj2 (Nat.ltb_lt _ _) Ht). destruct (Nat.eqb_spec (length (tx_table lc port w ++ [p])) MAX_PKT_BURST) as [El|El];
    (eexists; split; [done|]).
  - apply (send_table_accounted w _ _ _ (p :: ps)); [done|]. by rewrite <- app_assoc.
  - apply (set_table_accounted w _ _ _ (p :: ps)); [done| |by rewrite <- app_assoc]. rewrite length_app in *. simpl in *. lia.
Qed.

Lemma drain_accounted lc l w ps : accounted w ps -> accounted (drain_ports E lc l w) ps.
Proof.
  revert w; induction l as [|port l IH]; intros w H; simpl; [done|].
  destruct (tx_table lc port w) as [|p t] eqn:Et; [by apply IH|].
  apply IH, (send_table_accounted w _ _ _ ps); [done|by rewrite Et].
Qed.

(** ** Reception *)

(** The bytes behind the data of a new buffer. *)
Definition room_law : Prop := forall r, is_bytes (room E r) = true /\ (2 <= length (room E r))%nat.

(** The dispatcher returns a queue or one of the two codes, does not change the
    size of the buffer and, when the packet is kept, leaves frames that the
    classifier ends on. *)
Definition dispatcher_law : Prop :=
  match packet_dispatcher E with
  | None => True
  | Some f =>
      forall buf len q nb, safe_frame buf len ->
        let '(ret, buf', len') := f buf len q nb in
        FF_DISPATCH_RESPONSE <= ret /\ length buf' = length buf /\
        (0 <= ret -> safe_frame buf' len /\ safe_frame buf' len')
  end.

Hypothesis Hroom : room_law.
Hypothesis Hdisp : dispatcher_law.

Lemma is_bytes_app l1 l2 : is_bytes (l1 ++ l2) = is_bytes l1 && is_bytes l2.
Proof. apply forallb_app. Qed.

Lemma is_bytes_take n l : is_bytes l = true -> is_bytes (take n l) = true.
Proof. intros H. rewrite <- (take_drop n l), is_bytes_app in H. by apply andb_true_iff in H as [? _]. Qed.

Lemma safe_frame_copy buf len r :
  safe_frame buf len -> safe_frame (take (Z.to_nat len) buf ++ room E r) len.
Proof.
  intros (Hb & Hl & Hs & Hz). destruct (Hroom r) as [Hr1 Hr2]. split_and!.
  - rewrite is_bytes_app, is_bytes_take by done. done.
  - lia.
  - lia.
  - rewrite length_app, length_take. lia.
  - intros off H1 H2. specialize (Hz off H1 H2). unfold zero_ihl_ipip, ETHER_HDR_LEN in *.
    assert (Hrd : forall i, 0 <= i < len -> rd (take (Z.to_nat len) buf ++ room E r) (Z.to_nat i) = rd buf (Z.to_nat i)).
    { intros i Hi. unfold rd. rewrite app_nth1 by (rewrite length_take; lia).
      rewrite <- (take_drop (Z.to_nat len) buf) at 2. rewrite app_nth1; [done|]. rewrite length_take; lia. }
    rewrite !Hrd by lia. done.
Qed.

Lemma ok_pkt_copy p c r :
  ok_pkt p -> pk_more c = pk_more p -> pk_dlen c = pk_dlen p -> pk_buf c = pk_data p ++ room E r -> ok_pkt c.
Proof. intros [H1 H2] E1 E2 E3. unfold ok_pkt. rewrite E1, E2, E3. split; [done|]. by apply safe_frame_copy. Qed.

Lemma clone_to_rings_accounted port queue js p w ps :
  accounted w ps -> ok_pkt p -> (forall j, j ∈ js -> (port, j) ∈ queues) ->
  exists w', clone_to_rings E port queue js p w = Done w' /\ accounted w' ps.
Proof.
  intros H Hok. revert w H; induction js as [|j js IH]; intros w H Hj; [by eexists|]. cbn [clone_to_rings].
  assert (forall j, j ∈ js -> (port, j) ∈ queues) by (intros; apply Hj; by right).
  destruct (j =? queue); [by apply IH|].
  destruct (pktmbuf_deep_clone E p w) as [w1 c] eqn:Ec. apply (clone_accounted _ _ ps) in Ec; [|done].
  destruct c as [c|]; [|by apply IH]. destruct Ec as (Hc & E1 & E2 & r & E3).
  destruct (enqueue_accounted w1 port j c ps) as (w2 & -> & H2); [done|by eapply ok_pkt_copy|apply Hj; by left|].
  simpl. by apply IH.
Qed.

Lemma clone_to_kni_accounted lc port p w ps :
  accounted w ps -> port ∈ ports -> exists w', clone_to_kni E lc port p w = Done w' /\ accounted w' ps.
Proof.
  intros H Hp. unfold clone_to_kni. destruct (_ && _ && _) eqn:Ek; [|by eexists]. apply andb_true_iff in Ek as [Ek _].
  destruct (pktmbuf_deep_clone E p w) as [w1 c] eqn:Ec. apply (clone_accounted _ _ ps) in Ec; [|done].
  destruct c as [c|]; [|by eexists]. apply kni_enqueue_accounted; [apply Ec|done..].
Qed.

(** The rings of all queues of the port exist. *)
Definition port_ready (lc : lcore) (port : Z) : Prop :=
  port ∈ ports /\ forall j, 0 <= j < nb_queue_list lc port -> (port, j) ∈ queues.

Lemma deliver_accounted lc port queue filter p from_ring w ps :
  accounted w (p :: ps) -> ok_pkt p -> port_ready lc port ->
  exists w', deliver E lc port queue filter p from_ring w = Done w' /\ accounted w' ps.
Proof.
  intros H Hok [Hp Hq]. unfold deliver. destruct (copied E filter).
  - assert (H1 : exists w1, (if from_ring then Done w else clone_to_rings E port queue (seqZ 0 (nb_queue_list lc port)) p w) = Done w1 /\
              accounted w1 (p :: ps)).
    { destruct from_ring; [by eexists|]. apply clone_to_rings_accounted; [done..|].
      intros j Hj. apply elem_of_seqZ in Hj. apply Hq. lia. }
    destruct H1 as (w1 & -> & H1). cbn [mbind outcome_bind].
    destruct (clone_to_kni_accounted lc port p w1 (p :: ps)) as (w2 & -> & H2); [done..|]. simpl.
    eexists; split; [done|]. by apply veth_input_accounted.
  - destruct (to_kni E filter) eqn:Ek;
      [apply kni_enqueue_accounted; [done| |done]; unfold to_kni in Ek; by apply andb_true_iff in Ek as [Ek _]|]. eexists; split; [done|]. by apply veth_input_accounted.
Qed.

Lemma vlan_insert_id p : (14 <= length (pk_buf p))%nat -> exists p', vlan_insert p = Done p' /\ pk_id p' = pk_id p.
Proof.
  intros H. unfold vlan_insert. destruct (_ <? 4); [by eexists|].
  rewrite (proj2 (Nat.ltb_ge _ _) H). by eexists.
Qed.

Lemma safe_frame_length buf len : safe_frame buf len -> (14 <= length buf)%nat.
Proof. intros (_ & ? & ? & _). lia. Qed.

(** Either the packet is finished, or it goes on with its identity. *)
Definition verdict_accounted (v : verdict) (w : world) (ps : list pkt) : Prop :=
  match v with
  | Finished w' => accounted w' ps
  | Classify p len => accounted w (p :: ps) /\ ok_pkt p /\ safe_frame (pk_buf p) len
  end.

Lemma dispatcher_accounted lc port queue p from_ring w ps :
  accounted w (p :: ps) -> ok_pkt p -> port_ready lc port ->
  exists v, run_dispatcher E lc port queue p from_ring w = Done v /\ verdict_accounted v w ps.
Proof.
  intros H Hok [Hp Hq]. unfold run_dispatcher. pose proof Hdisp as Hf. unfold dispatcher_law in Hf.
  destruct (packet_dispatcher E) as [f|]; [|by eexists; split; [done|]; split_and!; [| |apply Hok]].
  destruct from_ring; [by eexists; split; [done|]; split_and!; [| |apply Hok]|].
  specialize (Hf (pk_buf p) (pk_dlen p) queue (nb_queue_list lc port) (proj2 Hok)).
  destruct (f _ _ _ _) as [[ret buf'] len']. destruct Hf as (Hr & Hlen & Hsafe).
  assert (H' : accounted w (set_buf buf' p :: ps)) by by eapply accounted_change.
  destruct (Z.eqb_spec ret FF_DISPATCH_RESPONSE) as [->|Hn].
  - set (p1 := set_lens len' (set_buf buf' p)).
    assert (Hv : exists p2, (if pk_vlan p1 =? 0 then Done p1 else vlan_insert p1) = Done p2 /\ pk_id p2 = pk_id p).
    { destruct (pk_vlan p1 =? 0); [by eexists|]. apply (vlan_insert_id p1). subst p1. simpl. rewrite Hlen.
      by eapply safe_frame_length, Hok. }
    destruct Hv as (p2 & -> & E2). cbn [mbind outcome_bind].
    destruct (send_single_accounted w lc p2 port ps) as (w' & -> & Hw'); [by eapply accounted_change|].
    by exists (Finished w').
  - destruct ((ret =? FF_DISPATCH_ERROR) || (ret >=? nb_queue_list lc port)) eqn:Ed.
    { eexists; split; [done|]. by apply (free_accounted w [set_buf buf' p]). }
    apply orb_false_iff in Ed as [E1 E2]. unfold FF_DISPATCH_RESPONSE, FF_DISPATCH_ERROR in *.
    apply Z.eqb_neq in E1. rewrite Z.geb_leb, Z.leb_gt in E2.
    destruct Hsafe as [Hs1 Hs2]; [lia|].
    assert (Hok' : ok_pkt (set_buf buf' p)) by (split; [apply Hok|done]).
    destruct (negb (ret =? queue)); [|by eexists].
    destruct (enqueue_accounted w port ret (set_buf buf' p) ps) as (w' & -> & Hw'); [done..|apply Hq; lia|].
    by exists (Finished w').
Qed.

Lemma safe_frame_classified buf len :
  safe_frame buf len -> exists filter, protocol_filter (kc E) buf (S (2 * Z.to_nat len)) len = Done filter.
Proof.
  intros (Hb & Hl & Hs & Hz). destruct (protocol_filter_ends (kc E) buf Hb (S (2 * Z.to_nat len)) len) as [Hd|(off & H1 & H2 & H3)];
    [lia..|done|]. by destruct (Hz off).
Qed.

Lemma process_packet_accounted lc port queue p from_ring w ps :
  accounted w (p :: ps) -> ok_pkt p -> port_ready lc port ->
  exists w', process_packet E lc port queue p from_ring w = Done w' /\ accounted w' ps.
Proof.
  intros H Hok Hr. unfold process_packet.
  set (w0 := if from_ring then w else count_rx lc p w).
  assert (H0 : accounted w0 (p :: ps)) by (subst w0; destruct from_ring; [done|by apply (accounted_same w)]).
  destruct (dispatcher_accounted lc port queue p from_ring w0 ps) as (v & -> & Hv); [done..|]. cbn [mbind outcome_bind].
  destruct v as [w'|p' len]; [by eexists|]. destruct Hv as (Hp & Hok' & Hs).
  destruct (safe_frame_classified _ _ Hs) as [filter ->]. simpl. by apply deliver_accounted.
Qed.

Lemma process_packets_accounted lc port queue l from_ring w ps :
  accounted w (l ++ ps) -> Forall ok_pkt l -> port_ready lc port ->
  exists w', process_packets E lc port queue l from_ring w = Done w' /\ accounted w' ps.
Proof.
  intros H Hl Hr. revert w H; induction Hl as [|p l Hp Hl IH]; intros w H; simpl; [by eexists|].
  destruct (process_packet_accounted lc port queue p from_ring w (l ++ ps)) as (w1 & -> & H1); [done..|]. simpl. by apply IH.
Qed.

Lemma dispatch_ring_accounted lc port queue w ps :
  accounted w ps -> port_ready lc port -> (port, queue) ∈ queues ->
  exists w', process_dispatch_ring E lc port queue w = Done w' /\ accounted w' ps.
Proof.
  intros H Hr Hq. destruct (li_rings w (proj1 H) _ Hq) as [r Er]. unfold process_dispatch_ring. rewrite Er.
  destruct (ring_dequeue r MAX_PKT_BURST) as [l r'] eqn:Ed. apply dequeue_elems in Ed as [Ed _].
  pose proof (elems_pop ring_elems _ _ _ _ _ Er Ed) as Hpop.
  pose proof (li_elems w (proj1 H)) as Hf. rewrite Hpop, Forall_app in Hf. destruct Hf as [Hf1 Hf2].
  apply process_packets_accounted; [|done..]. eapply accounted_move; [done| |done|].
  - destruct H as [[H1 H2 H3 H4] _]. constructor; simpl; [|done..]. intros q' Hq'. by apply insert_is_Some, H1.
  - unfold places. simpl. rewrite Hpop. perm.
Qed.

(** ** Packets from outside *)

Lemma number_ids n l : pk_id <$> number n l = seqZ n (Z.of_nat (length l)).
Proof.
  unfold number. rewrite fmap_zip_with_l; [done|done|]. rewrite length_seqZ. lia.
Qed.

Lemma number_length n l : length (number n l) = length l.
Proof. unfold number. rewrite length_zip_with, length_seqZ. lia. Qed.

Lemma number_ok n l : Forall ok_pkt l -> Forall ok_pkt (number n l).
Proof.
  intros H. unfold number. generalize (seqZ n (Z.of_nat (length l))). induction H; intros [|i ids]; simpl; constructor; auto.
Qed.

Lemma arrive_accounted l w ps : accounted w ps -> accounted (arrive l w) (number (w_next w) l ++ ps).
Proof.
  intros ([] & Hp & Hn). split_and!; [by constructor| |simpl; lia].
  change (w_next (arrive l w)) with (w_next w + Z.of_nat (length l)). rewrite seqZ_app by lia.
  change (places (arrive l w)) with (places w). rewrite <- Hp, !fmap_app, number_ids, Z.add_0_l. perm.
Qed.

Lemma rx_burst_accounted lc port queue l w ps :
  accounted w ps -> Forall ok_pkt l -> port_ready lc port ->
  exists w', rx_burst E lc port queue l w = Done w' /\ accounted w' ps.
Proof.
  intros H Hl Hr. unfold rx_burst. apply process_packets_accounted; [by apply arrive_accounted|by apply number_ok|done].
Qed.

Lemma stack_send_accounted lc port p w ps :
  accounted w ps -> exists w', stack_send E lc port p w = Done w' /\ accounted w' ps.
Proof. intros H. apply send_single_accounted. exact (arrive_accounted [p] w ps H). Qed.

Lemma kni_tx_accounted port w ps :
  accounted w ps -> kni_on = true -> port ∈ ports -> exists w', kni_process_tx E port w = Done w' /\ accounted w' ps.
Proof.
  intros H Hon Hp. destruct (li_kni w (proj1 H) Hon _ Hp) as [r Er]. unfold kni_process_tx. rewrite Er.
  destruct (ring_dequeue r MAX_PKT_BURST) as [l r'] eqn:Ed. apply dequeue_elems in Ed as [Ed _].
  pose proof (elems_pop ring_elems _ _ _ _ _ Er Ed) as Hpop. eexists; split; [done|]. set (n := taken E l w).
  eapply (accounted_same (free_pkts (drop n l) (add_kernel (take n l) (set_kni (<[port:=r']> (w_kni w)) w)))); [|done..].
  apply free_accounted. eapply accounted_move; [done| |done|].
  - destruct H as [[H1 H2 H3 H4] _]. constructor; simpl; [done..| |done]. intros Hk q' Hq'. by apply insert_is_Some, H3.
  - unfold places. simpl. rewrite Hpop.
    transitivity (elems ring_elems (w_ring w) ++ elems ring_elems (<[port := r']> (w_kni w)) ++ (take n l ++ drop n l) ++ elems id (w_tx w) ++
      (snd <$> w_sent w) ++ (snd <$> w_stack w) ++ w_kernel w ++ w_freed w ++ ps); [perm|]. rewrite take_drop. perm.
Qed.

Lemma kni_rx_accounted port queue l w ps : accounted w ps -> accounted (kni_process_rx E port queue l w) ps.
Proof.
  intros H. unfold kni_process_rx. destruct l as [|p l]; [done|]. apply (arrive_accounted (p :: l)) in H.
  set (l' := number (w_next w) (p :: l)) in *.
  assert (Ea : arrive l' w = arrive (p :: l) w) by (unfold arrive; subst l'; by rewrite number_length).
  rewrite Ea. eapply accounted_same;
    [exact (transmit_accounted _ port queue (taken E l' (arrive (p :: l) w)) l' ps H)|done..].
Qed.

(** ** The main loop *)

(** The queues of the process have rings. *)
Definition lcore_ready (lc : lcore) : Prop :=
  forall port queue, (port, queue) ∈ lc_rx lc -> port_ready lc port /\ (port, queue) ∈ queues.

Lemma poll_queues_accounted lc l rx krx w :
  accounted w [] -> (forall port queue, (port, queue) ∈ l -> port_ready lc port /\ (port, queue) ∈ queues) ->
  (forall q, Forall ok_pkt (rx q)) ->
  exists w', poll_queues E lc l rx krx w = Done w' /\ accounted w' [].
Proof.
  intros H Hl Hrx. revert w H; induction l as [|[port queue] l IH]; intros w H; cbn [poll_queues]; [by eexists|].
  destruct (Hl port queue) as [Hr Hq]; [by left|].
  set (o := if _ : bool then _ else Done w).
  assert (Hk : exists w1, o = Done w1 /\ accounted w1 []).
  { subst o. destruct (_ && _ && _) eqn:Ek; [|by eexists]. apply andb_true_iff in Ek as [Ek _]. unfold ff_kni_process.
    destruct (kni_tx_accounted port w []) as (w1 & -> & H1); [done|done|apply Hr|]. simpl.
    eexists; split; [done|]. by apply kni_rx_accounted. }
  destruct Hk as (w1 & -> & H1). cbn [mbind outcome_bind].
  destruct (dispatch_ring_accounted lc port queue w1 []) as (w2 & -> & H2); [done..|]. cbn [mbind outcome_bind].
  destruct (rx_burst_accounted lc port queue (rx (port, queue)) w2 []) as (w3 & -> & H3); [done..|]. cbn [mbind outcome_bind].
  apply IH; [|done]. intros. apply Hl. by right.
Qed.

Lemma main_loop_turn_accounted lc drain rx krx w :
  accounted w [] -> lcore_ready lc -> (forall q, Forall ok_pkt (rx q)) ->
  exists w', main_loop_turn E lc drain rx krx w = Done w' /\ accounted w' [].
Proof.
  intros H Hl Hrx. unfold main_loop_turn. apply poll_queues_accounted; [|done..].
  destruct drain; [by apply drain_accounted|done].
Qed.
End invariant.
