(* ===== verification/DispatchProps.v ===== *)
(** The properties of the packet loop (Dispatch): the queues of a configuration
    are shared out among the processes, packets are neither lost nor doubled, ARP
    frames reach all processes, and the rings drain. *)
From stdpp Require Import base list gmap.
From Stdlib Require Import ZArith Lia.
From S2P Require Import Prelude CStr ProtoFilter Config ConfigSpec Dispatch DispatchSpec.

Local Open Scope Z_scope.

(** * Queues and processes *)

Lemma find_queue_spec cores c i q :
  (find_queue cores c i q = q /\ c ∉ cores) \/
  exists k, cores !! k = Some c /\ find_queue cores c i q = i + Z.of_nat k.
Proof.
  revert i q; induction cores as [|x cores IH]; intros i q; [left; split; [done|set_solver]|]. cbn [find_queue].
  destruct (IH (i + 1) (if x =? c then i else q)) as [[-> Hn]|(k & Hk & ->)]; [|right; exists (S k); split; [done|lia]].
  destruct (Z.eqb_spec x c) as [->|Hx]; [right; exists 0%nat; split; [done|lia]|].
  left. split; [done|]. rewrite not_elem_of_cons. auto.
Qed.

Definition cores_of (pc : ff_port_cfg) : list Z := take (Z.to_nat (p_nb_lcores pc)) (p_lcore_list pc).

Section lcore_ports.
Context (pcs : list ff_port_cfg) (lcore_id : Z).

(** An entry of rx_queue_list: a position of the core in the port's list. *)
Definition entry_ok (lc : lcore) (port q : Z) : Prop :=
  exists pc k, aread pcs port = Done pc /\ cores_of pc !! k = Some lcore_id /\ q = u16 (Z.of_nat k) /\
    nb_queue_list lc port = u16 (p_nb_lcores pc).

Lemma lcore_ports_sound ports lc lc' :
  lcore_ports pcs ports lcore_id lc = Done lc' ->
  (forall port q, (port, q) ∈ lc_rx lc -> entry_ok lc port q) ->
  forall port q, (port, q) ∈ lc_rx lc' -> entry_ok lc' port q /\ ((port, q) ∈ lc_rx lc \/ port ∈ ports).
Proof.
  revert lc; induction ports as [|x ports IH]; intros lc; cbn [lcore_ports]; [intros [= <-]; auto|].
  destruct (aread pcs x) as [pc| |] eqn:Ex; [|done..]. cbn [mbind outcome_bind].
  destruct (find_queue_spec (cores_of pc) lcore_id 0 (-1)) as [[Ef _]|(k & Hk & Ef)]; fold (cores_of pc); rewrite Ef.
  - simpl. intros H Hl port q Hq. destruct (IH _ H Hl _ _ Hq) as [He [Hr|Hr]]; split; [done|by left|done|right; by right].
  - rewrite (proj2 (Z.ltb_ge _ _)) by lia. destruct (_ <? _)%nat; [|done]. intros H Hl port q Hq.
    destruct (IH _ H) with (port := port) (q := q) as [He Hr]; [|done|].
    + intros port' q'. simpl. rewrite elem_of_app, list_elem_of_singleton. unfold entry_ok, nb_queue_list. simpl.
      intros [Hin|[= -> ->]].
      * destruct (Hl _ _ Hin) as (pc' & k' & E1 & E2 & E3 & E4). exists pc', k'. split_and!; try done.
        destruct (decide (x = port')) as [->|]; [|by rewrite lookup_insert_ne].
        rewrite lookup_insert_eq. rewrite Ex in E1. by injection E1 as <-.
      * exists pc, k. rewrite lookup_insert_eq. split_and!; done.
    + split; [done|]. destruct Hr as [Hr|Hr]; [|right; by right]. simpl in Hr.
      rewrite elem_of_app, list_elem_of_singleton in Hr. destruct Hr as [Hr|[= -> ->]]; [by left|right; by left].
Qed.

(** Every port of the list that has the core gets an entry. *)
Lemma lcore_ports_mono ports lc lc' x :
  lcore_ports pcs ports lcore_id lc = Done lc' -> x ∈ lc_rx lc -> x ∈ lc_rx lc'.
Proof.
  revert lc; induction ports as [|y ports IH]; intros lc; cbn [lcore_ports]; [by intros [= <-]|].
  destruct (aread pcs y) as [pc| |]; [|done..]. cbn [mbind outcome_bind].
  destruct (_ <? 0); [apply IH|]. destruct (_ <? _)%nat; [|done]. intros H Hx. apply (IH _ H). simpl.
  apply elem_of_app. by left.
Qed.

Lemma lcore_ports_complete ports lc lc' port pc :
  lcore_ports pcs ports lcore_id lc = Done lc' -> port ∈ ports -> aread pcs port = Done pc -> lcore_id ∈ cores_of pc ->
  exists k, cores_of pc !! k = Some lcore_id /\ (port, u16 (Z.of_nat k)) ∈ lc_rx lc'.
Proof.
  revert lc; induction ports as [|x ports IH]; intros lc; cbn [lcore_ports]; [by intros _ ?%not_elem_of_nil|].
  intros H [->|Hp]%elem_of_cons Ea Hc.
  - rewrite Ea in H. cbn [mbind outcome_bind] in H. fold (cores_of pc) in H.
    destruct (find_queue_spec (cores_of pc) lcore_id 0 (-1)) as [[_ ?]|(k & Hk & Ef)]; [done|]. exists k. split; [done|].
    rewrite Ef, (proj2 (Z.ltb_ge _ _)) in H by lia. destruct (_ <? _)%nat; [|done].
    eapply lcore_ports_mono; [done|]. simpl. apply elem_of_app. right. by apply list_elem_of_singleton.
  - destruct (aread pcs x) as [pc'| |]; [|done..]. cbn [mbind outcome_bind] in H.
    destruct (_ <? 0); [by eapply IH|]. destruct (_ <? _)%nat; [|done]. by eapply IH.
Qed.
End lcore_ports.

(** The configuration of process [i]. *)
Definition with_proc (i : Z) (cfg : ff_config) : ff_config := on_dpdk (set_proc_id i) cfg.

Lemma init_lcore_conf_inv nd det cfg pcs cores ports i lc :
  init_lcore_conf nd det (with_proc i cfg) = Done lc ->
  port_cfgs (dpdk cfg) = Some pcs -> proc_lcore (dpdk cfg) = Some cores -> portid_list (dpdk cfg) = Some ports -> 0 <= i < 2 ^ 16 ->
  exists c, cores !! Z.to_nat i = Some c /\
    lcore_ports pcs (take (Z.to_nat (nb_ports (dpdk cfg))) ports) c (Lcore i [] ∅ ∅) = Done lc.
Proof.
  intros H E1 E2 E3 Hi. unfold init_lcore_conf, with_proc in H. simpl in H. rewrite E1, E2, E3 in H.
  rewrite wrapu_small in H by done. simpl in H.
  destruct (nd =? 0); [done|]. destruct (_ >=? _); [done|]. destruct (forallb _ _); [|done].
  destruct (aread cores i) as [c| |] eqn:Ea; [|done..]. apply aread_done in Ea as [_ Ea]. simpl in H.
  exists c. split; [done|]. destruct (lcore_ports _ _ _ _) as [lc'| |]; [|done..]. simpl in H. by destruct (lc_rx lc').
Qed.

Lemma lookup_unique (l : list Z) i j x : NoDup l -> l !! i = Some x -> l !! j = Some x -> i = j.
Proof. intros H ? ?. by eapply NoDup_lookup. Qed.

(** In a configuration where the processes run on different cores and a
    port's list names each of its cores once and only cores of processes, every
    queue of the port is polled by exactly one process. *)
Theorem queue_one_owner nd det cfg pcs cores ports port pc q (lcs : Z -> lcore) :
  port_cfgs (dpdk cfg) = Some pcs -> proc_lcore (dpdk cfg) = Some cores -> portid_list (dpdk cfg) = Some ports ->
  0 <= nb_procs (dpdk cfg) < 2 ^ 16 ->
  NoDup (take (Z.to_nat (nb_procs (dpdk cfg))) cores) ->
  (forall i, 0 <= i < nb_procs (dpdk cfg) -> init_lcore_conf nd det (with_proc i cfg) = Done (lcs i)) ->
  port ∈ take (Z.to_nat (nb_ports (dpdk cfg))) ports -> aread pcs port = Done pc ->
  0 <= p_nb_lcores pc <= Z.of_nat (length (p_lcore_list pc)) -> p_nb_lcores pc < 2 ^ 16 ->
  NoDup (cores_of pc) -> (forall c, c ∈ cores_of pc -> c ∈ take (Z.to_nat (nb_procs (dpdk cfg))) cores) ->
  0 <= q < p_nb_lcores pc ->
  exists i, (0 <= i < nb_procs (dpdk cfg) /\ (port, q) ∈ lc_rx (lcs i)) /\
    forall j, 0 <= j < nb_procs (dpdk cfg) -> (port, q) ∈ lc_rx (lcs j) -> j = i.
Proof.
  intros E1 E2 E3 Hn Hd Hl Hp Ep Hnb Hnb' Hdc Hsub Hq.
  assert (Hlen : length (cores_of pc) = Z.to_nat (p_nb_lcores pc)) by (unfold cores_of; rewrite length_take; lia).
  destruct (lookup_lt_is_Some_2 (cores_of pc) (Z.to_nat q)) as [c Hc]; [lia|].
  assert (Hci : c ∈ take (Z.to_nat (nb_procs (dpdk cfg))) cores) by (apply Hsub; by eapply list_elem_of_lookup_2).
  apply list_elem_of_lookup_1 in Hci as [i Hi]. pose proof (lookup_lt_Some _ _ _ Hi) as Hlt. rewrite length_take in Hlt.
  exists (Z.of_nat i). split.
  - split; [lia|]. assert (Hin : 0 <= Z.of_nat i < nb_procs (dpdk cfg)) by lia.
    destruct (init_lcore_conf_inv _ _ _ _ _ _ _ _ (Hl _ Hin) E1 E2 E3) as (c' & Hc' & H'); [lia|].
    rewrite Nat2Z.id in Hc'. rewrite lookup_take_lt in Hi by lia. simplify_eq.
    destruct (lcore_ports_complete _ _ _ _ _ _ _ H' Hp Ep) as (k & Hk & Hin'); [by eapply list_elem_of_lookup_2|].
    rewrite (lookup_unique _ _ _ _ Hdc Hk Hc) in Hin'. rewrite Z2Nat.id, wrapu_small in Hin' by lia. done.
  - intros j Hj Hjq. destruct (init_lcore_conf_inv _ _ _ _ _ _ _ _ (Hl _ Hj) E1 E2 E3) as (c' & Hc' & H'); [lia|].
    destruct (lcore_ports_sound _ _ _ _ _ H') with (port := port) (q := q) as [(pc' & k & Ea & Hk & Ek & _) _];
      [by intros ? ? ?%not_elem_of_nil|done|].
    rewrite Ep in Ea. injection Ea as <-. pose proof (lookup_lt_Some _ _ _ Hk) as Hkl.
    rewrite wrapu_small in Ek by lia. subst q. rewrite Nat2Z.id, Hk in Hc. injection Hc as ->.
    assert (Z.to_nat j = i); [|lia]. eapply (lookup_unique _ _ _ _ Hd); [|done]. by rewrite lookup_take_lt by lia.
Qed.

(** * The rings of a configuration *)

Section rings.
Context {R : Type} (ring_new : Z * Z -> R).

(** New rings only; the ones there are stay. *)
Definition grows (m m' : gmap (Z * Z) R) : Prop :=
  m ⊆ m' /\ forall k r, m' !! k = Some r -> m !! k = Some r \/ r = ring_new k.

Lemma grows_trans m1 m2 m3 : grows m1 m2 -> grows m2 m3 -> grows m1 m3.
Proof. intros [H1 H2] [H3 H4]. split; [by etrans|]. intros k r [?|?]%H4; auto. Qed.

Lemma port_rings_spec port qs m m' :
  port_rings ring_new port qs m = Done m' -> grows m m' /\ forall j, j ∈ qs -> is_Some (m' !! (port, j)).
Proof.
  revert m; induction qs as [|q qs IH]; intros m; cbn [port_rings].
  - intros [= <-]. split; [split; [done|auto]|by intros ? ?%not_elem_of_nil].
  - destruct (m !! (port, q)) as [|] eqn:Eq; [done|]. intros [Hg Hj]%IH. split.
    + eapply grows_trans; [|done]. split; [by apply insert_subseteq|].
      intros k r. rewrite lookup_insert_Some. intros [[<- <-]|[_ ?]]; auto.
    + intros j [->|?]%elem_of_cons; [|auto]. destruct Hg as [Hs _].
      exists (ring_new (port, q)). eapply lookup_weaken; [|done]. by rewrite lookup_insert_eq.
Qed.

Lemma dispatch_rings_spec pcs ports m m' :
  dispatch_rings ring_new pcs ports m = Done m' ->
  grows m m' /\ forall port pc j, port ∈ ports -> aread pcs port = Done pc -> 0 <= j < p_nb_lcores pc -> is_Some (m' !! (port, j)).
Proof.
  revert m; induction ports as [|x ports IH]; intros m; cbn [dispatch_rings].
  - intros [= <-]. split; [split; [done|auto]|by intros ? ? ? ?%not_elem_of_nil].
  - destruct (aread pcs x) as [pcx| |] eqn:Ex; [|done..]. cbn [mbind outcome_bind].
    destruct (port_rings _ _ _ _) as [m1| |] eqn:Em; [|done..]. cbn [mbind outcome_bind].
    apply port_rings_spec in Em as [Hg1 Hj1]. intros [Hg2 Hj2]%IH. split; [by eapply grows_trans|].
    intros port pc j [->|?]%elem_of_cons Ep Hj; [|by eapply Hj2]. rewrite Ex in Ep. injection Ep as <-.
    destruct (Hj1 j) as [r Hr]; [apply elem_of_seqZ; lia|]. exists r. eapply lookup_weaken; [done|apply Hg2].
Qed.
End rings.

(** * The runs of the processes *)

(** A turn of a process's main loop, or a packet that its stack sends. *)
Inductive event :=
| Turn (lc : lcore) (drain : bool) (rx krx : Z * Z -> list pkt)
| Send (lc : lcore) (port : Z) (p : pkt).

Section run.
Context {R : Type} `{!Ring R} (E : env).

Definition event_step (e : event) (w : world R) : outcome (world R) :=
  match e with
  | Turn lc drain rx krx => main_loop_turn E lc drain rx krx w
  | Send lc port p => stack_send E lc port p w
  end.

Fixpoint run_events (es : list event) (w : world R) : outcome (world R) :=
  match es with
  | [] => Done w
  | e :: r => w1 ← event_step e w; run_events r w1
  end.

(** The processes are those of the configuration; the NIC delivers well formed
    frames. *)
Definition event_ok (nd : Z) (det : Z -> bool) (cfg : ff_config) (e : event) : Prop :=
  match e with
  | Turn lc _ rx _ =>
      (exists i, 0 <= i < 2 ^ 16 /\ init_lcore_conf nd det (with_proc i cfg) = Done lc) /\ forall q, Forall (ok_pkt E) (rx q)
  | Send _ _ _ => True
  end.

Definition init_world (rings : gmap (Z * Z) R) (knis : gmap Z R) : world R :=
  World rings knis ∅ ∅ [] [] [] [] ∅ 0 0 0 0.
End run.

Section ready.
Context {R : Type} `{!Ring R, !RingLaws R} (E : env).
Context (nd : Z) (det : Z -> bool) (cfg : ff_config) (pcs : list ff_port_cfg) (cores ports : list Z).
Hypothesis Epcs : port_cfgs (dpdk cfg) = Some pcs.
Hypothesis Ecores : proc_lcore (dpdk cfg) = Some cores.
Hypothesis Eports : portid_list (dpdk cfg) = Some ports.
Hypothesis Hpcs : Forall (fun pc => 0 <= p_nb_lcores pc < 2 ^ 16) pcs.

#[local] Abbreviation used := (take (Z.to_nat (nb_ports (dpdk cfg))) ports).

Lemma lcore_ready_init (ring_new : Z * Z -> R) rings i lc :
  init_dispatch_ring ring_new cfg = Done rings -> 0 <= i < 2 ^ 16 -> init_lcore_conf nd det (with_proc i cfg) = Done lc ->
  lcore_ready (map_to_list rings).*1 used lc.
Proof.
  intros Hr Hi Hc. unfold init_dispatch_ring in Hr. rewrite Epcs, Eports in Hr. simpl in Hr.
  apply dispatch_rings_spec in Hr as [_ Hr].
  destruct (init_lcore_conf_inv _ _ _ _ _ _ _ _ Hc Epcs Ecores Eports Hi) as (c & _ & Hl).
  intros port q Hq. destruct (lcore_ports_sound _ _ _ _ _ Hl) with (port := port) (q := q) as [(pc & k & Ea & Hk & -> & Hn) Hin];
    [by intros ? ? ?%not_elem_of_nil|done|].
  destruct Hin as [Hin|Hin]; [by apply not_elem_of_nil in Hin|].
  pose proof (aread_done _ _ _ Ea) as [_ Hpc]. pose proof (Forall_lookup_1 _ _ _ _ Hpcs Hpc) as Hb. simpl in Hb.
  assert (Hk' : Z.of_nat k < p_nb_lcores pc).
  { apply lookup_lt_Some in Hk. unfold cores_of in Hk. rewrite length_take in Hk. lia. }
  rewrite !wrapu_small in * by lia.
  assert (Hin' : forall j, 0 <= j < p_nb_lcores pc -> (port, j) ∈ (map_to_list rings).*1).
  { intros j Hj. destruct (Hr port pc j) as [r Hrj]; [done..|]. apply (list_elem_of_fmap_2 fst _ ((port, j), r)).
    by apply elem_of_map_to_list. }
  split; [|apply Hin'; lia]. split; [done|]. intros j Hj. apply Hin'. lia.
Qed.

(** The rings are empty when the processes start. *)
Lemma init_accounted (ring_new : Z * Z -> R) rings knis :
  init_dispatch_ring ring_new cfg = Done rings -> (forall q, ring_elems (ring_new q) = []) ->
  (kni_on E = true -> forall port, port ∈ used -> is_Some (knis !! port)) ->
  (forall port r, knis !! port = Some r -> ring_elems r = []) ->
  accounted E (map_to_list rings).*1 used (init_world rings knis) [].
Proof.
  intros Hr Hnew Hk Hk'. unfold init_dispatch_ring in Hr. rewrite Epcs, Eports in Hr. simpl in Hr.
  apply dispatch_rings_spec in Hr as [[_ Hg] _].
  assert (He : elems ring_elems rings = []).
  { apply elems_nil. intros k r Hkr. destruct (Hg _ _ Hkr) as [Hn| ->]; [by rewrite lookup_empty in Hn|apply Hnew]. }
  split_and!; [constructor; simpl| |done].
  - intros q ([k r] & -> & Hq)%list_elem_of_fmap. apply elem_of_map_to_list in Hq. by eexists.
  - by rewrite He.
  - done.
  - apply map_Forall_empty.
  - unfold places. simpl. rewrite He, (elems_nil _ knis), elems_empty by exact Hk'. done.
Qed.
End ready.

(** C25. Whatever the processes of the configuration do - turns of their main
    loops in any order and packets sent by their stacks - on acceptable frames, no
    operation faults, and afterwards every packet that ever existed (received,
    sent by the stack or KNI, or made as a copy) is in exactly one place: a ring, a
    transmit table, given to the NIC, the stack or the kernel, or freed; and no
    transmit table is full.  Acceptable ([ok_pkt]): the packet has one segment or no
    mbuf of the stack is ever refused, since otherwise ff_veth_input frees it twice
    ([veth_double_free]); its frame has 18 to 65535 bytes in a buffer with two more,
    and at no offset an IPv4 header of length 0 that encapsulates IPv4, on which the
    classifier does not end ([safe_frame]).  A dispatcher of the application keeps
    frames acceptable and returns a queue or one of its two codes
    ([dispatcher_law]). *)
Theorem packets_accounted {R : Type} `{!Ring R, !RingLaws R} (E : env) nd det cfg pcs cores ports
  (ring_new : Z * Z -> R) rings knis es :
  room_law E -> dispatcher_law E ->
  port_cfgs (dpdk cfg) = Some pcs -> proc_lcore (dpdk cfg) = Some cores -> portid_list (dpdk cfg) = Some ports ->
  Forall (fun pc => 0 <= p_nb_lcores pc < 2 ^ 16) pcs ->
  init_dispatch_ring ring_new cfg = Done rings -> (forall q, ring_elems (ring_new q) = []) ->
  (kni_on E = true -> forall port, port ∈ take (Z.to_nat (nb_ports (dpdk cfg))) ports -> is_Some (knis !! port)) ->
  (forall port r, knis !! port = Some r -> ring_elems r = []) ->
  Forall (event_ok E nd det cfg) es ->
  exists w, run_events E es (init_world rings knis) = Done w /\
    (pk_id <$> places w) ≡ₚ seqZ 0 (w_next w) /\
    forall k t, w_tx w !! k = Some t -> (length t < MAX_PKT_BURST)%nat.
Proof.
  intros Hroom Hdisp E1 E2 E3 Hpcs Hr Hnew Hk Hk' Hes.
  pose proof (init_accounted E _ _ _ E1 E3 ring_new rings knis Hr Hnew Hk Hk') as H. revert H.
  generalize (init_world rings knis); induction Hes as [|e es He Hes IH]; intros w H.
  - exists w. destruct H as (Hi & Hp & _). rewrite app_nil_r in Hp. split_and!; [done..|]. apply Hi.
  - cbn [run_events]. assert (Hs : exists w1, event_step E e w = Done w1 /\ accounted E (map_to_list rings).*1
        (take (Z.to_nat (nb_ports (dpdk cfg))) ports) w1 []).
    { destruct e as [lc drain rx krx|lc port p]; simpl; [|by apply stack_send_accounted]. destruct He as [(i & Hi & Hc) Hrx].
      apply main_loop_turn_accounted; [done..| |done]. by eapply lcore_ready_init. }
    destruct Hs as (w1 & -> & H1). simpl. by apply IH.
Qed.

(** * Copies of ARP and NDP *)

Section copies.
Context {R : Type} `{!Ring R, !RingLaws R} (E : env).
Implicit Types w : world R.
Hypothesis Hpool : forall n, pool_ok E n = true.

(** A ring with room for one more packet. *)
Definition has_room (r : R) : Prop := forall p, is_Some (ring_enqueue r p).

(** The ring got a packet with the same data. *)
Definition got_copy (p : pkt) (o o' : option R) : Prop :=
  exists r r' c, o = Some r /\ o' = Some r' /\ ring_elems r' = ring_elems r ++ [c] /\ pk_data c = pk_data p /\ pk_more c = pk_more p.

Lemma pool_alloc_ok n k : pool_alloc E n k = (true, k + Z.of_nat n).
Proof.
  revert k; induction n as [|n IH]; intros k; cbn [pool_alloc]; [f_equal; lia|]. rewrite Hpool, IH. f_equal. lia.
Qed.

Lemma clone_ok p w : 0 <= pk_dlen p <= Z.of_nat (length (pk_buf p)) ->
  exists w1 c, pktmbuf_deep_clone E p w = (w1, Some c) /\ pk_data c = pk_data p /\ pk_more c = pk_more p /\
    w_ring w1 = w_ring w /\ w_kni w1 = w_kni w /\ w_stack w1 = w_stack w.
Proof.
  intros Hl. unfold pktmbuf_deep_clone. rewrite pool_alloc_ok. do 2 eexists. split; [done|]. split_and!; [|done..].
  unfold pk_data. simpl. apply take_app_length'. rewrite length_take. lia.
Qed.

Lemma enqueue_room {p w port q r} :
  w_ring w !! (port, q) = Some r -> has_room r ->
  exists w' r', enqueue_dispatch port q p w = Done w' /\ ring_elems r' = ring_elems r ++ [p] /\
    w_ring w' = <[(port, q) := r']> (w_ring w) /\ w_kni w' = w_kni w /\ w_stack w' = w_stack w.
Proof.
  intros Er Hr. destruct (Hr p) as [r' Ee]. unfold enqueue_dispatch. rewrite Er, Ee.
  do 2 eexists. split; [done|]. split; [by apply enqueue_elems|done].
Qed.

Lemma clone_to_rings_all port queue js p w :
  NoDup js -> 0 <= pk_dlen p <= Z.of_nat (length (pk_buf p)) ->
  (forall j, j ∈ js -> j <> queue -> exists r, w_ring w !! (port, j) = Some r /\ has_room r) ->
  exists w', clone_to_rings E port queue js p w = Done w' /\ w_kni w' = w_kni w /\ w_stack w' = w_stack w /\
    (forall j, j ∈ js -> j <> queue -> got_copy p (w_ring w !! (port, j)) (w_ring w' !! (port, j))) /\
    (forall i j, i <> port \/ j = queue \/ j ∉ js -> w_ring w' !! (i, j) = w_ring w !! (i, j)).
Proof.
  intros Hd Hl. revert w; induction Hd as [|j js Hj Hd IH]; intros w Hr; cbn [clone_to_rings].
  - exists w. split_and!; [done..|by intros ? ?%not_elem_of_nil|done].
  - destruct (Z.eqb_spec j queue) as [->|Hq].
    { destruct (IH w) as (w' & -> & H1 & H2 & H3 & H4); [intros; apply Hr; [by right|done]|]. exists w'. split_and!; [done..| |].
      - intros j' [->|?]%elem_of_cons; [done|auto].
      - intros i j' Hi. apply H4. rewrite not_elem_of_cons in Hi. naive_solver. }
    destruct (clone_ok p w Hl) as (w1 & c & -> & Ec & Em & E1 & E2 & E3).
    destruct (Hr j) as (r & Er & Hroom); [by left|done|]. rewrite <- E1 in Er.
    destruct (enqueue_room (p := c) Er Hroom) as (w2 & r2 & -> & Ee & F1 & F2 & F3). cbn [mbind outcome_bind].
    assert (Hne : forall j', j' ∈ js -> w_ring w2 !! (port, j') = w_ring w !! (port, j')).
    { intros j' Hj'. rewrite F1, lookup_insert_ne, E1 by (intros [= ->]; done). done. }
    destruct (IH w2) as (w' & -> & H1 & H2 & H3 & H4).
    { intros j' Hj' Hq'. rewrite Hne by done. apply Hr; [by right|done]. }
    exists w'. split_and!; [done|congruence|congruence| |].
    + intros j' [->|Hj']%elem_of_cons Hq'; [|rewrite <- Hne by done; auto].
      rewrite (H4 port j), F1, lookup_insert_eq, <- E1, Er by auto. by exists r, r2, c.
    + intros i j' Hi. rewrite not_elem_of_cons in Hi.
      rewrite H4, F1, lookup_insert_ne, E1 by (naive_solver congruence). done.
Qed.

Lemma clone_to_kni_all lc port p w :
  0 <= pk_dlen p <= Z.of_nat (length (pk_buf p)) ->
  (kni_on E && primary E (lc_proc_id lc) = true -> exists r, w_kni w !! port = Some r /\ has_room r) ->
  exists w', clone_to_kni E lc port p w = Done w' /\ w_ring w' = w_ring w /\ w_stack w' = w_stack w /\
    (kni_on E && primary E (lc_proc_id lc) = true -> got_copy p (w_kni w !! port) (w_kni w' !! port)).
Proof.
  intros Hl Hr. unfold clone_to_kni. fold (kni_on E). destruct (kni_on E && primary E (lc_proc_id lc)) eqn:Ek; [|by exists w].
  destruct (clone_ok p w Hl) as (w1 & c & -> & Ec & Em & E1 & E2 & E3). destruct Hr as (r & Er & Hroom); [done|].
  destruct (Hroom c) as [r' Ee]. unfold ff_kni_enqueue. rewrite E2, Er, Ee. eexists. split_and!; [done|done|done|].
  intros _. simpl. rewrite lookup_insert_eq. exists r, r', c. split_and!; [done|done|by apply enqueue_elems|done|done].
Qed.
End copies.

(** The dispatcher leaves the packet to the queue it came from. *)
Definition keeps (E : env) (lc : lcore) (port queue : Z) (p : pkt) (len : Z) : Prop :=
  match packet_dispatcher E with
  | None => len = pk_dlen p
  | Some f => f (pk_buf p) (pk_dlen p) queue (nb_queue_list lc port) = (queue, pk_buf p, len)
  end.

Lemma keeps_classify {R} `{!Ring R} (E : env) lc port queue p len (w : world R) :
  0 <= queue < nb_queue_list lc port -> keeps E lc port queue p len ->
  run_dispatcher E lc port queue p false w = Done (Classify p len).
Proof.
  intros Hq Hk. unfold run_dispatcher. unfold keeps in Hk. destruct (packet_dispatcher E) as [f|]; [|by subst].
  rewrite Hk. unfold FF_DISPATCH_RESPONSE, FF_DISPATCH_ERROR.
  rewrite (proj2 (Z.eqb_neq queue (-2))), (proj2 (Z.eqb_neq queue (-1))) by lia.
  rewrite Z.geb_leb, (proj2 (Z.leb_gt _ _)), Z.eqb_refl by lia. by destruct p.
Qed.

(** An ARP frame (or, with INET6, a neighbour discovery frame) that a process
    receives on one of its queues is given to its stack; every other queue of the
    port gets a copy with the same data in its ring, and in the primary process
    KNI gets one too, when there are buffers and room in the rings.  No other ring
    changes. *)
Theorem arp_reaches_all {R : Type} `{!Ring R, !RingLaws R} (E : env) lc port queue p len filter (w : world R) :
  (forall n, pool_ok E n = true) -> (forall n, mb_ok E n = true) -> rx_csum E port && pk_bad p = false ->
  0 <= queue < nb_queue_list lc port -> 0 <= pk_dlen p <= Z.of_nat (length (pk_buf p)) ->
  keeps E lc port queue p len ->
  protocol_filter (kc E) (pk_buf p) (S (2 * Z.to_nat len)) len = Done filter -> copied E filter = true ->
  (forall j, 0 <= j < nb_queue_list lc port -> j <> queue -> exists r, w_ring w !! (port, j) = Some r /\ has_room r) ->
  (kni_on E && primary E (lc_proc_id lc) = true -> exists r, w_kni w !! port = Some r /\ has_room r) ->
  exists w', process_packet E lc port queue p false w = Done w' /\
    w_stack w' = w_stack w ++ [(lc_proc_id lc, port, p)] /\
    (forall j, 0 <= j < nb_queue_list lc port -> j <> queue -> got_copy p (w_ring w !! (port, j)) (w_ring w' !! (port, j))) /\
    (forall i j, i <> port \/ j = queue \/ ~ 0 <= j < nb_queue_list lc port -> w_ring w' !! (i, j) = w_ring w !! (i, j)) /\
    (kni_on E && primary E (lc_proc_id lc) = true -> got_copy p (w_kni w !! port) (w_kni w' !! port)).
Proof.
  intros Hpool Hmb Hcs Hq Hl Hk Hf Hc Hr Hkni. unfold process_packet. rewrite (keeps_classify E lc port queue p len) by done.
  cbn [mbind outcome_bind]. rewrite Hf. cbn [mbind outcome_bind]. unfold deliver. rewrite Hc.
  set (w0 := count_rx lc p w).
  assert (Hin : forall j, j ∈ seqZ 0 (nb_queue_list lc port) <-> 0 <= j < nb_queue_list lc port)
    by (intros j; rewrite elem_of_seqZ; lia).
  destruct (clone_to_rings_all E Hpool port queue (seqZ 0 (nb_queue_list lc port)) p w0) as (w1 & -> & A1 & A2 & A3 & A4);
    [apply NoDup_seqZ|done|intros j Hj; apply Hr; by apply Hin|]. cbn [mbind outcome_bind].
  destruct (clone_to_kni_all E Hpool lc port p w1) as (w2 & -> & B1 & B2 & B3); [done|by rewrite A1|]. cbn [mbind outcome_bind].
  assert (Hv : exists n, ff_veth_input E (lc_proc_id lc) port p w2 = add_stack (lc_proc_id lc, port, p) (set_mb n w2)).
  { unfold ff_veth_input. rewrite Hcs, Hmb. pose proof (veth_segments_ok E (pk_more p) (w_mb w2 + 1) (or_intror Hmb)) as Hv.
    destruct (veth_segments _ _ _) as [ok n]. simpl in Hv. subst ok. by exists n. }
  destruct Hv as [n ->]. eexists. split; [done|]. simpl. rewrite B1, B2, A2. split_and!; [done| | |].
  - intros j Hj Hjq. apply A3; [by apply Hin|done].
  - intros i j Hij. apply A4. rewrite Hin. done.
  - intros H. rewrite A1 in B3. auto.
Qed.

(** * The rings drain *)

Section drain.
Context {R : Type} `{!Ring R, !RingLaws R} (E : env).
Implicit Types w : world R.

(** Packets of a ring do not go to a ring again. *)
Lemma kni_enqueue_ring port p w w' : ff_kni_enqueue port p w = Done w' -> w_ring w' = w_ring w.
Proof. unfold ff_kni_enqueue. destruct (w_kni w !! port); [|done]. destruct (ring_enqueue _ _); by intros [= <-]. Qed.

Lemma veth_input_ring i port p w : w_ring (ff_veth_input E i port p w) = w_ring w.
Proof.
  unfold ff_veth_input. destruct (_ && _); [done|]. destruct (mb_ok _ _); [|done]. by destruct (veth_segments _ _ _) as [[] ?].
Qed.

Lemma clone_ring p w : w_ring (fst (pktmbuf_deep_clone E p w)) = w_ring w.
Proof. unfold pktmbuf_deep_clone. by destruct (pool_alloc _ _ _) as [[] ?]. Qed.

Lemma clone_to_kni_ring lc port p w w' : clone_to_kni E lc port p w = Done w' -> w_ring w' = w_ring w.
Proof.
  unfold clone_to_kni. destruct (_ && _ && _); [|by intros [= <-]].
  pose proof (clone_ring p w) as Hc. destruct (pktmbuf_deep_clone E p w) as [w1 [c|]]; simpl in Hc; rewrite <- Hc;
    [apply kni_enqueue_ring|by intros [= <-]].
Qed.

Lemma deliver_ring lc port queue filter p w w' : deliver E lc port queue filter p true w = Done w' -> w_ring w' = w_ring w.
Proof.
  unfold deliver. cbn [mbind outcome_bind]. destruct (copied _ _).
  - destruct (clone_to_kni _ _ _ _ _) as [w2| |] eqn:Ek; [|done..]. intros [= <-]. rewrite veth_input_ring.
    by eapply clone_to_kni_ring.
  - destruct (to_kni _ _); [apply kni_enqueue_ring|]. intros [= <-]. apply veth_input_ring.
Qed.

Lemma process_packets_ring lc port queue l w w' :
  process_packets E lc port queue l true w = Done w' -> w_ring w' = w_ring w.
Proof.
  revert w; induction l as [|p l IH]; intros w; cbn [process_packets]; [by intros [= <-]|].
  destruct (process_packet _ _ _ _ _ _ _) as [w1| |] eqn:Ep; [|done..]. intros ->%IH. unfold process_packet, run_dispatcher in Ep.
  assert (Hv : (filter ← protocol_filter (kc E) (pk_buf p) (S (2 * Z.to_nat (pk_dlen p))) (pk_dlen p);
            deliver E lc port queue filter p true w) = Done w1) by (by destruct (packet_dispatcher E)).
  destruct (protocol_filter _ _ _ _) as [filter| |]; [|done..]. by eapply deliver_ring.
Qed.

(** [n] bursts from the ring of a queue. *)
Fixpoint ring_bursts (n : nat) (lc : lcore) (port queue : Z) (w : world R) : outcome (world R) :=
  match n with
  | O => Done w
  | S n' => w1 ← process_dispatch_ring E lc port queue w; ring_bursts n' lc port queue w1
  end.

Lemma dispatch_ring_step lc port queue w w' r :
  process_dispatch_ring E lc port queue w = Done w' -> w_ring w !! (port, queue) = Some r ->
  exists r', w_ring w' = <[(port, queue) := r']> (w_ring w) /\ ring_elems r' = drop MAX_PKT_BURST (ring_elems r).
Proof.
  unfold process_dispatch_ring. intros H Er. rewrite Er in H. destruct (ring_dequeue r MAX_PKT_BURST) as [l r'] eqn:Ed.
  apply dequeue_elems in Ed as [Ed Hl]. apply process_packets_ring in H. exists r'. split; [done|].
  rewrite Ed in *. rewrite length_app in Hl. destruct (decide (length l = MAX_PKT_BURST)) as [<-|Hn]; [by rewrite drop_app_length|].
  assert (length (ring_elems r') = 0)%nat as Hz by lia. apply nil_length_inv in Hz. rewrite Hz, app_nil_r.
  rewrite drop_ge; [done|lia].
Qed.
End drain.

(** When no other process adds to it, the ring of a queue is empty after one
    burst for every 32 packets in it: none of them is put into a ring again, the
    other rings stay as they are, and every packet is still accounted for. *)
Theorem ring_drains {R : Type} `{!Ring R, !RingLaws R} (E : env) queues ports lc port queue n (w : world R) r :
  room_law E -> dispatcher_law E -> accounted E queues ports w [] -> port_ready queues ports lc port ->
  (port, queue) ∈ queues -> w_ring w !! (port, queue) = Some r -> (length (ring_elems r) <= MAX_PKT_BURST * n)%nat ->
  exists w' r', ring_bursts E n lc port queue w = Done w' /\ w_ring w' !! (port, queue) = Some r' /\ ring_elems r' = [] /\
    (forall k, k <> (port, queue) -> w_ring w' !! k = w_ring w !! k) /\
    (pk_id <$> places w') ≡ₚ seqZ 0 (w_next w').
Proof.
  intros Hroom Hdisp H Hp Hq. revert w r H; induction n as [|n IH]; intros w r H Er Hl; cbn [ring_bursts].
  - exists w, r. destruct H as (_ & Ha & _). rewrite app_nil_r in Ha. split_and!; [done..| |done|done]. apply nil_length_inv. lia.
  - destruct (dispatch_ring_accounted E queues ports Hroom Hdisp lc port queue w []) as (w1 & E1 & H1); [done..|].
    destruct (dispatch_ring_step E lc port queue w w1 r E1 Er) as (r1 & F1 & F2). rewrite E1. cbn [mbind outcome_bind].
    destruct (IH w1 r1) as (w' & r' & A1 & A2 & A3 & A4 & A5); [done|by rewrite F1, lookup_insert_eq|rewrite F2, length_drop; lia|].
    exists w', r'. split_and!; [done..| |done]. intros k Hk. rewrite A4, F1, lookup_insert_ne by done. done.
Qed.

(** A packet of several segments that gets no mbuf for a later one is freed
    twice. *)
Lemma veth_double_free {R : Type} (E : env) i port p s segs (w : world R) :
  rx_csum E port && pk_bad p = false -> pk_more p = s :: segs -> mb_ok E (w_mb w) = true -> mb_ok E (w_mb w + 1) = false ->
  w_freed (ff_veth_input E i port p w) = w_freed w ++ [p; p].
Proof. intros Hc Hm H1 H2. unfold ff_veth_input. rewrite Hc, H1, Hm. simpl. by rewrite H2. Qed.

(** * Two processes *)

(** A ring of four packets. *)
#[export] Instance list_ring : Ring (list pkt) := {
  ring_elems := id;
  ring_enqueue l p := if (length l <? 4)%nat then Some (l ++ [p]) else None;
  ring_dequeue l n := (take n l, drop n l)
}.

#[export] Instance list_ring_laws : RingLaws (list pkt).
Proof.
  split.
  - intros r r' p. simpl. destruct (_ <? _)%nat; by intros [= <-].
  - intros r r' n l [= <- <-]. simpl. split; [by rewrite take_drop|by rewrite length_take].
Qed.

Definition sample_port : ff_port_cfg := set_p_lcore_list [2; 5; 0; 0] (set_p_nb_lcores 2 port0).
Definition two_procs : ff_config :=
  on_dpdk (fun d => set_nb_procs 2 (set_proc_lcore (Some [2; 5]) (set_nb_ports 1 (set_max_portid 0
    (set_portid_list (Some [0]) (set_port_cfgs (Some [sample_port]) d)))))) ff_default_config.
Definition proc_conf (i : Z) : lcore := Lcore i [(0, i)] {[0 := i]} {[0 := 2]}.

Lemma proc_conf_init i : 0 <= i < 2 -> init_lcore_conf 1 (fun _ => true) (with_proc i two_procs) = Done (proc_conf i).
Proof. intros Hi. assert (i = 0 \/ i = 1) as [-> | ->] by lia; vm_compute; reflexivity. Qed.

Lemma queue_one_owner_witness :
  exists i, (0 <= i < 2 /\ (0, 1) ∈ lc_rx (proc_conf i)) /\ forall j, 0 <= j < 2 -> (0, 1) ∈ lc_rx (proc_conf j) -> j = i.
Proof.
  apply (queue_one_owner 1 (fun _ => true) two_procs [sample_port] [2; 5] [0] 0 sample_port 1 proc_conf);
    [reflexivity|reflexivity|reflexivity|split; vm_compute; congruence| |apply proc_conf_init| |reflexivity| | | | |vm_compute; split; congruence].
  - by apply (bool_decide_unpack _).
  - by apply (bool_decide_unpack _).
  - vm_compute. split; congruence.
  - reflexivity.
  - by apply (bool_decide_unpack _).
  - intros c Hc. exact Hc.
Defined.

(** Frames of 20 bytes: one of the stack's, and an ARP request. *)
Definition sample_pkt (ty : Z) : pkt :=
  Pkt 0 (replicate 12 1 ++ [8; ty] ++ replicate 6 2 ++ [0; 0]) 20 20 [] 128 0 false.
Definition sample_env (d : option (list Z -> Z -> Z -> Z -> Z * list Z * Z)) : env :=
  Env d (KniConfig false false false [] []) false (fun i => i =? 0) (fun _ => true) (fun _ => true) (fun _ => true)
    (fun _ n => n) (fun _ => [0; 0]).
(** A dispatcher that gives every packet to queue 1. *)
Definition to_one (buf : list Z) (len queue nb : Z) : Z * list Z * Z := (1, buf, len).
Definition sample_rings : gmap (Z * Z) (list pkt) := {[(0, 0) := []; (0, 1) := []]}.
Definition sample_events : list event :=
  [Turn (proc_conf 0) true (fun _ => [sample_pkt 0]) (fun _ => []); Send (proc_conf 1) 0 (sample_pkt 0);
   Turn (proc_conf 1) true (fun _ => []) (fun _ => [])].

Lemma sample_room_law d : room_law (sample_env d).
Proof. intros r. split; [reflexivity|simpl; lia]. Qed.

Lemma to_one_law : dispatcher_law (sample_env (Some to_one)).
Proof. intros buf len q nb Hs. simpl. unfold FF_DISPATCH_RESPONSE. split_and!; [lia|done|auto]. Qed.

Lemma sample_pkt_ok d : ok_pkt (sample_env d) (sample_pkt 0).
Proof.
  split; [by left|]. split_and!; [reflexivity|simpl; lia|simpl; lia|simpl; lia|].
  intros off H1 H2. unfold ETHER_HDR_LEN in H1. simpl in H2. lia.
Qed.

Lemma packets_accounted_witness :
  exists w, run_events (sample_env (Some to_one)) sample_events (init_world sample_rings ∅) = Done w /\
    (pk_id <$> places w) ≡ₚ seqZ 0 (w_next w) /\ forall k t, w_tx w !! k = Some t -> (length t < MAX_PKT_BURST)%nat.
Proof.
  apply (packets_accounted (sample_env (Some to_one)) 1 (fun _ => true) two_procs [sample_port] [2; 5] [0] (fun _ => []) sample_rings ∅).
  - apply sample_room_law.
  - apply to_one_law.
  - reflexivity.
  - reflexivity.
  - reflexivity.
  - constructor; [|constructor]. simpl. lia.
  - vm_compute. reflexivity.
  - reflexivity.
  - discriminate.
  - intros port r. rewrite lookup_empty. discriminate.
  - constructor; [|constructor; [done|constructor; [|constructor]]].
    + split; [exists 0; split; [lia|apply proc_conf_init; lia]|]. intros q. constructor; [apply sample_pkt_ok|constructor].
    + split; [exists 1; split; [lia|apply proc_conf_init; lia]|]. intros q. constructor.
Defined.

(** The frame goes through the ring to process 1's stack; the packet of its stack
    is sent. *)
Example sample_run :
  match run_events (sample_env (Some to_one)) sample_events (init_world sample_rings ∅) with
  | Done w => (w_stack w, w_sent w, w_next w) = ([(1, 0, sample_pkt 0)], [(0, 1, set_id 1 (sample_pkt 0))], 2)
  | _ => False
  end.
Proof. vm_compute. reflexivity. Qed.

Lemma arp_reaches_all_witness :
  exists w', process_packet (sample_env None) (proc_conf 0) 0 0 (sample_pkt 6) false (init_world sample_rings ∅) = Done w' /\
    w_stack w' = [(0, 0, sample_pkt 6)] /\ got_copy (sample_pkt 6) (sample_rings !! (0, 1)) (w_ring w' !! (0, 1)).
Proof.
  destruct (arp_reaches_all (sample_env None) (proc_conf 0) 0 0 (sample_pkt 6) 20 FILTER_ARP (init_world sample_rings ∅))
    as (w' & H1 & H2 & H3 & _).
  - reflexivity.
  - reflexivity.
  - reflexivity.
  - vm_compute. split; congruence.
  - vm_compute. split; congruence.
  - reflexivity.
  - vm_compute. reflexivity.
  - reflexivity.
  - intros j Hj Hq. change (nb_queue_list (proc_conf 0) 0) with 2 in Hj. assert (j = 1) as -> by lia.
    exists []. split; [vm_compute; reflexivity|]. intros p. by eexists.
  - discriminate.
  - exists w'. split; [exact H1|]. split; [exact H2|]. apply H3; [vm_compute; split; congruence|discriminate].
Defined.

(** A world with one packet in the ring of queue 1. *)
Definition ring_world : world (list pkt) :=
  World {[(0, 0) := []; (0, 1) := [sample_pkt 0]]} ∅ ∅ ∅ [] [] [] [] ∅ 1 0 0 0.

Lemma ring_world_accounted : accounted (sample_env None) [(0, 0); (0, 1)] [0] ring_world [].
Proof.
  split_and!; [constructor| |simpl; lia].
  - intros q Hq. rewrite !elem_of_cons, elem_of_nil in Hq. destruct Hq as [->|[->|[]]]; vm_compute; by eexists.
  - change (elems ring_elems (w_ring ring_world)) with [sample_pkt 0]. constructor; [apply sample_pkt_ok|constructor].
  - discriminate.
  - apply map_Forall_empty.
  - vm_compute. reflexivity.
Qed.

Lemma ring_drains_witness :
  exists w' r', ring_bursts (sample_env None) 1 (proc_conf 1) 0 1 ring_world = Done w' /\
    w_ring w' !! (0, 1) = Some r' /\ ring_elems r' = [] /\
    (forall k, k <> (0, 1) -> w_ring w' !! k = w_ring ring_world !! k) /\ (pk_id <$> places w') ≡ₚ seqZ 0 (w_next w').
Proof.
  apply (ring_drains (sample_env None) [(0, 0); (0, 1)] [0] (proc_conf 1) 0 1 1 ring_world [sample_pkt 0]).
  - apply sample_room_law.
  - exact I.
  - exact ring_world_accounted.
  - split; [by left|]. intros j Hj. change (nb_queue_list (proc_conf 1) 0) with 2 in Hj.
    assert (j = 0 \/ j = 1) as [-> | ->] by lia; [by left|right; by left].
  - right. by left.
  - vm_compute. reflexivity.
  - simpl. lia.
Defined.
