(* ===== verification/PageArray.v ===== *)
(** The page array of src/lib/ff_memory.c (built with FF_USE_PAGE_ARRAY): the
    stack of free pages behind ff_mmap and ff_munmap, the translation to physical
    addresses, and zero-copy transmission, where the stack's mbufs are kept in a
    ring as long as the descriptors of the NIC. *)
From stdpp Require Import base list gmap.
From Stdlib Require Import ZArith Lia.
From S2P Require Import Prelude CStr Config ConfigSpec Dispatch DispatchSpec.

Local Open Scope Z_scope.

Definition PAGE_SIZE : Z := 4096.
Definition PAGE_SHIFT : Z := 12.
Definition PAGE_MASK : Z := PAGE_SIZE - 1.
Definition TX_QUEUE_SIZE : Z := 512.

(** * The stack of free pages *)

(** StackList_t. *)
Record stklist := StkList { ele : list Z; size : Z; top : Z }.

(** [mem] is what posix_memalign returns, [None] when it fails. *)
Definition stklist_init (mem : option (list Z)) (p : stklist) (sz : Z) : stklist * Z :=
  if sz <=? 0 then (p, -1)
  else match mem with
       | None => (StkList (ele p) sz 0, -2)
       | Some l => (StkList l sz 0, 0)
       end.

(** NULL is 0. *)
Definition stklist_pop (p : stklist) : outcome (Z * stklist) :=
  if top p >? 0 then v ← aread (ele p) (top p - 1); Done (v, StkList (ele p) (size p) (top p - 1))
  else Done (0, p).

Definition stklist_push (p : stklist) (val : Z) : outcome (Z * stklist) :=
  if top p <? size p then l ← awrite (ele p) (top p) val; Done (0, StkList l (size p) (top p + 1))
  else Done (-1, p).

Definition stklist_size (p : stklist) : Z := size p.

(** * Pages *)

Record pages := Pages {
  ff_mpage_ctl : stklist;
  ff_page_start : Z;
  ff_page_end : Z;
  ff_mpage_phy : list Z
}.

Section pages.
(** rte_mem_virt2phy; [None] is RTE_BAD_IOVA. *)
Variable virt2phy : Z -> option Z.

(** The loop over the pages. *)
Fixpoint map_pages (start : Z) (idx : list Z) (ctl : stklist) (phy : list Z) : outcome (stklist * list Z) :=
  match idx with
  | [] => Done (ctl, phy)
  | i :: r =>
      let virt_addr := u64 (start + PAGE_SIZE * i) in
      x ← stklist_push ctl virt_addr;
      match virt2phy virt_addr with
      | None => Fault
      | Some a => phy' ← awrite phy i a; map_pages start r (snd x) phy'
      end
  end.

(** [start] is what mmap returns, [mem] and [phy] the arrays of posix_memalign;
    a failure of one of them is a panic.  [mem_size] is an int. *)
Definition ff_mmap_init (start : option Z) (mem phy : option (list Z)) (mem_size : Z) : outcome pages :=
  let bsd_memsz := u64 (s32 (Z.shiftl mem_size 20)) in
  start ← deref start;
  let bsd_pagesz := u32 (Z.shiftr bsd_memsz 12) in
  phy ← deref phy;
  let ctl := fst (stklist_init mem (StkList [] 0 0) (s32 bsd_pagesz)) in
  x ← map_pages start (seqZ 0 bsd_pagesz) ctl phy;
  Done (Pages (fst x) start (u64 (start + bsd_memsz)) (snd x)).

Definition ff_chk_vma (pg : pages) (virtaddr : Z) : bool := (virtaddr >? ff_page_start pg) && (virtaddr <? ff_page_end pg).

Definition ff_mem_virt2phy (pg : pages) (virtaddr : Z) : outcome Z :=
  let pages := u32 (Z.shiftr (u64 (virtaddr - ff_page_start pg)) PAGE_SHIFT) in
  if pages >=? u32 (stklist_size (ff_mpage_ctl pg)) then Fault
  else a ← aread (ff_mpage_phy pg) pages; Done (u64 (a + Z.land virtaddr PAGE_MASK)).
End pages.

Definition set_ctl (c : stklist) (pg : pages) : pages := Pages c (ff_page_start pg) (ff_page_end pg) (ff_mpage_phy pg).

Definition ff_mem_get_page (pg : pages) : outcome (Z * pages) :=
  x ← stklist_pop (ff_mpage_ctl pg); Done (fst x, set_ctl (snd x) pg).

Definition ff_mem_free_addr (p : Z) (pg : pages) : outcome (Z * pages) :=
  x ← stklist_push (ff_mpage_ctl pg) p; Done (0, set_ctl (snd x) pg).

(** ff_mmap and ff_munmap of ff_host_interface.c; the host's calls are parameters,
    and a failed mmap exits. *)
Section host.
Variable mmap : Z -> Z -> Z -> Z -> Z -> Z -> option Z.
Variable munmap : Z -> Z -> Z.
(** PROT_READ, PROT_WRITE, MAP_SHARED, MAP_PRIVATE and MAP_ANON of the host. *)
Variable PROT_READ PROT_WRITE MAP_SHARED MAP_PRIVATE MAP_ANON : Z.

Definition has_flag (x f host : Z) : Z := if Z.land x f =? f then host else 0.

Definition ff_mmap (addr len prot flags fd offset : Z) (pg : pages) : outcome (Z * pages) :=
  if len =? 4096 then ff_mem_get_page pg
  else
    let host_prot := Z.lor (has_flag prot 1 PROT_READ) (has_flag prot 2 PROT_WRITE) in
    let host_flags := Z.lor (Z.lor (has_flag flags 1 MAP_SHARED) (has_flag flags 2 MAP_PRIVATE)) (has_flag flags 0x1000 MAP_ANON) in
    a ← deref (mmap addr len host_prot host_flags fd offset); Done (a, pg).

Definition ff_munmap (addr len : Z) (pg : pages) : outcome (Z * pages) :=
  if len =? 4096 then ff_mem_free_addr addr pg else Done (munmap addr len, pg).
End host.

(** * The ring of transmitted mbufs *)

(** struct mbuf_txring: addresses of mbufs, [None] is NULL. *)
Record txring := TxRing { r_table : list (option Z); r_head : Z }.

Definition Head_INC (h : Z) : Z := let h := u16 (h + 1) in if h >=? TX_QUEUE_SIZE then 0 else h.
(** [--h < 0] on a uint16_t. *)
Definition Head_DEC (h : Z) : Z := let h := u16 (h - 1) in if h <? 0 then TX_QUEUE_SIZE - 1 else h.

(** The mbufs that are freed are returned. *)
Fixpoint txring_skip (n : nat) (q : txring) : outcome (txring * list Z) :=
  match n with
  | O => Done (q, [])
  | S n' =>
      o ← aread (r_table q) (r_head q);
      t ← awrite (r_table q) (r_head q) None;
      x ← txring_skip n' (TxRing t (Head_INC (r_head q)));
      Done (fst x, option_list o ++ snd x)
  end.

Definition ff_txring_enqueue (q : txring) (p seg_num : Z) : outcome (txring * list Z) :=
  x ← txring_skip (Z.to_nat (seg_num - 1)) q;
  let q := fst x in
  o ← aread (r_table q) (r_head q);
  t ← awrite (r_table q) (r_head q) (Some p);
  Done (TxRing t (Head_INC (r_head q)), snd x ++ option_list o).

(** rte_panic is [Fault]. *)
Fixpoint txring_pop (n : nat) (i : Z) (q : txring) : outcome (txring * list Z) :=
  match n with
  | O => Done (q, [])
  | S n' =>
      let h := Head_DEC (r_head q) in
      o ← aread (r_table q) h;
      if match o with None => i =? 0 | Some _ => i >? 0 end then Fault
      else
        t ← awrite (r_table q) h None;
        x ← txring_pop n' (i + 1) (TxRing t h);
        Done (fst x, option_list o ++ snd x)
  end.
Definition ff_txring_pop (q : txring) (num : Z) : outcome (txring * list Z) := txring_pop (Z.to_nat num) 0 q.

Definition ff_txring_init : txring := TxRing (replicate (Z.to_nat TX_QUEUE_SIZE) None) 0.

(** * Transmission without copies *)

(** A packet of the stack: the address of its first mbuf, the data pointer and
    length of each mbuf, and the DPDK packet of its external storage, if any. *)
Record rte := Rte { rm_len : Z; rm_segs : list (Z * Z * Z) (* address, physical address, length *) }.
Record bsd := Bsd { b_addr : Z; b_chain : list (Z * Z); b_ext : option rte }.

(** What a port has: its transmit table with the mbufs of the stack beside it,
    the ring, and what was freed and sent. *)
Record txport := TxPort {
  tp_len : Z;
  tp_m : list (option rte);        (* m_table *)
  tp_bsd : list (option Z);        (* bsd_m_table *)
  tp_ring : txring;                (* nic_tx_ring[port] *)
  tp_bfreed : list Z;              (* mbufs given to ff_mbuf_free *)
  tp_rfreed : list rte;
  tp_sent : list rte;
  tp_allocs : Z;
  tp_bursts : Z
}.

Section transmit.
Variable pg : pages.
(** The answers of the pools, and what a burst takes. *)
Variable alloc_ok : Z -> bool.
Variable tx_takes : Z -> nat -> nat.

(** The segments behind the first, one DPDK mbuf each; [None] when the pool is
    empty. *)
Fixpoint bsd_segs (l : list (Z * Z)) (first : bool) (k : Z) : outcome (Z * option (list (Z * Z * Z))) :=
  match l with
  | [] => Done (k, Some [])
  | (data, len) :: r =>
      if first || alloc_ok k then
        let k := if first then k else k + 1 in
        a ← ff_mem_virt2phy pg data;
        x ← bsd_segs r false k;
        Done (fst x, option_map (cons (data, a, len)) (snd x))
      else Done (k + 1, None)
  end.

Definition ff_bsd_to_rte (m : bsd) (total k : Z) : outcome (Z * option rte) :=
  if alloc_ok k then
    x ← bsd_segs (b_chain m) true (k + 1); Done (fst x, option_map (Rte total) (snd x))
  else Done (k + 1, None).

(** rte_pktmbuf_clone of the packet in the external storage. *)
Definition ff_extcl_to_rte (m : bsd) (k : Z) : Z * option rte :=
  match b_ext m with
  | None => (k, None)
  | Some src => (k + 1, if alloc_ok k then Some src else None)
  end.

Definition set_allocs (k : Z) (t : txport) : txport :=
  TxPort (tp_len t) (tp_m t) (tp_bsd t) (tp_ring t) (tp_bfreed t) (tp_rfreed t) (tp_sent t) k (tp_bursts t).
Definition set_len (n : Z) (t : txport) : txport :=
  TxPort n (tp_m t) (tp_bsd t) (tp_ring t) (tp_bfreed t) (tp_rfreed t) (tp_sent t) (tp_allocs t) (tp_bursts t).
Definition set_tables (m : list (option rte)) (b : list (option Z)) (t : txport) : txport :=
  TxPort (tp_len t) m b (tp_ring t) (tp_bfreed t) (tp_rfreed t) (tp_sent t) (tp_allocs t) (tp_bursts t).
Definition bsd_free (l : list Z) (t : txport) : txport :=
  TxPort (tp_len t) (tp_m t) (tp_bsd t) (tp_ring t) (tp_bfreed t ++ l) (tp_rfreed t) (tp_sent t) (tp_allocs t) (tp_bursts t).
Definition set_ring (q : txring) (t : txport) : txport :=
  TxPort (tp_len t) (tp_m t) (tp_bsd t) q (tp_bfreed t) (tp_rfreed t) (tp_sent t) (tp_allocs t) (tp_bursts t).
Definition add_rte (sent freed : list rte) (t : txport) : txport :=
  TxPort (tp_len t) (tp_m t) (tp_bsd t) (tp_ring t) (tp_bfreed t) (tp_rfreed t ++ freed) (tp_sent t ++ sent) (tp_allocs t) (tp_bursts t).

(** The new length of the table, without the offload flags; [None] is a null
    packet. *)
Definition ff_if_send_onepkt (m : option bsd) (total : Z) (t : txport) : outcome (Z * txport) :=
  match m with
  | None => Done (0, t)
  | Some m =>
      p_data ← aread (b_chain m) 0;
      x ← (if ff_chk_vma pg (fst p_data) then ff_bsd_to_rte m total (tp_allocs t)
           else match ff_extcl_to_rte m (tp_allocs t) with
                | (_, None) => Fault
                | x => Done x
                end);
      let t := set_allocs (fst x) t in
      match snd x with
      | None => Done (0, bsd_free [b_addr m] t)
      | Some head =>
          mt ← awrite (tp_m t) (tp_len t) (Some head);
          bt ← awrite (tp_bsd t) (tp_len t) (Some (b_addr m));
          Done (u32 (tp_len t + 1), set_tables mt bt t)
      end
  end.

Definition ff_enq_tx_bsdmbuf (p nb_segs : Z) (t : txport) : outcome txport :=
  x ← ff_txring_enqueue (tp_ring t) p nb_segs; Done (bsd_free (snd x) (set_ring (fst x) t)).

(** The packets that the NIC took. *)
Fixpoint burst_sent (idx : list Z) (t : txport) : outcome txport :=
  match idx with
  | [] => Done t
  | i :: r =>
      o ← aread (tp_m t) i; m ← deref o;
      b ← aread (tp_bsd t) i;
      t1 ← match b with
           | Some p => ff_enq_tx_bsdmbuf p (Z.of_nat (length (rm_segs m))) (add_rte [m] [] t)
           | None => Done (add_rte [m] [] t)
           end;
      burst_sent r t1
  end.

(** And those it did not. *)
Fixpoint burst_left (idx : list Z) (t : txport) : outcome txport :=
  match idx with
  | [] => Done t
  | i :: r =>
      o ← aread (tp_m t) i; m ← deref o;
      b ← aread (tp_bsd t) i;
      burst_left r (bsd_free (option_list b) (add_rte [] [m] t))
  end.

(** send_burst of ff_dpdk_if.c with FF_USE_PAGE_ARRAY. *)
Definition send_burst_pages (n : Z) (t : txport) : outcome txport :=
  let ret := Z.of_nat (Nat.min (tx_takes (tp_bursts t) (Z.to_nat n)) (Z.to_nat n)) in
  let t := TxPort (tp_len t) (tp_m t) (tp_bsd t) (tp_ring t) (tp_bfreed t) (tp_rfreed t) (tp_sent t) (tp_allocs t) (tp_bursts t + 1) in
  t1 ← burst_sent (seqZ 0 ret) t; burst_left (seqZ ret (n - ret)) t1.

(** ff_dpdk_if_send with FF_USE_PAGE_ARRAY. *)
Definition if_send_pages (m : option bsd) (total : Z) (t : txport) : outcome txport :=
  x ← ff_if_send_onepkt m total t;
  if fst x =? Z.of_nat MAX_PKT_BURST then t1 ← send_burst_pages (Z.of_nat MAX_PKT_BURST) (snd x); Done (set_len 0 t1)
  else Done (set_len (fst x) (snd x)).

(** send_single_packet, which the dispatcher's responses use: the table of mbufs
    is not written. *)
Definition send_single_pages (m : rte) (t : txport) : outcome txport :=
  mt ← awrite (tp_m t) (tp_len t) (Some m);
  let t := set_tables mt (tp_bsd t) t in
  let len := u16 (tp_len t + 1) in
  if len =? Z.of_nat MAX_PKT_BURST then t1 ← send_burst_pages (Z.of_nat MAX_PKT_BURST) t; Done (set_len 0 t1)
  else Done (set_len len t).

(** The drain of the main loop. *)
Definition drain_pages (t : txport) : outcome txport :=
  if tp_len t =? 0 then Done t else t1 ← send_burst_pages (tp_len t) t; Done (set_len 0 t1).

End transmit.

Definition txport0 : txport :=
  TxPort 0 (replicate MAX_PKT_BURST None) (replicate MAX_PKT_BURST None) ff_txring_init [] [] [] 0 0.
