(* ===== verification/PageProps.v ===== *)
(** The properties of the page array (PageArray): pages are neither lost nor given
    out twice and addresses are translated exactly; mbufs of the stack are freed
    once, and not before their descriptors are used again. *)
From stdpp Require Import base list gmap.
From Stdlib Require Import ZArith Lia.
From S2P Require Import Prelude CStr Config ConfigSpec Dispatch DispatchSpec PageArray.

Local Open Scope Z_scope.

(** * The ring of transmitted mbufs *)

#[local] Abbreviation ids := (omap (M := list) (A := option Z) (B := Z) id).

(** After the slots [h] were written the mbufs [fr] have been freed: the table,
    read from the head on, is the end of the history. *)
Definition ring_inv (q : txring) (h : list (option Z)) (fr : list Z) : Prop :=
  exists a b old, r_table q = a ++ b /\ r_head q = Z.of_nat (length a) /\ b <> [] /\
    Z.of_nat (length (a ++ b)) = TX_QUEUE_SIZE /\ replicate (Z.to_nat TX_QUEUE_SIZE) None ++ h = old ++ b ++ a /\ fr = ids old.

Lemma ring_inv_init : ring_inv ff_txring_init [] [].
Proof.
  exists [], (replicate (Z.to_nat TX_QUEUE_SIZE) None), []. rewrite !app_nil_r. split_and!; done.
Qed.

(** One slot: the mbuf that was there is freed. *)
Lemma ring_inv_put q h fr o :
  ring_inv q h fr -> exists x t, aread (r_table q) (r_head q) = Done x /\ awrite (r_table q) (r_head q) o = Done t /\
    ring_inv (TxRing t (Head_INC (r_head q))) (h ++ [o]) (fr ++ option_list x).
Proof.
  unfold ring_inv. generalize (replicate (Z.to_nat TX_QUEUE_SIZE) (None (A := Z))). intros pre.
  intros (a & b & old & Et & Eh & Hb & Hl & Hh & ->). destruct b as [|x b]; [done|].
  assert (Hlt : (length a < length (r_table q))%nat) by (rewrite Et, length_app; simpl; lia).
  exists x, (a ++ o :: b). split_and!.
  - rewrite Eh. apply aread_lookup; [lia|]. rewrite Nat2Z.id, Et. by apply list_lookup_middle.
  - unfold awrite. rewrite Eh, Nat2Z.id.
    rewrite (proj2 (Z.leb_le 0 _)), (proj2 (Z.ltb_lt _ _)) by lia. simpl. rewrite Et, insert_app_r_alt, Nat.sub_diag by lia. done.
  - rewrite length_app in Hl. simpl in Hl. unfold TX_QUEUE_SIZE in *.
    assert (Hids : ids (old ++ [x]) = ids old ++ option_list x) by (rewrite omap_app; by destruct x).
    rewrite <- Hids. unfold Head_INC. simpl r_table. simpl r_head. rewrite Eh, wrapu_small by (unfold TX_QUEUE_SIZE; lia).
    rewrite app_assoc in Hh. destruct b as [|y b].
    + exists [], (a ++ [o]), (old ++ [x]). simpl in Hl. unfold TX_QUEUE_SIZE.
      rewrite Z.geb_leb, (proj2 (Z.leb_le _ _)) by lia. simpl. split_and!; [done|done|by destruct a| | |done].
      * rewrite length_app. simpl. lia.
      * rewrite app_assoc, Hh, app_nil_r, <- !app_assoc. done.
    + exists (a ++ [o]), (y :: b), (old ++ [x]). simpl in Hl. unfold TX_QUEUE_SIZE.
      rewrite Z.geb_leb, (proj2 (Z.leb_gt _ _)) by lia. split_and!; [by rewrite <- app_assoc| |done| | |done].
      * rewrite length_app. simpl. lia.
      * rewrite !length_app. simpl. lia.
      * rewrite app_assoc, Hh, <- !app_assoc. done.
Qed.

Lemma ring_inv_skip n q h fr :
  ring_inv q h fr -> exists q' l, txring_skip n q = Done (q', l) /\ ring_inv q' (h ++ replicate n None) (fr ++ l).
Proof.
  revert q h fr; induction n as [|n IH]; intros q h fr H; cbn [txring_skip replicate].
  - exists q, []. by rewrite !app_nil_r.
  - destruct (ring_inv_put q h fr None H) as (x & t & -> & -> & H1). cbn [mbind outcome_bind].
    destruct (IH _ _ _ H1) as (q' & l & -> & H2). cbn [mbind outcome_bind]. exists q', (option_list x ++ l).
    split; [done|]. by rewrite <- !app_assoc in H2.
Qed.

(** The slots of a packet: its mbuf is in the last one. *)
Definition slots (p seg_num : Z) : list (option Z) := replicate (Z.to_nat (seg_num - 1)) None ++ [Some p].

Lemma ring_inv_enqueue q h fr p n :
  ring_inv q h fr -> exists q' l, ff_txring_enqueue q p n = Done (q', l) /\ ring_inv q' (h ++ slots p n) (fr ++ l).
Proof.
  intros H. unfold ff_txring_enqueue. destruct (ring_inv_skip (Z.to_nat (n - 1)) q h fr H) as (q1 & l & -> & H1).
  cbn [mbind outcome_bind fst snd]. destruct (ring_inv_put _ _ _ (Some p) H1) as (x & t & -> & -> & H2). cbn [mbind outcome_bind].
  do 2 eexists. split; [done|]. unfold slots. by rewrite <- !app_assoc in H2.
Qed.

Fixpoint enqueue_all (es : list (Z * Z)) (q : txring) : outcome (txring * list Z) :=
  match es with
  | [] => Done (q, [])
  | (p, n) :: r =>
      x ← ff_txring_enqueue q p n; y ← enqueue_all r (fst x); Done (fst y, snd x ++ snd y)
  end.

Definition history (es : list (Z * Z)) : list (option Z) := concat ((fun e => slots (fst e) (snd e)) <$> es).

Lemma ring_inv_all es q h fr :
  ring_inv q h fr -> exists q' l, enqueue_all es q = Done (q', l) /\ ring_inv q' (h ++ history es) (fr ++ l).
Proof.
  revert q h fr; induction es as [|[p n] es IH]; intros q h fr H; cbn [enqueue_all].
  - exists q, []. unfold history. simpl. by rewrite !app_nil_r.
  - destruct (ring_inv_enqueue q h fr p n H) as (q1 & l1 & -> & H1). cbn [mbind outcome_bind fst snd].
    destruct (IH _ _ _ H1) as (q2 & l2 & -> & H2). cbn [mbind outcome_bind fst snd]. do 2 eexists. split; [done|].
    unfold history. simpl. fold (history es). by rewrite <- !app_assoc in H2.
Qed.

Lemma ids_replicate n : ids (replicate n None) = [].
Proof. by induction n. Qed.

Lemma ids_perm (l l' : list (option Z)) : l ≡ₚ l' -> ids l ≡ₚ ids l'.
Proof. by intros ->. Qed.

(** What was freed and what the ring holds, from the history. *)
Lemma ring_inv_freed q h fr : ring_inv q h fr -> fr = ids (take (length h - Z.to_nat TX_QUEUE_SIZE) h).
Proof.
  intros (a & b & old & _ & _ & _ & Hl & Hh & ->). set (n := Z.to_nat TX_QUEUE_SIZE) in *.
  assert (Hlen : length old = length h).
  { apply (f_equal length) in Hh. rewrite !length_app, length_replicate in Hh. rewrite length_app in Hl. lia. }
  assert (Ho : old = take (length h) (replicate n None ++ h)) by (rewrite Hh, <- Hlen; by rewrite take_app_length).
  rewrite Ho, take_app, omap_app, length_replicate, take_replicate, ids_replicate. done.
Qed.

Lemma ring_inv_holds q h fr : ring_inv q h fr -> fr ++ ids (r_table q) ≡ₚ ids h.
Proof.
  intros (a & b & old & -> & _ & _ & _ & Hh & ->). apply (f_equal ids) in Hh. rewrite !omap_app, ids_replicate in Hh.
  simpl in Hh. rewrite omap_app, Hh. perm.
Qed.

Lemma ids_slots p n : ids (slots p n) = [p].
Proof. unfold slots. by rewrite omap_app, ids_replicate. Qed.

Lemma ids_history es : ids (history es) = fst <$> es.
Proof.
  induction es as [|[p n] es IH]; [done|]. change (history ((p, n) :: es)) with (slots p n ++ history es).
  by rewrite omap_app, ids_slots, IH.
Qed.

(** Packets of any number of segments, put into the ring of transmitted mbufs
    one after the other, are freed in order, each once: exactly those whose last
    descriptor is followed by as many others as the NIC has; the rest is in the
    ring. *)
Theorem txring_frees_exact (es : list (Z * Z)) :
  exists q l, enqueue_all es ff_txring_init = Done (q, l) /\
    l = ids (take (length (history es) - Z.to_nat TX_QUEUE_SIZE) (history es)) /\
    l ++ ids (r_table q) ≡ₚ (fst <$> es).
Proof.
  destruct (ring_inv_all es _ _ _ ring_inv_init) as (q & l & E & H). exists q, l. split; [done|]. simpl in H.
  split; [by eapply ring_inv_freed|]. rewrite <- ids_history. by eapply ring_inv_holds.
Qed.

(** * Mbufs of the stack in transmission *)

Section transmit.
Context (pg : pages) (alloc_ok : Z -> bool) (tx_takes : Z -> nat -> nat).

(** The mbufs in the table, in the ring and freed. *)
Definition mbufs (t : txport) : list Z := ids (take (Z.to_nat (tp_len t)) (tp_bsd t)) ++ ids (r_table (tp_ring t)) ++ tp_bfreed t.

Record tx_inv (t : txport) : Prop := TxInv {
  ti_len : 0 <= tp_len t < Z.of_nat MAX_PKT_BURST;
  ti_m : length (tp_m t) = MAX_PKT_BURST;
  ti_bsd : length (tp_bsd t) = MAX_PKT_BURST;
  ti_full : forall i, (i < Z.to_nat (tp_len t))%nat -> exists m, tp_m t !! i = Some (Some m);
  ti_ring : exists h fr, ring_inv (tp_ring t) h fr
}.

(** A burst leaves the tables as they are. *)
Definition same_tables (t t' : txport) : Prop :=
  tp_len t' = tp_len t /\ tp_m t' = tp_m t /\ tp_bsd t' = tp_bsd t.

Lemma enqueue_mbufs t p n :
  (exists h fr, ring_inv (tp_ring t) h fr) ->
  exists t', ff_enq_tx_bsdmbuf p n t = Done t' /\ same_tables t t' /\ (exists h fr, ring_inv (tp_ring t') h fr) /\
    ids (r_table (tp_ring t')) ++ tp_bfreed t' ≡ₚ ids (r_table (tp_ring t)) ++ tp_bfreed t ++ [p].
Proof.
  intros (h & fr & H). unfold ff_enq_tx_bsdmbuf. destruct (ring_inv_enqueue _ _ _ p n H) as (q & l & -> & H1).
  eexists. split; [done|]. split; [done|]. split; [by do 2 eexists|]. simpl.
  apply ring_inv_holds in H, H1. rewrite omap_app, ids_slots in H1.
  apply (Permutation_app_inv_l fr). transitivity ((fr ++ l) ++ ids (r_table q) ++ tp_bfreed t); [perm|].
  rewrite app_assoc, <- (app_assoc fr l), (app_assoc fr), H1, <- H. perm.
Qed.

Definition at_index (l : list (option Z)) (i : Z) : option Z := l !! Z.to_nat i ≫= id.

Lemma burst_sent_mbufs idx t :
  (exists h fr, ring_inv (tp_ring t) h fr) -> length (tp_bsd t) = MAX_PKT_BURST ->
  (forall i, i ∈ idx -> 0 <= i < Z.of_nat MAX_PKT_BURST /\ exists m, tp_m t !! Z.to_nat i = Some (Some m)) ->
  exists t', burst_sent idx t = Done t' /\ same_tables t t' /\ (exists h fr, ring_inv (tp_ring t') h fr) /\
    ids (r_table (tp_ring t')) ++ tp_bfreed t' ≡ₚ ids (r_table (tp_ring t)) ++ tp_bfreed t ++ omap (at_index (tp_bsd t)) idx.
Proof.
  revert t; induction idx as [|i idx IH]; intros t Hr Hb Hi; cbn [burst_sent].
  - exists t. split_and!; [done..|]. by rewrite app_nil_r.
  - destruct (Hi i) as [Hrange [m Hm]]; [by left|].
    rewrite (aread_lookup _ _ _ (proj1 Hrange) Hm). cbn [mbind outcome_bind deref].
    destruct (lookup_lt_is_Some_2 (tp_bsd t) (Z.to_nat i)) as [b Eb]; [lia|].
    rewrite (aread_lookup _ _ _ (proj1 Hrange) Eb). cbn [mbind outcome_bind].
    assert (Hone : exists t1, match b with
        | Some p => ff_enq_tx_bsdmbuf p (Z.of_nat (length (rm_segs m))) (add_rte [m] [] t)
        | None => Done (add_rte [m] [] t) end = Done t1 /\ same_tables t t1 /\ (exists h fr, ring_inv (tp_ring t1) h fr) /\
        ids (r_table (tp_ring t1)) ++ tp_bfreed t1 ≡ₚ ids (r_table (tp_ring t)) ++ tp_bfreed t ++ option_list b).
    { destruct b as [p|]; [by apply (enqueue_mbufs (add_rte [m] [] t))|]. eexists; split_and!; [done..|]. by rewrite app_nil_r. }
    destruct Hone as (t1 & -> & (E1 & E2 & E3) & H1 & P1). cbn [mbind outcome_bind].
    destruct (IH t1) as (t' & -> & (F1 & F2 & F3) & H2 & P2); [done|by rewrite E3| |].
    { intros j Hj. rewrite E2. apply Hi. by right. }
    exists t'. split; [done|]. unfold same_tables. split; [split_and!; congruence|]. split; [done|].
    assert (Ho : omap (at_index (tp_bsd t)) (i :: idx) = option_list b ++ omap (at_index (tp_bsd t)) idx).
    { cbn. unfold at_index at 1. rewrite Eb. simpl. by destruct b. }
    rewrite P2, E3, Ho, app_assoc, P1. perm.
Qed.

Lemma burst_left_mbufs idx t :
  length (tp_bsd t) = MAX_PKT_BURST ->
  (forall i, i ∈ idx -> 0 <= i < Z.of_nat MAX_PKT_BURST /\ exists m, tp_m t !! Z.to_nat i = Some (Some m)) ->
  exists t', burst_left idx t = Done t' /\ same_tables t t' /\ tp_ring t' = tp_ring t /\
    tp_bfreed t' = tp_bfreed t ++ omap (at_index (tp_bsd t)) idx.
Proof.
  revert t; induction idx as [|i idx IH]; intros t Hb Hi; cbn [burst_left].
  - exists t. split_and!; [done..|]. by rewrite app_nil_r.
  - destruct (Hi i) as [Hrange [m Hm]]; [by left|].
    rewrite (aread_lookup _ _ _ (proj1 Hrange) Hm). cbn [mbind outcome_bind deref].
    destruct (lookup_lt_is_Some_2 (tp_bsd t) (Z.to_nat i)) as [b Eb]; [lia|].
    rewrite (aread_lookup _ _ _ (proj1 Hrange) Eb). cbn [mbind outcome_bind].
    destruct (IH (bsd_free (option_list b) (add_rte [] [m] t))) as (t' & -> & (F1 & F2 & F3) & Hr & P); [done| |].
    { intros j Hj. apply Hi. by right. }
    exists t'. split_and!; [done..|]. rewrite P. simpl. unfold at_index at 2. rewrite Eb. simpl. destruct b; by rewrite <- app_assoc.
Qed.

Lemma at_index_take l n : (n <= length l)%nat -> omap (at_index l) (seqZ 0 (Z.of_nat n)) = ids (take n l).
Proof.
  induction n as [|n IH]; intros Hn; [done|]. destruct (lookup_lt_is_Some_2 l n) as [x Ex]; [lia|].
  rewrite Nat2Z.inj_succ, <- Z.add_1_r, seqZ_app, omap_app, IH by lia. rewrite (take_S_r _ _ x) by done.
  rewrite omap_app. f_equal. rewrite Z.add_0_l. unfold seqZ. simpl. unfold at_index. rewrite Z.add_0_l, Nat2Z.id, Ex. done.
Qed.

(** A burst of the first [n] entries moves their mbufs to the ring or frees
    them. *)
Lemma send_burst_mbufs n t :
  (exists h fr, ring_inv (tp_ring t) h fr) -> length (tp_bsd t) = MAX_PKT_BURST -> (n <= MAX_PKT_BURST)%nat ->
  (forall i, (i < n)%nat -> exists m, tp_m t !! i = Some (Some m)) ->
  exists t', send_burst_pages tx_takes (Z.of_nat n) t = Done t' /\ same_tables t t' /\ (exists h fr, ring_inv (tp_ring t') h fr) /\
    ids (r_table (tp_ring t')) ++ tp_bfreed t' ≡ₚ ids (r_table (tp_ring t)) ++ tp_bfreed t ++ ids (take n (tp_bsd t)).
Proof.
  intros Hr Hb Hn Hm. unfold send_burst_pages. rewrite Nat2Z.id.
  set (k := Nat.min (tx_takes (tp_bursts t) n) n). assert (Hk : (k <= n)%nat) by (subst k; lia). clearbody k.
  set (t0 := TxPort _ _ _ _ _ _ _ _ _).
  assert (Hi : forall i, 0 <= i < Z.of_nat n -> 0 <= i < Z.of_nat MAX_PKT_BURST /\ exists m, tp_m t !! Z.to_nat i = Some (Some m)).
  { intros i Hi. split; [lia|]. apply Hm. lia. }
  destruct (burst_sent_mbufs (seqZ 0 (Z.of_nat k)) t0) as (t1 & -> & (E1 & E2 & E3) & H1 & P1); [done..| |].
  { intros i Hi'. apply elem_of_seqZ in Hi'. apply Hi. lia. }
  cbn [mbind outcome_bind]. subst t0. simpl in E1, E2, E3, P1.
  destruct (burst_left_mbufs (seqZ (Z.of_nat k) (Z.of_nat n - Z.of_nat k)) t1) as (t' & -> & (F1 & F2 & F3) & Fr & P2).
  { congruence. }
  { intros i Hi'. apply elem_of_seqZ in Hi'. rewrite E2. apply Hi. lia. }
  exists t'. split; [done|]. unfold same_tables. split; [split_and!; congruence|]. rewrite Fr. split; [done|].
  rewrite P2, E3, app_assoc, P1, <- (at_index_take (tp_bsd t) n) by lia.
  replace (Z.of_nat n) with (Z.of_nat k + (Z.of_nat n - Z.of_nat k)) at 2 by lia.
  rewrite seqZ_app, omap_app, Z.add_0_l by lia. perm.
Qed.

(** The chain is in the pages, or the packet is one that was received. *)
Definition sendable (m : bsd) : Prop :=
  exists d l r, b_chain m = (d, l) :: r /\
    if ff_chk_vma pg d then forall x, x ∈ b_chain m -> exists a, ff_mem_virt2phy pg (fst x) = Done a
    else is_Some (b_ext m).

Hypothesis Halloc : forall k, alloc_ok k = true.

Lemma bsd_segs_done l f k :
  (forall x, x ∈ l -> exists a, ff_mem_virt2phy pg (fst x) = Done a) ->
  exists k' segs, bsd_segs pg alloc_ok l f k = Done (k', Some segs).
Proof.
  revert f k; induction l as [|[d n] l IH]; intros f k Hl; cbn [bsd_segs]; [by do 2 eexists|].
  rewrite Halloc, orb_true_r. destruct (Hl (d, n)) as [a Ha]; [by left|]. simpl in Ha. rewrite Ha. cbn [mbind outcome_bind].
  destruct (IH false (if f then k else k + 1)) as (k' & segs & ->); [intros; apply Hl; by right|]. simpl. by do 2 eexists.
Qed.

Lemma onepkt_done m total t :
  sendable m -> tx_inv t -> exists k head, ff_if_send_onepkt pg alloc_ok (Some m) total t =
    Done (tp_len t + 1, set_tables (<[Z.to_nat (tp_len t) := Some head]> (tp_m t))
                          (<[Z.to_nat (tp_len t) := Some (b_addr m)]> (tp_bsd t)) (set_allocs k t)).
Proof.
  intros (d & l & r & Ec & Hs) [Hlen Hm Hb _ _]. unfold ff_if_send_onepkt.
  rewrite (aread_lookup _ 0 (d, l)) by (rewrite ?Ec; done). cbn [mbind outcome_bind fst].
  set (x := if ff_chk_vma pg d then _ else _).
  assert (Hx : exists k head, x = Done (k, Some head)).
  { subst x. destruct (ff_chk_vma pg d).
    - unfold ff_bsd_to_rte. rewrite Halloc. destruct (bsd_segs_done (b_chain m) true (tp_allocs t + 1) Hs) as (k' & segs & ->).
      simpl. by do 2 eexists.
    - destruct Hs as [src Es]. unfold ff_extcl_to_rte. rewrite Es, Halloc. by do 2 eexists. }
  destruct Hx as (k & head & ->). cbn [mbind outcome_bind fst snd]. exists k, head. unfold awrite. simpl.
  unfold MAX_PKT_BURST in *. rewrite Hm, Hb, (proj2 (Z.leb_le _ _)), (proj2 (Z.ltb_lt _ _)) by lia. simpl.
  rewrite wrapu_small by lia. done.
Qed.

Lemma if_send_mbufs m total t :
  sendable m -> tx_inv t ->
  exists t', if_send_pages pg alloc_ok tx_takes (Some m) total t = Done t' /\ tx_inv t' /\ mbufs t' ≡ₚ b_addr m :: mbufs t.
Proof.
  intros Hs Hi. unfold if_send_pages. destruct (onepkt_done m total t Hs Hi) as (k & head & ->). cbn [mbind outcome_bind fst snd].
  destruct Hi as [Hlen Hm Hb Hf Hr]. set (t1 := set_tables _ _ _). set (n := Z.to_nat (tp_len t)).
  assert (Hn : (n < length (tp_bsd t))%nat) by (subst n; rewrite Hb; lia).
  assert (Ht1 : take (S n) (tp_bsd t1) = take n (tp_bsd t) ++ [Some (b_addr m)]).
  { subst t1. simpl. fold n. rewrite (take_S_r _ _ (Some (b_addr m))) by (by apply list_lookup_insert_eq).
    by rewrite take_insert_ge by lia. }
  assert (Hf1 : forall i, (i < S n)%nat -> exists m, tp_m t1 !! i = Some (Some m)).
  { intros i Hin. subst t1. simpl. fold n. destruct (decide (i = n)) as [->|].
    - exists head. apply list_lookup_insert_eq. lia.
    - rewrite list_lookup_insert_ne by done. apply Hf. lia. }
  assert (Hp : ids (take (S n) (tp_bsd t1)) ≡ₚ b_addr m :: ids (take n (tp_bsd t)))
    by (rewrite Ht1, omap_app; simpl; by rewrite Permutation_app_comm).
  destruct (Z.eqb_spec (tp_len t + 1) (Z.of_nat MAX_PKT_BURST)) as [El|El].
  - destruct (send_burst_mbufs MAX_PKT_BURST t1) as (t' & -> & (E1 & E2 & E3) & H1 & P1);
      [done|subst t1; simpl; by rewrite length_insert|done|intros i Hi; apply Hf1; lia|]. cbn [mbind outcome_bind].
    eexists; split; [done|]. split.
    + constructor; simpl; [unfold MAX_PKT_BURST; lia|rewrite E2|rewrite E3|intros i Hi; lia|done]; subst t1; simpl;
        by rewrite length_insert.
    + unfold mbufs. simpl. rewrite P1. replace MAX_PKT_BURST with (S n) by lia. rewrite Hp. subst t1. simpl.
      change (b_addr m :: ids (take n (tp_bsd t))) with ([b_addr m] ++ ids (take n (tp_bsd t))).
      set (rest := ids (take (Z.to_nat (tp_len t)) _) ++ _). change (b_addr m :: rest) with ([b_addr m] ++ rest). subst rest. fold n. perm.
  - eexists; split; [done|]. split.
    + constructor; simpl; [lia|by rewrite length_insert|by rewrite length_insert| |done].
      intros i Hi. apply Hf1. lia.
    + change (mbufs (set_len (tp_len t + 1) t1)) with
        (ids (take (Z.to_nat (tp_len t + 1)) (tp_bsd t1)) ++ ids (r_table (tp_ring t)) ++ tp_bfreed t).
      replace (Z.to_nat (tp_len t + 1)) with (S n) by lia. by rewrite Hp.
Qed.

Lemma drain_mbufs t : tx_inv t -> exists t', drain_pages tx_takes t = Done t' /\ tx_inv t' /\ mbufs t' ≡ₚ mbufs t.
Proof.
  intros [Hlen Hm Hb Hf Hr]. unfold drain_pages. destruct (tp_len t =? 0); [by exists t|].
  destruct (send_burst_mbufs (Z.to_nat (tp_len t)) t) as (t' & E & (E1 & E2 & E3) & H1 & P1); [done|done|lia|done|].
  rewrite Z2Nat.id in E by lia. rewrite E. cbn [mbind outcome_bind]. eexists; split; [done|]. split.
  - constructor; simpl; [unfold MAX_PKT_BURST; lia|by rewrite E2|by rewrite E3|intros i Hi; lia|done].
  - unfold mbufs. simpl. rewrite P1. perm.
Qed.
End transmit.

(** What the stack and the main loop do with a port. *)
Inductive tx_op := SendPkt (m : bsd) (total : Z) | Drain.

Section runs.
Context (pg : pages) (alloc_ok : Z -> bool) (tx_takes : Z -> nat -> nat).

Definition tx_step (o : tx_op) (t : txport) : outcome txport :=
  match o with
  | SendPkt m total => if_send_pages pg alloc_ok tx_takes (Some m) total t
  | Drain => drain_pages tx_takes t
  end.

Fixpoint tx_run (os : list tx_op) (t : txport) : outcome txport :=
  match os with
  | [] => Done t
  | o :: r => t1 ← tx_step o t; tx_run r t1
  end.

Definition tx_op_ok (o : tx_op) : Prop := match o with SendPkt m _ => sendable pg m | Drain => True end.
Definition submitted (os : list tx_op) : list Z := omap (fun o => match o with SendPkt m _ => Some (b_addr m) | Drain => None end) os.

Lemma tx_inv_init : tx_inv txport0.
Proof.
  constructor; [simpl; unfold MAX_PKT_BURST; lia|done|done|simpl; intros i Hi; lia|]. do 2 eexists. apply ring_inv_init.
Qed.

(** While the pools have buffers, every packet that the stack sends without
    copying is afterwards in exactly one place - waiting in the transmit table,
    held in the ring for the NIC, or freed - whatever the NIC takes of each burst,
    and no operation faults. *)
Theorem tx_mbufs_accounted (os : list tx_op) :
  (forall k, alloc_ok k = true) -> Forall tx_op_ok os ->
  exists t, tx_run os txport0 = Done t /\ tx_inv t /\ mbufs t ≡ₚ submitted os.
Proof.
  intros Ha Hos. assert (H0 : mbufs txport0 = []) by reflexivity. pose proof tx_inv_init as Hi.
  enough (H : exists t, tx_run os txport0 = Done t /\ tx_inv t /\ mbufs t ≡ₚ submitted os ++ mbufs txport0)
    by (rewrite H0, app_nil_r in H; done).
  clear H0. revert Hi. generalize txport0; induction Hos as [|o os Ho Hos IH]; intros t Hi; cbn [tx_run]; [by exists t|].
  destruct o as [m total|]; simpl tx_step.
  - destruct (if_send_mbufs pg alloc_ok tx_takes Ha m total t Ho Hi) as (t1 & -> & H1 & P1). cbn [mbind outcome_bind].
    destruct (IH t1 H1) as (t' & -> & H2 & P2). exists t'. split_and!; [done..|]. rewrite P2, P1. simpl. by rewrite Permutation_middle.
  - destruct (drain_mbufs tx_takes t Hi) as (t1 & -> & H1 & P1). cbn [mbind outcome_bind].
    destruct (IH t1 H1) as (t' & -> & H2 & P2). exists t'. split_and!; [done..|]. by rewrite P2, P1.
Qed.

(** When the pool has no buffer for a packet, the packet is freed and the length
    of the transmit table becomes 0: the packets that waited in it are neither
    sent nor freed, and their mbufs are in no place any more. *)
Theorem tx_failure_loses_table (m : bsd) (total d l : Z) (r : list (Z * Z)) (t : txport) :
  b_chain m = (d, l) :: r -> ff_chk_vma pg d = true -> alloc_ok (tp_allocs t) = false ->
  exists t', if_send_pages pg alloc_ok tx_takes (Some m) total t = Done t' /\
    tp_len t' = 0 /\ tp_sent t' = tp_sent t /\ tp_rfreed t' = tp_rfreed t /\
    mbufs t' = ids (r_table (tp_ring t)) ++ tp_bfreed t ++ [b_addr m].
Proof.
  intros Ec Hv Ha. unfold if_send_pages, ff_if_send_onepkt. rewrite (aread_lookup _ 0 (d, l)) by (rewrite ?Ec; done).
  cbn [mbind outcome_bind fst]. rewrite Hv. unfold ff_bsd_to_rte. rewrite Ha. simpl. by eexists.
Qed.
End runs.

(** * Pages *)

(** The addresses of the pages. *)
Definition page_addrs (start n : Z) : list Z := (fun i => start + PAGE_SIZE * i) <$> seqZ 0 n.

Section page_init.
Context (virt2phy : Z -> option Z) (start n : Z).
Hypothesis Hstart : 0 < start.
Hypothesis Hend : start + PAGE_SIZE * n < 2 ^ 64.

(** The loop has pushed [i] pages. *)
Record mapped (i : Z) (ctl : stklist) (phy : list Z) : Prop := Mapped {
  mp_size : size ctl = n;
  mp_top : top ctl = i;
  mp_ele : Z.of_nat (length (ele ctl)) = n;
  mp_pages : take (Z.to_nat i) (ele ctl) = page_addrs start i;
  mp_plen : Z.of_nat (length phy) = n;
  mp_phy : forall j, 0 <= j < i -> phy !! Z.to_nat j = virt2phy (start + PAGE_SIZE * j)
}.

Lemma map_pages_spec k i ctl phy :
  mapped i ctl phy -> 0 <= i -> i + Z.of_nat k = n -> (forall j, 0 <= j < n -> is_Some (virt2phy (start + PAGE_SIZE * j))) ->
  exists ctl' phy', map_pages virt2phy start (seqZ i (Z.of_nat k)) ctl phy = Done (ctl', phy') /\ mapped n ctl' phy'.
Proof.
  intros H Hi Hk Hv. revert i ctl phy H Hi Hk; induction k as [|k IH]; intros i ctl phy H Hi Hk.
  - exists ctl, phy. split; [done|]. by replace n with i by lia.
  - rewrite Nat2Z.inj_succ, seqZ_cons by lia. rewrite Z.pred_succ. cbn [map_pages].
    rewrite wrapu_small by (unfold PAGE_SIZE in *; nia). destruct H as [H1 H2 H3 H4 H5 H6].
    unfold stklist_push. rewrite H1, H2, (proj2 (Z.ltb_lt _ _)) by lia. unfold awrite at 1.
    rewrite (proj2 (Z.leb_le _ _)), (proj2 (Z.ltb_lt _ _)) by lia. cbn [mbind outcome_bind andb snd].
    destruct (Hv i) as [a Ea]; [lia|]. rewrite Ea. unfold awrite at 1.
    rewrite (proj2 (Z.leb_le _ _)), (proj2 (Z.ltb_lt _ _)) by lia. cbn [mbind outcome_bind andb].
    rewrite <- Z.add_1_r. apply IH; [|lia..]. constructor; simpl.
    + done.
    + done.
    + by rewrite length_insert.
    + replace (Z.to_nat (i + 1)) with (S (Z.to_nat i)) by lia.
      rewrite (take_S_r _ _ (start + PAGE_SIZE * i)) by (apply list_lookup_insert_eq; lia).
      rewrite take_insert_ge, H4 by lia. unfold page_addrs. rewrite seqZ_app, fmap_app by lia. done.
    + by rewrite length_insert.
    + intros j Hj. destruct (decide (j = i)) as [->|]; [rewrite list_lookup_insert_eq by lia; done|].
      rewrite list_lookup_insert_ne by lia. apply H6. lia.
Qed.
End page_init.

(** The requests for pages: one is taken, or one that is out is given back. *)
Inductive page_op := Get | Put (p : Z).

Section page_runs.
Context (mmap : Z -> Z -> Z -> Z -> Z -> Z -> option Z) (munmap : Z -> Z -> Z).
Context (PROT_READ PROT_WRITE MAP_SHARED MAP_PRIVATE MAP_ANON : Z).

Definition get_page (pg : pages) : outcome (Z * pages) :=
  ff_mmap mmap PROT_READ PROT_WRITE MAP_SHARED MAP_PRIVATE MAP_ANON 0 PAGE_SIZE 3 0x1002 (-1) 0 pg.

(** With the pages that are out. *)
Definition page_step (o : page_op) (s : pages * list Z) : outcome (pages * list Z) :=
  match o with
  | Get => x ← get_page (fst s); Done (snd x, if fst x =? 0 then snd s else fst x :: snd s)
  | Put p =>
      if decide (p ∈ snd s) then x ← ff_munmap munmap p PAGE_SIZE (fst s); Done (snd x, filter (fun q => q <> p) (snd s))
      else Done s
  end.

Fixpoint page_run (os : list page_op) (s : pages * list Z) : outcome (pages * list Z) :=
  match os with
  | [] => Done s
  | o :: r => s1 ← page_step o s; page_run r s1
  end.

Context (start n : Z).
Hypothesis Hstart : 0 < start.

Definition free_pages (pg : pages) : list Z := take (Z.to_nat (top (ff_mpage_ctl pg))) (ele (ff_mpage_ctl pg)).

(** The free pages and those that are out are all pages; the rest of the state
    does not change. *)
Record page_inv (pg0 pg : pages) (out : list Z) : Prop := PageInv {
  pi_size : size (ff_mpage_ctl pg) = n;
  pi_ele : Z.of_nat (length (ele (ff_mpage_ctl pg))) = n;
  pi_top : 0 <= top (ff_mpage_ctl pg) <= n;
  pi_all : free_pages pg ++ out ≡ₚ page_addrs start n;
  pi_same : pg = set_ctl (ff_mpage_ctl pg) pg0
}.

Lemma page_addrs_spec p : p ∈ page_addrs start n <-> exists i, 0 <= i < n /\ p = start + PAGE_SIZE * i.
Proof.
  unfold page_addrs. rewrite list_elem_of_fmap. split.
  - intros (i & -> & Hi%elem_of_seqZ). exists i. split; [lia|done].
  - intros (i & Hi & ->). exists i. split; [done|]. apply elem_of_seqZ. lia.
Qed.

Lemma page_addrs_NoDup : NoDup (page_addrs start n).
Proof. apply (NoDup_fmap_2_strong _ _); [|apply NoDup_seqZ]. unfold PAGE_SIZE. intros; lia. Qed.

Lemma get_page_spec pg0 pg out :
  page_inv pg0 pg out -> exists p pg', get_page pg = Done (p, pg') /\
    ((p = 0 /\ pg' = pg /\ out ≡ₚ page_addrs start n) \/ (p ∈ page_addrs start n /\ p ∉ out /\ page_inv pg0 pg' (p :: out))).
Proof.
  intros [H1 H2 H3 H4 H5]. change (get_page pg) with (ff_mem_get_page pg). unfold ff_mem_get_page, stklist_pop.
  set (c := ff_mpage_ctl pg) in *. rewrite Z.gtb_ltb. destruct (Z.ltb_spec 0 (top c)) as [Ht|Ht].
  - destruct (lookup_lt_is_Some_2 (ele c) (Z.to_nat (top c - 1))) as [p Ep]; [lia|].
    rewrite (aread_lookup _ _ p) by (lia || done). cbn [mbind outcome_bind fst snd]. do 2 eexists. split; [done|]. right.
    assert (Hf : free_pages pg = take (Z.to_nat (top c - 1)) (ele c) ++ [p]).
    { unfold free_pages. fold c. replace (Z.to_nat (top c)) with (S (Z.to_nat (top c - 1))) by lia. by apply take_S_r. }
    rewrite Hf, <- app_assoc in H4. pose proof page_addrs_NoDup as Hd. rewrite <- H4 in Hd.
    apply NoDup_app in Hd as (_ & _ & Hd). simpl in Hd. apply NoDup_cons in Hd as [Hp _]. split_and!.
    + rewrite <- H4. apply elem_of_app. right. by left.
    + done.
    + constructor; simpl; [done|done|lia|exact H4|]. rewrite H5. done.
  - exists 0, pg. split; [simpl; rewrite H5; done|]. left. split_and!; [done|done|]. unfold free_pages in H4. fold c in H4.
    replace (Z.to_nat (top c)) with 0%nat in H4 by lia. done.
Qed.

Lemma filter_out_perm p (l : list Z) : NoDup l -> p ∈ l -> p :: filter (fun q => q <> p) l ≡ₚ l.
Proof.
  intros Hd Hp. apply NoDup_Permutation; [|done|].
  - apply NoDup_cons. split; [rewrite list_elem_of_filter; naive_solver|by apply NoDup_filter].
  - intros x. rewrite elem_of_cons, list_elem_of_filter. destruct (decide (x = p)) as [->|]; naive_solver.
Qed.

Lemma put_page_spec pg0 pg out p :
  page_inv pg0 pg out -> p ∈ out ->
  exists pg', ff_munmap munmap p PAGE_SIZE pg = Done (0, pg') /\ page_inv pg0 pg' (filter (fun q => q <> p) out).
Proof.
  intros [H1 H2 H3 H4 H5] Hp. change (ff_munmap munmap p PAGE_SIZE pg) with (ff_mem_free_addr p pg).
  unfold ff_mem_free_addr, stklist_push. set (c := ff_mpage_ctl pg) in *.
  pose proof page_addrs_NoDup as Hd. rewrite <- H4 in Hd. apply NoDup_app in Hd as (_ & _ & Hd).
  pose proof (filter_out_perm p out Hd Hp) as Hperm.
  assert (Hlt : top c < n).
  { pose proof (Permutation_length H4) as Hl. unfold page_addrs, free_pages in Hl. fold c in Hl.
    rewrite length_app, length_take, length_fmap, length_seqZ in Hl. destruct out; [by apply elem_of_nil in Hp|]. simpl in Hl. lia. }
  rewrite H1, (proj2 (Z.ltb_lt _ _)) by lia. unfold awrite. rewrite (proj2 (Z.leb_le _ _)), (proj2 (Z.ltb_lt _ _)) by lia.
  cbn [mbind outcome_bind andb fst snd]. eexists. split; [done|]. constructor; simpl.
  - done.
  - by rewrite length_insert.
  - lia.
  - rewrite <- H4. unfold free_pages. simpl. fold c.
    replace (Z.to_nat (top c + 1)) with (S (Z.to_nat (top c))) by lia.
    rewrite (take_S_r _ _ p) by (apply list_lookup_insert_eq; lia). rewrite take_insert_ge by lia.
    rewrite <- Hperm at 2. rewrite <- app_assoc. done.
  - rewrite H5. done.
Qed.

Lemma page_run_inv pg0 os pg out :
  page_inv pg0 pg out -> exists pg' out', page_run os (pg, out) = Done (pg', out') /\ page_inv pg0 pg' out'.
Proof.
  revert pg out; induction os as [|o os IH]; intros pg out H; cbn [page_run]; [by exists pg, out|].
  assert (Hs : exists pg1 out1, page_step o (pg, out) = Done (pg1, out1) /\ page_inv pg0 pg1 out1).
  { destruct o as [|p]; cbn [page_step fst snd].
    - destruct (get_page_spec _ _ _ H) as (p & pg1 & -> & [(-> & -> & _)|(Hin & _ & H1)]); cbn [mbind outcome_bind fst snd].
      + by exists pg, out.
      + apply page_addrs_spec in Hin as (i & Hi & Ep). destruct (Z.eqb_spec p 0) as [->|]; [unfold PAGE_SIZE in Ep; nia|].
        by exists pg1, (p :: out).
    - destruct (decide (p ∈ out)) as [Hp|]; [|by exists pg, out].
      destruct (put_page_spec _ _ _ p H Hp) as (pg1 & -> & H1). cbn [mbind outcome_bind fst snd]. by do 2 eexists. }
  destruct Hs as (pg1 & out1 & -> & H1). cbn [mbind outcome_bind]. by apply IH.
Qed.
End page_runs.

Lemma s32_int x : -2147483648 <= x < 2147483648 -> s32 x = x.
Proof. intros Hx. apply wraps_small; [lia|exact Hx]. Qed.

(** Shape of the state after ff_mmap_init for [mb] megabytes. *)
Lemma mmap_init_spec virt2phy start mem phy mb :
  0 < start -> start + mb * 2 ^ 20 < 2 ^ 64 -> 0 < mb < 2 ^ 11 ->
  Z.of_nat (length mem) = mb * 256 -> Z.of_nat (length phy) = mb * 256 ->
  (forall i, 0 <= i < mb * 256 -> is_Some (virt2phy (start + PAGE_SIZE * i))) ->
  exists pg, ff_mmap_init virt2phy (Some start) (Some mem) (Some phy) mb = Done pg /\
    page_inv start (mb * 256) pg pg [] /\ ff_page_start pg = start /\ ff_page_end pg = start + mb * 2 ^ 20 /\
    forall i, 0 <= i < mb * 256 -> ff_mpage_phy pg !! Z.to_nat i = virt2phy (start + PAGE_SIZE * i).
Proof.
  change (2 ^ 20) with 1048576. change (2 ^ 11) with 2048.
  intros Hs He Hmb Hm Hp Hv. unfold ff_mmap_init. cbn [deref mbind outcome_bind].
  rewrite Z.shiftl_mul_pow2 by lia. change (2 ^ 20) with 1048576. rewrite s32_int by lia. rewrite (wrapu_small 64 (mb * 1048576)) by lia.
  rewrite Z.shiftr_div_pow2 by lia. change (2 ^ 12) with 4096.
  replace (mb * 1048576 / 4096) with (mb * 256) by (replace (mb * 1048576) with (mb * 256 * 4096) by lia; by rewrite Z.div_mul).
  rewrite (wrapu_small 32), s32_int by lia. unfold stklist_init. rewrite (proj2 (Z.leb_gt _ _)) by lia. cbn [fst].
  destruct (map_pages_spec virt2phy start (mb * 256) Hs) with (k := Z.to_nat (mb * 256)) (i := 0) (ctl := StkList mem (mb * 256) 0) (phy := phy)
    as (ctl & phy' & E & [M1 M2 M3 M4 M5 M6]); [unfold PAGE_SIZE; lia| |lia|lia|done|].
  { constructor; simpl; try done. intros; lia. }
  rewrite Z2Nat.id in E by lia. rewrite E. cbn [mbind outcome_bind fst snd]. eexists. split; [done|]. split_and!.
  - constructor; simpl; [done|done|lia| |done]. unfold free_pages. simpl. rewrite M2, M4, app_nil_r. done.
  - done.
  - simpl. by rewrite wrapu_small by lia.
  - exact M6.
Qed.

Lemma virt2phy_spec pg start n p i a off :
  page_inv start n pg pg [] -> ff_page_start pg = start -> 0 < start -> start mod PAGE_SIZE = 0 ->
  start + PAGE_SIZE * n < 2 ^ 64 -> n < 2 ^ 32 -> 0 <= i < n -> p = start + PAGE_SIZE * i -> 0 <= off < PAGE_SIZE ->
  ff_mpage_phy pg !! Z.to_nat i = Some a -> ff_mem_virt2phy pg (p + off) = Done (u64 (a + off)).
Proof.
  intros [H1 _ _ _ _] Es Hs Ha He Hn Hi -> Ho Hp. unfold ff_mem_virt2phy, stklist_size. rewrite Es, H1.
  unfold PAGE_SIZE, PAGE_SHIFT in *. rewrite (wrapu_small 64), Z.shiftr_div_pow2 by lia. change (2 ^ 12) with 4096.
  replace ((start + 4096 * i + off - start) / 4096) with i
    by (replace (start + 4096 * i + off - start) with (off + i * 4096) by lia; rewrite Z.div_add, Z.div_small by lia; lia).
  rewrite !(wrapu_small 32), Z.geb_leb, (proj2 (Z.leb_gt _ _)) by lia. rewrite (aread_lookup _ _ _ (proj1 Hi) Hp). cbn [mbind outcome_bind].
  do 2 f_equal. f_equal. unfold PAGE_MASK, PAGE_SIZE. change (4096 - 1) with (Z.ones 12). rewrite Z.land_ones by lia. change (2 ^ 12) with 4096.
  replace (start + 4096 * i + off) with (off + start + i * 4096) by lia. rewrite Z.mod_add by lia.
  rewrite <- Z.add_mod_idemp_r, Ha, Z.add_0_r by lia. apply Z.mod_small. lia.
Qed.

(** C38. After ff_mmap_init, in any sequence of requests for single pages, every page
    is either free or out, once; a request gives a page that is not out, and NULL
    only when all are; a page that is given back is accepted; and an address inside
    a page is translated to the physical address of the page plus the offset. *)
Theorem pages_conserved mmap munmap pr pw ms mp ma virt2phy start mem phy mb :
  0 < start -> start mod PAGE_SIZE = 0 -> start + mb * 2 ^ 20 < 2 ^ 64 -> 0 < mb < 2 ^ 11 ->
  Z.of_nat (length mem) = mb * 256 -> Z.of_nat (length phy) = mb * 256 ->
  (forall i, 0 <= i < mb * 256 -> is_Some (virt2phy (start + PAGE_SIZE * i))) ->
  exists pg0, ff_mmap_init virt2phy (Some start) (Some mem) (Some phy) mb = Done pg0 /\
    forall os, exists pg out, page_run mmap munmap pr pw ms mp ma os (pg0, []) = Done (pg, out) /\
      free_pages pg ++ out ≡ₚ page_addrs start (mb * 256) /\ NoDup (free_pages pg ++ out) /\
      (exists p pg', get_page mmap pr pw ms mp ma pg = Done (p, pg') /\
        if bool_decide (Z.of_nat (length out) = mb * 256) then p = 0 else p ∈ page_addrs start (mb * 256) /\ p ∉ out) /\
      (forall p, p ∈ out -> exists pg', ff_munmap munmap p PAGE_SIZE pg = Done (0, pg') /\ p ∈ free_pages pg') /\
      (forall p a off, p ∈ page_addrs start (mb * 256) -> virt2phy p = Some a -> 0 <= off < PAGE_SIZE ->
        ff_mem_virt2phy pg (p + off) = Done (u64 (a + off))).
Proof.
  intros Hs Ha He Hmb Hm Hp Hv. destruct (mmap_init_spec virt2phy start mem phy mb) as (pg0 & E & HI & Es & Ee & Hphy); [done..|].
  exists pg0. split; [done|]. intros os.
  assert (He' : start + PAGE_SIZE * (mb * 256) < 2 ^ 64) by (change (2 ^ 20) with 1048576 in He; unfold PAGE_SIZE; lia).
  change (2 ^ 11) with 2048 in Hmb.
  destruct (page_run_inv mmap munmap pr pw ms mp ma start (mb * 256) Hs pg0 os pg0 [] HI) as (pg & out & -> & H).
  exists pg, out. split; [done|]. pose proof (pi_all _ _ _ _ _ H) as Hall. split; [done|]. split; [rewrite Hall; apply page_addrs_NoDup|].
  split_and!.
  - destruct (get_page_spec mmap pr pw ms mp ma start (mb * 256) pg0 pg out H) as (p & pg' & -> & Hg).
    exists p, pg'. split; [done|]. pose proof (Permutation_length Hall) as Hl. rewrite length_app in Hl.
    assert (Hn : length (page_addrs start (mb * 256)) = Z.to_nat (mb * 256)) by (unfold page_addrs; rewrite length_fmap, length_seqZ; lia).
    case_bool_decide as Ho; destruct Hg as [(-> & _ & Hp')|(Hin & Hout & H')]; [done| | |done].
    + pose proof (Permutation_length (pi_all _ _ _ _ _ H')) as Hl'. rewrite length_app in Hl'. simpl in Hl'. lia.
    + apply Permutation_length in Hp'. lia.
  - intros p Hp'. destruct (put_page_spec mmap munmap start (mb * 256) pg0 pg out p H Hp') as (pg' & -> & H'). exists pg'. split; [done|].
    assert (Hin : p ∈ free_pages pg ++ out) by (apply elem_of_app; by right).
    rewrite Hall, <- (pi_all _ _ _ _ _ H'), elem_of_app, list_elem_of_filter in Hin. naive_solver.
  - intros p a off Hin Hpa Ho. apply page_addrs_spec in Hin as (i & Hi & ->). rewrite (pi_same _ _ _ _ _ H).
    pose proof (pi_size _ _ _ _ _ H) as Hsz.
    transitivity (ff_mem_virt2phy pg0 (start + PAGE_SIZE * i + off)).
    { unfold ff_mem_virt2phy, stklist_size. simpl. by rewrite Hsz, (pi_size _ _ _ _ _ HI). }
    eapply virt2phy_spec; [done..|lia|done|done|done|]. by rewrite Hphy.
Qed.

(** * Instances and defects *)

Lemma pages_conserved_witness :
  exists pg0, ff_mmap_init (fun a => Some (a + 2 ^ 32)) (Some 65536) (Some (replicate 256 0)) (Some (replicate 256 0)) 1 = Done pg0 /\
    exists pg out, page_run (fun _ _ _ _ _ _ => None) (fun _ _ => 0) 1 2 1 2 32 [Get; Get; Put 65536; Get] (pg0, []) = Done (pg, out) /\
      free_pages pg ++ out ≡ₚ page_addrs 65536 256 /\ NoDup (free_pages pg ++ out).
Proof.
  destruct (pages_conserved (fun _ _ _ _ _ _ => None) (fun _ _ => 0) 1 2 1 2 32 (fun a => Some (a + 2 ^ 32)) 65536 (replicate 256 0) (replicate 256 0) 1)
    as (pg0 & E & H).
  - lia.
  - reflexivity.
  - reflexivity.
  - split; reflexivity.
  - reflexivity.
  - reflexivity.
  - intros i _. by eexists.
  - exists pg0. split; [exact E|]. destruct (H [Get; Get; Put 65536; Get]) as (pg & out & H1 & H2 & H3 & _).
    exists pg, out. split; [exact H1|]. split; [exact H2|exact H3].
Defined.

Definition two_pages : pages := Pages (StkList [0; 0] 2 0) 4096 12288 [5 * 4096; 9 * 4096].
Definition sample_bsd (a : Z) : bsd := Bsd a [(4200, 54); (8192, 1000)] None.
Definition sample_ops : list tx_op := [SendPkt (sample_bsd 1) 1054; SendPkt (sample_bsd 2) 1054; Drain; SendPkt (sample_bsd 3) 1054].

Lemma sample_sendable a : sendable two_pages (sample_bsd a).
Proof.
  exists 4200, 54, [(8192, 1000)]. split; [done|]. change (ff_chk_vma two_pages 4200) with true. cbn iota.
  intros x Hx. simpl in Hx. rewrite !elem_of_cons, elem_of_nil in Hx. destruct Hx as [->|[->|[]]]; vm_compute; by eexists.
Qed.

(** The NIC takes one packet of each burst. *)
Lemma tx_mbufs_accounted_witness :
  exists t, tx_run two_pages (fun _ => true) (fun _ _ => 1%nat) sample_ops txport0 = Done t /\ tx_inv t /\ mbufs t ≡ₚ [1; 2; 3].
Proof.
  apply (tx_mbufs_accounted two_pages (fun _ => true) (fun _ _ => 1%nat) sample_ops); [reflexivity|].
  repeat constructor; apply sample_sendable.
Defined.

Lemma tx_failure_loses_table_witness :
  exists t', if_send_pages two_pages (fun _ => false) (fun _ n => n) (Some (sample_bsd 7)) 1054
      (set_tables (tp_m txport0) (<[0%nat := Some 6]> (tp_bsd txport0)) (set_len 1 txport0)) = Done t' /\
    tp_len t' = 0 /\ tp_sent t' = [] /\ tp_rfreed t' = [] /\ mbufs t' = [7].
Proof.
  destruct (tx_failure_loses_table two_pages (fun _ => false) (fun _ n => n) (sample_bsd 7) 1054 4200 54 [(8192, 1000)]
    (set_tables (tp_m txport0) (<[0%nat := Some 6]> (tp_bsd txport0)) (set_len 1 txport0))) as (t' & H1 & H2 & H3 & H4 & H5);
    [reflexivity|reflexivity|reflexivity|].
  exists t'. split; [exact H1|]. split; [exact H2|]. split; [exact H3|]. split; [exact H4|]. rewrite H5. vm_compute. reflexivity.
Defined.

(** A dispatcher's response is put where a packet of the stack was before: the
    stale mbuf beside it enters the ring again. *)
Lemma response_doubles_mbuf :
  match (t1 ← if_send_pages two_pages (fun _ => true) (fun _ n => n) (Some (sample_bsd 1)) 1054 txport0;
         t2 ← drain_pages (fun _ n => n) t1;
         t3 ← send_single_pages (fun _ n => n) (Rte 60 [(0, 0, 60)]) t2;
         drain_pages (fun _ n => n) t3) with
  | Done t => ids (r_table (tp_ring t)) = [1; 1]
  | _ => False
  end.
Proof. vm_compute. reflexivity. Qed.

(** [--h < 0] is never true of a uint16_t: from head 0, ff_txring_pop reads outside
    the ring. *)
Lemma txring_pop_wraps (t : list (option Z)) (n : Z) :
  Z.of_nat (length t) = TX_QUEUE_SIZE -> 0 < n -> ff_txring_pop (TxRing t 0) n = Fault.
Proof.
  intros Hl Hn. unfold ff_txring_pop. destruct (Z.to_nat n) as [|k] eqn:En; [lia|]. cbn [txring_pop r_table r_head].
  change (Head_DEC 0) with 65535. unfold aread at 1. simpl (0 <=? 65535). cbn iota.
  rewrite lookup_ge_None_2 by (unfold TX_QUEUE_SIZE in Hl; lia). done.
Qed.

(** The first byte of the first page is not taken for a page's. *)
Lemma chk_vma_first_byte (pg : pages) : ff_chk_vma pg (ff_page_start pg) = false.
Proof. unfold ff_chk_vma. by rewrite Z.gtb_ltb, Z.ltb_irrefl. Qed.
