(* ===== verification/TcpReass.v ===== *)
(** The reassembly queue of TCP (src/freebsd/netinet/tcp_reass.c): tcp_reass and
    tcp_reass_flush on the queue of a connection, with sequence numbers of 32 bits, and
    the step of tcp_do_segment (tcp_input.c) that calls it or goes around it.
    The receive buffer is an interface, which TcpDeliver discharges with the socket
    buffer. *)
From stdpp Require Import base list.
From Stdlib Require Import ZArith Lia.
From S2P Require Import Prelude.

Local Open Scope Z_scope.

(** * Interface *)

(** What tcp_reass uses of mbuf chains ([M]) and of the receive buffer ([B]), and
    the removal of what the application has read. *)
Class RecvBuf (B M : Type) := {
  m_data : M -> list Z;
  m_adj : M -> Z -> M;                      (* with a positive count *)
  rb_append : B -> M -> outcome B;          (* sbappendstream_locked *)
  rb_drop : B -> Z -> outcome B;            (* sbdrop_locked *)
  rb_data : B -> list Z;
  (** The chains can be appended to the buffer. *)
  rb_ok : B -> list M -> Prop
}.

Class RecvBufLaws (B M : Type) `{!RecvBuf B M} : Prop := {
  m_adj_data (m : M) n : 0 <= n -> m_data (m_adj m n) = drop (Z.to_nat n) (m_data m);
  rb_append_ok (b : B) (m : M) ms : rb_ok b (m :: ms) ->
    exists b', rb_append b m = Done b' /\ rb_data b' = rb_data b ++ m_data m /\ rb_ok b' ms;
  rb_drop_ok (b : B) n ms : rb_ok b ms -> 0 <= n <= Z.of_nat (length (rb_data b)) ->
    exists b', rb_drop b n = Done b' /\ rb_data b' = drop (Z.to_nat n) (rb_data b) /\ rb_ok b' ms;
  rb_ok_perm (b : B) (ms ms' : list M) : ms ≡ₚ ms' -> rb_ok b ms -> rb_ok b ms';
  rb_ok_free (b : B) (m : M) ms : rb_ok b (m :: ms) -> rb_ok b ms;
  rb_ok_adj (b : B) (m : M) n ms : 0 <= n -> rb_ok b (m :: ms) -> rb_ok b (m_adj m n :: ms)
}.

(** * State *)

Definition TCPS_ESTABLISHED : Z := 4.
Definition TCPS_HAVEESTABLISHED (s : Z) : bool := s >=? TCPS_ESTABLISHED.
Definition TH_FIN : Z := 1.

(** SEQ_GT *)
Definition SEQ_GT (a b : Z) : bool := s32 (a - b) >? 0.

(** struct tseg_qent with the fields of its header; [tq_stack] marks the entry
    [tqs] on the stack of the running call. *)
Record tseg (M : Type) := TSeg { tq_seq : Z; tq_flags : Z; tq_len : Z; tq_m : M; tq_stack : bool }.
Arguments TSeg {M}. Arguments tq_seq {M}. Arguments tq_flags {M}. Arguments tq_len {M}. Arguments tq_m {M}. Arguments tq_stack {M}.

(** The counters of TCPSTAT that are used. *)
Record reass_stats := Stats {
  tcps_rcvreassfull : Z; tcps_rcvmemdrop : Z; tcps_rcvduppack : Z; tcps_rcvdupbyte : Z; tcps_rcvoopack : Z; tcps_rcvoobyte : Z
}.

(** The fields of struct tcpcb and of the socket that are used, the entries taken
    from the zone, the calls of uma_zalloc, and the chains given to m_freem. *)
Record tcb (B M : Type) := Tcb {
  t_state : Z;
  rcv_nxt : Z;
  t_segq : list (tseg M);
  t_segqlen : Z;
  t_rcvoopack : Z;
  t_maxseg : Z;
  so_rcv : B;
  sb_hiwat : Z;
  cantrcvmore : bool;
  z_used : Z;
  z_calls : Z;
  m_freed : list M;
  stats : reass_stats
}.
Arguments Tcb {B M}. Arguments t_state {B M}. Arguments rcv_nxt {B M}. Arguments t_segq {B M}. Arguments t_segqlen {B M}.
Arguments t_rcvoopack {B M}. Arguments t_maxseg {B M}. Arguments so_rcv {B M}. Arguments sb_hiwat {B M}. Arguments cantrcvmore {B M}.
Arguments z_used {B M}. Arguments z_calls {B M}. Arguments m_freed {B M}. Arguments stats {B M}.

Section reass.
Context {B M : Type} `{!RecvBuf B M}.
(** The answers of uma_zalloc. *)
Variable zalloc : Z -> bool.

#[local] Abbreviation tcb := (tcb B M).
#[local] Abbreviation tseg := (tseg M).

Definition set_segq (q : list tseg) (n : Z) (tp : tcb) : tcb :=
  Tcb (t_state tp) (rcv_nxt tp) q n (t_rcvoopack tp) (t_maxseg tp) (so_rcv tp) (sb_hiwat tp) (cantrcvmore tp) (z_used tp) (z_calls tp) (m_freed tp) (stats tp).
Definition set_rcv (nxt : Z) (b : B) (tp : tcb) : tcb :=
  Tcb (t_state tp) nxt (t_segq tp) (t_segqlen tp) (t_rcvoopack tp) (t_maxseg tp) b (sb_hiwat tp) (cantrcvmore tp) (z_used tp) (z_calls tp) (m_freed tp) (stats tp).
Definition set_zone (used calls : Z) (tp : tcb) : tcb :=
  Tcb (t_state tp) (rcv_nxt tp) (t_segq tp) (t_segqlen tp) (t_rcvoopack tp) (t_maxseg tp) (so_rcv tp) (sb_hiwat tp) (cantrcvmore tp) used calls (m_freed tp) (stats tp).
Definition free_m (l : list M) (tp : tcb) : tcb :=
  Tcb (t_state tp) (rcv_nxt tp) (t_segq tp) (t_segqlen tp) (t_rcvoopack tp) (t_maxseg tp) (so_rcv tp) (sb_hiwat tp) (cantrcvmore tp) (z_used tp) (z_calls tp) (m_freed tp ++ l) (stats tp).
Definition set_oopack (n : Z) (tp : tcb) : tcb :=
  Tcb (t_state tp) (rcv_nxt tp) (t_segq tp) (t_segqlen tp) n (t_maxseg tp) (so_rcv tp) (sb_hiwat tp) (cantrcvmore tp) (z_used tp) (z_calls tp) (m_freed tp) (stats tp).
Definition set_stats (s : reass_stats) (tp : tcb) : tcb :=
  Tcb (t_state tp) (rcv_nxt tp) (t_segq tp) (t_segqlen tp) (t_rcvoopack tp) (t_maxseg tp) (so_rcv tp) (sb_hiwat tp) (cantrcvmore tp) (z_used tp) (z_calls tp) (m_freed tp) s.

(** * Operations *)

Fixpoint flush_loop (q : list tseg) (tp : tcb) : tcb :=
  match q with
  | [] => set_segq [] (t_segqlen tp) tp
  | qe :: r => flush_loop r (set_segq r (t_segqlen tp - 1) (set_zone (z_used tp - 1) (z_calls tp) (free_m [tq_m qe] tp)))
  end.

(** The assertion at its end is a [Fault]. *)
Definition tcp_reass_flush (tp : tcb) : outcome tcb :=
  let tp := flush_loop (t_segq tp) tp in
  if t_segqlen tp =? 0 then Done tp else Fault.

(** The segments up to the first one that begins after [seq], and the rest. *)
Fixpoint seg_split (q : list tseg) (seq : Z) : list tseg * list tseg :=
  match q with
  | [] => ([], [])
  | e :: r => if SEQ_GT (tq_seq e) seq then ([], q) else let '(a, b) := seg_split r seq in (e :: a, b)
  end.

(** The succeeding segments, trimmed behind [endseq], and those removed. *)
Fixpoint trim_after (endseq : Z) (q : list tseg) : list tseg * list tseg :=
  match q with
  | [] => ([], [])
  | e :: r =>
      let i := s32 (endseq - tq_seq e) in
      if i <=? 0 then (q, [])
      else if i <? tq_len e then
        (TSeg (u32 (tq_seq e + i)) (tq_flags e) (tq_len e - i) (m_adj (tq_m e) i) (tq_stack e) :: r, [])
      else let '(k, d) := trim_after endseq r in (k, e :: d)
  end.

(** The loop that presents data: the first entry is at rcv_nxt. *)
Fixpoint present_loop (q : list tseg) (flags : Z) (tp : tcb) : outcome (tcb * Z) :=
  match q with
  | [] => Done (tp, flags)
  | e :: r =>
      if tq_seq e =? rcv_nxt tp then
        let nxt := u32 (rcv_nxt tp + tq_len e) in
        let tp := if tq_stack e then tp else set_zone (z_used tp - 1) (z_calls tp) tp in
        tp ← (if cantrcvmore tp then Done (free_m [tq_m e] (set_rcv nxt (so_rcv tp) tp))
              else b ← rb_append (so_rcv tp) (tq_m e); Done (set_rcv nxt b tp));
        present_loop r (Z.land (tq_flags e) TH_FIN) (set_segq r (t_segqlen tp - 1) tp)
      else Done (tp, flags)
  end.

Definition present (tp : tcb) : outcome (tcb * Z) :=
  if negb (TCPS_HAVEESTABLISHED (t_state tp)) then Done (tp, 0)
  else present_loop (t_segq tp) 0 tp.

(** The part behind the allocation of the entry. *)
Definition reass_insert (tp : tcb) (seq flags tlen : Z) (m : M) (stack : bool) : outcome (tcb * Z * Z) :=
  let tp := set_segq (t_segq tp) (t_segqlen tp + 1) tp in
  let '(before, after) := seg_split (t_segq tp) seq in
  let i := match last before with Some p => s32 (tq_seq p + tq_len p - seq) | None => 0 end in
  if (i >? 0) && (i >=? tlen) then
    let s := stats tp in
    let tp := set_stats (Stats (tcps_rcvreassfull s) (tcps_rcvmemdrop s) (tcps_rcvduppack s + 1) (tcps_rcvdupbyte s + tlen)
                           (tcps_rcvoopack s) (tcps_rcvoobyte s)) (free_m [m] tp) in
    let tp := if stack then tp else set_zone (z_used tp - 1) (z_calls tp) tp in
    x ← present (set_segq (t_segq tp) (t_segqlen tp - 1) tp); Done (fst x, snd x, tlen)
  else
    let '(m, tlen, seq) := if i >? 0 then (m_adj m i, tlen - i, u32 (seq + i)) else (m, tlen, seq) in
    let s := stats tp in
    let tp := set_oopack (t_rcvoopack tp + 1)
                (set_stats (Stats (tcps_rcvreassfull s) (tcps_rcvmemdrop s) (tcps_rcvduppack s) (tcps_rcvdupbyte s)
                              (tcps_rcvoopack s + 1) (tcps_rcvoobyte s + tlen)) tp) in
    let '(kept, gone) := trim_after (u32 (seq + tlen)) after in
    let n := Z.of_nat (length gone) in
    let tp := set_zone (z_used tp - n) (z_calls tp) (free_m (tq_m <$> gone) tp) in
    match before, stack with
    | _ :: _, true => Fault
    | _, _ =>
        x ← present (set_segq (before ++ TSeg seq flags tlen m stack :: kept) (t_segqlen tp - n) tp);
        Done (fst x, snd x, tlen)
    end.

(** [th] is the sequence number and flags of the segment, [None] for the call with
    NULL.  The result is the state, the flags and the length left in *tlenp. *)
Definition tcp_reass (tp : tcb) (th : option (Z * Z)) (tlen : Z) (m : M) : outcome (tcb * Z * Z) :=
  match th with
  | None => x ← present tp; Done (fst x, snd x, tlen)
  | Some (seq, flags) =>
      let missing := (seq =? rcv_nxt tp) && TCPS_HAVEESTABLISHED (t_state tp) in
      let s := stats tp in
      if negb missing && (t_maxseg tp =? 0) then Fault
      else if negb missing && (t_segqlen tp >=? sb_hiwat tp / t_maxseg tp + 1) then
        Done (free_m [m] (set_stats (Stats (tcps_rcvreassfull s + 1) (tcps_rcvmemdrop s) (tcps_rcvduppack s)
                                       (tcps_rcvdupbyte s) (tcps_rcvoopack s) (tcps_rcvoobyte s)) tp), 0, 0)
      else if zalloc (z_calls tp) then
        reass_insert (set_zone (z_used tp + 1) (z_calls tp + 1) tp) seq flags tlen m false
      else if negb missing then
        Done (set_zone (z_used tp) (z_calls tp + 1)
                (free_m [m] (set_stats (Stats (tcps_rcvreassfull s) (tcps_rcvmemdrop s + 1) (tcps_rcvduppack s)
                                          (tcps_rcvdupbyte s) (tcps_rcvoopack s) (tcps_rcvoobyte s)) tp)), 0, 0)
      else reass_insert (set_zone (z_used tp) (z_calls tp + 1) tp) seq flags tlen m true
  end.

(** * The input of data *)

(** The common case of tcp_do_segment: the next segment and an empty queue. *)
Definition in_order (tp : tcb) (tlen : Z) (m : M) : outcome tcb :=
  let nxt := u32 (rcv_nxt tp + tlen) in
  if cantrcvmore tp then Done (free_m [m] (set_rcv nxt (so_rcv tp) tp))
  else b ← rb_append (so_rcv tp) m; Done (set_rcv nxt b tp).

(** Where tcp_do_segment has the text of a segment, without TCP Fast Open: the state,
    the flags and the length. *)
Definition tcp_data (tp : tcb) (seq flags tlen : Z) (m : M) : outcome (tcb * Z * Z) :=
  if (seq =? rcv_nxt tp) && match t_segq tp with [] => true | _ => false end && TCPS_HAVEESTABLISHED (t_state tp) then
    tp ← in_order tp tlen m; Done (tp, Z.land flags TH_FIN, tlen)
  else tcp_reass tp (Some (seq, flags)) tlen m.
End reass.
