(* ===== verification/TcpReassSpec.v ===== *)
(** tcp_reass refines a set of received positions of the peer's byte stream: the
    queue holds disjoint pieces of the stream in order, and rcv_nxt is the first
    position that was not received. *)
From stdpp Require Import base list.
From Stdlib Require Import ZArith Lia.
From S2P Require Import Prelude TcpReass.

Local Open Scope Z_scope.

(** * Sequence numbers *)

Lemma u32_quot x : exists k, u32 x = x + k * 2 ^ 32.
Proof. exists (- (x / 2 ^ 32)). unfold wrapu. pose proof (Z.div_mod x (2 ^ 32) ltac:(lia)). lia. Qed.

Lemma s32_period x k : s32 (x + k * 2 ^ 32) = s32 x.
Proof.
  unfold wraps. replace (x + k * 2 ^ 32 + 2 ^ (32 - 1)) with (x + 2 ^ (32 - 1) + k * 2 ^ 32) by lia. by rewrite Z.mod_add.
Qed.

Lemma s32_near x : - 2 ^ 31 <= x < 2 ^ 31 -> s32 x = x.
Proof. intros H. by apply wraps_small. Qed.

(** Positions less than 2^31 apart are compared right. *)
Lemma seq_diff x y d : - 2 ^ 31 <= x + d - y < 2 ^ 31 -> s32 (u32 x + d - u32 y) = x + d - y.
Proof.
  intros H. destruct (u32_quot x) as [k ->]. destruct (u32_quot y) as [l ->].
  replace (x + k * 2 ^ 32 + d - (y + l * 2 ^ 32)) with (x + d - y + (k - l) * 2 ^ 32) by lia.
  rewrite s32_period. by apply s32_near.
Qed.

Lemma seq_diff0 x y : - 2 ^ 31 <= x - y < 2 ^ 31 -> s32 (u32 x - u32 y) = x - y.
Proof. intros H. rewrite <- (Z.add_0_r (u32 x)), seq_diff; lia. Qed.

Lemma u32_add x d : u32 (u32 x + d) = u32 (x + d).
Proof. unfold wrapu. apply Z.add_mod_idemp_l. lia. Qed.

Lemma seq_eq x y : Z.abs (x - y) < 2 ^ 31 -> (u32 x =? u32 y) = (x =? y).
Proof.
  intros H. destruct (Z.eqb_spec x y) as [->|Hn]; [apply Z.eqb_refl|]. apply Z.eqb_neq. intros E.
  pose proof (seq_diff0 x y ltac:(lia)) as Hd. rewrite E, Z.sub_diag in Hd. change (s32 0) with 0 in Hd. lia.
Qed.

(** * The stream *)

Section stream.
Context (D : Z -> Z).

Definition sub (s n : Z) : list Z := D <$> seqZ s n.

Lemma sub_length s n : length (sub s n) = Z.to_nat n.
Proof. unfold sub. by rewrite length_fmap, length_seqZ. Qed.

Lemma sub_app s n k : 0 <= n -> 0 <= k -> sub s n ++ sub (s + n) k = sub s (n + k).
Proof. intros. unfold sub. by rewrite <- fmap_app, <- seqZ_app. Qed.

Lemma sub_drop s n k : 0 <= k <= n -> drop (Z.to_nat k) (sub s n) = sub (s + k) (n - k).
Proof.
  intros H. replace n with (k + (n - k)) at 1 by lia. rewrite <- sub_app by lia. apply drop_app_length'. by rewrite sub_length.
Qed.
End stream.

(** * The queue *)

Section queue.
Context {B M : Type} `{!RecvBuf B M, !RecvBufLaws B M}.
(** The peer's stream, its initial sequence number and the window. *)
(** [out]: the bytes that the application has taken from the buffer. *)
Context (D : Z -> Z) (out : list Z) (isn W : Z).

#[local] Abbreviation tseg := (tseg M).

(** The entry holds the piece of the stream at [s]. *)
Definition ent_ok (e : tseg) (s : Z) : Prop :=
  tq_seq e = u32 (isn + s) /\ 0 <= tq_len e /\ m_data (tq_m e) = sub D s (tq_len e).

(** The entries are at the positions [ss], in order and disjoint, between [lo] and
    [hi]. *)
Fixpoint queue_ok (lo hi : Z) (q : list tseg) (ss : list Z) : Prop :=
  match q, ss with
  | [], [] => lo <= hi
  | e :: r, s :: t => lo <= s /\ ent_ok e s /\ queue_ok (s + tq_len e) hi r t
  | _, _ => False
  end.

(** The positions that the queue holds. *)
Fixpoint covers (q : list tseg) (ss : list Z) (x : Z) : Prop :=
  match q, ss with
  | e :: r, s :: t => s <= x < s + tq_len e \/ covers r t x
  | _, _ => False
  end.

Lemma queue_ok_bounds lo hi q ss : queue_ok lo hi q ss -> lo <= hi.
Proof.
  revert lo ss; induction q as [|e q IH]; intros lo [|s ss]; simpl; [done..|]. intros (H1 & (_ & H2 & _) & H3). apply IH in H3. lia.
Qed.

Lemma queue_ok_weaken lo lo' hi hi' q ss : queue_ok lo hi q ss -> lo' <= lo -> hi <= hi' -> queue_ok lo' hi' q ss.
Proof.
  revert lo lo' ss; induction q as [|e q IH]; intros lo lo' [|s ss]; simpl; [lia|done|done|].
  intros (H1 & H2 & H3) H4 H5. split; [lia|]. split; [done|]. eapply IH; [done|lia|done].
Qed.

Lemma queue_ok_join lo mid hi a sa b sb :
  queue_ok lo mid a sa -> queue_ok mid hi b sb -> queue_ok lo hi (a ++ b) (sa ++ sb).
Proof.
  revert lo sa; induction a as [|e a IH]; intros lo [|s sa]; simpl; [|done|done|].
  - intros H1 H2. eapply queue_ok_weaken; [done|done|lia].
  - intros (H1 & H2 & H3) H4. split; [done|]. split; [done|]. by apply IH.
Qed.

Lemma covers_app a sa b sb x : length a = length sa -> covers (a ++ b) (sa ++ sb) x <-> covers a sa x \/ covers b sb x.
Proof. revert sa; induction a as [|e a IH]; intros [|s sa]; simpl; [tauto|done|done|]. intros [= H]. rewrite IH by done. tauto. Qed.

Lemma queue_ok_length lo hi q ss : queue_ok lo hi q ss -> length q = length ss.
Proof. revert lo ss; induction q as [|e q IH]; intros lo [|s ss]; simpl; [done..|]. intros (_ & _ & H). f_equal. by eapply IH. Qed.

Lemma covers_bounds lo hi q ss x : queue_ok lo hi q ss -> covers q ss x -> lo <= x < hi.
Proof.
  revert lo ss; induction q as [|e q IH]; intros lo [|s ss]; simpl; [done..|]. intros (H1 & (_ & H2 & _) & H3) [H|H].
  - apply queue_ok_bounds in H3. lia.
  - specialize (IH _ _ H3 H). lia.
Qed.

(** ** Looking for the place *)

(** The end of the entries in front of the place. *)
Definition end_of (lo : Z) (a : list tseg) (sa : list Z) : Z :=
  match last a, last sa with Some e, Some s => s + tq_len e | _, _ => lo end.

Lemma seg_split_spec lo hi q ss s :
  queue_ok lo hi q ss -> lo <= hi -> hi - lo < 2 ^ 31 -> lo <= s <= hi ->
  exists a b sa sb, seg_split q (u32 (isn + s)) = (a, b) /\ q = a ++ b /\ ss = sa ++ sb /\
    queue_ok lo (end_of lo a sa) a sa /\ queue_ok (end_of lo a sa) hi b sb /\
    Forall (fun x => x <= s) sa /\ match sb with [] => True | x :: _ => s < x end.
Proof.
  revert lo ss; induction q as [|e q IH]; intros lo [|x ss]; cbn [queue_ok seg_split]; try done.
  - intros H _ _ _. exists [], [], [], []. split_and!; try done. unfold end_of. simpl. lia.
  - intros (H1 & H2 & H3) Hlh Hw Hs. pose proof (queue_ok_bounds _ _ _ _ H3) as Hb. destruct H2 as (E1 & E2 & E3).
    unfold SEQ_GT. rewrite E1, seq_diff0 by lia.
    replace (isn + x - (isn + s)) with (x - s) by lia. rewrite Z.gtb_ltb. destruct (Z.ltb_spec 0 (x - s)) as [Hlt|Hle].
    + exists [], (e :: q), [], (x :: ss). unfold end_of. simpl. split_and!; try done; lia.
    + destruct (decide (s < x + tq_len e)) as [Hin|Hout].
      * (* the entries behind are beyond [s] *)
        assert (Hq : seg_split q (u32 (isn + s)) = ([], q) /\ match ss with [] => True | y :: _ => s < y end).
        { destruct q as [|e' q]; destruct ss as [|y ss]; cbn [queue_ok] in H3; try done.
          destruct H3 as (F1 & (F2 & F3 & _) & F4). apply queue_ok_bounds in F4. cbn [seg_split]. unfold SEQ_GT.
          rewrite F2, seq_diff0 by lia.
          replace (isn + y - (isn + s)) with (y - s) by lia. rewrite Z.gtb_ltb, (proj2 (Z.ltb_lt _ _)) by lia. split; [done|lia]. }
        destruct Hq as [-> Hss]. exists [e], q, [x], ss. unfold end_of. simpl. split_and!; try done; try lia. constructor; [lia|constructor].
      * destruct (IH (x + tq_len e) ss) as (a & b & sa & sb & -> & -> & -> & F1 & F2 & F3 & F4); [done|lia|lia|lia|].
        assert (Hend : end_of lo (e :: a) (x :: sa) = end_of (x + tq_len e) a sa).
        { pose proof (queue_ok_length _ _ _ _ F1) as Hl. unfold end_of. destruct a as [|e' a], sa as [|y sa]; try done.
          rewrite !last_cons_cons. destruct (proj2 (last_is_Some (e' :: a)) ltac:(done)) as [? ->].
          by destruct (proj2 (last_is_Some (y :: sa)) ltac:(done)) as [? ->]. }
        exists (e :: a), b, (x :: sa), sb. rewrite Hend. cbn [queue_ok]. split_and!; try done. by constructor; [lia|].
Qed.

(** ** Trimming *)

Lemma trim_after_spec lo hi q ss e :
  queue_ok lo hi q ss -> lo <= e <= hi -> hi - lo < 2 ^ 31 ->
  exists kept gone sk, trim_after (u32 (isn + e)) q = (kept, gone) /\ queue_ok e hi kept sk /\
    Z.of_nat (length q) = Z.of_nat (length kept) + Z.of_nat (length gone) /\
    (forall x, covers q ss x -> x < e \/ covers kept sk x) /\ (forall x, covers kept sk x -> covers q ss x) /\
    (Forall (fun x => tq_stack x = false) q -> Forall (fun x => tq_stack x = false) kept) /\
    (forall b ms, rb_ok b ((tq_m <$> q) ++ ms) -> rb_ok b ((tq_m <$> kept) ++ ms)).
Proof.
  revert lo ss; induction q as [|x q IH]; intros lo [|s ss]; cbn [queue_ok trim_after]; try done.
  - intros H He Hw. exists [], [], []. split_and!; try done. simpl. lia.
  - intros (H1 & (E1 & E2 & E3) & H3) He Hw. pose proof (queue_ok_bounds _ _ _ _ H3) as Hb.
    rewrite E1, seq_diff0 by lia. replace (isn + e - (isn + s)) with (e - s) by lia.
    destruct (Z.leb_spec (e - s) 0) as [Hle|Hgt]; [|destruct (Z.ltb_spec (e - s) (tq_len x)) as [Hlt|Hge]].
    + exists (x :: q), [], (s :: ss). split; [done|]. split; [cbn [queue_ok]; split_and!; [lia|done..]|].
      split; [simpl; lia|]. split_and!; auto.
    + eexists _, [], (e :: ss). split; [done|]. split_and!.
      * cbn [queue_ok tq_len]. split; [lia|]. split.
        -- unfold ent_ok. cbn [tq_seq tq_len tq_m]. rewrite u32_add. split; [f_equal; lia|]. split; [lia|].
           rewrite m_adj_data, E3, sub_drop by lia. f_equal; lia.
        -- by replace (e + (tq_len x - (e - s))) with (s + tq_len x) by lia.
      * simpl. lia.
      * intros y. simpl. intros [Hy|Hy]; [|auto]. destruct (decide (y < e)); [by left|right; left; lia].
      * intros y. simpl. intros [Hy|Hy]; [left; lia|auto].
      * intros [Hst Hq]%Forall_cons. by constructor.
      * intros b ms Hok. simpl. by apply rb_ok_adj; [lia|].
    + destruct (IH (s + tq_len x) ss) as (kept & gone & sk & -> & F1 & F2 & F3 & F4 & F5 & F6); [done|lia|lia|].
      exists kept, (x :: gone), sk. split_and!; try done.
      * simpl. lia.
      * intros y. simpl. intros [Hy|Hy]; [left; lia|auto].
      * intros y Hy. simpl. auto.
      * intros [_ Hq]%Forall_cons. auto.
      * intros b ms Hok. apply F6. simpl in Hok. by eapply rb_ok_free.
Qed.

(** * The state *)

#[local] Abbreviation tcb := (tcb B M).
Implicit Types tp : tcb.

Definition on_heap (q : list tseg) : Prop := Forall (fun e => tq_stack e = false) q.

(** The entries from the zone. *)
Fixpoint zcount (q : list tseg) : Z :=
  match q with [] => 0 | e :: r => (if tq_stack e then 0 else 1) + zcount r end.

Lemma zcount_heap q : on_heap q -> zcount q = Z.of_nat (length q).
Proof. induction 1 as [|e q He Hq IH]; [done|]. simpl. rewrite He, IH. lia. Qed.

Lemma zcount_app a b : zcount (a ++ b) = zcount a + zcount b.
Proof. induction a as [|e a IH]; simpl; [done|]. rewrite IH. lia. Qed.

(** The position [rcv] was reached; the queue holds the pieces at [ss] below [hi];
    the counters are right, and the bytes in front of [rcv] are read or in the buffer. *)
Record tr_state tp (rcv hi : Z) (ss : list Z) : Prop := TrState {
  ts_rcv : 0 <= rcv;
  ts_nxt : rcv_nxt tp = u32 (isn + rcv);
  ts_q : queue_ok rcv hi (t_segq tp) ss;
  ts_len : t_segqlen tp = Z.of_nat (length (t_segq tp));
  ts_zone : z_used tp = zcount (t_segq tp);
  ts_data : cantrcvmore tp = false -> out ++ rb_data (so_rcv tp) = sub D 0 rcv;
  ts_ok : rb_ok (so_rcv tp) (tq_m <$> t_segq tp)
}.

(** What was received: the bytes in front of [rcv] and those in the queue. *)
Definition received tp (rcv : Z) (ss : list Z) (x : Z) : Prop := 0 <= x < rcv \/ covers (t_segq tp) ss x.

(** The configuration of the connection does not change. *)
Definition same_conf tp tp' : Prop :=
  t_state tp' = t_state tp /\ cantrcvmore tp' = cantrcvmore tp /\ t_maxseg tp' = t_maxseg tp /\ sb_hiwat tp' = sb_hiwat tp.

(** The entry on the stack is the first one, at [rcv]. *)
Definition stack_first (rcv : Z) (q : list tseg) (ss : list Z) : Prop :=
  match q, ss with e :: r, s :: _ => (tq_stack e = true -> s = rcv) /\ on_heap r | _, _ => True end.

Lemma heap_stack_first rcv q ss : on_heap q -> stack_first rcv q ss.
Proof. destruct 1 as [|e q He Hq]; destruct ss; simpl; [done..|]. split; [|done]. by rewrite He. Qed.

(** Presented data goes to the buffer; what stays begins behind [rcv']. *)
Lemma present_loop_spec q tp flags rcv hi ss :
  tr_state tp rcv hi ss -> t_segq tp = q -> hi - rcv < 2 ^ 31 -> stack_first rcv q ss ->
  exists tp' fl rcv' ss', present_loop q flags tp = Done (tp', fl) /\ tr_state tp' rcv' hi ss' /\ rcv <= rcv' /\
    on_heap (t_segq tp') /\ match ss' with [] => True | s :: _ => rcv' < s end /\
    (forall x, received tp' rcv' ss' x <-> received tp rcv ss x) /\ same_conf tp tp'.
Proof.
  revert tp flags rcv ss; induction q as [|e q IH]; intros tp flags rcv ss H Eq Hw Hst; cbn [present_loop].
  { exists tp, flags, rcv, ss. rewrite Eq. pose proof (ts_q _ _ _ _ H) as Hq. rewrite Eq in Hq. destruct ss; [|done].
    split_and!; [done|done|lia|constructor|done..]. }
  pose proof H as [H1 H2 H3 H4 H5 H6 H7]. rewrite Eq in H3, H4, H5, H7. destruct ss as [|s ss]; [done|].
  destruct H3 as (L1 & (E1 & E2 & E3) & L3). destruct Hst as [Hst Hheap]. pose proof (queue_ok_bounds _ _ _ _ L3) as Hb.
  rewrite E1, H2, seq_eq by lia. destruct (Z.eqb_spec (isn + s) (isn + rcv)) as [Es|Es].
  - assert (s = rcv) as -> by lia. set (tp1 := if tq_stack e then tp else _).
    assert (Hz : z_used tp1 = zcount q) by (subst tp1; simpl in H5; destruct (tq_stack e); simpl; lia).
    assert (Hap : exists tp2, (if cantrcvmore tp1 then Done (free_m [tq_m e] (set_rcv (u32 (u32 (isn + rcv) + tq_len e)) (so_rcv tp1) tp1))
        else b ← rb_append (so_rcv tp1) (tq_m e); Done (set_rcv (u32 (u32 (isn + rcv) + tq_len e)) b tp1)) = Done tp2 /\
        rcv_nxt tp2 = u32 (isn + (rcv + tq_len e)) /\ t_segqlen tp2 = t_segqlen tp /\ z_used tp2 = zcount q /\ same_conf tp tp2 /\
        (cantrcvmore tp2 = false -> out ++ rb_data (so_rcv tp2) = sub D 0 (rcv + tq_len e)) /\ rb_ok (so_rcv tp2) (tq_m <$> q)).
    { simpl in H7. rewrite u32_add, <- Z.add_assoc. replace (cantrcvmore tp1) with (cantrcvmore tp) by (subst tp1; by destruct (tq_stack e)).
      replace (so_rcv tp1) with (so_rcv tp) by (subst tp1; by destruct (tq_stack e)).
      destruct (cantrcvmore tp) eqn:Ec.
      - eexists. split; [done|]. split_and!; try done; [subst tp1; by destruct (tq_stack e)| | |by eapply rb_ok_free].
        + unfold same_conf. subst tp1. destruct (tq_stack e); simpl; rewrite ?Ec; done.
        + simpl. subst tp1. destruct (tq_stack e); simpl; by rewrite Ec.
      - destruct (rb_append_ok _ _ _ H7) as (b & -> & Hd & Hok). cbn [mbind outcome_bind]. eexists. split; [done|].
        split_and!; try done; [subst tp1; by destruct (tq_stack e)| |].
        + unfold same_conf. subst tp1. destruct (tq_stack e); simpl; rewrite ?Ec; done.
        + intros _. simpl. rewrite Hd, app_assoc, H6, E3 by done. rewrite <- sub_app by lia. done. }
    destruct Hap as (tp2 & -> & A1 & A2 & A3 & A4 & A5 & A6). cbn [mbind outcome_bind].
    destruct (IH (set_segq q (t_segqlen tp2 - 1) tp2) (Z.land (tq_flags e) TH_FIN) (rcv + tq_len e) ss)
      as (tp' & fl & rcv' & ss' & -> & F1 & F2 & F3 & F4 & F5 & F6); [|done|lia|by apply heap_stack_first|].
    { constructor; simpl; try done; [lia|]. rewrite A2, H4. simpl. lia. }
    exists tp', fl, rcv', ss'. split_and!; try done; [lia| |].
    + intros x. rewrite F5. unfold received. rewrite Eq. simpl. split; [intros [Hx|Hx]|intros [Hx|[Hx|Hx]]].
      * destruct (decide (x < rcv)); [left; lia|right; left; lia].
      * by right; right.
      * left; lia.
      * left; lia.
      * by right.
    + destruct A4 as (B1 & B2 & B3 & B4), F6 as (C1 & C2 & C3 & C4). unfold same_conf. simpl in *. split_and!; congruence.
  - exists tp, flags, rcv, (s :: ss). rewrite Eq. split; [done|]. split; [done|]. split; [lia|]. split; [|split; [lia|done]].
    constructor; [|done]. destruct (tq_stack e); [|done]. specialize (Hst eq_refl). lia.
Qed.

(** * A segment *)

Hypothesis HW : 0 < W < 2 ^ 31.

(** The invariant between the calls: nothing is left that could be presented, and
    no entry is on the stack. *)
Record tr_inv tp (rcv : Z) (ss : list Z) : Prop := TrInv {
  ti_state : tr_state tp rcv (rcv + W) ss;
  ti_heap : on_heap (t_segq tp);
  ti_est : TCPS_HAVEESTABLISHED (t_state tp) = true -> match ss with [] => True | s :: _ => rcv < s end
}.

Lemma present_spec tp rcv ss :
  tr_state tp rcv (rcv + W) ss -> stack_first rcv (t_segq tp) ss ->
  (TCPS_HAVEESTABLISHED (t_state tp) = false -> on_heap (t_segq tp)) ->
  exists tp' fl rcv' ss', present tp = Done (tp', fl) /\ tr_inv tp' rcv' ss' /\ rcv <= rcv' /\
    (forall x, received tp' rcv' ss' x <-> received tp rcv ss x) /\ same_conf tp tp'.
Proof.
  intros H Hst Hh. unfold present. destruct (TCPS_HAVEESTABLISHED (t_state tp)) eqn:Ee; cbn [negb].
  - destruct (present_loop_spec (t_segq tp) tp 0 rcv (rcv + W) ss) as (tp' & fl & rcv' & ss' & -> & F1 & F2 & F3 & F4 & F5 & F6); [done|done|lia|done|].
    exists tp', fl, rcv', ss'. split_and!; try done. constructor; [|done|done]. destruct F1 as [G1 G2 G3 G4 G5 G6 G7].
    constructor; try done. eapply queue_ok_weaken; [done|lia|lia].
  - exists tp, 0, rcv, ss. split; [done|]. split; [|split; [lia|done]]. constructor; [done|auto|by rewrite Ee].
Qed.

Lemma rb_ok_middle b (m : M) l k : rb_ok b (m :: l ++ k) -> rb_ok b (l ++ m :: k).
Proof. apply rb_ok_perm. apply Permutation_middle. Qed.

(** The last entry in front of the place ends at [end_of]. *)
Lemma queue_ok_last lo hi a p sa :
  queue_ok lo hi (a ++ [p]) sa -> exists sa' x, sa = sa' ++ [x] /\ length a = length sa' /\ ent_ok p x.
Proof.
  revert lo sa; induction a as [|e a IH]; intros lo [|s sa]; simpl; try done.
  - intros (_ & Hp & Hr). destruct sa; [|done]. by exists [], s.
  - intros (_ & _ & Hq). destruct (IH _ _ Hq) as (sa' & x & -> & Hl & Hp). exists (s :: sa'), x. split_and!; [done| |done]. simpl. lia.
Qed.

Lemma front_end rcv s a sa :
  queue_ok rcv (end_of rcv a sa) a sa -> - 2 ^ 31 <= end_of rcv a sa - s < 2 ^ 31 ->
  match last a with Some p => s32 (tq_seq p + tq_len p - u32 (isn + s)) | None => 0 end =
    match a with [] => 0 | _ => end_of rcv a sa - s end.
Proof.
  intros Hq Hr. destruct a as [|p a _] using rev_ind; [done|]. rewrite last_snoc.
  destruct (queue_ok_last _ _ _ _ _ Hq) as (sa' & x & -> & _ & E1 & E2 & _).
  transitivity (end_of rcv (a ++ [p]) (sa' ++ [x]) - s); [|by destruct a].
  unfold end_of in *. rewrite !last_snoc in *. rewrite E1, seq_diff by lia. lia.
Qed.

(** And has everything from [s] to its end. *)
Lemma front_covers rcv s a sa x :
  queue_ok rcv (end_of rcv a sa) a sa -> Forall (fun y => y <= s) sa -> rcv <= s -> s <= x < end_of rcv a sa -> covers a sa x.
Proof.
  intros Hq Hs Hr Hx. destruct a as [|p a _] using rev_ind; [unfold end_of in Hx; simpl in Hx; lia|].
  destruct (queue_ok_last _ _ _ _ _ Hq) as (sa' & y & -> & Hl & _).
  apply Forall_app in Hs as [_ Hy]. apply Forall_inv in Hy. apply covers_app; [done|]. right. simpl. left.
  unfold end_of in Hx. rewrite !last_snoc in Hx. lia.
Qed.

Lemma covers_head lo hi q y ss x : queue_ok lo hi q (y :: ss) -> covers q (y :: ss) x -> y <= x.
Proof.
  intros Hq Hx. destruct q as [|e q]; [done|]. apply (covers_bounds y hi) in Hx; [lia|]. simpl in *. split; [lia|]. apply Hq.
Qed.

(** The positions after the insertion of [s', e) between [a] and the trimmed
    rest of [b]. *)
Lemma insert_covers rcv hi s s' e a sa b sb kept sk (n : tseg) x :
  queue_ok rcv (end_of rcv a sa) a sa -> queue_ok (end_of rcv a sa) hi b sb -> Forall (fun y => y <= s) sa ->
  match sb with [] => True | y :: _ => s < y end -> rcv <= s -> s' = Z.max s (end_of rcv a sa) -> s' + tq_len n = e ->
  (forall x, covers b sb x -> x < e \/ covers kept sk x) -> (forall x, covers kept sk x -> covers b sb x) ->
  covers (a ++ n :: kept) (sa ++ s' :: sk) x <-> covers (a ++ b) (sa ++ sb) x \/ s <= x < e.
Proof.
  intros A1 A2 A3 A4 Hs Es Ee T1 T2. pose proof (queue_ok_length _ _ _ _ A1) as La. rewrite !covers_app by done. simpl. split.
  - intros [Hx|[Hx|Hx]]; [by left; left|right; lia|left; right; auto].
  - intros [[Hx|Hx]|Hx]; [by left| |].
    + destruct (T1 _ Hx) as [He|]; [|by auto]. right; left. pose proof (covers_bounds _ _ _ _ _ A2 Hx) as Hb.
      destruct sb as [|y sb]; [by destruct b|]. pose proof (covers_head _ _ _ _ _ _ A2 Hx). lia.
    + destruct (decide (x < end_of rcv a sa)); [left; apply (front_covers rcv s); [done..|lia]|right; left; lia].
Qed.

(** A segment whose data is in the queue already. *)
Lemma insert_dup tp1 tp rcv ss s tlen :
  tr_inv tp rcv ss -> t_segq tp1 = t_segq tp -> rcv_nxt tp1 = rcv_nxt tp -> t_segqlen tp1 = t_segqlen tp -> z_used tp1 = z_used tp ->
  so_rcv tp1 = so_rcv tp -> same_conf tp tp1 -> (forall x, s <= x < s + tlen -> covers (t_segq tp) ss x) ->
  exists tp' fl rcv' ss', present tp1 = Done (tp', fl) /\ tr_inv tp' rcv' ss' /\ rcv <= rcv' /\ same_conf tp tp' /\
    forall x, received tp' rcv' ss' x <-> received tp rcv ss x \/ s <= x < s + tlen.
Proof.
  intros [[H1 H2 H3 H4 H5 H6 H7] Hh He] Q1 Q2 Q3 Q4 Q5 (C1 & C2 & C3 & C4) Hc.
  destruct (present_spec tp1 rcv ss) as (tp' & fl & rcv' & ss' & -> & F1 & F2 & F3 & F4).
  - constructor; rewrite ?Q1, ?Q2, ?Q3, ?Q4, ?Q5, ?C2; done.
  - rewrite Q1. by apply heap_stack_first.
  - by rewrite Q1.
  - exists tp', fl, rcv', ss'. split_and!; try done.
    + destruct F4 as (G1 & G2 & G3 & G4). unfold same_conf. split_and!; congruence.
    + intros x. rewrite F3. unfold received. rewrite Q1. naive_solver.
Qed.

(** A segment that the queue has room for: its positions are received. *)
Lemma reass_insert_spec tp c rcv ss s flags tlen m stack :
  tr_inv tp rcv ss -> rcv <= s -> 0 <= tlen -> s + tlen <= rcv + W -> m_data m = sub D s tlen ->
  rb_ok (so_rcv tp) (m :: (tq_m <$> t_segq tp)) ->
  (stack = true -> s = rcv /\ TCPS_HAVEESTABLISHED (t_state tp) = true) ->
  exists tp' fl tl rcv' ss',
    reass_insert (set_zone (z_used tp + (if stack then 0 else 1)) c tp) (u32 (isn + s)) flags tlen m stack = Done (tp', fl, tl) /\
    tr_inv tp' rcv' ss' /\ rcv <= rcv' /\ same_conf tp tp' /\
    forall x, received tp' rcv' ss' x <-> received tp rcv ss x \/ s <= x < s + tlen.
Proof.
  intros Hinv Hs Ht Hw Hm Hok Hstk. pose proof Hinv as [[H1 H2 H3 H4 H5 H6 H7] Hheap Hest].
  unfold reass_insert. cbn [t_segq set_segq set_zone].
  destruct (seg_split_spec rcv (rcv + W) (t_segq tp) ss s) as (a & b & sa & sb & -> & Eq & Es & A1 & A2 & A3 & A4); [done|lia|lia|lia|].
  pose proof (queue_ok_bounds _ _ _ _ A1) as B1. pose proof (queue_ok_bounds _ _ _ _ A2) as B2.
  pose proof (queue_ok_length _ _ _ _ A1) as La. assert (Hha : on_heap a /\ on_heap b) by (rewrite Eq in Hheap; by apply Forall_app in Hheap).
  assert (Hsa : stack = true -> a = []).
  { intros Hst. destruct (Hstk Hst) as [-> He]. specialize (Hest He). rewrite Es in Hest. destruct a as [|p a]; [done|].
    destruct sa as [|y sa]; [done|]. apply Forall_inv in A3. simpl in Hest. lia. }
  rewrite (front_end rcv s a sa) by (done || lia).
  assert (Hi : match a with [] => 0 | _ :: _ => end_of rcv a sa - s end = end_of rcv a sa - s \/
    (match a with [] => 0 | _ :: _ => end_of rcv a sa - s end = 0 /\ end_of rcv a sa <= s)).
  { destruct a as [|p a]; [right|by left]. split; [done|]. unfold end_of. simpl. lia. }
  set (i := match a with [] => 0 | _ :: _ => _ end) in *. rewrite !Z.gtb_ltb, !Z.geb_leb.
  destruct ((0 <? i) && (tlen <=? i)) eqn:Ed.
  - apply andb_true_iff in Ed as [Ed1%Z.ltb_lt Ed2%Z.leb_le]. destruct stack; [subst i; rewrite Hsa in Ed1 by done; lia|].
    set (tp1 := set_segq (t_segq _) _ _).
    destruct (insert_dup tp1 tp rcv ss s tlen) as (tp' & fl & rcv' & ss' & -> & F); try done; [simpl; lia|simpl; lia| |].
    { intros x Hx. rewrite Eq, Es. apply covers_app; [done|]. left. apply (front_covers rcv s); [done..|lia]. }
    cbn [mbind outcome_bind fst snd]. by exists tp', fl, tlen, rcv', ss'.
  - set (s' := Z.max s (end_of rcv a sa)). set (e := s + tlen).
    assert (Hs' : s' <= e).
    { subst s' e. apply andb_false_iff in Ed as [Ed%Z.ltb_ge|Ed%Z.leb_gt]; lia. }
    assert (Hm' : exists m', (if 0 <? i then (m_adj m i, tlen - i, u32 (u32 (isn + s) + i)) else (m, tlen, u32 (isn + s))) =
        (m', e - s', u32 (isn + s')) /\ m_data m' = sub D s' (e - s') /\ rb_ok (so_rcv tp) (m' :: (tq_m <$> t_segq tp))).
    { destruct (Z.ltb_spec 0 i) as [Hi0|Hi0].
      - assert (s' = s + i) as -> by lia. exists (m_adj m i). split_and!; [f_equal; [f_equal; lia|]| |by apply rb_ok_adj; [lia|]].
        + rewrite u32_add. f_equal. lia.
        + rewrite m_adj_data, Hm, sub_drop by lia. f_equal; lia.
      - assert (s' = s) as -> by lia. exists m. replace (e - s) with tlen by lia. done. }
    destruct Hm' as (m' & -> & Hd' & Hok'). rewrite u32_add. replace (isn + s' + (e - s')) with (isn + e) by lia.
    destruct (trim_after_spec (end_of rcv a sa) (rcv + W) b sb e) as (kept & gone & sk & -> & T1 & T2 & T3 & T4 & T5 & T6); [done|lia|lia|].
    set (tp1 := set_segq (a ++ _ :: kept) _ _).
    assert (Hpr : exists tp' fl rcv' ss', present tp1 = Done (tp', fl) /\ tr_inv tp' rcv' ss' /\ rcv <= rcv' /\
       (forall x, received tp' rcv' ss' x <-> received tp1 rcv (sa ++ s' :: sk) x) /\ same_conf tp1 tp').
    { apply present_spec.
      - constructor; simpl; try done.
        + eapply queue_ok_join; [exact A1|]. cbn [queue_ok tq_len]. split; [lia|]. split; [split_and!; [done|simpl; lia|done]|].
          by replace (s' + (e - s')) with e by lia.
        + rewrite H4, Eq, !length_app. simpl. lia.
        + rewrite H5, Eq, !zcount_app. simpl. rewrite !(zcount_heap b), !(zcount_heap kept) by (apply T5 || idtac; apply Hha). destruct stack; lia.
        + rewrite fmap_app. simpl. apply rb_ok_middle. rewrite Eq, fmap_app in Hok'.
          apply (rb_ok_perm _ ((tq_m <$> kept) ++ m' :: (tq_m <$> a))); [solve_Permutation|]. apply T6.
          eapply rb_ok_perm; [|exact Hok']. solve_Permutation.
      - simpl. destruct a as [|p a]; simpl.
        + destruct sa; [|done]. simpl. split; [|by apply T5, Hha]. intros Hst. destruct (Hstk Hst) as [-> _]. subst s'. unfold end_of. simpl. lia.
        + destruct sa as [|y sa]; [done|]. simpl. destruct Hha as [Ha Hb]. apply Forall_cons in Ha as [Hp Ha]. rewrite Hp. split; [done|].
          apply Forall_app. split; [done|]. constructor; [|by apply T5]. simpl. destruct stack; [|done]. by specialize (Hsa eq_refl).
      - intros He. simpl in He. simpl. apply Forall_app. split; [apply Hha|]. constructor; [|by apply T5, Hha]. simpl.
        destruct stack; [|done]. destruct (Hstk eq_refl) as [_ Hest']. congruence. }
    destruct Hpr as (tp' & fl & rcv' & ss' & Hp & F1 & F2 & F3 & F4).
    assert (Hgo : exists tl, match a, stack with _ :: _, true => Fault | _, _ => x ← present tp1; Done (fst x, snd x, e - s') end = Done (tp', fl, tl)).
    { exists (e - s'). destruct a as [|p a]; [by rewrite Hp|]. destruct stack; [by specialize (Hsa eq_refl)|]. by rewrite Hp. }
    destruct Hgo as [tl Hgo]. exists tp', fl, tl, rcv', ss'. split; [exact Hgo|]. split_and!; try done.
    intros x. rewrite F3. unfold received. simpl. rewrite Eq, Es.
    rewrite (insert_covers rcv (rcv + W) s s' e a sa b sb kept sk) by (done || simpl; lia). naive_solver.
Qed.
End queue.
