(* ===== verification/TcpReassProps.v ===== *)
(** The theorems on TCP reassembly: over every sequence of segments the socket gets
    the peer's stream up to the first byte that was not accepted, and the missing
    segment is never refused. *)
From stdpp Require Import base list.
From Stdlib Require Import ZArith Lia.
From S2P Require Import Prelude TcpReass TcpReassSpec.

Local Open Scope Z_scope.

Section runs.
Context {B M : Type} `{!RecvBuf B M, !RecvBufLaws B M}.
Context (zalloc : Z -> bool) (D : Z -> Z) (isn W : Z).
Hypothesis HW : 0 < W < 2 ^ 31.

#[local] Abbreviation tcb := (tcb B M).
Implicit Types tp : tcb.

(** The segment is dropped: it is not the missing one, and the queue is at its limit
    or the zone at its. *)
Definition refused tp (seq : Z) : bool :=
  negb ((seq =? rcv_nxt tp) && TCPS_HAVEESTABLISHED (t_state tp)) &&
  ((t_segqlen tp >=? sb_hiwat tp / t_maxseg tp + 1) || negb (zalloc (z_calls tp))).

(** A piece of the stream inside the window, from the input of TCP. *)
Definition arrival tp (rcv s tlen : Z) (m : M) : Prop :=
  rcv <= s /\ 0 <= tlen /\ s + tlen <= rcv + W /\ m_data m = sub D s tlen /\ rb_ok (so_rcv tp) (m :: (tq_m <$> t_segq tp)).

Lemma tcp_reass_spec out tp rcv ss s tlen flags m :
  tr_inv D out isn W tp rcv ss -> t_maxseg tp <> 0 -> arrival tp rcv s tlen m ->
  exists tp' fl tl rcv' ss', tcp_reass zalloc tp (Some (u32 (isn + s), flags)) tlen m = Done (tp', fl, tl) /\
    tr_inv D out isn W tp' rcv' ss' /\ rcv <= rcv' /\ same_conf tp tp' /\
    forall x, received tp' rcv' ss' x <-> received tp rcv ss x \/ (refused tp (u32 (isn + s)) = false /\ s <= x < s + tlen).
Proof.
  intros Hinv Hmax (A1 & A2 & A3 & A4 & A5). pose proof Hinv as [[H1 H2 H3 H4 H5 H6 H7] Hheap Hest].
  unfold tcp_reass, refused. rewrite (proj2 (Z.eqb_neq _ _) Hmax), andb_false_r, H2, seq_eq by lia.
  destruct ((isn + s =? isn + rcv) && TCPS_HAVEESTABLISHED (t_state tp)) eqn:Em; cbn [negb andb].
  - apply andb_true_iff in Em as [Em1%Z.eqb_eq Em2].
    destruct (zalloc (z_calls tp)).
    + destruct (reass_insert_spec D out isn W HW tp (z_calls tp + 1) rcv ss s flags tlen m false) as (tp' & fl & tl & rcv' & ss' & -> & F1 & F2 & F3 & F4); try done.
      exists tp', fl, tl, rcv', ss'. split_and!; try done. intros x. rewrite F4. naive_solver.
    + rewrite <- (Z.add_0_r (z_used tp)).
      destruct (reass_insert_spec D out isn W HW tp (z_calls tp + 1) rcv ss s flags tlen m true) as (tp' & fl & tl & rcv' & ss' & -> & F1 & F2 & F3 & F4); try done.
      { intros _. split; [lia|done]. }
      exists tp', fl, tl, rcv', ss'. split_and!; try done. intros x. rewrite F4. naive_solver.
  - destruct (t_segqlen tp >=? sb_hiwat tp / t_maxseg tp + 1); cbn [orb].
    + eexists _, _, _, rcv, ss. split; [done|]. split; [by constructor|]. split; [lia|]. split; [done|]. unfold received. naive_solver.
    + destruct (zalloc (z_calls tp)); cbn [negb].
      * destruct (reass_insert_spec D out isn W HW tp (z_calls tp + 1) rcv ss s flags tlen m false) as (tp' & fl & tl & rcv' & ss' & -> & F1 & F2 & F3 & F4); try done.
        exists tp', fl, tl, rcv', ss'. split_and!; try done. intros x. rewrite F4. naive_solver.
      * eexists _, _, _, rcv, ss. split; [done|]. split; [by constructor|]. split; [lia|]. split; [done|]. unfold received. naive_solver.
Qed.

(** The same of the common case. *)
Lemma in_order_spec out tp rcv tlen m :
  tr_inv D out isn W tp rcv [] -> t_segq tp = [] -> arrival tp rcv rcv tlen m ->
  exists tp', in_order tp tlen m = Done tp' /\ tr_inv D out isn W tp' (rcv + tlen) [] /\ t_segq tp' = [] /\ same_conf tp tp'.
Proof.
  intros [[H1 H2 H3 H4 H5 H6 H7] Hheap Hest] Hq (A1 & A2 & A3 & A4 & A5). unfold in_order.
  rewrite Hq in *. simpl in *. destruct (cantrcvmore tp) eqn:Ec.
  - eexists. split; [done|]. split; [|split; [done|]].
    + constructor; simpl; [|rewrite Hq; constructor|done].
      constructor; simpl; rewrite ?Hq, ?Ec; simpl; try done; try lia. by rewrite H2, u32_add, Z.add_assoc.
    + unfold same_conf. simpl. by rewrite Ec.
  - destruct (rb_append_ok _ _ _ A5) as (b & -> & Hd & Hok). cbn [mbind outcome_bind]. eexists. split; [done|]. split; [|split; [done|]].
    + constructor; simpl; [|rewrite Hq; constructor|done].
      constructor; simpl; rewrite ?Hq; simpl; try done; try lia; [by rewrite H2, u32_add, Z.add_assoc|].
      intros _. rewrite Hd, app_assoc, H6, A4 by done. by apply (sub_app D 0).
    + unfold same_conf. simpl. by rewrite Ec.
Qed.

Lemma tcp_data_spec out tp rcv ss s tlen flags m :
  tr_inv D out isn W tp rcv ss -> t_maxseg tp <> 0 -> arrival tp rcv s tlen m ->
  exists tp' fl tl rcv' ss', tcp_data zalloc tp (u32 (isn + s)) flags tlen m = Done (tp', fl, tl) /\
    tr_inv D out isn W tp' rcv' ss' /\ rcv <= rcv' /\ same_conf tp tp' /\
    forall x, received tp' rcv' ss' x <-> received tp rcv ss x \/ (refused tp (u32 (isn + s)) = false /\ s <= x < s + tlen).
Proof.
  intros Hinv Hmax Ha. unfold tcp_data. destruct (_ && _ && _) eqn:Ef; [|by apply tcp_reass_spec].
  apply andb_true_iff in Ef as [[Es Eq]%andb_true_iff Ee]. pose proof Ha as (A1 & A2 & A3 & _).
  pose proof Hinv as [[H1 H2 H3 _ _ _ _] _ _]. pose proof Es as Es'. rewrite H2, seq_eq in Es' by lia. apply Z.eqb_eq in Es'. assert (s = rcv) as -> by lia.
  assert (Hq : t_segq tp = []) by (by destruct (t_segq tp)). assert (ss = []) as -> by (rewrite Hq in H3; by destruct ss).
  destruct (in_order_spec out tp rcv tlen m Hinv Hq Ha) as (tp' & -> & Hi & Hq' & Hc). cbn [mbind outcome_bind].
  eexists tp', _, tlen, (rcv + tlen), []. split; [done|]. split; [done|]. split; [lia|]. split; [done|].
  intros x. unfold received, refused. rewrite Hq, Hq', Es, Ee. simpl. split; [|intros [[?|?]|[_ ?]]; [left; lia|done|left; lia]].
  intros [Hx|Hx]; [|done]. destruct (decide (x < rcv)); [left; left; lia|right; split; [done|lia]].
Qed.

(** A connection before the first segment. *)
Definition fresh tp : Prop :=
  t_segq tp = [] /\ t_segqlen tp = 0 /\ z_used tp = 0 /\ rcv_nxt tp = u32 isn /\ rb_data (so_rcv tp) = [] /\ rb_ok (so_rcv tp) [] /\
  t_maxseg tp <> 0.

Definition set_state (st : Z) tp : tcb :=
  Tcb st (rcv_nxt tp) (t_segq tp) (t_segqlen tp) (t_rcvoopack tp) (t_maxseg tp) (so_rcv tp) (sb_hiwat tp) (cantrcvmore tp) (z_used tp)
    (z_calls tp) (m_freed tp) (stats tp).

(** The states of a connection that has reached the position [rcv], with the
    segments that were accepted; the application has read [out]. *)
Inductive reass_reach : tcb -> Z -> list Z -> list (Z * Z) -> Prop :=
| rr_fresh tp : fresh tp -> reass_reach tp 0 [] []
| rr_segment tp rcv out acc s tlen flags m tp' fl tl rcv' :
    reass_reach tp rcv out acc -> arrival tp rcv s tlen m ->
    tcp_data zalloc tp (u32 (isn + s)) flags tlen m = Done (tp', fl, tl) ->
    rcv <= rcv' <= rcv + W -> rcv_nxt tp' = u32 (isn + rcv') ->
    reass_reach tp' rcv' out (if refused tp (u32 (isn + s)) then acc else (s, tlen) :: acc)
| rr_establish tp rcv out acc st tlen m tp' fl tl rcv' :
    reass_reach tp rcv out acc -> TCPS_HAVEESTABLISHED st = true ->
    tcp_reass zalloc (set_state st tp) None tlen m = Done (tp', fl, tl) ->
    rcv <= rcv' <= rcv + W -> rcv_nxt tp' = u32 (isn + rcv') -> reass_reach tp' rcv' out acc
| rr_read tp rcv out acc n b :
    reass_reach tp rcv out acc -> 0 <= n <= Z.of_nat (length (rb_data (so_rcv tp))) -> rb_drop (so_rcv tp) n = Done b ->
    reass_reach (set_rcv (rcv_nxt tp) b tp) rcv (out ++ take (Z.to_nat n) (rb_data (so_rcv tp))) acc.

Definition accepted (acc : list (Z * Z)) (x : Z) : Prop := exists p, p ∈ acc /\ fst p <= x < fst p + snd p.

(** The position is determined by rcv_nxt inside the window. *)
Lemma rcv_unique rcv r1 r2 : rcv <= r1 <= rcv + W -> rcv <= r2 <= rcv + W -> u32 (isn + r1) = u32 (isn + r2) -> r1 = r2.
Proof. intros H1 H2 E. apply Z.eqb_eq in E. rewrite seq_eq in E by lia. apply Z.eqb_eq in E. lia. Qed.

Lemma received_below out tp rcv ss x : tr_inv D out isn W tp rcv ss -> received tp rcv ss x -> 0 <= x < rcv + W.
Proof.
  intros [[H1 _ H3 _ _ _ _] _ _] [Hx|Hx]; [lia|]. apply (covers_bounds D isn _ _ _ _ _ H3) in Hx. lia.
Qed.

Lemma next_below out tp rcv ss (P : Z -> Prop) hi : tr_inv D out isn W tp rcv ss -> (forall x, received tp rcv ss x -> P x) ->
  (forall x, P x -> x < hi) -> 0 <= hi -> rcv <= hi.
Proof.
  intros H HP Hhi H0. destruct (decide (rcv <= hi)); [done|]. pose proof (Hhi hi (HP hi ltac:(left; lia))). lia.
Qed.

Lemma reach_inv tp rcv out acc : reass_reach tp rcv out acc ->
  exists ss, tr_inv D out isn W tp rcv ss /\ t_maxseg tp <> 0 /\ forall x, received tp rcv ss x <-> accepted acc x.
Proof.
  induction 1 as [tp (F1 & F2 & F3 & F4 & F5 & F6 & F7)|tp rcv out acc s tlen flags m tp' fl tl rcv' _ (ss & Hi & Hm & Hr) Ha E Hw En
                 |tp rcv out acc st tlen m tp' fl tl rcv' _ (ss & Hi & Hm & Hr) Hst E Hw En|tp rcv out acc n b _ (ss & Hi & Hm & Hr) Hn E].
  - exists []. split_and!; [|done|].
    + constructor; [|rewrite F1; by apply Forall_nil|done].
      constructor; rewrite ?F1; simpl; [lia|by rewrite Z.add_0_r|lia|done..].
    + intros x. unfold received, accepted. rewrite F1. simpl. split; [lia|]. intros (p & Hp & _). by apply not_elem_of_nil in Hp.
  - destruct (tcp_data_spec out tp rcv ss s tlen flags m Hi Hm Ha) as (tp1 & fl1 & tl1 & r1 & ss1 & E1 & I1 & L1 & C1 & R1).
    rewrite E1 in E. injection E as -> -> ->.
    assert (r1 = rcv') as ->.
    { apply (rcv_unique rcv); [|done|by rewrite <- En, <- (ts_nxt _ _ _ _ _ _ _ (ti_state _ _ _ _ _ _ _ I1))]. split; [done|].
      eapply (next_below _ _ _ _ (fun x => 0 <= x < rcv + W)); [exact I1| |lia|pose proof (ts_rcv _ _ _ _ _ _ _ (ti_state _ _ _ _ _ _ _ Hi)); lia].
      intros x [Hx|[_ Hx]]%R1; [by eapply received_below|]. destruct Ha as (? & ? & ? & _). pose proof (ts_rcv _ _ _ _ _ _ _ (ti_state _ _ _ _ _ _ _ Hi)). lia. }
    exists ss1. split; [done|]. split; [by destruct C1 as (_ & _ & -> & _)|]. intros x. rewrite R1, Hr.
    destruct (refused tp (u32 (isn + s))); unfold accepted; [naive_solver|]. split.
    + intros [(p & Hp & Hx)|[_ Hx]]; [exists p; split; [by right|done]|exists (s, tlen); split; [by left|done]].
    + intros (p & [->|Hp]%elem_of_cons & Hx); [by right|left; by exists p].
  - assert (Hs : tr_state D out isn (set_state st tp) rcv (rcv + W) ss) by (destruct Hi as [[] _ _]; by constructor).
    destruct (present_spec D out isn W HW (set_state st tp) rcv ss) as (tp1 & fl1 & r1 & ss1 & E1 & I1 & L1 & R1 & C1);
      [done|apply heap_stack_first, Hi|intros _; apply Hi|].
    unfold tcp_reass in E. rewrite E1 in E. injection E as -> <- <-.
    assert (r1 = rcv') as ->.
    { apply (rcv_unique rcv); [|done|by rewrite <- En, <- (ts_nxt _ _ _ _ _ _ _ (ti_state _ _ _ _ _ _ _ I1))]. split; [done|].
      eapply (next_below _ _ _ _ (received tp rcv ss)); [exact I1|intros x; by rewrite R1|intros x Hx; by apply (received_below out tp rcv ss)|].
      pose proof (ts_rcv _ _ _ _ _ _ _ (ti_state _ _ _ _ _ _ _ Hi)). lia. }
    exists ss1. split; [done|]. split; [by destruct C1 as (_ & _ & -> & _)|]. intros x. rewrite R1. apply Hr.
  - exists ss. split; [|done]. destruct Hi as [[H1 H2 H3 H4 H5 H6 H7] Hh He].
    destruct (rb_drop_ok _ _ _ H7 Hn) as (b' & E' & Hd & Hok). rewrite E in E'. injection E' as <-.
    constructor; [|done|done]. constructor; try done. intros Hc. simpl. by rewrite Hd, <- app_assoc, take_drop, H6.
Qed.

Lemma nothing_at_rcv out tp rcv ss :
  tr_inv D out isn W tp rcv ss -> TCPS_HAVEESTABLISHED (t_state tp) = true -> ~ received tp rcv ss rcv.
Proof.
  intros [[_ _ H3 _ _ _ _] _ He] Hest [Hx|Hx]; [lia|]. specialize (He Hest). destruct ss as [|s ss]; [by destruct (t_segq tp)|].
  pose proof (covers_head D isn _ _ _ _ _ _ H3 Hx). lia.
Qed.

Lemma flush_loop_spec q tp :
  t_segq (flush_loop q tp) = [] /\ t_segqlen (flush_loop q tp) = t_segqlen tp - Z.of_nat (length q) /\
  z_used (flush_loop q tp) = z_used tp - Z.of_nat (length q) /\ m_freed (flush_loop q tp) = m_freed tp ++ (tq_m <$> q).
Proof.
  revert tp; induction q as [|e q IH]; intros tp; cbn [flush_loop].
  - simpl. by rewrite !Z.sub_0_r, app_nil_r.
  - match goal with |- context [flush_loop q ?t] => destruct (IH t) as (-> & -> & -> & ->) end.
    simpl. rewrite <- app_assoc. simpl. split_and!; [done|lia|lia|done].
Qed.

(** Whatever segments of the peer's stream arrive inside the window - in any
    order, overlapping, repeated, some of them refused, with reads of the application
    between them - the bytes that were read and those in the receive buffer are
    exactly the stream up to rcv_nxt, and on an established connection rcv_nxt is the
    first position that no accepted segment had.  The counts of entries are
    right, no entry of a call's stack frame stays in the queue, and tcp_reass_flush
    returns every entry to the zone and frees their data. *)
Lemma tcp_reass_delivers tp rcv out acc :
  reass_reach tp rcv out acc ->
  rcv_nxt tp = u32 (isn + rcv) /\
  (cantrcvmore tp = false -> out ++ rb_data (so_rcv tp) = sub D 0 rcv) /\
  (forall x, 0 <= x < rcv -> accepted acc x) /\
  (TCPS_HAVEESTABLISHED (t_state tp) = true -> ~ accepted acc rcv) /\
  t_segqlen tp = Z.of_nat (length (t_segq tp)) /\ z_used tp = Z.of_nat (length (t_segq tp)) /\ on_heap (t_segq tp) /\
  exists tp', tcp_reass_flush tp = Done tp' /\ t_segq tp' = [] /\ z_used tp' = 0 /\ m_freed tp' = m_freed tp ++ (tq_m <$> t_segq tp).
Proof.
  intros H. destruct (reach_inv _ _ _ _ H) as (ss & Hi & _ & Hr). pose proof Hi as [[H1 H2 H3 H4 H5 H6 H7] Hh He].
  split_and!; try done.
  - intros x Hx. apply Hr. by left.
  - intros Hest. rewrite <- Hr. by eapply nothing_at_rcv.
  - by rewrite H5, zcount_heap.
  - destruct (flush_loop_spec (t_segq tp) tp) as (F1 & F2 & F3 & F4). exists (flush_loop (t_segq tp) tp). unfold tcp_reass_flush.
    rewrite F2, H4, Z.sub_diag. split_and!; try done. by rewrite F3, H5, zcount_heap, Z.sub_diag.
Qed.

(** C9. The input of a segment in the window returns, the assertions hold, and
    on an established connection the missing segment is accepted even when the
    queue is full and the zone is exhausted: rcv_nxt moves over it. *)
Theorem tcp_reass_missing tp rcv out acc s tlen flags m :
  reass_reach tp rcv out acc -> arrival tp rcv s tlen m ->
  exists tp' fl tl rcv', tcp_data zalloc tp (u32 (isn + s)) flags tlen m = Done (tp', fl, tl) /\
    rcv <= rcv' <= rcv + W /\ rcv_nxt tp' = u32 (isn + rcv') /\
    (s = rcv -> TCPS_HAVEESTABLISHED (t_state tp) = true -> rcv + tlen <= rcv').
Proof.
  intros H Ha. destruct (reach_inv _ _ _ _ H) as (ss & Hi & Hm & _).
  destruct (tcp_data_spec out tp rcv ss s tlen flags m Hi Hm Ha) as (tp' & fl & tl & rcv' & ss' & E & I' & L & C & R).
  exists tp', fl, tl, rcv'. split; [done|]. pose proof (ts_rcv _ _ _ _ _ _ _ (ti_state _ _ _ _ _ _ _ Hi)) as H0. split_and!; [done| |apply I'|].
  - eapply (next_below _ _ _ _ (fun x => 0 <= x < rcv + W)); [exact I'| |lia|lia].
    intros x [Hx|[_ Hx]]%R; [by eapply received_below|]. destruct Ha as (? & ? & ? & _). lia.
  - intros -> Hest. destruct (decide (rcv + tlen <= rcv')); [done|exfalso].
    assert (Hest' : TCPS_HAVEESTABLISHED (t_state tp') = true) by (by destruct C as (-> & _)).
    apply (nothing_at_rcv _ _ _ _ I' Hest'), R. right. split; [|lia]. unfold refused.
    by rewrite (ts_nxt _ _ _ _ _ _ _ (ti_state _ _ _ _ _ _ _ Hi)), Z.eqb_refl, Hest.
Qed.
End runs.

(** * A run *)

(** A receive buffer that is a string of bytes. *)
Module Bytes.
#[local] Instance byte_buf : RecvBuf (list Z) (list Z) := {
  m_data m := m;
  m_adj m n := drop (Z.to_nat n) m;
  rb_append b m := Done (b ++ m);
  rb_drop b n := Done (drop (Z.to_nat n) b);
  rb_data b := b;
  rb_ok _ _ := True
}.

#[local] Instance byte_buf_laws : RecvBufLaws (list Z) (list Z).
Proof. constructor; try done; intros; eexists; done. Qed.

(** The stream whose byte at [x] is [x], from a sequence number that wraps after
    three bytes; the zone has two entries. *)
Definition isn : Z := 2 ^ 32 - 3.
Definition zalloc (n : Z) : bool := n <? 2.
Definition tp0 : tcb (list Z) (list Z) :=
  Tcb 4 (u32 isn) [] 0 0 100 [] 1000 false 0 0 [] (Stats 0 0 0 0 0 0).
Definition seg (tp : tcb (list Z) (list Z)) (s len : Z) : tcb (list Z) (list Z) :=
  match tcp_data zalloc tp (u32 (isn + s)) 16 len (seqZ s len) with Done (tp', _, _) => tp' | _ => tp end.

(** Two segments ahead of the missing one. *)
Definition tp2 : tcb (list Z) (list Z) := seg (seg tp0 4 4) 2 4.

Lemma tp2_reach : reass_reach zalloc (fun x => x) isn 1000 tp2 0 [] [(2, 4); (4, 4)].
Proof.
  apply (rr_segment zalloc _ isn 1000 (seg tp0 4 4) 0 [] [(4, 4)] 2 4 16 (seqZ 2 4) tp2 0 4 0).
  - apply (rr_segment zalloc _ isn 1000 tp0 0 [] [] 4 4 16 (seqZ 4 4) _ 0 4 0).
    + constructor. by split_and!.
    + by split_and!.
    + vm_compute. reflexivity.
    + done.
    + done.
  - by split_and!.
  - vm_compute. reflexivity.
  - done.
  - done.
Defined.

Lemma tcp_reass_missing_witness :
  exists tp' fl tl rcv', tcp_data zalloc tp2 (u32 (isn + 0)) 16 3 (seqZ 0 3) = Done (tp', fl, tl) /\
    0 <= rcv' <= 1000 /\ rcv_nxt tp' = u32 (isn + rcv') /\ (0 = 0 -> TCPS_HAVEESTABLISHED (t_state tp2) = true -> 3 <= rcv').
Proof.
  apply (tcp_reass_missing zalloc (fun x => x) isn 1000 ltac:(lia) tp2 0 [] [(2, 4); (4, 4)] 0 3 16 (seqZ 0 3)).
  - exact tp2_reach.
  - by split_and!.
Defined.

Definition tp3 : tcb (list Z) (list Z) := seg tp2 0 3.

Lemma tcp_reass_delivers_witness :
  rcv_nxt tp3 = 5 /\ rb_data (so_rcv tp3) = seqZ 0 8 /\ t_segq tp3 = [] /\
  ~ accepted [(0, 3); (2, 4); (4, 4)] 8.
Proof.
  assert (H : reass_reach zalloc (fun x => x) isn 1000 tp3 8 [] [(0, 3); (2, 4); (4, 4)]).
  { apply (rr_segment zalloc _ isn 1000 tp2 0 [] [(2, 4); (4, 4)] 0 3 16 (seqZ 0 3) tp3 0 3 8).
    - exact tp2_reach.
    - by split_and!.
    - vm_compute. reflexivity.
    - done.
    - done. }
  destruct (tcp_reass_delivers zalloc (fun x => x) isn 1000 ltac:(lia) _ _ _ _ H) as (H1 & _ & _ & H4 & _).
  split; [exact H1|]. split; [vm_compute; reflexivity|]. split; [vm_compute; reflexivity|]. exact (H4 eq_refl).
Defined.
End Bytes.
