(* ===== verification/TcpDeliver.v ===== *)
(** TCP reassembly with the socket buffer of SbQueue: the interface of TcpReass is
    discharged with sbappendstream_locked and sbdrop_locked, and the theorem says
    what an application reads. *)
From stdpp Require Import base list.
From Stdlib Require Import ZArith Lia.
From S2P Require Import Prelude SbQueue SbAppend SbStream TcpReass TcpReassSpec TcpReassProps.

Local Open Scope Z_scope.

(** * The chains of mbufs *)

(** The loop of m_adj from the head, with the bytes that are left to trim. *)
Fixpoint adj_loop (m : list mbuf) (len : Z) : list mbuf * Z :=
  match m with
  | [] => ([], len)
  | x :: r =>
      if len >? 0 then
        if m_len x <=? len then
          let '(r', rem) := adj_loop r (len - m_len x) in (with_bytes x [] (m_room x + m_len x) :: r', rem)
        else (with_bytes x (drop (Z.to_nat len) (m_bytes x)) (m_room x) :: r, 0)
      else (m, len)
  end.

Definition with_pkthdr (m : mbuf) (h : option Z) : mbuf :=
  Mb (m_id m) (m_type m) (m_bytes m) (m_notready m) (m_blocked m) (m_eor m) (m_rdonly m) h (m_ext m) (m_room m).

(** m_adj with a count that is not negative. *)
Definition chain_adj (m : list mbuf) (req_len : Z) : list mbuf :=
  let '(m', rem) := adj_loop m req_len in
  match m' with
  | x :: r => with_pkthdr x ((fun l => l - (req_len - rem)) <$> m_pkthdr x) :: r
  | [] => []
  end.

Definition bytes (m : list mbuf) : list Z := concat (m_bytes <$> m).

Lemma chain_bytes_cons x m : bytes (x :: m) = m_bytes x ++ bytes m.
Proof. done. Qed.

Lemma view_bytes m : (view m).*1 = bytes m.
Proof.
  induction m as [|x m IH]; [done|]. rewrite view_cons, fmap_app, IH, chain_bytes_cons. f_equal.
  unfold cells. rewrite <- list_fmap_compose. apply list_fmap_id.
Qed.

Lemma bytes_demote nr m : bytes (m_demote nr m) = bytes m.
Proof. unfold bytes, m_demote. by rewrite <- list_fmap_compose. Qed.

(** The mbufs stay the same up to their data and packet header. *)
Definition same_mbuf (x y : mbuf) : Prop := m_id x = m_id y /\ ext_bytes x = ext_bytes y /\ m_size x <= m_size y.

Lemma adj_loop_spec m len : 0 <= len ->
  bytes (fst (adj_loop m len)) = drop (Z.to_nat len) (bytes m) /\ Forall2 same_mbuf (fst (adj_loop m len)) m.
Proof.
  revert len; induction m as [|x m IH]; intros len Hl; cbn [adj_loop]; [split; [by destruct (Z.to_nat len)|constructor]|].
  assert (Hrefl : forall l, Forall2 same_mbuf l l) by (intros l; induction l; constructor; [by split|done]).
  destruct (Z.gtb_spec len 0) as [Hp|Hp]; [|assert (len = 0) as -> by lia; by rewrite drop_0].
  pose proof (m_len_nonneg x) as Hx.
  destruct (Z.leb_spec (m_len x) len) as [Hle|Hgt].
  - destruct (IH (len - m_len x) ltac:(lia)) as [I1 I2]. destruct (adj_loop m (len - m_len x)) as [r' l']. cbn [fst] in *. split.
    + rewrite !chain_bytes_cons, I1. cbn [m_bytes with_bytes app]. unfold m_len in Hle |- *. rewrite drop_app_ge by lia. f_equal. lia.
    + constructor; [|done]. split; [done|]. split; [done|].
      change (m_size (with_bytes x [] (m_room x + m_len x))) with (0 + (MSIZE + ext_bytes x)). change (m_size x) with (m_len x + (MSIZE + ext_bytes x)). lia.
  - cbn [fst]. split.
    + rewrite !chain_bytes_cons. unfold m_len in Hgt. by rewrite drop_app_le by lia.
    + constructor; [|apply Hrefl]. split; [done|]. split; [done|].
      change (m_size x) with (m_len x + (MSIZE + ext_bytes x)).
      change (m_size (with_bytes x (drop (Z.to_nat len) (m_bytes x)) (m_room x)))
        with (Z.of_nat (length (drop (Z.to_nat len) (m_bytes x))) + (MSIZE + ext_bytes x)).
      rewrite length_drop. unfold m_len. lia.
Qed.

Lemma chain_adj_spec m len : 0 <= len ->
  bytes (chain_adj m len) = drop (Z.to_nat len) (bytes m) /\ Forall2 same_mbuf (chain_adj m len) m.
Proof.
  intros Hl. destruct (adj_loop_spec m len Hl) as [E1 E2]. unfold chain_adj.
  destruct (adj_loop m len) as [m' l]. cbn [fst] in *. destruct m' as [|x r]; [done|].
  split; [by rewrite <- E1, !chain_bytes_cons|]. inversion E2; subst. by constructor.
Qed.

(** * The interface *)

(** The buffer is a stream of ready bytes, and with the waiting chains [ms] no mbuf
    is there twice and the counters have room. *)
Definition sb_ok (sb : sockbuf) (ms : list (list mbuf)) : Prop :=
  stream sb /\ Forall (fun c => snd c = true) (view (chain sb)) /\ NoDup (ids (chain sb) ++ ids (concat ms)) /\
  Forall (fun x => 0 <= ext_bytes x) (concat ms) /\ sumz m_size (chain sb) + sumz m_size (concat ms) < 2 ^ 31.

#[export] Instance sb_recv : RecvBuf sockbuf (list mbuf) := {
  m_data := bytes;
  m_adj := chain_adj;
  rb_append sb m := sbappendstream_locked sb m false;
  rb_drop := sbdrop_locked;
  rb_data sb := (view (chain sb)).*1;
  rb_ok := sb_ok
}.

Lemma all_ready_avail f l :
  pos l -> Forall (fun c => snd c = true) (view l) -> ready_ok f l -> sumz avail_len l = sumz m_len l.
Proof.
  induction l as [|x l IH]; [done|]. intros [Hx Hp]%Forall_cons Hv Hr. rewrite view_cons in Hv. apply Forall_app in Hv as [Hc Hv].
  assert (Hn : m_notready x = false).
  { unfold cells in Hc. unfold m_len in Hx. destruct (m_bytes x); [cbn in Hx; lia|]. apply Forall_cons in Hc as [Hc _]. by destruct (m_notready x). }
  destruct (ready_ok_head _ _ _ Hr) as [Ha _]. cbn in Hr. rewrite Hn in Hr. rewrite !sumz_cons, IH by (try done; apply Hr).
  rewrite avail_len_false by (by rewrite Ha). done.
Qed.

Lemma ready_demote m : Forall (fun c => snd c = true) (view (m_demote false m)).
Proof.
  induction m as [|x m IH]; [constructor|]. cbn [m_demote map]. rewrite view_cons. apply Forall_app. split; [|done].
  unfold cells. cbn. rewrite andb_false_r. apply Forall_fmap, Forall_true. done.
Qed.

Lemma size_nonneg l : Forall (fun x => 0 <= ext_bytes x) l -> 0 <= sumz m_size l.
Proof.
  induction 1 as [|x l Hx Hl IH]; [done|]. rewrite sumz_cons. pose proof (m_len_nonneg x). unfold m_size at 1, MSIZE. lia.
Qed.

Lemma nodup_sub {A} (a a' g b b' : list A) : a' ++ g ≡ₚ a ++ b -> NoDup (a ++ b ++ b') -> NoDup (a' ++ b').
Proof.
  intros Hp Hd. rewrite app_assoc, <- Hp, <- app_assoc in Hd. apply NoDup_app in Hd as (H1 & H2 & H3).
  apply NoDup_app in H3 as (_ & _ & H3). apply NoDup_app. split; [done|]. split; [|done]. intros x Hx Hb. apply (H2 x Hx), elem_of_app. by right.
Qed.

Lemma sb_append_ok sb m ms : sb_ok sb (m :: ms) ->
  exists sb', sbappendstream_locked sb m false = Done sb' /\ (view (chain sb')).*1 = (view (chain sb)).*1 ++ bytes m /\ sb_ok sb' ms.
Proof.
  intros (Hs & Hr & Hd & He & Hz). cbn [concat] in *. rewrite ids_app in Hd. rewrite sumz_app in Hz. apply Forall_app in He as [He He'].
  pose proof (size_nonneg _ He').
  destruct (sbappendstream_spec sb m false Hs) as (sb' & E & Hs' & Hv & _ & Hp & (g & Hf) & Hz').
  { split; [|split; [done|lia]]. rewrite app_assoc in Hd. by apply NoDup_app in Hd as [? _]. }
  exists sb'. split; [done|]. split; [by rewrite Hv, fmap_app, (view_bytes (m_demote _ _)), bytes_demote|].
  split; [done|]. split; [rewrite Hv; apply Forall_app; split; [done|apply ready_demote]|]. split; [|split; [done|lia]].
  eapply (nodup_sub (ids (chain sb)) _ g (ids m)); [|done]. rewrite Hf in Hp.
  apply (Permutation_app_inv_l (sb_freed sb)). rewrite Permutation_app_swap_app, Hp. solve_Permutation.
Qed.

Lemma sb_drop_ok sb n ms : sb_ok sb ms -> 0 <= n <= Z.of_nat (length (view (chain sb)).*1) ->
  exists sb', sbdrop_locked sb n = Done sb' /\ (view (chain sb')).*1 = drop (Z.to_nat n) (view (chain sb)).*1 /\ sb_ok sb' ms.
Proof.
  intros (Hs & Hr & Hd & He & Hz) Hn. pose proof Hs as (Hi & Hl & Hp). rewrite length_fmap, view_length in Hn.
  destruct (sbdrop_spec sb n Hi) as (sb' & E & Hi' & Hv & Hpos & Hlen & _ & _ & g & Hg & _ & Hz').
  { split; [lia|left]. rewrite (all_ready_avail (sb_fnrdy sb)); [lia|done|done|]. apply (i_acct _ Hi). }
  exists sb'. split; [done|]. split; [by rewrite Hv, fmap_drop|].
  split; [by eapply stream_drop|]. split; [rewrite Hv; by apply Forall_drop|]. split; [|split; [done|lia]].
  assert (E' : ids (chain sb) = g.*1 ++ ids (chain sb')) by (by rewrite !sigs_ids, Hg, fmap_app).
  rewrite E', <- app_assoc in Hd. by apply NoDup_app in Hd as (_ & _ & ?).
Qed.

Lemma sb_adj_ok sb m n ms : 0 <= n -> sb_ok sb (m :: ms) -> sb_ok sb (chain_adj m n :: ms).
Proof.
  intros Hn (Hs & Hr & Hd & He & Hz). destruct (chain_adj_spec m n Hn) as [_ Hf]. cbn [concat] in *.
  assert (Hsz : ids (chain_adj m n) = ids m /\ sumz m_size (chain_adj m n) <= sumz m_size m /\
    (Forall (fun x => 0 <= ext_bytes x) m -> Forall (fun x => 0 <= ext_bytes x) (chain_adj m n))).
  { clear - Hf. induction Hf as [|x y l l' (H1 & H2 & H3) Hl (I1 & I2 & I3)]; [by split_and!|]. split_and!.
    - unfold ids in *. cbn. by rewrite I1, H1.
    - rewrite !sumz_cons. lia.
    - intros [Hy Hl']%Forall_cons. apply Forall_cons. split; [by rewrite H2|auto]. }
  destruct Hsz as (I1 & I2 & I3). apply Forall_app in He as [He He']. split; [done|]. split; [done|]. cbn [concat].
  rewrite ids_app, sumz_app in *. rewrite I1. split; [done|]. split; [apply Forall_app; auto|lia].
Qed.

Lemma chain_ids_perm l l' : l ≡ₚ l' -> ids l ≡ₚ ids l' /\ sumz m_size l = sumz m_size l'.
Proof.
  intros H. split; [unfold ids; by rewrite H|]. induction H; rewrite ?sumz_cons in *; lia.
Qed.

Lemma concat_chains_perm {A} (l l' : list (list A)) : l ≡ₚ l' -> concat l ≡ₚ concat l'.
Proof.
  induction 1; cbn; [done|by apply Permutation_app_head|apply Permutation_app_swap_app|by etrans].
Qed.

Lemma sb_ok_perm sb ms ms' : ms ≡ₚ ms' -> sb_ok sb ms -> sb_ok sb ms'.
Proof.
  intros Hp (Hs & Hr & Hd & He & Hz). assert (Hc : concat ms ≡ₚ concat ms') by by apply concat_chains_perm.
  destruct (chain_ids_perm _ _ Hc) as [H1 H2]. split_and!; try done; [by rewrite <- H1|by rewrite <- Hc|lia].
Qed.

Lemma sb_ok_free sb m ms : sb_ok sb (m :: ms) -> sb_ok sb ms.
Proof.
  intros (Hs & Hr & Hd & He & Hz). cbn [concat] in *. rewrite ids_app in Hd. rewrite sumz_app in Hz. apply Forall_app in He as [He He'].
  pose proof (size_nonneg _ He). split_and!; try done; [by apply nodup_drop_mid in Hd|lia].
Qed.

#[export] Instance sb_recv_laws : RecvBufLaws sockbuf (list mbuf).
Proof.
  constructor.
  - intros m n Hn. by apply chain_adj_spec.
  - exact sb_append_ok.
  - intros b n ms. apply sb_drop_ok.
  - exact sb_ok_perm.
  - exact sb_ok_free.
  - intros b m n ms. apply sb_adj_ok.
Qed.

(** * What the application reads *)

Section delivery.
Context (zalloc : Z -> bool) (D : Z -> Z) (isn W : Z).

(** C8. From the segments of the peer to the application: whatever pieces of the
    stream arrive inside the window, and whatever was read between them, the bytes
    that were read and those in the socket buffer are the stream up to rcv_nxt, which
    on an established connection is the first position that no accepted segment had;
    the buffer is well formed, its count of available bytes is right, and every
    further read of at most that many bytes succeeds and leaves the rest of the
    stream.  The queue holds as many entries of the zone as its length says, and
    tcp_reass_flush returns them all and frees their data. *)
Theorem tcp_stream_delivered (tp : tcb sockbuf (list mbuf)) rcv out acc :
  0 < W < 2 ^ 31 -> reass_reach zalloc D isn W tp rcv out acc -> cantrcvmore tp = false ->
  rcv_nxt tp = u32 (isn + rcv) /\ out ++ bytes (chain (so_rcv tp)) = sub D 0 rcv /\
  (TCPS_HAVEESTABLISHED (t_state tp) = true -> ~ accepted acc rcv) /\
  stream (so_rcv tp) /\ sb_acc (so_rcv tp) = rcv - Z.of_nat (length out) /\
  (forall n, 0 <= n <= sb_acc (so_rcv tp) -> exists sb, sbdrop_locked (so_rcv tp) n = Done sb /\
    out ++ take (Z.to_nat n) (bytes (chain (so_rcv tp))) = sub D 0 (Z.of_nat (length out) + n) /\
    bytes (chain sb) = sub D (Z.of_nat (length out) + n) (rcv - Z.of_nat (length out) - n)) /\
  t_segqlen tp = Z.of_nat (length (t_segq tp)) /\ z_used tp = Z.of_nat (length (t_segq tp)) /\
  exists tp', tcp_reass_flush tp = Done tp' /\ t_segq tp' = [] /\ z_used tp' = 0 /\ m_freed tp' = m_freed tp ++ (tq_m <$> t_segq tp).
Proof.
  intros HW H Hc. destruct (reach_inv zalloc D isn W HW _ _ _ _ H) as (ss & Hi & _ & Hr).
  pose proof Hi as [[H1 H2 H3 H4 H5 H6 H7] Hh He]. specialize (H6 Hc). cbn [rb_data sb_recv] in H6. rewrite view_bytes in H6.
  pose proof H7 as (Hs & Hrdy & _). pose proof Hs as (Hiv & _ & Hp).
  assert (Hlen : (length out + length (bytes (chain (so_rcv tp))) = Z.to_nat rcv)%nat) by (by rewrite <- length_app, H6, sub_length).
  assert (Hacc : sb_acc (so_rcv tp) = rcv - Z.of_nat (length out)).
  { rewrite (a_acc _ _ (i_acct _ Hiv)), (all_ready_avail (sb_fnrdy (so_rcv tp))); [|done|done|apply (i_acct _ Hiv)].
    rewrite <- view_length, <- (length_fmap fst), view_bytes. lia. }
  destruct (tcp_reass_delivers zalloc D isn W HW _ _ _ _ H) as (_ & _ & _ & Hna & Hq & Hz & _ & Hfl).
  split_and!; try done. intros n Hn. destruct (sb_drop_ok _ n _ H7) as (sb & E & Hd & _); [rewrite view_bytes; lia|].
  exists sb. split; [done|]. rewrite !view_bytes in Hd.
  assert (Hsp : sub D 0 rcv = sub D 0 (Z.of_nat (length out) + n) ++ sub D (Z.of_nat (length out) + n) (rcv - Z.of_nat (length out) - n)).
  { pose proof (sub_app D 0 (Z.of_nat (length out) + n) (rcv - Z.of_nat (length out) - n)) as Hs2. rewrite Z.add_0_l in Hs2.
    rewrite Hs2 by lia. f_equal. lia. }
  rewrite <- H6, <- (take_drop (Z.to_nat n) (bytes _)), <- Hd, app_assoc in Hsp.
  apply app_inj_1 in Hsp as [-> ->]; [done|]. rewrite length_app, length_take, sub_length. lia.
Qed.
End delivery.

(** Three segments, the missing one last and the zone exhausted; three bytes are read. *)
Definition ex_mbuf (i s n : Z) : mbuf := Mb i 1 (seqZ s n) false false false false None (Some (Ext 2048 1)) 1000.
Definition ex_tp0 : tcb sockbuf (list mbuf) :=
  Tcb 4 (u32 Bytes.isn) [] 0 0 100 (sb_empty 65536 262144 0) 1000 false 0 0 [] (Stats 0 0 0 0 0 0).
Definition ex_seg (tp : tcb sockbuf (list mbuf)) (i s n : Z) : tcb sockbuf (list mbuf) :=
  match tcp_data Bytes.zalloc tp (u32 (Bytes.isn + s)) 16 n [ex_mbuf i s n] with Done (tp', _, _) => tp' | _ => tp end.
Definition ex_tp1 := ex_seg ex_tp0 1 4 4.
Definition ex_tp2 := ex_seg ex_tp1 2 2 4.
Definition ex_tp3 := ex_seg ex_tp2 3 0 3.

Lemma ex_arrival_ok tp i s n :
  stream (so_rcv tp) -> view (chain (so_rcv tp)) = [] -> NoDup (ids (chain (so_rcv tp)) ++ i :: ids (concat (tq_m <$> t_segq tp))) ->
  Forall (fun x => 0 <= ext_bytes x) (concat (tq_m <$> t_segq tp)) -> 0 <= s -> 0 <= n -> s + n <= 1000 ->
  sumz m_size (chain (so_rcv tp)) + (m_size (ex_mbuf i s n) + sumz m_size (concat (tq_m <$> t_segq tp))) < 2 ^ 31 ->
  arrival (fun x => x) 1000 tp 0 s n [ex_mbuf i s n].
Proof.
  intros H1 H2 H3 H4 H5 H6 H7 H8. split; [done|]. split; [done|]. split; [done|]. split.
  - unfold sub. cbn. rewrite app_nil_r. symmetry. apply list_fmap_id.
  - split; [done|]. rewrite H2. split; [constructor|]. split; [done|]. split; [|done]. by apply Forall_cons.
Qed.

Lemma tcp_stream_delivered_witness :
  rcv_nxt ex_tp3 = 5 /\ bytes (chain (so_rcv ex_tp3)) = seqZ 0 8 /\ sb_acc (so_rcv ex_tp3) = 8 /\
  exists sb, sbdrop_locked (so_rcv ex_tp3) 3 = Done sb /\ bytes (chain sb) = seqZ 3 5.
Proof.
  assert (H : reass_reach Bytes.zalloc (fun x => x) Bytes.isn 1000 ex_tp3 8 [] [(0, 3); (2, 4); (4, 4)]).
  { apply (rr_segment Bytes.zalloc (fun x => x) Bytes.isn 1000 ex_tp2 0 [] [(2, 4); (4, 4)] 0 3 16 [ex_mbuf 3 0 3] ex_tp3 0 3 8);
      [apply (rr_segment Bytes.zalloc (fun x => x) Bytes.isn 1000 ex_tp1 0 [] [(4, 4)] 2 4 16 [ex_mbuf 2 2 4] ex_tp2 0 4 0);
         [apply (rr_segment Bytes.zalloc (fun x => x) Bytes.isn 1000 ex_tp0 0 [] [] 4 4 16 [ex_mbuf 1 4 4] ex_tp1 0 4 0)|..]|..].
    1: { constructor. split_and!; try done. split; [apply empty_stream|]. split_and!; try done; constructor. }
    all: try (vm_compute; reflexivity); try done.
    all: apply ex_arrival_ok; [exact (empty_stream _ _ _)|reflexivity| | |done|done|done|vm_compute; reflexivity].
    all: apply (bool_decide_unpack _); vm_compute; exact I. }
  destruct (tcp_stream_delivered Bytes.zalloc (fun x => x) Bytes.isn 1000 ex_tp3 8 [] _ ltac:(lia) H eq_refl) as (H1 & H2 & _ & _ & H4 & H5 & _).
  change (8 - Z.of_nat (length (@nil Z))) with 8 in H4. split; [exact H1|]. split; [exact H2|]. split; [exact H4|].
  destruct (H5 3) as (sb & E & _ & Hb); [rewrite H4; lia|]. exists sb. split; [exact E|exact Hb].
Defined.
