(* ===== verification/InCksum.v ===== *)
(** The Internet checksum (src/freebsd/amd64/amd64/in_cksum.c): in_cksumdata reads
    aligned words of 32 bits, with masks for the ragged ends, an unrolled loop and a
    sum of 64 bits; in_cksum_skip goes over a chain of mbufs, in_cksum_hdr over an
    IP header.  Reads are of memory, a function from addresses to bytes; the words
    are little-endian. *)
From stdpp Require Import base list.
From Stdlib Require Import ZArith Lia.
From S2P Require Import Prelude.

Local Open Scope Z_scope.

(** * Operations *)

(** ADDCARRY *)
Definition ADDCARRY (x : Z) : Z := if x >? 65535 then u64 (x - 65535) else x.

(** The member s[i] of the unions. *)
Definition half (q i : Z) : Z := u16 (Z.shiftr q (16 * i)).

Definition REDUCE32 (sum : Z) : Z := half sum 0 + half sum 1 + half sum 2 + half sum 3.

Definition REDUCE16 (sum : Z) : Z :=
  let l := u32 (half sum 0 + half sum 1 + half sum 2 + half sum 3) in
  ADDCARRY (half l 0 + half l 1).

Definition in_masks : list Z :=
  [0x00000000; 0x000000FF; 0x0000FFFF; 0x00FFFFFF;
   0x00000000; 0x0000FF00; 0x00FFFF00; 0xFFFFFF00;
   0x00000000; 0x00FF0000; 0xFFFF0000; 0xFFFF0000;
   0x00000000; 0xFF000000; 0xFF000000; 0xFF000000].

(** A read outside of the table faults. *)
Definition in_mask (i : Z) : outcome Z :=
  if i <? 0 then Fault else match in_masks !! Z.to_nat i with Some m => Done m | None => Fault end.

Section cksum.
Variable mem : Z -> Z.

(** lw[i] *)
Definition lw (a i : Z) : Z :=
  let p := a + 4 * i in mem p + 256 * mem (p + 1) + 65536 * mem (p + 2) + 16777216 * mem (p + 3).

(** The loop over 32 bytes: the address, the length, the sum and [prefilled]. *)
Fixpoint loop32 (fuel : nat) (a len sum prefilled : Z) : outcome (Z * Z * Z * Z) :=
  match fuel with
  | O => Loop
  | S n =>
      let len := len - 32 in
      if len >=? 4 then
        let prefilling := lw a 8 in
        loop32 n (a + 32) len
          (u64 (sum + (prefilled + lw a 1 + lw a 2 + lw a 3 + lw a 4 + lw a 5 + lw a 6 + lw a 7))) prefilling
      else Done (a, len, sum, prefilled)
  end.

Fixpoint loop16 (fuel : nat) (a len sum : Z) : outcome (Z * Z * Z) :=
  match fuel with
  | O => Loop
  | S n =>
      let len := len - 16 in
      if len >=? 0 then loop16 n (a + 16) len (u64 (sum + (lw a 0 + lw a 1 + lw a 2 + lw a 3)))
      else Done (a, len, sum)
  end.

Fixpoint loop4 (fuel : nat) (a len sum : Z) : outcome (Z * Z * Z) :=
  match fuel with
  | O => Loop
  | S n =>
      let len := len - 4 in
      if len >=? 0 then loop4 n (a + 4) len (u64 (sum + lw a 0)) else Done (a, len, sum)
  end.

(** in_cksumdata behind the unaligned first word. *)
Definition cksum_aligned (a len sum : Z) : outcome Z :=
  let fuel := S (Z.to_nat len) in
  x ← loop32 fuel a len sum (lw a 0);
  let '(a, len, sum, prefilled) := x in
  let '(a, len, sum) :=
    if len >=? 0 then
      (a + 32, len, u64 (sum + (prefilled + lw a 1 + lw a 2 + lw a 3 + lw a 4 + lw a 5 + lw a 6 + lw a 7)))
    else (a, len + 32, sum) in
  x ← loop16 fuel a len sum;
  let '(a, len, sum) := x in
  let len := len + 16 in
  x ← loop4 fuel a len sum;
  let '(a, len, sum) := x in
  let len := len + 4 in
  if len >? 0 then m ← in_mask len; Done (REDUCE32 (u64 (sum + Z.land m (lw a 0)))) else Done (REDUCE32 sum).

Definition in_cksumdata (buf len : Z) : outcome Z :=
  let offset := Z.land 3 buf in
  if (offset =? 0) && (len =? 20) then
    Done (REDUCE32 (u64 (lw buf 0 + lw buf 1 + lw buf 2 + lw buf 3 + lw buf 4)))
  else if negb (offset =? 0) then
    let a := buf - offset in
    m ← in_mask (Z.shiftl offset 2 + (if len >=? 3 then 3 else len));
    let sum := Z.land (lw a 0) m in
    let len := len - (4 - offset) in
    if len <=? 0 then Done (REDUCE32 sum) else cksum_aligned (a + 4) len sum
  else cksum_aligned buf len 0.

(** An mbuf is its address and length.  The loop that skips: the mbuf in which the
    data begins as a chain, with the place where it begins, or the rest of the chain. *)
Fixpoint skip_loop (m : list (Z * Z)) (skip : Z) : list (Z * Z) * option (Z * Z) :=
  match m with
  | [] => ([], None)
  | (addr, m_len) :: r =>
      if skip =? 0 then (m, None)
      else if m_len >? skip then (r, Some (addr + skip, m_len - skip))
      else skip_loop r (skip - m_len)
  end.

(** The body of the second loop, from skip_start: the state is [len], [clen], [sum]. *)
Definition cksum_part (addr mlen : Z) (st : Z * Z * Z) : outcome (Z * Z * Z) :=
  let '(len, clen, sum) := st in
  let mlen := if len <? mlen then len else mlen in
  d ← in_cksumdata addr mlen;
  let sum := if flag (Z.lxor clen addr) 1 then u64 (sum + u64 (Z.shiftl d 8)) else u64 (sum + d) in
  Done (len - mlen, clen + mlen, sum).

Fixpoint cksum_loop (m : list (Z * Z)) (st : Z * Z * Z) : outcome (Z * Z * Z) :=
  match m with
  | [] => Done st
  | (addr, m_len) :: r =>
      if fst (fst st) =? 0 then Done st
      else if m_len =? 0 then cksum_loop r st
      else st ← cksum_part addr m_len st; cksum_loop r st
  end.

Definition in_cksum_skip (m : list (Z * Z)) (len skip : Z) : outcome Z :=
  let '(rest, start) := skip_loop m skip in
  let st := (len - skip, 0, 0) in
  st ← match start with Some (addr, mlen) => cksum_part addr mlen st | None => Done st end;
  st ← cksum_loop rest st;
  Done (Z.land (Z.lnot (REDUCE16 (snd st))) 65535).

(** The macro in_cksum. *)
Definition in_cksum (m : list (Z * Z)) (len : Z) : outcome Z := in_cksum_skip m len 0.

Definition in_cksum_hdr (ip : Z) : outcome Z :=
  sum ← in_cksumdata ip 20; Done (Z.land (Z.lnot (REDUCE16 sum)) 65535).
End cksum.

Definition in_addword (a b : Z) : Z := u16 (ADDCARRY (a + b)).

Definition in_pseudo (a b c : Z) : Z := u16 (REDUCE16 (u64 (a + b + c))).

(** * The reference: RFC 1071 *)

(** Addition in one's complement of 16 bits. *)
Definition oadd (a b : Z) : Z := if a + b >? 65535 then a + b - 65535 else a + b.

(** The one's complement sum of the 16-bit words, an odd byte padded with zero. *)
Fixpoint rfc1071 (l : list Z) : Z :=
  match l with
  | [] => 0
  | [b] => b
  | b0 :: b1 :: r => oadd (b0 + 256 * b1) (rfc1071 r)
  end.
