(* ===== verification/CksumProps.v ===== *)
(** The checksum of InCksum.v is the one's complement sum of RFC 1071: canonical
    sums modulo 65535, the words of in_cksumdata, and the walk over a chain. *)
From stdpp Require Import base list.
From Stdlib Require Import ZArith Lia.
From S2P Require Import Prelude InCksum.

Local Open Scope Z_scope.

(** * Sums modulo 65535 *)

(** The 16-bit value with end-around carry of a sum that is not negative. *)
Definition canon (n : Z) : Z := if n =? 0 then 0 else (n - 1) mod 65535 + 1.

Ltac canon_lia := unfold canon, oadd in *; repeat case_match; try done; Z.to_euclidean_division_equations; lia.

Lemma canon_range n : 0 <= n -> 0 <= canon n <= 65535.
Proof. intros. canon_lia. Qed.

Lemma canon_small n : 0 <= n <= 65535 -> canon n = n.
Proof. intros. canon_lia. Qed.

Lemma canon_add a b : 0 <= a -> 0 <= b -> canon (a + b) = oadd (canon a) (canon b).
Proof. intros. canon_lia. Qed.

Lemma canon_shift x : 0 <= x -> canon (65536 * x) = canon x.
Proof. intros. canon_lia. Qed.

Lemma canon_mod a b k : a = b + 65535 * k -> 0 <= b -> 0 <= k -> (b = 0 -> a = 0) -> canon a = canon b.
Proof.
  intros -> Hb Hk Hz. unfold canon. destruct (Z.eqb_spec b 0) as [->|]; [by rewrite Hz|]. destruct (Z.eqb_spec (b + 65535 * k) 0); [lia|].
  f_equal. replace (b + 65535 * k - 1) with (b - 1 + k * 65535) by lia. by rewrite Z.mod_add.
Qed.

Lemma canon_cong a a' b b' : 0 <= a -> 0 <= b -> 0 <= a' -> 0 <= b' -> canon a = canon a' -> canon b = canon b' -> canon (a + b) = canon (a' + b').
Proof. intros ? ? ? ? E1 E2. rewrite !canon_add by done. congruence. Qed.

(** The sum of a byte string, the first byte in the high half of a word if [p]. *)
Fixpoint psum (p : bool) (l : list Z) : Z :=
  match l with [] => 0 | b :: r => (if p then 256 * b else b) + psum (negb p) r end.

Definition bytes_ok (l : list Z) : Prop := Forall (fun b => 0 <= b < 256) l.

Lemma psum_nonneg p l : bytes_ok l -> 0 <= psum p l.
Proof. intros H; revert p; induction H as [|b l Hb Hl IH]; intros p; simpl; [done|]. specialize (IH (negb p)). destruct p; lia. Qed.

Lemma psum_app p l k : psum p (l ++ k) = psum p l + psum (xorb p (Z.odd (Z.of_nat (length l)))) k.
Proof.
  revert p; induction l as [|b l IH]; intros p; [simpl; by rewrite xorb_false_r|].
  cbn [app psum length]. rewrite IH, Nat2Z.inj_succ, Z.odd_succ, <- Z.negb_odd.
  destruct p, (Z.odd (Z.of_nat (length l))); simpl; lia.
Qed.

(** Exchanging the halves of all words is a multiplication by 256. *)
Lemma psum_swap p l : bytes_ok l -> canon (256 * psum p l) = canon (psum (negb p) l).
Proof.
  intros H; revert p; induction H as [|b l Hb Hl IH]; intros p; [done|]. simpl.
  pose proof (psum_nonneg (negb p) l Hl). pose proof (psum_nonneg (negb (negb p)) l Hl).
  rewrite Z.mul_add_distr_l. apply canon_cong; [destruct p; lia|lia|destruct p; simpl; lia|lia| |apply IH].
  destruct p; simpl; [|done]. rewrite Z.mul_assoc. change (256 * 256) with 65536. apply canon_shift. lia.
Qed.

Lemma two_ind (P : list Z -> Prop) : P [] -> (forall b, P [b]) -> (forall b c l, P l -> P (b :: c :: l)) -> forall l, P l.
Proof.
  intros H0 H1 H2 l. enough (P l /\ forall b, P (b :: l)) as [? _] by done. induction l as [|c l [IH1 IH2]]; [auto|]. split; auto.
Qed.

(** The reference is the canonical value of the sum. *)
Lemma rfc1071_canon l : bytes_ok l -> rfc1071 l = canon (psum false l).
Proof.
  induction l as [|b|b c l IH] using two_ind; intros H; [done| |].
  - apply Forall_cons in H as [H _]. simpl. rewrite canon_small; lia.
  - apply Forall_cons in H as [Hb [Hc Hl]%Forall_cons]. pose proof (psum_nonneg false l Hl). cbn [rfc1071 psum negb].
    rewrite IH, Z.add_assoc, canon_add by (try done; lia). f_equal. rewrite canon_small; lia.
Qed.

(** * Reductions *)

Lemma half_val q i : 0 <= i -> half q i = q / 2 ^ (16 * i) mod 65536.
Proof. intros. unfold half, wrapu. rewrite Z.shiftr_div_pow2 by lia. done. Qed.

Lemma reduce_halves q : 0 <= q < 2 ^ 64 ->
  canon (half q 0 + half q 1 + half q 2 + half q 3) = canon q /\ 0 <= half q 0 + half q 1 + half q 2 + half q 3 <= 262140.
Proof.
  intros H. rewrite !half_val by lia. change (2 ^ (16 * 0)) with 1. change (2 ^ (16 * 1)) with 65536.
  change (2 ^ (16 * 2)) with 4294967296. change (2 ^ (16 * 3)) with 281474976710656. change (2 ^ 64) with 18446744073709551616 in H.
  split; [|Z.to_euclidean_division_equations; lia]. symmetry.
  apply (canon_mod _ _ (q / 65536 mod 65536 + (q / 4294967296 mod 65536) * 65537 + (q / 281474976710656 mod 65536) * 4295032833));
    Z.to_euclidean_division_equations; lia.
Qed.

Lemma REDUCE32_spec q : 0 <= q < 2 ^ 64 -> canon (REDUCE32 q) = canon q /\ 0 <= REDUCE32 q <= 262140.
Proof. apply reduce_halves. Qed.

Lemma REDUCE16_spec q : 0 <= q < 2 ^ 64 -> REDUCE16 q = canon q.
Proof.
  intros H. destruct (reduce_halves q H) as [E Hr]. unfold REDUCE16. set (s := half q 0 + _ + _ + _) in *. clearbody s.
  rewrite <- E, wrapu_small by (change (2 ^ 32) with 4294967296; lia). rewrite !half_val by lia.
  change (2 ^ (16 * 0)) with 1. change (2 ^ (16 * 1)) with 65536. unfold ADDCARRY.
  assert (Hs : 0 <= s / 1 mod 65536 + s / 65536 mod 65536 <= 65538) by (Z.to_euclidean_division_equations; lia).
  unfold canon. destruct (Z.gtb_spec (s / 1 mod 65536 + s / 65536 mod 65536) 65535).
  - rewrite wrapu_small by (change (2 ^ 64) with 18446744073709551616; lia). destruct (Z.eqb_spec s 0); Z.to_euclidean_division_equations; lia.
  - destruct (Z.eqb_spec s 0); Z.to_euclidean_division_equations; lia.
Qed.

Lemma lnot16 x : 0 <= x <= 65535 -> Z.land (Z.lnot x) 65535 = 65535 - x.
Proof.
  intros H. change 65535 with (2 ^ 16 - 1) at 1. rewrite land_pred_pow2 by lia. unfold Z.lnot. change (2 ^ 16) with 65536.
  Z.to_euclidean_division_equations; lia.
Qed.

(** * The words of a buffer *)

Section words.
Context (mem : Z -> Z).
Hypothesis Hmem : forall a, 0 <= mem a < 256.

Definition data (a n : Z) : list Z := mem <$> seqZ a n.

Lemma data_ok a n : bytes_ok (data a n).
Proof. unfold bytes_ok, data. apply Forall_fmap, Forall_true. intros x. apply Hmem. Qed.

Lemma cks_data_length a n : length (data a n) = Z.to_nat n.
Proof. unfold data. by rewrite length_fmap, length_seqZ. Qed.

Lemma cks_data_app a n k : 0 <= n -> 0 <= k -> data a (n + k) = data a n ++ data (a + n) k.
Proof. intros. unfold data. by rewrite <- fmap_app, <- seqZ_app. Qed.

Lemma take_data a len n (r : list Z) : 0 <= len -> 0 <= n ->
  take (Z.to_nat len) (data a n ++ r) = data a (Z.min len n) ++ take (Z.to_nat (len - Z.min len n)) r.
Proof.
  intros Hl Hn. destruct (Z.le_ge_cases len n) as [Hc|Hc].
  - rewrite Z.min_l, Z.sub_diag, take_0, app_nil_r by lia. rewrite take_app_le by (rewrite cks_data_length; lia).
    replace n with (len + (n - len)) by lia. by rewrite cks_data_app, take_app_length' by (rewrite ?cks_data_length; lia).
  - rewrite Z.min_r by lia. rewrite take_app_ge by (rewrite cks_data_length; lia). rewrite cks_data_length. do 2 f_equal. lia.
Qed.

(** The sum with the words where they are in memory. *)
Definition asum (a n : Z) : Z := psum (Z.odd a) (data a n).

Lemma asum_nonneg a n : 0 <= asum a n.
Proof. apply psum_nonneg, data_ok. Qed.

Lemma asum_add a n k : 0 <= n -> 0 <= k -> asum a (n + k) = asum a n + asum (a + n) k.
Proof.
  intros Hn Hk. unfold asum. rewrite cks_data_app, psum_app, cks_data_length, Z2Nat.id by done. by rewrite Z.odd_add.
Qed.

Lemma lw_shift a i : lw mem a i = lw mem (a + 4 * i) 0.
Proof. unfold lw. by rewrite Z.mul_0_r, Z.add_0_r. Qed.

Lemma lw_16 a i : lw mem (a + 16) i = lw mem a (4 + i).
Proof. rewrite (lw_shift a), (lw_shift (a + 16)). f_equal. lia. Qed.

Lemma lw_range a i : 0 <= lw mem a i < 4294967296.
Proof.
  unfold lw. pose proof (Hmem (a + 4 * i)). pose proof (Hmem (a + 4 * i + 1)). pose proof (Hmem (a + 4 * i + 2)). pose proof (Hmem (a + 4 * i + 3)). lia.
Qed.

Lemma data_4 a : data a 4 = [mem a; mem (a + 1); mem (a + 2); mem (a + 3)].
Proof.
  unfold data. rewrite (seqZ_cons a), (seqZ_cons (Z.succ a)), (seqZ_cons (Z.succ (Z.succ a))), (seqZ_cons (Z.succ (Z.succ (Z.succ a)))) by lia.
  cbn. unfold Z.succ. by rewrite <- !Z.add_assoc.
Qed.

Lemma lw_canon a : Z.even a = true -> canon (lw mem a 0) = canon (asum a 4).
Proof.
  intros He. unfold asum. rewrite <- Z.negb_even, He, data_4. unfold lw. rewrite Z.mul_0_r, Z.add_0_r. cbn [psum negb].
  pose proof (Hmem a). pose proof (Hmem (a + 1)). pose proof (Hmem (a + 2)). pose proof (Hmem (a + 3)).
  apply (canon_mod _ _ (mem (a + 2) + 256 * mem (a + 3))); lia.
Qed.

(** [sum] is the sum of the first [d] bytes of [buf]. *)
Definition acc (buf d sum : Z) : Prop := 0 <= d /\ 0 <= sum <= 4294967296 * d /\ canon sum = canon (asum buf d).

Lemma acc_0 buf : acc buf 0 0.
Proof. split; [lia|]. split; [lia|]. done. Qed.

Lemma acc_u64 buf d sum : acc buf d sum -> d < 2147483648 -> u64 sum = sum.
Proof. intros (H1 & H2 & _) H. apply wrapu_small. change (2 ^ 64) with 18446744073709551616. lia. Qed.

Lemma acc_add buf d k sum w : acc buf d sum -> 0 < k -> 0 <= w < 4294967296 -> canon w = canon (asum (buf + d) k) -> acc buf (d + k) (sum + w).
Proof.
  intros (H1 & H2 & H3) Hk Hw E. split; [lia|]. split; [lia|]. rewrite asum_add by lia.
  apply canon_cong; try done; try lia; apply asum_nonneg.
Qed.

Lemma acc_word buf d sum : acc buf d sum -> Z.even (buf + d) = true -> acc buf (d + 4) (sum + lw mem (buf + d) 0) /\ Z.even (buf + (d + 4)) = true.
Proof.
  intros H He. split; [apply acc_add; [done|lia|apply lw_range|by apply lw_canon]|]. by rewrite Z.add_assoc, Z.even_add, He.
Qed.

Lemma acc_4words buf d sum : acc buf d sum -> Z.even (buf + d) = true ->
  acc buf (d + 16) (sum + (lw mem (buf + d) 0 + lw mem (buf + d) 1 + lw mem (buf + d) 2 + lw mem (buf + d) 3)) /\ Z.even (buf + (d + 16)) = true.
Proof.
  intros H He. rewrite (lw_shift _ 1), (lw_shift _ 2), (lw_shift _ 3).
  destruct (acc_word _ _ _ H He) as [H1 E1]. destruct (acc_word _ _ _ H1 E1) as [H2 E2].
  destruct (acc_word _ _ _ H2 E2) as [H3 E3]. destruct (acc_word _ _ _ H3 E3) as [H4 E4].
  rewrite <- !(Z.add_assoc d), !(Z.add_assoc buf) in H4. cbn in H4. rewrite <- !Z.add_assoc in *. cbn in *. done.
Qed.

Lemma acc_8words buf d sum : acc buf d sum -> Z.even (buf + d) = true ->
  acc buf (d + 32) (sum + (lw mem (buf + d) 0 + lw mem (buf + d) 1 + lw mem (buf + d) 2 + lw mem (buf + d) 3 +
                           lw mem (buf + d) 4 + lw mem (buf + d) 5 + lw mem (buf + d) 6 + lw mem (buf + d) 7)) /\
  Z.even (buf + (d + 32)) = true.
Proof.
  intros H He. destruct (acc_4words _ _ _ H He) as [H1 E1]. destruct (acc_4words _ _ _ H1 E1) as [H2 E2].
  replace (d + 16 + 16) with (d + 32) in * by lia. split; [|done].
  rewrite (Z.add_assoc buf d 16), (lw_16 _ 0), (lw_16 _ 1), (lw_16 _ 2), (lw_16 _ 3), <- Z.add_assoc in H2. cbn [Z.add Pos.add] in H2.
  rewrite !(Z.add_assoc (_ + _ + _ + _)) in H2. exact H2.
Qed.

Lemma loop32_spec n buf d len sum :
  acc buf d sum -> Z.even (buf + d) = true -> 0 <= len -> d + len < 2147483648 -> (Z.to_nat len < n)%nat ->
  exists d' len' sum', loop32 mem n (buf + d) len sum (lw mem (buf + d) 0) = Done (buf + d', len', sum', lw mem (buf + d') 0) /\
    acc buf d' sum' /\ Z.even (buf + d') = true /\ d' + (len' + 32) = d + len /\ d <= d' /\ -32 <= len' < 4.
Proof.
  revert d len sum; induction n as [|n IH]; intros d len sum Ha He Hl Hd Hn; [lia|]. cbn [loop32].
  destruct (Z.geb_spec (len - 32) 4) as [Hc|Hc].
  - destruct (acc_8words _ _ _ Ha He) as [H1 E1]. rewrite (acc_u64 buf (d + 32)) by (done || lia).
    rewrite (lw_shift (buf + d) 8), <- !(Z.add_assoc buf d). change (4 * 8) with 32.
    destruct (IH (d + 32) (len - 32) _ H1 E1) as (d' & len' & sum' & -> & F1 & F2 & F3 & F4 & F5); [lia..|].
    exists d', len', sum'. split_and!; try done; lia.
  - exists d, (len - 32), sum. split_and!; try done; lia.
Qed.

Lemma loop16_spec n buf d len sum :
  acc buf d sum -> Z.even (buf + d) = true -> 0 <= len -> d + len < 2147483648 -> (Z.to_nat len < n)%nat ->
  exists d' len' sum', loop16 mem n (buf + d) len sum = Done (buf + d', len', sum') /\
    acc buf d' sum' /\ Z.even (buf + d') = true /\ d' + (len' + 16) = d + len /\ d <= d' /\ -16 <= len' < 0.
Proof.
  revert d len sum; induction n as [|n IH]; intros d len sum Ha He Hl Hd Hn; [lia|]. cbn [loop16].
  destruct (Z.geb_spec (len - 16) 0) as [Hc|Hc].
  - destruct (acc_4words _ _ _ Ha He) as [H1 E1]. rewrite (acc_u64 buf (d + 16)), <- !(Z.add_assoc buf d) by (done || lia).
    destruct (IH (d + 16) (len - 16) _ H1 E1) as (d' & len' & sum' & -> & F1 & F2 & F3 & F4 & F5); [lia..|].
    exists d', len', sum'. split_and!; try done; lia.
  - exists d, (len - 16), sum. split_and!; try done; lia.
Qed.

Lemma loop4_spec n buf d len sum :
  acc buf d sum -> Z.even (buf + d) = true -> 0 <= len -> d + len < 2147483648 -> (Z.to_nat len < n)%nat ->
  exists d' len' sum', loop4 mem n (buf + d) len sum = Done (buf + d', len', sum') /\
    acc buf d' sum' /\ Z.even (buf + d') = true /\ d' + (len' + 4) = d + len /\ -4 <= len' < 0.
Proof.
  revert d len sum; induction n as [|n IH]; intros d len sum Ha He Hl Hd Hn; [lia|]. cbn [loop4].
  destruct (Z.geb_spec (len - 4) 0) as [Hc|Hc].
  - destruct (acc_word _ _ _ Ha He) as [H1 E1]. rewrite (acc_u64 buf (d + 4)), <- !(Z.add_assoc buf d) by (done || lia).
    destruct (IH (d + 4) (len - 4) _ H1 E1) as (d' & len' & sum' & -> & F1 & F2 & F3 & F4); [lia..|].
    exists d', len', sum'. split_and!; try done; lia.
  - exists d, (len - 4), sum. split_and!; try done; lia.
Qed.

(** * Masks *)

Lemma land_mask w p q : 0 <= p -> 0 <= q -> Z.land w (Z.shiftl (Z.ones q) p) = (w / 2 ^ p) mod 2 ^ q * 2 ^ p.
Proof.
  intros Hp Hq. rewrite <- Z.land_ones, <- Z.shiftr_div_pow2, <- Z.shiftl_mul_pow2 by done. apply Z.bits_inj'. intros n Hn.
  rewrite Z.land_spec. destruct (Z.lt_ge_cases n p) as [H|H].
  - by rewrite !Z.shiftl_spec_low, andb_false_r.
  - rewrite !Z.shiftl_spec, Z.land_spec, Z.shiftr_spec by lia. f_equal. f_equal. lia.
Qed.

(** The mask for [k] bytes at [o] in a word. *)
Lemma in_mask_val o k : 0 <= o < 4 -> 0 <= k <= 3 ->
  in_mask (Z.shiftl o 2 + k) = Done (Z.shiftl (Z.ones (8 * Z.min k (4 - o))) (8 * o)).
Proof.
  intros Ho Hk. assert (o = 0 \/ o = 1 \/ o = 2 \/ o = 3) as Ho' by lia. assert (k = 0 \/ k = 1 \/ k = 2 \/ k = 3) as Hk' by lia.
  destruct Ho' as [->|[->|[->| ->]]], Hk' as [->|[->|[->| ->]]]; reflexivity.
Qed.

(** The masked word has the sum of the bytes that are wanted. *)
Lemma masked_canon a o k : Z.even a = true -> 0 <= o < 4 -> 0 <= k <= 4 - o ->
  let v := Z.land (lw mem a 0) (Z.shiftl (Z.ones (8 * k)) (8 * o)) in
  canon v = canon (asum (a + o) k) /\ 0 <= v < 4294967296 /\ (k = 0 -> v = 0).
Proof.
  intros He Ho Hk v. subst v. rewrite land_mask by lia. unfold asum. rewrite Z.odd_add, <- (Z.negb_even a), He. cbn [negb xorb].
  assert (Hd : data (a + o) k = take (Z.to_nat k) (drop (Z.to_nat o) (data a 4))).
  { replace 4 with (o + (4 - o)) by lia. rewrite cks_data_app, drop_app_length' by (rewrite ?cks_data_length; lia).
    replace (4 - o) with (k + (4 - o - k)) by lia. by rewrite cks_data_app, take_app_length' by (rewrite ?cks_data_length; lia). }
  rewrite Hd, data_4. unfold lw. rewrite Z.mul_0_r, Z.add_0_r.
  pose proof (Hmem a) as H0. pose proof (Hmem (a + 1)) as H1. pose proof (Hmem (a + 2)) as H2. pose proof (Hmem (a + 3)) as H3.
  clear Hmem. generalize dependent (mem a). generalize dependent (mem (a + 1)). generalize dependent (mem (a + 2)). generalize dependent (mem (a + 3)).
  intros b3 H3 b2 H2 b1 H1 b0 H0. clear Hd He.
  enough (forall w, w = b0 + 256 * b1 + 65536 * b2 + 16777216 * b3 -> let v := w / 2 ^ (8 * o) mod 2 ^ (8 * k) * 2 ^ (8 * o) in
    v = psum (Z.odd o) (take (Z.to_nat k) (drop (Z.to_nat o) [b0; b1; b2; b3])) +
        65535 * ((if (o <=? 2) && (2 <? o + k) then b2 else 0) + (if (o <=? 3) && (3 <? o + k) then 256 * b3 else 0)) /\
    0 <= v < 4294967296 /\ (k = 0 -> v = 0) /\
    (psum (Z.odd o) (take (Z.to_nat k) (drop (Z.to_nat o) [b0; b1; b2; b3])) = 0 -> v = 0)) as Hv.
  { destruct (Hv _ eq_refl) as (E & Hr & Hz & Hp). split; [|done]. eapply canon_mod; [exact E| | |exact Hp].
    - apply psum_nonneg. apply Forall_take, Forall_drop. repeat constructor; lia.
    - repeat case_match; lia. }
  intros w Hw. assert (o = 0 \/ o = 1 \/ o = 2 \/ o = 3) as Ho' by lia. assert (k = 0 \/ k = 1 \/ k = 2 \/ k = 3 \/ k = 4) as Hk' by lia.
  destruct Ho' as [->|[->|[->| ->]]], Hk' as [->|[->|[->|[->| ->]]]]; try lia;
    repeat match goal with |- context [2 ^ (8 * ?i)] => let v := eval vm_compute in (2 ^ (8 * i)) in change (2 ^ (8 * i)) with v
      | |- context [?i <? ?j] => let v := eval vm_compute in (i <? j) in change (i <? j) with v
      | |- context [Z.to_nat ?i] => let v := eval vm_compute in (Z.to_nat i) in change (Z.to_nat i) with v end;
    cbn -[Z.mul Z.add Z.div Z.modulo];
    Z.to_euclidean_division_equations; lia.
Qed.

(** * in_cksumdata *)

(** [v] is a reduced sum of [s]. *)
Definition reduced (v s : Z) : Prop := 0 <= v <= 262140 /\ canon v = canon s.

Lemma acc_reduced buf d sum : acc buf d sum -> d < 2147483648 -> reduced (REDUCE32 sum) (asum buf d).
Proof.
  intros (H1 & H2 & H3) Hd. destruct (REDUCE32_spec sum) as [E Hr]; [change (2 ^ 64) with 18446744073709551616; lia|].
  split; [done|]. by rewrite E.
Qed.

(** A masked word adds the next [k] bytes, if there are any. *)
Lemma acc_masked buf d sum k : acc buf d sum -> Z.even (buf + d) = true -> 0 < k < 4 ->
  exists m, in_mask k = Done m /\ acc buf (d + k) (sum + Z.land m (lw mem (buf + d) 0)).
Proof.
  intros Ha He Hk. eexists. split; [exact (in_mask_val 0 k ltac:(lia) ltac:(lia))|].
  destruct (masked_canon (buf + d) 0 k He ltac:(lia) ltac:(lia)) as (E & Hr & _). rewrite Z.add_0_r in E.
  rewrite Z.min_l, Z.land_comm by lia. by apply acc_add; [|lia|..].
Qed.

Lemma cksum_aligned_spec buf d len sum :
  acc buf d sum -> Z.even (buf + d) = true -> 0 <= len -> d + len < 2147483648 ->
  exists v, cksum_aligned mem (buf + d) len sum = Done v /\ reduced v (asum buf (d + len)).
Proof.
  intros Ha He Hl Hd. unfold cksum_aligned.
  destruct (loop32_spec (S (Z.to_nat len)) buf d len sum) as (d1 & l1 & s1 & -> & A1 & B1 & C1 & M1 & R1); [done..|lia|]. cbn [mbind outcome_bind].
  assert (exists d2 l2 s2, (if l1 >=? 0 then
      (buf + d1 + 32, l1, u64 (s1 + (lw mem (buf + d1) 0 + lw mem (buf + d1) 1 + lw mem (buf + d1) 2 + lw mem (buf + d1) 3 +
         lw mem (buf + d1) 4 + lw mem (buf + d1) 5 + lw mem (buf + d1) 6 + lw mem (buf + d1) 7)))
      else (buf + d1, l1 + 32, s1)) = (buf + d2, l2, s2) /\ acc buf d2 s2 /\ Z.even (buf + d2) = true /\ d2 + l2 = d + len /\ 0 <= l2 <= len)
    as (d2 & l2 & s2 & -> & A2 & B2 & C2 & R2).
  { destruct A1 as (A0 & A1). destruct Ha as (Ha & _). destruct (Z.geb_spec l1 0).
    - destruct (acc_8words buf d1 s1) as [F1 F2]; [by split|done|]. exists (d1 + 32), l1. eexists. rewrite (acc_u64 buf (d1 + 32)) by (done || lia).
      rewrite <- Z.add_assoc. split_and!; try done; lia.
    - exists d1, (l1 + 32), s1. split_and!; try done; lia. }
  destruct (loop16_spec (S (Z.to_nat len)) buf d2 l2 s2) as (d3 & l3 & s3 & -> & A3 & B3 & C3 & M3 & R3); [done..|lia|lia|lia|]. cbn [mbind outcome_bind].
  destruct (loop4_spec (S (Z.to_nat len)) buf d3 (l3 + 16) s3) as (d4 & l4 & s4 & -> & A4 & B4 & C4 & R4); [done..|lia|lia|lia|]. cbn [mbind outcome_bind].
  destruct (Z.gtb_spec (l4 + 4) 0) as [Hp|Hp].
  - destruct (acc_masked buf d4 s4 (l4 + 4)) as (m & -> & A5); [done|done|lia|]. cbn [mbind outcome_bind]. eexists. split; [done|].
    rewrite (acc_u64 _ _ _ A5) by lia. replace (d + len) with (d4 + (l4 + 4)) by lia. apply acc_reduced; [done|lia].
  - eexists. split; [done|]. replace (d + len) with d4 by lia. apply acc_reduced; [done|lia].
Qed.

Lemma aligned_even buf : Z.land 3 buf = buf mod 4 /\ Z.even (buf - buf mod 4) = true.
Proof.
  split; [rewrite Z.land_comm; exact (land_pred_pow2 buf 2 ltac:(lia))|].
  rewrite (Z.div_mod buf 4) at 1 by lia. replace (_ - _) with (2 * (2 * (buf / 4))) by lia. apply Z.even_mul.
Qed.

Lemma in_cksumdata_spec buf len : 0 <= len < 2147483648 ->
  exists v, in_cksumdata mem buf len = Done v /\ reduced v (asum buf len).
Proof.
  intros Hl. destruct (aligned_even buf) as [Ho He]. unfold in_cksumdata. rewrite Ho.
  pose proof (Z.mod_pos_bound buf 4 ltac:(lia)) as Hm. destruct (Z.eqb_spec (buf mod 4) 0) as [E|E]; cbn [negb andb].
  - rewrite E, Z.sub_0_r in He. destruct (Z.eqb_spec len 20) as [->|_].
    + destruct (acc_4words buf 0 0 (acc_0 buf)) as [A1 B1]; [by rewrite Z.add_0_r|].
      destruct (acc_word _ _ _ A1 B1) as [A2 _]. eexists. split; [done|].
      rewrite !Z.add_0_r, !Z.add_0_l in A2. rewrite (lw_shift buf 4). change (4 * 4) with 16. change (16 + 4) with 20 in A2.
      rewrite (acc_u64 _ _ _ A2) by lia. by apply acc_reduced.
    + destruct (cksum_aligned_spec buf 0 len 0 (acc_0 buf)) as (v & Hv & Hr); [by rewrite Z.add_0_r|lia|lia|].
      rewrite Z.add_0_r, Z.add_0_l in *. by exists v.
  - clear Ho. set (o := buf mod 4) in *. set (k := if len >=? 3 then 3 else len).
    assert (Hk : 0 <= k <= 3) by (subst k; destruct (Z.geb_spec len 3); lia).
    rewrite (in_mask_val o k) by lia. cbn [mbind outcome_bind].
    assert (Hmk : Z.min k (4 - o) = Z.min len (4 - o)) by (subst k; destruct (Z.geb_spec len 3); lia). rewrite Hmk.
    destruct (masked_canon (buf - o) o (Z.min len (4 - o)) He ltac:(lia) ltac:(lia)) as (Ec & Hr & Hz).
    replace (buf - o + o) with buf in Ec by lia. set (v := Z.land _ _) in *.
    assert (A : acc buf (Z.min len (4 - o)) v).
    { split; [lia|]. split; [|done]. destruct (Z.eq_dec (Z.min len (4 - o)) 0) as [E0|]; [rewrite Hz by done; lia|lia]. }
    destruct (Z.leb_spec (len - (4 - o)) 0).
    + eexists. split; [done|]. rewrite Z.min_l in A by lia. apply acc_reduced; [done|lia].
    + rewrite Z.min_r in A by lia. destruct (cksum_aligned_spec buf (4 - o) (len - (4 - o)) v A) as (r & Hv & Hr'); [|lia|lia|].
      { replace (buf + (4 - o)) with (buf - o + 4) by lia. by rewrite Z.even_add, He. }
      exists r. replace (buf - o + 4) with (buf + (4 - o)) by lia. split; [done|]. by replace len with (4 - o + (len - (4 - o))) by lia.
Qed.

(** * Chains *)

(** The bytes of a chain. *)
Definition cdata (m : list (Z * Z)) : list Z := concat ((fun x => data (fst x) (snd x)) <$> m).

Definition chain_ok (m : list (Z * Z)) : Prop := Forall (fun x => 0 <= snd x) m.

Lemma cdata_ok m : bytes_ok (cdata m).
Proof. induction m as [|x m IH]; [constructor|]. apply Forall_app. split; [apply data_ok|done]. Qed.

(** The state of the walk after the bytes [done]. *)
Record walked (bs : list Z) (st : Z * Z * Z) : Prop := {
  w_bytes : bytes_ok bs;
  w_clen : snd (fst st) = Z.of_nat (length bs);
  w_len : 0 <= fst (fst st) /\ snd (fst st) + fst (fst st) < 2147483648;
  w_sum : 0 <= snd st <= 67107840 * snd (fst st);
  w_canon : canon (snd st) = canon (psum false bs)
}.

Lemma canon_mul c x : 0 <= c -> 0 <= x -> canon (c * x) = canon (c * canon x).
Proof.
  intros Hc Hx. unfold canon at 3. destruct (Z.eqb_spec x 0) as [->|]; [done|].
  pose proof (Z.div_mod (x - 1) 65535 ltac:(lia)). pose proof (Z.mod_pos_bound (x - 1) 65535 ltac:(lia)).
  assert (0 <= (x - 1) / 65535) by (apply Z.div_pos; lia). set (q := (x - 1) / 65535) in *. set (r := (x - 1) mod 65535) in *.
  apply (canon_mod _ _ (c * q)); [|nia|nia|nia]. replace x with (65535 * q + (r + 1)) by lia. lia.
Qed.

Lemma parity_flag a b : flag (Z.lxor a b) 1 = xorb (Z.odd a) (Z.odd b).
Proof. change 1 with (Z.shiftl 1 0). rewrite flag_bit, Z.lxor_spec, !Z.bit0_odd by lia. done. Qed.

Lemma cksum_part_spec bs len clen sum addr mlen :
  walked bs (len, clen, sum) -> 0 <= mlen ->
  exists st, cksum_part mem addr mlen (len, clen, sum) = Done st /\
    fst (fst st) = len - Z.min len mlen /\ walked (bs ++ data addr (Z.min len mlen)) st.
Proof.
  intros [H1 H2 H3 H4 H5] Hm. cbn in *. unfold cksum_part.
  replace (if len <? mlen then len else mlen) with (Z.min len mlen) by (destruct (Z.ltb_spec len mlen); lia).
  set (k := Z.min len mlen). assert (Hk : 0 <= k <= len) by lia.
  destruct (in_cksumdata_spec addr k) as (d & -> & Hd & Ec); [lia|]. cbn [mbind outcome_bind].
  assert (Hd0 : k = 0 -> d = 0).
  { intros ->. change (asum addr 0) with 0 in Ec. unfold canon in Ec. destruct (Z.eqb_spec d 0); [done|]. cbn in Ec. Z.to_euclidean_division_equations; lia. }
  set (e := if flag (Z.lxor clen addr) 1 then 256 * d else d).
  assert (He : 0 <= e <= 67107840 * k) by (subst e; destruct (flag _ _), (Z.eq_dec k 0) as [E|]; try rewrite (Hd0 E); lia).
  replace (if flag (Z.lxor clen addr) 1 then u64 (sum + u64 (Z.shiftl d 8)) else u64 (sum + d)) with (sum + e).
  2: { subst e. rewrite (Z.shiftl_mul_pow2 d 8), (Z.mul_comm d) by lia. change (2 ^ 8) with 256.
       assert (Hw : forall x, 0 <= x <= 67107840 * (clen + k) -> u64 x = x) by (intros x Hx; apply wrapu_small; change (2 ^ 64) with 18446744073709551616; lia).
       destruct (flag _ _); rewrite ?(Hw (256 * d)), Hw by lia; done. }
  eexists. split; [done|]. split; [done|]. constructor; cbn.
  - apply Forall_app. split; [done|apply data_ok].
  - rewrite length_app, cks_data_length. lia.
  - lia.
  - lia.
  - rewrite psum_app, <- H2. apply canon_cong; [lia|lia|by apply psum_nonneg|apply psum_nonneg, data_ok|done|]. cbn [xorb].
    subst e. rewrite parity_flag. pose proof (asum_nonneg addr k). unfold asum in *.
    destruct (Z.odd clen), (Z.odd addr); cbn [xorb]; try done; rewrite canon_mul, Ec, <- canon_mul by lia.
    all: [> exact (psum_swap false _ (data_ok _ _))|exact (psum_swap true _ (data_ok _ _))].
Qed.

Lemma cksum_loop_spec m bs st : chain_ok m -> walked bs st ->
  exists st', cksum_loop mem m st = Done st' /\ walked (bs ++ take (Z.to_nat (fst (fst st))) (cdata m)) st'.
Proof.
  intros Hm; revert bs st; induction Hm as [|[addr n] m Hn Hm IH]; intros bs [[len clen] sum] Hw; cbn [cksum_loop fst snd].
  - exists (len, clen, sum). split; [done|]. cbn. by rewrite take_nil, app_nil_r.
  - cbn in Hn. destruct (Z.eqb_spec len 0) as [->|Hl].
    { eexists. split; [done|]. by rewrite app_nil_r. }
    change (cdata ((addr, n) :: m)) with (data addr n ++ cdata m).
    destruct (Z.eqb_spec n 0) as [->|Hn0]; [exact (IH _ _ Hw)|].
    destruct (cksum_part_spec _ _ _ _ addr n Hw Hn) as (st1 & -> & El & Hw1). cbn [mbind outcome_bind].
    destruct (IH _ _ Hw1) as (st' & -> & Hw'). exists st'. split; [done|]. rewrite El, <- app_assoc in Hw'.
    pose proof (w_len _ _ Hw) as [H0 _]. cbn in H0.
    by rewrite take_data.
Qed.

Lemma skip_loop_spec m skip : chain_ok m -> 0 <= skip ->
  chain_ok (fst (skip_loop m skip)) /\
  match snd (skip_loop m skip) with
  | Some (a, n) => 0 < n /\ drop (Z.to_nat skip) (cdata m) = data a n ++ cdata (fst (skip_loop m skip))
  | None => drop (Z.to_nat skip) (cdata m) = cdata (fst (skip_loop m skip))
  end.
Proof.
  intros Hm; revert skip; induction Hm as [|[a n] m Hn Hm IH]; intros skip Hs; cbn [skip_loop]; [split; [constructor|]; cbn; by rewrite drop_nil|]. cbn in Hn.
  destruct (Z.eqb_spec skip 0) as [->|Hs0]; [split; [by constructor|done]|].
  change (cdata ((a, n) :: m)) with (data a n ++ cdata m).
  destruct (Z.gtb_spec n skip).
  - cbn [fst snd]. split; [done|]. split; [lia|]. rewrite drop_app_le by (rewrite cks_data_length; lia). f_equal.
    replace n with (skip + (n - skip)) at 1 by lia. by rewrite cks_data_app, drop_app_length' by (rewrite ?cks_data_length; lia).
  - rewrite drop_app_ge by (rewrite cks_data_length; lia). rewrite cks_data_length.
    replace (Z.to_nat skip - Z.to_nat n)%nat with (Z.to_nat (skip - n)) by lia. apply IH. lia.
Qed.

Lemma walked_result bs st : walked bs st -> Z.land (Z.lnot (REDUCE16 (snd st))) 65535 = 65535 - rfc1071 bs.
Proof.
  intros [H1 H2 [H3 H3'] H4 H5]. rewrite REDUCE16_spec by (change (2 ^ 64) with 18446744073709551616; lia).
  rewrite lnot16 by (apply canon_range; lia). by rewrite rfc1071_canon, H5.
Qed.

(** The bytes of the chain that in_cksum_skip sums. *)
Definition summed (m : list (Z * Z)) (len skip : Z) : list Z := take (Z.to_nat (len - skip)) (drop (Z.to_nat skip) (cdata m)).

Lemma in_cksum_skip_spec m len skip :
  chain_ok m -> 0 <= skip <= len -> len < 2147483648 -> in_cksum_skip mem m len skip = Done (65535 - rfc1071 (summed m len skip)).
Proof.
  intros Hm Hs Hl. unfold in_cksum_skip, summed. destruct (skip_loop_spec m skip Hm ltac:(lia)) as [Hr Hst].
  assert (Hw : walked [] (len - skip, 0, 0)) by (constructor; cbn; try done; [constructor|lia]).
  destruct (skip_loop m skip) as [rest [[a n]|]]; cbn [fst snd] in *.
  - destruct Hst as [Hn ->]. destruct (cksum_part_spec _ _ _ _ a n Hw ltac:(lia)) as (st1 & E1 & El & Hw1).
    rewrite E1. cbn [mbind outcome_bind]. destruct (cksum_loop_spec rest _ st1 Hr Hw1) as (st2 & -> & Hw2). cbn [mbind outcome_bind].
    rewrite (walked_result _ _ Hw2), El. do 3 f_equal. cbn [app].
    symmetry. apply take_data; lia.
  - rewrite Hst. cbn [mbind outcome_bind]. destruct (cksum_loop_spec rest [] _ Hr Hw) as (st2 & -> & Hw2). cbn [mbind outcome_bind].
    by rewrite (walked_result _ _ Hw2).
Qed.

Lemma in_cksum_hdr_spec ip : Z.even ip = true -> in_cksum_hdr mem ip = Done (65535 - rfc1071 (data ip 20)).
Proof.
  intros He. unfold in_cksum_hdr. destruct (in_cksumdata_spec ip 20) as (v & -> & Hr & E); [lia|]. cbn [mbind outcome_bind].
  rewrite REDUCE16_spec by (change (2 ^ 64) with 18446744073709551616; lia). rewrite lnot16 by (apply canon_range; lia).
  rewrite rfc1071_canon, E by apply data_ok. unfold asum. by rewrite <- Z.negb_even, He.
Qed.
End words.

(** * Theorems *)

(** The one's complement sum of the halves of a 32-bit word. *)
Definition osum32 (x : Z) : Z := oadd (x mod 65536) (x / 65536).

Lemma osum32_canon x : 0 <= x < 2 ^ 32 -> osum32 x = canon x.
Proof. change (2 ^ 32) with 4294967296. intros. unfold osum32, oadd, canon. repeat case_match; Z.to_euclidean_division_equations; lia. Qed.

(** C16. The checksum code computes the one's complement sums of RFC 1071: in_cksum_skip
    over any chain of mbufs, whatever their addresses and (also odd) lengths, is the
    complement of the sum of the bytes from [skip] to [len]; in_cksum_hdr is that of
    the 20 bytes of a header at an even address; in_addword and in_pseudo add
    words.  No mask is read outside of its table, no sum overflows. *)
Theorem in_cksum_rfc1071 mem :
  (forall a, 0 <= mem a < 256) ->
  (forall m len skip, chain_ok m -> 0 <= skip <= len -> len < 2147483648 ->
     in_cksum_skip mem m len skip = Done (65535 - rfc1071 (summed mem m len skip))) /\
  (forall ip, Z.even ip = true -> in_cksum_hdr mem ip = Done (65535 - rfc1071 (data mem ip 20))) /\
  (forall a b, 0 <= a <= 65535 -> 0 <= b <= 65535 -> in_addword a b = oadd a b) /\
  (forall a b c, 0 <= a < 2 ^ 32 -> 0 <= b < 2 ^ 32 -> 0 <= c < 2 ^ 32 ->
     in_pseudo a b c = oadd (oadd (osum32 a) (osum32 b)) (osum32 c)).
Proof.
  intros Hm. split_and!.
  - intros. by apply in_cksum_skip_spec.
  - intros. by apply in_cksum_hdr_spec.
  - intros a b Ha Hb. unfold in_addword, ADDCARRY, oadd.
    destruct (Z.gtb_spec (a + b) 65535); rewrite ?(wrapu_small 64) by (change (2 ^ 64) with 18446744073709551616; lia);
      apply wrapu_small; change (2 ^ 16) with 65536; lia.
  - intros a b c Ha Hb Hc. rewrite !osum32_canon by done. unfold in_pseudo. change (2 ^ 32) with 4294967296 in *.
    rewrite (wrapu_small 64), REDUCE16_spec by (change (2 ^ 64) with 18446744073709551616; lia).
    pose proof (canon_range (a + b + c) ltac:(lia)). rewrite wrapu_small by (change (2 ^ 16) with 65536; lia).
    rewrite <- canon_add by lia. by rewrite <- canon_add by lia.
Qed.

(** A packet that carries its checksum verifies: when in_cksum_skip has computed
    [c] with the 16-bit field, at an even offset, zero, and [c] was stored there in
    memory order, in_cksum_skip over the packet is 0 - also when it has been
    split into other mbufs. *)
Theorem in_cksum_verifies mem mem' m m' len skip a b c :
  (forall x, 0 <= mem x < 256) -> (forall x, 0 <= mem' x < 256) -> chain_ok m -> chain_ok m' ->
  0 <= skip <= len -> len < 2147483648 ->
  in_cksum_skip mem m len skip = Done c ->
  summed mem m len skip = a ++ 0 :: 0 :: b -> Z.even (Z.of_nat (length a)) = true ->
  summed mem' m' len skip = a ++ c mod 256 :: c / 256 :: b ->
  in_cksum_skip mem' m' len skip = Done 0.
Proof.
  intros Hm Hm' Hc Hc' Hs Hl E D0 Hev D1. rewrite in_cksum_skip_spec in E |- * by done. injection E as <-. rewrite D0 in *. rewrite D1. clear D1.
  assert (Hb : bytes_ok (a ++ 0 :: 0 :: b)) by (rewrite <- D0; apply Forall_take, Forall_drop, cdata_ok, Hm).
  rewrite (rfc1071_canon (a ++ 0 :: 0 :: b)) by done. pose proof (psum_nonneg false _ Hb) as H0. pose proof (canon_range _ H0) as Hr.
  set (c := 65535 - canon (psum false (a ++ 0 :: 0 :: b))) in *.
  assert (Hb' : bytes_ok (a ++ c mod 256 :: c / 256 :: b)).
  { apply Forall_app in Hb as [Ha [_ [_ Hb]%Forall_cons]%Forall_cons]. apply Forall_app. split; [done|].
    apply Forall_cons. split; [Z.to_euclidean_division_equations; lia|]. apply Forall_cons. split; [Z.to_euclidean_division_equations; lia|done]. }
  rewrite rfc1071_canon by done.
  assert (Ep : psum false (a ++ c mod 256 :: c / 256 :: b) = psum false (a ++ 0 :: 0 :: b) + c).
  { rewrite !psum_app, <- Z.negb_even, Hev. cbn [negb xorb psum]. pose proof (Z.div_mod c 256 ltac:(lia)). lia. }
  rewrite Ep, canon_add by lia. rewrite (canon_small c) by lia. unfold oadd. destruct (Z.gtb_spec (canon (psum false (a ++ 0 :: 0 :: b)) + c) 65535); [lia|].
  f_equal. lia.
Qed.

(** ** A run *)

(** A packet of eight bytes in three mbufs, one of them empty and one at an odd
    address; its checksum is stored at offset 4. *)
Definition ex_mem (x : Z) : Z := if (x =? 2000) || (x =? 2001) then 0 else x mod 256.
Definition ex_chain : list (Z * Z) := [(1001, 4); (1500, 0); (2000, 4)].
Definition ex_mem' (x : Z) : Z := if x =? 2000 then 87 else if x =? 2001 then 84 else x mod 256.

Lemma ex_mem_ok x : 0 <= ex_mem x < 256.
Proof. unfold ex_mem. case_match; [lia|]. apply Z.mod_pos_bound. lia. Qed.

Lemma ex_mem'_ok x : 0 <= ex_mem' x < 256.
Proof. unfold ex_mem'. repeat case_match; try lia. apply Z.mod_pos_bound. lia. Qed.

Lemma ex_chain_ok : chain_ok ex_chain.
Proof. repeat constructor; cbn; lia. Qed.

Lemma in_cksum_verifies_witness : in_cksum_skip ex_mem' [(1001, 3); (1004, 1); (2000, 4)] 8 0 = Done 0.
Proof.
  apply (in_cksum_verifies ex_mem ex_mem' ex_chain [(1001, 3); (1004, 1); (2000, 4)] 8 0 [233; 234; 235; 236] [210; 211] 21591).
  - exact ex_mem_ok.
  - exact ex_mem'_ok.
  - exact ex_chain_ok.
  - repeat constructor; cbn; lia.
  - lia.
  - lia.
  - vm_compute. reflexivity.
  - vm_compute. reflexivity.
  - reflexivity.
  - vm_compute. reflexivity.
Defined.

Lemma in_cksum_rfc1071_witness :
  in_cksum_skip ex_mem ex_chain 7 1 = Done (65535 - rfc1071 [234; 235; 236; 0; 0; 210]) /\ in_cksum_skip ex_mem ex_chain 7 1 = Done 16680.
Proof.
  destruct (in_cksum_rfc1071 ex_mem ex_mem_ok) as (H & _).
  split; [apply (H ex_chain 7 1 ex_chain_ok); lia|vm_compute; reflexivity].
Defined.
