(* ===== verification/Startup.v ===== *)
(** Start-up of the kernel (src/lib/ff_init_main.c): sysinit_add and mi_startup, which
    sorts the table of initialisation functions and runs them, with functions that
    add to the table.  The abstract machine runs a smallest pending function until
    none is left. *)
From stdpp Require Import base list gmap relations.
From Stdlib Require Import ZArith Lia Sorting.
From S2P Require Import Prelude.

Local Open Scope Z_scope.

Definition SI_SUB_DUMMY : Z := 0.
Definition SI_SUB_DONE : Z := 1.

(** struct sysinit, without the function: a function is named by the address of its
    entry. *)
Record sysinit := Si { subsystem : Z; order : Z }.

(** The entries in memory, the tables of pointers, the allocations, and the entries
    whose function was called. *)
Record boot := Boot {
  heap : Z -> sysinit;
  table : option (list Z);
  newsysinit : option (list Z);
  allocs : nat;
  log : list Z
}.

Section startup.
(** The answers of malloc, and the sets that a function, called after the functions
    of the log, gives to sysinit_add. *)
Context (malloc_ok : nat -> bool) (adds : list Z -> Z -> list (list Z)).

(** * Operations *)

(** The panic is a [Fault]. *)
Definition sysinit_add (set : list Z) (b : boot) : outcome boot :=
  let old := match newsysinit b with Some l => l | None => default [] (table b) end in
  if malloc_ok (allocs b) then Done (Boot (heap b) (table b) (Some (old ++ set)) (S (allocs b)) (log b)) else Fault.

(** The condition to leave the entries as they are. *)
Definition kle (h : Z -> sysinit) (s x : Z) : bool :=
  (subsystem (h s) <? subsystem (h x)) || ((subsystem (h s) =? subsystem (h x)) && (order (h s) <=? order (h x))).

(** The inner loop: *sipp and the entries behind it. *)
Fixpoint bubble (h : Z -> sysinit) (s : Z) (l : list Z) : Z * list Z :=
  match l with
  | [] => (s, [])
  | x :: r => if kle h s x then let '(s', r') := bubble h s r in (s', x :: r') else let '(s', r') := bubble h x r in (s', s :: r')
  end.

(** The outer loop, from the [n]-th entry from the end. *)
Fixpoint sort_from (h : Z -> sysinit) (n : nat) (l : list Z) : list Z :=
  match n, l with
  | S n, s :: r => let '(s', r') := bubble h s r in s' :: sort_from h n r'
  | _, _ => l
  end.

Definition sort (h : Z -> sysinit) (l : list Z) : list Z := sort_from h (length l) l.

Fixpoint add_all (sets : list (list Z)) (b : boot) : outcome boot :=
  match sets with [] => Done b | s :: r => b ← sysinit_add s b; add_all r b end.

(** The call of a function. *)
Definition call_init (i : Z) (b : boot) : outcome boot :=
  add_all (adds (log b) i) (Boot (heap b) (table b) (newsysinit b) (allocs b) (log b ++ [i])).

Definition check_off (i : Z) (b : boot) : boot :=
  Boot (fun j => if j =? i then Si SI_SUB_DONE (order (heap b i)) else heap b j) (table b) (newsysinit b) (allocs b) (log b).

(** The traversal: [true] for the jump to restart. *)
Fixpoint traverse (l : list Z) (b : boot) : outcome (boot * bool) :=
  match l with
  | [] => Done (b, false)
  | i :: r =>
      if subsystem (heap b i) =? SI_SUB_DUMMY then traverse r b
      else if subsystem (heap b i) =? SI_SUB_DONE then traverse r b
      else
        b ← call_init i b;
        let b := check_off i b in
        match newsysinit b with
        | Some l => Done (Boot (heap b) (Some l) None (allocs b) (log b), true)
        | None => traverse r b
        end
  end.

Fixpoint startup_loop (fuel : nat) (b : boot) : outcome boot :=
  match fuel with
  | O => Loop
  | S n =>
      let l := sort (heap b) (default [] (table b)) in
      x ← traverse l (Boot (heap b) (Some l) (newsysinit b) (allocs b) (log b));
      if (x.2 : bool) then startup_loop n x.1 else Done x.1
  end.

(** [sysinit_set]: the linker set. *)
Definition mi_startup (sysinit_set : list Z) (fuel : nat) (b : boot) : outcome boot :=
  startup_loop fuel (match table b with
                     | None => Boot (heap b) (Some sysinit_set) (newsysinit b) (allocs b) (log b)
                     | Some _ => b
                     end).

(** * The sort *)

Lemma kle_total h a b : kle h a b = false -> kle h b a = true.
Proof. unfold kle. rewrite orb_false_iff, andb_false_iff, orb_true_iff, andb_true_iff. lia. Qed.

Lemma kle_trans h a b c : kle h a b = true -> kle h b c = true -> kle h a c = true.
Proof. unfold kle. rewrite !orb_true_iff, !andb_true_iff. lia. Qed.

Lemma bubble_spec h l s : let '(s', l') := bubble h s l in
  s' :: l' ≡ₚ s :: l /\ Forall (fun x => kle h s' x = true) l' /\ kle h s' s = true.
Proof.
  assert (Hr : forall x, kle h x x = true) by (intros x; unfold kle; rewrite orb_true_iff, andb_true_iff; lia).
  revert s; induction l as [|x l IH]; intros s; cbn [bubble]; [by split_and!|].
  destruct (kle h s x) eqn:E.
  - specialize (IH s). destruct (bubble h s l) as [s' l']. destruct IH as (P & F & K). split_and!; [|constructor; [by eapply kle_trans|done]|done].
    rewrite Permutation_swap, P. apply Permutation_swap.
  - specialize (IH x). destruct (bubble h x l) as [s' l']. destruct IH as (P & F & K). apply kle_total in E.
    assert (kle h s' s = true) by by eapply kle_trans. split_and!; [|by constructor|done]. rewrite Permutation_swap, P. done.
Qed.

Definition sorted (h : Z -> sysinit) (l : list Z) : Prop := StronglySorted (fun a b => kle h a b = true) l.

Lemma sort_from_spec h n l : length l = n -> sort_from h n l ≡ₚ l /\ sorted h (sort_from h n l).
Proof.
  revert l; induction n as [|n IH]; intros [|s l] Hl; try done; [split; [done|constructor]|]. cbn [sort_from].
  pose proof (bubble_spec h l s) as Hb. destruct (bubble h s l) as [s' l']. destruct Hb as (P & F & _).
  assert (Hl' : length l' = n) by (apply Permutation_length in P; cbn in *; lia).
  destruct (IH l' Hl') as [P' S']. split; [by rewrite P'|]. constructor; [done|]. by rewrite P'.
Qed.

Lemma sort_spec h l : sort h l ≡ₚ l /\ sorted h (sort h l).
Proof. by apply sort_from_spec. Qed.

(** * The abstract machine *)

Definition live (h : Z -> sysinit) (i : Z) : Prop := subsystem (h i) <> SI_SUB_DUMMY /\ subsystem (h i) <> SI_SUB_DONE.

#[local] Instance live_dec h i : Decision (live h i).
Proof. unfold live. apply _. Defined.

(** The entries of a table that are to be run. *)
Definition pending (h : Z -> sysinit) (l : list Z) : gset Z := list_to_set (filter (live h) l).

Lemma elem_of_pending h l i : i ∈ pending h l <-> i ∈ l /\ live h i.
Proof. unfold pending. rewrite elem_of_list_to_set, list_elem_of_filter. tauto. Qed.

(** The order of the entries: subsystem, then order. *)
Definition before (h : Z -> sysinit) (i j : Z) : Prop :=
  subsystem (h i) < subsystem (h j) \/ (subsystem (h i) = subsystem (h j) /\ order (h i) <= order (h j)).

Lemma kle_before h i j : kle h i j = true <-> before h i j.
Proof. unfold kle, before. rewrite orb_true_iff, andb_true_iff. lia. Qed.

(** The state is the pending entries and the log.  A step runs an entry that no
    pending one is in front of; the entries that it adds become pending. *)
Inductive astep (h : Z -> sysinit) : gset Z * list Z -> gset Z * list Z -> Prop :=
| a_run P lg i :
    i ∈ P -> (forall j, j ∈ P -> before h i j) ->
    astep h (P, lg) ((P ∪ pending h (concat (adds lg i))) ∖ list_to_set (lg ++ [i]), lg ++ [i]).

(** * The refinement *)

(** The heap of [b] is [h] with the entries of the log checked off; everything is in
    [U]. *)
Record boot_ok (h : Z -> sysinit) (U : list Z) (b : boot) (l : list Z) : Prop := {
  bo_heap i : heap b i = if decide (i ∈ log b) then Si SI_SUB_DONE (order (h i)) else h i;
  bo_table : table b = Some l;
  bo_new : newsysinit b = None;
  bo_nodup : NoDup (log b);
  bo_log i : i ∈ log b -> i ∈ U /\ live h i;
  bo_in i : i ∈ l -> i ∈ U
}.

Definition abs (b : boot) : gset Z * list Z := (pending (heap b) (default [] (table b)), log b).

Lemma live_heap h U b l i : boot_ok h U b l -> live (heap b) i <-> live h i /\ i ∉ log b.
Proof.
  intros H. unfold live. rewrite (bo_heap _ _ _ _ H). destruct (decide (i ∈ log b)); simpl; [|tauto]. unfold SI_SUB_DONE. split; [lia|tauto].
Qed.

Lemma kle_heap h U b l i j : boot_ok h U b l -> i ∉ log b -> j ∉ log b -> kle (heap b) i j = kle h i j.
Proof. intros H Hi Hj. unfold kle. rewrite !(bo_heap _ _ _ _ H), !decide_False by done. done. Qed.

Hypothesis Hmalloc : forall n, malloc_ok n = true.

Lemma add_all_spec sets b :
  exists b', add_all sets b = Done b' /\ heap b' = heap b /\ table b' = table b /\ log b' = log b /\
    newsysinit b' = match sets with
                    | [] => newsysinit b
                    | _ => Some (match newsysinit b with Some l => l | None => default [] (table b) end ++ concat sets)
                    end.
Proof.
  revert b; induction sets as [|s sets IH]; intros b; cbn [add_all]; [by exists b|].
  unfold sysinit_add. rewrite Hmalloc. cbn [mbind outcome_bind].
  destruct (IH (Boot (heap b) (table b) (Some (match newsysinit b with Some l => l | None => default [] (table b) end ++ s)) (S (allocs b)) (log b)))
    as (b' & E & E1 & E2 & E3 & E4). exists b'. rewrite E4. split_and!; try done. destruct sets; cbn; by rewrite ?app_nil_r, <- ?app_assoc.
Qed.

(** One entry is run. *)
Lemma run_spec h U b l i : boot_ok h U b l -> i ∈ l -> live (heap b) i ->
  (forall lg j, j ∈ concat (adds lg i) -> j ∈ U) ->
  exists b1, call_init i b = Done b1 /\
    match newsysinit (check_off i b1) with
    | Some l' => l' = l ++ concat (adds (log b) i)
    | None => concat (adds (log b) i) = []
    end /\ log (check_off i b1) = log b ++ [i] /\ table (check_off i b1) = table b /\
    forall l', (forall j, j ∈ l' -> j ∈ U) -> boot_ok h U (Boot (heap (check_off i b1)) (Some l') None (allocs (check_off i b1)) (log (check_off i b1))) l'.
Proof.
  intros H Hi Hlive Hadd. destruct (add_all_spec (adds (log b) i) (Boot (heap b) (table b) (newsysinit b) (allocs b) (log b ++ [i])))
    as (b1 & E & E1 & E2 & E3 & E4). cbn in *. exists b1. split; [exact E|]. rewrite (bo_new _ _ _ _ H), (bo_table _ _ _ _ H) in E4. cbn in *.
  apply (live_heap _ _ _ _ _ H) in Hlive as [Hl Hn]. rewrite E3, E4. split; [by destruct (adds (log b) i)|]. split; [done|]. split; [done|].
  intros l' Hl'. constructor; cbn; rewrite ?E1, ?E3; try done.
  - intros j. rewrite !(bo_heap _ _ _ _ H). destruct (Z.eqb_spec j i) as [->|Hj].
    + rewrite (decide_False _ _ Hn), decide_True; [done|]. rewrite elem_of_app, list_elem_of_singleton. by right.
    + apply decide_ext. rewrite elem_of_app, list_elem_of_singleton. tauto.
  - apply NoDup_app. split; [apply H|]. split; [|apply NoDup_singleton]. intros x Hx ->%list_elem_of_singleton. done.
  - intros j [Hj| ->%list_elem_of_singleton]%elem_of_app; [by apply H|]. split; [by eapply bo_in|done].
Qed.

(** And it is a step of the abstract machine. *)
Lemma run_astep h U b l i b' l' : boot_ok h U b l -> boot_ok h U b' l' -> i ∈ l -> live (heap b) i ->
  (forall j, j ∈ l -> live (heap b) j -> kle (heap b) i j = true) ->
  log b' = log b ++ [i] -> (forall j, j ∈ l' <-> j ∈ l \/ j ∈ concat (adds (log b) i)) -> astep h (abs b) (abs b').
Proof.
  intros H H' Hi Hlive Hmin El Hl'. unfold abs. rewrite El, (bo_table _ _ _ _ H), (bo_table _ _ _ _ H'). change (default [] (Some l)) with l. change (default [] (Some l')) with l'.
  replace (pending (heap b') l') with ((pending (heap b) l ∪ pending h (concat (adds (log b) i))) ∖ list_to_set (log b ++ [i])).
  - constructor; [by apply elem_of_pending|]. intros j [Hj Hlj]%elem_of_pending. pose proof (Hmin j Hj Hlj) as Hk.
    apply (live_heap _ _ _ _ _ H) in Hlj as [_ Hlj]. apply (live_heap _ _ _ _ _ H) in Hlive as [_ Hlive]. apply kle_before. by rewrite <- (kle_heap _ _ _ _ i j H).
  - apply set_eq. intros j. rewrite elem_of_difference, elem_of_union, !elem_of_pending, elem_of_list_to_set.
    rewrite (live_heap _ _ _ _ j H), (live_heap _ _ _ _ j H'), El, Hl', elem_of_app. tauto.
Qed.

(** The rest of the table is in order, as far as it has not been run. *)
Definition ordered (h : Z -> sysinit) (lg l : list Z) : Prop :=
  StronglySorted (fun x y => x ∉ lg -> y ∉ lg -> kle h x y = true) l.

Lemma ordered_impl h lg lg' l : (forall x, x ∈ lg -> x ∈ lg') -> ordered h lg l -> ordered h lg' l.
Proof.
  intros Hs. induction 1 as [|x l Hl IH Hx]; constructor; [done|]. eapply Forall_impl; [exact Hx|]. intros y Hy H1 H2. apply Hy; auto.
Qed.

Context (h : Z -> sysinit) (U : list Z).
Hypothesis HU : forall lg i j, i ∈ U -> j ∈ concat (adds lg i) -> j ∈ U.

(** The step of the traversal. *)
Lemma traverse_spec l pre b :
  boot_ok h U b (pre ++ l) -> ordered h (log b) l -> (forall j, j ∈ pre -> ~ live (heap b) j) ->
  exists b' fl l', traverse l b = Done (b', fl) /\ boot_ok h U b' l' /\ rtc (astep h) (abs b) (abs b') /\
    if (fl : bool) then (length (log b) < length (log b'))%nat else pending (heap b') l' = ∅.
Proof.
  revert pre b; induction l as [|i l IH]; intros pre b H Ho Hpre; cbn [traverse].
  { exists b, false, pre. rewrite app_nil_r in H. split_and!; try done. apply elem_of_equiv_empty_L. intros j [Hj Hl]%elem_of_pending. by apply (Hpre j). }
  apply StronglySorted_inv in Ho as [Ho Hmin].
  assert (Hskip : ~ live (heap b) i -> exists b' fl l', traverse l b = Done (b', fl) /\ boot_ok h U b' l' /\
    rtc (astep h) (abs b) (abs b') /\ if (fl : bool) then (length (log b) < length (log b'))%nat else pending (heap b') l' = ∅).
  { intros Hn. apply (IH (pre ++ [i])); [by rewrite <- app_assoc|done|]. intros j [Hj| ->%list_elem_of_singleton]%elem_of_app; auto. }
  destruct (Z.eqb_spec (subsystem (heap b i)) SI_SUB_DUMMY) as [E1|E1]; [apply Hskip; by intros [? _]|].
  destruct (Z.eqb_spec (subsystem (heap b i)) SI_SUB_DONE) as [E2|E2]; [apply Hskip; by intros [_ ?]|]. clear Hskip.
  assert (Hlive : live (heap b) i) by done.
  assert (Hi : i ∈ pre ++ i :: l) by (rewrite elem_of_app, elem_of_cons; tauto).
  destruct (run_spec h U b _ i H Hi Hlive) as (b1 & -> & Hnew & El & Et & Hok); [intros lg j; apply HU; by eapply bo_in|]. cbn [mbind outcome_bind].
  assert (Hkle : forall j, j ∈ pre ++ i :: l -> live (heap b) j -> kle (heap b) i j = true).
  { intros j [Hj|[->|Hj]%elem_of_cons]%elem_of_app Hlj; [by destruct (Hpre j)|unfold kle; lia|].
    rewrite (live_heap _ _ _ _ _ H) in Hlj. rewrite (live_heap _ _ _ _ _ H) in Hlive. rewrite (kle_heap _ _ _ _ _ _ H) by tauto.
    rewrite Forall_forall in Hmin. apply Hmin; tauto. }
  set (b2 := check_off i b1) in *. destruct (newsysinit b2) as [l'|] eqn:En.
  - subst l'. eexists _, true, _. split; [done|]. assert (Hok' := Hok ((pre ++ i :: l) ++ concat (adds (log b) i))).
    split; [apply Hok'|split].
    + intros j [Hj|Hj]%elem_of_app; [by eapply bo_in|]. apply (HU (log b) i); [by eapply bo_in|done].
    + apply rtc_once. eapply run_astep; [exact H|apply Hok'|done|done|done|done|].
      * intros j [Hj|Hj]%elem_of_app; [by eapply bo_in|]. apply (HU (log b) i); [by eapply bo_in|done].
      * intros j. apply elem_of_app.
    + cbn [log]. rewrite El, length_app. cbn. lia.
  - assert (Hb2 : boot_ok h U b2 (pre ++ i :: l)).
    { destruct (Hok (pre ++ i :: l)) as [G1 G2 G3 G4 G5 G6]; [intros j; by eapply bo_in|]. constructor; try done. rewrite Et. apply H. }
    destruct (IH (pre ++ [i]) b2) as (b' & fl & l' & E & Hb' & Hr & Hend).
    + by rewrite <- app_assoc.
    + eapply ordered_impl; [|exact Ho]. intros x Hx. rewrite El, elem_of_app. by left.
    + intros j Hj [Hlj Hnj]%(live_heap _ _ _ _ _ Hb2). rewrite El, elem_of_app, list_elem_of_singleton in Hnj.
      apply elem_of_app in Hj as [Hj| ->%list_elem_of_singleton]; [|tauto]. apply (Hpre j Hj), (live_heap _ _ _ _ _ H). tauto.
    + exists b', fl, l'. split; [done|]. split; [done|]. split.
      * eapply rtc_l; [|exact Hr]. eapply run_astep; [exact H|exact Hb2|done|done|done|done|]. intros j. rewrite Hnew.
        split; [by left|]. intros [?|Hj]; [done|by apply not_elem_of_nil in Hj].
      * destruct fl; [|done]. rewrite El, length_app in Hend. lia.
Qed.

Lemma sort_ordered b l : boot_ok h U b l -> ordered h (log b) (sort (heap b) l).
Proof.
  intros H. destruct (sort_spec (heap b) l) as [_ Hs]. induction Hs as [|x r Hr IH Hx]; constructor; [done|].
  eapply Forall_impl; [exact Hx|]. cbn. intros y Hy H1 H2. by rewrite <- (kle_heap _ _ _ _ _ _ H).
Qed.

(** The loop ends when the fuel is larger than the number of entries left. *)
Lemma startup_loop_spec fuel b l :
  boot_ok h U b l -> (length U < fuel + length (log b))%nat ->
  exists b' l', startup_loop fuel b = Done b' /\ boot_ok h U b' l' /\ rtc (astep h) (abs b) (abs b') /\ pending (heap b') l' = ∅.
Proof.
  revert b l; induction fuel as [|n IH]; intros b l H Hf.
  all: assert (Hle : (length (log b) <= length U)%nat) by (apply submseteq_length, NoDup_submseteq; [apply H|]; intros j Hj; by apply H).
  { lia. }
  cbn [startup_loop]. rewrite (bo_table _ _ _ _ H). change (default [] (Some l)) with l.
  destruct (sort_spec (heap b) l) as [Hp _]. set (l1 := sort (heap b) l) in *. set (b1 := Boot _ (Some l1) _ _ _).
  assert (H1 : boot_ok h U b1 l1) by (destruct H; constructor; cbn; try done; intros i; rewrite Hp; auto).
  assert (Ea : abs b1 = abs b).
  { unfold abs. cbn [heap table log b1]. rewrite (bo_table _ _ _ _ H). f_equal. apply set_eq. intros j. rewrite !elem_of_pending. cbn. by rewrite Hp. }
  destruct (traverse_spec l1 [] b1 H1) as (b' & fl & l' & -> & Hb' & Hr & Hend); [exact (sort_ordered b l H)|intros j Hj; by apply not_elem_of_nil in Hj|].
  cbn [mbind outcome_bind fst snd]. rewrite Ea in Hr. destruct fl; [|by exists b', l'].
  cbn [log b1] in Hend. destruct (IH b' l' Hb' ltac:(lia)) as (b3 & l3 & E & Hb3 & Hr3 & He). exists b3, l3. split_and!; try done. by etrans.
Qed.

(** * Runs of the abstract machine *)

Lemma arun_spec s s' : rtc (astep h) s s' -> s'.1 = ∅ -> exists tl, s'.2 = s.2 ++ tl /\
  (forall j, j ∈ s.1 -> j ∈ s'.2) /\
  (forall pre i r j, tl = pre ++ i :: r -> j ∈ concat (adds (s.2 ++ pre) i) -> live h j -> j ∈ s'.2) /\
  ((forall lg i, adds lg i = []) -> StronglySorted (before h) tl /\ forall x, x ∈ tl -> x ∈ s.1).
Proof.
  intros Hr He. induction Hr as [[P lg]|s1 s2 s3 Hs Hr IH].
  - cbn in He. subst P. exists []. rewrite app_nil_r. split; [done|]. split; [intros j Hj; cbn in *; by apply elem_of_empty in Hj|]. split; [by intros []|]. intros _. split; [constructor|].
    intros x Hx. by apply not_elem_of_nil in Hx.
  - specialize (IH He). destruct Hs as [P lg i Hi Hmin]. destruct IH as (tl & E & H1 & H2 & H3). cbn [fst snd] in *.
    assert (Hin : forall j, j ∈ P ∪ pending h (concat (adds lg i)) -> j ∈ s3.2).
    { intros j Hj. destruct (decide (j ∈ lg ++ [i])) as [Hd|Hd]; [rewrite E; apply elem_of_app; by left|].
      apply H1. rewrite elem_of_difference, elem_of_list_to_set. done. }
    exists (i :: tl). rewrite <- app_assoc in E. split; [done|]. split; [intros j Hj; apply Hin, elem_of_union; by left|]. split.
    + intros [|x pre] y r j Ep Hj Hl; injection Ep as -> Ep.
      * rewrite app_nil_r in Hj. apply Hin, elem_of_union. right. by apply elem_of_pending.
      * eapply H2; [exact Ep| |done]. by rewrite <- app_assoc.
    + intros Hn. destruct (H3 Hn) as [Hst Hsub]. assert (Hp : forall x, x ∈ tl -> x ∈ P).
      { intros x Hx. apply Hsub in Hx. rewrite Hn in Hx. apply elem_of_difference in Hx as [[Hx|Hx]%elem_of_union _]; [done|].
        apply elem_of_pending in Hx as [Hx _]. by apply not_elem_of_nil in Hx. }
      split; [constructor; [done|]; apply Forall_forall; auto|]. intros x [->|Hx]%elem_of_cons; auto.
Qed.
End startup.

(** C29. mi_startup ends and runs the initialisation functions as a priority queue
    does: at each point the function that runs has the smallest subsystem and
    order of those that are pending, those added by functions included; every
    entry of the linker set and of every added set runs exactly once, dummies
    never; and when nothing is added the functions run in the order of subsystem
    and order.  It ends as soon as the entries are finitely many ([U]). *)
Theorem mi_startup_runs malloc_ok adds sysinit_set h U fuel :
  (forall n, malloc_ok n = true) -> (forall j, j ∈ sysinit_set -> j ∈ U) ->
  (forall lg i j, i ∈ U -> j ∈ concat (adds lg i) -> j ∈ U) -> (length U < fuel)%nat ->
  exists b, mi_startup malloc_ok adds sysinit_set fuel (Boot h None None 0 []) = Done b /\
    rtc (astep adds h) (pending h sysinit_set, []) (∅, log b) /\
    NoDup (log b) /\ (forall j, j ∈ log b -> live h j) /\
    (forall j, j ∈ sysinit_set -> live h j -> j ∈ log b) /\
    (forall lg i r j, log b = lg ++ i :: r -> j ∈ concat (adds lg i) -> live h j -> j ∈ log b) /\
    ((forall lg i, adds lg i = []) -> StronglySorted (before h) (log b)).
Proof.
  intros Hm Hs HU Hf. unfold mi_startup. cbn [table].
  set (b0 := Boot _ (Some sysinit_set) _ _ _).
  assert (H0 : boot_ok h U b0 sysinit_set) 
    by (constructor; cbn; try done; [constructor|intros i Hi; by apply not_elem_of_nil in Hi]).
  destruct (startup_loop_spec malloc_ok adds Hm h U HU fuel b0 sysinit_set H0) as (b & l & E & Hb & Hr & He); [cbn; lia|].
  exists b. split; [exact E|]. unfold abs in Hr. rewrite (bo_table _ _ _ _ Hb) in Hr. change (default [] (Some l)) with l in Hr. rewrite He in Hr.
  destruct (arun_spec adds h _ _ Hr eq_refl) as (tl & Et & H1 & H2 & H3). cbn in Et, H1, H2. subst tl.
  split; [exact Hr|]. split; [apply Hb|]. split; [intros j Hj; by apply Hb|]. split; [intros j Hj Hl; apply H1, elem_of_pending; done|].
  split; [exact H2|]. intros Hn. by apply H3.
Qed.

(** Four entries; the first to run adds a fifth, which runs before the others. *)
Definition ex_heap (i : Z) : sysinit :=
  if i =? 1 then Si 0x2100000 5 else if i =? 2 then Si 0x0800000 0 else if i =? 3 then Si 0 0 else if i =? 4 then Si 0x2100000 1 else Si 0x1000000 7.
Definition ex_adds (lg : list Z) (i : Z) : list (list Z) := if i =? 2 then [[5]] else [].

Lemma mi_startup_runs_witness :
  exists b, mi_startup (fun _ => true) ex_adds [1; 2; 3; 4] 6 (Boot ex_heap None None 0 []) = Done b /\ log b = [2; 5; 4; 1] /\ NoDup (log b).
Proof.
  destruct (mi_startup_runs (fun _ => true) ex_adds [1; 2; 3; 4] ex_heap [1; 2; 3; 4; 5] 6) as (b & E & _ & Hn & _).
  - done.
  - intros j Hj. change [1; 2; 3; 4; 5] with ([1; 2; 3; 4] ++ [5]). apply elem_of_app. by left.
  - intros lg i j Hi Hj. unfold ex_adds in Hj. destruct (i =? 2); [|by apply not_elem_of_nil in Hj]. apply list_elem_of_singleton in Hj as ->.
    apply (bool_decide_unpack _). vm_compute. exact I.
  - cbn. lia.
  - exists b. split; [exact E|]. split; [|exact Hn]. vm_compute in E. injection E as <-. reflexivity.
Defined.
