(* ===== verification/Messages.v ===== *)
(** The messages of the management tools (src/lib/ff_msg.h and handle_msg and its
    handlers in src/lib/ff_dpdk_if.c, src/lib/ff_ngctl.c): a process takes a message
    from its ring 0, calls the stack, and puts it on the ring of its type.  The calls
    of the stack, and the system calls behind ff_ngctl, are an interface with their
    error convention and their effect on the open descriptors as laws. *)
From stdpp Require Import base list gmap.
From Stdlib Require Import ZArith Lia.
From S2P Require Import Prelude AbiTables.

Local Open Scope Z_scope.

(** * Messages *)

Definition FF_UNKNOWN : Z := 0.
Definition FF_SYSCTL : Z := 1.
Definition FF_IOCTL : Z := 2.
Definition FF_IOCTL6 : Z := 3.
Definition FF_ROUTE : Z := 4.
Definition FF_TOP : Z := 5.
Definition FF_NGCTL : Z := 6.
Definition FF_IPFW_CTL : Z := 7.
Definition FF_TRAFFIC : Z := 8.
Definition FF_MSG_NUM : Z := 9.
Definition FF_IPFW_GET : Z := 0.
Definition FF_IPFW_SET : Z := 1.
(** enum FF_NGCTL_CMD *)
Definition NGCTL_SOCKET : Z := 0.
Definition NGCTL_BIND : Z := 1.
Definition NGCTL_CONNECT : Z := 2.
Definition NGCTL_SEND : Z := 3.
Definition NGCTL_RECV : Z := 4.
Definition NGCTL_CLOSE : Z := 5.
Definition ENOTSUP : Z := 95.
Definition AF_INET : Z := 2.
Definition AF_INET6 : Z := 10.
Definition SOCK_DGRAM : Z := 2.
Definition SOCK_RAW : Z := 3.
Definition IPPROTO_RAW : Z := 255.

(** The union of struct ff_msg; pointers are addresses. *)
Inductive args :=
| ASysctl (name namelen old oldlenp new newlen : Z)
| AIoctl (cmd data : Z)
| ARoute (fib len maxlen data : Z)
| ATop (loops idle work sys usr : Z)
| ANgctl (cmd ret data : Z)
| AIpfw (cmd level optname optval optlen : Z)
| ATraffic (rx_packets rx_bytes tx_packets tx_bytes : Z)
| ANone.

(** struct ff_msg, with its address in the pool. *)
Record ff_msg := Msg { msg_addr : Z; msg_type : Z; result : Z; body : args }.

(** * The stack *)

(** The calls that the handlers make: result and new state. *)
Class Stack (W : Type) := {
  ff_sysctl : Z -> Z -> Z -> Z -> Z -> Z -> W -> Z * W;
  ff_socket : Z -> Z -> Z -> W -> Z * W;
  ff_ioctl_freebsd : Z -> Z -> Z -> W -> Z * W;
  ff_close : Z -> W -> Z * W;
  ff_rtioctl : Z -> Z -> Z -> Z -> W -> Z * Z * W;      (* result and length *)
  sys_socket : Z -> W -> Z * Z * W;                     (* error and td_retval[0] *)
  sys_connect : Z -> W -> Z * W;
  sys_bind : Z -> W -> Z * W;
  sys_recvfrom : Z -> W -> Z * Z * W;
  sys_sendto : Z -> W -> Z * Z * W;
  kern_close : Z -> W -> Z * W;
  ff_getsockopt_freebsd : Z -> Z -> Z -> Z -> Z -> W -> Z * W;
  ff_setsockopt_freebsd : Z -> Z -> Z -> Z -> Z -> W -> Z * W;
  deref : W -> Z -> Z;                                  (* the int at an address *)
  errno : W -> Z;
  set_errno : Z -> W -> W;
  fds : W -> gset Z                                     (* the open descriptors *)
}.

(** A call of the library that returns a negative number has set errno to a positive
    one.  A system call returns 0 or an error number, and a successful transfer counts
    the bytes that it moved.  Opening a socket adds a descriptor that was not open,
    closing removes the descriptor even when it reports an error, and the other calls
    leave the descriptors as they are. *)
Definition call_ok {W} `{!Stack W} (r : Z) (w w' : W) : Prop :=
  fds w' = fds w /\ (r < 0 -> 0 < errno w').

Definition kern_ok {W} `{!Stack W} (e : Z) (w w' : W) : Prop := fds w' = fds w /\ 0 <= e.

Class StackLaws (W : Type) `{!Stack W} : Prop := {
  sysctl_ok a b c d e f (w : W) : call_ok (ff_sysctl a b c d e f w).1 w (ff_sysctl a b c d e f w).2;
  ioctl_ok fd c d (w : W) : call_ok (ff_ioctl_freebsd fd c d w).1 w (ff_ioctl_freebsd fd c d w).2;
  rtioctl_ok a b c d (w : W) : call_ok (ff_rtioctl a b c d w).1.1 w (ff_rtioctl a b c d w).2;
  sys_socket_ok d (w : W) : let r := sys_socket d w in
    0 <= r.1.1 /\ if r.1.1 =? 0 then 0 <= r.1.2 /\ fds r.2 = {[r.1.2]} ∪ fds w /\ r.1.2 ∉ fds w else fds r.2 = fds w;
  sys_connect_ok d (w : W) : kern_ok (sys_connect d w).1 w (sys_connect d w).2;
  sys_bind_ok d (w : W) : kern_ok (sys_bind d w).1 w (sys_bind d w).2;
  sys_recvfrom_ok d (w : W) : let r := sys_recvfrom d w in kern_ok r.1.1 w r.2 /\ (r.1.1 = 0 -> 0 <= r.1.2);
  sys_sendto_ok d (w : W) : let r := sys_sendto d w in kern_ok r.1.1 w r.2 /\ (r.1.1 = 0 -> 0 <= r.1.2);
  kern_close_ok fd (w : W) : 0 <= (kern_close fd w).1 /\ fds (kern_close fd w).2 = fds w ∖ {[fd]};
  getsockopt_ok fd l n v o (w : W) : call_ok (ff_getsockopt_freebsd fd l n v o w).1 w (ff_getsockopt_freebsd fd l n v o w).2;
  setsockopt_ok fd l n v o (w : W) : call_ok (ff_setsockopt_freebsd fd l n v o w).1 w (ff_setsockopt_freebsd fd l n v o w).2;
  socket_ok d t p (w : W) : let r := ff_socket d t p w in
    if r.1 <? 0 then fds r.2 = fds w /\ 0 < errno r.2 else fds r.2 = {[r.1]} ∪ fds w /\ r.1 ∉ fds w;
  close_ok fd (w : W) : let r := ff_close fd w in
    fds r.2 = fds w ∖ {[fd]} /\ (errno r.2 = errno w \/ 0 < errno r.2);
  set_errno_ok e (w : W) : errno (set_errno e w) = e /\ fds (set_errno e w) = fds w
}.

Section handlers.
Context {W : Type} `{!Stack W}.
(** The build options, ff_top_status and ff_traffic. *)
Context (INET6 FF_NETGRAPH FF_IPFW : bool) (ff_top_status ff_traffic : args).

(** * Netgraph control: ff_ngctl.c *)

Definition ngctl_fail (error : Z) (w : W) : Z * W := (-1, set_errno (ff_os_errno error) w).

Definition ngctl_socket (uap : Z) (w : W) : Z * W :=
  let '(error, td_retval, w) := sys_socket uap w in
  if negb (error =? 0) then ngctl_fail error w else (td_retval, w).

Definition ngctl_connect (uap : Z) (w : W) : Z * W :=
  let '(error, w) := sys_connect uap w in
  if negb (error =? 0) then ngctl_fail error w else (error, w).

Definition ngctl_bind (uap : Z) (w : W) : Z * W :=
  let '(error, w) := sys_bind uap w in
  if negb (error =? 0) then ngctl_fail error w else (error, w).

Definition ngctl_recvfrom (uap : Z) (w : W) : Z * W :=
  let '(error, td_retval, w) := sys_recvfrom uap w in
  if negb (error =? 0) then ngctl_fail error w else (td_retval, w).

Definition ngctl_sendto (uap : Z) (w : W) : Z * W :=
  let '(error, td_retval, w) := sys_sendto uap w in
  if negb (error =? 0) then ngctl_fail error w else (td_retval, w).

Definition ngctl_close (sockfd : Z) (w : W) : Z * W :=
  let '(error, w) := kern_close sockfd w in
  if negb (error =? 0) then ngctl_fail error w else (error, w).

Definition ff_ngctl (cmd data : Z) (w : W) : Z * W :=
  if cmd =? NGCTL_SOCKET then ngctl_socket data w
  else if cmd =? NGCTL_CONNECT then ngctl_connect data w
  else if cmd =? NGCTL_BIND then ngctl_bind data w
  else if cmd =? NGCTL_SEND then ngctl_sendto data w
  else if cmd =? NGCTL_RECV then ngctl_recvfrom data w
  else if cmd =? NGCTL_CLOSE then ngctl_close (deref w data) w
  else ngctl_fail ff_EINVAL w.

(** * Handlers *)

(** [ret < 0 ? errno : 0] *)
Definition set_result (m : ff_msg) (ret : Z) (w : W) : ff_msg :=
  Msg (msg_addr m) (msg_type m) (if ret <? 0 then errno w else 0) (body m).
Definition set_body (m : ff_msg) (b : args) : ff_msg := Msg (msg_addr m) (msg_type m) (result m) b.

(** A handler faults when the union holds the arguments of another type. *)
Definition handle_sysctl_msg (m : ff_msg) (w : W) : outcome (ff_msg * W) :=
  match body m with
  | ASysctl name namelen old oldlenp new newlen =>
      let '(ret, w) := ff_sysctl name namelen old oldlenp new newlen w in Done (set_result m ret w, w)
  | _ => Fault
  end.

Definition handle_ioctl_msg (m : ff_msg) (w : W) : outcome (ff_msg * W) :=
  match body m with
  | AIoctl cmd data =>
      let '(fd, w) := ff_socket (if INET6 && (msg_type m =? FF_IOCTL6) then AF_INET6 else AF_INET) SOCK_DGRAM 0 w in
      if fd <? 0 then Done (set_result m (-1) w, w)
      else
        let '(ret, w) := ff_ioctl_freebsd fd cmd data w in
        let '(_, w) := ff_close fd w in
        Done (set_result m ret w, w)
  | _ => Fault
  end.

Definition handle_route_msg (m : ff_msg) (w : W) : outcome (ff_msg * W) :=
  match body m with
  | ARoute fib len maxlen data =>
      let '(ret, len, w) := ff_rtioctl fib data len maxlen w in
      Done (set_result (set_body m (ARoute fib len maxlen data)) ret w, w)
  | _ => Fault
  end.

Definition handle_top_msg (m : ff_msg) (w : W) : outcome (ff_msg * W) := Done (set_result (set_body m ff_top_status) 0 w, w).

Definition handle_ngctl_msg (m : ff_msg) (w : W) : outcome (ff_msg * W) :=
  match body m with
  | ANgctl cmd r data =>
      let '(ret, w) := ff_ngctl cmd data w in
      Done (set_result (if ret <? 0 then m else set_body m (ANgctl cmd ret data)) ret w, w)
  | _ => Fault
  end.

Definition handle_ipfw_msg (m : ff_msg) (w : W) : outcome (ff_msg * W) :=
  match body m with
  | AIpfw cmd level optname optval optlen =>
      let '(fd, w) := ff_socket AF_INET SOCK_RAW IPPROTO_RAW w in
      if fd <? 0 then Done (set_result m (-1) w, w)
      else
        let '(ret, w) :=
          if cmd =? FF_IPFW_GET then ff_getsockopt_freebsd fd level optname optval optlen w
          else if cmd =? FF_IPFW_SET then ff_setsockopt_freebsd fd level optname optval (deref w optlen) w
          else (-1, set_errno ENOTSUP w) in
        let '(_, w) := ff_close fd w in
        Done (set_result m ret w, w)
  | _ => Fault
  end.

Definition handle_traffic_msg (m : ff_msg) (w : W) : outcome (ff_msg * W) := Done (set_result (set_body m ff_traffic) 0 w, w).

Definition handle_default_msg (m : ff_msg) (w : W) : outcome (ff_msg * W) :=
  Done (Msg (msg_addr m) (msg_type m) ENOTSUP (body m), w).

(** The switch of handle_msg. *)
Definition dispatch_msg (m : ff_msg) (w : W) : outcome (ff_msg * W) :=
  let t := msg_type m in
  if t =? FF_SYSCTL then handle_sysctl_msg m w
  else if (t =? FF_IOCTL) || (INET6 && (t =? FF_IOCTL6)) then handle_ioctl_msg m w
  else if t =? FF_ROUTE then handle_route_msg m w
  else if t =? FF_TOP then handle_top_msg m w
  else if FF_NETGRAPH && (t =? FF_NGCTL) then handle_ngctl_msg m w
  else if FF_IPFW && (t =? FF_IPFW_CTL) then handle_ipfw_msg m w
  else if t =? FF_TRAFFIC then handle_traffic_msg m w
  else handle_default_msg m w.

(** The rings of the process: the messages of each and how many it takes. *)
#[local] Abbreviation rings := (list (list ff_msg * nat)).

(** rte_ring_enqueue, whose result is not used. *)
Definition ring_enqueue (r : list ff_msg * nat) (m : ff_msg) : list ff_msg * nat :=
  if (length r.1 <? r.2)%nat then (r.1 ++ [m], r.2) else r.

Definition handle_msg (m : ff_msg) (rs : rings) (w : W) : outcome (rings * W) :=
  x ← dispatch_msg m w;
  let '(m, w) := x in
  if msg_type m <? 0 then Fault else
  match rs !! Z.to_nat (msg_type m) with
  | Some r => Done (<[Z.to_nat (msg_type m) := ring_enqueue r m]> rs, w)
  | None => Fault
  end.

(** rte_ring_dequeue takes the first message, if there is one. *)
Definition process_msg_ring (rs : rings) (w : W) : outcome (rings * W) :=
  match rs !! 0%nat with
  | Some (m :: q, n) => handle_msg m (<[0%nat := (q, n)]> rs) w
  | Some ([], _) => Done (rs, w)
  | None => Fault
  end.

(** * Answers *)

(** The union holds the arguments of the message's type. *)
Definition well_typed (m : ff_msg) : Prop :=
  (msg_type m = FF_SYSCTL -> exists a b c d e f, body m = ASysctl a b c d e f) /\
  (msg_type m = FF_IOCTL \/ msg_type m = FF_IOCTL6 -> exists c d, body m = AIoctl c d) /\
  (msg_type m = FF_ROUTE -> exists a b c d, body m = ARoute a b c d) /\
  (msg_type m = FF_NGCTL -> exists c r d, body m = ANgctl c r d) /\
  (msg_type m = FF_IPFW_CTL -> exists c l n v o, body m = AIpfw c l n v o).

(** The descriptors that a netgraph message with these arguments leaves open, where
    the tool is told [ret], or the error when [ok] is false. *)
Definition ngctl_fds (cmd data : Z) (ok : bool) (ret : Z) (w w' : W) : Prop :=
  if (cmd =? NGCTL_SOCKET) && ok then fds w' = {[ret]} ∪ fds w /\ ret ∉ fds w
  else if cmd =? NGCTL_CLOSE then fds w' = fds w ∖ {[deref w data]}
  else fds w' = fds w.

(** Only a netgraph message changes the descriptors: one that opens a socket and one
    that closes a descriptor. *)
Definition descriptors (m m' : ff_msg) (w w' : W) : Prop :=
  match body m with
  | ANgctl cmd r data =>
      if FF_NETGRAPH && (msg_type m =? FF_NGCTL)
      then exists ret, body m' = ANgctl cmd ret data /\ ngctl_fds cmd data (result m' =? 0) ret w w'
      else fds w' = fds w
  | _ => fds w' = fds w
  end.

(** The answer is the message with 0 or the error. *)
Definition answer (m m' : ff_msg) (w w' : W) : Prop :=
  msg_addr m' = msg_addr m /\ msg_type m' = msg_type m /\ descriptors m m' w w' /\
  (result m' = 0 \/ 0 < result m' /\ (result m' = errno w' \/ result m' = ENOTSUP)).

Context `{!StackLaws W}.

(** The messages that are not netgraph control. *)
Definition plain (m : ff_msg) : Prop := FF_NETGRAPH && (msg_type m =? FF_NGCTL) = false.

Lemma plain_descriptors m m' w w' : plain m -> fds w' = fds w -> descriptors m m' w w'.
Proof. unfold plain, descriptors. intros -> E. by destruct (body m). Qed.

Lemma result_answer m m0 ret w w' : plain m -> call_ok ret w w' -> msg_addr m0 = msg_addr m -> msg_type m0 = msg_type m -> answer m (set_result m0 ret w') w w'.
Proof.
  intros Hp [H1 H2] E1 E2. split; [done|]. split; [done|]. split; [by apply plain_descriptors|]. cbn. destruct (Z.ltb_spec ret 0); [right; auto|by left].
Qed.

(** A call on a socket that is closed again. *)
Lemma socket_answer m fd ret w w0 w1 : plain m -> fds w0 = {[fd]} ∪ fds w -> fd ∉ fds w -> call_ok ret w0 w1 ->
  answer m (set_result m ret (ff_close fd w1).2) w (ff_close fd w1).2.
Proof.
  intros Hp H1 H2 [H3 H4]. destruct (close_ok fd w1) as [H5 H6].
  apply result_answer; [done| |done|done]. split; [rewrite H5, H3, H1; set_solver|]. destruct H6 as [->|]; auto.
Qed.

Lemma errno_pos e : 0 < e -> 0 < ff_os_errno e.
Proof.
  intros H. assert (Hall : Forall (fun p => 0 < p.2) errno_table) by decide_closed. rewrite Forall_forall in Hall.
  destruct (decide (e ∈ keys errno_table)) as [Hin|Hin]; [exact (Hall _ (switch_in _ _ e Hin))|].
  unfold ff_os_errno. by rewrite switch_notin.
Qed.

Lemma ngctl_fail_ok e w : 0 <= e -> (e =? 0) = false -> (ngctl_fail e w).1 = -1 /\ fds (ngctl_fail e w).2 = fds w /\ 0 < errno (ngctl_fail e w).2.
Proof.
  intros H E. unfold ngctl_fail. cbn [fst snd]. destruct (set_errno_ok (ff_os_errno e) w) as [-> ->]. split_and!; [done..|]. apply errno_pos. lia.
Qed.

(** The tail of every ngctl function: an error becomes -1 and errno. *)
Lemma ngctl_tail e v w : 0 <= e -> (e = 0 -> 0 <= v) ->
  let r := if negb (e =? 0) then ngctl_fail e w else (v, w) in
  (r.1 < 0 -> 0 < errno r.2) /\ fds r.2 = fds w /\ (0 <=? r.1) = (e =? 0) /\ (e = 0 -> r.1 = v).
Proof.
  intros H Hv. destruct (e =? 0) eqn:E; cbn [negb].
  - cbn. assert (0 <= v) by (apply Hv; lia). split_and!; [lia|done| |done]. by apply Z.leb_le.
  - destruct (ngctl_fail_ok e w H E) as (-> & -> & ?). split_and!; [done..|lia].
Qed.

(** The result of a netgraph call, and the descriptors after it. *)
Lemma ff_ngctl_ok c d w : let r := ff_ngctl c d w in
  (r.1 < 0 -> 0 < errno r.2) /\ ngctl_fds c d (0 <=? r.1) r.1 w r.2.
Proof.
  unfold ff_ngctl, ngctl_fds.
  destruct (Z.eqb_spec c NGCTL_SOCKET) as [->|_].
  { unfold ngctl_socket. pose proof (sys_socket_ok d w) as [H0 H]. destruct (sys_socket d w) as [[e v] w1]. cbn [fst snd] in *.
    destruct (ngctl_tail e v w1 H0) as (? & -> & -> & Hv); [intros ->; apply H|]. split; [done|]. destruct (Z.eqb_spec e 0); [|done]. rewrite Hv by done. apply H. }
  cbn [andb]. destruct (Z.eqb_spec c NGCTL_CONNECT) as [->|_].
  { unfold ngctl_connect. pose proof (sys_connect_ok d w) as [H0 H]. destruct (sys_connect d w) as [e w1]. cbn [fst snd] in *.
    by destruct (ngctl_tail e e w1 H) as (? & -> & _); [lia|]. }
  destruct (Z.eqb_spec c NGCTL_BIND) as [->|_].
  { unfold ngctl_bind. pose proof (sys_bind_ok d w) as [H0 H]. destruct (sys_bind d w) as [e w1]. cbn [fst snd] in *.
    by destruct (ngctl_tail e e w1 H) as (? & -> & _); [lia|]. }
  destruct (Z.eqb_spec c NGCTL_SEND) as [->|_].
  { unfold ngctl_sendto. pose proof (sys_sendto_ok d w) as [[H0 H] Hv]. destruct (sys_sendto d w) as [[e v] w1]. cbn [fst snd] in *.
    by destruct (ngctl_tail e v w1 H Hv) as (? & -> & _). }
  destruct (Z.eqb_spec c NGCTL_RECV) as [->|_].
  { unfold ngctl_recvfrom. pose proof (sys_recvfrom_ok d w) as [[H0 H] Hv]. destruct (sys_recvfrom d w) as [[e v] w1]. cbn [fst snd] in *.
    by destruct (ngctl_tail e v w1 H Hv) as (? & -> & _). }
  destruct (Z.eqb_spec c NGCTL_CLOSE) as [->|_].
  { unfold ngctl_close. pose proof (kern_close_ok (deref w d) w) as [H H0]. destruct (kern_close (deref w d) w) as [e w1]. cbn [fst snd] in *.
    by destruct (ngctl_tail e e w1 H) as (? & -> & _); [lia|]. }
  destruct (ngctl_fail_ok ff_EINVAL w) as (-> & -> & ?); [done..|]. by split.
Qed.

Lemma handle_ngctl_answer m c r d w : FF_NETGRAPH && (msg_type m =? FF_NGCTL) = true -> body m = ANgctl c r d ->
  exists m' w', handle_ngctl_msg m w = Done (m', w') /\ answer m m' w w'.
Proof.
  intros Et E. unfold handle_ngctl_msg. rewrite E. pose proof (ff_ngctl_ok c d w) as [He Hf].
  destruct (ff_ngctl c d w) as [ret w1]. cbn in He, Hf. eexists _, _. split; [done|]. unfold answer, descriptors. rewrite E, Et.
  destruct (Z.ltb_spec ret 0) as [Hr|Hr]; cbn.
  - rewrite (proj2 (Z.ltb_lt _ _) Hr), E, (proj2 (Z.eqb_neq (errno w1) 0)) by lia. rewrite (proj2 (Z.leb_gt _ _) Hr) in Hf.
    split_and!; [done..| |right; auto]. exists r. split; [done|]. revert Hf. unfold ngctl_fds. by rewrite andb_false_r.
  - rewrite (proj2 (Z.ltb_ge _ _) Hr). rewrite (proj2 (Z.leb_le _ _) Hr) in Hf. split_and!; [done..| |by left]. by exists ret.
Qed.

Lemma handle_ioctl_answer m c d w : plain m -> body m = AIoctl c d -> exists m' w', handle_ioctl_msg m w = Done (m', w') /\ answer m m' w w'.
Proof.
  intros Hp E. unfold handle_ioctl_msg. rewrite E. set (dom := if INET6 && (msg_type m =? FF_IOCTL6) then AF_INET6 else AF_INET).
  pose proof (socket_ok dom SOCK_DGRAM 0 w) as Hs. destruct (ff_socket dom SOCK_DGRAM 0 w) as [fd w0]. cbn in Hs.
  destruct (fd <? 0).
  - eexists _, _. split; [done|]. apply result_answer; [done| |done|done]. split; tauto.
  - pose proof (ioctl_ok fd c d w0) as Hc. destruct (ff_ioctl_freebsd fd c d w0) as [ret w1].
    destruct Hs as [H1 H2]. pose proof (socket_answer m fd ret w w0 w1 Hp H1 H2 Hc) as Ha. destruct (ff_close fd w1) as [r w2]. by eexists _, _.
Qed.

Lemma handle_ipfw_answer m c l n v o w : plain m -> body m = AIpfw c l n v o -> exists m' w', handle_ipfw_msg m w = Done (m', w') /\ answer m m' w w'.
Proof.
  intros Hp E. unfold handle_ipfw_msg. rewrite E. pose proof (socket_ok AF_INET SOCK_RAW IPPROTO_RAW w) as Hs.
  destruct (ff_socket AF_INET SOCK_RAW IPPROTO_RAW w) as [fd w0]. cbn in Hs. destruct (fd <? 0).
  - eexists _, _. split; [done|]. apply result_answer; [done| |done|done]. split; tauto.
  - destruct Hs as [H1 H2]. set (call := if c =? FF_IPFW_GET then ff_getsockopt_freebsd fd l n v o w0 else if c =? FF_IPFW_SET then ff_setsockopt_freebsd fd l n v (deref w0 o) w0 else (-1, set_errno ENOTSUP w0)).
    assert (Hc : call_ok call.1 w0 call.2).
    { subst call. destruct (c =? FF_IPFW_GET); [apply getsockopt_ok|]. destruct (c =? FF_IPFW_SET); [apply setsockopt_ok|].
      destruct (set_errno_ok ENOTSUP w0) as [E1 E2]. unfold call_ok. cbn [fst snd]. rewrite E1, E2. split; [done|]. unfold ENOTSUP. lia. }
    destruct call as [ret w1]. pose proof (socket_answer m fd ret w w0 w1 Hp H1 H2 Hc) as Ha. destruct (ff_close fd w1) as [r w2]. by eexists _, _.
Qed.

(** A message of another type is not netgraph control. *)
Lemma plain_type m : msg_type m <> FF_NGCTL -> plain m.
Proof. intros H. unfold plain. rewrite (proj2 (Z.eqb_neq _ _) H). apply andb_false_r. Qed.

Lemma dispatch_answer m w : well_typed m -> exists m' w', dispatch_msg m w = Done (m', w') /\ answer m m' w w'.
Proof.
  intros (H1 & H2 & H3 & H4 & H5). unfold dispatch_msg.
  destruct (Z.eqb_spec (msg_type m) FF_SYSCTL) as [E|_].
  { destruct (H1 E) as (a & b & c & d & e & f & Eb). unfold handle_sysctl_msg. rewrite Eb. pose proof (sysctl_ok a b c d e f w) as Hc.
    destruct (ff_sysctl a b c d e f w) as [ret w1]. eexists _, _. split; [done|]. apply result_answer; [|done..]. apply plain_type. by rewrite E. }
  destruct ((msg_type m =? FF_IOCTL) || (INET6 && (msg_type m =? FF_IOCTL6))) eqn:E.
  { assert (Ht : msg_type m = FF_IOCTL \/ msg_type m = FF_IOCTL6) by (apply orb_true_iff in E as [E|E]; [left; lia|right]; apply andb_true_iff in E; lia).
    destruct (H2 Ht) as (c & d & Eb). eapply handle_ioctl_answer; [|done]. apply plain_type. by destruct Ht as [->| ->]. }
  destruct (Z.eqb_spec (msg_type m) FF_ROUTE) as [Er|_].
  { destruct (H3 Er) as (a & b & c & d & Eb). unfold handle_route_msg. rewrite Eb. pose proof (rtioctl_ok a d b c w) as Hc.
    destruct (ff_rtioctl a d b c w) as [[ret len] w1]. eexists _, _. split; [done|]. apply result_answer; [|done..]. apply plain_type. by rewrite Er. }
  destruct (Z.eqb_spec (msg_type m) FF_TOP) as [Et|_].
  { eexists _, _; split; [done|]. apply result_answer; [|done..]. apply plain_type. by rewrite Et. }
  destruct (FF_NETGRAPH && (msg_type m =? FF_NGCTL)) eqn:En.
  { pose proof En as [_ Hn]%andb_true_iff. destruct H4 as (c & r & d & Eb); [lia|]. by eapply handle_ngctl_answer. }
  destruct (FF_IPFW && (msg_type m =? FF_IPFW_CTL)) eqn:Ei.
  { apply andb_true_iff in Ei as [_ Ei]. destruct H5 as (c & l & n & v & o & Eb); [lia|]. by eapply handle_ipfw_answer. }
  destruct (Z.eqb_spec (msg_type m) FF_TRAFFIC) as [_|_]; [eexists _, _; split; [done|]; by apply result_answer|].
  eexists _, _. split; [done|]. split_and!; [done..|by apply plain_descriptors|]. right. cbn. unfold ENOTSUP. lia.
Qed.

(** C37. Every message of a tool is answered, as long as the ring of its type has room:
    a message of a known type, whose union holds the arguments of that type, is taken
    from the input ring and put, with 0 or a positive error number as its result, on
    the ring of its type; the other rings stay as they are.  Whatever the calls of the
    stack return, as long as they report errors the way StackLaws says, no message but
    a netgraph one leaves the open descriptors changed:
    of those, NGCTL_SOCKET opens a new descriptor and returns it in the message when it
    succeeds, NGCTL_CLOSE closes the descriptor that the tool names, and the others
    change nothing.  (When the ring is full, rte_ring_enqueue fails, its result is
    ignored and the message is lost.) *)
Theorem messages_answered m q n rs w r k :
  rs !! 0%nat = Some (m :: q, n) -> length rs = Z.to_nat FF_MSG_NUM ->
  FF_UNKNOWN < msg_type m < FF_MSG_NUM -> well_typed m ->
  rs !! Z.to_nat (msg_type m) = Some (r, k) -> (length r < k)%nat ->
  exists m' rs' w', process_msg_ring rs w = Done (rs', w') /\ answer m m' w w' /\
    rs' !! 0%nat = Some (q, n) /\ rs' !! Z.to_nat (msg_type m) = Some (r ++ [m'], k) /\
    forall i, i <> 0%nat -> i <> Z.to_nat (msg_type m) -> rs' !! i = rs !! i.
Proof.
  intros H0 Hl Ht Hw Hr Hk. unfold FF_UNKNOWN in Ht. unfold process_msg_ring. rewrite H0. unfold handle_msg.
  destruct (dispatch_answer m w Hw) as (m' & w' & -> & Ha). cbn [mbind outcome_bind]. pose proof Ha as (_ & Et & _). rewrite Et.
  destruct (Z.ltb_spec (msg_type m) 0); [lia|]. rewrite list_lookup_insert_ne by lia. rewrite Hr. unfold ring_enqueue. cbn [fst snd].
  rewrite (proj2 (Nat.ltb_lt _ _) Hk). eexists m', _, w'. split; [done|]. split; [done|]. split_and!.
  - rewrite list_lookup_insert_ne by lia. apply list_lookup_insert_eq. rewrite Hl. unfold FF_MSG_NUM. lia.
  - apply list_lookup_insert_eq. rewrite length_insert, Hl. unfold FF_MSG_NUM in *. lia.
  - intros i Hi0 Hi. by rewrite !list_lookup_insert_ne.
Qed.

(** A message of the type FF_UNKNOWN, which messages of the pool have at first, is
    put back on the input ring: it is never answered, and is handled in every
    round. *)
Lemma unknown_circulates m n rs w : msg_type m = FF_UNKNOWN -> (0 < n)%nat -> (0 < length rs)%nat -> rs !! 0%nat = Some ([m], n) ->
  process_msg_ring rs w = Done (<[0%nat := ([Msg (msg_addr m) FF_UNKNOWN ENOTSUP (body m)], n)]> rs, w).
Proof.
  intros Ht Hn Hl H0. unfold process_msg_ring. rewrite H0. unfold handle_msg, dispatch_msg. rewrite Ht. cbn -[insert lookup Z.to_nat].
  rewrite !andb_false_r. cbn -[insert lookup Z.to_nat]. change (Z.to_nat 0) with 0%nat. rewrite Ht. cbn -[insert lookup].
  rewrite list_lookup_insert_eq by done. unfold ring_enqueue. cbn [fst snd length]. rewrite (proj2 (Nat.ltb_lt _ _) Hn), list_insert_insert_eq. done.
Qed.
End handlers.

(** ** An instance *)

(** A stack that keeps its open descriptors in a list; an ioctl fails with 25. *)
Module Small.
Definition world : Type := Z * list Z.
Definition new_fd (l : list Z) : Z := 1 + foldr Z.max 0 l.

#[export] Instance stack : Stack world := {
  ff_sysctl _ _ _ _ _ _ w := (0, w);
  ff_socket _ _ _ w := (new_fd w.2, (w.1, new_fd w.2 :: w.2));
  ff_ioctl_freebsd _ _ _ w := (-1, (25, w.2));
  ff_close fd w := (0, (w.1, filter (fun x => x <> fd) w.2));
  sys_socket _ w := (0, new_fd w.2, (w.1, new_fd w.2 :: w.2));
  sys_connect _ w := (57, w);
  sys_bind _ w := (0, w);
  sys_recvfrom _ w := (35, 0, w);
  sys_sendto _ w := (0, 10, w);
  kern_close fd w := (if decide (fd ∈ w.2) then 0 else 9, (w.1, filter (fun x => x <> fd) w.2));
  ff_rtioctl _ _ len _ w := (0, len, w);
  ff_getsockopt_freebsd _ _ _ _ _ w := (0, w);
  ff_setsockopt_freebsd _ _ _ _ _ w := (0, w);
  deref _ a := a;
  errno w := w.1;
  set_errno e w := (e, w.2);
  fds w := list_to_set w.2
}.

Lemma new_fd_fresh l : 0 < new_fd l /\ new_fd l ∉ l.
Proof.
  assert (H : Forall (fun x => x < new_fd l) l /\ 0 <= foldr Z.max 0 l).
  { unfold new_fd. induction l as [|x l [IH IH']]; [done|]. cbn. split; [|lia]. constructor; [lia|]. eapply Forall_impl; [exact IH|]. cbn. lia. }
  destruct H as [H H0]. split; [unfold new_fd; lia|]. intros Hin. rewrite Forall_forall in H. specialize (H _ Hin). lia.
Qed.

Lemma close_fds fd (l : list Z) : list_to_set (filter (fun x => x <> fd) l) =@{gset Z} list_to_set l ∖ {[fd]}.
Proof. apply set_eq. intros x. rewrite elem_of_difference, !elem_of_list_to_set, list_elem_of_filter. set_solver. Qed.

#[export] Instance stack_laws : StackLaws world.
Proof.
  constructor; try done; unfold call_ok, kern_ok; cbn.
  - intros _ [e l]. destruct (new_fd_fresh l) as [H1 H2]. cbn. split_and!; [done|lia|done|]. by rewrite elem_of_list_to_set.
  - intros fd [e l]. cbn. split; [by destruct (decide _)|]. apply close_fds.
  - intros _ _ _ [e l]. destruct (new_fd_fresh l) as [H1 H2]. cbn. destruct (Z.ltb_spec (new_fd l) 0); [lia|].
    split; [done|]. by rewrite elem_of_list_to_set.
  - intros fd [e l]. split; [|by left]. apply close_fds.
Qed.

Definition ex_msg : ff_msg := Msg 1000 FF_IOCTL 7 (AIoctl 1 2).
Definition ng_msg (cmd data : Z) : ff_msg := Msg 1001 FF_NGCTL 0 (ANgctl cmd 0 data).
Definition ex_rings (m : ff_msg) : list (list ff_msg * nat) := ([m], 32%nat) :: replicate 8 ([], 32%nat).

(** A process with descriptors 3 and 4 answers an ioctl, a netgraph message that opens
    a socket, and one that closes descriptor 3. *)
Lemma messages_answered_witness :
  Forall (fun '(m, n, e, l) => exists m' rs' w', process_msg_ring true true false ANone ANone (ex_rings m) (0, [3; 4]) = Done (rs', w') /\
    answer true m m' (0, [3; 4]) w' /\ rs' !! n = Some ([m'], 32%nat) /\ result m' = e /\ w'.2 = l)
    [(ex_msg, 2%nat, 25, [3; 4]); (ng_msg NGCTL_SOCKET 0, 6%nat, 0, [5; 3; 4]); (ng_msg NGCTL_CLOSE 3, 6%nat, 0, [4]);
     (ng_msg NGCTL_CONNECT 0, 6%nat, 107, [3; 4]); (ng_msg 9 0, 6%nat, 22, [3; 4])].
Proof.
  repeat constructor.
  all: lazymatch goal with |- context [ex_rings ?m] =>
    destruct (messages_answered true true false ANone ANone m [] 32%nat (ex_rings m) (0, [3; 4]) [] 32%nat)
      as (m' & rs' & w' & E & Ha & _ & H2 & _);
      [reflexivity|reflexivity|cbn; unfold FF_UNKNOWN, FF_IOCTL, FF_NGCTL, FF_MSG_NUM; lia
      |split_and!; cbn; unfold FF_IOCTL, FF_SYSCTL, FF_IOCTL6, FF_ROUTE, FF_NGCTL, FF_IPFW_CTL; intros; try lia; eauto 10
      |reflexivity|cbn; lia|] end.
  all: exists m', rs', w'; split; [exact E|]; split; [exact Ha|]; split; [exact H2|];
    vm_compute in E; injection E as <- <-; vm_compute in H2; injection H2 as <-; split; reflexivity.
Defined.
End Small.
