(* ===== verification/TcpSack.v ===== *)
(** The SACK blocks of a receiver (src/freebsd/netinet/tcp_sack.c: tcp_update_sack_list,
    tcp_clean_sackreport) behind the reassembly of TcpReass, as tcp_do_segment
    (tcp_input.c) calls them: what is reported to the peer was received. *)
From stdpp Require Import base list.
From Stdlib Require Import ZArith Lia.
From S2P Require Import Prelude TcpReass TcpReassSpec TcpReassProps.

Local Open Scope Z_scope.

Definition SEQ_LT (a b : Z) : bool := s32 (a - b) <? 0.
Definition SEQ_LEQ (a b : Z) : bool := s32 (a - b) <=? 0.
Definition SEQ_GEQ (a b : Z) : bool := s32 (a - b) >=? 0.
Definition MAX_SACK_BLKS : nat := 6.

(** struct sackblk: start and end.  The blocks are the first rcv_numsacks entries of
    sackblks. *)
Definition sackblk : Type := Z * Z.

(** The loop: head_blk and the blocks that are saved. *)
Fixpoint sack_merge (rcv_nxt : Z) (blks : list sackblk) (head : sackblk) : sackblk * list sackblk :=
  match blks with
  | [] => (head, [])
  | (start, fin) :: r =>
      if SEQ_GEQ start fin || SEQ_LEQ start rcv_nxt then sack_merge rcv_nxt r head
      else if SEQ_LEQ head.1 fin && SEQ_GEQ head.2 start then
        sack_merge rcv_nxt r (if SEQ_GT head.1 start then start else head.1, if SEQ_LT head.2 fin then fin else head.2)
      else let '(h, saved) := sack_merge rcv_nxt r head in (h, (start, fin) :: saved)
  end.

(** The assertion, and writing more blocks than the array has, are a [Fault]. *)
Definition tcp_update_sack_list (rcv_nxt : Z) (blks : list sackblk) (rcv_start rcv_end : Z) : outcome (list sackblk) :=
  if negb (SEQ_LT rcv_start rcv_end) then Fault else
  let '(head, saved) := sack_merge rcv_nxt blks (rcv_start, rcv_end) in
  if (MAX_SACK_BLKS <? length saved)%nat then Fault else
  Done (if SEQ_GT head.1 rcv_nxt then
          head :: (if (MAX_SACK_BLKS <=? length saved)%nat then take (length saved - 1) saved else saved)
        else saved).

Definition tcp_clean_sackreport (blks : list sackblk) : list sackblk := [].

Section input.
Context {B M : Type} `{!RecvBuf B M}.
Context (zalloc : Z -> bool).

(** The text of a segment on a connection with SACK: [tcp_data] and the report. *)
Definition data_sack (tp : tcb B M) (blks : list sackblk) (seq flags tlen : Z) (m : M) : outcome (tcb B M * list sackblk * Z) :=
  x ← tcp_data zalloc tp seq flags tlen m;
  let '(tp, fl, tl) := x in
  if tl >? 0 then
    blks ← tcp_update_sack_list (rcv_nxt tp) blks seq (u32 (seq + tl)); Done (tp, blks, tl)
  else Done (tp, blks, tl).
End input.

(** * Blocks as intervals of positions *)

Section positions.
Context (isn : Z).

Definition sq (x : Z) : Z := u32 (isn + x).
Definition blk (p : Z * Z) : sackblk := (sq p.1, sq p.2).

(** Comparisons are right for positions less than 2^31 apart. *)
Lemma sq_cmp x y : -2147483648 <= x - y < 2147483648 -> s32 (sq x - sq y) = x - y.
Proof. intros H. unfold sq. rewrite seq_diff0; lia. Qed.

Lemma sq_lt x y : -2147483648 <= x - y < 2147483648 -> SEQ_LT (sq x) (sq y) = (x <? y).
Proof. intros H. unfold SEQ_LT. rewrite sq_cmp by done. destruct (Z.ltb_spec x y), (Z.ltb_spec (x - y) 0); lia. Qed.
Lemma sq_leq x y : -2147483648 <= x - y < 2147483648 -> SEQ_LEQ (sq x) (sq y) = (x <=? y).
Proof. intros H. unfold SEQ_LEQ. rewrite sq_cmp by done. destruct (Z.leb_spec x y), (Z.leb_spec (x - y) 0); lia. Qed.
Lemma sq_geq x y : -2147483648 <= x - y < 2147483648 -> SEQ_GEQ (sq x) (sq y) = (y <=? x).
Proof. intros H. unfold SEQ_GEQ. rewrite sq_cmp by done. destruct (Z.leb_spec y x), (Z.geb_spec (x - y) 0); lia. Qed.
Lemma sq_gt x y : -2147483648 <= x - y < 2147483648 -> SEQ_GT (sq x) (sq y) = (y <? x).
Proof. intros H. unfold SEQ_GT. rewrite sq_cmp by done. destruct (Z.ltb_spec y x), (Z.gtb_spec (x - y) 0); lia. Qed.

(** Intervals that do not touch. *)
Definition apart (p q : Z * Z) : Prop := p.2 < q.1 \/ q.2 < p.1.
Definition all_apart (ps : list (Z * Z)) : Prop := ForallOrdPairs apart ps.
Definition inside (lo hi : Z) (p : Z * Z) : Prop := lo < p.1 /\ p.1 < p.2 /\ p.2 <= hi.
Definition within (p : Z * Z) (x : Z) : Prop := p.1 <= x < p.2.

Lemma sack_merge_spec lo hi nxt ps h :
  hi - lo < 2147483648 -> lo <= nxt <= hi -> lo <= h.1 -> h.1 < h.2 <= hi ->
  Forall (inside lo hi) ps -> all_apart ps ->
  exists h' sv, sack_merge (sq nxt) (blk <$> ps) (blk h) = (blk h', blk <$> sv) /\
    lo <= h'.1 /\ h'.2 <= hi /\ h'.1 <= h.1 /\ h.2 <= h'.2 /\ (h'.1 = h.1 \/ nxt < h'.1) /\
    (forall x, within h' x -> within h x \/ exists p, p ∈ ps /\ within p x) /\
    sv `sublist_of` ps /\ Forall (fun p => nxt < p.1) sv /\ Forall (apart h') sv /\
    forall p, p.1 < p.2 -> apart p h -> Forall (apart p) ps -> apart p h'.
Proof.
  intros Hw Hn. revert h. induction ps as [|[a b] ps IH]; intros h H1 H2 Hi Ha; cbn [fmap list_fmap sack_merge].
  - exists h, []. split; [done|]. split_and!; try done; try lia; auto.
  - apply Forall_cons in Hi as [(I1 & I2 & I3) Hi]. cbn in I1, I2, I3. inversion Ha as [|? ? Ha1 Ha2]; subst.
    cbn [blk fst snd]. fold (blk <$> ps). rewrite (sq_geq a b), (sq_leq a nxt), (sq_leq h.1 b), (sq_geq h.2 a), (sq_gt h.1 a), (sq_lt h.2 b) by lia.
    destruct (Z.leb_spec b a); [lia|]. cbn [orb]. destruct (Z.leb_spec a nxt) as [Hdis|Hkeep].
    + destruct (IH h H1 H2 Hi Ha2) as (h' & sv & E & G1 & G2 & G3 & G4 & G5 & G6 & G7 & G8 & G9 & G10).
      exists h', sv. rewrite E. split_and!; try done.
      * intros x Hx. destruct (G6 x Hx) as [?|(p & Hp & ?)]; [by left|right; exists p; split; [by right|done]].
      * by apply sublist_cons.
      * intros p Hp0 Hp [_ Hps]%Forall_cons. auto.
    + destruct ((h.1 <=? b) && (a <=? h.2)) eqn:T.
      * apply andb_true_iff in T as [T1%Z.leb_le T2%Z.leb_le]. set (g := (if a <? h.1 then a else h.1, if h.2 <? b then b else h.2)).
        assert (Eg : (if a <? h.1 then sq a else sq h.1, if h.2 <? b then sq b else sq h.2) = blk g)
          by (subst g; unfold blk; cbn; by destruct (a <? h.1), (h.2 <? b)).
        rewrite Eg. assert (Hg : g.1 = Z.min a h.1 /\ g.2 = Z.max b h.2).
        { subst g; cbn. destruct (Z.ltb_spec a h.1), (Z.ltb_spec h.2 b); lia. }
        destruct Hg as [Hg1 Hg2]. clearbody g.
        destruct (IH g) as (h' & sv & E & G1 & G2 & G3 & G4 & G5 & G6 & G7 & G8 & G9 & G10); [lia|lia|done|done|].
        exists h', sv. rewrite E. split_and!; try done; try lia.
        -- intros x Hx. destruct (G6 x Hx) as [Hxg|(p & Hp & ?)]; [|right; exists p; split; [by right|done]].
           unfold within in *. destruct (decide (h.1 <= x < h.2)); [by left|]. right. exists (a, b). split; [by left|]. cbn. lia.
        -- by apply sublist_cons.
        -- intros p Hp0 Hp [Hpa Hps]%Forall_cons. apply G10; [done| |done]. unfold apart in *. cbn in *. lia.
      * assert (Hab : apart (a, b) h) by (unfold apart; cbn; apply andb_false_iff in T as [?%Z.leb_gt|?%Z.leb_gt]; lia). clear T.
        destruct (IH h H1 H2 Hi Ha2) as (h' & sv & E & G1 & G2 & G3 & G4 & G5 & G6 & G7 & G8 & G9 & G10).
        exists h', ((a, b) :: sv). rewrite E. split_and!; try done.
        -- intros x Hx. destruct (G6 x Hx) as [?|(p & Hp & ?)]; [by left|right; exists p; split; [by right|done]].
        -- by apply sublist_skip.
        -- by constructor.
        -- constructor; [|done]. pose proof (G10 (a, b) I2 Hab Ha1) as Hab'. unfold apart in *. cbn in *. lia.
        -- intros p Hp0 Hp [Hpa Hps]%Forall_cons. auto.
Qed.
End positions.

Lemma apart_sublist a b : a `sublist_of` b -> all_apart b -> all_apart a.
Proof.
  induction 1 as [|x a b Hs IH|x a b Hs IH]; intros H; [done| |]; inversion H as [|? ? H1 H2]; subst; [|by apply IH].
  constructor; [|by apply IH]. rewrite Forall_forall in *. intros y Hy. apply H1. by eapply elem_of_submseteq; [|apply sublist_submseteq].
Qed.

Lemma update_spec isn lo hi nxt ps s e :
  hi - lo < 2147483648 -> lo <= nxt <= hi -> lo <= s < e -> e <= hi ->
  Forall (inside lo hi) ps -> all_apart ps -> (length ps <= MAX_SACK_BLKS)%nat ->
  exists ps', tcp_update_sack_list (sq isn nxt) (blk isn <$> ps) (sq isn s) (sq isn e) = Done (blk isn <$> ps') /\
    (length ps' <= MAX_SACK_BLKS)%nat /\ all_apart ps' /\ Forall (inside nxt hi) ps' /\
    (forall p x, p ∈ ps' -> within p x -> s <= x < e \/ exists q, q ∈ ps /\ within q x) /\
    (nxt < s -> exists p r, ps' = p :: r /\ p.1 <= s /\ e <= p.2).
Proof.
  intros Hw Hn Hs He Hi Ha Hl. unfold tcp_update_sack_list. rewrite sq_lt by lia. destruct (Z.ltb_spec s e); [cbn [negb]|lia].
  destruct (sack_merge_spec isn lo hi nxt ps (s, e)) as (h & sv & E & G1 & G2 & G3 & G4 & G5 & G6 & G7 & G8 & G9 & _); [done|done|cbn; lia|cbn; lia|done|done|].
  change (sq isn s, sq isn e) with (blk isn (s, e)). rewrite E. cbn [fst snd] in *.
  pose proof (sublist_length _ _ G7) as Hlen. rewrite length_fmap. destruct (Nat.ltb_spec MAX_SACK_BLKS (length sv)); [lia|].
  assert (Hsv : Forall (inside nxt hi) sv).
  { apply Forall_forall. intros p Hp. rewrite Forall_forall in Hi, G8. pose proof (Hi p (elem_of_submseteq _ _ _ Hp (sublist_submseteq _ _ G7))) as (? & ? & ?).
    specialize (G8 p Hp). cbn in G8. unfold inside. lia. }
  assert (Hin : forall p x, p ∈ sv -> within p x -> exists q, q ∈ ps /\ within q x).
  { intros p x Hp Hx. exists p. split; [|done]. by eapply elem_of_submseteq; [|apply sublist_submseteq]. }
  pose proof (apart_sublist _ _ G7 Ha) as Hap. change ((blk isn h).1) with (sq isn h.1). rewrite sq_gt by lia. destruct (Z.ltb_spec nxt h.1) as [Hh|Hh].
  - assert (exists sv', sv' `sublist_of` sv /\ (length sv' < MAX_SACK_BLKS)%nat /\
      (if (MAX_SACK_BLKS <=? length sv)%nat then take (length sv - 1) (blk isn <$> sv) else blk isn <$> sv) = blk isn <$> sv') as (sv' & S1 & S2 & ->).
    { destruct (Nat.leb_spec MAX_SACK_BLKS (length sv)).
      - exists (take (length sv - 1) sv). split; [apply sublist_take|]. rewrite length_take, <- fmap_take. unfold MAX_SACK_BLKS in *. split; [lia|done].
      - by exists sv. }
    assert (Hsub : forall p, p ∈ sv' -> p ∈ sv) by (intros p Hp; by eapply elem_of_submseteq; [|apply sublist_submseteq]).
    exists (h :: sv'). split_and!; [done|cbn; unfold MAX_SACK_BLKS in *; lia| | | |].
    + constructor; [|by eapply apart_sublist]. apply Forall_forall. rewrite Forall_forall in G9. auto.
    + constructor; [unfold inside; lia|]. rewrite Forall_forall in *. auto.
    + intros p x [->|Hp]%elem_of_cons Hx; [exact (G6 x Hx)|]. right. by eapply Hin; [apply Hsub|].
    + intros _. by exists h, sv'.
  - exists sv. split; [done|]. split; [lia|]. split; [done|]. split; [done|]. split; [|intros ?; exfalso; lia]. intros p x Hp Hx. right. by eapply Hin.
Qed.

(** * Runs *)

Section runs.
Context {B M : Type} `{!RecvBuf B M, !RecvBufLaws B M}.
Context (zalloc : Z -> bool) (D : Z -> Z) (isn W : Z).
Hypothesis HW : 0 < W < 2 ^ 31.
#[local] Abbreviation tcb := (tcb B M).
Implicit Types tp : tcb.

(** What is left in *tlenp: nothing of a refused segment, something of another. *)
Lemma insert_len tp seq flags tlen m st tp' fl tl :
  reass_insert tp seq flags tlen m st = Done (tp', fl, tl) -> 0 <= tlen -> tl = tlen \/ 0 < tl <= tlen.
Proof.
  unfold reass_insert. destruct (seg_split _ _) as [bef aft]. set (i := match last bef with Some _ => _ | None => 0 end). intros H Ht.
  destruct ((i >? 0) && (i >=? tlen)) eqn:Ec.
  - destruct (present _) as [x| |]; cbn in H; [|done..]. injection H as _ _ <-. by left.
  - destruct (Z.gtb_spec i 0) as [Hi|Hi].
    + cbn [andb] in Ec. destruct (Z.geb_spec i tlen); [done|]. destruct (trim_after _ _) as [k g].
      destruct bef, st; try done; (destruct (present _) as [x| |]; cbn in H; [|done..]; injection H as _ _ <-; right; lia).
    + destruct (trim_after _ _) as [k g].
      destruct bef, st; try done; (destruct (present _) as [x| |]; cbn in H; [|done..]; injection H as _ _ <-; by left).
Qed.

Lemma data_len tp seq flags tlen m tp' fl tl :
  tcp_data zalloc tp seq flags tlen m = Done (tp', fl, tl) -> 0 <= tlen -> t_maxseg tp <> 0 ->
  if refused zalloc tp seq then tl = 0 else tl = tlen \/ 0 < tl <= tlen.
Proof.
  unfold tcp_data, refused. intros H Ht Hm. destruct (seq =? rcv_nxt tp) eqn:Es, (TCPS_HAVEESTABLISHED (t_state tp)) eqn:Ee; cbn [andb negb] in *.
  1: destruct (t_segq tp) eqn:Eq; cbn in H; [destruct (in_order tp tlen m); cbn in H; [|done..]; injection H as _ _ <-; by left|].
  all: rewrite ?andb_false_r in H; unfold tcp_reass in H; rewrite Es, Ee, (proj2 (Z.eqb_neq _ _) Hm) in H; cbn [andb negb] in H.
  1: destruct (zalloc (z_calls tp)); by eapply insert_len.
  all: destruct (t_segqlen tp >=? sb_hiwat tp / t_maxseg tp + 1); cbn [orb]; [by injection H as _ _ <-|].
  all: destruct (zalloc (z_calls tp)); cbn [negb]; [by eapply insert_len|by injection H as _ _ <-].
Qed.

(** An established connection, from its first report on. *)
Inductive sack_reach : tcb -> Z -> list Z -> list (Z * Z) -> list sackblk -> Prop :=
| sk_start tp rcv out acc :
    reass_reach zalloc D isn W tp rcv out acc -> TCPS_HAVEESTABLISHED (t_state tp) = true -> sack_reach tp rcv out acc []
| sk_segment tp rcv out acc blks s tlen flags m tp' blks' tl rcv' :
    sack_reach tp rcv out acc blks -> arrival D W tp rcv s tlen m ->
    data_sack zalloc tp blks (u32 (isn + s)) flags tlen m = Done (tp', blks', tl) ->
    rcv <= rcv' <= rcv + W -> rcv_nxt tp' = u32 (isn + rcv') ->
    sack_reach tp' rcv' out (if refused zalloc tp (u32 (isn + s)) then acc else (s, tlen) :: acc) blks'
| sk_read tp rcv out acc blks n b :
    sack_reach tp rcv out acc blks -> 0 <= n <= Z.of_nat (length (rb_data (so_rcv tp))) -> rb_drop (so_rcv tp) n = Done b ->
    sack_reach (set_rcv (rcv_nxt tp) b tp) rcv (out ++ take (Z.to_nat n) (rb_data (so_rcv tp))) acc blks
| sk_clean tp rcv out acc blks :
    sack_reach tp rcv out acc blks -> sack_reach tp rcv out acc (tcp_clean_sackreport blks).

(** The report: at most six intervals behind rcv_nxt, which do not touch, of bytes
    that were accepted. *)
Record report_ok (rcv : Z) (acc : list (Z * Z)) (blks : list sackblk) (ps : list (Z * Z)) : Prop := {
  ro_blks : blks = blk isn <$> ps;
  ro_len : (length ps <= MAX_SACK_BLKS)%nat;
  ro_apart : all_apart ps;
  ro_in : Forall (inside rcv (rcv + W)) ps;
  ro_acc p x : p ∈ ps -> within p x -> accepted acc x
}.

Lemma report_nil rcv acc : report_ok rcv acc [] [].
Proof. constructor; try done; [cbn; lia|constructor|]. intros p x Hp. by apply not_elem_of_nil in Hp. Qed.

Lemma accepted_cons acc p x : accepted acc x -> accepted (p :: acc) x.
Proof. intros (q & Hq & Hx). exists q. split; [by right|done]. Qed.

(** A segment without bytes moves nothing. *)
Lemma rcv_same tp rcv out acc tp' rcv' out' acc' :
  reass_reach zalloc D isn W tp rcv out acc -> reass_reach zalloc D isn W tp' rcv' out' acc' ->
  TCPS_HAVEESTABLISHED (t_state tp) = true -> rcv <= rcv' -> (forall x, accepted acc' x -> accepted acc x) -> rcv' = rcv.
Proof.
  intros H H' He Hle Hacc. destruct (tcp_reass_delivers zalloc D isn W HW _ _ _ _ H) as (_ & _ & _ & Hn & _).
  destruct (tcp_reass_delivers zalloc D isn W HW _ _ _ _ H') as (_ & _ & Hb & _). specialize (Hn He).
  destruct (reach_inv zalloc D isn W HW _ _ _ _ H) as (ss & Hi & _). pose proof (ts_rcv _ _ _ _ _ _ _ (ti_state _ _ _ _ _ _ _ Hi)).
  destruct (decide (rcv' = rcv)); [done|]. destruct Hn. apply Hacc, Hb. lia.
Qed.

(** One segment. *)
Lemma data_sack_spec tp rcv out acc blks ps s tlen flags m :
  reass_reach zalloc D isn W tp rcv out acc -> TCPS_HAVEESTABLISHED (t_state tp) = true -> report_ok rcv acc blks ps ->
  arrival D W tp rcv s tlen m ->
  exists tp' blks' fl tl rcv' ps', tcp_data zalloc tp (u32 (isn + s)) flags tlen m = Done (tp', fl, tl) /\
    data_sack zalloc tp blks (u32 (isn + s)) flags tlen m = Done (tp', blks', tl) /\
    reass_reach zalloc D isn W tp' rcv' out (if refused zalloc tp (u32 (isn + s)) then acc else (s, tlen) :: acc) /\
    rcv <= rcv' <= rcv + W /\ rcv_nxt tp' = u32 (isn + rcv') /\
    TCPS_HAVEESTABLISHED (t_state tp') = true /\
    report_ok rcv' (if refused zalloc tp (u32 (isn + s)) then acc else (s, tlen) :: acc) blks' ps' /\
    (0 < tl -> rcv' < s -> exists p r, ps' = p :: r /\ p.1 <= s /\ s + tl <= p.2).
Proof.
  intros H He Hro Ha. destruct (reach_inv zalloc D isn W HW _ _ _ _ H) as (ss & Hi & Hm & _).
  destruct (tcp_data_spec zalloc D isn W HW out tp rcv ss s tlen flags m Hi Hm Ha) as (tp' & fl & tl & rcv' & ss' & E & I' & L & C & R).
  pose proof Ha as (A1 & A2 & A3 & _). pose proof (data_len tp _ flags tlen m tp' fl tl E A2 Hm) as Hlen.
  assert (Hw : rcv <= rcv' <= rcv + W).
  { split; [done|]. eapply (next_below D isn W _ _ _ _ (fun x => 0 <= x < rcv + W)); [exact I'| |lia|pose proof (ts_rcv _ _ _ _ _ _ _ (ti_state _ _ _ _ _ _ _ Hi)); lia].
    intros x [Hx|[_ Hx]]%R; [by eapply received_below|]. pose proof (ts_rcv _ _ _ _ _ _ _ (ti_state _ _ _ _ _ _ _ Hi)). lia. }
  pose proof (ts_nxt _ _ _ _ _ _ _ (ti_state _ _ _ _ _ _ _ I')) as En.
  pose proof (rr_segment zalloc D isn W _ _ _ _ _ _ _ _ _ _ _ _ H Ha E Hw En) as H'.
  assert (He' : TCPS_HAVEESTABLISHED (t_state tp') = true) by (by destruct C as (-> & _)).
  unfold data_sack. rewrite E. cbn [mbind outcome_bind]. destruct Hro as [-> Hl Hap Hin Hac].
  destruct (Z.gtb_spec tl 0) as [Htl|Htl].
  - destruct (refused zalloc tp (u32 (isn + s))) eqn:Er; [lia|].
    assert (Htl' : tl <= tlen) by lia. change (2 ^ 31) with 2147483648 in HW.
    destruct (update_spec isn rcv (rcv + W) rcv' ps s (s + tl)) as (ps' & Eu & U1 & U2 & U3 & U4 & U5); [lia|lia|lia|lia|done|done|done|].
    unfold sq in Eu. rewrite En, u32_add, <- Z.add_assoc, Eu. cbn [mbind outcome_bind].
    exists tp', (blk isn <$> ps'), fl, tl, rcv', ps'. split_and!; try done; try lia.
    constructor; try done.
    + eapply Forall_impl; [exact U3|]. unfold inside. intros p. lia.
    + intros p x Hp Hx. destruct (U4 p x Hp Hx) as [Hs|(q & Hq & Hxq)]; [exists (s, tlen); split; [by left|cbn; lia]|]. apply accepted_cons. by eapply Hac.
  - exists tp', (blk isn <$> ps), fl, tl, rcv', ps. split_and!; try done; try lia.
    assert (rcv' = rcv) as ->.
    { eapply rcv_same; [exact H|exact H'|done|lia|]. intros x. destruct (refused zalloc tp (u32 (isn + s))); [done|].
      intros (q & [->|Hq]%elem_of_cons & Hx); [cbn in Hx; lia|by exists q]. }
    constructor; try done. intros p x Hp Hx. destruct (refused _ _ _); [by eapply Hac|apply accepted_cons; by eapply Hac].
Qed.

Lemma sack_inv tp rcv out acc blks : sack_reach tp rcv out acc blks ->
  reass_reach zalloc D isn W tp rcv out acc /\ TCPS_HAVEESTABLISHED (t_state tp) = true /\ exists ps, report_ok rcv acc blks ps.
Proof.
  induction 1 as [tp rcv out acc H He|tp rcv out acc blks s tlen flags m tp' blks' tl rcv' _ (H & He & ps & Hro) Ha E Hw En
                 |tp rcv out acc blks n b _ (H & He & ps & Hro) Hn E|tp rcv out acc blks _ (H & He & _)].
  - split; [done|]. split; [done|]. exists []. apply report_nil.
  - destruct (data_sack_spec tp rcv out acc blks ps s tlen flags m H He Hro Ha) as (tp1 & blks1 & fl & tl1 & r1 & ps1 & Ed & E1 & H1 & Hw1 & En1 & He1 & Hro1 & _).
    rewrite E1 in E. injection E as -> -> ->. assert (r1 = rcv') as -> by (apply (rcv_unique isn W HW rcv); [done|done|congruence]).
    split; [done|]. split; [done|]. by exists ps1.
  - split; [by apply rr_read|]. split; [done|]. by exists ps.
  - split; [done|]. split; [done|]. exists []. apply report_nil.
Qed.

(** C15. The SACK report is sound: in every state of an established connection the
    blocks are at most six, are intervals of the stream behind rcv_nxt that neither
    overlap nor touch, and every byte they name was accepted.  Each further
    segment is handled, and when it is out of order the first block of the new
    report has the first [tl] bytes from its start, [tl] being the length that
    tcp_reass left to report: not always the whole segment ([sack_misses_tail]). *)
Theorem tcp_sack_sound tp rcv out acc blks :
  sack_reach tp rcv out acc blks ->
  (exists ps, report_ok rcv acc blks ps) /\
  forall s tlen flags m, arrival D W tp rcv s tlen m ->
    exists tp' blks' fl tl rcv', tcp_data zalloc tp (u32 (isn + s)) flags tlen m = Done (tp', fl, tl) /\
      data_sack zalloc tp blks (u32 (isn + s)) flags tlen m = Done (tp', blks', tl) /\
      rcv_nxt tp' = u32 (isn + rcv') /\
      (0 < tl -> rcv' < s -> exists p r, blks' = blk isn p :: r /\ p.1 <= s /\ s + tl <= p.2).
Proof.
  intros H. destruct (sack_inv _ _ _ _ _ H) as (Hr & He & ps & Hro). split; [by exists ps|]. intros s tlen flags m Ha.
  destruct (data_sack_spec tp rcv out acc blks ps s tlen flags m Hr He Hro Ha) as (tp1 & blks1 & fl & tl & r1 & ps1 & Ed & E1 & _ & _ & En & _ & Hro1 & Hf).
  exists tp1, blks1, fl, tl, r1. split_and!; try done. intros H0 H1. destruct (Hf H0 H1) as (p & r & Ep & ? & ?).
  exists p, (blk isn <$> r). split; [|done]. by rewrite (ro_blks _ _ _ _ Hro1), Ep.
Qed.
End runs.

(** * A run *)

#[local] Existing Instance Bytes.byte_buf.
#[local] Existing Instance Bytes.byte_buf_laws.

Definition ex_state : Type := tcb (list Z) (list Z) * list sackblk.
Definition ex_step (st : ex_state) (s len : Z) : ex_state :=
  match data_sack Bytes.zalloc st.1 st.2 (u32 (Bytes.isn + s)) 16 len (seqZ s len) with Done (tp, blks, _) => (tp, blks) | _ => st end.
Definition ex1 : ex_state := ex_step (Bytes.tp0, []) 4 4.

Lemma ex1_reach : sack_reach Bytes.zalloc (fun x => x) Bytes.isn 1000 ex1.1 0 [] [(4, 4)] ex1.2.
Proof.
  apply (sk_segment Bytes.zalloc (fun x => x) Bytes.isn 1000 Bytes.tp0 0 [] [] [] 4 4 16 (seqZ 4 4) ex1.1 ex1.2 4 0).
  - apply sk_start; [constructor; by split_and!|done].
  - by split_and!.
  - vm_compute. reflexivity.
  - done.
  - done.
Defined.

Lemma tcp_sack_sound_witness :
  ex1.2 = [(1, 5)] /\ (exists ps, report_ok Bytes.isn 1000 0 [(4, 4)] ex1.2 ps) /\
  exists tp' blks' fl tl rcv', tcp_data Bytes.zalloc ex1.1 (u32 (Bytes.isn + 10)) 16 2 (seqZ 10 2) = Done (tp', fl, tl) /\
    data_sack Bytes.zalloc ex1.1 ex1.2 (u32 (Bytes.isn + 10)) 16 2 (seqZ 10 2) = Done (tp', blks', tl) /\
    rcv_nxt tp' = u32 (Bytes.isn + rcv') /\
    (0 < tl -> rcv' < 10 -> exists p r, blks' = blk Bytes.isn p :: r /\ p.1 <= 10 /\ 10 + tl <= p.2).
Proof.
  destruct (tcp_sack_sound Bytes.zalloc (fun x => x) Bytes.isn 1000 ltac:(lia) _ _ _ _ _ ex1_reach) as [H1 H2].
  split; [vm_compute; reflexivity|]. split; [exact H1|]. apply (H2 10 2 16 (seqZ 10 2)). by split_and!.
Defined.

(** When the front of a segment is there already, tcp_reass moves its start, but
    tcp_do_segment reports from the old one with the new length: of [4, 12) only
    [4, 10) is reported when [6, 12) comes behind [4, 8), although all was accepted. *)
Lemma sack_misses_tail :
  (ex_step ex1 6 6).2 = [blk Bytes.isn (4, 10)] /\
  (fun e => (tq_seq e, tq_len e)) <$> t_segq (ex_step ex1 6 6).1 = [(1, 4); (5, 4)].
Proof. vm_compute. by split. Qed.
