(* ===== verification/TcpHoles.v ===== *)
(** The SACK scoreboard of a sender (src/freebsd/netinet/tcp_sack.c): the queue of
    holes, tcp_sack_doack, tcp_sack_output, tcp_sack_adjust and tcp_free_sackholes.
    The two limits and the answers of the zone are parameters. *)
From stdpp Require Import base list.
From Stdlib Require Import ZArith Lia.
From S2P Require Import Prelude TcpReass TcpSack.

Local Open Scope Z_scope.

Definition SEQ_MIN (a b : Z) : Z := if SEQ_LT a b then a else b.
Definition SEQ_MAX (a b : Z) : Z := if SEQ_GT a b then a else b.
Definition TCP_MAX_SACK : nat := 4.

(** struct sackhole; [h_id] is its address. *)
Record sackhole := Hole { h_id : Z; h_start : Z; h_end : Z; h_rxmit : Z }.

(** The fields of struct tcpcb and of its hint that are used, the number of holes of
    all connections, the calls of the zone (which number the holes), and the
    counter of refused holes. *)
Record sndcb := Snd {
  snd_una : Z;
  snd_max : Z;
  snd_nxt : Z;
  snd_fack : Z;
  snd_holes : list sackhole;
  snd_numholes : Z;
  globalholes : Z;
  nexthole : option Z;
  sack_bytes_rexmit : Z;
  last_sack_ack : Z;
  sacked_bytes : Z;
  zcalls : Z;
  sboverflow : Z
}.

Definition with_holes (l : list sackhole) (tp : sndcb) : sndcb :=
  Snd (snd_una tp) (snd_max tp) (snd_nxt tp) (snd_fack tp) l (snd_numholes tp) (globalholes tp) (nexthole tp) (sack_bytes_rexmit tp)
    (last_sack_ack tp) (sacked_bytes tp) (zcalls tp) (sboverflow tp).
Definition with_fack (f : Z) (tp : sndcb) : sndcb :=
  Snd (snd_una tp) (snd_max tp) (snd_nxt tp) f (snd_holes tp) (snd_numholes tp) (globalholes tp) (nexthole tp) (sack_bytes_rexmit tp)
    (last_sack_ack tp) (sacked_bytes tp) (zcalls tp) (sboverflow tp).
Definition with_una (u : Z) (tp : sndcb) : sndcb :=
  Snd u (snd_max tp) (snd_nxt tp) (snd_fack tp) (snd_holes tp) (snd_numholes tp) (globalholes tp) (nexthole tp) (sack_bytes_rexmit tp)
    (last_sack_ack tp) (sacked_bytes tp) (zcalls tp) (sboverflow tp).
Definition with_max (m : Z) (tp : sndcb) : sndcb :=
  Snd (snd_una tp) m (snd_nxt tp) (snd_fack tp) (snd_holes tp) (snd_numholes tp) (globalholes tp) (nexthole tp) (sack_bytes_rexmit tp)
    (last_sack_ack tp) (sacked_bytes tp) (zcalls tp) (sboverflow tp).
Definition with_nxt (n : Z) (tp : sndcb) : sndcb :=
  Snd (snd_una tp) (snd_max tp) n (snd_fack tp) (snd_holes tp) (snd_numholes tp) (globalholes tp) (nexthole tp) (sack_bytes_rexmit tp)
    (last_sack_ack tp) (sacked_bytes tp) (zcalls tp) (sboverflow tp).
Definition with_count (n g z o : Z) (tp : sndcb) : sndcb :=
  Snd (snd_una tp) (snd_max tp) (snd_nxt tp) (snd_fack tp) (snd_holes tp) n g (nexthole tp) (sack_bytes_rexmit tp)
    (last_sack_ack tp) (sacked_bytes tp) z o.
Definition with_hint (h : option Z) (b : Z) (tp : sndcb) : sndcb :=
  Snd (snd_una tp) (snd_max tp) (snd_nxt tp) (snd_fack tp) (snd_holes tp) (snd_numholes tp) (globalholes tp) h b
    (last_sack_ack tp) (sacked_bytes tp) (zcalls tp) (sboverflow tp).
Definition with_report (ack bytes : Z) (tp : sndcb) : sndcb :=
  Snd (snd_una tp) (snd_max tp) (snd_nxt tp) (snd_fack tp) (snd_holes tp) (snd_numholes tp) (globalholes tp) (nexthole tp) (sack_bytes_rexmit tp)
    ack bytes (zcalls tp) (sboverflow tp).

Section scoreboard.
Context (maxholes globalmaxholes : Z) (zalloc : Z -> bool).

(** * Holes *)

Definition tcp_sackhole_alloc (tp : sndcb) (start fin : Z) : sndcb * option sackhole :=
  if (snd_numholes tp >=? maxholes) || (globalholes tp >=? globalmaxholes) then
    (with_count (snd_numholes tp) (globalholes tp) (zcalls tp) (sboverflow tp + 1) tp, None)
  else if zalloc (zcalls tp) then
    (with_count (snd_numholes tp + 1) (globalholes tp + 1) (zcalls tp + 1) (sboverflow tp) tp, Some (Hole (zcalls tp) start fin start))
  else (with_count (snd_numholes tp) (globalholes tp) (zcalls tp + 1) (sboverflow tp) tp, None).

Definition tcp_sackhole_free (tp : sndcb) : outcome sndcb :=
  let tp := with_count (snd_numholes tp - 1) (globalholes tp - 1) (zcalls tp) (sboverflow tp) tp in
  if (snd_numholes tp <? 0) || (globalholes tp <? 0) then Fault else Done tp.

(** The hint after an insertion. *)
Definition hint_insert (h : sackhole) (tp : sndcb) : sndcb :=
  match nexthole tp with None => with_hint (Some (h_id h)) (sack_bytes_rexmit tp) tp | Some _ => tp end.

(** The hint before a removal of [h], which [next] follows. *)
Definition hint_remove (h : sackhole) (next : list sackhole) (tp : sndcb) : sndcb :=
  match nexthole tp with
  | Some i => if i =? h_id h then with_hint (h_id <$> head next) (sack_bytes_rexmit tp) tp else tp
  | None => tp
  end.

Definition add_rexmit (n : Z) (tp : sndcb) : sndcb := with_hint (nexthole tp) (s32 (sack_bytes_rexmit tp + n)) tp.

(** * tcp_sack_doack *)

(** A block of the option that is valid. *)
Definition sack_valid (tp : sndcb) (th_ack : Z) (b : sackblk) : bool :=
  SEQ_GT b.2 b.1 && SEQ_GT b.1 (snd_una tp) && SEQ_GT b.1 th_ack && SEQ_LT b.1 (snd_max tp) &&
  SEQ_GT b.2 (snd_una tp) && SEQ_LEQ b.2 (snd_max tp).

(** The exchange sort by the ends. *)
Fixpoint blk_bubble (s : sackblk) (l : list sackblk) : sackblk * list sackblk :=
  match l with
  | [] => (s, [])
  | x :: r => if SEQ_GT s.2 x.2 then let '(s', r') := blk_bubble x r in (s', s :: r') else let '(s', r') := blk_bubble s r in (s', x :: r')
  end.

Fixpoint blk_sort (n : nat) (l : list sackblk) : list sackblk :=
  match n, l with
  | S n, s :: r => let '(s', r') := blk_bubble s r in s' :: blk_sort n r'
  | _, _ => l
  end.

(** The loop over the blocks [bl], the last one first, and the holes: [l] holds those up
    to cur, cur first, and [r] those behind it. *)
Fixpoint doack_loop (fuel : nat) (bl : list sackblk) (l r : list sackhole) (tp : sndcb) (changed : Z) : outcome (sndcb * Z) :=
  match bl, l with
  | b :: bs, cur :: lp =>
      match fuel with
      | O => Loop
      | S n =>
          if SEQ_GEQ b.1 (h_end cur) then doack_loop n bs l r tp changed
          else if SEQ_LEQ b.2 (h_start cur) then doack_loop n bl lp (cur :: r) tp changed
          else
            let tp := add_rexmit (- u32 (h_rxmit cur - h_start cur)) tp in
            if sack_bytes_rexmit tp <? 0 then Fault else
            if SEQ_LEQ b.1 (h_start cur) && SEQ_GEQ b.2 (h_end cur) then
              tp ← tcp_sackhole_free (hint_remove cur r tp);
              doack_loop n bl lp r tp 1
            else
              let '(cur, r, tp) :=
                if SEQ_LEQ b.1 (h_start cur) then
                  (Hole (h_id cur) b.2 (h_end cur) (SEQ_MAX (h_rxmit cur) b.2), r, tp)
                else if SEQ_GEQ b.2 (h_end cur) then
                  (Hole (h_id cur) (h_start cur) b.1 (SEQ_MIN (h_rxmit cur) b.1), r, tp)
                else
                  match tcp_sackhole_alloc tp b.2 (h_end cur) with
                  | (tp, Some t) =>
                      let tp := hint_insert t tp in
                      let '(t, tp) :=
                        if SEQ_GT (h_rxmit cur) (h_rxmit t) then
                          (Hole (h_id t) (h_start t) (h_end t) (h_rxmit cur), add_rexmit (u32 (h_rxmit cur - h_start t)) tp)
                        else (t, tp) in
                      (Hole (h_id cur) (h_start cur) b.1 (SEQ_MIN (h_rxmit cur) b.1), t :: r, tp)
                  | (tp, None) => (cur, r, tp)
                  end in
              let tp := add_rexmit (u32 (h_rxmit cur - h_start cur)) tp in
              if SEQ_LEQ b.1 (h_start cur) then doack_loop n bl lp (cur :: r) tp 1
              else doack_loop n bs (cur :: lp) r tp 1
      end
  | _, _ => Done (with_holes (rev l ++ r) tp, changed)
  end.

(** The blocks that are left when no hole could be added at the end. *)
Fixpoint skip_beyond (fack : Z) (bl : list sackblk) : list sackblk :=
  match bl with
  | b :: r => if SEQ_LT fack b.1 then skip_beyond fack r else bl
  | [] => []
  end.

(** The highest block [b] against snd_fack: a hole in front of it, or a new snd_fack,
    and the blocks for the loop. *)
Definition doack_tail (tp : sndcb) (b : sackblk) (bs : list sackblk) : sndcb * list sackblk * Z :=
  if SEQ_LT (snd_fack tp) b.1 then
    match tcp_sackhole_alloc tp (snd_fack tp) b.1 with
    | (tp, Some h) => (with_fack b.2 (hint_insert h (with_holes (snd_holes tp ++ [h]) tp)), bs, 1)
    | (tp, None) =>
        let bl := skip_beyond (snd_fack tp) (b :: bs) in
        (match bl with c :: _ => if SEQ_LT (snd_fack tp) c.2 then with_fack c.2 tp else tp | [] => tp end, bl, 0)
    end
  else if SEQ_LT (snd_fack tp) b.2 then (with_fack b.2 tp, b :: bs, 1)
  else (tp, b :: bs, 0).

(** From the sorted blocks, the last one first. *)
Definition doack_blocks (tp : sndcb) (th_ack : Z) (bl : list sackblk) : outcome (sndcb * Z) :=
  match bl with
  | [] => Done (tp, 0)
  | b :: bs =>
      let tp := match snd_holes tp with [] => with_fack (SEQ_MAX (snd_una tp) th_ack) tp | _ => tp end in
      let '(tp, bl, changed) := doack_tail (with_report b.2 (sacked_bytes tp) tp) b bs in
      doack_loop (length bl + length (snd_holes tp)) bl (rev (snd_holes tp)) [] tp changed
  end.

(** [sacks]: the blocks of the option, [None] without TOF_SACK; more than TCP_MAX_SACK
    do not fit the option.  The assertion that the scoreboard is not empty is not
    compiled in. *)
Definition tcp_sack_doack (tp : sndcb) (sacks : option (list sackblk)) (th_ack : Z) : outcome (sndcb * Z) :=
  let first := if SEQ_LT (snd_una tp) th_ack && match snd_holes tp with [] => false | _ => true end then [(snd_una tp, th_ack)] else [] in
  let '(tp, blocks) :=
    match sacks with
    | Some l =>
        let v := List.filter (sack_valid tp th_ack) l in
        (with_report (last_sack_ack tp) (foldl (fun n b => s32 (n + u32 (b.2 - b.1))) 0 v) tp, first ++ v)
    | None => (tp, first)
    end in
  if (S TCP_MAX_SACK <? length blocks)%nat then Fault else
  doack_blocks tp th_ack (rev (blk_sort (length blocks) blocks)).

(** * Output, adjustment, release *)

(** The loop of tcp_sack_output: the holes behind the hint. *)
Fixpoint next_rexmit (l : list sackhole) : option sackhole :=
  match l with h :: r => if SEQ_LT (h_rxmit h) (h_end h) then Some h else next_rexmit r | [] => None end.

(** The holes from the one at [i]; a pointer to no hole is a [Fault]. *)
Fixpoint holes_from (i : Z) (l : list sackhole) : outcome (sackhole * list sackhole) :=
  match l with h :: r => if h_id h =? i then Done (h, r) else holes_from i r | [] => Fault end.

Definition tcp_sack_output (tp : sndcb) : outcome (sndcb * option sackhole * Z) :=
  match nexthole tp with
  | None => Done (tp, None, sack_bytes_rexmit tp)
  | Some i =>
      x ← holes_from i (snd_holes tp);
      let '(h, r) := x in
      if SEQ_LT (h_rxmit h) (h_end h) then Done (tp, Some h, sack_bytes_rexmit tp)
      else match next_rexmit r with
           | Some h => Done (with_hint (Some (h_id h)) (sack_bytes_rexmit tp) tp, Some h, sack_bytes_rexmit tp)
           | None => Done (tp, None, sack_bytes_rexmit tp)
           end
  end.

(** The loop of tcp_sack_adjust from [cur]. *)
Fixpoint adjust_loop (nxt fack : Z) (cur : sackhole) (l : list sackhole) : Z :=
  if SEQ_LT nxt (h_end cur) then nxt else
  match l with
  | p :: r => if SEQ_GEQ nxt (h_start p) then adjust_loop nxt fack p r else h_start p
  | [] => fack
  end.

Definition tcp_sack_adjust (tp : sndcb) : sndcb :=
  match snd_holes tp with
  | [] => tp
  | cur :: r => if SEQ_GEQ (snd_nxt tp) (snd_fack tp) then tp else with_nxt (adjust_loop (snd_nxt tp) (snd_fack tp) cur r) tp
  end.

(** * Retransmission in tcp_output *)

(** The congestion window that is left: min is of u_int, so the difference is, too. *)
Definition sack_cwin (wnd cwnd rexmt : Z) : Z :=
  let cwin := u32 (Z.min (u32 wnd) (u32 cwnd) - rexmt) in
  if cwin <? 0 then 0 else cwin.

(** The hole to send from, and the length; the assertion on the offset. *)
Definition sack_pick (tp : sndcb) (wnd cwnd recover : Z) : outcome (sndcb * option (sackhole * Z)) :=
  x ← tcp_sack_output tp;
  match x with
  | (tp, None, _) => Done (tp, None)
  | (tp, Some p, rexmt) =>
      let cwin := sack_cwin wnd cwnd rexmt in
      if SEQ_GT (h_end p) recover && SEQ_GEQ (h_rxmit p) recover then Done (tp, None) else
      let len := Z.min cwin (if SEQ_GT (h_end p) recover then u32 (recover - h_rxmit p) else u32 (h_end p - h_rxmit p)) in
      if s32 (h_rxmit p - snd_una tp) <? 0 then Fault else Done (tp, Some (p, len))
  end.

Fixpoint set_rxmit (i len : Z) (l : list sackhole) : outcome (list sackhole) :=
  match l with
  | [] => Fault
  | h :: r =>
      if h_id h =? i then Done (Hole (h_id h) (h_start h) (h_end h) (u32 (h_rxmit h + len)) :: r)
      else r ← set_rxmit i len r; Done (h :: r)
  end.

(** [len] bytes of the hole at [i] are sent; the second undoes it when the output failed. *)
Definition sack_sent (i len : Z) (tp : sndcb) : outcome sndcb :=
  l ← set_rxmit i len (snd_holes tp);
  Done (with_holes l (add_rexmit len tp)).

Definition sack_unsent (i len : Z) (tp : sndcb) : outcome sndcb :=
  l ← set_rxmit i (- len) (snd_holes tp);
  let tp := with_holes l (add_rexmit (- len) tp) in
  if sack_bytes_rexmit tp <? 0 then Fault else Done tp.

Fixpoint free_loop (l : list sackhole) (tp : sndcb) : outcome sndcb :=
  match l with
  | [] => Done (with_holes [] tp)
  | h :: r => tp ← tcp_sackhole_free (hint_remove h r tp); free_loop r tp
  end.

(** With its two assertions. *)
Definition tcp_free_sackholes (tp : sndcb) : outcome sndcb :=
  tp ← free_loop (snd_holes tp) tp;
  let tp := with_hint (nexthole tp) 0 tp in
  if (snd_numholes tp =? 0) && match nexthole tp with None => true | Some _ => false end then Done tp else Fault.
End scoreboard.
