(* ===== verification/TcpHolesSpec.v ===== *)
(** The scoreboard of TcpHoles over positions of the stream: the holes are ordered
    intervals, and tcp_sack_doack takes the blocks of the peer away from them. *)
From stdpp Require Import base list.
From Stdlib Require Import ZArith Lia Sorting.
From S2P Require Import Prelude TcpReass TcpReassSpec TcpSack TcpHoles.

Local Open Scope Z_scope.

(** * Holes as intervals *)

(** Ordered holes between two positions; what was retransmitted of each is its front. *)
Fixpoint holes_ok (lo hi : Z) (hs : list sackhole) : Prop :=
  match hs with
  | [] => lo <= hi
  | h :: r => lo <= h_start h /\ h_start h < h_end h /\ h_start h <= h_rxmit h <= h_end h /\ holes_ok (h_end h) hi r
  end.

Definition in_hole (h : sackhole) (x : Z) : Prop := h_start h <= x < h_end h.

Fixpoint cover (hs : list sackhole) (x : Z) : Prop :=
  match hs with [] => False | h :: r => in_hole h x \/ cover r x end.

(** The bytes that were retransmitted. *)
Fixpoint rexmitted (hs : list sackhole) : Z :=
  match hs with [] => 0 | h :: r => (h_rxmit h - h_start h) + rexmitted r end.

Lemma holes_ok_le lo hi hs : holes_ok lo hi hs -> lo <= hi.
Proof. revert lo; induction hs as [|h hs IH]; simpl; intros lo; [done|]. intros (H1 & H2 & H3 & H4). apply IH in H4. lia. Qed.

Lemma holes_ok_weaken lo lo' hi hi' hs : holes_ok lo hi hs -> lo' <= lo -> hi <= hi' -> holes_ok lo' hi' hs.
Proof.
  revert lo lo'; induction hs as [|h hs IH]; simpl; intros lo lo'; [lia|]. intros (H1 & H2 & H3 & H4) Hl Hh. split_and!; try lia. by eapply IH; [| |].
Qed.

Lemma holes_ok_app lo hi a b : holes_ok lo hi (a ++ b) <-> exists m, holes_ok lo m a /\ holes_ok m hi b.
Proof.
  revert lo; induction a as [|h a IH]; intros lo; simpl.
  - split; [intros H; exists lo; split; [lia|done]|]. intros (m & H1 & H2). by eapply holes_ok_weaken.
  - rewrite IH. split; [intros (? & ? & ? & m & ? & ?); by exists m|]. intros (m & (? & ? & ? & ?) & ?). split_and!; try done; try lia. by exists m.
Qed.

Lemma cover_app a b x : cover (a ++ b) x <-> cover a x \/ cover b x.
Proof. induction a as [|h a IH]; simpl; [tauto|]. rewrite IH. tauto. Qed.

Lemma rexmitted_app a b : rexmitted (a ++ b) = rexmitted a + rexmitted b.
Proof. induction a as [|h a IH]; simpl; [done|]. rewrite IH. lia. Qed.

Lemma cover_range lo hi hs x : holes_ok lo hi hs -> cover hs x -> lo <= x < hi.
Proof.
  revert lo; induction hs as [|h hs IH]; simpl; intros lo; [done|]. intros (H1 & H2 & H3 & H4) [Hx|Hx].
  - unfold in_hole in Hx. pose proof (holes_ok_le _ _ _ H4). lia.
  - pose proof (IH _ H4 Hx). lia.
Qed.

Lemma rexmitted_range lo hi hs : holes_ok lo hi hs -> 0 <= rexmitted hs <= hi - lo.
Proof. revert lo; induction hs as [|h hs IH]; simpl; intros lo; [lia|]. intros (H1 & H2 & H3 & H4). pose proof (IH _ H4). lia. Qed.

(** A hole is replaced by what is left of it. *)
Lemma holes_ok_replace lo hi a h b mid :
  holes_ok lo hi (a ++ h :: b) -> holes_ok (h_start h) (h_end h) mid -> holes_ok lo hi (a ++ mid ++ b).
Proof.
  rewrite !holes_ok_app. intros (m & Ha & Hb) Hm. simpl in Hb. destruct Hb as (H1 & H2 & H3 & H4). exists m. split; [done|].
  apply holes_ok_app. exists (h_end h). split; [|done]. by eapply holes_ok_weaken; [| |done].
Qed.

(** Where the holes beside one hole are. *)
Lemma holes_sides lo hi a h b x : holes_ok lo hi (a ++ h :: b) ->
  lo <= h_start h /\ h_start h < h_end h <= hi /\ h_start h <= h_rxmit h <= h_end h /\
  (cover a x -> x < h_start h) /\ (cover b x -> h_end h <= x).
Proof.
  rewrite holes_ok_app. intros (m & Ha & H1 & H2 & H3 & H4). pose proof (holes_ok_le _ _ _ Ha). pose proof (holes_ok_le _ _ _ H4).
  split; [lia|]. split; [lia|]. split; [lia|]. split; intros Hx; [apply (cover_range _ _ _ _ Ha) in Hx|apply (cover_range _ _ _ _ H4) in Hx]; lia.
Qed.

(** The hint is not behind a hole that has bytes to retransmit. *)
Fixpoint hinted (o : option Z) (hs : list sackhole) : Prop :=
  match hs with
  | [] => True
  | h :: r => (h_rxmit h < h_end h -> exists i, o = Some i /\ i ∉ h_id <$> r) /\ hinted o r
  end.

(** One hole is replaced by others. *)
Lemma hinted_replace o o' a h mid b :
  hinted o (a ++ h :: b) -> hinted o' (mid ++ b) ->
  (forall i, o = Some i -> i <> h_id h -> i ∉ h_id <$> b -> o' = Some i /\ i ∉ h_id <$> mid) ->
  hinted o' (a ++ mid ++ b).
Proof.
  intros H Hm Hi. induction a as [|x a IH]; [done|]. destruct H as [H1 H2]. split; [|by apply IH].
  intros Hx. destruct (H1 Hx) as (i & -> & Hn). rewrite fmap_app in Hn. apply not_elem_of_app in Hn as [Ha [Hh Hb]%not_elem_of_cons].
  destruct (Hi i eq_refl Hh Hb) as [-> Hm']. exists i. split; [done|]. rewrite !fmap_app, !not_elem_of_app. done.
Qed.

Lemma hinted_app_r o a b : hinted o (a ++ b) -> hinted o b.
Proof. induction a as [|x a IH]; [done|]. intros [_ H]. by apply IH. Qed.

Lemma hinted_trim o a h k b : hinted o (a ++ h :: b) -> h_id k = h_id h -> (h_rxmit k < h_end k -> h_rxmit h < h_end h) -> hinted o (a ++ k :: b).
Proof.
  intros H Hid Hf. apply (hinted_replace o o a h [k] b); [done| |].
  - apply hinted_app_r in H as [H1 H2]. split; [|done]. auto.
  - intros i -> Hi _. split; [done|]. by apply not_elem_of_cons; rewrite Hid; split; [|apply not_elem_of_nil].
Qed.

(** The hole of the hint is removed: the hint goes to the next one. *)
Lemma hinted_remove o a h b : hinted o (a ++ h :: b) -> NoDup (h_id <$> b) ->
  hinted (match o with Some i => if i =? h_id h then h_id <$> head b else o | None => None end) (a ++ b).
Proof.
  intros H Hd. apply (hinted_replace o _ a h [] b); [done| |].
  - apply hinted_app_r in H as [_ H]. simpl. destruct o as [i|]; [|done]. destruct (Z.eqb_spec i (h_id h)); [|done].
    destruct b as [|y b]; [done|]. simpl in Hd |- *. apply NoDup_cons in Hd as [Hy _]. split; [by exists (h_id y)|].
    destruct H as [_ H]. clear -H Hy. induction b as [|z b IH]; [done|]. apply not_elem_of_cons in Hy as [_ Hy].
    destruct H as [_ H]. split; [by exists (h_id y)|]. by apply IH.
  - intros i -> Hi _. destruct (Z.eqb_spec i (h_id h)); [done|]. split; [done|]. apply not_elem_of_nil.
Qed.

(** A hole is split, or one is put behind the last. *)
Lemma hinted_split o a h c t b : hinted o (a ++ h :: b) -> (forall i, o = Some i -> i <> h_id t) ->
  h_id c = h_id h -> (h_rxmit c < h_end c -> h_rxmit h < h_end h) -> (h_rxmit t < h_end t -> h_rxmit h < h_end h) ->
  hinted (match o with None => Some (h_id t) | Some j => Some j end) (a ++ [c; t] ++ b).
Proof.
  intros H Hn Hid Hc Ht. assert (Hw : forall l, hinted o l -> hinted (match o with None => Some (h_id t) | Some j => Some j end) l).
  { destruct o; [done|]. intros l. induction l as [|x l IH]; [done|]. intros [H1 H2]. split; [|by apply IH]. intros Hx. by destruct (H1 Hx) as (i & ? & _). }
  apply (hinted_replace o _ a h [c; t] b); [done| |].
  - apply hinted_app_r in H as [H1 H2]. simpl. split_and!; [| |by apply Hw].
    + intros Hx. destruct (H1 (Hc Hx)) as (i & -> & Hi). exists i. split; [done|]. apply not_elem_of_cons. split; [by apply Hn|done].
    + intros Hx. destruct (H1 (Ht Hx)) as (i & -> & Hi). by exists i.
  - intros i -> Hi _. split; [done|]. simpl. rewrite !not_elem_of_cons, Hid. split_and!; [done|by apply Hn|apply not_elem_of_nil].
Qed.

(** [b] lies inside a hole. *)
Definition inner (b : Z * Z) (hs : list sackhole) : Prop := Exists (fun h => h_start h < b.1 /\ b.2 < h_end h) hs.

Section board.
Context (maxholes globalmaxholes : Z) (zalloc : Z -> bool) (iss : Z).

Definition sqh (h : sackhole) : sackhole := Hole (h_id h) (sq iss (h_start h)) (sq iss (h_end h)) (sq iss (h_rxmit h)).

(** The counters and the hint agree with the addresses of the holes. *)
Record counts (tp : sndcb) (ids : list Z) : Prop := {
  ct_num : snd_numholes tp = Z.of_nat (length ids);
  ct_global : snd_numholes tp <= globalholes tp;
  ct_nodup : NoDup ids;
  ct_ids : Forall (fun i => i < zcalls tp) ids;
  ct_hint : match nexthole tp with Some i => i ∈ ids | None => True end
}.

Definition board (tp : sndcb) (hs : list sackhole) : Prop :=
  counts tp (h_id <$> hs) /\ sack_bytes_rexmit tp = rexmitted hs /\ hinted (nexthole tp) hs.

(** There is room for a hole for each of [n] blocks. *)
Definition enough (tp : sndcb) (n : nat) : Prop :=
  (forall i, zalloc i = true) /\ snd_numholes tp + Z.of_nat n <= maxholes /\ globalholes tp + Z.of_nat n <= globalmaxholes.

(** The fields that the loop does not change. *)
Definition same_snd (tp tp' : sndcb) : Prop :=
  snd_una tp' = snd_una tp /\ snd_max tp' = snd_max tp /\ snd_nxt tp' = snd_nxt tp /\ snd_fack tp' = snd_fack tp /\ last_sack_ack tp' = last_sack_ack tp /\ sacked_bytes tp' = sacked_bytes tp.

Lemma same_trans a b c : same_snd a b -> same_snd b c -> same_snd a c.
Proof. unfold same_snd. intuition congruence. Qed.

(** What the blocks [bs] do to the holes [hs]: nothing is invented, nothing is lost
    that no block has, and a block stays covered only inside of one hole, when no
    hole could be allocated. *)
Record shrunk (hs : list sackhole) (bs : list (Z * Z)) (tp : sndcb) (res : list sackhole) : Prop := {
  tk_sub x : cover res x -> cover hs x;
  tk_keep x : cover hs x -> (forall b, b ∈ bs -> ~ within b x) -> cover res x;
  tk_drop x b : cover res x -> b ∈ bs -> within b x -> inner b hs /\ ~ enough tp (length bs);
  tk_inner b : inner b res -> inner b hs
}.

(** One step of the loop, and the rest. *)
Lemma shrunk_step hs bs tp hs' bs' tp' res :
  (forall x, cover hs' x -> cover hs x) -> (forall x, cover hs x -> (forall b, b ∈ bs -> ~ within b x) -> cover hs' x) ->
  (forall b, inner b hs' -> inner b hs) -> (forall b, b ∈ bs' -> b ∈ bs) ->
  (forall b x, b ∈ bs -> b ∈ bs' \/ (cover hs' x -> within b x -> inner b hs /\ ~ enough tp (length bs))) ->
  (enough tp (length bs) -> enough tp' (length bs')) ->
  shrunk hs' bs' tp' res -> shrunk hs bs tp res.
Proof.
  intros H1 H2 H3 H4 H5 H6 [T1 T2 T3 T4]. constructor.
  - intros x Hx. auto.
  - intros x Hx Hb. apply T2; auto.
  - intros x b Hx Hb Hw. destruct (H5 b x Hb) as [Hb'|Hd]; [|auto]. destruct (T3 x b Hx Hb' Hw) as [Hi Hn]. split; auto.
  - intros b Hb. auto.
Qed.

(** [mid] is what the first block leaves of the hole [cur]. *)
Record left_of (b : Z * Z) (cur : sackhole) (mid : list sackhole) : Prop := {
  lf_ok : holes_ok (h_start cur) (h_end cur) mid;
  lf_keep x : in_hole cur x -> ~ within b x -> cover mid x;
  lf_inner : forall c, inner c mid -> h_start cur < c.1 /\ c.2 < h_end cur
}.

Lemma left_cover lo hi a cur r b mid : holes_ok lo hi (a ++ cur :: r) -> left_of b cur mid ->
  (forall x, cover (a ++ mid ++ r) x -> cover (a ++ cur :: r) x) /\
  (forall x bs, cover (a ++ cur :: r) x -> (forall c, c ∈ b :: bs -> ~ within c x) -> cover (a ++ mid ++ r) x) /\
  (forall c, inner c (a ++ mid ++ r) -> inner c (a ++ cur :: r)).
Proof.
  intros Hok [L1 L2 L3]. split_and!.
  - intros x. rewrite !cover_app. simpl. intros [H|[H|H]]; [tauto| |tauto]. right. left. apply (cover_range _ _ _ _ L1) in H. done.
  - intros x bs. rewrite !cover_app. simpl. intros [H|[H|H]] Hb; [tauto| |tauto]. right. left. apply L2; [done|]. apply Hb. by left.
  - intros c. unfold inner. rewrite !Exists_app, Exists_cons. intros [H|[H|H]]; [tauto| |tauto]. right. left. by apply L3.
Qed.

(** * Counters *)

Lemma sq_sub a b : 0 <= a - b < 4294967296 -> u32 (sq iss a - sq iss b) = a - b.
Proof.
  intros H. unfold sq, wrapu. rewrite <- Zminus_mod. replace (iss + a - (iss + b)) with (a - b) by lia. by apply Z.mod_small.
Qed.

Lemma rexmit_add n tp : 0 <= sack_bytes_rexmit tp + n < 2147483648 ->
  sack_bytes_rexmit (add_rexmit n tp) = sack_bytes_rexmit tp + n.
Proof. intros H. simpl. apply s32_near. change (2 ^ 31) with 2147483648. lia. Qed.

Lemma counts_remove tp a h r : counts tp ((h_id <$> a) ++ h_id h :: (h_id <$> r)) ->
  exists tp', tcp_sackhole_free (hint_remove (sqh h) (sqh <$> r) tp) = Done tp' /\ counts tp' (h_id <$> (a ++ r)) /\
    sack_bytes_rexmit tp' = sack_bytes_rexmit tp /\ same_snd tp tp' /\ (forall n, enough tp n -> enough tp' n) /\
    (hinted (nexthole tp) (a ++ h :: r) -> hinted (nexthole tp') (a ++ r)).
Proof.
  intros [C1 C2 C3 C4 C5]. set (tp1 := hint_remove (sqh h) (sqh <$> r) tp).
  assert (F : snd_numholes tp1 = snd_numholes tp /\ globalholes tp1 = globalholes tp /\ zcalls tp1 = zcalls tp /\
    sack_bytes_rexmit tp1 = sack_bytes_rexmit tp /\ same_snd tp tp1 /\ match nexthole tp1 with Some i => i ∈ h_id <$> (a ++ r) | None => True end /\
    nexthole tp1 = match nexthole tp with Some i => if i =? h_id h then h_id <$> head r else nexthole tp | None => None end).
  { subst tp1. unfold hint_remove. destruct (nexthole tp) as [i|] eqn:En; [|by rewrite En].
    change (h_id (sqh h)) with (h_id h). destruct (Z.eqb_spec i (h_id h)) as [->|Hi].
    - simpl. split_and!; try done; destruct r as [|y r]; try done. simpl. rewrite fmap_app, elem_of_app. right. by left.
    - rewrite En. split_and!; try done. rewrite fmap_app, elem_of_app. apply elem_of_app in C5 as [?|[?|?]%elem_of_cons]; [by left|done|by right]. }
  destruct F as (F1 & F2 & F3 & F4 & F5 & F6 & F7). rewrite length_app in C1. cbn [length] in C1. unfold tcp_sackhole_free.
  cbn [snd_numholes globalholes with_count]. rewrite F1, F2. destruct (Z.ltb_spec (snd_numholes tp - 1) 0); [lia|]. destruct (Z.ltb_spec (globalholes tp - 1) 0); [lia|]. cbn [orb].
  eexists. split; [done|]. split_and!; try done.
  - rewrite fmap_app. constructor; simpl; rewrite ?length_app; try lia.
    + rewrite <- Permutation_middle in C3. by apply NoDup_cons in C3 as [_ ?].
    + rewrite F3. apply Forall_app in C4 as [? [_ ?]%Forall_cons]. by apply Forall_app.
    + by rewrite <- fmap_app.
  - intros n (E1 & E2 & E3). split; [done|]. simpl. lia.
  - intros Hh. cbn [nexthole with_count]. rewrite F7. destruct (nexthole tp); apply hinted_remove with (h := h) in Hh; try done;
      rewrite <- Permutation_middle in C3; apply NoDup_cons in C3 as [_ C3]; by apply NoDup_app in C3 as (_ & _ & ?).
Qed.

Lemma counts_alloc tp a r s e n : counts tp ((h_id <$> a) ++ (h_id <$> r)) ->
  match tcp_sackhole_alloc maxholes globalmaxholes zalloc tp s e with
  | (tp', Some t) => t = Hole (zcalls tp) s e s /\ counts (hint_insert t tp') ((h_id <$> a) ++ h_id t :: (h_id <$> r)) /\
      sack_bytes_rexmit (hint_insert t tp') = sack_bytes_rexmit tp /\ same_snd tp (hint_insert t tp') /\
      (enough tp (S n) -> enough (hint_insert t tp') n) /\
      nexthole (hint_insert t tp') = match nexthole tp with None => Some (h_id t) | Some j => Some j end /\ (forall i, nexthole tp = Some i -> i <> h_id t)
  | (tp', None) => ~ enough tp (S n) /\ counts tp' ((h_id <$> a) ++ (h_id <$> r)) /\
      sack_bytes_rexmit tp' = sack_bytes_rexmit tp /\ same_snd tp tp' /\ nexthole tp' = nexthole tp
  end.
Proof.
  intros [C1 C2 C3 C4 C5]. unfold tcp_sackhole_alloc.
  destruct ((snd_numholes tp >=? maxholes) || (globalholes tp >=? globalmaxholes)) eqn:El.
  { split; [|by split_and!]. intros (_ & E2 & E3). apply orb_true_iff in El as [?|?]; lia. }
  destruct (zalloc (zcalls tp)) eqn:Ez.
  - split; [done|]. set (tp1 := with_count _ _ _ _ tp). unfold hint_insert.
    assert (Hp : h_id <$> a ++ r = (h_id <$> a) ++ (h_id <$> r)) by apply fmap_app.
    assert (G : counts tp1 ((h_id <$> a) ++ zcalls tp :: (h_id <$> r))).
    { constructor; simpl.
      - rewrite C1, !length_app. cbn. lia.
      - lia.
      - rewrite <- Permutation_middle. apply NoDup_cons. split; [|done]. intros Hin.
        rewrite Forall_forall in C4. specialize (C4 _ Hin). lia.
      - apply Forall_app in C4 as [H1 H2]. apply Forall_app. split; [eapply Forall_impl; [exact H1|]; simpl; lia|].
        constructor; [lia|]. eapply Forall_impl; [exact H2|]. simpl. lia.
      - destruct (nexthole tp); [|done]. apply elem_of_app in C5 as [?|?]; apply elem_of_app; [by left|right; by right]. }
    change (nexthole tp1) with (nexthole tp). destruct (nexthole tp) as [i|] eqn:En.
    + split_and!; try done; [intros (E1 & E2 & E3); split; [done|]; simpl; lia|]. intros j [= <-]. simpl.
      rewrite Forall_forall in C4. pose proof (C4 i C5). simpl in *. lia.
    + split; [|split_and!; try done; intros (E1 & E2 & E3); split; [done|]; simpl; lia].
      destruct G as [G1 G2 G3 G4 G5]. constructor; try done. simpl. apply elem_of_app. right. by left.
  - split; [intros (E1 & _); by rewrite E1 in Ez|]. split_and!; try done. constructor; try done. simpl. eapply Forall_impl; [exact C4|]. simpl. lia.
Qed.

(** * The loop *)

Lemma sq_max a b : -2147483648 <= a - b < 2147483648 -> SEQ_MAX (sq iss a) (sq iss b) = sq iss (Z.max a b).
Proof. intros H. unfold SEQ_MAX. rewrite sq_gt by done. destruct (Z.ltb_spec b a); f_equal; lia. Qed.

Lemma sq_min a b : -2147483648 <= a - b < 2147483648 -> SEQ_MIN (sq iss a) (sq iss b) = sq iss (Z.min a b).
Proof. intros H. unfold SEQ_MIN. rewrite sq_lt by done. destruct (Z.ltb_spec a b); f_equal; lia. Qed.

Definition desc (bs : list (Z * Z)) : Prop := StronglySorted (fun x y => y.2 <= x.2) bs.

(** The state of the loop. *)
Record looping (lo hi : Z) (bs : list (Z * Z)) (l r : list sackhole) (tp : sndcb) : Prop := {
  lp_window : hi - lo < 2147483648;
  lp_ok : holes_ok lo hi (rev l ++ r);
  lp_board : board tp (rev l ++ r);
  lp_blocks : Forall (fun b => lo <= b.1 /\ b.1 < b.2 <= hi) bs;
  lp_desc : desc bs;
  lp_behind b h : b ∈ bs -> h ∈ r -> b.2 <= h_start h
}.

Definition loop_done (lo hi : Z) (bs : list (Z * Z)) (hs : list sackhole) (tp : sndcb) (x : outcome (sndcb * Z)) : Prop :=
  exists res tp' ch, x = Done (with_holes (sqh <$> res) tp', ch) /\ holes_ok lo hi res /\ board tp' res /\ same_snd tp tp' /\ shrunk hs bs tp res.

Lemma cover_behind (r : list sackhole) b x : (forall h, h ∈ r -> b.2 <= h_start h) -> cover r x -> ~ within b x.
Proof.
  induction r as [|h r IH]; simpl; [done|]. intros H [Hx|Hx]; [|apply IH; [intros h' Hh; apply H; by right|done]].
  pose proof (H h ltac:(by left)). unfold in_hole, within in *. lia.
Qed.

Lemma loop_end lo hi bs l r tp ch : looping lo hi bs l r tp -> bs = [] \/ l = [] ->
  loop_done lo hi bs (rev l ++ r) tp (Done (with_holes (rev (sqh <$> l) ++ (sqh <$> r)) tp, ch)).
Proof.
  intros [H1 H2 H3 H4 H5 H6] He. exists (rev l ++ r), tp, ch. split; [by rewrite fmap_app, !rev_alt, <- !reverse_rev || by rewrite fmap_app, map_rev|].
  split; [done|]. split; [done|]. split; [by split_and!|]. constructor; try done.
  intros x b Hx Hb Hw. destruct He as [->| ->]; [by apply not_elem_of_nil in Hb|]. simpl in Hx. destruct (cover_behind r b x); [|done|done]. intros h Hh. by apply (H6 b h).
Qed.

(** The rest of the loop after one hole was replaced by [mid], with all blocks or
    without the first. *)
Lemma loop_mid lo hi b bs lp cur r mid tp tp' bs' x :
  looping lo hi (b :: bs) (cur :: lp) r tp -> left_of b cur mid -> same_snd tp tp' ->
  (bs' = b :: bs \/ bs' = bs) ->
  (bs' = bs -> forall y, cover (rev lp ++ mid ++ r) y -> within b y -> inner b [cur] /\ ~ enough tp (length (b :: bs))) ->
  (enough tp (length (b :: bs)) -> enough tp' (length bs')) ->
  loop_done lo hi bs' (rev lp ++ mid ++ r) tp' x -> loop_done lo hi (b :: bs) (rev (cur :: lp) ++ r) tp x.
Proof.
  intros [H1 H2 H3 H4 H5 H6] Hl Hs Hbs Hdrop Hen (res & tp2 & ch & -> & R1 & R2 & R3 & R4).
  exists res, tp2, ch. split; [done|]. split; [done|]. split; [done|]. split; [by eapply same_trans|].
  simpl in *. rewrite <- app_assoc in *. simpl in *. destruct (left_cover _ _ _ _ _ _ _ H2 Hl) as (L1 & L2 & L3).
  eapply shrunk_step; [exact L1|intros y; apply L2|exact L3| | | |exact R4].
  - destruct Hbs as [->| ->]; [done|]. intros c Hc. by right.
  - intros c y Hc. destruct Hbs as [->| ->]; [by left|]. apply elem_of_cons in Hc as [->|Hc]; [right|by left].
    intros Hy Hw. destruct (Hdrop eq_refl y Hy Hw) as [Hi Hn]. split; [|done]. unfold inner in *. rewrite Exists_app, Exists_cons. right. left. by apply Exists_cons in Hi as [?|[]%Exists_nil].
  - done.
Qed.

(** ** What is left of a hole *)

Ltac left_tac := constructor; [simpl; lia|let z := fresh in intros z; simpl; unfold in_hole, within; simpl; intros; lia|
  let c := fresh in let Hc := fresh in intros c Hc; unfold inner in Hc; repeat (apply Exists_cons in Hc as [Hc|Hc]; [simpl in *; lia|]); by apply Exists_nil in Hc].

Lemma left_all b cur : h_start cur < h_end cur -> h_start cur <= h_rxmit cur <= h_end cur -> left_of b cur [cur].
Proof.
  intros H1 H2. constructor; [simpl; lia|intros x Hx _; by left|]. intros c Hc. unfold inner in Hc. by apply Exists_cons in Hc as [?|[]%Exists_nil].
Qed.

Lemma left_none b cur : h_start cur < h_end cur -> b.1 <= h_start cur -> h_end cur <= b.2 -> left_of b cur [].
Proof. intros. left_tac. Qed.

Lemma left_front b cur i x : b.1 <= h_start cur -> h_start cur < b.2 < h_end cur -> b.2 <= x <= h_end cur -> left_of b cur [Hole i b.2 (h_end cur) x].
Proof. intros. left_tac. Qed.

Lemma left_back b cur i x : h_start cur < b.1 < h_end cur -> h_end cur <= b.2 -> h_start cur <= x <= b.1 -> left_of b cur [Hole i (h_start cur) b.1 x].
Proof. intros. left_tac. Qed.

Lemma left_split b cur i j x y : h_start cur < b.1 -> b.1 < b.2 -> b.2 < h_end cur -> h_start cur <= x <= b.1 -> b.2 <= y <= h_end cur ->
  left_of b cur [Hole i (h_start cur) b.1 x; Hole j b.2 (h_end cur) y].
Proof. intros. left_tac. Qed.

(** The loop goes on behind [mid], the last of which may be cur again. *)
Lemma looping_mid lo hi b bs lp cur r mid tp tp' l' r' bs' :
  looping lo hi (b :: bs) (cur :: lp) r tp -> left_of b cur mid -> rev l' ++ r' = rev lp ++ mid ++ r ->
  board tp' (rev lp ++ mid ++ r) -> (bs' = b :: bs \/ bs' = bs) -> (forall c h, c ∈ bs' -> h ∈ r' -> h ∈ r \/ c.2 <= h_start h) ->
  looping lo hi bs' l' r' tp'.
Proof.
  intros [H1 H2 H3 H4 H5 H6] [L1 _ _] E Hb Hbs Hr. simpl in H2. rewrite <- app_assoc in H2.
  assert (Hin : forall c, c ∈ bs' -> c ∈ b :: bs) by (destruct Hbs as [->| ->]; [done|intros c Hc; by right]).
  constructor; try done; rewrite ?E; try done.
  - by eapply holes_ok_replace.
  - destruct Hbs as [->| ->]; [done|]. by apply Forall_cons in H4 as [_ ?].
  - destruct Hbs as [->| ->]; [done|]. by apply StronglySorted_inv in H5 as [? _].
  - intros c h Hc Hh. destruct (Hr c h Hc Hh); [|done]. apply H6; auto.
Qed.

(** The ends of the blocks. *)
Lemma desc_head b bs c : desc (b :: bs) -> c ∈ b :: bs -> c.2 <= b.2.
Proof. intros H [->|Hc]%elem_of_cons; [lia|]. apply StronglySorted_inv in H as [_ H]. rewrite Forall_forall in H. by apply H. Qed.

(** The sum without the hole. *)
Lemma board_less lo hi a h r tp : hi - lo < 2147483648 -> holes_ok lo hi (a ++ h :: r) -> board tp (a ++ h :: r) ->
  let tp1 := add_rexmit (- u32 (sq iss (h_rxmit h) - sq iss (h_start h))) tp in
  sack_bytes_rexmit tp1 = rexmitted a + rexmitted r /\ 0 <= sack_bytes_rexmit tp1 /\ counts tp1 (h_id <$> (a ++ h :: r)) /\ same_snd tp tp1 /\
  rexmitted a + rexmitted r + (h_end h - h_start h) < 2147483648 /\ (forall n, enough tp n -> enough tp1 n) /\ hinted (nexthole tp1) (a ++ h :: r).
Proof.
  intros Hw Hok (C & E & Hh). pose proof Hok as Hok'. apply holes_ok_app in Hok' as (m & Ha & H1 & H2 & H3 & H4).
  pose proof (rexmitted_range _ _ _ Ha). pose proof (rexmitted_range _ _ _ H4). cbn zeta. rewrite sq_sub by lia.
  rewrite rexmitted_app in E. simpl in E. rewrite rexmit_add by lia. split_and!; try lia; try done. by destruct C.
Qed.

Lemma enough_le tp n m : (m <= n)%nat -> enough tp n -> enough tp m.
Proof. intros H (E1 & E2 & E3). split; [done|]. lia. Qed.

(** A block that was applied to [cur], and lies behind what is in front of it, is done. *)
Lemma block_done lo hi a cur r b mid y : holes_ok lo hi (a ++ cur :: r) -> h_start cur <= b.1 ->
  (forall z, cover mid z -> ~ within b z) -> (forall h, h ∈ r -> b.2 <= h_start h) -> cover (a ++ mid ++ r) y -> ~ within b y.
Proof.
  intros Hok Hb Hm Hr. rewrite !cover_app. intros [Hy|[Hy|Hy]]; [|by apply Hm|by eapply cover_behind].
  destruct (holes_sides _ _ _ _ _ y Hok) as (_ & _ & _ & H & _). apply H in Hy. unfold within. lia.
Qed.

(** The hole is trimmed or kept: the rest of the loop with the new [cur]. *)
Lemma loop_trim lo hi b bs lp cur r h tp tp1 bs' l' r' n :
  looping lo hi (b :: bs) (cur :: lp) r tp -> tp1 = add_rexmit (- u32 (sq iss (h_rxmit cur) - sq iss (h_start cur))) tp ->
  left_of b cur [h] -> h_id h = h_id cur -> (h_rxmit h < h_end h -> h_rxmit cur < h_end cur) ->
  (bs' = b :: bs /\ l' = lp /\ r' = h :: r /\ b.2 <= h_start h) \/
  (bs' = bs /\ l' = h :: lp /\ r' = r /\ h_start cur <= b.1 /\ forall z, cover [h] z -> ~ within b z) ->
  (forall tp2, looping lo hi bs' l' r' tp2 -> loop_done lo hi bs' (rev l' ++ r') tp2 (n tp2)) ->
  loop_done lo hi (b :: bs) (rev (cur :: lp) ++ r) tp (n (add_rexmit (u32 (sq iss (h_rxmit h) - sq iss (h_start h))) tp1)).
Proof.
  intros Hl -> Hlf Hid Hful Hcase Hn. pose proof Hl as [H1 H2 H3 H4 H5 H6]. simpl in H2, H3. rewrite <- app_assoc in H2, H3. simpl in H2, H3.
  destruct (board_less _ _ _ _ _ _ H1 H2 H3) as (B1 & B2 & B3 & B4 & B5 & B6 & B7). set (tp1 := add_rexmit (- _) tp) in *.
  pose proof (lf_ok _ _ _ Hlf) as (G1 & G2 & G3 & G4). simpl in G4.
  set (tp2 := add_rexmit (u32 (sq iss (h_rxmit h) - sq iss (h_start h))) tp1).
  assert (Hb2 : board tp2 (rev lp ++ [h] ++ r)).
  { split_and!.
    - rewrite fmap_app in B3 |- *. simpl in B3 |- *. rewrite Hid. by destruct B3.
    - subst tp2. rewrite sq_sub by lia. rewrite rexmit_add by lia. rewrite B1, !rexmitted_app. simpl. lia.
    - by apply (hinted_trim _ _ cur). }
  assert (Er : rev l' ++ r' = rev lp ++ [h] ++ r) by (destruct Hcase as [(_ & -> & -> & _)|(_ & -> & -> & _)]; simpl; by rewrite <- ?app_assoc).
  eapply (loop_mid lo hi b bs lp cur r [h] tp tp2 bs'); [done|done|done|naive_solver| | |].
  - intros -> y Hy Hw. destruct Hcase as [(E & _)|(_ & _ & _ & Hs & Hz)]; [by apply (f_equal length) in E; simpl in E; lia|].
    exfalso. eapply (block_done lo hi (rev lp) cur r b [h] y); try done. intros h' Hh. apply H6; [by left|done].
  - intros He. apply B6. eapply enough_le; [|exact He]. destruct Hcase as [(-> & _)|(-> & _)]; simpl; lia.
  - rewrite <- Er. apply Hn. eapply looping_mid; [done|done|done|exact Hb2|naive_solver|].
    intros c h' Hc Hh. destruct Hcase as [(-> & _ & -> & Hs)|(-> & _ & -> & _)]; [|by left].
    apply elem_of_cons in Hh as [->|Hh]; [right|by left]. pose proof (desc_head _ _ _ H5 Hc). lia.
Qed.

(** A block in the middle of a hole. *)
Lemma loop_split lo hi b bs lp cur r tp tp1 n :
  looping lo hi (b :: bs) (cur :: lp) r tp -> tp1 = add_rexmit (- u32 (sq iss (h_rxmit cur) - sq iss (h_start cur))) tp ->
  h_start cur < b.1 -> b.1 < b.2 -> b.2 < h_end cur ->
  (forall l' r' tp2, looping lo hi bs l' r' tp2 -> length l' = S (length lp) -> loop_done lo hi bs (rev l' ++ r') tp2 (n (sqh <$> l') (sqh <$> r') tp2)) ->
  loop_done lo hi (b :: bs) (rev (cur :: lp) ++ r) tp
    (let '(cur', r', tp') :=
       match tcp_sackhole_alloc maxholes globalmaxholes zalloc tp1 (sq iss b.2) (sq iss (h_end cur)) with
       | (tp, Some t) =>
           let tp := hint_insert t tp in
           let '(t, tp) :=
             if SEQ_GT (sq iss (h_rxmit cur)) (h_rxmit t) then
               (Hole (h_id t) (h_start t) (h_end t) (sq iss (h_rxmit cur)), add_rexmit (u32 (sq iss (h_rxmit cur) - h_start t)) tp)
             else (t, tp) in
           (Hole (h_id cur) (sq iss (h_start cur)) (sq iss b.1) (SEQ_MIN (sq iss (h_rxmit cur)) (sq iss b.1)), t :: (sqh <$> r), tp)
       | (tp, None) => (sqh cur, sqh <$> r, tp)
       end in
     n (cur' :: (sqh <$> lp)) r' (add_rexmit (u32 (h_rxmit cur' - h_start cur')) tp')).
Proof.
  intros Hl -> Hb1 Hb2 Hb3 Hn. pose proof Hl as [H1 H2 H3 H4 H5 H6]. simpl in H2, H3. rewrite <- app_assoc in H2, H3. simpl in H2, H3.
  destruct (board_less _ _ _ _ _ _ H1 H2 H3) as (B1 & B2 & B3 & B4 & B5 & B6 & B7). set (tp1 := add_rexmit (- _) tp) in *.
  destruct (holes_sides _ _ _ _ _ 0 H2) as (S1 & S2 & S3 & _). pose proof H4 as H4'. apply Forall_cons in H4' as [Hbb _].
  assert (C : counts tp1 ((h_id <$> (rev lp ++ [cur])) ++ (h_id <$> r))) by (rewrite fmap_app in B3 |- *; by rewrite <- app_assoc).
  pose proof (counts_alloc tp1 (rev lp ++ [cur]) r (sq iss b.2) (sq iss (h_end cur)) (length bs) C) as Hal.
  destruct (tcp_sackhole_alloc _ _ _ tp1 _ _) as [tpa [t|]].
  - destruct Hal as (-> & C2 & E2 & Sm2 & En2 & Nx2 & Fr2). simpl in C2. set (i := zcalls tp1) in *. cbn [h_rxmit h_start h_end h_id].
    set (tp2 := hint_insert _ tpa) in *. rewrite sq_gt, sq_min by lia.
    set (y := Z.max (h_rxmit cur) b.2). set (t := Hole i b.2 (h_end cur) y). set (c := Hole (h_id cur) (h_start cur) b.1 (Z.min (h_rxmit cur) b.1)).
    set (tp3 := if b.2 <? h_rxmit cur then add_rexmit (u32 (sq iss (h_rxmit cur) - sq iss b.2)) tp2 else tp2).
    assert (Et : (if b.2 <? h_rxmit cur then
                    (Hole i (sq iss b.2) (sq iss (h_end cur)) (sq iss (h_rxmit cur)), add_rexmit (u32 (sq iss (h_rxmit cur) - sq iss b.2)) tp2)
                  else (Hole i (sq iss b.2) (sq iss (h_end cur)) (sq iss b.2), tp2)) = (sqh t, tp3)).
    { subst t tp3 y. unfold sqh. simpl. destruct (Z.ltb_spec b.2 (h_rxmit cur)); do 3 f_equal; lia. }
    rewrite Et. change (Hole (h_id cur) (sq iss (h_start cur)) (sq iss b.1) (sq iss (Z.min (h_rxmit cur) b.1))) with (sqh c).
    change (sqh c :: (sqh <$> lp)) with (sqh <$> (c :: lp)). change (sqh t :: (sqh <$> r)) with (sqh <$> (t :: r)).
    assert (E3 : sack_bytes_rexmit tp3 = rexmitted (rev lp) + rexmitted r + (y - b.2) /\ counts tp3 (h_id <$> (rev lp ++ [c; t] ++ r)) /\
      same_snd tp tp3 /\ (enough tp (S (length bs)) -> enough tp3 (length bs)) /\ nexthole tp3 = nexthole tp2).
    { rewrite fmap_app in C2. simpl in C2. rewrite <- app_assoc in C2. rewrite fmap_app. simpl.
      assert (En3 : enough tp (S (length bs)) -> enough tp2 (length bs)) by auto. pose proof (same_trans _ _ _ B4 Sm2) as Sm3.
      subst tp3 y. destruct (Z.ltb_spec b.2 (h_rxmit cur)); [|split_and!; try done; rewrite E2, B1; lia].
      rewrite sq_sub, rexmit_add by lia. split_and!; try done; [rewrite E2, B1; lia|by destruct C2]. }
    destruct E3 as (E3 & C3 & Sm3 & En3 & Nx3). set (tp4 := add_rexmit _ tp3).
    assert (Hlf : left_of b cur [c; t]) by (apply left_split; [lia|lia|lia|lia|subst y; lia]).
    assert (Hb4 : board tp4 (rev lp ++ [c; t] ++ r)).
    { split; [by destruct C3|]. split.
      - subst tp4. simpl h_rxmit. simpl h_start. rewrite sq_sub by lia. rewrite rexmit_add by (subst y; lia).
        rewrite E3, !rexmitted_app. simpl. lia.
      - change (nexthole tp4) with (nexthole tp3). rewrite Nx3, Nx2.
        apply (hinted_split (nexthole tp1) _ cur c t); [done|by intros j Hj; apply Fr2|done|simpl; lia|subst y; simpl; lia]. }
    eapply (loop_mid lo hi b bs lp cur r [c; t] tp tp4 bs); [done|done|done|by right| |done|].
    + intros _ z Hz Hw. exfalso. eapply (block_done lo hi (rev lp) cur r b [c; t] z); try done; [lia| |intros h' Hh; apply H6; [by left|done]].
      intros u. simpl. unfold in_hole, within. simpl. lia.
    + assert (Er : rev (c :: lp) ++ t :: r = rev lp ++ [c; t] ++ r) by (simpl; by rewrite <- app_assoc).
      rewrite <- Er. apply Hn; [|done]. eapply looping_mid; [done|done|done|exact Hb4|by right|].
      intros d h' Hd [->|Hh]%elem_of_cons; [right|by left]. pose proof (desc_head _ _ d H5 ltac:(by right)). simpl. lia.
  - destruct Hal as (Hne & C2 & E2 & Sm2 & Nx2). set (tp4 := add_rexmit _ tpa). change (sqh cur :: (sqh <$> lp)) with (sqh <$> (cur :: lp)).
    assert (Hlf : left_of b cur [cur]) by (apply left_all; lia).
    assert (Hb4 : board tp4 (rev lp ++ [cur] ++ r)).
    { split; [rewrite fmap_app in C2 |- *; rewrite <- app_assoc in C2; by destruct C2|]. split.
      - subst tp4. simpl h_rxmit. simpl h_start. rewrite sq_sub by lia. rewrite rexmit_add by lia. rewrite E2, B1, !rexmitted_app. simpl. lia.
      - change (nexthole tp4) with (nexthole tpa). by rewrite Nx2. }
    eapply (loop_mid lo hi b bs lp cur r [cur] tp tp4 bs); [done|done|by eapply same_trans|by right| | |].
    + intros _ z _ _. split; [apply Exists_cons; left; simpl; lia|]. intros He. apply Hne. auto.
    + intros He. exfalso. apply Hne. auto.
    + assert (Er : rev (cur :: lp) ++ r = rev lp ++ [cur] ++ r) by (simpl; by rewrite <- app_assoc).
      rewrite <- Er. apply Hn; [|done]. eapply looping_mid; [done|done|done|exact Hb4|by right|]. intros d h' _ Hh. by left.
Qed.

(** A hole that the block covers. *)
Lemma loop_remove lo hi b bs lp cur r tp n :
  looping lo hi (b :: bs) (cur :: lp) r tp -> b.1 <= h_start cur -> h_end cur <= b.2 ->
  (forall tp2, looping lo hi (b :: bs) lp r tp2 -> loop_done lo hi (b :: bs) (rev lp ++ r) tp2 (n tp2)) ->
  loop_done lo hi (b :: bs) (rev (cur :: lp) ++ r) tp
    (tp2 ← tcp_sackhole_free (hint_remove (sqh cur) (sqh <$> r) (add_rexmit (- u32 (sq iss (h_rxmit cur) - sq iss (h_start cur))) tp)); n tp2).
Proof.
  intros Hl Hb1 Hb2 Hn. pose proof Hl as [H1 H2 H3 H4 H5 H6]. simpl in H2, H3. rewrite <- app_assoc in H2, H3. simpl in H2, H3.
  destruct (board_less _ _ _ _ _ _ H1 H2 H3) as (B1 & B2 & B3 & B4 & B5 & B6 & B7). set (tp1 := add_rexmit (- _) tp) in *.
  destruct (holes_sides _ _ _ _ _ 0 H2) as (S1 & S2 & S3 & _).
  destruct (counts_remove tp1 (rev lp) cur r) as (tp2 & -> & C2 & E2 & Sm2 & En2 & Nx2); [by rewrite fmap_app in B3|]. cbn [mbind outcome_bind].
  assert (Hlf : left_of b cur []) by (apply left_none; lia).
  assert (Hb4 : board tp2 (rev lp ++ [] ++ r)) by (split_and!; [done|rewrite E2, B1, !rexmitted_app; simpl; lia|by apply Nx2]).
  eapply (loop_mid lo hi b bs lp cur r [] tp tp2 (b :: bs)); [done|done|by eapply same_trans|by left| |auto|].
  - intros E. by apply (f_equal length) in E; simpl in E; lia.
  - apply (Hn tp2). eapply looping_mid; [done|done|done|exact Hb4|by left|]. intros c h _ Hh. by left.
Qed.

Lemma doack_loop_spec lo hi fuel bs l r tp ch :
  looping lo hi bs l r tp -> (length bs + length l <= fuel)%nat ->
  loop_done lo hi bs (rev l ++ r) tp (doack_loop maxholes globalmaxholes zalloc fuel (blk iss <$> bs) (sqh <$> l) (sqh <$> r) tp ch).
Proof.
  revert bs l r tp ch; induction fuel as [|n IH]; intros bs l r tp ch Hl Hf.
  { destruct bs, l; simpl in Hf; try lia. apply (loop_end lo hi [] []); [done|by left]. }
  destruct bs as [|b bs]; [by apply (loop_end lo hi []); [|left]|].
  destruct l as [|cur lp]; [by apply (loop_end lo hi _ []); [|right]|].
  pose proof Hl as [H1 H2 H3 H4 H5 H6]. simpl in H2, H3. rewrite <- app_assoc in H2, H3. simpl in H2, H3, Hf.
  apply Forall_cons in H4 as [Hbb _]. destruct (holes_sides _ _ _ _ _ 0 H2) as (S1 & S2 & S3 & _).
  cbn [fmap list_fmap doack_loop blk fst snd sqh h_start h_end h_rxmit h_id].
  rewrite (sq_geq iss b.1 (h_end cur)), (sq_leq iss b.2 (h_start cur)), (sq_leq iss b.1 (h_start cur)), (sq_geq iss b.2 (h_end cur)) by lia.
  assert (Hkeep : left_of b cur [cur]) by (apply left_all; lia).
  destruct (Z.leb_spec (h_end cur) b.1) as [C1|C1].
  { eapply (loop_mid lo hi b bs lp cur r [cur] tp tp bs); [done|done|by split_and!|by right| | |].
    - intros _ y Hy Hw. exfalso. revert Hw. eapply (block_done lo hi (rev lp) cur r b [cur] y); try done; [lia| |intros h Hh; apply H6; [by left|done]].
      intros z. simpl. unfold in_hole, within. lia.
    - apply enough_le. simpl. lia.
    - replace (rev lp ++ [cur] ++ r) with (rev (cur :: lp) ++ r) by (simpl; by rewrite <- app_assoc).
      apply IH; [|simpl; lia]. eapply looping_mid; [done|exact Hkeep|simpl; by rewrite <- app_assoc|exact H3|by right|]. intros; by left. }
  destruct (Z.leb_spec b.2 (h_start cur)) as [C2|C2].
  { eapply (loop_mid lo hi b bs lp cur r [cur] tp tp (b :: bs)); [done|done|by split_and!|by left| |done|].
    - intros E. by apply (f_equal length) in E; simpl in E; lia.
    - apply (IH (b :: bs) lp (cur :: r)); [|simpl; lia]. eapply looping_mid; [done|exact Hkeep|done|exact H3|by left|].
      intros c h Hc [->|Hh]%elem_of_cons; [right|by left]. pose proof (desc_head _ _ _ H5 Hc). lia. }
  pose proof (board_less _ _ _ _ _ _ H1 H2 H3) as (_ & B2 & _). destruct (Z.ltb_spec (sack_bytes_rexmit (add_rexmit (- u32 (sq iss (h_rxmit cur) - sq iss (h_start cur))) tp)) 0); [lia|].
  destruct (Z.leb_spec b.1 (h_start cur)) as [C3|C3]; [destruct (Z.leb_spec (h_end cur) b.2) as [C4|C4]|]; cbn [andb].
  - apply (loop_remove lo hi b bs lp cur r tp (fun tp2 => doack_loop maxholes globalmaxholes zalloc n (blk iss b :: (blk iss <$> bs)) (sqh <$> lp) (sqh <$> r) tp2 1)); [done|lia|lia|].
    intros tp2 Hl2. apply (IH (b :: bs) lp r); [done|simpl; lia].
  - rewrite sq_max by lia. set (h := Hole (h_id cur) b.2 (h_end cur) (Z.max (h_rxmit cur) b.2)).
    cbn [h_start h_rxmit]. rewrite (sq_leq iss b.1 b.2) by lia. destruct (Z.leb_spec b.1 b.2); [|lia].
    apply (loop_trim lo hi b bs lp cur r h tp _ (b :: bs) lp (h :: r) (fun tp2 => doack_loop maxholes globalmaxholes zalloc n (blk iss b :: (blk iss <$> bs)) (sqh <$> lp) (sqh h :: (sqh <$> r)) tp2 1));
      [done|done|apply left_front; lia|done|simpl; lia|left; split_and!; try done; simpl; lia|].
    intros tp2 Hl2. apply IH; [done|simpl; lia].
  - destruct (Z.leb_spec (h_end cur) b.2) as [C4|C4].
    + rewrite sq_min by lia. set (h := Hole (h_id cur) (h_start cur) b.1 (Z.min (h_rxmit cur) b.1)).
      cbn [h_start h_rxmit]. rewrite (sq_leq iss b.1 (h_start cur)) by lia. destruct (Z.leb_spec b.1 (h_start cur)); [lia|].
      apply (loop_trim lo hi b bs lp cur r h tp _ bs (h :: lp) r (fun tp2 => doack_loop maxholes globalmaxholes zalloc n (blk iss <$> bs) (sqh h :: (sqh <$> lp)) (sqh <$> r) tp2 1));
        [done|done|apply left_back; lia|done|simpl; lia| |].
      * right. split_and!; try done; [lia|]. intros z. simpl. unfold in_hole, within. simpl. lia.
      * intros tp2 Hl2. apply IH; [done|simpl; lia].
    + assert (Hsp := loop_split lo hi b bs lp cur r tp _ (fun l r tp2 => doack_loop maxholes globalmaxholes zalloc n (blk iss <$> bs) l r tp2 1) Hl eq_refl
        ltac:(lia) ltac:(lia) ltac:(lia)).
      set (tp1 := add_rexmit (- _) tp) in *. revert Hsp. destruct (tcp_sackhole_alloc _ _ _ tp1 _ _) as [tpa [t|]]; intros Hsp.
      * destruct (SEQ_GT _ _); cbn [h_start h_rxmit]; cbn [h_start h_rxmit] in Hsp; rewrite (sq_leq iss b.1 (h_start cur)) by lia;
          (destruct (Z.leb_spec b.1 (h_start cur)); [lia|]); apply Hsp; intros l' r' tp2 Hl2 Hle; (apply IH; [done|lia]).
      * cbn [h_start h_rxmit sqh]. rewrite (sq_leq iss b.1 (h_start cur)) by lia. destruct (Z.leb_spec b.1 (h_start cur)); [lia|].
        apply Hsp. intros l' r' tp2 Hl2 Hle. apply IH; [done|lia].
Qed.
End board.
