(* ===== verification/TcpScore.v ===== *)
(** tcp_sack_doack on the scoreboard of TcpHoles, for every SACK option that a peer can
    send: the blocks become positions, are sorted, and are taken from the holes. *)
From stdpp Require Import base list.
From Stdlib Require Import ZArith Lia Sorting.
From S2P Require Import Prelude TcpReass TcpReassSpec TcpSack TcpHoles TcpHolesSpec.

Local Open Scope Z_scope.

Section score.
Context (maxholes globalmaxholes : Z) (zalloc : Z -> bool) (iss : Z).
#[local] Abbreviation sqh := (sqh iss).
#[local] Abbreviation sq := (sq iss).
#[local] Abbreviation blk := (blk iss).
#[local] Abbreviation enough := (enough maxholes globalmaxholes zalloc).

(** * The blocks of the option *)

(** A number on the wire is a position around any other. *)
Lemma sq_near x u : 0 <= x < 4294967296 -> x = sq (u + s32 (x - sq u)).
Proof.
  intros H. unfold TcpSack.sq, wraps, wrapu. change (2 ^ 32) with 4294967296. change (2 ^ (32 - 1)) with 2147483648.
  pose proof (Z.div_mod (iss + u) 4294967296 ltac:(lia)) as E1. set (y := x - (iss + u) mod 4294967296 + 2147483648).
  pose proof (Z.div_mod y 4294967296 ltac:(lia)) as E2.
  replace (iss + (u + (y mod 4294967296 - 2147483648))) with (x + ((iss + u) / 4294967296 - y / 4294967296) * 4294967296) by (subst y; lia).
  rewrite Z_mod_plus_full. symmetry. by apply Z.mod_small.
Qed.

Definition wire (b : sackblk) : Prop := 0 <= b.1 < 4294967296 /\ 0 <= b.2 < 4294967296.

(** A block that passes the checks is an interval behind una and the acknowledgement. *)
Definition beyond (una ack smax : Z) (p : Z * Z) : Prop := Z.max una ack < p.1 /\ p.1 < p.2 <= smax.

Lemma valid_positions una ack smax tp b :
  snd_una tp = sq una -> snd_max tp = sq smax -> una <= smax < una + 2147483648 -> smax - 2147483648 < ack <= smax ->
  wire b -> sack_valid tp (sq ack) b = true -> exists p, b = blk p /\ beyond una ack smax p.
Proof.
  intros Eu Em Hw Ha [W1 W2]. unfold sack_valid. rewrite Eu, Em. rewrite !andb_true_iff. intros (((((V1 & V2) & V3) & V4) & V5) & V6).
  unfold SEQ_GT in V2, V5. rewrite Z.gtb_gt in V2, V5. set (s := s32 (b.1 - sq una)) in *. set (e := s32 (b.2 - sq una)) in *.
  assert (Hs : s < 2147483648 /\ e < 2147483648) by (subst s e; unfold wraps; change (2 ^ 32) with 4294967296; change (2 ^ (32 - 1)) with 2147483648;
    pose proof (Z.mod_pos_bound (b.1 - sq una + 2147483648) 4294967296); pose proof (Z.mod_pos_bound (b.2 - sq una + 2147483648) 4294967296); lia).
  assert (E1 : b.1 = sq (una + s)) by (by apply sq_near). assert (E2 : b.2 = sq (una + e)) by (by apply sq_near). clearbody s e.
  rewrite E1, E2 in V1. rewrite E1 in V3, V4. rewrite E2 in V6.
  rewrite sq_lt in V4 by lia. rewrite sq_leq in V6 by lia. rewrite sq_gt in V1 by lia. rewrite Z.ltb_lt in V1, V4. rewrite Z.leb_le in V6.
  rewrite sq_gt in V3 by lia. rewrite Z.ltb_lt in V3. exists (una + s, una + e). split; [destruct b; simpl in *; by rewrite E1, E2|].
  unfold beyond. simpl. lia.
Qed.

Lemma valid_all una ack smax tp l :
  snd_una tp = sq una -> snd_max tp = sq smax -> una <= smax < una + 2147483648 -> smax - 2147483648 < ack <= smax ->
  Forall wire l -> exists ps, List.filter (sack_valid tp (sq ack)) l = blk <$> ps /\ Forall (beyond una ack smax) ps.
Proof.
  intros H1 H2 H3 H4. induction l as [|b l IH]; intros Hl; [by exists []|]. apply Forall_cons in Hl as [Hb Hl]. destruct (IH Hl) as (ps & E & Hp).
  simpl. destruct (sack_valid tp (sq ack) b) eqn:Ev; [|by exists ps].
  destruct (valid_positions una ack smax tp b) as (p & -> & Hpp); try done. exists (p :: ps). split; [by rewrite E|by constructor].
Qed.

(** ** The sort *)

Lemma blk_bubble_spec lo hi s l : hi - lo < 2147483648 -> Forall (fun p : Z * Z => lo <= p.2 <= hi) (s :: l) ->
  exists s' l', blk_bubble (blk s) (blk <$> l) = (blk s', blk <$> l') /\ s' :: l' ≡ₚ s :: l /\ Forall (fun p => s'.2 <= p.2) (s :: l').
Proof.
  intros Hw. revert s; induction l as [|x l IH]; intros s Hf; rewrite ?fmap_cons; cbn [blk_bubble].
  - exists s, []. split_and!; try done. constructor; [lia|constructor].
  - apply Forall_cons in Hf as [Hs Hf]. pose proof Hf as Hf'. apply Forall_cons in Hf' as [Hx Hl]. change ((blk s).2) with (sq s.2). change ((blk x).2) with (sq x.2). rewrite sq_gt by lia.
    destruct (Z.ltb_spec x.2 s.2).
    + destruct (IH x Hf) as (s' & l' & -> & Hp & [H1 H2]%Forall_cons). exists s', (s :: l'). split; [done|]. split.
      * by rewrite (perm_swap s s'), Hp.
      * constructor; [lia|]. constructor; [lia|done].
    + destruct (IH s) as (s' & l' & -> & Hp & [H1 H2]%Forall_cons); [by constructor|]. exists s', (x :: l'). split; [done|]. split.
      * by rewrite (perm_swap x s'), Hp, perm_swap.
      * constructor; [lia|]. constructor; [lia|done].
Qed.

Lemma blk_sort_spec lo hi n l : hi - lo < 2147483648 -> Forall (fun p : Z * Z => lo <= p.2 <= hi) l -> (length l <= n)%nat ->
  exists l', blk_sort n (blk <$> l) = blk <$> l' /\ l' ≡ₚ l /\ StronglySorted (fun x y => x.2 <= y.2) l'.
Proof.
  intros Hw. revert l; induction n as [|n IH]; intros l Hf Hn.
  { destruct l; simpl in Hn; [|lia]. exists []. split_and!; try done. constructor. }
  destruct l as [|s l]; [exists []; split_and!; try done; constructor|]. rewrite fmap_cons. cbn [blk_sort]. destruct (blk_bubble_spec lo hi s l Hw Hf) as (s' & l1 & -> & Hp & Hm).
  assert (Hl : length l1 = length l) by (apply Permutation_length in Hp; simpl in Hp; lia).
  assert (Hf1 : Forall (fun p : Z * Z => lo <= p.2 <= hi) l1) by (rewrite <- Hp in Hf; by apply Forall_cons in Hf as [_ ?]).
  destruct (IH l1 Hf1) as (l2 & -> & Hp2 & Hs2); [simpl in Hn; lia|]. exists (s' :: l2). split; [done|]. split; [by rewrite Hp2|].
  constructor; [done|]. rewrite Hp2. by apply Forall_cons in Hm as [_ ?].
Qed.

(** * The tail of the scoreboard *)

Lemma skip_beyond_spec f bs : Forall (fun p : Z * Z => -2147483648 <= f - p.1 < 2147483648) bs ->
  exists sk bs1, bs = sk ++ bs1 /\ skip_beyond (sq f) (blk <$> bs) = blk <$> bs1 /\ Forall (fun p => f < p.1) sk /\
    match bs1 with c :: _ => c.1 <= f | [] => True end.
Proof.
  induction bs as [|b bs IH]; intros Hf; [by exists [], []|]. apply Forall_cons in Hf as [Hb Hf]. rewrite fmap_cons. cbn [skip_beyond].
  change ((blk b).1) with (sq b.1). rewrite sq_lt by lia. destruct (Z.ltb_spec f b.1); [|by exists [], (b :: bs)].
  destruct (IH Hf) as (sk & bs1 & -> & E & Hs & Hh). exists (b :: sk), bs1. split_and!; try done. by constructor.
Qed.

(** Before the tail: [f0] is snd_fack. *)
Record ready (lo f0 smax : Z) (hs : list sackhole) (tp : sndcb) : Prop := {
  rd_win : f0 <= smax < lo + 2147483648;
  rd_holes : snd_holes tp = sqh <$> hs;
  rd_ok : holes_ok lo f0 hs;
  rd_board : board tp hs;
  rd_fack : snd_fack tp = sq f0
}.

(** The fields that tcp_sack_doack leaves alone. *)
Definition same_ends (tp tp' : sndcb) : Prop :=
  snd_una tp' = snd_una tp /\ snd_max tp' = snd_max tp /\ snd_nxt tp' = snd_nxt tp.

Lemma same_ends_trans a b c : same_ends a b -> same_ends b c -> same_ends a c.
Proof. unfold same_ends. intuition congruence. Qed.

Lemma holes_ok_snoc lo hi hs i a b hi' : holes_ok lo hi hs -> hi <= a -> a < b <= hi' -> holes_ok lo hi' (hs ++ [Hole i a b a]).
Proof. intros H H1 H2. apply holes_ok_app. exists hi. split; [done|]. simpl. lia. Qed.

(** After it: the new hole is [nw], and the blocks [bs1] are left for the loop. *)
Record tailed (lo f0 smax : Z) (hs : list sackhole) (bs : list (Z * Z)) (tp : sndcb) (nw : list sackhole) (bs1 : list (Z * Z)) (f : Z) (tp1 : sndcb) : Prop := {
  tl_ready : ready lo f smax (hs ++ nw) tp1;
  tl_same : same_ends tp tp1;
  tl_fack : f0 <= f;
  tl_blocks : Forall (fun b => b.2 <= f) bs1;
  tl_suffix : bs1 `suffix_of` bs;
  tl_bytes x : f0 <= x < f -> cover nw x \/ exists c, c ∈ bs /\ within c x;
  tl_new x : cover nw x -> f0 <= x;
  tl_low c : c ∈ bs -> c.1 <= f0 -> c ∈ bs1;
  tl_room : enough tp (length bs) -> enough tp1 (length bs1) /\ forall c, c ∈ bs -> c.2 <= f /\ (c ∈ bs1 \/ forall x, cover (hs ++ nw) x -> ~ within c x)
}.

Lemma desc_bound b bs f : desc (b :: bs) -> b.2 <= f -> Forall (fun c : Z * Z => c.2 <= f) (b :: bs).
Proof. intros H Hf. apply Forall_forall. intros c Hc. pose proof (desc_head _ _ _ H Hc). lia. Qed.

Lemma desc_suffix a b : a `suffix_of` b -> desc b -> desc a.
Proof. intros [k ->]. induction k as [|x k IH]; [done|]. intros [H _]%StronglySorted_inv. by apply IH. Qed.

Lemma board_ext tp tp' hs : board tp hs ->
  snd_numholes tp' = snd_numholes tp -> globalholes tp' = globalholes tp -> zcalls tp' = zcalls tp -> nexthole tp' = nexthole tp ->
  sack_bytes_rexmit tp' = sack_bytes_rexmit tp -> board tp' hs.
Proof.
  intros ([C1 C2 C3 C4 C5] & E & Hh) E1 E2 E3 E4 E5. split_and!; [|congruence|by rewrite E4].
  constructor; rewrite ?E1, ?E2, ?E3, ?E4; done.
Qed.

Lemma hinted_snoc o hs t : hinted o hs -> (forall i, o = Some i -> i <> h_id t) ->
  hinted (match o with None => Some (h_id t) | Some j => Some j end) (hs ++ [t]).
Proof.
  intros H Hn. induction hs as [|h hs IH].
  - simpl. split; [|done]. intros _. destruct o as [j|]; [exists j|exists (h_id t)]; (split; [done|]; apply not_elem_of_nil).
  - destruct H as [H1 H2]. split; [|by apply IH]. intros Hx. destruct (H1 Hx) as (i & -> & Hi). exists i. split; [done|].
    rewrite fmap_app, not_elem_of_app. split; [done|]. simpl. rewrite not_elem_of_cons. split; [by apply Hn|apply not_elem_of_nil].
Qed.

(** A hole behind the last one. *)
Lemma board_snoc tp hs n a b : board tp hs ->
  match tcp_sackhole_alloc maxholes globalmaxholes zalloc tp (sq a) (sq b) with
  | (tp', Some t) => exists i, t = sqh (Hole i a b a) /\ same_ends tp tp' /\
      board (hint_insert t tp') (hs ++ [Hole i a b a]) /\ (enough tp (S n) -> enough (hint_insert t tp') n) /\ snd_holes tp' = snd_holes tp
  | (tp', None) => ~ enough tp (S n) /\ same_ends tp tp' /\ board tp' hs /\ snd_holes tp' = snd_holes tp /\ snd_fack tp' = snd_fack tp
  end.
Proof.
  intros (C & E & Hh). rewrite <- (app_nil_r hs), fmap_app in C. pose proof (counts_alloc maxholes globalmaxholes zalloc tp hs [] (sq a) (sq b) n C) as H.
  assert (Hk : snd_holes (tcp_sackhole_alloc maxholes globalmaxholes zalloc tp (sq a) (sq b)).1 = snd_holes tp)
    by (unfold tcp_sackhole_alloc; destruct (_ || _), (zalloc (zcalls tp)); done).
  destruct (tcp_sackhole_alloc _ _ _ _ _ _) as [tp' [t|]].
  - destruct H as (-> & C2 & E2 & Sm & En & Nx & Fr). exists (zcalls tp). split; [done|].
    split; [unfold hint_insert in Sm; destruct (nexthole tp'), Sm as (? & ? & ? & _); done|]. split; [|done]. split; [by rewrite fmap_app|].
    split; [rewrite E2, E, rexmitted_app; simpl; lia|]. rewrite Nx. exact (hinted_snoc (nexthole tp) hs (Hole (zcalls tp) a b a) Hh Fr).
  - destruct H as (Hn & C2 & E2 & Sm & Nx). destruct Sm as (? & ? & ? & ? & _). split; [done|]. split; [done|]. split; [|done].
    rewrite <- fmap_app, app_nil_r in C2. split; [done|]. split; [congruence|]. by rewrite Nx.
Qed.

(** snd_fack goes to the end of the first block that is left. *)
Definition raised (bl : list sackblk) (tp : sndcb) : sndcb :=
  match bl with c :: _ => if SEQ_LT (snd_fack tp) c.2 then with_fack c.2 tp else tp | [] => tp end.

Lemma tailed_raised lo f0 smax hs sk bs1 tp tp1 :
  ready lo f0 smax hs tp1 -> same_ends tp tp1 -> desc bs1 -> Forall (fun c => lo <= c.1 /\ c.1 < c.2 <= smax) bs1 ->
  Forall (fun p => f0 < p.1) sk -> match bs1 with c :: _ => c.1 <= f0 | [] => True end ->
  (enough tp (length (sk ++ bs1)) -> enough tp1 (length bs1) /\ sk = []) ->
  exists f, tailed lo f0 smax hs (sk ++ bs1) tp [] bs1 f (raised (blk <$> bs1) tp1).
Proof.
  intros [R1 R2 R3 R4 R5] Sm Hd Hb Hsk Hh Hen. exists (match bs1 with c :: _ => Z.max f0 c.2 | [] => f0 end).
  pose proof (holes_ok_le _ _ _ R3) as Hlo. destruct bs1 as [|c bs1].
  - constructor; try done; try lia; [by rewrite app_nil_r|by exists sk| |].
    + intros c Hc Hl. rewrite app_nil_r in Hc. rewrite Forall_forall in Hsk. pose proof (Hsk c Hc). simpl in *. lia.
    + intros He. destruct (Hen He) as [? ->]. split; [done|]. intros c Hc. by apply not_elem_of_nil in Hc.
  - pose proof Hb as Hb'. apply Forall_cons in Hb' as [Hc _]. cbn [raised fmap list_fmap]. change ((blk c).2) with (sq c.2). rewrite R5, sq_lt by lia.
    set (tp2 := if f0 <? c.2 then _ else _).
    assert (G : ready lo (Z.max f0 c.2) smax hs tp2).
    { assert (G1 : holes_ok lo (Z.max f0 c.2) hs) by (eapply holes_ok_weaken; [exact R3|lia|lia]).
      subst tp2. destruct (Z.ltb_spec f0 c.2); constructor; try done; try lia; [by apply (board_ext _ _ _ R4)|simpl; f_equal; lia|rewrite R5; f_equal; lia]. }
    assert (Sm2 : same_ends tp tp2 /\ (forall n, enough tp1 n -> enough tp2 n)) by (subst tp2; by destruct (f0 <? c.2)). destruct Sm2 as [Sm2 En2].
    pose proof (desc_bound c bs1 (Z.max f0 c.2) Hd ltac:(lia)) as Hbd. constructor; try done; try lia; [by rewrite app_nil_r|by exists sk| | |].
    + intros x Hx. right. exists c. split; [rewrite elem_of_app; right; by left|]. unfold within. lia.
    + intros d Hdd Hl. rewrite elem_of_app in Hdd. destruct Hdd as [Hdd|Hdd]; [|done]. rewrite Forall_forall in Hsk. pose proof (Hsk d Hdd). simpl in *. lia.
    + intros He. destruct (Hen He) as [? ->]. split; [auto|]. intros d Hdd. rewrite Forall_forall in Hbd. split; [by apply Hbd|by left].
Qed.

(** A new last hole. *)
Lemma tailed_hole lo f0 smax hs b bs tp tp1 i :
  f0 <= smax < lo + 2147483648 -> holes_ok lo f0 hs -> desc (b :: bs) -> f0 < b.1 -> b.1 < b.2 <= smax ->
  snd_holes tp1 = sqh <$> hs ++ [Hole i f0 b.1 f0] -> same_ends tp tp1 -> board tp1 (hs ++ [Hole i f0 b.1 f0]) -> snd_fack tp1 = sq b.2 ->
  (enough tp (S (length bs)) -> enough tp1 (length bs)) ->
  tailed lo f0 smax hs (b :: bs) tp [Hole i f0 b.1 f0] bs b.2 tp1.
Proof.
  intros Hw Hok Hd C1 Hbb Hh Sm Hbd Hf En. constructor; try done; try lia; [| |by exists [b]| | | |].
  - constructor; try done; [lia|]. by apply (holes_ok_snoc lo f0); [|lia|lia].
  - apply desc_bound with (f := b.2) in Hd; [|lia]. by apply Forall_cons in Hd as [_ ?].
  - intros x Hx. destruct (decide (x < b.1)); [left; left; unfold in_hole; simpl; lia|]. right. exists b. split; [by left|]. unfold within. lia.
  - intros x [Hx|[]]. unfold in_hole in Hx. simpl in Hx. lia.
  - intros c [->|Hc]%elem_of_cons Hl; [lia|done].
  - intros He. split; [by apply En|]. intros c Hc. split; [by apply (desc_head _ _ _ Hd)|]. apply elem_of_cons in Hc as [->|Hc]; [right|by left].
    intros x Hx. rewrite cover_app in Hx. destruct Hx as [Hx|[Hx|[]]]; [apply (cover_range _ _ _ _ Hok) in Hx; unfold within; lia|].
    unfold in_hole in Hx. simpl in Hx. unfold within. lia.
Qed.

Lemma doack_tail_spec lo f0 smax hs b bs tp :
  ready lo f0 smax hs tp -> desc (b :: bs) -> Forall (fun c => lo <= c.1 /\ c.1 < c.2 <= smax) (b :: bs) ->
  exists nw bs1 f tp1 ch, doack_tail maxholes globalmaxholes zalloc tp (blk b) (blk <$> bs) = (tp1, blk <$> bs1, ch) /\
    tailed lo f0 smax hs (b :: bs) tp nw bs1 f tp1.
Proof.
  intros R Hd Hb. pose proof R as [R1 R2 R3 R4 R5]. pose proof (holes_ok_le _ _ _ R3) as Hlo. pose proof Hb as Hb'. apply Forall_cons in Hb' as [Hbb _].
  unfold doack_tail. change ((blk b).1) with (sq b.1). change ((blk b).2) with (sq b.2). rewrite R5, !sq_lt by lia.
  destruct (Z.ltb_spec f0 b.1) as [C1|C1].
  - pose proof (board_snoc tp hs (length bs) f0 b.1 R4) as Ha. destruct (tcp_sackhole_alloc _ _ _ _ _ _) as [tp1 [t|]].
    + destruct Ha as (i & -> & Sm & B2 & En & Hh). do 5 eexists. split; [done|]. unfold hint_insert in *. cbn [nexthole with_holes] in *.
      apply tailed_hole; try done; try lia; destruct (nexthole tp1); try done; try (by apply (board_ext _ _ _ B2));
        cbn [snd_holes with_fack with_hint with_holes]; by rewrite Hh, R2, fmap_app.
    + destruct Ha as (Hn & Sm & B2 & Hh & Ef). rewrite Ef, R5.
      destruct (skip_beyond_spec f0 (b :: bs)) as (sk & bs1 & Es & Ek & Hsk & Hhd); [eapply Forall_impl; [exact Hb|]; simpl; lia|].
      change (blk b :: (blk <$> bs)) with (blk <$> (b :: bs)). rewrite Ek.
      destruct (tailed_raised lo f0 smax hs sk bs1 tp tp1) as (f & Hf); try done.
      * constructor; try done; congruence.
      * eapply desc_suffix; [|exact Hd]. by exists sk.
      * rewrite Es in Hb. by apply Forall_app in Hb as [_ ?].
      * rewrite <- Es. done.
      * rewrite <- Es in Hf. exists [], bs1, f. do 2 eexists. split; [|exact Hf]. unfold raised. by rewrite Ef, R5.
  - destruct (tailed_raised lo f0 smax hs [] (b :: bs) tp tp) as (f & Hf); try done.
    unfold raised in Hf. rewrite fmap_cons in Hf. change ((blk b).2) with (sq b.2) in Hf. rewrite R5, sq_lt in Hf by lia.
    exists [], (b :: bs), f. destruct (f0 <? b.2); do 2 eexists; (split; [done|]); done.
Qed.

(** * The blocks *)

(** What the blocks [bs] make of the holes [hs] behind [lo], of which the peer has
    reported the bytes up to [f0]. *)
Record applied (lo f0 smax : Z) (hs : list sackhole) (bs : list (Z * Z)) (tp : sndcb) (f : Z) (res : list sackhole) (tp' : sndcb) : Prop := {
  ap_ready : ready lo f smax res tp';
  ap_same : same_ends tp tp';
  ap_fack : f0 <= f;
  ap_bytes x : f0 <= x < f -> ~ cover res x -> exists c, c ∈ bs /\ within c x;
  ap_keep x : cover hs x -> (forall c, c ∈ bs -> ~ within c x) -> cover res x;
  ap_new x : cover res x -> cover hs x \/ f0 <= x;
  ap_low c : c ∈ bs -> c.1 <= lo -> c.2 <= f /\ forall x, cover res x -> ~ within c x;
  ap_room : enough tp (length bs) -> forall c x, c ∈ bs -> within c x -> x < f /\ ~ cover res x
}.

Lemma inner_above lo hi c hs : holes_ok lo hi hs -> inner c hs -> lo < c.1.
Proof.
  revert lo; induction hs as [|h hs IH]; intros lo; simpl; [intros _ []%Exists_nil|]. intros (H1 & H2 & H3 & H4) [?|Hi]%Exists_cons; [lia|].
  pose proof (IH _ H4 Hi). lia.
Qed.

Lemma doack_applied lo f0 smax hs b bs tp :
  ready lo f0 smax hs tp -> desc (b :: bs) -> Forall (fun c => lo <= c.1 /\ c.1 < c.2 <= smax) (b :: bs) ->
  exists tp' ch f res,
    (let '(tp1, bl, changed) := doack_tail maxholes globalmaxholes zalloc tp (blk b) (blk <$> bs) in
     doack_loop maxholes globalmaxholes zalloc (length bl + length (snd_holes tp1)) bl (rev (snd_holes tp1)) [] tp1 changed) = Done (tp', ch) /\
    applied lo f0 smax hs (b :: bs) tp f res tp'.
Proof.
  intros R Hd Hb. destruct (doack_tail_spec lo f0 smax hs b bs tp R Hd Hb) as (nw & bs1 & f & tp1 & ch & -> & [T1 T2 T3 T4 T5 T6 T7 T8 T9]).
  pose proof T1 as [Q1 Q2 Q3 Q4 Q5]. set (hs1 := hs ++ nw) in *.
  assert (Hin : forall c, c ∈ bs1 -> c ∈ b :: bs) by (intros c Hc; destruct T5 as [k ->]; rewrite elem_of_app; by right).
  assert (Hl : looping lo f bs1 (rev hs1) [] tp1).
  { constructor; rewrite ?rev_involutive, ?app_nil_r; try done; [lia| |by eapply desc_suffix|intros c h _ Hh; by apply not_elem_of_nil in Hh].
    apply Forall_forall. intros c Hc. rewrite Forall_forall in T4, Hb. pose proof (T4 c Hc). pose proof (Hb c (Hin c Hc)). simpl in *. lia. }
  pose proof (doack_loop_spec maxholes globalmaxholes zalloc iss lo f (length (blk <$> bs1) + length (sqh <$> hs1)) bs1 (rev hs1) [] tp1 ch Hl) as Hs.
  assert (Er : rev (sqh <$> hs1) = sqh <$> rev hs1) by (symmetry; apply map_rev). rewrite Q2, Er. destruct Hs as (res & tp2 & ch2 & E & G1 & G2 & G3 & [K1 K2 K3 K4]); [by rewrite !length_fmap, length_rev|].
  rewrite rev_involutive, app_nil_r in *. change (sqh <$> []) with (@nil sackhole) in E. rewrite E. eexists _, _, f, res. split; [done|].
  destruct G3 as (S1 & S2 & S3 & S4 & _). constructor; try done.
  - constructor; try done; [by apply (board_ext _ _ _ G2)|]. simpl. congruence.
  - eapply same_ends_trans; [exact T2|]. done.
  - intros x Hx Hn. destruct (T6 x Hx) as [Hc|Hc]; [|done]. destruct (decide (Exists (fun c : Z * Z => c.1 <= x < c.2) bs1)) as [He|He].
    + apply Exists_exists in He as (c & Hc1 & Hc2). exists c. split; [by apply Hin|done].
    + exfalso. apply Hn, K2; [subst hs1; rewrite cover_app; by right|]. intros c Hc1 Hc2. apply He, Exists_exists. by exists c.
  - intros x Hx Hn. apply K2; [subst hs1; rewrite cover_app; by left|]. intros c Hc. by apply Hn, Hin.
  - intros x Hx. apply K1 in Hx. subst hs1. rewrite cover_app in Hx. destruct Hx as [Hx|Hx]; [by left|]. right. by apply T7.
  - intros c Hc Hlo. pose proof (holes_ok_le _ _ _ (rd_ok _ _ _ _ _ R)). assert (Hc1 : c ∈ bs1) by (apply T8; [done|lia]).
    rewrite Forall_forall in T4. split; [by apply T4|]. intros x Hx Hw. destruct (K3 x c Hx Hc1 Hw) as [Hi _]. apply (inner_above _ _ _ _ Q3) in Hi. lia.
  - intros He c x Hc Hw. destruct (T9 He) as [He1 Hal]. destruct (Hal c Hc) as [Hf Hor]. split; [unfold within in Hw; lia|]. intros Hx.
    destruct Hor as [Hc1|Hno]; [by destruct (K3 x c Hx Hc1 Hw)|]. by apply (Hno x); [apply K1|].
Qed.

(** * tcp_sack_doack *)

(** A scoreboard: the holes lie between una and fack; without a hole snd_fack means
    nothing. *)
Record score (una smax fack : Z) (hs : list sackhole) (tp : sndcb) : Prop := {
  sc_una : snd_una tp = sq una;
  sc_max : snd_max tp = sq smax;
  sc_win : fack <= smax < una + 2147483648;
  sc_holes : snd_holes tp = sqh <$> hs;
  sc_ok : holes_ok una fack hs;
  sc_board : board tp hs;
  sc_fack : hs <> [] -> snd_fack tp = sq fack;
  sc_none : hs = [] -> fack = una
}.

(** What an acknowledgement with the valid blocks [ps] makes of it, when snd_una has
    moved: a byte that is in no hole was in none before, or is in a block; and with
    room for the holes no byte of a block is in a hole. *)
Record acked (una ack smax fack : Z) (hs : list sackhole) (ps : list (Z * Z)) (tp : sndcb) (fack' : Z) (hs' : list sackhole) (tp' : sndcb) : Prop := {
  ak_score : score (Z.max una ack) smax fack' hs' (with_una (sq (Z.max una ack)) tp');
  ak_same : same_ends tp tp';
  ak_sound x : Z.max una ack <= x < fack' -> ~ cover hs' x -> (x < fack /\ ~ cover hs x) \/ exists p, p ∈ ps /\ within p x;
  ak_new x : cover hs' x -> cover hs x \/ fack <= x;
  ak_room : enough tp (S (length ps)) -> forall p x, p ∈ ps -> within p x -> ~ cover hs' x /\ (hs' <> [] -> x < fack')
}.

Lemma cover_dec hs x : {cover hs x} + {~ cover hs x}.
Proof.
  induction hs as [|h hs IH]; [right; by intros []|]. simpl. destruct IH as [IH|IH]; [left; by right|].
  destruct (decide (h_start h <= x < h_end h)) as [H|H]; [left; by left|]. right. by intros [?|?].
Defined.

Lemma holes_raise lo lo' hi hs : holes_ok lo hi hs -> (forall x, cover hs x -> lo' <= x) -> lo' <= hi -> holes_ok lo' hi hs.
Proof.
  destruct hs as [|h hs]; [done|]. intros (H1 & H2 & H3 & H4) Hc Hl. simpl. split_and!; try done; try lia. apply (Hc (h_start h)). left. unfold in_hole. lia.
Qed.

Lemma desc_rev l : StronglySorted (fun x y : Z * Z => x.2 <= y.2) l -> desc (rev l).
Proof.
  induction l as [|x l IH]; simpl; intros H; [constructor|]. apply StronglySorted_inv in H as [H1 H2]. specialize (IH H1).
  assert (Hf : Forall (fun y : Z * Z => x.2 <= y.2) (rev l)) by (apply Forall_forall; intros y Hy; rewrite Forall_forall in H2; apply H2, list_elem_of_In, in_rev, list_elem_of_In; exact Hy).
  clear -IH Hf. induction (rev l) as [|y k IHk]; [constructor; constructor|]. apply StronglySorted_inv in IH as [H1 H2]. apply Forall_cons in Hf as [Hy Hf].
  simpl. constructor; [by apply IHk|]. apply Forall_app. split; [done|]. by constructor.
Qed.

(** From the state after the loop. *)
Lemma acked_applied una ack smax fack hs fs ps bs tp tp0 lo f0 f res tp' :
  score una smax fack hs tp -> (forall n, enough tp n -> enough tp0 n) -> same_ends tp tp0 ->
  lo = (if decide (hs = []) then Z.max una ack else una) -> f0 = (if decide (hs = []) then Z.max una ack else fack) ->
  fs = (if decide (hs <> [] /\ una < ack) then [(una, ack)] else []) -> bs ≡ₚ fs ++ ps ->
  applied lo f0 smax hs bs tp0 f res tp' ->
  exists fack' hs', acked una ack smax fack hs ps tp fack' hs' tp'.
Proof.
  intros [S1 S2 S3 S4 S5 S6 S7 S8] En Sm El Ef Efs Hp [[P1 P2 P3 P4 P5] P6 P7 P8 P9 P10 P11 P12].
  pose proof (holes_ok_le _ _ _ S5) as Hle. pose proof (holes_ok_le _ _ _ P3) as Hle'.
  assert (Hfs : forall c, c ∈ fs -> c = (una, ack) /\ hs <> [] /\ una < ack).
  { rewrite Efs. destruct (decide (hs <> [] /\ una < ack)) as [[? ?]|]; [|intros c Hc; by apply not_elem_of_nil in Hc]. by intros c ->%list_elem_of_singleton. }
  assert (Hb : forall c, c ∈ bs <-> c ∈ fs \/ c ∈ ps) by (intros c; rewrite Hp; apply elem_of_app).
  assert (Hok : holes_ok (Z.max una ack) f res).
  { destruct (decide (hs = [])) as [Hn|Hn]; [by rewrite <- El|]. destruct (decide (una < ack)) as [Hu|Hu]; [|replace (Z.max una ack) with lo by lia; done].
    destruct (P11 (una, ack)) as [G1 G2]; [apply Hb; left; rewrite Efs, decide_True by done; by left|simpl; lia|]. simpl in G1.
    apply (holes_raise lo); [done| |lia]. intros x Hx. pose proof (cover_range _ _ _ _ P3 Hx). specialize (G2 x Hx). unfold within in G2. simpl in G2. lia. }
  assert (Hlen : (length bs <= S (length ps))%nat) by (rewrite Hp, length_app, Efs; destruct (decide (hs <> [] /\ una < ack)); simpl; lia).
  pose proof (holes_ok_le _ _ _ Hok) as Hle2. set (fack' := if decide (res = []) then Z.max una ack else f).
  assert (Hf' : fack' <= f) by (subst fack'; destruct (decide (res = [])); lia).
  exists fack', res. constructor; [|by eapply same_ends_trans| | |].
  - destruct P6 as (Q1 & Q2 & Q3). destruct Sm as (M1 & M2 & M3). constructor; try done; [simpl; congruence|lia| |by apply (board_ext _ _ _ P4)| |].
    + subst fack'. destruct (decide (res = [])) as [->|]; [simpl; lia|done].
    + intros Hr. subst fack'. by rewrite decide_False.
    + intros Hr. subst fack'. by rewrite decide_True.
  - intros x Hx Hn.
    assert (Hps : forall c, c ∈ bs -> within c x -> exists p, p ∈ ps /\ within p x).
    { intros c Hc Hw. apply Hb in Hc as [Hc|Hc]; [|by exists c]. apply Hfs in Hc as [-> _]. unfold within in Hw. simpl in Hw. lia. }
    destruct (decide (f0 <= x)) as [Hge|Hlt].
    + right. destruct (P8 x ltac:(lia) Hn) as (c & Hc & Hw). by eapply Hps.
    + destruct (decide (hs = [])) as [Hh|Hh]; [lia|]. destruct (cover_dec hs x) as [Hc|Hc]; [|left; split; [lia|done]]. right.
      destruct (decide (Exists (fun c : Z * Z => c.1 <= x < c.2) bs)) as [He|He]; [apply Exists_exists in He as (c & ? & ?); by eapply Hps|].
      exfalso. apply Hn, P9; [done|]. intros c Hc1 Hc2. apply He, Exists_exists. by exists c.
  - intros x Hx. destruct (P10 x Hx) as [?|?]; [by left|right]. destruct (decide (hs = [])) as [Hh|Hh]; [rewrite (S8 Hh)|]; lia.
  - intros He p x Hpp Hw. destruct (P12 (En _ (enough_le _ _ _ _ _ _ Hlen He)) p x) as [G1 G2]; [apply Hb; by right|done|].
    split; [done|]. intros Hr. subst fack'. by rewrite decide_False.
Qed.

(** The sorted blocks, from a state in which only the report has changed. *)
Lemma doack_blocks_spec una ack smax fack hs fs ps tp tp0 :
  score una smax fack hs tp -> smax - 2147483648 < ack <= smax -> Forall (beyond una ack smax) ps ->
  fs = (if decide (hs <> [] /\ una < ack) then [(una, ack)] else []) -> (exists a n, tp0 = with_report a n tp) ->
  exists tp' ch fack' hs',
    doack_blocks maxholes globalmaxholes zalloc tp0 (sq ack) (rev (blk_sort (length (blk <$> fs ++ ps)) (blk <$> fs ++ ps))) = Done (tp', ch) /\
    acked una ack smax fack hs ps tp fack' hs' tp'.
Proof.
  intros Hs Ha Hps Efs (a & n & ->). pose proof Hs as [S1 S2 S3 S4 S5 S6 S7 S8]. pose proof (holes_ok_le _ _ _ S5) as Hle.
  assert (Hb : Forall (fun c => una <= c.1 /\ c.1 < c.2 <= smax /\ (hs = [] -> Z.max una ack <= c.1)) (fs ++ ps)).
  { apply Forall_app. split; [|eapply Forall_impl; [exact Hps|]; unfold beyond; simpl; lia].
    rewrite Efs. destruct (decide (hs <> [] /\ una < ack)) as [[? ?]|]; [|constructor]. constructor; [simpl; split_and!; done || lia|constructor]. }
  destruct (blk_sort_spec una smax (length (blk <$> fs ++ ps)) (fs ++ ps)) as (l & -> & Hl & Hsl); [lia|eapply Forall_impl; [exact Hb|]; simpl; lia|by rewrite length_fmap|].
  assert (Er : rev (blk <$> l) = blk <$> rev l) by (symmetry; apply map_rev). rewrite Er. pose proof (desc_rev l Hsl) as Hd.
  assert (Hp : rev l ≡ₚ fs ++ ps) by (by rewrite <- Permutation_rev). rewrite <- Hp in Hb. destruct (rev l) as [|b bs].
  - exists (with_report a n tp), 0. symmetry in Hp. apply Permutation_nil_r, app_nil in Hp as [Hf ->]. rewrite Efs in Hf.
    destruct (decide (hs <> [] /\ una < ack)) as [|Hno]; [done|].
    destruct (decide (hs = [])) as [->|Hh].
    + exists (Z.max una ack), []. split; [done|]. constructor; try done; [|lia|intros _ p x Hpp; by apply not_elem_of_nil in Hpp].
      constructor; try done; [lia|simpl; lia|by apply (board_ext _ _ _ S6)].
    + exists fack, hs. split; [done|]. replace (Z.max una ack) with una by (destruct (decide (una < ack)); [by destruct Hno|lia]).
      constructor; try done; [|intros x Hx Hn; left; split; [lia|done]|by left|intros _ p x Hpp; by apply not_elem_of_nil in Hpp].
      replace (Z.max una ack) with una by (destruct (decide (una < ack)); [by destruct Hno|lia]).
      constructor; try done. by apply (board_ext _ _ _ S6).
  - set (lo := if decide (hs = []) then Z.max una ack else una). set (f0 := if decide (hs = []) then Z.max una ack else fack).
    rewrite fmap_cons. cbn [doack_blocks]. set (tp1 := with_report (blk b).2 _ _).
    assert (Hr : ready lo f0 smax hs tp1 /\ same_ends tp tp1 /\ forall m, enough tp m -> enough tp1 m).
    { subst tp1 lo f0. cbn [snd_holes with_report]. rewrite S4. destruct hs as [|h hs].
      - rewrite !decide_True by done. cbn [fmap list_fmap]. split; [|done]. constructor; try done; [lia|simpl; lia|by apply (board_ext _ _ _ S6)|].
        cbn [snd_fack with_report with_fack snd_una]. rewrite S1, sq_max by lia. done.
      - rewrite !decide_False by done. cbn [fmap list_fmap]. split; [|done]. constructor; try done; [by apply (board_ext _ _ _ S6)|]. by apply S7. }
    destruct Hr as (Hr & Sm & En).
    destruct (doack_applied lo f0 smax hs b bs tp1 Hr Hd) as (tp' & ch & f & res & E & Hap).
    { eapply Forall_impl; [exact Hb|]. subst lo. intros c (H1 & H2 & H3). destruct (decide (hs = [])) as [Hh|Hh]; [specialize (H3 Hh)|]; lia. }
    rewrite E. exists tp', ch. destruct (acked_applied una ack smax fack hs fs ps (b :: bs) tp tp1 lo f0 f res tp') as (fack' & hs' & Hk); try done.
    by exists fack', hs'.
Qed.

(** The option: at most four blocks of numbers of 32 bits. *)
Definition option_ok (sacks : option (list sackblk)) : Prop :=
  match sacks with Some l => Forall wire l /\ (length l <= TCP_MAX_SACK)%nat | None => True end.

(** The blocks of it that count. *)
Definition valid_blocks (tp : sndcb) (ack : Z) (sacks : option (list sackblk)) : list sackblk :=
  match sacks with Some l => List.filter (sack_valid tp ack) l | None => [] end.

Lemma doack_spec una ack smax fack hs tp sacks :
  score una smax fack hs tp -> smax - 2147483648 < ack <= smax -> option_ok sacks ->
  exists ps, valid_blocks tp (sq ack) sacks = blk <$> ps /\ Forall (beyond una ack smax) ps /\
    exists tp' ch fack' hs', tcp_sack_doack maxholes globalmaxholes zalloc tp sacks (sq ack) = Done (tp', ch) /\
      acked una ack smax fack hs ps tp fack' hs' tp'.
Proof.
  intros Hs Ha Ho. pose proof Hs as [S1 S2 S3 S4 S5 S6 S7 S8]. pose proof (holes_ok_le _ _ _ S5) as Hle.
  set (fs := if decide (hs <> [] /\ una < ack) then [(una, ack)] else []).
  assert (Ef : (if SEQ_LT (snd_una tp) (sq ack) && match snd_holes tp with [] => false | _ => true end then [(snd_una tp, sq ack)] else []) = blk <$> fs).
  { subst fs. rewrite S1, S4, sq_lt by lia. destruct hs as [|h hs]; [rewrite decide_False by naive_solver; by rewrite andb_false_r|].
    cbn [fmap list_fmap]. rewrite andb_true_r. destruct (Z.ltb_spec una ack); [rewrite decide_True by done|rewrite decide_False by lia]; done. }
  assert (Hfl : (length fs <= 1)%nat) by (subst fs; destruct (decide (hs <> [] /\ una < ack)); simpl; lia).
  unfold tcp_sack_doack. rewrite Ef. destruct sacks as [l|]; cbn [valid_blocks].
  - destruct Ho as [Hw Hl]. destruct (valid_all una ack smax tp l) as (ps & E & Hps); try done; [lia|]. exists ps. split; [done|]. split; [done|].
    rewrite E, <- fmap_app. pose proof (filter_length_le (sack_valid tp (sq ack)) l) as Hfi. rewrite E, length_fmap in Hfi.
    cbv beta iota zeta. rewrite (proj2 (Nat.ltb_ge _ _)) by (rewrite length_fmap, length_app; lia).
    apply doack_blocks_spec; try done. by do 2 eexists.
  - exists []. split; [done|]. split; [constructor|]. rewrite <- (app_nil_r fs).
    cbv beta iota zeta. rewrite (proj2 (Nat.ltb_ge _ _)) by (rewrite length_fmap, length_app; simpl; unfold TCP_MAX_SACK; lia).
    apply doack_blocks_spec; try done. exists (last_sack_ack tp), (sacked_bytes tp). by destruct tp.
Qed.

End score.
