(* ===== verification/TcpScoreProps.v ===== *)
(** Runs of the sender's scoreboard: acknowledgements with any SACK option, new data,
    retransmission, failed output, adjustment and release, beside the holes of other
    connections; and the routines that read the scoreboard. *)
From stdpp Require Import base list.
From Stdlib Require Import ZArith Lia.
From S2P Require Import Prelude TcpReass TcpReassSpec TcpSack TcpHoles TcpHolesSpec TcpScore.

Local Open Scope Z_scope.

Section props.
Context (maxholes globalmaxholes : Z) (zalloc : Z -> bool) (iss : Z).
#[local] Abbreviation sqh := (sqh iss).
#[local] Abbreviation sq := (sq iss).
#[local] Abbreviation blk := (blk iss).
#[local] Abbreviation score := (score iss).
#[local] Abbreviation acked := (acked maxholes globalmaxholes zalloc iss).
#[local] Abbreviation enough := (enough maxholes globalmaxholes zalloc).
#[local] Abbreviation tcp_sack_doack := (tcp_sack_doack maxholes globalmaxholes zalloc).

(** * The next hole *)

(** The first hole with bytes to retransmit, by walking the whole scoreboard. *)
Definition first_left (hs : list sackhole) : option sackhole := List.find (fun h => h_rxmit h <? h_end h) hs.

Lemma next_rexmit_sqh lo hi hs : hi - lo < 2147483648 -> holes_ok lo hi hs -> next_rexmit (sqh <$> hs) = sqh <$> first_left hs.
Proof.
  intros Hw. revert lo Hw; induction hs as [|h hs IH]; intros lo Hw; [done|]. intros (H1 & H2 & H3 & H4). rewrite fmap_cons. cbn [next_rexmit].
  pose proof (holes_ok_le _ _ _ H4). unfold first_left. simpl. rewrite sq_lt by lia. destruct (h_rxmit h <? h_end h); [done|]. apply (IH (h_end h)); [lia|done].
Qed.

Lemma full_first hs : (forall h, h ∈ hs -> h_end h <= h_rxmit h) -> first_left hs = None.
Proof.
  intros H. induction hs as [|h hs IH]; [done|]. unfold first_left. simpl. destruct (Z.ltb_spec (h_rxmit h) (h_end h)) as [Hl|_].
  - pose proof (H h ltac:(by left)). lia.
  - apply IH. intros k Hk. apply H. by right.
Qed.

Lemma first_app a b : (forall h, h ∈ a -> h_end h <= h_rxmit h) -> first_left (a ++ b) = first_left b.
Proof.
  intros H. induction a as [|h a IH]; [done|]. unfold first_left. simpl. destruct (Z.ltb_spec (h_rxmit h) (h_end h)) as [Hl|_].
  - pose proof (H h ltac:(by left)). lia.
  - apply IH. intros k Hk. apply H. by right.
Qed.

(** Holes before the hint are retransmitted in full. *)
Lemma hinted_before i a h b : hinted (Some i) (a ++ h :: b) -> h_id h = i -> forall k, k ∈ a -> h_end k <= h_rxmit k.
Proof.
  intros H Hi. induction a as [|x a IH]; intros k Hk; [by apply not_elem_of_nil in Hk|]. destruct H as [H1 H2]. apply elem_of_cons in Hk as [->|Hk]; [|by apply IH].
  destruct (decide (h_end x <= h_rxmit x)); [done|]. destruct (H1 ltac:(lia)) as (j & [= <-] & Hj). destruct Hj. rewrite fmap_app, elem_of_app, <- Hi. right. by left.
Qed.

Lemma hinted_none a k : hinted None a -> k ∈ a -> h_end k <= h_rxmit k.
Proof.
  induction a as [|x a IH]; intros H Hk; [by apply not_elem_of_nil in Hk|]. destruct H as [H1 H2]. apply elem_of_cons in Hk as [->|Hk]; [|by apply IH].
  destruct (decide (h_end x <= h_rxmit x)); [done|]. destruct (H1 ltac:(lia)) as (j & ? & _). done.
Qed.

Lemma holes_from_sqh i hs : i ∈ h_id <$> hs ->
  exists a h b, hs = a ++ h :: b /\ h_id h = i /\ holes_from i (sqh <$> hs) = Done (sqh h, sqh <$> b).
Proof.
  induction hs as [|h hs IH]; intros Hi; [by apply not_elem_of_nil in Hi|]. rewrite (fmap_cons sqh). cbn [holes_from]. change (h_id (sqh h)) with (h_id h).
  destruct (Z.eqb_spec (h_id h) i) as [<-|Hn]; [by exists [], h, hs|]. apply elem_of_cons in Hi as [?|Hi]; [by destruct Hn|].
  destruct (IH Hi) as (a & k & b & -> & E & Hf). by exists (h :: a), k, b.
Qed.

(** The hint moved to the first hole that is left. *)
Lemma hinted_first o hs h : first_left hs = Some h -> NoDup (h_id <$> hs) -> hinted o hs -> hinted (Some (h_id h)) hs.
Proof.
  intros Hf Hd Hh. assert (Hg : forall l, (h_id h) ∉ h_id <$> l -> hinted (Some (h_id h)) l).
  { induction l as [|x l IH]; [done|]. intros [_ Hx]%not_elem_of_cons. split; [intros _; by exists (h_id h)|by apply IH]. }
  induction hs as [|x hs IH]; [done|]. destruct Hh as [H1 H2]. unfold first_left in Hf. simpl in Hf, Hd. apply NoDup_cons in Hd as [Hx Hd].
  destruct (Z.ltb_spec (h_rxmit x) (h_end x)) as [Hl|Hl].
  - injection Hf as ->. split; [intros _; by exists (h_id h)|]. by apply Hg.
  - split; [lia|]. by apply IH.
Qed.

Lemma output_spec una smax fack hs tp : score una smax fack hs tp ->
  exists tp', tcp_sack_output tp = Done (tp', sqh <$> first_left hs, rexmitted hs) /\ score una smax fack hs tp' /\ same_ends tp tp' /\
    snd_holes tp' = snd_holes tp /\ match first_left hs with Some h => nexthole tp' = Some (h_id h) | None => tp' = tp end.
Proof.
  intros Hs. pose proof Hs as [S1 S2 S3 S4 S5 S6 S7 S8]. destruct S6 as (C & E & Hh). unfold tcp_sack_output. rewrite E, S4.
  destruct (nexthole tp) as [i|] eqn:En.
  - pose proof (ct_hint _ _ C) as Hi. rewrite En in Hi. destruct (holes_from_sqh i hs Hi) as (a & h & b & Eh & Eid & ->). cbn [mbind outcome_bind].
    pose proof S5 as Hok. rewrite Eh, holes_ok_app in Hok. destruct Hok as (m & Ha & H1 & H2 & H3 & H4). pose proof (holes_ok_le _ _ _ Ha). pose proof (holes_ok_le _ _ _ H4).
    assert (Ef : first_left hs = first_left (h :: b)) by (rewrite Eh; apply first_app; rewrite Eh in Hh; by eapply hinted_before).
    change (h_rxmit (sqh h)) with (sq (h_rxmit h)). change (h_end (sqh h)) with (sq (h_end h)). rewrite sq_lt by lia. rewrite (next_rexmit_sqh (h_end h) fack b) by (done || lia).
    assert (Ef2 : first_left (h :: b) = if h_rxmit h <? h_end h then Some h else first_left b) by done.
    destruct (Z.ltb_spec (h_rxmit h) (h_end h)) as [Hl|Hl].
    + exists tp. rewrite Ef, Ef2. split; [done|]. split; [done|]. split; [done|]. split; [done|]. by rewrite En, Eid.
    + destruct (first_left b) as [k|] eqn:Ek; rewrite Ef, Ef2; [|by exists tp]. eexists. split; [done|]. split; [|done].
      constructor; try done. split; [|split; [done|]].
      * destruct C as [C1 C2 C3 C4 C5]. constructor; try done. cbn [nexthole with_hint]. change (h_id (sqh k)) with (h_id k).
        apply find_some in Ek as [Ek _]. rewrite Eh, fmap_app, elem_of_app. right. right. apply list_elem_of_fmap. exists k. split; [done|]. by apply list_elem_of_In.
      * cbn [nexthole with_hint]. change (h_id (sqh k)) with (h_id k). eapply hinted_first; [by rewrite Ef, Ef2|apply C|exact Hh].
  - assert (Ef : first_left hs = None) by (apply full_first; intros k; by apply hinted_none). exists tp. by rewrite Ef.
Qed.

(** * Retransmission *)

Lemma sq_add x d : u32 (sq x + d) = sq (x + d).
Proof. unfold TcpSack.sq. rewrite u32_add. f_equal. lia. Qed.

Lemma sq_period x : sq (x + 4294967296) = sq x.
Proof. unfold TcpSack.sq, wrapu. replace (iss + (x + 4294967296)) with (iss + x + 1 * 2 ^ 32) by lia. apply Z_mod_plus_full. Qed.

(** What snd_recover leaves of a hole. *)
Lemma recover_part r e rec : 0 <= rec < 4294967296 -> 0 < e - r < 2147483648 ->
  SEQ_GT (sq e) rec = true -> SEQ_GEQ (sq r) rec = false -> 0 < u32 (rec - sq r) < e - r.
Proof.
  intros Hr He. rewrite (sq_near iss rec r) by done. set (d := s32 (rec - sq r)).
  assert (Hd : -2147483648 <= d < 2147483648).
  { subst d. unfold wraps. change (2 ^ 32) with 4294967296. change (2 ^ (32 - 1)) with 2147483648. pose proof (Z.mod_pos_bound (rec - sq r + 2147483648) 4294967296). lia. }
  clearbody d. destruct (decide (d = -2147483648)) as [->|Hn].
  - replace (r + -2147483648) with (r + 2147483648 - 4294967296) by lia. pose proof (sq_period (r + 2147483648 - 4294967296)) as Hp.
    replace (r + 2147483648 - 4294967296 + 4294967296) with (r + 2147483648) in Hp by lia. rewrite <- Hp, sq_gt by lia. rewrite Z.ltb_lt. lia.
  - intros H1 H2. rewrite sq_gt in H1 by (destruct (decide (d < 0)); [|lia]; rewrite sq_geq in H2 by lia; rewrite Z.leb_gt in H2; lia).
    rewrite sq_geq in H2 by lia. rewrite Z.leb_gt in H2. rewrite Z.ltb_lt in H1. rewrite sq_sub by lia. lia.
Qed.

Lemma cwin_nonneg w c x : 0 <= sack_cwin w c x.
Proof. unfold sack_cwin. destruct (Z.ltb_spec (u32 (Z.min (u32 w) (u32 c) - x)) 0); lia. Qed.

Lemma first_in hs h : first_left hs = Some h -> exists a b, hs = a ++ h :: b /\ h_rxmit h < h_end h.
Proof.
  intros H. apply find_some in H as [Hi Hl%Z.ltb_lt]. apply in_split in Hi as (a & b & ->). by exists a, b.
Qed.

Lemma pick_spec una smax fack hs tp wnd cwnd rec : score una smax fack hs tp -> 0 <= rec < 4294967296 ->
  exists tp' o, sack_pick tp wnd cwnd rec = Done (tp', o) /\ score una smax fack hs tp' /\ same_ends tp tp' /\
    match o with
    | Some (p, len) => exists h, first_left hs = Some h /\ p = sqh h /\ 0 <= len <= h_end h - h_rxmit h /\ nexthole tp' = Some (h_id h)
    | None => True
    end.
Proof.
  intros Hs Hr. destruct (output_spec _ _ _ _ _ Hs) as (tp' & E & Hs' & Sm & Eh & Hn). unfold sack_pick. rewrite E. cbn [mbind outcome_bind].
  destruct (first_left hs) as [h|] eqn:Ef; [|by exists tp', None]. cbn [fmap option_fmap option_map].
  pose proof Hs' as [S1 S2 S3 S4 S5 S6 S7 S8]. destruct (first_in _ _ Ef) as (a & b & -> & Hl). destruct (holes_sides _ _ _ _ _ 0 S5) as (G1 & G2 & G3 & _).
  change (h_end (sqh h)) with (sq (h_end h)). change (h_rxmit (sqh h)) with (sq (h_rxmit h)).
  destruct (SEQ_GT (sq (h_end h)) rec && SEQ_GEQ (sq (h_rxmit h)) rec) eqn:Eb; [by exists tp', None|].
  rewrite S1, sq_cmp by lia. destruct (Z.ltb_spec (h_rxmit h - una) 0); [lia|]. do 2 eexists. split; [done|]. split; [done|]. split; [done|].
  exists h. split; [done|]. split; [done|]. split; [|done]. pose proof (cwin_nonneg wnd cwnd (rexmitted (a ++ h :: b))).
  destruct (SEQ_GT (sq (h_end h)) rec) eqn:Eg; [|rewrite sq_sub; lia]. cbn [andb] in Eb.
  pose proof (recover_part (h_rxmit h) (h_end h) rec Hr ltac:(lia) Eg Eb). lia.
Qed.

Definition moved (h : sackhole) (d : Z) : sackhole := Hole (h_id h) (h_start h) (h_end h) (h_rxmit h + d).

Lemma set_rxmit_sqh a h b d : h_id h ∉ h_id <$> a -> set_rxmit (h_id h) d (sqh <$> a ++ h :: b) = Done (sqh <$> a ++ moved h d :: b).
Proof.
  induction a as [|x a IH]; intros Hn.
  - simpl. rewrite Z.eqb_refl, sq_add. done.
  - simpl in Hn. apply not_elem_of_cons in Hn as [Hx Hn]. cbn [app]. rewrite (fmap_cons sqh). cbn [set_rxmit]. change (h_id (sqh x)) with (h_id x).
    destruct (Z.eqb_spec (h_id x) (h_id h)); [by destruct Hx|]. rewrite (IH Hn). done.
Qed.

Lemma ids_before tp a h b : board tp (a ++ h :: b) -> h_id h ∉ h_id <$> a.
Proof.
  intros (C & _). pose proof (ct_nodup _ _ C) as Hd. rewrite fmap_app in Hd. apply NoDup_app in Hd as (_ & Hd & _). intros Hi. apply (Hd _ Hi). by left.
Qed.

(** A hole moves what it has retransmitted. *)
Lemma score_moved una smax fack a h b tp d : score una smax fack (a ++ h :: b) tp -> h_start h <= h_rxmit h + d <= h_end h ->
  hinted (nexthole tp) (a ++ moved h d :: b) ->
  score una smax fack (a ++ moved h d :: b) (with_holes (sqh <$> a ++ moved h d :: b) (add_rexmit d tp)) /\ 0 <= sack_bytes_rexmit (add_rexmit d tp).
Proof.
  intros [S1 S2 S3 S4 S5 S6 S7 S8] Hd Hh. destruct S6 as (C & E & _). destruct (holes_sides _ _ _ _ _ 0 S5) as (G1 & G2 & G3 & _).
  assert (Hok : holes_ok una fack (a ++ [moved h d] ++ b)) by (eapply holes_ok_replace; [exact S5|simpl; lia]).
  pose proof (rexmitted_range _ _ _ Hok) as Hr. assert (Er : rexmitted (a ++ moved h d :: b) = rexmitted (a ++ h :: b) + d) by (rewrite !rexmitted_app; simpl; lia).
  simpl app in Hr. rewrite Er in Hr. assert (Eb : sack_bytes_rexmit (add_rexmit d tp) = rexmitted (a ++ h :: b) + d) by (rewrite rexmit_add; lia).
  split; [|lia]. constructor; try done; [|intros _; apply S7; by destruct a|intros Ha; by destruct a].
  split; [|split; [cbn; rewrite Er; exact Eb|done]]. assert (Ei : h_id <$> a ++ moved h d :: b = h_id <$> a ++ h :: b) by (by rewrite !fmap_app). rewrite Ei. by destruct C.
Qed.

Lemma sent_spec una smax fack hs tp h len : score una smax fack hs tp -> first_left hs = Some h -> 0 <= len <= h_end h - h_rxmit h ->
  exists tp' hs', sack_sent (h_id h) len tp = Done tp' /\ score una smax fack hs' tp' /\ (forall x, cover hs' x <-> cover hs x) /\
    exists tp'', sack_unsent (h_id h) len tp' = Done tp'' /\ score una smax fack hs tp''.
Proof.
  intros Hs Hf Hlen. destruct (first_in _ _ Hf) as (a & b & -> & Hl). pose proof Hs as [S1 S2 S3 S4 S5 S6 S7 S8].
  destruct (holes_sides _ _ _ _ _ 0 S5) as (G1 & G2 & G3 & _). pose proof (ids_before _ _ _ _ S6) as Hn. unfold sack_sent. rewrite S4, set_rxmit_sqh by done.
  cbn [mbind outcome_bind]. set (hs' := a ++ moved h len :: b). set (tp1 := with_holes _ _).
  destruct (score_moved una smax fack a h b tp len Hs) as [Hs1 _]; [lia|apply hinted_trim with (h := h); [apply S6|done|simpl; lia]|]. fold hs' tp1 in Hs1.
  exists tp1, hs'. split; [done|]. split; [done|]. split; [intros x; subst hs'; by rewrite !cover_app|].
  unfold sack_unsent. change (snd_holes tp1) with (sqh <$> hs'). subst hs'. change (h_id h) with (h_id (moved h len)). rewrite set_rxmit_sqh by done. cbn [mbind outcome_bind].
  assert (Em : moved (moved h len) (- len) = h) by (unfold moved; simpl; destruct h; f_equal; simpl; lia).
  destruct (score_moved una smax fack a (moved h len) b tp1 (- len) Hs1) as [Hs2 Hz]; [simpl; lia|rewrite Em; apply S6|].
  cbv zeta. cbn [sack_bytes_rexmit with_holes]. destruct (Z.ltb_spec (sack_bytes_rexmit (add_rexmit (- len) tp1)) 0); [lia|].
  rewrite Em in *. by eexists.
Qed.

(** * Release and adjustment *)

Lemma free_loop_spec hs tp : counts tp (h_id <$> hs) ->
  exists tp', free_loop (sqh <$> hs) tp = Done (with_holes [] tp') /\ counts tp' [] /\ same_snd tp tp'.
Proof.
  revert tp; induction hs as [|h hs IH]; intros tp C; [by exists tp|]. rewrite (fmap_cons sqh). cbn [free_loop].
  destruct (counts_remove maxholes globalmaxholes zalloc iss tp [] h hs) as (tp1 & -> & C1 & _ & Sm & _); [done|]. cbn [mbind outcome_bind].
  destruct (IH tp1 C1) as (tp2 & E & C2 & Sm2). exists tp2. split; [done|]. split; [done|]. by eapply same_trans.
Qed.

Lemma free_spec una smax fack hs tp : score una smax fack hs tp ->
  exists tp', tcp_free_sackholes tp = Done tp' /\ score una smax una [] tp'.
Proof.
  intros [S1 S2 S3 S4 S5 S6 S7 S8]. destruct S6 as (C & _). pose proof (holes_ok_le _ _ _ S5). destruct (free_loop_spec hs tp C) as (tp1 & E & C1 & Sm).
  unfold tcp_free_sackholes. rewrite S4, E. cbn [mbind outcome_bind]. cbv zeta. cbn [snd_numholes nexthole with_hint with_holes].
  pose proof C1 as [D1 D2 D3 D4 D5]. rewrite D1. destruct (nexthole tp1) as [i|] eqn:En; [by apply not_elem_of_nil in D5|]. cbn. eexists. split; [done|].
  destruct Sm as (M1 & M2 & _). constructor; try done; cbn; try congruence; lia.
Qed.

Lemma adjust_loop_spec lo fack nxt cur hs : holes_ok lo fack (cur :: hs) -> fack - lo < 2147483648 -> -2147483648 <= nxt - fack < 0 -> lo <= nxt ->
  exists nxt', adjust_loop (sq nxt) (sq fack) (sqh cur) (sqh <$> hs) = sq nxt' /\ nxt <= nxt' <= fack /\
    (forall x, nxt <= x < nxt' -> cover (cur :: hs) x -> x < h_start cur) /\
    (h_start cur <= nxt -> cover (cur :: hs) nxt' \/ nxt' = fack) /\ (nxt < h_start cur -> nxt' = nxt).
Proof.
  revert lo cur; induction hs as [|p hs IH]; intros lo cur Hok Hw Hn Hl; pose proof Hok as (H1 & H2 & H3 & H4); pose proof (holes_ok_le _ _ _ H4);
    rewrite ?(fmap_cons sqh); cbn [adjust_loop fmap list_fmap]; change (h_end (sqh cur)) with (sq (h_end cur)); rewrite sq_lt by lia.
  - destruct (Z.ltb_spec nxt (h_end cur)) as [C|C].
    + exists nxt. split; [done|]. split; [lia|]. split; [lia|]. split; [|done]. intros Hs. left. left. unfold in_hole. lia.
    + exists fack. split; [done|]. split; [lia|]. split; [|split; [by right|lia]]. intros x Hx [Hc|[]]. unfold in_hole in Hc. lia.
  - destruct (Z.ltb_spec nxt (h_end cur)) as [C|C].
    + exists nxt. split; [done|]. split; [lia|]. split; [lia|]. split; [|done]. intros Hs. left. left. unfold in_hole. lia.
    + pose proof H4 as (P1 & P2 & P3 & P4). pose proof (holes_ok_le _ _ _ P4). change (h_start (sqh p)) with (sq (h_start p)). rewrite sq_geq by lia.
      destruct (Z.leb_spec (h_start p) nxt) as [D|D].
      * destruct (IH (h_end cur) p H4 ltac:(lia) Hn ltac:(lia)) as (nxt' & -> & Q1 & Q2 & Q3 & Q4). exists nxt'. split; [done|]. split; [done|]. split; [|split; [|lia]].
        -- intros x Hx [Hc|Hc]; [unfold in_hole in Hc; lia|]. specialize (Q2 x Hx Hc). lia.
        -- intros _. destruct (Q3 D) as [Hc|Hc]; [left; by right|by right].
      * exists (h_start p). split; [done|]. split; [lia|]. split; [|split; [|lia]].
        -- intros x Hx [Hc|Hc]; [unfold in_hole in Hc; lia|]. pose proof (cover_range _ _ _ _ H4 Hc) as Hr. destruct Hc as [Hc|Hc]; [unfold in_hole in Hc; lia|].
           pose proof (cover_range _ _ _ _ P4 Hc). lia.
        -- intros _. left. right. left. unfold in_hole. lia.
Qed.

(** * Runs *)

(** The acknowledgements that arrive. *)
Variable arrives : Z -> option (list sackblk) -> Prop.

Definition reported (reps : list (Z * Z)) (x : Z) : Prop := exists p, p ∈ reps /\ within p x.

(** [una] and [smax] are the positions of snd_una and snd_max, and [reps] the valid
    blocks of the peer since the last release. *)
Inductive board_reach : sndcb -> Z -> Z -> list (Z * Z) -> Prop :=
| br_start tp una smax :
    snd_una tp = sq una -> snd_max tp = sq smax -> una <= smax < una + 2147483648 ->
    snd_holes tp = [] -> snd_numholes tp = 0 -> 0 <= globalholes tp -> nexthole tp = None -> sack_bytes_rexmit tp = 0 ->
    board_reach tp una smax []
| br_ack tp una smax reps ack sacks ps tp' ch :
    board_reach tp una smax reps -> arrives ack sacks -> smax - 2147483648 < ack <= smax -> option_ok sacks ->
    valid_blocks tp (sq ack) sacks = blk <$> ps -> Forall (beyond una ack smax) ps ->
    tcp_sack_doack tp sacks (sq ack) = Done (tp', ch) ->
    board_reach (with_una (sq (Z.max una ack)) tp') (Z.max una ack) smax (ps ++ reps)
| br_send tp una smax reps smax' nxt :
    board_reach tp una smax reps -> smax <= smax' < una + 2147483648 -> board_reach (with_nxt nxt (with_max (sq smax') tp)) una smax' reps
| br_adjust tp una smax reps : board_reach tp una smax reps -> board_reach (tcp_sack_adjust tp) una smax reps
| br_rexmit tp una smax reps wnd cwnd rec p len n tp1 tp2 :
    board_reach tp una smax reps -> 0 <= rec < 4294967296 -> sack_pick tp wnd cwnd rec = Done (tp1, Some (p, len)) ->
    0 <= n <= len -> sack_sent (h_id p) n tp1 = Done tp2 -> board_reach tp2 una smax reps
| br_failed tp una smax reps wnd cwnd rec p len n tp1 tp2 tp3 :
    board_reach tp una smax reps -> 0 <= rec < 4294967296 -> sack_pick tp wnd cwnd rec = Done (tp1, Some (p, len)) ->
    0 <= n <= len -> sack_sent (h_id p) n tp1 = Done tp2 -> sack_unsent (h_id p) n tp2 = Done tp3 -> board_reach tp3 una smax reps
| br_free tp una smax reps tp' : board_reach tp una smax reps -> tcp_free_sackholes tp = Done tp' -> board_reach tp' una smax []
| br_other tp una smax reps g z :
    board_reach tp una smax reps -> snd_numholes tp <= g -> zcalls tp <= z ->
    board_reach (with_count (snd_numholes tp) g z (sboverflow tp) tp) una smax reps.

(** Blocks behind una are determined by their numbers. *)
Lemma blk_inj una ack smax ps qs : smax < una + 2147483648 -> Forall (beyond una ack smax) ps -> Forall (beyond una ack smax) qs ->
  blk <$> ps = blk <$> qs -> ps = qs.
Proof.
  intros Hw. revert qs; induction ps as [|p ps IH]; intros [|q qs] Hp Hq E; try done. apply Forall_cons in Hp as [[P1 P2] Hp]. apply Forall_cons in Hq as [[Q1 Q2] Hq].
  simpl in E. injection E as E1 E2 E. f_equal; [|by apply IH]. pose proof (sq_cmp iss p.1 q.1 ltac:(lia)) as D1. pose proof (sq_cmp iss p.2 q.2 ltac:(lia)) as D2.
  rewrite E1, Z.sub_diag in D1. rewrite E2, Z.sub_diag in D2. change (s32 0) with 0 in *. destruct p, q. simpl in *. f_equal; lia.
Qed.

Definition known (una smax : Z) (reps : list (Z * Z)) (tp : sndcb) : Prop :=
  exists fack hs, score una smax fack hs tp /\ forall x, una <= x < fack -> ~ cover hs x -> reported reps x.

(** Only fields that [score] does not mention, or that it bounds, have changed. *)
Lemma known_ext una smax smax' reps tp tp' : known una smax reps tp -> smax <= smax' < una + 2147483648 ->
  snd_una tp' = snd_una tp -> snd_max tp' = sq smax' -> snd_holes tp' = snd_holes tp -> snd_fack tp' = snd_fack tp ->
  snd_numholes tp' = snd_numholes tp -> globalholes tp' >= snd_numholes tp -> zcalls tp' >= zcalls tp -> nexthole tp' = nexthole tp ->
  sack_bytes_rexmit tp' = sack_bytes_rexmit tp -> known una smax' reps tp'.
Proof.
  intros (fack & hs & [S1 S2 S3 S4 S5 S6 S7 S8] & Hk) Hm E1 E2 E3 E4 E5 E6 E7 E8 E9. exists fack, hs. split; [|done].
  destruct S6 as ([C1 C2 C3 C4 C5] & E & Hh). constructor; try done; try congruence; [lia| |intros Hn; rewrite E4; by apply S7].
  split; [|split; [congruence|by rewrite E8]]. constructor; try congruence; try lia; [|by rewrite E8]. eapply Forall_impl; [exact C4|]. simpl. lia.
Qed.

Lemma adjust_ends tp : exists n, tcp_sack_adjust tp = with_nxt n tp.
Proof.
  unfold tcp_sack_adjust. destruct (snd_holes tp) as [|c r] eqn:E; [exists (snd_nxt tp); by destruct tp|].
  destruct (SEQ_GEQ _ _); [exists (snd_nxt tp); by destruct tp|by eexists].
Qed.

Lemma acked_known una ack smax fack hs ps reps tp fack' hs' tp' : acked una ack smax fack hs ps tp fack' hs' tp' ->
  (forall x, una <= x < fack -> ~ cover hs x -> reported reps x) ->
  known (Z.max una ack) smax (ps ++ reps) (with_una (sq (Z.max una ack)) tp').
Proof.
  intros [A1 A2 A3 A4 A5] Hk. exists fack', hs'. split; [done|]. intros x Hx Hn. unfold reported. setoid_rewrite elem_of_app.
  destruct (A3 x Hx Hn) as [[H1 H2]|(p & Hp & Hw)]; [|exists p; auto]. destruct (Hk x ltac:(lia) H2) as (p & Hp & Hw). exists p. auto.
Qed.

Lemma reach_known tp una smax reps : board_reach tp una smax reps -> known una smax reps tp.
Proof.
  induction 1 as [tp una smax E1 E2 Hw E3 E4 E5 E6 E7|tp una smax reps ack sacks ps tp' ch _ IH _ Ha Ho Ev Hb E|tp una smax reps smax' nxt _ IH Hm|tp una smax reps _ IH
    |tp una smax reps wnd cwnd rec p len n tp1 tp2 _ IH Hr Ep Hn Es|tp una smax reps wnd cwnd rec p len n tp1 tp2 tp3 _ IH Hr Ep Hn Es Eu|tp una smax reps tp' _ IH E|tp una smax reps g z _ IH Hg Hz].
  - exists una, []. split; [|lia]. constructor; try done; [simpl; lia|]. split; [|by rewrite E6]. constructor; rewrite ?E4, ?E6; try done; constructor.
  - destruct IH as (fack & hs & Hs & Hk). destruct (doack_spec maxholes globalmaxholes zalloc iss _ _ _ _ _ _ _ Hs Ha Ho) as (qs & Ev' & Hq & tp1 & ch1 & f1 & h1 & E' & Hak).
    rewrite Ev in Ev'. apply (blk_inj una ack smax) in Ev'; [|by destruct Hs; lia|done|done]. subst qs. rewrite E in E'. injection E' as <- <-. by eapply acked_known.
  - apply (known_ext una smax smax' reps tp); try done; simpl; lia || (destruct IH as (? & ? & [? ? ? ? ? ([? ? ? ? ?] & _) ? ?] & _); lia).
  - destruct (adjust_ends tp) as (n & ->). destruct IH as (f & hs & Hs & Hk). pose proof Hs as [? ? ? ? ? ([? ? ? ? ?] & _) ? ?].
    apply (known_ext una smax smax reps tp); try done; simpl; try lia. by exists f, hs.
  - destruct IH as (f & hs & Hs & Hk). destruct (pick_spec _ _ _ _ _ wnd cwnd rec Hs Hr) as (tp1' & o & Ep' & Hs1 & _ & Ho). rewrite Ep in Ep'. injection Ep' as <- <-.
    destruct Ho as (h & Hf & -> & Hl & _). destruct (sent_spec _ _ _ _ _ _ n Hs1 Hf ltac:(lia)) as (tp2' & hs' & Es' & Hs2 & Hc & _).
    change (h_id (sqh h)) with (h_id h) in Es. rewrite Es in Es'. injection Es' as <-. exists f, hs'. split; [done|]. intros x Hx Hnc. apply (Hk x Hx). by rewrite <- Hc.
  - destruct IH as (f & hs & Hs & Hk). destruct (pick_spec _ _ _ _ _ wnd cwnd rec Hs Hr) as (tp1' & o & Ep' & Hs1 & _ & Ho). rewrite Ep in Ep'. injection Ep' as <- <-.
    destruct Ho as (h & Hf & -> & Hl & _). destruct (sent_spec _ _ _ _ _ _ n Hs1 Hf ltac:(lia)) as (tp2' & hs' & Es' & _ & _ & tp3' & Eu' & Hs3).
    change (h_id (sqh h)) with (h_id h) in Es, Eu. rewrite Es in Es'. injection Es' as <-. rewrite Eu in Eu'. injection Eu' as <-. by exists f, hs.
  - destruct IH as (f & hs & Hs & Hk). destruct (free_spec _ _ _ _ _ Hs) as (tp1 & E1 & Hs1). rewrite E in E1. injection E1 as <-. exists una, []. split; [done|lia].
  - destruct IH as (f & hs & Hs & Hk). pose proof Hs as [? ? ? Hh Hok ([? ? ? ? ?] & _) ? ?]. pose proof (holes_ok_le _ _ _ Hok).
    apply (known_ext una smax smax reps tp); try done; simpl; try lia. by exists f, hs.
Qed.

(** C11. In every state that acknowledgements with arbitrary SACK options,
    transmissions, retransmissions, timeouts and other connections lead to, the
    scoreboard is ordered holes between snd_una and snd_fack with right counters and
    a valid hint, and every byte up to snd_fack that is in no hole was reported by
    the peer.  On each further acknowledgement with up to four blocks of any
    numbers tcp_sack_doack returns, no assertion of its loop and of the holes fails, the bytes
    it takes from the holes are in valid blocks, and with room for the holes it takes
    all of them. *)
Theorem scoreboard_sound tp una smax reps :
  board_reach tp una smax reps ->
  exists fack hs, score una smax fack hs tp /\
    (forall x, una <= x < fack -> ~ cover hs x -> reported reps x) /\
    forall ack sacks, smax - 2147483648 < ack <= smax -> option_ok sacks ->
      exists ps tp' ch fack' hs', valid_blocks tp (sq ack) sacks = blk <$> ps /\ Forall (beyond una ack smax) ps /\
        tcp_sack_doack tp sacks (sq ack) = Done (tp', ch) /\ acked una ack smax fack hs ps tp fack' hs' tp'.
Proof.
  intros H. destruct (reach_known _ _ _ _ H) as (fack & hs & Hs & Hk). exists fack, hs. split; [done|]. split; [done|]. intros ack sacks Ha Ho.
  destruct (doack_spec maxholes globalmaxholes zalloc iss _ _ _ _ _ _ _ Hs Ha Ho) as (ps & Ev & Hb & tp' & ch & f & h & E & Hak). by exists ps, tp', ch, f, h.
Qed.

(** The bytes of all holes that were retransmitted. *)
Definition all_rexmitted (l : list sackhole) : Z := foldr (fun h n => u32 (h_rxmit h - h_start h) + n) 0 l.

Lemma all_rexmitted_sqh lo hi hs : hi - lo < 2147483648 -> holes_ok lo hi hs -> all_rexmitted (sqh <$> hs) = rexmitted hs.
Proof.
  revert lo; induction hs as [|h hs IH]; intros lo Hw; [done|]. intros (H1 & H2 & H3 & H4). rewrite (fmap_cons sqh). cbn [all_rexmitted foldr rexmitted].
  pose proof (holes_ok_le _ _ _ H4). cbn [h_rxmit h_start TcpHolesSpec.sqh]. rewrite sq_sub by lia. f_equal. apply (IH (h_end h)); [lia|done].
Qed.

(** C12. The hints are exact: on every scoreboard that a run reaches tcp_sack_output
    returns the hole and the number of bytes that a walk over all holes gives, and
    what tcp_output then takes of the hole lies in front of its end, whatever the
    windows and snd_recover are. *)
Theorem sack_output_walk tp una smax reps :
  board_reach tp una smax reps ->
  (exists tp', tcp_sack_output tp = Done (tp', next_rexmit (snd_holes tp), all_rexmitted (snd_holes tp)) /\ snd_holes tp' = snd_holes tp) /\
  forall wnd cwnd rec, 0 <= rec < 4294967296 ->
    exists tp' o, sack_pick tp wnd cwnd rec = Done (tp', o) /\
      forall p len, o = Some (p, len) -> next_rexmit (snd_holes tp) = Some p /\ 0 <= len <= u32 (h_end p - h_rxmit p).
Proof.
  intros H. destruct (reach_known _ _ _ _ H) as (fack & hs & Hs & _). pose proof Hs as [S1 S2 S3 S4 S5 S6 S7 S8].
  assert (En : next_rexmit (snd_holes tp) = sqh <$> first_left hs) by (rewrite S4; apply (next_rexmit_sqh una fack); [lia|done]). split.
  - destruct (output_spec _ _ _ _ _ Hs) as (tp' & E & _ & _ & Eh & _). exists tp'. split; [|done]. rewrite En, E, S4, (all_rexmitted_sqh una fack) by (done || lia). done.
  - intros wnd cwnd rec Hr. destruct (pick_spec _ _ _ _ _ wnd cwnd rec Hs Hr) as (tp' & o & E & _ & _ & Ho). exists tp', o. split; [done|]. intros p len ->.
    destruct Ho as (h & Hf & -> & Hl & _). rewrite En, Hf. split; [done|]. destruct (first_in _ _ Hf) as (a & b & -> & Hlt). destruct (holes_sides _ _ _ _ _ 0 S5) as (G1 & G2 & G3 & _).
    cbn [h_end h_rxmit TcpHolesSpec.sqh]. rewrite sq_sub by lia. done.
Qed.

(** After a timeout tcp_sack_adjust moves snd_nxt forward, only over bytes that
    the peer has reported, and to a byte of a hole or to snd_fack, unless all holes lie
    behind it. *)
Theorem sack_adjust_skips tp una smax reps nxt :
  board_reach tp una smax reps -> snd_nxt tp = sq nxt -> una <= nxt <= smax ->
  exists nxt', tcp_sack_adjust tp = with_nxt (sq nxt') tp /\ nxt <= nxt' <= smax /\
    (forall x, nxt <= x < nxt' -> reported reps x) /\
    exists fack hs, score una smax fack hs tp /\ (cover hs nxt' \/ fack <= nxt' \/ forall x, cover hs x -> nxt' < x).
Proof.
  intros H En Hn. destruct (reach_known _ _ _ _ H) as (fack & hs & Hs & Hk). pose proof Hs as [S1 S2 S3 S4 S5 S6 S7 S8].
  pose proof (holes_ok_le _ _ _ S5). assert (Htp : tp = with_nxt (sq nxt) tp) by (rewrite <- En; by destruct tp). unfold tcp_sack_adjust. rewrite S4. destruct hs as [|c hs].
  { exists nxt. split; [done|]. split; [lia|]. split; [lia|]. exists fack, []. split; [done|]. right. left. rewrite (S8 eq_refl). lia. }
  rewrite (fmap_cons sqh), (S7 ltac:(done)), En, sq_geq by lia. destruct (Z.leb_spec fack nxt) as [C|C].
  { exists nxt. split; [done|]. split; [lia|]. split; [lia|]. exists fack, (c :: hs). split; [done|]. by right; left. }
  destruct (adjust_loop_spec una fack nxt c hs S5 ltac:(lia) ltac:(lia) ltac:(lia)) as (n & -> & Q1 & Q2 & Q3 & Q4).
  exists n. split; [done|]. split; [lia|]. split.
  - intros x Hx. apply Hk; [lia|]. intros Hc. specialize (Q2 x Hx Hc). pose proof (Q4 ltac:(lia)). lia.
  - exists fack, (c :: hs). split; [done|]. destruct (decide (h_start c <= nxt)) as [Hc|Hc]; [destruct (Q3 Hc) as [?| ->]; [by left|right; left; lia]|].
    right. right. rewrite (Q4 ltac:(lia)). intros x Hx. pose proof S5 as (_ & _ & _ & H4). destruct Hx as [Hx|Hx]; [unfold in_hole in Hx; lia|].
    pose proof (cover_range _ _ _ _ H4 Hx). pose proof S5 as (_ & ? & _). lia.
Qed.
End props.

(** * A run *)

Module Run.
Definition iss : Z := 4294967290.
Definition zalloc (n : Z) : bool := true.
Definition tp0 : sndcb := Snd (sq iss 0) (sq iss 100) (sq iss 100) 0 [] 0 5 None 0 0 0 7 0.
Definition ack (tp : sndcb) (sacks : list (Z * Z)) (a : Z) : sndcb :=
  match tcp_sack_doack 128 65536 zalloc tp (Some (blk iss <$> sacks)) (sq iss a) with Done (tp, _) => tp | _ => tp end.
(** [20, 30) and [40, 60) have arrived, and snd_nxt is moved back to 25. *)
Definition tp1 : sndcb := with_una (sq iss 0) (ack tp0 [(20, 30); (40, 60)] 0).
Definition tp2 : sndcb := with_nxt (sq iss 25) (with_max (sq iss 100) tp1).

Lemma board2_reach : board_reach 128 65536 zalloc iss (fun _ _ => True) tp2 0 100 [(20, 30); (40, 60)].
Proof.
  apply br_send with (smax := 100); [|lia].
  refine (br_ack 128 65536 zalloc iss (fun _ _ => True) tp0 0 100 [] 0 (Some (blk iss <$> [(20, 30); (40, 60)])) [(20, 30); (40, 60)] (ack tp0 [(20, 30); (40, 60)] 0) 1 _ _ _ _ _ _ _).
  - by constructor.
  - done.
  - lia.
  - split; [|simpl; unfold TCP_MAX_SACK; lia]. repeat constructor; vm_compute; done.
  - vm_compute. reflexivity.
  - repeat constructor; simpl; lia.
  - vm_compute. reflexivity.
Defined.

Lemma scoreboard_sound_witness :
  (fun h => (h_start h, h_end h)) <$> snd_holes tp2 = [(sq iss 0, sq iss 20); (sq iss 30, sq iss 40)] /\
  exists fack hs, score iss 0 100 fack hs tp2 /\
    (forall x, 0 <= x < fack -> ~ cover hs x -> reported [(20, 30); (40, 60)] x) /\
    forall ack sacks, 100 - 2147483648 < ack <= 100 -> option_ok sacks ->
      exists ps tp' ch fack' hs', valid_blocks tp2 (sq iss ack) sacks = blk iss <$> ps /\ Forall (beyond 0 ack 100) ps /\
        tcp_sack_doack 128 65536 zalloc tp2 sacks (sq iss ack) = Done (tp', ch) /\ acked 128 65536 zalloc iss 0 ack 100 fack hs ps tp2 fack' hs' tp'.
Proof. split; [vm_compute; reflexivity|]. exact (scoreboard_sound 128 65536 zalloc iss (fun _ _ => True) tp2 0 100 _ board2_reach). Defined.

Lemma sack_output_walk_witness :
  h_start <$> next_rexmit (snd_holes tp2) = Some (sq iss 0) /\
  exists tp' o, sack_pick tp2 1000 15 (sq iss 100) = Done (tp', o) /\
    forall p len, o = Some (p, len) -> next_rexmit (snd_holes tp2) = Some p /\ 0 <= len <= u32 (h_end p - h_rxmit p).
Proof.
  split; [vm_compute; reflexivity|]. apply (proj2 (sack_output_walk 128 65536 zalloc iss (fun _ _ => True) tp2 0 100 _ board2_reach)). vm_compute. done.
Defined.

Lemma sack_adjust_skips_witness :
  snd_nxt (tcp_sack_adjust tp2) = sq iss 30 /\
  exists nxt', tcp_sack_adjust tp2 = with_nxt (sq iss nxt') tp2 /\ 25 <= nxt' <= 100 /\
    (forall x, 25 <= x < nxt' -> reported [(20, 30); (40, 60)] x) /\
    exists fack hs, score iss 0 100 fack hs tp2 /\ (cover hs nxt' \/ fack <= nxt' \/ forall x, cover hs x -> nxt' < x).
Proof.
  split; [vm_compute; reflexivity|]. apply (sack_adjust_skips 128 65536 zalloc iss (fun _ _ => True) tp2 0 100 _ 25 board2_reach); [vm_compute; reflexivity|lia].
Defined.

(** The first hole cannot be allocated: the scoreboard stays empty, which the assertion
    of tcp_sack_doack excludes. *)
Lemma no_first_hole :
  exists tp', tcp_sack_doack 0 65536 zalloc tp0 (Some [blk iss (20, 30)]) (sq iss 0) = Done (tp', 0) /\ snd_holes tp' = [].
Proof. eexists. split; vm_compute; reflexivity. Qed.

(** More was retransmitted than the window is: the difference wraps around. *)
Lemma cwin_wraps : sack_cwin 1000 15 16 = 4294967295.
Proof. reflexivity. Qed.

(** A hole that was retransmitted in full is split, and the hint stays on its front:
    tcp_sack_output goes over two links. *)
Definition tp3 : sndcb := match sack_sent 7 20 (ack tp0 [(20, 30); (60, 70)] 0) with Done tp => tp | _ => tp0 end.
Definition tp4 : sndcb := ack tp3 [(5, 10)] 0.
Lemma two_links :
  nexthole tp4 = Some 7 /\
  (fun h => (h_id h, h_rxmit h =? h_end h)) <$> snd_holes tp4 = [(7, true); (9, true); (8, false)].
Proof. vm_compute. by split. Qed.
End Run.
