(* ===== verification/TcpOpts.v ===== *)
(** TCP options on the wire (src/freebsd/netinet/tcp_output.c: tcp_addoptions; tcp_input.c:
    tcp_dooptions), and the blocks that tcp_sack_doack reads from them: the parser is
    safe on any bytes, and reads what was written.  Signatures and Fast Open are not
    compiled in. *)
From stdpp Require Import base list.
From Stdlib Require Import ZArith Lia.
From S2P Require Import Prelude TcpReass TcpReassSpec TcpSack TcpHoles TcpHolesSpec TcpScore.

Local Open Scope Z_scope.

Definition TCPOPT_EOL : Z := 0.
Definition TCPOPT_PAD : Z := 0.
Definition TCPOPT_NOP : Z := 1.
Definition TCPOPT_MAXSEG : Z := 2.
Definition TCPOLEN_MAXSEG : Z := 4.
Definition TCPOPT_WINDOW : Z := 3.
Definition TCPOLEN_WINDOW : Z := 3.
Definition TCPOPT_SACK_PERMITTED : Z := 4.
Definition TCPOLEN_SACK_PERMITTED : Z := 2.
Definition TCPOPT_SACK : Z := 5.
Definition TCPOLEN_SACKHDR : Z := 2.
Definition TCPOLEN_SACK : Z := 8.
Definition TCPOPT_TIMESTAMP : Z := 8.
Definition TCPOLEN_TIMESTAMP : Z := 10.
Definition TCP_MAX_WINSHIFT : Z := 14.
Definition TCP_MAXOLEN : Z := 40.
Definition TOF_MSS : Z := 1.
Definition TOF_SCALE : Z := 2.
Definition TOF_SACKPERM : Z := 4.
Definition TOF_TS : Z := 16.
Definition TOF_SACK : Z := 128.
Definition TO_SYN : Z := 1.

(** to_sacks points to the blocks of a connection, or into an option. *)
Inductive sacks_ptr := Blocks (l : list sackblk) | Wire (bs : list Z).

Record tcpopt := TcpOpt {
  to_flags : Z; to_tsval : Z; to_tsecr : Z; to_sacks : sacks_ptr; to_mss : Z; to_wscale : Z; to_nsacks : Z
}.

Definition with_flags (f : Z) (t : tcpopt) : tcpopt := TcpOpt f (to_tsval t) (to_tsecr t) (to_sacks t) (to_mss t) (to_wscale t) (to_nsacks t).
Definition with_ts (v e : Z) (t : tcpopt) : tcpopt := TcpOpt (to_flags t) v e (to_sacks t) (to_mss t) (to_wscale t) (to_nsacks t).
Definition with_sacks (p : sacks_ptr) (n : Z) (t : tcpopt) : tcpopt := TcpOpt (to_flags t) (to_tsval t) (to_tsecr t) p (to_mss t) (to_wscale t) n.
Definition with_mss (m : Z) (t : tcpopt) : tcpopt := TcpOpt (to_flags t) (to_tsval t) (to_tsecr t) (to_sacks t) m (to_wscale t) (to_nsacks t).
Definition with_wscale (w : Z) (t : tcpopt) : tcpopt := TcpOpt (to_flags t) (to_tsval t) (to_tsecr t) (to_sacks t) (to_mss t) w (to_nsacks t).

(** Bytes of a number in memory, and the conversions of byte order. *)
Definition octet (i x : Z) : Z := x / 2 ^ (8 * i) mod 256.
Definition ld16 (a b : Z) : Z := a + 256 * b.
Definition ld32 (a b c d : Z) : Z := a + 256 * b + 65536 * c + 16777216 * d.
Definition bswap16 (x : Z) : Z := ld16 (octet 1 x) (octet 0 x).
Definition bswap32 (x : Z) : Z := ld32 (octet 3 x) (octet 2 x) (octet 1 x) (octet 0 x).
Definition st16 (x : Z) : list Z := [octet 0 x; octet 1 x].
Definition st32 (x : Z) : list Z := [octet 0 x; octet 1 x; octet 2 x; octet 3 x].

(** * tcp_addoptions *)

(** Behind the buffer of TCP_MAXOLEN bytes is a [Fault]. *)
Definition emit (bs out : list Z) : outcome (list Z) :=
  if Z.of_nat (length out + length bs) <=? TCP_MAXOLEN then Done (out ++ bs) else Fault.

(** The loops that align an option; they stop within four bytes. *)
Fixpoint align (fuel : nat) (more : Z -> bool) (optlen : Z) (out : list Z) : outcome (Z * list Z) :=
  if more optlen then
    match fuel with O => Loop | S n => out ← emit [TCPOPT_NOP] out; align n more (optlen + 1) out end
  else Done (optlen, out).

(** The loop over the blocks. *)
Fixpoint emit_sacks (n : nat) (l : list sackblk) (optlen : Z) (out : list Z) : outcome (Z * list Z) :=
  match n with
  | O => Done (optlen, out)
  | S n =>
      match l with
      | [] => Fault
      | b :: r =>
          out ← emit (st32 (bswap32 b.1)) out;
          out ← emit (st32 (bswap32 b.2)) out;
          emit_sacks n r (optlen + TCPOLEN_SACK) out
      end
  end.

Definition room_below (optlen n : Z) : bool := u64 (TCP_MAXOLEN - optlen) <? n.

(** One case of the switch; an unknown option panics. *)
Definition add_option (mask : Z) (to : tcpopt) (optlen : Z) (out : list Z) : outcome (tcpopt * Z * list Z) :=
  if mask =? TOF_MSS then
    x ← align 4 (fun n => negb (n mod 4 =? 0)) optlen out;
    let '(optlen, out) := x in
    if room_below optlen TCPOLEN_MAXSEG then Done (to, optlen, out) else
    out ← emit [TCPOPT_MAXSEG; TCPOLEN_MAXSEG] out;
    let to := with_mss (bswap16 (to_mss to)) to in
    out ← emit (st16 (to_mss to)) out;
    Done (to, optlen + TCPOLEN_MAXSEG, out)
  else if mask =? TOF_SCALE then
    x ← align 4 (fun n => (n =? 0) || negb (n mod 2 =? 1)) optlen out;
    let '(optlen, out) := x in
    if room_below optlen TCPOLEN_WINDOW then Done (to, optlen, out) else
    out ← emit [TCPOPT_WINDOW; TCPOLEN_WINDOW; to_wscale to] out;
    Done (to, optlen + TCPOLEN_WINDOW, out)
  else if mask =? TOF_SACKPERM then
    x ← align 4 (fun n => negb (n mod 2 =? 0)) optlen out;
    let '(optlen, out) := x in
    if room_below optlen TCPOLEN_SACK_PERMITTED then Done (to, optlen, out) else
    out ← emit [TCPOPT_SACK_PERMITTED; TCPOLEN_SACK_PERMITTED] out;
    Done (to, optlen + TCPOLEN_SACK_PERMITTED, out)
  else if mask =? TOF_TS then
    x ← align 4 (fun n => (n =? 0) || negb (n mod 4 =? 2)) optlen out;
    let '(optlen, out) := x in
    if room_below optlen TCPOLEN_TIMESTAMP then Done (to, optlen, out) else
    out ← emit [TCPOPT_TIMESTAMP; TCPOLEN_TIMESTAMP] out;
    let to := with_ts (bswap32 (to_tsval to)) (bswap32 (to_tsecr to)) to in
    out ← emit (st32 (to_tsval to)) out;
    out ← emit (st32 (to_tsecr to)) out;
    Done (to, optlen + TCPOLEN_TIMESTAMP, out)
  else if mask =? TOF_SACK then
    x ← align 4 (fun n => (n =? 0) || negb (n mod 4 =? 2)) optlen out;
    let '(optlen, out) := x in
    if room_below optlen (TCPOLEN_SACKHDR + TCPOLEN_SACK) then Done (to, optlen, out) else
    let optlen := optlen + TCPOLEN_SACKHDR in
    let sackblks := Z.min (to_nsacks to) (u64 (TCP_MAXOLEN - optlen) / TCPOLEN_SACK) in
    out ← emit [TCPOPT_SACK; TCPOLEN_SACKHDR + sackblks * TCPOLEN_SACK] out;
    match to_sacks to with
    | Blocks l => x ← emit_sacks (Z.to_nat sackblks) l optlen out; let '(optlen, out) := x in Done (to, optlen, out)
    | Wire _ => Fault
    end
  else Fault.

Fixpoint add_loop (masks : list Z) (to : tcpopt) (optlen : Z) (out : list Z) : outcome (tcpopt * Z * list Z) :=
  match masks with
  | [] => Done (to, optlen, out)
  | m :: r =>
      if negb (Z.land (to_flags to) m =? m) then add_loop r to optlen out
      else if optlen =? TCP_MAXOLEN then Done (to, optlen, out)
      else x ← add_option m to optlen out; let '(to, optlen, out) := x in add_loop r to optlen out
  end.

(** The zeros behind the end. *)
Fixpoint add_pad (fuel : nat) (optlen : Z) (out : list Z) : outcome (Z * list Z) :=
  if negb (optlen mod 4 =? 0) then
    match fuel with O => Loop | S n => out ← emit [TCPOPT_PAD] out; add_pad n (optlen + 1) out end
  else Done (optlen, out).

(** The options, their length, and the bytes; with the assertion. *)
Definition tcp_addoptions (to : tcpopt) : outcome (tcpopt * Z * list Z) :=
  x ← add_loop [1; 2; 4; 8; 16; 32; 64; 128; 256] to 0 [];
  let '(to, optlen, out) := x in
  x ← (if negb (optlen mod 4 =? 0) then out ← emit [TCPOPT_EOL] out; Done (optlen + 1, out) else Done (optlen, out));
  let '(optlen, out) := x in
  x ← add_pad 4 optlen out;
  let '(optlen, out) := x in
  if optlen <=? TCP_MAXOLEN then Done (to, optlen, out) else Fault.

(** * tcp_dooptions *)

(** Behind the bytes of the header is a [Fault]. *)
Definition byte (cp : list Z) (i : nat) : outcome Z := match cp !! i with Some b => Done b | None => Fault end.

Definition get16 (cp : list Z) (i : nat) : outcome Z :=
  a ← byte cp i; b ← byte cp (i + 1); Done (bswap16 (ld16 a b)).
Definition get32 (cp : list Z) (i : nat) : outcome Z :=
  a ← byte cp i; b ← byte cp (i + 1); c ← byte cp (i + 2); d ← byte cp (i + 3); Done (bswap32 (ld32 a b c d)).

Definition winscale (b : Z) : Z := Z.min b TCP_MAX_WINSHIFT.

Definition add_flag (f : Z) (to : tcpopt) : tcpopt := with_flags (Z.lor (to_flags to) f) to.

Section input.
Context (V_tcp_do_sack : bool).

(** One case of the switch. *)
Definition do_option (to : tcpopt) (cp : list Z) (opt optlen flags : Z) : outcome tcpopt :=
  let syn := negb (Z.land flags TO_SYN =? 0) in
  if opt =? TCPOPT_MAXSEG then
    if negb (optlen =? TCPOLEN_MAXSEG) || negb syn then Done to else
    m ← get16 cp 2; Done (with_mss m (add_flag TOF_MSS to))
  else if opt =? TCPOPT_WINDOW then
    if negb (optlen =? TCPOLEN_WINDOW) || negb syn then Done to else
    w ← byte cp 2; Done (with_wscale (winscale w) (add_flag TOF_SCALE to))
  else if opt =? TCPOPT_TIMESTAMP then
    if negb (optlen =? TCPOLEN_TIMESTAMP) then Done to else
    v ← get32 cp 2; e ← get32 cp 6; Done (with_ts v e (add_flag TOF_TS to))
  else if opt =? TCPOPT_SACK_PERMITTED then
    if negb (optlen =? TCPOLEN_SACK_PERMITTED) || negb syn || negb V_tcp_do_sack then Done to else
    Done (add_flag TOF_SACKPERM to)
  else if opt =? TCPOPT_SACK then
    if (optlen <=? 2) || negb ((optlen - 2) mod TCPOLEN_SACK =? 0) || syn then Done to else
    Done (with_sacks (Wire (drop 2 cp)) ((optlen - 2) / TCPOLEN_SACK) (add_flag TOF_SACK to))
  else Done to.

Fixpoint do_loop (fuel : nat) (to : tcpopt) (cp : list Z) (cnt flags : Z) : outcome tcpopt :=
  if cnt <=? 0 then Done to else
  match fuel with
  | O => Loop
  | S n =>
      opt ← byte cp 0;
      if opt =? TCPOPT_EOL then Done to
      else if opt =? TCPOPT_NOP then do_loop n to (drop 1 cp) (cnt - 1) flags
      else if cnt <? 2 then Done to
      else
        optlen ← byte cp 1;
        if (optlen <? 2) || (optlen >? cnt) then Done to else
        to ← do_option to cp opt optlen flags;
        do_loop n to (drop (Z.to_nat optlen) cp) (cnt - optlen) flags
  end.

Definition tcp_dooptions (to : tcpopt) (cp : list Z) (cnt flags : Z) : outcome tcpopt :=
  do_loop (Z.to_nat cnt) (with_flags 0 to) cp cnt flags.
End input.

(** The blocks as tcp_sack_doack copies them. *)
Fixpoint get_sacks (n : nat) (cp : list Z) : outcome (list sackblk) :=
  match n with
  | O => Done []
  | S n => s ← get32 cp 0; e ← get32 cp 4; r ← get_sacks n (drop 8 cp); Done ((s, e) :: r)
  end.

Definition wire_sacks (to : tcpopt) : outcome (option (list sackblk)) :=
  if Z.land (to_flags to) TOF_SACK =? 0 then Done None else
  match to_sacks to with Wire bs => l ← get_sacks (Z.to_nat (to_nsacks to)) bs; Done (Some l) | Blocks _ => Fault end.

(** * The parser on any bytes *)

Definition is_byte (b : Z) : Prop := 0 <= b < 256.

Lemma octet_byte i x : is_byte (octet i x).
Proof. apply Z.mod_pos_bound. lia. Qed.

Lemma bswap32_range x : 0 <= bswap32 x < 4294967296.
Proof.
  unfold bswap32, ld32. pose proof (octet_byte 0 x). pose proof (octet_byte 1 x). pose proof (octet_byte 2 x). pose proof (octet_byte 3 x). unfold is_byte in *. lia.
Qed.

Lemma byte_in (cp : list Z) i : (i < length cp)%nat -> exists b, byte cp i = Done b /\ cp !! i = Some b.
Proof. intros H. unfold byte. destruct (lookup_lt_is_Some_2 cp i H) as (b & ->). by exists b. Qed.

Lemma get16_in cp i : (i + 2 <= length cp)%nat -> exists x, get16 cp i = Done x.
Proof.
  intros H. unfold get16. destruct (byte_in cp i) as (a & -> & _); [lia|]. destruct (byte_in cp (i + 1)) as (b & E & _); [lia|]. cbn [mbind outcome_bind].
  rewrite E. by eexists.
Qed.

Lemma get32_in cp i : (i + 4 <= length cp)%nat -> exists x, get32 cp i = Done x /\ 0 <= x < 4294967296.
Proof.
  intros H. unfold get32. destruct (byte_in cp i) as (a & -> & _); [lia|]. destruct (byte_in cp (i + 1)) as (b & Eb & _); [lia|].
  destruct (byte_in cp (i + 2)) as (c & Ec & _); [lia|]. destruct (byte_in cp (i + 3)) as (d & Ed & _); [lia|]. cbn [mbind outcome_bind].
  rewrite Eb, Ec, Ed. eexists. split; [done|]. apply bswap32_range.
Qed.

Lemma get_sacks_in n cp : (8 * n <= length cp)%nat -> exists l, get_sacks n cp = Done l /\ length l = n /\ Forall wire l.
Proof.
  revert cp; induction n as [|n IH]; intros cp H; [exists []; split_and!; done|]. cbn [get_sacks].
  destruct (get32_in cp 0) as (s & -> & Hs); [lia|]. destruct (get32_in cp 4) as (e & Ee & He); [lia|]. cbn [mbind outcome_bind]. rewrite Ee.
  destruct (IH (drop 8 cp)) as (l & -> & Hl & Hw); [rewrite length_drop; lia|]. eexists. split; [done|]. split; [simpl; lia|]. by constructor.
Qed.

(** The blocks of an option that was seen are there. *)
Definition sacks_there (to : tcpopt) : Prop :=
  Z.land (to_flags to) TOF_SACK <> 0 ->
  exists bs, to_sacks to = Wire bs /\ 0 <= to_nsacks to <= 4 /\ 8 * to_nsacks to <= Z.of_nat (length bs).

Lemma sacks_flag f to to' : Z.land f TOF_SACK = 0 -> to_flags to' = Z.lor (to_flags to) f -> to_sacks to' = to_sacks to -> to_nsacks to' = to_nsacks to ->
  sacks_there to -> sacks_there to'.
Proof. unfold sacks_there. intros H E1 E2 E3 Hs. rewrite E1, E2, E3, Z.land_lor_distr_l, H, Z.lor_0_r. done. Qed.

Lemma do_option_in ds to cp opt optlen flags : sacks_there to -> 2 <= optlen <= Z.of_nat (length cp) -> optlen <= TCP_MAXOLEN ->
  exists to', do_option ds to cp opt optlen flags = Done to' /\ sacks_there to'.
Proof.
  intros Hs Hl Hm. unfold do_option. set (syn := negb (Z.land flags TO_SYN =? 0)).
  destruct (opt =? TCPOPT_MAXSEG).
  { destruct (Z.eqb_spec optlen TCPOLEN_MAXSEG) as [->|]; [|by exists to]. destruct syn; [|by exists to]. cbn [negb orb]. unfold TCPOLEN_MAXSEG in *.
    destruct (get16_in cp 2) as (m & ->); [lia|]. eexists. split; [done|]. by apply (sacks_flag TOF_MSS to). }
  destruct (opt =? TCPOPT_WINDOW).
  { destruct (Z.eqb_spec optlen TCPOLEN_WINDOW) as [->|]; [|by exists to]. destruct syn; [|by exists to]. cbn [negb orb]. unfold TCPOLEN_WINDOW in *.
    destruct (byte_in cp 2) as (w & -> & _); [lia|]. eexists. split; [done|]. by apply (sacks_flag TOF_SCALE to). }
  destruct (opt =? TCPOPT_TIMESTAMP).
  { destruct (Z.eqb_spec optlen TCPOLEN_TIMESTAMP) as [->|]; [|by exists to]. cbn [negb]. unfold TCPOLEN_TIMESTAMP in *.
    destruct (get32_in cp 2) as (v & -> & _); [lia|]. destruct (get32_in cp 6) as (e & Ee & _); [lia|]. cbn [mbind outcome_bind]. rewrite Ee.
    eexists. split; [done|]. by apply (sacks_flag TOF_TS to). }
  destruct (opt =? TCPOPT_SACK_PERMITTED).
  { destruct (_ || negb ds); [by exists to|]. eexists. split; [done|]. by apply (sacks_flag TOF_SACKPERM to). }
  destruct (opt =? TCPOPT_SACK); [|by exists to]. destruct (_ || syn) eqn:Ec; [by exists to|]. apply orb_false_iff in Ec as [[E1 E2]%orb_false_iff _].
  apply negb_false_iff, Z.eqb_eq in E2. apply Z.leb_gt in E1. unfold TCP_MAXOLEN, TCPOLEN_SACK in *. eexists. split; [done|]. intros _. exists (drop 2 cp). split; [done|].
  cbn [to_nsacks with_sacks]. rewrite length_drop. pose proof (Z.div_mod (optlen - 2) 8 ltac:(lia)). lia.
Qed.

Lemma do_loop_in ds fuel to cp cnt flags : sacks_there to -> Z.of_nat (length cp) >= cnt -> cnt <= TCP_MAXOLEN -> cnt <= Z.of_nat fuel ->
  exists to', do_loop ds fuel to cp cnt flags = Done to' /\ sacks_there to'.
Proof.
  revert to cp cnt; induction fuel as [|n IH]; intros to cp cnt Hs Hc Hm Hf; cbn [do_loop]; (destruct (Z.leb_spec cnt 0); [by exists to|]); [lia|].
  destruct (byte_in cp 0) as (opt & -> & _); [lia|]. cbn [mbind outcome_bind]. destruct (opt =? TCPOPT_EOL); [by exists to|].
  destruct (opt =? TCPOPT_NOP); [apply IH; [done|rewrite length_drop; lia|lia|lia]|]. destruct (Z.ltb_spec cnt 2); [by exists to|].
  destruct (byte_in cp 1) as (ol & -> & _); [lia|]. cbn [mbind outcome_bind]. destruct (Z.ltb_spec ol 2); [by exists to|]. cbn [orb].
  destruct (Z.gtb_spec ol cnt); [by exists to|]. destruct (do_option_in ds to cp opt ol flags) as (to1 & -> & Hs1); [done|lia|lia|]. cbn [mbind outcome_bind].
  apply IH; [done|rewrite length_drop; lia|lia|lia].
Qed.

(** C13. tcp_dooptions is safe on every header: it reads only bytes of the options,
    it ends, and the SACK blocks that it points to lie in them and are at most four, as
    tcp_sack_doack relies on. *)
Theorem tcp_dooptions_safe ds to cp flags :
  Z.of_nat (length cp) <= TCP_MAXOLEN ->
  exists to' sacks, tcp_dooptions ds to cp (Z.of_nat (length cp)) flags = Done to' /\ wire_sacks to' = Done sacks /\ option_ok sacks.
Proof.
  intros H. unfold tcp_dooptions. destruct (do_loop_in ds (Z.to_nat (Z.of_nat (length cp))) (with_flags 0 to) cp (Z.of_nat (length cp)) flags) as (to1 & -> & Hs); [intros Hx; by destruct Hx|lia|done|lia|].
  exists to1. unfold wire_sacks. destruct (Z.eqb_spec (Z.land (to_flags to1) TOF_SACK) 0) as [|Hn]; [by exists None|].
  destruct (Hs Hn) as (bs & -> & H1 & H2). destruct (get_sacks_in (Z.to_nat (to_nsacks to1)) bs) as (l & -> & Hl & Hw); [lia|]. exists (Some l).
  split; [done|]. split; [done|]. split; [done|]. unfold TCP_MAX_SACK. lia.
Qed.

(** * What was written is read *)

Lemma octet_ld32 a b c d : is_byte a -> is_byte b -> is_byte c -> is_byte d ->
  octet 0 (ld32 a b c d) = a /\ octet 1 (ld32 a b c d) = b /\ octet 2 (ld32 a b c d) = c /\ octet 3 (ld32 a b c d) = d.
Proof.
  unfold is_byte, octet, ld32. intros Ha Hb Hc Hd. change (2 ^ (8 * 0)) with 1. change (2 ^ (8 * 1)) with 256. change (2 ^ (8 * 2)) with 65536. change (2 ^ (8 * 3)) with 16777216.
  Z.to_euclidean_division_equations. lia.
Qed.

(** A number as its bytes. *)
Lemma ld32_octets x : 0 <= x < 4294967296 -> ld32 (octet 0 x) (octet 1 x) (octet 2 x) (octet 3 x) = x.
Proof.
  unfold octet, ld32. intros H. change (2 ^ (8 * 0)) with 1. change (2 ^ (8 * 1)) with 256. change (2 ^ (8 * 2)) with 65536. change (2 ^ (8 * 3)) with 16777216.
  Z.to_euclidean_division_equations. lia.
Qed.

Lemma octet_ld16 a b : is_byte a -> is_byte b -> octet 0 (ld16 a b) = a /\ octet 1 (ld16 a b) = b.
Proof.
  unfold is_byte, octet, ld16. intros Ha Hb. change (2 ^ (8 * 0)) with 1. change (2 ^ (8 * 1)) with 256. Z.to_euclidean_division_equations. lia.
Qed.

Lemma ld16_octets x : 0 <= x < 65536 -> ld16 (octet 0 x) (octet 1 x) = x.
Proof. unfold octet, ld16. intros H. change (2 ^ (8 * 0)) with 1. change (2 ^ (8 * 1)) with 256. Z.to_euclidean_division_equations. lia. Qed.

(** The conversions cancel, through memory. *)
Lemma swap32_back x : 0 <= x < 4294967296 -> bswap32 (ld32 (octet 0 (bswap32 x)) (octet 1 (bswap32 x)) (octet 2 (bswap32 x)) (octet 3 (bswap32 x))) = x.
Proof.
  intros H. rewrite ld32_octets by apply bswap32_range. unfold bswap32 at 2. unfold bswap32.
  destruct (octet_ld32 (octet 3 x) (octet 2 x) (octet 1 x) (octet 0 x)) as (-> & -> & -> & ->); try apply octet_byte. by apply ld32_octets.
Qed.

Lemma swap16_back x : 0 <= x < 65536 -> bswap16 (ld16 (octet 0 (bswap16 x)) (octet 1 (bswap16 x))) = x.
Proof.
  intros H. assert (Hr : 0 <= bswap16 x < 65536) by (unfold bswap16, ld16; pose proof (octet_byte 0 x); pose proof (octet_byte 1 x); unfold is_byte in *; lia).
  rewrite ld16_octets by done. unfold bswap16 at 2. unfold bswap16.
  destruct (octet_ld16 (octet 1 x) (octet 0 x)) as (-> & ->); try apply octet_byte. by apply ld16_octets.
Qed.

Definition flags_of (mss scale perm ts sack : bool) : Z :=
  (if mss then TOF_MSS else 0) + (if scale then TOF_SCALE else 0) + (if perm then TOF_SACKPERM else 0) + (if ts then TOF_TS else 0) + (if sack then TOF_SACK else 0).

(** What a run of the writer and then of the parser gives. *)
Definition options_read (mss scale perm ts sack syn : bool) (m w tv te : Z) (l : list sackblk) (to0 : tcpopt) : Prop :=
  exists to1 n bytes to2 k,
    tcp_addoptions (TcpOpt (flags_of mss scale perm ts sack) tv te (Blocks l) m w (Z.of_nat (length l))) = Done (to1, n, bytes) /\
    n = Z.of_nat (length bytes) /\ n <= TCP_MAXOLEN /\ n mod 4 = 0 /\
    tcp_dooptions true to0 bytes n (if syn then TO_SYN else 0) = Done to2 /\
    to_flags to2 = flags_of (mss && syn) (scale && syn) (perm && syn) ts (sack && negb syn) /\
    (mss && syn = true -> to_mss to2 = m) /\ (scale && syn = true -> to_wscale to2 = Z.min w TCP_MAX_WINSHIFT) /\
    (ts = true -> to_tsval to2 = tv /\ to_tsecr to2 = te) /\
    wire_sacks to2 = Done (if sack && negb syn then Some (take k l) else None) /\
    (2 <= k)%nat /\ (mss || scale || perm = false -> k = if ts then 3%nat else 4%nat).

(** A case of concrete options: both sides are run, and the bytes put together. *)
Ltac run_options k :=
  do 4 eexists; exists k; split; [lazy -[octet bswap16 bswap32 winscale]; reflexivity|]; split; [reflexivity|]; split; [by vm_compute|]; split; [reflexivity|];
  split; [lazy -[octet bswap16 bswap32 ld16 ld32 winscale]; reflexivity|];
  split; [reflexivity|]; cbn [to_mss to_wscale to_tsval to_tsecr andb negb]; rewrite ?swap16_back, ?swap32_back by done;
  split; [done|]; split; [done|]; split; [done|];
  lazy -[octet bswap16 bswap32 ld16 ld32 winscale]; rewrite ?swap32_back by done; split; [reflexivity|]; split; [lia|done].

(** The other options, with room for two, three or four blocks. *)
Ltac all_options ts syn mss scale perm := destruct ts, syn, mss, scale, perm; first [run_options 2%nat|run_options 3%nat|run_options 4%nat].

Section cases.
Context (m w tv te : Z) (to0 : tcpopt).
Hypothesis Hm : 0 <= m < 65536.
Hypothesis Hv : 0 <= tv < 4294967296.
Hypothesis He : 0 <= te < 4294967296.

Lemma read_plain mss scale perm ts syn l : options_read mss scale perm ts false syn m w tv te l to0.
Proof. all_options ts syn mss scale perm. Qed.

Lemma read_sacks mss scale perm ts syn l : Forall wire l -> (1 <= length l <= MAX_SACK_BLKS)%nat -> options_read mss scale perm ts true syn m w tv te l to0.
Proof.
  intros Hw Hl. unfold MAX_SACK_BLKS in Hl.
  destruct l as [|[a1 a2] l]; [simpl in Hl; lia|]. apply Forall_cons in Hw as [[A1 A2] Hw]. cbn [fst snd] in A1, A2.
  destruct l as [|[b1 b2] l]; [all_options ts syn mss scale perm|].
  apply Forall_cons in Hw as [[B1 B2] Hw]. cbn [fst snd] in B1, B2.
  destruct l as [|[c1 c2] l]; [all_options ts syn mss scale perm|].
  apply Forall_cons in Hw as [[C1 C2] Hw]. cbn [fst snd] in C1, C2.
  destruct l as [|[d1 d2] l]; [all_options ts syn mss scale perm|].
  apply Forall_cons in Hw as [[D1 D2] Hw]. cbn [fst snd] in D1, D2.
  destruct l as [|[e1 e2] l]; [all_options ts syn mss scale perm|].
  destruct l as [|[f1 f2] l]; [all_options ts syn mss scale perm|].
  destruct l as [|g l]; [|simpl in Hl; lia]. all_options ts syn mss scale perm.
Qed.
End cases.

(** C14. Options survive the wire: whatever options a segment carries, tcp_addoptions
    writes at most 40 bytes, a multiple of four, and tcp_dooptions reads from them the
    options that a segment of its kind may have, with their values: the segment size,
    the shift up to 14, both timestamps, and at least the first two SACK blocks, the
    first three or four without options of a SYN. *)
Theorem tcp_options_roundtrip mss scale perm ts sack syn m w tv te l to0 :
  0 <= m < 65536 -> 0 <= tv < 4294967296 -> 0 <= te < 4294967296 -> Forall wire l -> (1 <= length l <= MAX_SACK_BLKS)%nat ->
  options_read mss scale perm ts sack syn m w tv te l to0.
Proof. intros Hm Hv He Hw Hl. destruct sack; [by apply read_sacks|by apply read_plain]. Qed.

Definition ex_blocks : list sackblk := [(4294967295, 5); (20, 30); (40, 50); (60, 61)].
Definition ex_to : tcpopt := TcpOpt 7 0 0 (Wire []) 0 0 0.

Lemma tcp_options_roundtrip_witness :
  tcp_addoptions (TcpOpt (flags_of true true true true false) 1 2 (Blocks ex_blocks) 1460 7 4) =
    Done (TcpOpt (flags_of true true true true false) 16777216 33554432 (Blocks ex_blocks) 46085 7 4, 20,
      [2; 4; 5; 180; 1; 3; 3; 7; 4; 2; 8; 10; 0; 0; 0; 1; 0; 0; 0; 2]) /\
  options_read false false false true true false 0 0 1 2 ex_blocks ex_to.
Proof.
  split; [vm_compute; reflexivity|]. apply tcp_options_roundtrip; [lia|lia|lia|repeat constructor; cbn; lia|unfold MAX_SACK_BLKS; simpl; lia].
Defined.

(** A SACK option that says ten blocks and has two bytes of them. *)
Lemma tcp_dooptions_safe_witness :
  exists to' sacks, tcp_dooptions true ex_to [1; 5; 82; 0; 0] 5 0 = Done to' /\ wire_sacks to' = Done sacks /\ option_ok sacks.
Proof. apply (tcp_dooptions_safe true ex_to [1; 5; 82; 0; 0] 0). vm_compute. done. Defined.
