(* ===== verification/TcpSackNet.v ===== *)
(** SACK from end to end: the report of a receiver (TcpSack) is written as an option,
    read by the peer (TcpOpts) and taken into its scoreboard (TcpScoreProps). *)
From stdpp Require Import base list.
From Stdlib Require Import ZArith Lia.
From S2P Require Import Prelude TcpReass TcpReassSpec TcpReassProps TcpSack TcpHoles TcpHolesSpec TcpScore TcpScoreProps TcpOpts.

Local Open Scope Z_scope.

Section net.
Context {B M : Type} `{!RecvBuf B M, !RecvBufLaws B M}.
Context (zalloc : Z -> bool) (D : Z -> Z) (isn W : Z).
Hypothesis HW : 0 < W < 2 ^ 31.
Context (maxholes globalmaxholes : Z) (zalloc_hole : Z -> bool).
#[local] Abbreviation sq := (sq isn).
#[local] Abbreviation blk := (blk isn).

(** A report [blks] goes over the wire in an acknowledgement, beside a timestamp or not. *)
Definition over_wire (blks : list sackblk) (sacks : option (list sackblk)) : Prop :=
  if decide (blks = []) then sacks = None else
  exists ts tv te to0 to1 n bytes to2, 0 <= tv < 4294967296 /\ 0 <= te < 4294967296 /\
    tcp_addoptions (TcpOpt (flags_of false false false ts true) tv te (Blocks blks) 0 0 (Z.of_nat (length blks))) = Done (to1, n, bytes) /\
    tcp_dooptions true to0 bytes n 0 = Done to2 /\ wire_sacks to2 = Done sacks.

(** An acknowledgement of a state of the receiver, which has accepted nothing but bytes
    of [Acc] then. *)
Definition carried (Acc : Z -> Prop) (a : Z) (sacks : option (list sackblk)) : Prop :=
  exists (tp : tcb B M) out acc blks,
    sack_reach zalloc D isn W tp a out acc blks /\ (forall x, accepted acc x -> Acc x) /\ over_wire blks sacks.

Lemma sq_range x : 0 <= sq x < 4294967296.
Proof. unfold TcpSack.sq, wrapu. apply Z.mod_pos_bound. lia. Qed.

Lemma sq_inj x y : -4294967296 < x - y < 4294967296 -> sq x = sq y -> x = y.
Proof.
  unfold TcpSack.sq, wrapu. change (2 ^ 32) with 4294967296. intros H E.
  pose proof (Z.div_mod (isn + x) 4294967296 ltac:(lia)). pose proof (Z.div_mod (isn + y) 4294967296 ltac:(lia)). lia.
Qed.

(** What arrives of a report is its first three or four blocks. *)
Lemma wire_blocks ps sacks : (length ps <= MAX_SACK_BLKS)%nat -> over_wire (blk <$> ps) sacks ->
  (ps = [] /\ sacks = None) \/ (ps <> [] /\ exists k, (3 <= k <= 4)%nat /\ sacks = Some (blk <$> take k ps)).
Proof.
  intros Hl. unfold over_wire. destruct ps as [|p ps]; [intros ->; by left|]. rewrite decide_False by done.
  intros (ts & tv & te & to0 & to1 & n & bytes & to2 & H1 & H2 & E1 & E2 & E3). right. split; [done|].
  destruct (read_sacks 0 0 tv te to0 ltac:(lia) H1 H2 false false false ts false (blk <$> p :: ps)) as (to1' & n' & b' & to2' & k & F1 & _ & _ & _ & F2 & _ & _ & _ & _ & F3 & _ & Fk).
  - apply Forall_fmap, Forall_true. intros q. split; apply sq_range.
  - rewrite length_fmap. simpl in *. lia.
  - rewrite E1 in F1. injection F1 as <- <- <-. rewrite E2 in F2. injection F2 as <-. rewrite E3 in F3. injection F3 as ->.
    exists k. split; [rewrite (Fk eq_refl); destruct ts; lia|]. by rewrite fmap_take.
Qed.

(** Blocks that the sender finds valid are blocks of the report. *)
Lemma carried_accepted Acc una a smax ps sacks tp : carried Acc a sacks -> una <= smax < una + 2147483648 -> smax - 2147483648 < a <= smax ->
  valid_blocks tp (sq a) sacks = blk <$> ps -> Forall (beyond una a smax) ps -> forall p x, p ∈ ps -> within p x -> Acc x.
Proof.
  intros (tpr & out & acc & blks & Hr & Hacc & Hwire) Hw Ha Ev Hb p x Hp Hx. change (2 ^ 31) with 2147483648 in HW.
  destruct (sack_inv zalloc D isn W HW _ _ _ _ _ Hr) as (_ & _ & qs & [Q1 Q2 Q3 Q4 Q5]). rewrite Q1 in Hwire.
  assert (Hin : blk p ∈ blk <$> ps) by (by apply list_elem_of_fmap_2). rewrite <- Ev in Hin.
  destruct (wire_blocks qs sacks Q2 Hwire) as [[-> ->]|(Hn & k & Hk & ->)]; [by apply not_elem_of_nil in Hin|].
  cbn [valid_blocks] in Hin. apply list_elem_of_In, filter_In in Hin as [Hin _]. apply list_elem_of_In, list_elem_of_fmap in Hin as (q & Eq & Hq).
  apply (subseteq_take k qs) in Hq. rewrite Forall_forall in Hb, Q4. pose proof (Hb p Hp) as [B1 B2]. pose proof (Q4 q Hq) as (I1 & I2 & I3).
  injection Eq as E1 E2. apply sq_inj in E1; [|lia]. apply sq_inj in E2; [|lia]. apply Hacc. apply (Q5 q x Hq). unfold within in *. lia.
Qed.

Lemma carried_reported Acc tp una smax reps : board_reach maxholes globalmaxholes zalloc_hole isn (carried Acc) tp una smax reps ->
  forall x, reported reps x -> Acc x.
Proof.
  induction 1 as [|tp una smax reps ack sacks ps tp' ch Hr IH Hc Ha Ho Ev Hb E| | | | | |]; try done; try (intros x (p & Hp & _); by apply not_elem_of_nil in Hp).
  intros x (p & [Hp|Hp]%elem_of_app & Hx); [|apply IH; by exists p]. destruct (reach_known _ _ _ _ _ _ _ _ _ Hr) as (f & hs & [S1 S2 S3 S4 S5 _ _ _] & _).
  pose proof (holes_ok_le _ _ _ S5). eapply (carried_accepted Acc una ack smax); [exact Hc|lia|lia|exact Ev|exact Hb|exact Hp|exact Hx].
Qed.

(** The checks of tcp_sack_doack hold for what lies between the acknowledgement and
    snd_max. *)
Lemma valid_true una a smax q tp : snd_una tp = sq una -> snd_max tp = sq smax -> una <= smax < una + 2147483648 -> smax - 2147483648 < a <= smax ->
  beyond una a smax q -> sack_valid tp (sq a) (blk q) = true.
Proof.
  intros E1 E2 Hw Ha [B1 B2]. unfold sack_valid. rewrite E1, E2. change ((blk q).1) with (sq q.1). change ((blk q).2) with (sq q.2).
  rewrite !sq_gt, sq_lt, sq_leq by lia. rewrite !andb_true_iff, !Z.ltb_lt, Z.leb_le. lia.
Qed.

(** C10. SACK from end to end: when every acknowledgement that the sender sees carries
    the report of a state of the receiver, old ones and repeated ones too, each byte
    below snd_fack that is in no hole of the sender was accepted by the receiver; and
    from the report of its present state the sender takes all bytes of the first three
    blocks out of the holes, when five more holes can be allocated. *)
Theorem sack_end_to_end Acc tps una smax reps :
  board_reach maxholes globalmaxholes zalloc_hole isn (carried Acc) tps una smax reps ->
  exists fack hs, score isn una smax fack hs tps /\
    (forall x, una <= x < fack -> ~ cover hs x -> Acc x) /\
    forall (tpr : tcb B M) rcv out acc blks sacks,
      sack_reach zalloc D isn W tpr rcv out acc blks -> over_wire blks sacks ->
      una <= rcv <= smax -> (forall x, accepted acc x -> x < smax) ->
      exists qs tps' ch hs', blks = blk <$> qs /\
        tcp_sack_doack maxholes globalmaxholes zalloc_hole tps sacks (sq rcv) = Done (tps', ch) /\ snd_holes tps' = sqh isn <$> hs' /\
        (enough maxholes globalmaxholes zalloc_hole tps 5 -> forall q x, q ∈ take 3 qs -> within q x -> ~ cover hs' x).
Proof.
  intros H. pose proof (carried_reported _ _ _ _ _ H) as Hrep. destruct (reach_known _ _ _ _ _ _ _ _ _ H) as (fack & hs & Hs & Hk). exists fack, hs.
  split; [done|]. split; [intros x Hx Hc; by apply Hrep, Hk|]. intros tpr rcv out acc blks sacks Hr Hwire Hrcv Hlt.
  destruct (sack_inv zalloc D isn W HW _ _ _ _ _ Hr) as (_ & _ & qs & [Q1 Q2 Q3 Q4 Q5]). rewrite Q1 in Hwire. exists qs.
  pose proof Hs as [S1 S2 S3 S4 S5 _ _ _]. pose proof (holes_ok_le _ _ _ S5) as Hle.
  assert (Hbey : Forall (beyond una rcv smax) qs).
  { apply Forall_forall. intros q Hq. rewrite Forall_forall in Q4. pose proof (Q4 q Hq) as (I1 & I2 & I3).
    pose proof (Hlt _ (Q5 q (q.2 - 1) Hq ltac:(unfold within; lia))). unfold beyond. lia. }
  assert (Ho : option_ok sacks).
  { destruct (wire_blocks qs sacks Q2 Hwire) as [[_ ->]|(_ & k & Hk' & ->)]; [done|]. split; [apply Forall_fmap, Forall_true; intros q; split; apply sq_range|].
    rewrite length_fmap, length_take. unfold TCP_MAX_SACK. lia. }
  destruct (doack_spec maxholes globalmaxholes zalloc_hole isn una rcv smax fack hs tps sacks Hs ltac:(lia) Ho) as (ps & Ev & Hb & tp' & ch & f & hs' & E & [A1 _ _ _ A5]).
  exists tp', ch, hs'. split; [done|]. split; [done|]. split; [apply (sc_holes _ _ _ _ _ _ A1)|]. intros He q x Hq Hx.
  destruct (wire_blocks qs sacks Q2 Hwire) as [[-> _]|(_ & k & Hk' & ->)]; [by apply not_elem_of_nil in Hq|].
  assert (Hqk : q ∈ take k qs) by (rewrite <- (take_drop 3 (take k qs)), take_take, Nat.min_l by lia; apply elem_of_app; by left).
  assert (Hqq : q ∈ qs) by (by apply (subseteq_take k)). rewrite Forall_forall in Hbey, Hb. pose proof (Hbey q Hqq) as Hbq.
  assert (Hv : blk q ∈ blk <$> ps).
  { rewrite <- Ev. cbn [valid_blocks]. apply list_elem_of_In, filter_In. split; [by apply list_elem_of_In, list_elem_of_fmap_2|]. apply (valid_true una rcv smax); done || lia. }
  apply list_elem_of_fmap in Hv as (p & Ep & Hp). pose proof (Hb p Hp) as [P1 P2]. destruct Hbq as [B1 B2].
  injection Ep as E1 E2. apply sq_inj in E1; [|lia]. apply sq_inj in E2; [|lia]. refine (proj1 (A5 _ p x Hp _)); [|unfold within in *; lia].
  eapply enough_le; [|exact He]. assert (Hlp : length (blk <$> ps) = length ps) by apply length_fmap. rewrite <- Ev in Hlp. cbn [valid_blocks] in Hlp.
  pose proof (filter_length_le (sack_valid tps (sq rcv)) (blk <$> take k qs)) as Hfl. rewrite length_fmap, length_take in Hfl. lia.
Qed.
End net.

(** * A run *)

Module Run.
#[local] Existing Instance Bytes.byte_buf.
#[local] Existing Instance Bytes.byte_buf_laws.

(** The receiver has [4, 8), and its report reaches the sender. *)
Definition iss : Z := Bytes.isn.
Definition zalloc_hole (n : Z) : bool := true.
Definition Acc (x : Z) : Prop := 4 <= x < 8.
Definition tp0 : sndcb := Snd (sq iss 0) (sq iss 100) (sq iss 100) 0 [] 0 0 None 0 0 0 0 0.
Definition to0 : tcpopt := TcpOpt 0 0 0 (Wire []) 0 0 0.
Definition sacks1 : option (list sackblk) := Some [blk iss (4, 8)].
Definition acked1 : sndcb := match tcp_sack_doack 128 65536 zalloc_hole tp0 sacks1 (sq iss 0) with Done (tp, _) => tp | _ => tp0 end.
Definition tp1 : sndcb := with_una (sq iss 0) acked1.

Lemma wire1 : over_wire ex1.2 sacks1.
Proof.
  assert (E : ex1.2 = [(1, 5)]) by (vm_compute; reflexivity). unfold over_wire. rewrite E, decide_False by done.
  exists true, 7, 9, to0. do 4 eexists. split; [lia|]. split; [lia|]. split; [vm_compute; reflexivity|]. split; [vm_compute; reflexivity|]. vm_compute; reflexivity.
Defined.

Lemma carried1 : carried Bytes.zalloc (fun x => x) iss 1000 Acc 0 sacks1.
Proof.
  exists ex1.1, [], [(4, 4)], ex1.2. split; [exact ex1_reach|]. split; [|exact wire1]. intros x (p & ->%list_elem_of_singleton & Hx). unfold Acc. cbn in Hx. lia.
Defined.

Lemma net1_reach : board_reach 128 65536 zalloc_hole iss (carried Bytes.zalloc (fun x => x) iss 1000 Acc) tp1 0 100 [(4, 8)].
Proof.
  refine (br_ack 128 65536 zalloc_hole iss _ tp0 0 100 [] 0 sacks1 [(4, 8)] acked1 1 _ carried1 _ _ _ _ _).
  - by constructor.
  - lia.
  - split; [|cbn; unfold TCP_MAX_SACK; lia]. repeat constructor; vm_compute; done.
  - vm_compute. reflexivity.
  - repeat constructor; cbn; lia.
  - vm_compute. reflexivity.
Defined.

Lemma sack_end_to_end_witness :
  (fun h => (h_start h, h_end h)) <$> snd_holes tp1 = [blk iss (0, 4)] /\
  exists fack hs, score iss 0 100 fack hs tp1 /\ (forall x, 0 <= x < fack -> ~ cover hs x -> Acc x) /\
    exists qs tps' ch hs', ex1.2 = blk iss <$> qs /\
      tcp_sack_doack 128 65536 zalloc_hole tp1 sacks1 (sq iss 0) = Done (tps', ch) /\ snd_holes tps' = sqh iss <$> hs' /\
      (enough 128 65536 zalloc_hole tp1 5 -> forall q x, q ∈ take 3 qs -> within q x -> ~ cover hs' x).
Proof.
  split; [vm_compute; reflexivity|].
  destruct (sack_end_to_end Bytes.zalloc (fun x => x) iss 1000 ltac:(lia) 128 65536 zalloc_hole Acc tp1 0 100 _ net1_reach) as (fack & hs & H1 & H2 & H3).
  exists fack, hs. split; [exact H1|]. split; [exact H2|]. apply (H3 ex1.1 0 [] [(4, 4)] ex1.2 sacks1 ex1_reach wire1); [lia|].
  intros x (p & ->%list_elem_of_singleton & Hx). cbn in Hx. lia.
Defined.
End Run.
